(* ===== verification/_CoqProject ===== *)
-Q . S2P
Prelude.v
Pump.v
Sock.v
GoStd.v
H2Frame.v
H2Headers.v
H2State.v
H2Recv.v
H2Safe.v
H2Conn.v
H2Feed.v
H2Send.v
H2Findings.v
H3Varint.v
H3Frame.v
H3Packet.v
GrpcMessage.v
GrpcStatus.v
GrpcServer.v
GrpcFeed.v
EngConn.v
EngLoop.v
EngEvents.v
EngServe.v
H2Engine.v
H2Stack.v
EngFindings.v
WsState.v
WsWrite.v
WsRead.v
WsPlain.v
WsSafe.v
WsWire.v
WsStream.v
WsParse.v
WsRound.v
WsEvents.v
WsTrace.v
WsCallbacks.v
WsChannel.v
WsFindings.v
WsHandshake.v
WsAgree.v
WsServe.v
WsServed.v
WsOptions.v
WsLoops.v
WsPool.v
TaskRing.v
TaskRingSafe.v
TaskQueue.v
TaskNode.v
TaskShard.v
H1Request.v
H1Parse.v
H1Writer.v
H1Reply.v
H1Server.v
H1Serve.v
H1Pipeline.v
H1Stack.v
H1Findings.v
LenPrefix.v
TlsRecord.v
TlsHello.v
TlsHelloFacts.v
TlsKeys.v
TlsKeysFacts.v
TlsSign.v
TlsState.v
TlsSafe.v
TlsStream.v
TlsChannel.v
TlsSignFacts.v
TlsHandshake.v
TlsToy.v
TlsFindings.v
TlsEngine.v
TlsStack.v
TlsPlain.v
