(* ===== verification/Prelude.v ===== *)
(** * A verification library for the protocol stack

    This development models the protocol core of the repository in Rocq and
    proves it correct: the event-driven connections of [engine] and
    [websocket], TLS 1.3 ([tls]), the HTTP/1 server ([http]), HTTP/2 ([http2])
    and gRPC on top of it ([grpc]), and the codecs of HTTP/3 ([http3]).  File
    names below are under [src/].

    ** How the program is put together

    An event loop ([engine/eventloop.go], or [websocket/event_loop.go] for the
    older websocket stack) gets readiness from the poller, reads what the kernel
    has into the connection's buffer and hands it to a protocol.  [engine] knows
    its protocols by the interface [Handler]; [http2/engine.go] makes an
    [http2.Conn] such a protocol: bytes go into [Feed], bytes come out of it.
    [http.ConnHandler] is another one: it assembles requests from the callbacks
    of [httparser], and its [ResponseWriter] writes to the connection.
    [tls.ConnHandler] is one that has another one inside: what is read goes
    through a [StateMachine], whose plaintext goes to the inner protocol, and a
    write hook encrypts what that protocol writes.
    [http2.Conn] cuts frames ([http2/frame.go]), runs the stream states and flow
    control ([http2/conn.go]) and calls a [StreamHandler]; the gRPC server
    ([grpc/server.go]) is one, and cuts messages ([grpc/message.go]) from the
    DATA of its streams.  [websocket] has its own connection, which reads,
    parses, answers control frames and corks replies; its own server, which
    reads the HTTP handshake from the descriptor ([server_tcp.go]); and its own
    event loops, which hand readiness to the workers of a parse pool through a
    lock-free ring ([task_parse.go], [task_ring.go]).

    ** The files

    - Prelude: bytes, words of fixed width, the monad [M S A] of the code (state
      passing; [None] is a run-time panic), its [wp] and [keeps] predicates,
      slices and strings.  Sock: results of system calls, waiting buffers,
      packed flags, shared by [engine] and [websocket].  GoStd: the functions of
      Go's library on strings, [utf8.Valid], and [float32] as far as the size of
      a read buffer needs it.
    - Pump: the loop that every parser of the repository is an instance of, with
      the class [Framing] it is verified against ([FramingCodec] with an
      encoder, [LocalFraming] when a unit is known from its own bytes).
    - H2Frame ([http2/frame.go], [errors.go]), H2Headers
      ([headers_validate.go]), H2State and H2Recv ([conn.go], [hpack.go]: the
      state with the heap of [Stream] objects, the sending and the receiving
      half).  H2Safe: the invariant [Inv] and the contract [HandlerOk] of stream
      handlers; H2Conn: every receive step keeps it; H2Feed and H2Send: what a
      user may rely on, and a concrete coder and handler for witnesses.
    - H3Varint, H3Frame, H3Packet ([http3/varint.go], [frame.go], [packet.go]).
    - GrpcMessage, GrpcStatus, GrpcServer ([grpc/message.go], [status.go],
      [server.go] and [call.go]); GrpcFeed: the server on its connection.
    - EngConn ([engine/conn.go], [eventloop.go], [handler.go],
      [multi_event_loops.go]); EngLoop, EngEvents: writing,
      the protocol's contract [HandlerOk], reading, events; EngServe: the
      theorems; H2Engine ([http2/engine.go]) and H2Stack: HTTP/2 on the event
      loop.  Sock and EngServe hold a concrete kernel and an echo protocol.
    - H1Request ([http/request.go], [parser.go]), H1Writer ([status.go] and the
      [ResponseWriter] of [server.go]), H1Server (the rest of [server.go]).
      H1Parse: messages and requests for every way of cutting the input; H1Reply
      and H1Pipeline: what the writer puts on the wire, and several requests in
      one buffer; H1Serve: the loop of [OnData]; H1Stack: the theorems.
    - LenPrefix: units with a length in their header, a [Framing].  TlsRecord,
      TlsHello, TlsKeys, TlsSign, TlsState ([tls/record.go], [handshake.go],
      [keyschedule.go] with [aead.go], [sign.go], [state.go]) and TlsEngine
      ([engine.go]).  TlsHelloFacts, TlsKeysFacts and TlsSignFacts: codecs, keys
      and certificates; TlsSafe: the invariant of the state machine; TlsStream:
      it on a stream; TlsChannel and TlsHandshake: two machines together;
      TlsStack: TLS between the event loop and a protocol.  TlsToy and TlsPlain:
      a computable cryptography, and an echo over TLS.
    - WsState, WsWrite, WsRead ([websocket/conn_core.go], [conn_unix.go],
      [cork.go], [ws_header.go], [status_codes.go], [event_loop.go],
      [conn_syscall_linux.go]); WsSafe and WsWire: writing; WsStream, WsParse,
      WsRound, WsEvents: reading; WsTrace and WsCallbacks: what the user sees;
      WsChannel: two ends together; WsPlain: a concrete world.
    - WsHandshake ([server_tcp.go], [server_handshake.go], [client.go],
      [utils.go]: requests and answers); WsAgree: the reference reader of a
      request, client and server together.  WsServe ([server_tcp.go]: a
      connection from the descriptor on), WsServed.  WsOptions ([callback.go],
      [config.go], [common_options.go], [client_options.go],
      [server_options.go]), WsLoops ([multi_event_loops.go],
      [multi_event_loops_option.go]).
    - TaskRing ([task_ring.go], each access to shared memory a step), with
      TaskRingSafe for its invariant and TaskQueue for the atomic queue it
      implements.  TaskNode ([task_parse.go]: senders, worker, wakeups) and
      TaskShard.  WsPool: a connection behind the pool, [processOne].
    - H1Findings, H2Findings, EngFindings, WsFindings, TlsFindings, and the ends
      of WsServed, WsOptions, WsLoops, WsPool and TaskQueue: runs on which the
      code does something its comments or the protocol do not lead one to expect.

    Operations keep their Go names; a method of a type whose name would clash
    carries the type's name in front ([ConnHandler_OnData]).  A [for] loop that
    is not structural is a [Fixpoint] with fuel that panics when the fuel is
    out, so a theorem that shows no panic also shows that the loop ends.

    ** What is outside the source

    The kernel, the poller, the buffer pool, compression and the frame helpers
    of [wsutil] are the classes [WsLib] and [EngLib], their documented behaviour
    the classes [WsLaws] and [EngLaws] ([SrvLib] and [SrvLaws] for the calls of
    the handshake server): a read delivers the next bytes of the
    peer, a write takes some of the bytes, [reads_left] bounds the reads until
    the socket is empty.  The theorems on the engine are about worlds in which no
    write fails for good ([EngLoop.unbroken], a condition on the run of the
    kernel from the initial world; short and refused writes are not excluded),
    and those on websocket reading about streams in which no frame declares a
    length that the read buffer cannot be sized for ([WsStream.sane], which with
    the default settings every stream keeps whose lengths are from 0 to below
    2^59).  HPACK ([golang.org/x/net]) is the class [Hpack], of
    which no law is assumed except where a round trip needs one.  [httparser] is
    the class [HttpParser]; the comments of [http/parser.go] describe it as a
    machine that goes from byte to byte and reports where a message ends, which
    is what the laws [HttpParserLaws] say.  The order in which Go visits a map is
    the class [GoMap]: some order, a new one each time.  The packages under
    [crypto] are the class [TlsKeys.Crypto] and their documentation
    [CryptoLaws]: [Open] undoes [Seal], the two ends of a key exchange agree,
    sizes are what they should be; that a signature verifies under the key it
    was made with is asked where it is used.  No secrecy is claimed.  User code
    is known by its contract ([H2Safe.HandlerOk], [GrpcServer.UserOk],
    [WsSafe.CallbackOk], [EngLoop.HandlerOk], [H1Serve.ServeOk]), a protocol
    inside TLS by [TlsStack.InnerOk].  Every hypothesis has a concrete instance
    on which a witness runs.

    ** What is proved

    - Liveness and order on the event loop: for every sequence of events and
      every way the kernel cuts the input, each callback returns, websocket
      frames are delivered whole, once and in order, with and without a parse
      pool ([WsEvents.events_deliver_frames], [WsPool.pool_delivers_frames],
      [whole_frames_all_delivered]), an
      engine connection is a stream in both directions and calls its protocol
      in the documented order ([EngServe]).
    - Refinement: HTTP/2 on the event loop is [Feed] on pieces of the stream
      ([H2Stack.stack_refines_Feed]); HTTP/1 on the event loop is a sequence of
      requests and their responses ([H1Stack.requests_answered_in_order]); two
      websocket ends are a reliable channel of messages
      ([WsChannel.messages_arrive]); short writes, corking and flushing put the
      frames on the wire in order ([WsWire.wire_in_order]).
    - Opening: what the client sends is accepted by both servers, the client
      accepts the answer, and both know the same subprotocol
      ([WsAgree.tcp_server_accepts_client]); the server over TCP answers every
      connection once, whatever the kernel does, and closes it exactly once or
      hands it over ([WsServed.tcp_server_serves]); all options, given callbacks
      and numbers, give a well-formed configuration with loops that run
      ([WsOptions.options_well_formed]).
    - Concurrency: under every interleaving of its callers the ring is an atomic
      bounded queue ([TaskQueue.ring_is_a_queue]) whose cells are never shared;
      a worker never sleeps on a queued task ([TaskShard.no_lost_wakeup]), and
      tasks are processed once and in order.
    - TLS: a client and a server that are configured for each other always
      reach the same keys ([TlsHandshake.tls_handshake_agrees]) and are a
      reliable channel from then on ([TlsChannel.tls_conversation]); on the event
      loop TLS is a tunnel ([TlsStack.tls_is_a_tunnel]); how the input is cut
      does not matter ([TlsStream.tls_feed_any_cut]); no two records share a
      nonce ([TlsKeysFacts.tls_nonces_distinct]); keys are derived as RFC 5869
      says.
    - Safety: no bytes make an HTTP/2 connection, or a gRPC server on it, panic
      or leave its invariant ([H2Feed.Feed_safe], [GrpcFeed.grpc_server_safe]),
      nor a TLS machine ([TlsStream.tls_no_panic]);
      streams move forward, ids are not reused, windows stay in range, a request
      body is accepted exactly if it has the length its header declares.
    - Functional behaviour: flow control conserves the bytes written and respects
      the windows, header blocks survive CONTINUATION, SETTINGS survive the
      wire, fragments are reassembled, gRPC messages of different streams do not
      mix, validation accepts exactly the requests RFC 9113 describes, pipelined
      HTTP/1 requests that keep the connection are all answered, and a client that
      reads by RFC 9112 gets the response the application meant
      ([H1Stack.response_read_back]).
    - Errors: connection errors and stream errors of HTTP/2, the clauses of RFC
      6455 that a websocket frame may violate, with the three that are not always
      looked at ([WsCallbacks.violations_refused]), malformed gRPC messages;
      [OnClose] is called exactly once.
    - Round trips of all codecs, and independence of the parsers from the way
      their input is cut.

    ** Fuel and bounds

    [Pump.fuel_for] is one more than the bytes in the buffer: a unit has at least
    one byte.  A websocket round has [parse_fuel], two more than the unread
    bytes, and its events a budget of twice the reads that are left, plus the
    bytes of the stream, plus two.  An engine event needs more than twice
    the reads that are left, plus one: a read uses one of them, and at most one
    growth of the buffer comes between two reads; [dispatch_loop] needs two
    rounds, because [OnData] empties the buffer or the loop ends.  A round of
    [http]'s [OnData] takes at least one byte, so its fuel is the length of the
    buffer plus one.  The parsers of TLS messages and the loop of its [Write]
    take at least one byte in a round too, and [hkdfExpand] adds a whole hash.
    [readHandshake] and [writeAll] need a round for each signal that may still
    come, two for each read that is left or byte to write, and one more.  A ring
    doubles its size at most 62 times; positions are assumed to stay below 2^64.

    ** What is not modelled, and why

    Locks: a critical section of a connection is an atomic step, and so is a
    task of a worker; only the ring and the wakeups of the pool are modelled
    step by step, with sequentially consistent atomics.  User callbacks run on
    the goroutine that reads (the task pools of [select_task.go] are calls of a
    library).  Contents of pooled memory: nothing reads it before writing.
    Logging, statistics and timers.  Listening, accepting, [Dial] and
    [upgradeInner] are sequences of calls of the kernel, [net] and [net/http];
    the requests and answers they send and check are modelled.  EngFindings shows what
    happens after a write that fails for good.  Of [tls],
    [conn.go] and [memconn.go] run the library [crypto/tls] over a pipe, and
    [testcert.go] makes a certificate for tests: they are calls of the library. *)

From stdpp Require Export base list option strings gmap.
From Stdlib Require Export ZArith Lia Ascii.

Declare Scope go_scope.
Delimit Scope go_scope with go.
#[global] Open Scope Z_scope.

(** ** Fixed-width integers

    A Go integer of width [w] is a [Z]; the conversions below are Go's
    conversions [uint8(x)], [uint32(x)], [int32(x)], ... which keep the low
    bits. *)

Definition u8 (x : Z) : Z := x mod 2 ^ 8.
Definition u16 (x : Z) : Z := x mod 2 ^ 16.
Definition u32 (x : Z) : Z := x mod 2 ^ 32.
Definition u64 (x : Z) : Z := x mod 2 ^ 64.

(** [swrap w x] is the two's complement reading of the low [w] bits. *)
Definition swrap (w x : Z) : Z := (x + 2 ^ (w - 1)) mod 2 ^ w - 2 ^ (w - 1).
Definition i16 (x : Z) : Z := swrap 16 x.
Definition i32 (x : Z) : Z := swrap 32 x.
Definition i64 (x : Z) : Z := swrap 64 x.

Notation "x << n" := (Z.shiftl x n) (at level 40, left associativity) : go_scope.
Notation "x >> n" := (Z.shiftr x n) (at level 40, left associativity) : go_scope.
Notation "x .| y" := (Z.lor x y) (at level 50, left associativity) : go_scope.
Notation "x .& y" := (Z.land x y) (at level 45, left associativity) : go_scope.
#[global] Open Scope go_scope.

(** ** Byte slices

    A [[]byte] is a [list Z] of bytes.  [zlen] is Go's [len]; [slice a b l] is
    [l[a:b]]; [at_ l i] is [l[i]] where the code has checked the bound
    itself.  Accesses whose bound is guaranteed elsewhere go through the
    panicking reads of the monad below. *)

Notation bytes := (list Z).

Definition zlen {A} (l : list A) : Z := Z.of_nat (length l).
Definition slice {A} (a b : Z) (l : list A) : list A :=
  take (Z.to_nat (b - a)) (drop (Z.to_nat a) l).
Definition from {A} (a : Z) (l : list A) : list A := drop (Z.to_nat a) l.
Definition upto {A} (b : Z) (l : list A) : list A := take (Z.to_nat b) l.
Definition at_ (l : bytes) (i : Z) : Z := default 0 (l !! Z.to_nat i).

Definition is_byte (b : Z) : Prop := 0 <= b < 256.
Definition bytes_ok (l : bytes) : Prop := Forall is_byte l.

Definition is_byteb (b : Z) : bool := (0 <=? b) && (b <? 256).
Definition bytes_okb (l : bytes) : bool := forallb is_byteb l.

(** Big-endian composition, as in [uint32(a)<<24 | uint32(b)<<16 | ...] and
    [binary.BigEndian.Uint32]. *)
Definition be16 (a b : Z) : Z := a << 8 .| b.
Definition be24 (a b c : Z) : Z := a << 16 .| b << 8 .| c.
Definition be32 (a b c d : Z) : Z := a << 24 .| b << 16 .| c << 8 .| d.

(** [byte(x>>24), byte(x>>16), byte(x>>8), byte(x)] and shorter forms. *)
Definition put16 (x : Z) : bytes := [u8 (x >> 8); u8 x].
Definition put24 (x : Z) : bytes := [u8 (x >> 16); u8 (x >> 8); u8 x].
Definition put32 (x : Z) : bytes := [u8 (x >> 24); u8 (x >> 16); u8 (x >> 8); u8 x].
Definition put64 (x : Z) : bytes := put32 (u32 (x >> 32)) ++ put32 (u32 x).

(** Go strings are byte strings; [[]byte(s)] and [string(b)]. *)
Definition byte_of_ascii (a : ascii) : Z := Z.of_N (N_of_ascii a).
Definition ascii_of_byte (b : Z) : ascii := ascii_of_N (Z.to_N b).

Fixpoint bytes_of_string (s : string) : bytes :=
  match s with
  | EmptyString => []
  | String a s' => byte_of_ascii a :: bytes_of_string s'
  end.

Fixpoint string_of_bytes (l : bytes) : string :=
  match l with
  | [] => EmptyString
  | b :: l' => String (ascii_of_byte b) (string_of_bytes l')
  end.

(** Positional notation, most significant digit first.  [digits base fuel x acc]
    puts the digits of [x] in front of [acc]. *)
Definition digit_char (d : Z) : Z := if d <? 10 then 48 + d else 87 + d.

Fixpoint digits (base : Z) (fuel : nat) (x : Z) (acc : bytes) : bytes :=
  match fuel with
  | O => acc
  | S fuel =>
      let acc := digit_char (x mod base) :: acc in
      if x / base =? 0 then acc else digits base fuel (x / base) acc
  end.

(** [strconv.FormatUint(x, 10)]: twenty digits hold every [uint64]. *)
Definition format_uint (x : Z) : bytes := digits 10 20 x [].

(** [fmt.Sprintf("%d", x)] and [strconv.Itoa], for integers of 64 bits. *)
Definition fmt_d (x : Z) : string :=
  if x <? 0 then "-" +:+ string_of_bytes (format_uint (- x))
  else string_of_bytes (format_uint x).

(** [fmt.Sprintf("%x", x)] for a non-negative [x] of at most 64 bits. *)
Definition fmt_x (x : Z) : string := string_of_bytes (digits 16 16 x []).

Definition fmt_t (b : bool) : string := if b then "true" else "false".

(** ** The effect of the code: state, early return and run-time panic

    [M S A] is a computation that reads and writes the mutable objects of [S]
    and returns an [A], or panics ([None]: index out of range, nil
    dereference).  A Go [error] result is an [option E], [None] being [nil]. *)

Definition M (S A : Type) : Type := S -> option (A * S).

#[global] Instance M_ret S : MRet (M S) := fun A a s => Some (a, s).
#[global] Instance M_bind S : MBind (M S) :=
  fun A B k m s => match m s with Some (a, s') => k a s' | None => None end.

Definition get {S} : M S S := fun s => Some (s, s).
Definition gets {S A} (f : S -> A) : M S A := fun s => Some (f s, s).
Definition modify {S} (f : S -> S) : M S unit := fun s => Some (tt, f s).
Definition panic {S A} : M S A := fun _ => None.

(** [v := l[i]] with Go's bounds check. *)
Definition index {S} (l : bytes) (i : Z) : M S Z :=
  if (0 <=? i) && (i <? zlen l) then mret (at_ l i) else panic.

(** [l[a:b]] with Go's bounds check; the capacity is not used by the code. *)
Definition reslice {S} (l : bytes) (a b : Z) : M S bytes :=
  if (0 <=? a) && (a <=? b) && (b <=? zlen l) then mret (slice a b l) else panic.

Definition of_option {S A} (o : option A) : M S A :=
  match o with Some a => mret a | None => panic end.

(** [if err := m; err != nil { return err }; k] *)
Definition check {S E} (m : M S (option E)) (k : M S (option E)) : M S (option E) :=
  e ← m; match e with Some e => mret (Some e) | None => k end.

Notation "'try' m ; k" := (check m k)
  (at level 20, m at level 100, k at level 200, right associativity) : go_scope.

(** [wp m Q s]: from [s], [m] does not panic and its result satisfies [Q]. *)
Definition wp {S A} (m : M S A) (Q : A -> S -> Prop) (s : S) : Prop :=
  match m s with Some (a, s') => Q a s' | None => False end.

(** ** Reasoning about computations *)

Section WP.
Context {S : Type}.

Lemma wp_ret {A} (a : A) Q (s : S) : Q a s -> wp (mret a) Q s.
Proof. done. Qed.

Lemma wp_bind {A B} (m : M S A) (k : A -> M S B) Q s :
  wp m (fun a s' => wp (k a) Q s') s -> wp (m ≫= k) Q s.
Proof. unfold wp, mbind, M_bind. by destruct (m s) as [[a s']|]. Qed.

Lemma wp_mono {A} (m : M S A) (P Q : A -> S -> Prop) s :
  wp m P s -> (forall a s', P a s' -> Q a s') -> wp m Q s.
Proof. unfold wp. destruct (m s) as [[a s']|]; eauto. Qed.

Lemma wp_get Q (s : S) : Q s s -> wp get Q s.
Proof. done. Qed.

Lemma wp_gets {A} (f : S -> A) Q s : Q (f s) s -> wp (gets f) Q s.
Proof. done. Qed.

Lemma wp_modify (f : S -> S) Q s : Q tt (f s) -> wp (modify f) Q s.
Proof. done. Qed.

Lemma wp_index l i Q (s : S) :
  0 <= i < zlen l -> Q (at_ l i) s -> wp (index l i) Q s.
Proof.
  intros Hi HQ. unfold index.
  replace ((0 <=? i) && (i <? zlen l)) with true by lia. by apply wp_ret.
Qed.

Lemma wp_reslice l a b Q (s : S) :
  0 <= a <= b -> b <= zlen l -> Q (slice a b l) s -> wp (reslice l a b) Q s.
Proof.
  intros Ha Hb HQ. unfold reslice.
  replace ((0 <=? a) && (a <=? b) && (b <=? zlen l)) with true by lia. by apply wp_ret.
Qed.

Lemma wp_of_option {A} (o : option A) a Q (s : S) :
  o = Some a -> Q a s -> wp (of_option o) Q s.
Proof. by intros -> HQ. Qed.

Lemma wp_check {E} (m k : M S (option E)) Q s :
  wp m (fun e s' => match e with
                    | Some e => Q (Some e) s'
                    | None => wp k Q s' end) s ->
  wp (check m k) Q s.
Proof.
  intros Hm. apply wp_bind. eapply wp_mono; [exact Hm|].
  intros [e|] s'; [apply wp_ret|done].
Qed.

Lemma wp_and {A} (m : M S A) (P Q : A -> S -> Prop) s :
  wp m P s -> wp m Q s -> wp m (fun a s' => P a s' /\ Q a s') s.
Proof. unfold wp. destruct (m s) as [[a s']|]; eauto. Qed.

Lemma wp_post {A} (m : M S A) (Q P : A -> S -> Prop) s :
  wp m Q s -> (forall a s', m s = Some (a, s') -> P a s') ->
  wp m (fun a s' => Q a s' /\ P a s') s.
Proof. unfold wp. destruct (m s) as [[a s']|]; eauto. Qed.

Lemma wp_elim {A} (m : M S A) Q s :
  wp m Q s -> exists a s', m s = Some (a, s') /\ Q a s'.
Proof. unfold wp. destruct (m s) as [[a s']|]; [eauto|done]. Qed.

Lemma wp_intro {A} (m : M S A) (Q : A -> S -> Prop) s a s' :
  m s = Some (a, s') -> Q a s' -> wp m Q s.
Proof. unfold wp. by intros ->. Qed.

(** Equational reading of the monad at a state. *)
Lemma bind_eq {A B} (m : M S A) (k : A -> M S B) s a s' :
  m s = Some (a, s') -> (m ≫= k) s = k a s'.
Proof. unfold mbind, M_bind. by intros ->. Qed.

Lemma check_ok {E} (m k : M S (option E)) s s' :
  m s = Some (None, s') -> check m k s = k s'.
Proof. unfold check. intros H. by rewrite (bind_eq _ _ _ _ _ H). Qed.

Lemma check_err {E} (m k : M S (option E)) s e s' :
  m s = Some (Some e, s') -> check m k s = Some (Some e, s').
Proof. unfold check. intros H. by rewrite (bind_eq _ _ _ _ _ H). Qed.

Lemma reslice_ok l a b (s : S) :
  0 <= a <= b -> b <= zlen l -> reslice l a b s = Some (slice a b l, s).
Proof.
  intros Ha Hb. unfold reslice.
  by replace ((0 <=? a) && (a <=? b) && (b <=? zlen l)) with true by lia.
Qed.

Lemma index_ok l i (s : S) :
  0 <= i < zlen l -> index l i s = Some (at_ l i, s).
Proof.
  intros Hi. unfold index.
  by replace ((0 <=? i) && (i <? zlen l)) with true by lia.
Qed.
End WP.

(** [keeps f m]: running [m] does not change the part [f] of the state. *)
Definition keeps {S A B} (f : S -> B) (m : M S A) : Prop :=
  forall s a s', m s = Some (a, s') -> f s' = f s.

Section Keeps.
Context {S B : Type} (f : S -> B).

Lemma keeps_ret {A} (a : A) : keeps f (mret a).
Proof. by intros s b s' [= <- <-]. Qed.
Lemma keeps_panic {A} : keeps f (@panic S A).
Proof. done. Qed.
Lemma keeps_get : keeps f get.
Proof. by intros s b s' [= <- <-]. Qed.
Lemma keeps_gets {A} (g : S -> A) : keeps f (gets g).
Proof. by intros s b s' [= <- <-]. Qed.
Lemma keeps_modify (g : S -> S) : (forall s, f (g s) = f s) -> keeps f (modify g).
Proof. by intros Hg s b s' [= <- <-]. Qed.
Lemma keeps_bind {A C} (m : M S A) (k : A -> M S C) :
  keeps f m -> (forall a, keeps f (k a)) -> keeps f (m ≫= k).
Proof.
  intros Hm Hk s c s' H. unfold mbind, M_bind in H.
  destruct (m s) as [[a s1]|] eqn:E; [|done].
  by rewrite (Hk _ _ _ _ H), (Hm _ _ _ E).
Qed.
Lemma keeps_check {E} (m k : M S (option E)) :
  keeps f m -> keeps f k -> keeps f (check m k).
Proof.
  intros Hm Hk. apply keeps_bind; [done|]. intros [e|]; [apply keeps_ret|done].
Qed.
Lemma keeps_index l i : keeps f (@index S l i).
Proof. unfold index. destruct (_ && _); [apply keeps_ret|apply keeps_panic]. Qed.
Lemma keeps_of_option {A} (o : option A) : keeps f (@of_option S A o).
Proof. destruct o; [apply keeps_ret|apply keeps_panic]. Qed.
End Keeps.

Create HintDb keeps discriminated.
#[export] Hint Resolve keeps_ret keeps_panic keeps_get keeps_gets keeps_index
  keeps_of_option : keeps.

(** Structural proof of [keeps]: follow the monadic structure and the
    conditionals, close the leaves by the hints and by computation. *)
Ltac keeps_step :=
  lazymatch goal with
  | |- keeps _ (mbind _ _) => apply keeps_bind; [|intros ?]
  | |- keeps _ (check _ _) => apply keeps_check
  | |- keeps _ (modify _) => apply keeps_modify; intros ?; cbn; try done
  | |- keeps _ (match ?x with _ => _ end) => destruct x
  | |- keeps _ (let '(_, _) := ?x in _) => destruct x
  | |- keeps _ _ => solve [eauto with keeps]
  end.
Ltac keeps := repeat (cbv beta zeta; keeps_step).

(** [wp_step] opens one primitive of the monad, [wp_steps] all of them. *)
Ltac wp_step :=
  lazymatch goal with
  | |- wp (mret _) _ _ => apply wp_ret
  | |- wp (mbind _ _) _ _ => apply wp_bind
  | |- wp (check _ _) _ _ => apply wp_check
  | |- wp get _ _ => apply wp_get
  | |- wp (gets _) _ _ => apply wp_gets
  | |- wp (modify _) _ _ => apply wp_modify
  end.
Ltac wp_steps := repeat (wp_step; cbv beta).

(** ** Lists and lengths *)

Ltac zarith := Z.to_euclidean_division_equations; lia.

Section Slices.
Context {A : Type}.
Implicit Types l : list A.

Lemma zlen_nonneg l : 0 <= zlen l.
Proof. unfold zlen. lia. Qed.
Lemma zlen_nil : zlen (@nil A) = 0.
Proof. done. Qed.
Lemma zlen_cons x l : zlen (x :: l) = 1 + zlen l.
Proof. unfold zlen. cbn [length]. lia. Qed.
Lemma zlen_app l1 l2 : zlen (l1 ++ l2) = zlen l1 + zlen l2.
Proof. unfold zlen. rewrite length_app. lia. Qed.
Lemma zlen_zero l : zlen l = 0 <-> l = [].
Proof. unfold zlen. destruct l; cbn [length]; split; intros; by try lia. Qed.

Lemma zlen_from a l : 0 <= a -> zlen (from a l) = Z.max 0 (zlen l - a).
Proof. intros. unfold zlen, from. rewrite length_drop. lia. Qed.
Lemma zlen_upto b l : 0 <= b -> zlen (upto b l) = Z.min b (zlen l).
Proof. intros. unfold zlen, upto. rewrite length_take. lia. Qed.
Lemma zlen_slice a b l :
  0 <= a <= b -> b <= zlen l -> zlen (slice a b l) = b - a.
Proof. intros. unfold zlen, slice in *. rewrite length_take, length_drop. lia. Qed.

Lemma from_0 l : from 0 l = l.
Proof. done. Qed.
Lemma from_all l : from (zlen l) l = [].
Proof. unfold from, zlen. apply drop_ge. lia. Qed.
Lemma from_from a b l : 0 <= a -> 0 <= b -> from a (from b l) = from (b + a) l.
Proof. intros. unfold from. rewrite drop_drop. f_equal. lia. Qed.
Lemma from_app_le a l1 l2 : 0 <= a <= zlen l1 -> from a (l1 ++ l2) = from a l1 ++ l2.
Proof. intros. unfold from, zlen in *. rewrite drop_app_le by lia. done. Qed.
Lemma from_app_length l1 l2 : from (zlen l1) (l1 ++ l2) = l2.
Proof. unfold from, zlen. rewrite Nat2Z.id. apply drop_app_length. Qed.
Lemma upto_app_le a l1 l2 : 0 <= a <= zlen l1 -> upto a (l1 ++ l2) = upto a l1.
Proof. intros. unfold upto, zlen in *. rewrite take_app_le by lia. done. Qed.
Lemma upto_from a l : upto a l ++ from a l = l.
Proof. apply take_drop. Qed.
Lemma upto_all b l : zlen l <= b -> upto b l = l.
Proof. intros. unfold upto, zlen in *. apply take_ge. lia. Qed.
Lemma upto_app_length l1 l2 : upto (zlen l1) (l1 ++ l2) = l1.
Proof. unfold upto, zlen. rewrite Nat2Z.id. apply take_app_length. Qed.
Lemma slice_upto_from a b l : slice a b l = upto (b - a) (from a l).
Proof. done. Qed.
Lemma slice_app_le a b l1 l2 :
  0 <= a <= b -> b <= zlen l1 -> slice a b (l1 ++ l2) = slice a b l1.
Proof.
  intros. rewrite !slice_upto_from, from_app_le by lia.
  apply upto_app_le. rewrite zlen_from; lia.
Qed.
Lemma slice_from a b c l :
  0 <= a -> 0 <= b <= c -> slice b c (from a l) = slice (a + b) (a + c) l.
Proof.
  intros. rewrite !slice_upto_from, from_from by lia.
  f_equal; lia.
Qed.
Lemma slice_app_mid l1 l2 l3 :
  slice (zlen l1) (zlen l1 + zlen l2) (l1 ++ l2 ++ l3) = l2.
Proof.
  rewrite slice_upto_from, from_app_length.
  replace (zlen l1 + zlen l2 - zlen l1) with (zlen l2) by lia.
  apply upto_app_length.
Qed.
Lemma Forall_from (P : A -> Prop) a l : Forall P l -> Forall P (from a l).
Proof. apply Forall_drop. Qed.
Lemma Forall_slice (P : A -> Prop) a b l : Forall P l -> Forall P (slice a b l).
Proof. intros. by apply Forall_take, Forall_drop. Qed.
End Slices.

Lemma at_app_l l1 l2 i : 0 <= i < zlen l1 -> at_ (l1 ++ l2) i = at_ l1 i.
Proof. intros. unfold at_, zlen in *. rewrite lookup_app_l by lia. done. Qed.
Lemma at_from a l i : 0 <= a -> 0 <= i -> at_ (from a l) i = at_ l (a + i).
Proof.
  intros. unfold at_, from. rewrite lookup_drop. do 2 f_equal. lia.
Qed.
Lemma at_app_length l1 x l2 : at_ (l1 ++ x :: l2) (zlen l1) = x.
Proof. unfold at_, zlen. by rewrite Nat2Z.id, list_lookup_middle. Qed.
Lemma at_byte l i : bytes_ok l -> is_byte (at_ l i).
Proof.
  intros Hl. unfold at_. destruct (l !! Z.to_nat i) eqn:E; cbn.
  - by eapply Forall_lookup_1 in E.
  - unfold is_byte. lia.
Qed.

(** ** Bytes and words *)

Lemma land_shiftl_low a b n :
  0 <= n -> 0 <= b < 2 ^ n -> Z.land (Z.shiftl a n) b = 0.
Proof.
  intros Hn Hb. apply Z.bits_inj'. intros i Hi. rewrite Z.land_spec, Z.bits_0.
  destruct (Z.ltb_spec i n); [by rewrite Z.shiftl_spec_low by lia|].
  rewrite <- (Z.mod_small b (2 ^ n)), Z.mod_pow2_bits_high by lia.
  apply andb_false_r.
Qed.

Lemma lor_shiftl_add a b n :
  0 <= n -> 0 <= b < 2 ^ n -> Z.lor (Z.shiftl a n) b = a * 2 ^ n + b.
Proof.
  intros Hn Hb. pose proof (land_shiftl_low a b n Hn Hb) as Hl.
  rewrite <- Z.shiftl_mul_pow2 by done.
  rewrite Z.add_nocarry_lxor, Z.lxor_lor; done.
Qed.

(** The same with the summand on the left already a multiple. *)
Lemma lor_add_low x b n :
  0 <= n -> 0 <= b < 2 ^ n -> x mod 2 ^ n = 0 -> Z.lor x b = x + b.
Proof.
  intros Hn Hb Hx. pose proof (Z.div_mod x (2 ^ n)) as Hd.
  rewrite Hx in Hd. replace x with (Z.shiftl (x / 2 ^ n) n) at 1.
  - rewrite lor_shiftl_add by done. lia.
  - rewrite Z.shiftl_mul_pow2 by done. lia.
Qed.

Lemma u8_byte x : is_byte (u8 x).
Proof. unfold is_byte, u8. zarith. Qed.
Lemma u8_small x : is_byte x -> u8 x = x.
Proof. unfold is_byte, u8. intros. apply Z.mod_small. lia. Qed.
Lemma u32_small x : 0 <= x < 2 ^ 32 -> u32 x = x.
Proof. apply Z.mod_small. Qed.
Lemma u32_range x : 0 <= u32 x < 2 ^ 32.
Proof. unfold u32. zarith. Qed.
Lemma i32_small x : - 2 ^ 31 <= x < 2 ^ 31 -> i32 x = x.
Proof. unfold i32, swrap. cbn -[Z.pow]. intros. rewrite Z.mod_small; lia. Qed.
Lemma i32_range x : - 2 ^ 31 <= i32 x < 2 ^ 31.
Proof. unfold i32, swrap. zarith. Qed.
Lemma shr_div x n : 0 <= n -> x >> n = x / 2 ^ n.
Proof. apply Z.shiftr_div_pow2. Qed.

(** Composing and decomposing big-endian words. *)
Lemma be16_val a b : is_byte b -> be16 a b = a * 256 + b.
Proof. unfold is_byte, be16. intros. apply (lor_shiftl_add a b 8); lia. Qed.
Lemma be24_val a b c :
  is_byte b -> is_byte c -> be24 a b c = a * 65536 + b * 256 + c.
Proof.
  unfold is_byte, be24. intros.
  rewrite (Z.shiftl_mul_pow2 b), lor_shiftl_add by lia.
  rewrite (lor_add_low _ c 8) by zarith. lia.
Qed.
Lemma be32_val a b c d :
  is_byte b -> is_byte c -> is_byte d ->
  be32 a b c d = a * 16777216 + b * 65536 + c * 256 + d.
Proof.
  unfold is_byte, be32. intros.
  rewrite (Z.shiftl_mul_pow2 b), (Z.shiftl_mul_pow2 c), lor_shiftl_add by lia.
  rewrite (lor_add_low _ (c * 2 ^ 8) 16) by zarith.
  rewrite (lor_add_low _ d 8) by zarith. lia.
Qed.

Lemma be32_range a b c d :
  is_byte a -> is_byte b -> is_byte c -> is_byte d -> 0 <= be32 a b c d < 2 ^ 32.
Proof. intros. rewrite be32_val by done. unfold is_byte in *. lia. Qed.
Lemma be24_range a b c :
  is_byte a -> is_byte b -> is_byte c -> 0 <= be24 a b c < 2 ^ 24.
Proof. intros. rewrite be24_val by done. unfold is_byte in *. lia. Qed.

Lemma be16_put x :
  0 <= x < 2 ^ 16 -> be16 (u8 (x >> 8)) (u8 x) = x.
Proof.
  intros. rewrite be16_val by apply u8_byte. rewrite !shr_div by lia.
  unfold u8. zarith.
Qed.
Lemma be24_put x :
  0 <= x < 2 ^ 24 -> be24 (u8 (x >> 16)) (u8 (x >> 8)) (u8 x) = x.
Proof.
  intros. rewrite be24_val by apply u8_byte. rewrite !shr_div by lia.
  unfold u8. zarith.
Qed.
Lemma be32_put x :
  0 <= x < 2 ^ 32 ->
  be32 (u8 (x >> 24)) (u8 (x >> 16)) (u8 (x >> 8)) (u8 x) = x.
Proof.
  intros. rewrite be32_val by apply u8_byte. rewrite !shr_div by lia.
  unfold u8. zarith.
Qed.

Lemma put16_ok x : bytes_ok (put16 x).
Proof. repeat constructor; apply u8_byte. Qed.
Lemma put24_ok x : bytes_ok (put24 x).
Proof. repeat constructor; apply u8_byte. Qed.
Lemma put32_ok x : bytes_ok (put32 x).
Proof. repeat constructor; apply u8_byte. Qed.
Lemma bytes_ok_nil : bytes_ok [].
Proof. constructor. Qed.
Lemma bytes_ok_cons b l : is_byte b -> bytes_ok l -> bytes_ok (b :: l).
Proof. by constructor. Qed.
Lemma bytes_ok_app l1 l2 : bytes_ok (l1 ++ l2) <-> bytes_ok l1 /\ bytes_ok l2.
Proof. apply Forall_app. Qed.
Lemma bytes_ok_app_2 l1 l2 : bytes_ok l1 -> bytes_ok l2 -> bytes_ok (l1 ++ l2).
Proof. intros. by apply Forall_app. Qed.

Lemma bytes_okb_ok l : bytes_okb l = true -> bytes_ok l.
Proof.
  unfold bytes_okb, bytes_ok, is_byteb, is_byte. rewrite forallb_forall, Forall_forall.
  intros H b Hb. apply list_elem_of_In, H in Hb. lia.
Qed.
Lemma bytes_ok_from a l : bytes_ok l -> bytes_ok (from a l).
Proof. apply Forall_from. Qed.
Lemma bytes_ok_upto a l : bytes_ok l -> bytes_ok (upto a l).
Proof. apply Forall_take. Qed.
Lemma bytes_ok_slice a b l : bytes_ok l -> bytes_ok (slice a b l).
Proof. apply Forall_slice. Qed.

(** ** Strings *)

Lemma byte_of_ascii_ok a : is_byte (byte_of_ascii a).
Proof.
  unfold is_byte, byte_of_ascii. pose proof (N_ascii_bounded a). lia.
Qed.
Lemma ascii_of_byte_of_ascii a : ascii_of_byte (byte_of_ascii a) = a.
Proof.
  unfold ascii_of_byte, byte_of_ascii. rewrite N2Z.id. apply ascii_N_embedding.
Qed.
Lemma byte_of_ascii_of_byte b : is_byte b -> byte_of_ascii (ascii_of_byte b) = b.
Proof.
  unfold is_byte, ascii_of_byte, byte_of_ascii. intros.
  rewrite N_ascii_embedding by lia. lia.
Qed.
Lemma bytes_of_string_ok s : bytes_ok (bytes_of_string s).
Proof. induction s; constructor; auto using byte_of_ascii_ok. Qed.
Lemma string_of_bytes_of_string s : string_of_bytes (bytes_of_string s) = s.
Proof. induction s; cbn; [done|]. by rewrite ascii_of_byte_of_ascii, IHs. Qed.
Lemma bytes_of_string_of_bytes l :
  bytes_ok l -> bytes_of_string (string_of_bytes l) = l.
Proof.
  induction 1; cbn; [done|]. by rewrite byte_of_ascii_of_byte, IHForall.
Qed.
Lemma string_of_bytes_app l1 l2 :
  string_of_bytes (l1 ++ l2) = string_of_bytes l1 +:+ string_of_bytes l2.
Proof. induction l1; cbn; [done|]. by rewrite IHl1. Qed.
Lemma bytes_of_string_app s1 s2 :
  bytes_of_string (s1 ++ s2) = bytes_of_string s1 ++ bytes_of_string s2.
Proof. induction s1; cbn; [done|]. by rewrite <- IHs1. Qed.

(** ** Hints *)

Create HintDb go discriminated.
#[export] Hint Resolve zlen_nonneg u8_byte at_byte bytes_ok_nil bytes_ok_cons
  bytes_ok_app_2 put16_ok put24_ok put32_ok byte_of_ascii_ok
  bytes_of_string_ok bytes_ok_from bytes_ok_upto bytes_ok_slice : go.
#[export] Hint Rewrite @zlen_app @zlen_cons @zlen_nil : zlen.

(** Normalise lengths of concatenations, then decide. *)
Ltac zlen := autorewrite with zlen in *; unfold put16, put24, put32 in *;
             autorewrite with zlen in *; lia.

(** Closed goals [bytes_ok l], by evaluation. *)
Ltac bytes := apply bytes_okb_ok; vm_compute; reflexivity.

(** Case analysis on the first [if] of the goal. *)
Ltac branch H := match goal with |- context [if ?b then _ else _] => destruct b eqn:H end.
Ltac branches := repeat (let H := fresh "Hb" in branch H).
