(* ===== verification/Pump.v ===== *)
(** * Pump

    The loop every parser of the repository is an instance of: cut the next
    unit off the front of a buffer, hand it to a callback, go on until the
    buffer holds no complete unit, is malformed, or the callback reports an
    error.  [http2.FrameParser.Parse], [http3.FrameParser.Parse] and
    [grpc.MessageParser.Parse] are proved equal to [pump] at their own [cut];
    the class [Framing] is what a [cut] promises, and everything below is
    proved against it: the loop ends, it never reads past the buffer, it does
    not depend on how the input was split, and it inverts the encoder. *)

From S2P Require Import Prelude.

(** What one look at the front of the buffer can find. *)
Inductive cut_result (F E : Type) : Type :=
  | CutMore
  | CutBad (e : E)
  | CutFrame (f : F) (n : Z).
Arguments CutMore {F E}.
Arguments CutBad {F E} e.
Arguments CutFrame {F E} f n.

(** The promise of a framing: a unit is non-empty and inside the buffer, and
    bytes that arrive later change neither a unit nor an error already found. *)
Class Framing {F E} (cut : bytes -> cut_result F E) : Prop := {
  cut_frame_bound b f n : bytes_ok b -> cut b = CutFrame f n -> 0 < n <= zlen b;
  cut_frame_app b x f n : bytes_ok b -> cut b = CutFrame f n -> cut (b ++ x) = CutFrame f n;
  cut_bad_app b x e : bytes_ok b -> cut b = CutBad e -> cut (b ++ x) = CutBad e;
}.

(** A unit is recognised by its own bytes. *)
Class LocalFraming {F E} (cut : bytes -> cut_result F E) : Prop := {
  local_framing :: Framing cut;
  cut_local b f n : bytes_ok b -> cut b = CutFrame f n -> cut (upto n b) = CutFrame f n;
}.

(** An encoder for the units that satisfy [ok]. *)
Class FramingCodec {F E} (cut : bytes -> cut_result F E)
    (enc : F -> bytes) (ok : F -> Prop) : Prop := {
  codec_framing :: Framing cut;
  enc_bytes f : ok f -> bytes_ok (enc f);
  cut_enc f x : ok f -> cut (enc f ++ x) = CutFrame f (zlen (enc f));
}.

Section Pump.
Context {S F E : Type} (cut : bytes -> cut_result F E).
Context (deliver : F -> M S (option E)).

(** [consumed] counts the bytes of the units delivered so far. *)
Fixpoint pump (fuel : nat) (buf : bytes) (consumed : Z) : M S (Z * option E) :=
  match fuel with
  | O => panic
  | Datatypes.S fuel =>
      match cut buf with
      | CutMore => mret (consumed, None)
      | CutBad e => mret (consumed, Some e)
      | CutFrame f n =>
          e ← deliver f;
          match e with
          | Some e => mret (consumed, Some e)
          | None => pump fuel (from n buf) (consumed + n)
          end
      end
  end.

(** A unit has at least one byte, so one more than the length is enough. *)
Definition fuel_for (buf : bytes) : nat := Datatypes.S (length buf).

Definition run (buf : bytes) : M S (Z * option E) := pump (fuel_for buf) buf 0.

(** Delivering a given list of units, stopping at the first error; the
    number is the length of the units accepted. *)
Fixpoint deliver_all (enc : F -> bytes) (fs : list F) (consumed : Z) : M S (Z * option E) :=
  match fs with
  | [] => mret (consumed, None)
  | f :: fs =>
      e ← deliver f;
      match e with
      | Some e => mret (consumed, Some e)
      | None => deliver_all enc fs (consumed + zlen (enc f))
      end
  end.

(** Feeding [a], keeping what was not consumed, then feeding [b] after it. *)
Definition run_two (a b : bytes) : M S (Z * option E) :=
  r ← run a;
  match r with
  | (n, Some e) => mret (n, Some e)
  | (n, None) =>
      r' ← run (from n a ++ b);
      mret (n + fst r', snd r')
  end.
End Pump.

Section PumpFacts.
Context {S F E : Type} (cut : bytes -> cut_result F E) `{!Framing cut}.
Context (deliver : F -> M S (option E)).
Notation pump := (pump cut deliver).

Lemma pump_S k buf c s :
  pump (Datatypes.S k) buf c s =
    match cut buf with
    | CutMore => Some ((c, None), s)
    | CutBad e => Some ((c, Some e), s)
    | CutFrame f n =>
        match deliver f s with
        | Some (None, s') => pump k (from n buf) (c + n) s'
        | Some (Some e, s') => Some ((c, Some e), s')
        | None => None
        end
    end.
Proof.
  cbn. destruct (cut buf); try done. unfold mbind, M_bind.
  by destruct (deliver f s) as [[[e|] s']|].
Qed.

Lemma pump_fuel k1 : forall k2 buf c s,
  bytes_ok buf -> (length buf < k1)%nat -> (length buf < k2)%nat ->
  pump k1 buf c s = pump k2 buf c s.
Proof.
  induction k1 as [|k1 IH]; intros [|k2] buf c s Hb H1 H2; [lia..|]. cbn.
  destruct (cut buf) as [|e|f n] eqn:Hc; try done.
  apply cut_frame_bound in Hc; [|done].
  unfold mbind, M_bind. destruct (deliver f s) as [[[e|] s']|]; try done.
  apply IH; [eauto with go|..]; unfold from; rewrite length_drop; unfold zlen in *; lia.
Qed.

Lemma pump_shift k : forall buf c s,
  pump k buf c s =
    match pump k buf 0 s with
    | Some ((n, e), s') => Some ((c + n, e), s')
    | None => None
    end.
Proof.
  induction k as [|k IH]; intros buf c s; cbn; [done|].
  destruct (cut buf) as [|e|f n]; unfold mret, M_ret; try by rewrite Z.add_0_r.
  unfold mbind, M_bind. destruct (deliver f s) as [[[e|] s']|]; try done.
  { by rewrite Z.add_0_r. }
  rewrite IH. rewrite (IH _ n). destruct (pump k _ 0 s') as [[[m e] s'']|]; [|done].
  do 3 f_equal. lia.
Qed.

Lemma pump_bound k : forall buf c s n e s',
  bytes_ok buf -> pump k buf c s = Some ((n, e), s') -> c <= n <= c + zlen buf.
Proof.
  induction k as [|k IH]; intros buf c s n e s' Hb H; cbn in H; [done|].
  pose proof (zlen_nonneg buf).
  destruct (cut buf) as [|e'|f m] eqn:Hc; [inversion H; lia..|].
  apply cut_frame_bound in Hc; [|done].
  unfold mbind, M_bind in H. destruct (deliver f s) as [[[e'|] s1]|]; [|..|done].
  - inversion H; lia.
  - apply IH in H; [|eauto with go]. rewrite zlen_from in H by lia. lia.
Qed.

(** If the callback keeps an invariant and does not panic, neither does the
    loop: in particular it ends. *)
Lemma pump_wp (I : S -> Prop) (P : F -> Prop) k buf c s :
  (forall b f n, bytes_ok b -> cut b = CutFrame f n -> P f) ->
  (forall f s, P f -> I s -> wp (deliver f) (fun _ s' => I s') s) ->
  bytes_ok buf -> (length buf < k)%nat -> I s ->
  wp (pump k buf c) (fun r s' => I s' /\ c <= fst r <= c + zlen buf) s.
Proof.
  intros HP Hd. revert buf c s.
  induction k as [|k IH]; intros buf c s Hb Hk Hs; [lia|]. cbn.
  pose proof (zlen_nonneg buf).
  destruct (cut buf) as [|e|f n] eqn:Hc; [apply wp_ret; cbn; split; [done|lia]..|].
  apply wp_bind. eapply wp_mono; [apply Hd; eauto|].
  intros [e|] s1 Hs1; [apply wp_ret; cbn; split; [done|lia]|].
  apply cut_frame_bound in Hc; [|done].
  eapply wp_mono; [apply IH; [eauto with go| |done]|].
  - unfold from. rewrite length_drop. unfold zlen in *. lia.
  - intros r s2 [? Hr]. rewrite zlen_from in Hr by lia. split; [done|lia].
Qed.

Lemma pump_app k1 : forall k2 a b c s,
  bytes_ok a -> bytes_ok b ->
  (length a < k1)%nat -> (length a + length b < k2)%nat ->
  pump k2 (a ++ b) c s =
    match pump k1 a c s with
    | Some ((n, None), s') => pump k2 (from (n - c) a ++ b) n s'
    | r => r
    end.
Proof.
  induction k1 as [|k1 IH]; intros k2 a b c s Ha Hb H1 H2; [lia|].
  destruct k2 as [|k2]; [lia|]. rewrite (pump_S k2 (a ++ b)), (pump_S k1 a).
  destruct (cut a) as [|e|f n] eqn:Hc.
  - rewrite Z.sub_diag, from_0, pump_S. done.
  - by rewrite (cut_bad_app _ b _ Ha Hc).
  - rewrite (cut_frame_app _ b _ _ Ha Hc). pose proof (cut_frame_bound _ _ _ Ha Hc).
    destruct (deliver f s) as [[[e|] s1]|]; try done.
    rewrite from_app_le by lia.
    assert (length (from n a) + Z.to_nat n = length a)%nat as Hl.
    { unfold from. rewrite length_drop. unfold zlen in *. lia. }
    rewrite (IH k2) by (eauto with go || lia).
    destruct (pump k1 (from n a) (c + n) s1) as [[[m [e|]] s2]|] eqn:Hp; try done.
    apply pump_bound in Hp; [|eauto with go]. rewrite zlen_from in Hp by lia.
    rewrite from_from by lia. replace (n + (m - (c + n))) with (m - c) by lia.
    apply pump_fuel; [eauto with go|..]; rewrite length_app;
      (assert (length (from (m - c) a) <= length (from n a))%nat
        by (unfold from; rewrite !length_drop; lia)); lia.
Qed.

(** Splitting the input anywhere changes nothing. *)
Lemma run_split a b s :
  bytes_ok a -> bytes_ok b -> run cut deliver (a ++ b) s = run_two cut deliver a b s.
Proof.
  intros Ha Hb. unfold run_two, run at 1. rewrite (pump_app (fuel_for a));
    [|done|done|unfold fuel_for; lia|unfold fuel_for; rewrite length_app; lia].
  change (pump (fuel_for a) a 0) with (run cut deliver a).
  unfold mbind, M_bind.
  destruct (run cut deliver a s) as [[[n [e|]] s1]|] eqn:Hr; try done.
  apply pump_bound in Hr; [|done]. rewrite Z.sub_0_r.
  rewrite (pump_fuel _ (fuel_for (from n a ++ b)));
    [|eauto with go|unfold fuel_for, from; rewrite !length_app, length_drop; lia|unfold fuel_for; lia].
  rewrite pump_shift. unfold run.
  destruct (pump _ (from n a ++ b) 0 s1) as [[[m e] s2]|]; done.
Qed.

Lemma run_bound buf s n e s' :
  bytes_ok buf -> run cut deliver buf s = Some ((n, e), s') -> 0 <= n <= zlen buf.
Proof. intros Hb H. by apply pump_bound in H. Qed.

Lemma run_wp (I : S -> Prop) (P : F -> Prop) buf s :
  (forall b f n, bytes_ok b -> cut b = CutFrame f n -> P f) ->
  (forall f s, P f -> I s -> wp (deliver f) (fun _ s' => I s') s) ->
  bytes_ok buf -> I s -> wp (run cut deliver buf) (fun r s' => I s' /\ 0 <= fst r <= zlen buf) s.
Proof.
  intros HP Hd Hb Hs. unfold run.
  eapply wp_mono; [apply (pump_wp I P); eauto; unfold fuel_for; lia|].
  cbn. intros r s' [? ?]. split; [done|lia].
Qed.

(** The loop stops where no further unit can be cut. *)
Lemma pump_stops k : forall buf c s n s',
  bytes_ok buf -> pump k buf c s = Some ((n, None), s') -> cut (from (n - c) buf) = CutMore.
Proof.
  induction k as [|k IH]; intros buf c s n s' Hb H; cbn in H; [done|].
  destruct (cut buf) as [|e|f m] eqn:Hc.
  - inversion H; subst. by rewrite Z.sub_diag, from_0.
  - inversion H.
  - apply cut_frame_bound in Hc; [|done]. unfold mbind, M_bind in H.
    destruct (deliver f s) as [[[e|] s1]|]; [done| |done].
    assert (bytes_ok (from m buf)) as Hm by eauto with go.
    pose proof (pump_bound _ _ _ _ _ _ _ Hm H) as Hn. apply IH in H; [|done].
    rewrite from_from in H by lia.
    by replace (m + (n - (c + m))) with (n - c) in H by lia.
Qed.

(** Only the bytes consumed matter. *)
Lemma cut_nothing b : bytes_ok b -> cut b = CutMore -> cut [] = CutMore.
Proof.
  intros Hb Hc. destruct (cut []) as [|e|f n] eqn:H0; [done|..].
  - apply (cut_bad_app [] b) in H0; [|apply bytes_ok_nil]. cbn in H0. congruence.
  - apply cut_frame_bound in H0; [|apply bytes_ok_nil]. destruct H0 as [H1 H2]. unfold zlen in H2. cbn in H2. lia.
Qed.

Lemma pump_prefix k :
  (forall b f n, bytes_ok b -> cut b = CutFrame f n -> cut (upto n b) = CutFrame f n) ->
  forall buf c s n s', bytes_ok buf -> pump k buf c s = Some ((n, None), s') ->
  pump k (upto (n - c) buf) c s = Some ((n, None), s').
Proof.
  intros Hlocal. induction k as [|k IH]; intros buf c s n s' Hb Hp; [done|].
  rewrite pump_S in *. destruct (cut buf) as [|e|f m] eqn:Hc; [|done|].
  - injection Hp as <- <-. rewrite Z.sub_diag. change (upto 0 buf) with (@nil Z).
    by rewrite (cut_nothing buf).
  - pose proof (cut_frame_bound _ _ _ Hb Hc) as Hm.
    destruct (deliver f s) as [[[e|] s1]|] eqn:Hd; [done| |done].
    assert (bytes_ok (from m buf)) as Hbm by eauto with go.
    pose proof (pump_bound _ _ _ _ _ _ _ Hbm Hp) as Hn. rewrite zlen_from in Hn by lia.
    assert (upto (n - c) buf = upto m buf ++ upto (n - (c + m)) (from m buf)) as ->.
    { rewrite <- (upto_from m (upto (n - c) buf)). f_equal.
      - unfold upto. rewrite take_take. f_equal. lia.
      - unfold upto, from. rewrite skipn_firstn_comm. f_equal. lia. }
    assert (zlen (upto m buf) = m) as Hz by (rewrite zlen_upto by lia; lia).
    rewrite (cut_frame_app _ _ f m); [|eauto with go|by apply Hlocal]. rewrite Hd.
    rewrite <- Hz at 1. rewrite from_app_length. by apply IH.
Qed.
End PumpFacts.

(** Running over encoded units delivers exactly those units, in order. *)
Section PumpCodec.
Context {S F E : Type} (cut : bytes -> cut_result F E) (enc : F -> bytes) (ok : F -> Prop).
Context `{!FramingCodec cut enc ok} (deliver : F -> M S (option E)).

Lemma pump_encoded fs rest : forall k c s,
  Forall ok fs -> cut rest = CutMore ->
  (length (concat (enc <$> fs) ++ rest) < k)%nat ->
  pump cut deliver k (concat (enc <$> fs) ++ rest) c s = deliver_all deliver enc fs c s.
Proof.
  induction fs as [|f fs IH]; intros k c s Hok Hrest Hk;
    (destruct k as [|k]; [lia|]).
  { cbn. by rewrite Hrest. }
  apply Forall_cons in Hok as [Hf Hok]. cbn [fmap list_fmap concat] in *.
  cbn [Pump.pump Pump.deliver_all]. rewrite <- app_assoc, (cut_enc f) by done.
  unfold mbind, M_bind. destruct (deliver f s) as [[[e|] s1]|]; try done.
  rewrite from_app_length. apply IH; [done..|].
  assert (0 < zlen (enc f)) as Hpos.
  { pose proof (cut_enc f [] Hf) as Hc. rewrite app_nil_r in Hc.
    apply cut_frame_bound in Hc; [lia|by apply enc_bytes]. }
  rewrite <- app_assoc, length_app in Hk. unfold zlen in Hpos. lia.
Qed.

Lemma run_encoded fs rest s :
  Forall ok fs -> cut rest = CutMore ->
  run cut deliver (concat (enc <$> fs) ++ rest) s = deliver_all deliver enc fs 0 s.
Proof. intros. apply pump_encoded; [done..|]. unfold fuel_for. lia. Qed.
End PumpCodec.

(** A parser that keeps the unread tail itself: each read is appended to what
    was left of the previous ones. *)
Section Absorb.
Context {S F E : Type} (cut : bytes -> cut_result F E) (deliver : F -> M S (option E)).

Definition absorb (buf data : bytes) : M S (bytes * option E) :=
  r ← run cut deliver (buf ++ data);
  mret (from (fst r) (buf ++ data), snd r).

Context `{!Framing cut}.

(** The pieces in which the input arrives do not matter. *)
Lemma absorb_app buf a b s :
  bytes_ok buf -> bytes_ok a -> bytes_ok b ->
  absorb buf (a ++ b) s =
  match absorb buf a s with
  | Some ((rest, None), s') => absorb rest b s'
  | Some ((rest, Some e), s') => Some ((rest ++ b, Some e), s')
  | None => None
  end.
Proof.
  intros Hbuf Ha Hb. unfold absorb. unfold mbind at 1 2, M_bind at 1 2.
  rewrite (app_assoc buf a b).
  rewrite (run_split cut deliver (buf ++ a) b) by auto with go.
  unfold run_two, mbind, M_bind.
  destruct (run cut deliver (buf ++ a) s) as [[[n [e|]] s1]|] eqn:Hr; [| |done].
  - apply (run_bound cut) in Hr; [|by auto with go]. cbn. by rewrite from_app_le.
  - apply (run_bound cut) in Hr; [|by auto with go]. cbn [mret M_ret fst snd].
    assert (bytes_ok (from n (buf ++ a))) as Hn by auto with go.
    destruct (run cut deliver (from n (buf ++ a) ++ b) s1) as [[[k e] s2]|] eqn:Hr2; [|done].
    apply (run_bound cut) in Hr2; [|by auto with go]. cbn.
    rewrite <- from_from, from_app_le by lia. done.
Qed.

(** What is kept never holds a whole unit. *)
Lemma absorb_incomplete buf data s rest s' :
  bytes_ok buf -> bytes_ok data ->
  absorb buf data s = Some ((rest, None), s') -> cut rest = CutMore.
Proof.
  intros Hb Hd H. unfold absorb, mbind, M_bind in H.
  destruct (run cut deliver (buf ++ data) s) as [[[n e] s1]|] eqn:Hr; [|done].
  inversion H; subst. apply (pump_stops cut deliver) in Hr; [|auto with go].
  by rewrite Z.sub_0_r in Hr.
Qed.

(** A sequence of reads, up to the first error. *)
Fixpoint absorb_all (buf : bytes) (chunks : list bytes) : M S (bytes * option E) :=
  match chunks with
  | [] => mret (buf, None)
  | a :: rest =>
      r ← absorb buf a;
      match snd r with
      | Some e => mret r
      | None => absorb_all (fst r) rest
      end
  end.

Lemma absorb_keeps_bytes buf data s r s' :
  bytes_ok buf -> bytes_ok data -> absorb buf data s = Some (r, s') -> bytes_ok (fst r).
Proof.
  intros Hb Hd H. unfold absorb, mbind, M_bind in H.
  destruct (run cut deliver (buf ++ data) s) as [[[n e] s1]|]; [|done].
  inversion H; subst. cbn. auto with go.
Qed.

Lemma absorb_nil buf s : cut buf = CutMore -> absorb buf [] s = Some ((buf, None), s).
Proof.
  intros Hc. unfold absorb, run, mbind, M_bind. rewrite app_nil_r.
  unfold fuel_for. cbn [pump]. rewrite Hc. done.
Qed.

Lemma absorb_all_concat chunks : forall buf s,
  bytes_ok buf -> Forall bytes_ok chunks -> cut buf = CutMore ->
  match absorb buf (concat chunks) s with
  | Some ((rest, None), s') => absorb_all buf chunks s = Some ((rest, None), s')
  | Some ((_, Some e), s') => exists rest, absorb_all buf chunks s = Some ((rest, Some e), s')
  | None => absorb_all buf chunks s = None
  end.
Proof.
  induction chunks as [|a chunks IH]; intros buf s Hb Hch Hcut.
  - cbn [concat]. by rewrite absorb_nil.
  - apply Forall_cons in Hch as [Ha Hch]. cbn [concat absorb_all].
    assert (bytes_ok (concat chunks)) as Hc by by apply Forall_concat.
    rewrite absorb_app by done. unfold mbind, M_bind.
    destruct (absorb buf a s) as [[[rest [e|]] s1]|] eqn:Ea; [by eexists| |done]. cbn [snd fst].
    apply IH; [by apply (absorb_keeps_bytes _ _ _ _ _ Hb Ha Ea)|done|].
    exact (absorb_incomplete buf a s rest s1 Hb Ha Ea).
Qed.
End Absorb.

Section AbsorbCodec.
Context {S F E : Type} (cut : bytes -> cut_result F E) (enc : F -> bytes) (ok : F -> Prop).
Context `{!FramingCodec cut enc ok} (deliver : F -> M S (option E)).

Lemma concat_enc_bytes fs : Forall ok fs -> bytes_ok (concat (enc <$> fs)).
Proof.
  induction 1 as [|f fs Hf _ IH]; [constructor|]. cbn [fmap list_fmap concat].
  apply bytes_ok_app_2; [by apply enc_bytes|done].
Qed.

(** Encoded units, cut into reads anywhere, are delivered one by one. *)
Lemma absorb_all_encoded fs rest chunks s s' :
  Forall ok fs -> Forall bytes_ok chunks -> cut rest = CutMore -> cut [] = CutMore ->
  concat chunks = concat (enc <$> fs) ++ rest ->
  deliver_all deliver enc fs 0 s = Some ((zlen (concat (enc <$> fs)), None), s') ->
  absorb_all cut deliver [] chunks s = Some ((rest, None), s').
Proof.
  intros Hfs Hch Hrest Hnil Hcat Hdel.
  pose proof (absorb_all_concat cut deliver chunks [] s bytes_ok_nil Hch Hnil) as H.
  rewrite Hcat in H. unfold absorb in H. rewrite app_nil_l in H.
  unfold mbind at 1, M_bind at 1 in H. rewrite (run_encoded cut enc ok), Hdel in H by done.
  cbn in H. by rewrite from_app_length in H.
Qed.
End AbsorbCodec.

(** The callback that records what it is given and accepts it. *)
Definition collect {F E} (f : F) : M (list F) (option E) :=
  modify (fun l => l ++ [f]) ;; mret None.

Lemma deliver_all_collect {F E} (enc : F -> bytes) fs : forall acc c,
  deliver_all (E := E) collect enc fs c acc =
  Some ((c + zlen (concat (enc <$> fs)), None), acc ++ fs).
Proof.
  induction fs as [|f fs IH]; intros acc c.
  - cbn [deliver_all]. rewrite app_nil_r. change (zlen (concat (enc <$> []))) with 0.
    by rewrite Z.add_0_r.
  - cbn [deliver_all]. unfold mbind, M_bind.
    change (collect f acc) with (Some (@None E, acc ++ [f])). cbv iota beta.
    rewrite IH, fmap_cons. cbn [concat]. by rewrite zlen_app, Z.add_assoc, <- app_assoc.
Qed.
