(* ===== verification/Sock.v ===== *)
(** * Sock

    What the two users of non-blocking sockets, [websocket] and [engine], have
    in common: the results of a system call, the list of buffers that wait for
    the socket, and flags packed into one word.  At the end a concrete kernel
    for the witnesses: a socket that delivers given pieces and takes given
    numbers of bytes, which shows that the hypotheses on the world can be met. *)

From S2P Require Import Prelude.

(** ** Results of system calls *)

Inductive errno : Type := EAGAIN | EINTR | Eother (name : string).
#[export] Instance errno_eq_dec : EqDecision errno.
Proof. solve_decision. Defined.

Definition is_soft (e : option errno) : bool :=
  match e with None | Some EAGAIN | Some EINTR => true | Some (Eother _) => false end.

(** ** Buffers that wait for the socket *)

(** A buffer of the write list: its bytes and its capacity. *)
Record wbuf : Type := mkWbuf { wb_data : bytes; wb_cap : Z }.

Definition slot_bytes (o : option wbuf) : bytes := from_option wb_data [] o.
Definition slots (l : list (option wbuf)) : bytes := concat (slot_bytes <$> l).

Definition slot_ok (o : option wbuf) : Prop :=
  match o with Some b => zlen (wb_data b) <= wb_cap b | None => False end.

Lemma slots_app l1 l2 : slots (l1 ++ l2) = slots l1 ++ slots l2.
Proof. unfold slots. by rewrite fmap_app, concat_app. Qed.
Lemma slots_one b : slots [Some b] = wb_data b.
Proof. unfold slots. cbn. by rewrite app_nil_r. Qed.
Lemma slots_cons o l : slots (o :: l) = slot_bytes o ++ slots l.
Proof. done. Qed.
Lemma slots_None n : slots (replicate n None) = [].
Proof. by induction n. Qed.

Lemma last_split {A} (l : list A) x : last l = Some x -> l = take (length l - 1) l ++ [x].
Proof.
  intros Hl. apply last_Some in Hl as [l' ->]. rewrite length_app. cbn.
  by replace (length l' + 1 - 1)%nat with (length l') by lia; rewrite take_app_length.
Qed.

(** ** Copying into a buffer *)

(** [copy(dst, src)]: the overwritten front of [dst]. *)
Definition copy_front (dst src : bytes) : bytes :=
  upto (zlen dst) src ++ from (zlen src) dst.

Lemma copy_front_eq (dst src : bytes) :
  zlen src <= zlen dst ->
  zlen (copy_front dst src) = zlen dst /\ slice 0 (zlen src) (copy_front dst src) = src.
Proof.
  intros Hl. pose proof (zlen_nonneg src). unfold copy_front. rewrite upto_all by lia. split.
  - rewrite zlen_app, zlen_from by lia. lia.
  - rewrite slice_app_le, slice_upto_from, from_0, Z.sub_0_r by lia. apply upto_all. lia.
Qed.

Lemma from_slice k a b (buf : bytes) : 0 <= a -> 0 <= k <= b - a -> from k (slice a b buf) = slice (a + k) b buf.
Proof.
  intros Ha Hk. unfold from, slice. rewrite skipn_firstn_comm, drop_drop. f_equal; [lia|]. f_equal. lia.
Qed.

Lemma upto_slice k a b (buf : bytes) : 0 <= a -> 0 <= k <= b - a -> upto k (slice a b buf) = slice a (a + k) buf.
Proof. intros Ha Hk. unfold upto, slice. rewrite take_take. f_equal. lia. Qed.

(** Reading behind the write index, and moving to another buffer. *)
Lemma slice_store (r w : Z) (buf data : bytes) :
  0 <= r <= w -> w + zlen data <= zlen buf ->
  slice r (w + zlen data) (upto w buf ++ data ++ from (w + zlen data) buf) = slice r w buf ++ data /\
  zlen (upto w buf ++ data ++ from (w + zlen data) buf) = zlen buf.
Proof.
  intros Hr Hw. pose proof (zlen_nonneg data). split.
  - rewrite app_assoc, slice_app_le by (rewrite ?zlen_app, ?zlen_upto by lia; lia).
    rewrite slice_upto_from, from_app_le by (rewrite ?zlen_upto by lia; lia).
    rewrite upto_all by (rewrite zlen_app, zlen_from, zlen_upto by (rewrite ?zlen_upto by lia; lia); lia).
    f_equal. unfold slice, from, upto. rewrite skipn_firstn_comm. f_equal. lia.
  - rewrite !zlen_app, zlen_upto, zlen_from by lia. lia.
Qed.

Lemma slice_copy (r w : Z) (old pool : bytes) :
  0 <= r <= w -> w <= zlen old -> w <= zlen pool ->
  slice r w (copy_front pool (slice 0 w old)) = slice r w old /\
  zlen (copy_front pool (slice 0 w old)) = zlen pool.
Proof.
  intros Hr Hw Hp. assert (zlen (slice 0 w old) = w) as Hz by (rewrite zlen_slice; lia).
  destruct (copy_front_eq pool (slice 0 w old)) as [H1 H2]; [lia|]. split; [|done].
  rewrite Hz in H2. transitivity (from r (slice 0 w (copy_front pool (slice 0 w old)))).
  - rewrite from_slice by lia. f_equal; lia.
  - rewrite H2, from_slice by lia. f_equal; lia.
Qed.

(** ** Packed flags *)

Definition has_flag (f p : Z) : bool := negb (p .& f =? 0).
Definition put_flag (f : Z) (v : bool) (p : Z) : Z := if v then p .| f else Z.ldiff p f.

(** The flags do not disturb each other. *)
Lemma put_flag_other m f v p : f .& m = 0 -> put_flag f v p .& m = p .& m.
Proof.
  intros Hf. destruct v; cbn [put_flag].
  - by rewrite Z.land_lor_distr_l, Hf, Z.lor_0_r.
  - apply Z.bits_inj'. intros n Hn. rewrite !Z.land_spec, Z.ldiff_spec.
    apply (f_equal (fun x => Z.testbit x n)) in Hf. rewrite Z.land_spec, Z.bits_0 in Hf.
    by destruct (Z.testbit p n), (Z.testbit f n), (Z.testbit m n).
Qed.

Lemma has_put_flag f v p : 0 < f -> has_flag f (put_flag f v p) = v.
Proof.
  intros Hf. unfold has_flag, put_flag. destruct v; cbn.
  - rewrite Z.land_lor_distr_l, Z.land_diag. apply negb_true_iff, Z.eqb_neq. intros E.
    apply Z.lor_eq_0_iff in E. lia.
  - apply negb_false_iff, Z.eqb_eq. apply Z.bits_inj'. intros n _.
    rewrite Z.land_spec, Z.ldiff_spec, Z.bits_0. by destruct (Z.testbit p n), (Z.testbit f n).
Qed.

Record plain_world : Type := mkWorld { pw_in : list bytes; pw_room : list Z }.

Definition plain_read (n : Z) (w : plain_world) : (bytes + errno) * plain_world :=
  match pw_in w with
  | [] => (inr EAGAIN, w)
  | d :: l =>
      if zlen d <=? n then (inl (u8 <$> d), mkWorld l (pw_room w))
      else (inl (u8 <$> upto n d), mkWorld (from n d :: l) (pw_room w))
  end.

Definition plain_write (p : bytes) (w : plain_world) : (Z + errno) * plain_world :=
  match pw_room w with
  | [] => (inr EAGAIN, w)
  | n :: l => (inl (Z.min (zlen p) (Z.max 0 n)), mkWorld (pw_in w) l)
  end.

Definition plain_incoming (w : plain_world) : bytes := u8 <$> concat (pw_in w).
Definition plain_left (w : plain_world) : nat := (length (concat (pw_in w)) + length (pw_in w))%nat.

Lemma u8_bytes l : bytes_ok (u8 <$> l).
Proof. apply Forall_fmap, Forall_true. intros x. apply u8_byte. Qed.

Lemma plain_read_spec n w : 0 < n ->
  match plain_read n w with
  | (inl data, w') => plain_incoming w = data ++ plain_incoming w' /\ zlen data <= n /\ bytes_ok data /\
                      (plain_left w' < plain_left w)%nat
  | (inr EINTR, w') => plain_incoming w' = plain_incoming w /\ (plain_left w' < plain_left w)%nat
  | (inr _, w') => plain_incoming w' = plain_incoming w /\ (plain_left w' <= plain_left w)%nat
  end.
Proof.
  intros Hn. unfold plain_read, plain_incoming, plain_left. destruct w as [[|d l] room]; cbn; [done|].
  destruct (Z.leb_spec (zlen d) n) as [Hd|Hd]; cbn.
  - rewrite fmap_app, length_app. split; [done|]. split; [|split; [apply u8_bytes|lia]].
    unfold zlen in *. by rewrite length_fmap.
  - split; [|split; [|split; [apply u8_bytes|]]].
    + by rewrite <- fmap_app, app_assoc, upto_from.
    + pose proof (zlen_upto n d ltac:(lia)). unfold zlen in *. rewrite length_fmap. lia.
    + rewrite !length_app. pose proof (zlen_from n d ltac:(lia)). unfold zlen in *. lia.
Qed.
