(* ===== verification/GoStd.v ===== *)
(** * GoStd

    The functions of Go's standard library that the modelled code calls on
    strings: [strings.TrimSpace], [strings.IndexByte], [strconv.ParseInt],
    [strconv.ParseUint].  Strings are byte strings, as in Go.  At the end,
    [float32]: its conversions and its product, as IEEE 754 rounds them. *)

From Stdlib Require Import SpecFloat.
From S2P Require Import Prelude.

(** Error values: [errors.New(text)], [fmt.Errorf("%w: detail", base)],
    [fmt.Errorf("prefix: %w", base)] and, with other separators,
    [fmt.Errorf("%wsuffix", base)]. *)
Inductive error : Type :=
  | errorsNew (text : string)
  | errorfWrap (base : error) (detail : string)
  | errorfPrefix (prefix : string) (base : error)
  | errorfSuffix (base : error) (suffix : string).

Fixpoint error_text (e : error) : string :=
  match e with
  | errorsNew t => t
  | errorfWrap b d => error_text b +:+ ": " +:+ d
  | errorfPrefix p b => p +:+ ": " +:+ error_text b
  | errorfSuffix b t => error_text b +:+ t
  end.

(** UTF-8 encodings of the code points with [unicode.IsSpace]. *)
Definition space_runes : list bytes :=
  [[9]; [10]; [11]; [12]; [13]; [32]; [194; 133]; [194; 160]; [225; 154; 128];
   [226; 128; 128]; [226; 128; 129]; [226; 128; 130]; [226; 128; 131];
   [226; 128; 132]; [226; 128; 133]; [226; 128; 134]; [226; 128; 135];
   [226; 128; 136]; [226; 128; 137]; [226; 128; 138]; [226; 128; 168];
   [226; 128; 169]; [226; 128; 175]; [226; 129; 159]; [227; 128; 128]].

Fixpoint strip_prefix (p l : bytes) : option bytes :=
  match p, l with
  | [], _ => Some l
  | x :: p, y :: l => if x =? y then strip_prefix p l else None
  | _ :: _, [] => None
  end.

Fixpoint first_some {A B} (f : A -> option B) (l : list A) : option B :=
  match l with
  | [] => None
  | x :: l => match f x with Some y => Some y | None => first_some f l end
  end.

Fixpoint trim_front (runes : list bytes) (fuel : nat) (l : bytes) : bytes :=
  match fuel with
  | O => l
  | S fuel =>
      match first_some (fun r => strip_prefix r l) runes with
      | Some l' => trim_front runes fuel l'
      | None => l
      end
  end.

(** Each step removes at least one byte, so the length is fuel enough. *)
Definition TrimSpace_bytes (l : bytes) : bytes :=
  let l := trim_front space_runes (length l) l in
  reverse (trim_front (reverse <$> space_runes) (length l) (reverse l)).

Definition TrimSpace (s : string) : string :=
  string_of_bytes (TrimSpace_bytes (bytes_of_string s)).

(** [strings.IndexByte(s, c)], [-1] when absent. *)
Fixpoint IndexByte_from (i : Z) (l : bytes) (c : Z) : Z :=
  match l with
  | [] => -1
  | x :: l => if x =? c then i else IndexByte_from (i + 1) l c
  end.
Definition IndexByte (l : bytes) (c : Z) : Z := IndexByte_from 0 l c.

Definition is_digit (c : Z) : bool := (48 <=? c) && (c <=? 57).
Definition digits_val (l : bytes) : Z := fold_left (fun a c => a * 10 + (c - 48)) l 0.

(** [strconv.ParseUint(s, 10, bits)]: [None] is a non-nil error. *)
Definition ParseUint (s : string) (bits : Z) : option Z :=
  let l := bytes_of_string s in
  if (zlen l =? 0) || negb (forallb is_digit l) then None
  else let n := digits_val l in if n <? 2 ^ bits then Some n else None.

(** [strconv.ParseInt(s, 10, 64)] *)
Definition ParseInt (s : string) : option Z :=
  let l := bytes_of_string s in
  let '(neg, d) :=
    match l with
    | c :: l' => if c =? 43 then (false, l') else if c =? 45 then (true, l') else (false, l)
    | [] => (false, [])
    end in
  if (zlen d =? 0) || negb (forallb is_digit d) then None
  else
    let n := digits_val d in
    if neg then if n <=? 2 ^ 63 then Some (- n) else None
    else if n <? 2 ^ 63 then Some n else None.

(** ** Printing and parsing numbers *)

(** [val] reads a digit of the base. *)
Lemma digits_fold base (val : Z -> Z) fuel : forall x acc,
  2 <= base -> (forall d, 0 <= d < base -> val (digit_char d) = d) ->
  0 <= x < base ^ Z.of_nat fuel -> (0 < fuel)%nat ->
  fold_left (fun a c => a * base + val c) (digits base fuel x acc) 0 =
  fold_left (fun a c => a * base + val c) acc x.
Proof.
  induction fuel as [|fuel IH]; intros x acc Hb Hval Hx Hf; [lia|]. cbn [digits].
  assert (base ^ Z.of_nat (S fuel) = base * base ^ Z.of_nat fuel) as Hp.
  { rewrite Nat2Z.inj_succ, Z.pow_succ_r; lia. }
  assert (0 <= x mod base < base) by (apply Z.mod_pos_bound; lia).
  pose proof (Z.div_mod x base).
  destruct (Z.eqb_spec (x / base) 0) as [Hz|Hz].
  - cbn [fold_left]. rewrite Hval by done. f_equal. lia.
  - destruct fuel as [|fuel]; [exfalso; apply Hz; apply Z.div_small; cbn in Hx; lia|].
    rewrite IH; [|done|done|split; [apply Z.div_pos; lia|apply Z.div_lt_upper_bound; lia]|lia].
    cbn [fold_left]. rewrite Hval by done. f_equal. lia.
Qed.

Lemma digit_char_val d : 0 <= d < 10 -> digit_char d - 48 = d.
Proof. intros. unfold digit_char. replace (d <? 10) with true by lia. lia. Qed.

Lemma digits_all (P : Z -> Prop) base fuel : forall x acc,
  (forall y, P (digit_char (y mod base))) -> Forall P acc -> Forall P (digits base fuel x acc).
Proof.
  induction fuel as [|fuel IH]; intros x acc Hd Hacc; [done|]. cbn.
  destruct (_ =? 0); [by constructor|]. apply IH; [done|by constructor].
Qed.

Lemma digits_nonempty base fuel x acc :
  (0 < fuel)%nat -> (length acc < length (digits base fuel x acc))%nat.
Proof.
  revert x acc. induction fuel as [|fuel IH]; intros x acc Hf; [lia|]. cbn.
  destruct (_ =? 0); [cbn; lia|]. destruct fuel as [|fuel]; [cbn; lia|].
  etransitivity; [|apply IH; lia]. cbn; lia.
Qed.

Lemma format_uint_digit x : Forall (fun c => is_digit c = true) (format_uint x).
Proof.
  apply digits_all; [|constructor]. intros y. unfold is_digit, digit_char.
  assert (0 <= y mod 10 < 10) by (apply Z.mod_pos_bound; lia).
  replace (_ <? 10) with true by lia. lia.
Qed.

Lemma format_uint_bytes x : bytes_ok (format_uint x).
Proof.
  eapply Forall_impl; [apply format_uint_digit|]. unfold is_digit, is_byte. intros. lia.
Qed.

(** [strconv.ParseUint] inverts [strconv.FormatUint]. *)
Lemma ParseUint_format x bits :
  0 <= x < 2 ^ 64 -> x < 2 ^ bits ->
  ParseUint (string_of_bytes (format_uint x)) bits = Some x.
Proof.
  intros Hx Hb. unfold ParseUint.
  rewrite bytes_of_string_of_bytes by apply format_uint_bytes.
  assert (forallb is_digit (format_uint x) = true) as ->.
  { apply forallb_forall. intros c Hc. apply list_elem_of_In in Hc.
    by eapply (proj1 (Forall_forall _ _) (format_uint_digit x)). }
  pose proof (digits_nonempty 10 20 x [] ltac:(lia)) as Hne. cbn [length] in Hne.
  unfold zlen, format_uint in *.
  replace (Z.of_nat _ =? 0) with false by lia. cbn [orb negb].
  unfold digits_val. rewrite (digits_fold 10 (fun c => c - 48)) by (apply digit_char_val || lia). cbn [fold_left].
  by replace (x <? 2 ^ bits) with true by lia.
Qed.

(** ** Finding a byte *)

Lemma IndexByte_from_spec l c : forall i,
  (IndexByte_from i l c = -1 /\ c ∉ l) \/
  exists a b, l = a ++ c :: b /\ c ∉ a /\ IndexByte_from i l c = i + zlen a.
Proof.
  induction l as [|x l IH]; intros i; cbn [IndexByte_from].
  - left. split; [done|]. set_solver.
  - destruct (Z.eqb_spec x c) as [->|Hne].
    + right. exists [], l. split; [done|]. split; [set_solver|]. unfold zlen. cbn. lia.
    + destruct (IH (i + 1)) as [[-> Hl]|(a & b & -> & Ha & ->)].
      * left. split; [done|]. set_solver.
      * right. exists (x :: a), b. split; [done|]. split; [set_solver|]. rewrite zlen_cons. lia.
Qed.

Lemma app_cons_inj (a a' b b' : bytes) c :
  c ∉ a -> c ∉ a' -> a ++ c :: b = a' ++ c :: b' -> a = a' /\ b = b'.
Proof.
  revert a'. induction a as [|x a IH]; intros [|y a'] Ha Ha' E; cbn in E.
  - by inversion E.
  - inversion E; subst. set_solver.
  - inversion E; subst. set_solver.
  - inversion E as [[E1 E2]]; subst. apply IH in E2 as [-> ->]; set_solver.
Qed.

Lemma IndexByte_app a b c : c ∉ a -> IndexByte (a ++ c :: b) c = zlen a.
Proof.
  intros Ha. unfold IndexByte. destruct (IndexByte_from_spec (a ++ c :: b) c 0)
    as [[_ H]|(a' & b' & E & Ha' & ->)]; [set_solver|].
  apply app_cons_inj in E as [-> _]; [lia|done|done].
Qed.

(** ** [unicode/utf8] *)

(** [utf8.Valid] of Go's library. *)
Definition cont (c : Z) : bool := (0x80 <=? c) && (c <=? 0xbf).
Fixpoint utf8_Valid (l : bytes) : bool :=
  match l with
  | [] => true
  | a :: l =>
      if a <? 0x80 then utf8_Valid l
      else match l with
      | [] => false
      | b :: l =>
          if (0xc2 <=? a) && (a <=? 0xdf) then cont b && utf8_Valid l
          else match l with
          | [] => false
          | c :: l =>
              if (0xe0 <=? a) && (a <=? 0xef) then
                cont b && cont c && (negb (a =? 0xe0) || (0xa0 <=? b)) && (negb (a =? 0xed) || (b <=? 0x9f)) &&
                utf8_Valid l
              else match l with
              | [] => false
              | d :: l =>
                  (0xf0 <=? a) && (a <=? 0xf4) && cont b && cont c && cont d &&
                  (negb (a =? 0xf0) || (0x90 <=? b)) && (negb (a =? 0xf4) || (b <=? 0x8f)) && utf8_Valid l
              end
          end
      end
  end.

(** ** float32

    The formats of [SpecFloat]: 24 digits of precision, exponents up to 128.
    [float32 n] is the conversion of an integer, [int_of_float32] the one back,
    which drops the fraction; out of the range of [int] it is implementation
    dependent. *)

Definition float32 (x : Z) : spec_float := binary_normalize 24 128 x 0 false.
Definition one32 : spec_float := float32 1.
Definition two32 : spec_float := float32 2.
Definition mul32 : spec_float -> spec_float -> spec_float := SFmul 24 128.

(** [m * 2^e] without its fraction. *)
Definition trunc (m e : Z) : Z := if 0 <=? e then m * 2 ^ e else m / 2 ^ (- e).

Definition int_of_float32 (out_of_range : spec_float -> Z) (f : spec_float) : Z :=
  match f with
  | S754_zero _ => 0
  | S754_finite s m e =>
      let v := if s then - trunc (Zpos m) e else trunc (Zpos m) e in
      if (- 2 ^ 63 <=? v) && (v <? 2 ^ 63) then v else out_of_range f
  | _ => out_of_range f
  end.

Lemma digits2_pos_bound p : 2 ^ (Zpos (digits2_pos p) - 1) <= Zpos p < 2 ^ Zpos (digits2_pos p).
Proof.
  induction p as [p IH|p IH|]; cbn [digits2_pos]; [| |by vm_compute].
  all: rewrite Pos2Z.inj_succ; replace (Z.succ (Z.pos (digits2_pos p)) - 1) with (Z.succ (Z.pos (digits2_pos p) - 1)) by lia.
  all: rewrite !Z.pow_succ_r by lia; lia.
Qed.

Lemma shr_1_m mrs : 0 <= shr_m mrs -> shr_m (shr_1 mrs) = shr_m mrs / 2.
Proof.
  destruct mrs as [[|p|p] r s]; intros Hm; [done| |done]. destruct p as [p|p|]; cbn [shr_1 shr_m]; [| |done].
  - apply (Z.div_unique (Z.pos p~1) 2 (Z.pos p) 1); lia.
  - apply (Z.div_unique (Z.pos p~0) 2 (Z.pos p) 0); lia.
Qed.


Lemma iter_shr_1_m p mrs : 0 <= shr_m mrs ->
  shr_m (SpecFloat.iter_pos shr_1 p mrs) = shr_m mrs / 2 ^ Zpos p.
Proof.
  assert (forall x a b : Z, 0 <= a -> 0 <= b -> x / 2 ^ a / 2 ^ b = x / 2 ^ (a + b)) as Hdiv
    by (intros; rewrite Z.div_div, <- Z.pow_add_r by lia; done).
  revert mrs. induction p as [p IH|p IH|]; intros mrs Hm; cbn [SpecFloat.iter_pos]; [| |by apply shr_1_m].
  - pose proof (shr_1_m mrs Hm) as H1. assert (0 <= shr_m (shr_1 mrs)) as H0 by (rewrite H1; apply Z.div_pos; lia).
    rewrite !IH, H1, !Hdiv by (rewrite ?IH by done; try apply Z.div_pos; lia).
    rewrite Z.div_div by lia. rewrite <- (Z.pow_1_r 2) at 1. rewrite <- Z.pow_add_r by lia. do 2 f_equal. lia.
  - rewrite !IH, Hdiv by (rewrite ?IH by done; try apply Z.div_pos; lia). do 2 f_equal. lia.
Qed.

(** Rounding keeps the 24 leading digits or adds one to them. *)
Lemma digits2_unique p d : 2 ^ (d - 1) <= Zpos p < 2 ^ d -> 0 < d -> Zpos (digits2_pos p) = d.
Proof.
  intros [H1 H2] Hd. pose proof (digits2_pos_bound p) as [H3 H4].
  assert (d - 1 < Zpos (digits2_pos p)) by (apply (Z.pow_lt_mono_r_iff 2); lia).
  assert (Zpos (digits2_pos p) - 1 < d) by (apply (Z.pow_lt_mono_r_iff 2); lia). lia.
Qed.

Lemma round32_bounds mx ex :
  let d := Zpos (digits2_pos mx) in let k := d - 24 in let q := Zpos mx / 2 ^ k in
  24 <= d -> -149 <= ex + k -> ex + k < 104 ->
  exists m e, binary_round_aux 24 128 false (Zpos mx) ex loc_Exact = S754_finite false m e /\
    2 ^ 23 <= Zpos m < 2 ^ 24 /\ 0 <= e - (ex + k) <= 1 /\ q <= Zpos m * 2 ^ (e - (ex + k)) <= q + 1 /\
    (k = 0 -> Zpos m = Zpos mx /\ e = ex).
Proof.
  intros d k q Hd Hlo Hhi. unfold binary_round_aux, shr_fexp at 1, fexp, emin, shr_record_of_loc, Zdigits2. fold d.
  replace (Z.max (d + ex - 24) (3 - 128 - 24) - ex) with k by lia.
  assert (2 ^ 23 <= q < 2 ^ 24) as Hq.
  { pose proof (digits2_pos_bound mx) as [H1 H2]. fold d in H1, H2. unfold q. split.
    - apply Z.div_le_lower_bound; [lia|]. rewrite <- Z.pow_add_r by lia. by replace (k + 23) with (d - 1) by lia.
    - apply Z.div_lt_upper_bound; [lia|]. rewrite <- Z.pow_add_r by lia. by replace (k + 24) with d by lia. }
  destruct (shr {| shr_m := Z.pos mx; shr_r := false; shr_s := false |} ex k) as [mrs e1] eqn:E1.
  assert (shr_m mrs = q /\ e1 = ex + k /\ (k = 0 -> loc_of_shr_record mrs = loc_Exact)) as (Hm & -> & Hexact).
  { revert E1. unfold shr. destruct k as [|p|p] eqn:Ek; intros [= <- <-].
    - unfold q. rewrite Z.pow_0_r, Z.div_1_r. split; [done|]. split; [lia|done].
    - rewrite iter_shr_1_m by done. done.
    - lia. }
  rewrite Hm. set (r := round_nearest_even q (loc_of_shr_record mrs)).
  assert ((r = q \/ r = q + 1) /\ (k = 0 -> r = q)) as [Hr Hr0].
  { unfold r. split; [unfold round_nearest_even; destruct (loc_of_shr_record mrs) as [|[]]; auto; destruct (Z.even q); auto|].
    intros Hk. by rewrite Hexact. }
  clearbody r. unfold shr_fexp, fexp, emin, shr_record_of_loc.
  destruct (Z.eq_dec r (2 ^ 24)) as [->|Hne].
  - change (Zdigits2 (2 ^ 24)) with 25. replace (Z.max _ _ - _) with 1 by lia.
    change (shr _ _ 1) with (Build_shr_record (2 ^ 23) false false, ex + k + 1).
    cbn [shr_m]. change (2 ^ 23) with (Zpos 8388608). replace (ex + k + 1 <=? 128 - 24) with true by lia.
    exists 8388608%positive, (ex + k + 1). split; [done|]. split; [lia|].
    replace (ex + k + 1 - (ex + k)) with 1 by lia. repeat split; try lia.
  - destruct r as [|p|p]; [lia| |lia]. cbn [Zdigits2].
    rewrite (digits2_unique p 24) by lia. replace (Z.max _ _ - _) with 0 by lia. cbn [shr shr_m].
    replace (ex + k <=? 128 - 24) with true by lia.
    exists p, (ex + k). split; [done|]. split; [lia|]. rewrite Z.sub_diag, Z.pow_0_r. split; [lia|]. split; [lia|].
    intros Hk. split; [|lia]. rewrite (Hr0 Hk). unfold q. by rewrite Hk, Z.pow_0_r, Z.div_1_r.
Qed.

Lemma iter_xO p j : Zpos (Pos.iter xO p j) = Zpos p * 2 ^ Zpos j.
Proof.
  revert p. induction j as [|j IH] using Pos.peano_ind; intros p; [cbn; lia|].
  rewrite Pos.iter_succ, Pos2Z.inj_xO, IH, Pos2Z.inj_succ, Z.pow_succ_r by lia. lia.
Qed.

(** [float32(n)] for a length [n] is less than an ulp below it; values are
    scaled by [2 ^ 23]. *)
Lemma float32_bounds n : 0 < n < 2 ^ 62 ->
  exists m e, float32 n = S754_finite false m e /\ 2 ^ 23 <= Zpos m < 2 ^ 24 /\
    0 <= e - (Z.log2 n - 23) <= 1 /\
    (n - 2 ^ Z.max 0 (Z.log2 n - 23)) * 2 ^ 23 < Zpos m * 2 ^ (e + 23).
Proof.
  intros Hn. destruct n as [|p|p]; [lia| |lia]. unfold float32, binary_normalize, binary_round, fexp, emin.
  pose proof (digits2_pos_bound p) as Hp. set (d := Zpos (digits2_pos p)) in *.
  assert (Z.log2 (Zpos p) = d - 1) as Hlog by (apply Z.log2_unique; [lia|]; by replace (Z.succ (d - 1)) with d by lia).
  rewrite Hlog. assert (1 <= d <= 62).
  { split; [lia|]. assert (d - 1 < 62); [|lia]. apply (Z.pow_lt_mono_r_iff 2); lia. }
  replace (Z.max (d + 0 - 24) (3 - 128 - 24)) with (d - 24) by lia. unfold shl_align.
  destruct (Z.leb_spec 24 d) as [Hd|Hd].
  - assert (match d - 24 - 0 with Z.neg d0 => (Pos.iter xO p d0, d - 24) | _ => (p, 0) end = (p, 0)) as ->
      by (destruct (d - 24 - 0) eqn:E; done || lia).
    destruct (round32_bounds p 0) as (m & e & -> & Hm & He & Hq & _); fold d; [lia..|]. fold d in He, Hq.
    exists m, e. split; [done|]. split; [done|]. split; [lia|].
    replace (Z.max 0 (d - 1 - 23)) with (d - 24) by lia. set (k := d - 24) in *.
    replace (e + 23) with ((e - (0 + k)) + (k + 23)) by lia. rewrite (Z.pow_add_r 2 (e - (0 + k))) by lia.
    pose proof (Z.mul_succ_div_gt (Zpos p) (2 ^ k) ltac:(lia)) as Hdiv.
    rewrite Z.pow_add_r by lia. nia.
  - destruct (d - 24 - 0) as [|j|j] eqn:Ej; [lia..|].
    assert (Zpos (Pos.iter xO p j) = Zpos p * 2 ^ Zpos j) as Hj by apply iter_xO.
    assert (Zpos (digits2_pos (Pos.iter xO p j)) = 24) as Hdig.
    { apply digits2_unique; [|lia]. rewrite Hj. replace (Zpos j) with (24 - d) by lia.
      replace (24 - 1) with (d - 1 + (24 - d)) by lia. replace 24 with (d + (24 - d)) at 4 by lia.
      rewrite !Z.pow_add_r by lia. nia. }
    destruct (round32_bounds (Pos.iter xO p j) (d - 24)) as (m & e & -> & Hm & He & Hq & Hex); rewrite ?Hdig; [lia..|].
    rewrite Hdig in *. destruct (Hex eq_refl) as [Em ->]. exists m, (d - 24). split; [done|]. split; [done|]. split; [lia|].
    rewrite Em, Hj. replace (Z.max 0 (d - 1 - 23)) with 0 by lia.
    rewrite <- Z.mul_assoc, <- Z.pow_add_r by lia. replace (Zpos j + (d - 24 + 23)) with 23 by lia. lia.
Qed.

Lemma trunc_ge m e x : 0 <= m -> 0 <= e + 46 -> 0 <= x -> x * 2 ^ 46 <= m * 2 ^ (e + 46) -> x <= trunc m e.
Proof.
  intros Hm He Hx Hle. unfold trunc. destruct (Z.leb_spec 0 e) as [H|H].
  - rewrite Z.pow_add_r in Hle by lia. nia.
  - apply Z.div_le_lower_bound; [lia|]. replace 46 with ((- e) + (e + 46)) in Hle at 1 by lia.
    rewrite Z.pow_add_r in Hle by lia. apply (Z.mul_le_mono_pos_r _ _ (2 ^ (e + 46))); lia.
Qed.

Lemma trunc_le m e x : 0 <= m -> 0 <= e + 46 -> m * 2 ^ (e + 46) <= x * 2 ^ 46 -> trunc m e <= x.
Proof.
  intros Hm He Hle. unfold trunc. destruct (Z.leb_spec 0 e) as [H|H].
  - rewrite Z.pow_add_r in Hle by lia. nia.
  - apply Z.div_le_upper_bound; [lia|]. replace 46 with ((- e) + (e + 46)) in Hle at 2 by lia.
    rewrite (Z.pow_add_r 2 (- e)) in Hle by lia. apply (Z.mul_le_mono_pos_r _ _ (2 ^ (e + 46))); lia.
Qed.

(** A multiple of at least 1 does not make a float smaller; one of at least 2
    reaches the next power of two. *)
Lemma mul32_bounds m e mm me :
  2 ^ 23 <= Zpos m < 2 ^ 24 -> 2 ^ 23 <= Zpos mm < 2 ^ 24 -> -23 <= e <= 39 -> -23 <= me <= 10 ->
  exists m' e', mul32 (S754_finite false m e) (S754_finite false mm me) = S754_finite false m' e' /\
    -46 <= e' /\ Zpos m * 2 ^ (e + 46) <= Zpos m' * 2 ^ (e' + 46) <= 2 ^ (48 + e + me + 46) /\
    2 ^ (46 + e + me + 46) <= Zpos m' * 2 ^ (e' + 46).
Proof.
  intros Hm Hmm He Hme. unfold mul32, SFmul. cbn [xorb].
  set (d := Zpos (digits2_pos (m * mm))).
  assert (47 <= d <= 48) as Hd.
  { pose proof (digits2_pos_bound (m * mm)) as [H1 H2]. fold d in H1, H2. rewrite Pos2Z.inj_mul in H1, H2.
    assert (2 ^ 46 <= Zpos m * Zpos mm < 2 ^ 48) as H3 by nia. split.
    - apply Z.lt_pred_le. apply (Z.pow_lt_mono_r_iff 2); lia.
    - assert (d - 1 < 48); [|lia]. apply (Z.pow_lt_mono_r_iff 2); lia. }
  destruct (round32_bounds (m * mm) (e + me)) as (m' & e' & E & Hm' & He' & Hq & _); fold d; [lia..|].
  fold d in He', Hq. change (Zpos m * Zpos mm) with (Zpos (m * mm)). rewrite E. exists m', e'.
  split; [done|]. split; [lia|]. set (k := d - 24) in *.
  pose proof (digits2_pos_bound (m * mm)) as Hdig. fold d in Hdig. rewrite Pos2Z.inj_mul in Hq, Hdig.
  set (q := Zpos m * Zpos mm / 2 ^ k) in *.
  assert (Zpos m' * 2 ^ (e' + 46) = Zpos m' * 2 ^ (e' - (e + me + k)) * 2 ^ (e + me + k + 46)) as ->.
  { rewrite <- Z.mul_assoc, <- Z.pow_add_r by lia. do 2 f_equal. lia. }
  set (v := Zpos m' * 2 ^ (e' - (e + me + k))) in *.
  assert (2 ^ 23 <= q /\ q + 1 <= 2 ^ 24) as [Hq1 Hq2].
  { unfold q. split.
    - apply Z.div_le_lower_bound; [lia|]. rewrite <- Z.pow_add_r by lia. replace (k + 23) with (d - 1) by lia. lia.
    - apply Z.le_succ_l, Z.div_lt_upper_bound; [lia|]. rewrite <- Z.pow_add_r by lia. replace (k + 24) with d by lia. lia. }
  assert (Zpos m * 2 ^ 23 <= q * 2 ^ k) as Hlow.
  { assert (k = 23 \/ k = 24) as [-> | ->] by lia; [|nia]. unfold q.
    assert (Zpos m <= Zpos m * Zpos mm / 2 ^ 23); [apply Z.div_le_lower_bound; nia|nia]. }
  assert (q <= v <= q + 1) as Hv by done. clearbody v q. clear E He' Hdig.
  assert (forall a b, 0 <= a -> 0 <= b -> 2 ^ a * 2 ^ b = 2 ^ (a + b)) as Hpow by (intros; by rewrite Z.pow_add_r).
  assert (0 < 2 ^ (e + me + k + 46)) as Hpos by lia.
  split; [split|].
  - transitivity (q * 2 ^ k * 2 ^ (e + 23)).
    + replace (e + 46) with (23 + (e + 23)) by lia. rewrite <- (Hpow 23) by lia. nia.
    + rewrite <- Z.mul_assoc, Hpow by lia. transitivity (v * 2 ^ (k + (e + 23))); [nia|].
      apply Z.mul_le_mono_nonneg_l; [lia|]. apply Z.pow_le_mono_r; lia.
  - transitivity (2 ^ 24 * 2 ^ (e + me + k + 46)); [nia|]. rewrite Hpow by lia. apply Z.pow_le_mono_r; lia.
  - transitivity (2 ^ 23 * 2 ^ (e + me + k + 46)); [|nia]. rewrite Hpow by lia. apply Z.pow_le_mono_r; lia.
Qed.

(** A length times a multiple, as an [int]: what a buffer has to hold.  Up to
    2^27 bytes any multiple from 1 to 2^33 will do, with the slack of a frame
    header; with the default of 2, any length below 2^59. *)
Lemma int_of_product oob n mm me :
  0 < n < 2 ^ 62 -> 2 ^ 23 <= Zpos mm < 2 ^ 24 -> -23 <= me <= 10 -> Z.log2 n + me <= 36 ->
  let w := int_of_float32 oob (mul32 (float32 n) (S754_finite false mm me)) in
  0 <= w <= 2 ^ 62 /\ (n < 2 ^ 27 -> n <= w + 8) /\ (-22 <= me -> n <= w).
Proof.
  intros Hn Hmm Hme Hlog. destruct (float32_bounds n Hn) as (m & e & -> & Hm & He & Hv).
  assert (0 <= Z.log2 n < 62) as Hl by (split; [apply Z.log2_nonneg|apply Z.log2_lt_pow2; lia]).
  destruct (mul32_bounds m e mm me) as (m' & e' & -> & He' & [H1 H2] & H3); [lia..|].
  cbn [int_of_float32].
  assert (trunc (Zpos m') e' <= 2 ^ 62) as Hup.
  { apply trunc_le; [lia..|]. etransitivity; [exact H2|]. rewrite <- Z.pow_add_r by lia. apply Z.pow_le_mono_r; lia. }
  assert (0 <= trunc (Zpos m') e') as H0.
  { apply trunc_ge; lia. }
  replace ((- 2 ^ 63 <=? trunc (Zpos m') e') && (trunc (Zpos m') e' <? 2 ^ 63)) with true by lia.
  split; [lia|]. split.
  - intros Hsmall. assert (Z.log2 n < 27) by (apply Z.log2_lt_pow2; lia).
    assert (2 ^ Z.max 0 (Z.log2 n - 23) <= 2 ^ 3) as Hk by (apply Z.pow_le_mono_r; lia).
    destruct (Z.leb_spec n 8); [lia|].
    assert (n - 8 <= trunc (Zpos m') e'); [|lia]. apply trunc_ge; [lia..|].
    etransitivity; [|exact H1]. replace (e + 46) with (e + 23 + 23) by lia. rewrite (Z.pow_add_r 2 (e + 23)) by lia. nia.
  - intros Hme2. apply trunc_ge; [lia..|]. etransitivity; [|exact H3].
    pose proof (Z.log2_spec n ltac:(lia)) as [_ Hn2]. transitivity (2 ^ Z.succ (Z.log2 n) * 2 ^ 46); [nia|].
    rewrite <- Z.pow_add_r by lia. apply Z.pow_le_mono_r; lia.
Qed.
