(* ===== verification/H2Frame.v ===== *)
(** * H2Frame

    The HTTP/2 frame layer: [http2/frame.go] and [http2/errors.go].

    - frame types, flags, error codes and their names;
    - the two classes of errors and the classification functions;
    - [Parse], the loop that cuts frames off a read buffer, with the
      CONTINUATION discipline and the per-type length checks;
    - the [Append...] functions that write frames. *)

From S2P Require Import Prelude Pump.

(** ** Frames *)

Definition frameHeaderLen : Z := 9.
Definition defaultMaxFrameSize : Z := 16384.
Definition MaxFrameSize : Z := 2 ^ 24 - 1.

(** [FrameType] is a [uint8]; unknown values are legal. *)
Definition FrameData : Z := 0x0.
Definition FrameHeaders : Z := 0x1.
Definition FramePriority : Z := 0x2.
Definition FrameRSTStream : Z := 0x3.
Definition FrameSettings : Z := 0x4.
Definition FramePushPromise : Z := 0x5.
Definition FramePing : Z := 0x6.
Definition FrameGoAway : Z := 0x7.
Definition FrameWindowUpdate : Z := 0x8.
Definition FrameContinuation : Z := 0x9.

Definition FrameType_String (t : Z) : string :=
  if t =? FrameData then "DATA"
  else if t =? FrameHeaders then "HEADERS"
  else if t =? FramePriority then "PRIORITY"
  else if t =? FrameRSTStream then "RST_STREAM"
  else if t =? FrameSettings then "SETTINGS"
  else if t =? FramePushPromise then "PUSH_PROMISE"
  else if t =? FramePing then "PING"
  else if t =? FrameGoAway then "GOAWAY"
  else if t =? FrameWindowUpdate then "WINDOW_UPDATE"
  else if t =? FrameContinuation then "CONTINUATION"
  else "UNKNOWN(0x" +:+ fmt_x (u8 t) +:+ ")".

Definition FlagDataEndStream : Z := 0x1.
Definition FlagDataPadded : Z := 0x8.
Definition FlagHeadersEndStream : Z := 0x1.
Definition FlagHeadersEndHeaders : Z := 0x4.
Definition FlagHeadersPadded : Z := 0x8.
Definition FlagHeadersPriority : Z := 0x20.
Definition FlagSettingsAck : Z := 0x1.
Definition FlagPingAck : Z := 0x1.
Definition FlagContinuationEndHeaders : Z := 0x4.

(** [flags & flag != 0] *)
Definition has (flags flag : Z) : bool := negb (flags .& flag =? 0).

Record Frame : Type := mkFrame {
  f_Type : Z;
  f_Flags : Z;
  f_StreamID : Z;
  f_Payload : bytes;
}.

Definition EndStream (f : Frame) : bool :=
  if f_Type f =? FrameHeaders then has (f_Flags f) FlagHeadersEndStream
  else if f_Type f =? FrameData then has (f_Flags f) FlagDataEndStream
  else false.

Definition EndHeaders (f : Frame) : bool :=
  if f_Type f =? FrameHeaders then has (f_Flags f) FlagHeadersEndHeaders
  else if f_Type f =? FrameContinuation then has (f_Flags f) FlagContinuationEndHeaders
  else false.

(** ** Error codes and errors *)

Definition ErrCodeNo : Z := 0x0.
Definition ErrCodeProtocol : Z := 0x1.
Definition ErrCodeInternal : Z := 0x2.
Definition ErrCodeFlowControl : Z := 0x3.
Definition ErrCodeSettingsTimeout : Z := 0x4.
Definition ErrCodeStreamClosed : Z := 0x5.
Definition ErrCodeFrameSize : Z := 0x6.
Definition ErrCodeRefusedStream : Z := 0x7.
Definition ErrCodeCancel : Z := 0x8.
Definition ErrCodeCompression : Z := 0x9.
Definition ErrCodeConnect : Z := 0xa.
Definition ErrCodeEnhanceCalm : Z := 0xb.
Definition ErrCodeInadequateSec : Z := 0xc.
Definition ErrCodeHTTP11Required : Z := 0xd.

Definition ErrCode_String (e : Z) : string :=
  if e =? ErrCodeNo then "NO_ERROR"
  else if e =? ErrCodeProtocol then "PROTOCOL_ERROR"
  else if e =? ErrCodeInternal then "INTERNAL_ERROR"
  else if e =? ErrCodeFlowControl then "FLOW_CONTROL_ERROR"
  else if e =? ErrCodeSettingsTimeout then "SETTINGS_TIMEOUT"
  else if e =? ErrCodeStreamClosed then "STREAM_CLOSED"
  else if e =? ErrCodeFrameSize then "FRAME_SIZE_ERROR"
  else if e =? ErrCodeRefusedStream then "REFUSED_STREAM"
  else if e =? ErrCodeCancel then "CANCEL"
  else if e =? ErrCodeCompression then "COMPRESSION_ERROR"
  else if e =? ErrCodeConnect then "CONNECT_ERROR"
  else if e =? ErrCodeEnhanceCalm then "ENHANCE_YOUR_CALM"
  else if e =? ErrCodeInadequateSec then "INADEQUATE_SECURITY"
  else if e =? ErrCodeHTTP11Required then "HTTP_1_1_REQUIRED"
  else "UNKNOWN(0x" +:+ fmt_x (u32 e) +:+ ")".

(** The [error] values of the package: [errors.New], [fmt.Errorf] with the
    format ["%w: ..."], and the two structs of [errors.go]. *)
Inductive Error : Type :=
  | ErrNew (text : string)
  | ErrWrap (base : Error) (detail : string)
  | ConnError (Code : Z) (Msg : string)
  | StreamError (StreamID Code : Z) (Msg : string).

Fixpoint Error_text (e : Error) : string :=
  match e with
  | ErrNew t => t
  | ErrWrap b d => Error_text b +:+ ": " +:+ d
  | ConnError c m => "http2: connection error " +:+ ErrCode_String c +:+ ": " +:+ m
  | StreamError i c m =>
      "http2: stream " +:+ fmt_d i +:+ " error " +:+ ErrCode_String c +:+ ": " +:+ m
  end.

Definition ErrFrameTooLarge : Error := ErrNew "http2: frame exceeds max size".
Definition ErrBadFrameHeader : Error := ErrNew "http2: malformed frame header".
Definition ErrBadFrameLength : Error := ErrNew "http2: frame length does not match its type".
Definition ErrUnexpectedFrame : Error := ErrNew "http2: unexpected frame".
Definition ErrFlowControl : Error := ErrNew "http2: flow control error".

(** [asConnError] reads any error as a connection error; [asStreamError] is the
    type assertion that [handleError] dispatches on. *)
Definition asConnError (e : Error) : Z * string :=
  match e with
  | ConnError c m => (c, m)
  | StreamError _ c m => (c, m)
  | _ => (ErrCodeProtocol, Error_text e)
  end.

Definition asStreamError (e : Error) : option (Z * Z * string) :=
  match e with
  | StreamError i c m => Some (i, c, m)
  | _ => None
  end.

(** ** The frame parser *)

Record FrameParser : Type := mkParser {
  p_maxFrameSize : Z;
  p_lastStreamID : Z;
  p_lastType : Z;
  p_haveLast : bool;
  p_awaitingContinuation : bool;
}.

Definition NewFrameParser : FrameParser := mkParser defaultMaxFrameSize 0 0 false false.

Definition SetMaxFrameSize (n : Z) (p : FrameParser) : FrameParser :=
  if (n =? 0) || (n >? MaxFrameSize) then p
  else mkParser n (p_lastStreamID p) (p_lastType p) (p_haveLast p) (p_awaitingContinuation p).

Definition checkContinuation (p : FrameParser) (f : Frame) : option Error :=
  if p_awaitingContinuation p then
    if negb (f_Type f =? FrameContinuation) || negb (f_StreamID f =? p_lastStreamID p) then
      Some (ConnError ErrCodeProtocol
        ("expected CONTINUATION on stream " +:+ fmt_d (p_lastStreamID p) +:+ ", got " +:+
         FrameType_String (f_Type f) +:+ " on stream " +:+ fmt_d (f_StreamID f)))
    else None
  else if negb (f_Type f =? FrameContinuation) then None
  else if negb (p_haveLast p) then
    Some (ConnError ErrCodeProtocol "CONTINUATION without a preceding HEADERS")
  else if negb (p_lastType p =? FrameHeaders) && negb (p_lastType p =? FrameContinuation)
          && negb (p_lastType p =? FramePushPromise) then
    Some (ConnError ErrCodeProtocol ("CONTINUATION after " +:+ FrameType_String (p_lastType p)))
  else if negb (f_StreamID f =? p_lastStreamID p) then
    Some (ConnError ErrCodeProtocol
      ("CONTINUATION on stream " +:+ fmt_d (f_StreamID f) +:+ ", previous frame on " +:+
       fmt_d (p_lastStreamID p)))
  else None.

Definition frameSizeError (msg : string) : option Error := Some (ConnError ErrCodeFrameSize msg).

Definition checkFrameShape (f : Frame) : option Error :=
  let t := f_Type f in
  let id := f_StreamID f in
  let len := zlen (f_Payload f) in
  if t =? FrameData then
    if id =? 0 then frameSizeError "DATA on stream 0" else None
  else if t =? FrameHeaders then
    if id =? 0 then frameSizeError "HEADERS on stream 0" else None
  else if t =? FramePriority then
    if id =? 0 then frameSizeError "PRIORITY on stream 0"
    else if negb (len =? 5) then
      frameSizeError ("PRIORITY payload " +:+ fmt_d len +:+ " != 5")
    else None
  else if t =? FrameRSTStream then
    if id =? 0 then frameSizeError "RST_STREAM on stream 0"
    else if negb (len =? 4) then
      frameSizeError ("RST_STREAM payload " +:+ fmt_d len +:+ " != 4")
    else None
  else if t =? FrameSettings then
    if negb (id =? 0) then frameSizeError ("SETTINGS on stream " +:+ fmt_d id)
    else if has (f_Flags f) FlagSettingsAck && negb (len =? 0) then
      frameSizeError ("SETTINGS ACK with " +:+ fmt_d len +:+ " bytes of payload")
    else if negb (has (f_Flags f) FlagSettingsAck) && negb (len mod 6 =? 0) then
      frameSizeError ("SETTINGS payload " +:+ fmt_d len +:+ " not a multiple of 6")
    else None
  else if t =? FramePing then
    if negb (id =? 0) then frameSizeError ("PING on stream " +:+ fmt_d id)
    else if negb (len =? 8) then
      frameSizeError ("PING payload " +:+ fmt_d len +:+ " != 8")
    else None
  else if t =? FrameGoAway then
    if negb (id =? 0) then frameSizeError ("GOAWAY on stream " +:+ fmt_d id)
    else if len <? 8 then
      frameSizeError ("GOAWAY payload " +:+ fmt_d len +:+ " < 8")
    else None
  else if t =? FrameWindowUpdate then
    if negb (len =? 4) then
      frameSizeError ("WINDOW_UPDATE payload " +:+ fmt_d len +:+ " != 4")
    else None
  else if t =? FrameContinuation then
    if id =? 0 then frameSizeError "CONTINUATION on stream 0" else None
  else if t =? FramePushPromise then
    if id =? 0 then frameSizeError "PUSH_PROMISE on stream 0" else None
  else None.

(** The parser object inside a larger state: [Parse] runs with the callback on
    the state that owns the parser, as [c.parser.Parse(data, c.onFrame)] does. *)
Class HasFrameParser (S : Type) : Type := {
  parser_of : S -> FrameParser;
  with_parser : FrameParser -> S -> S;
  parser_of_with p s : parser_of (with_parser p s) = p;
}.

(** What [Parse] records after the callback accepted [f]. *)
Definition note_frame (f : Frame) (p : FrameParser) : FrameParser :=
  mkParser (p_maxFrameSize p) (f_StreamID f) (f_Type f) true
    (if (f_Type f =? FrameHeaders) || (f_Type f =? FramePushPromise) then
       f_Flags f .& FlagHeadersEndHeaders =? 0
     else if f_Type f =? FrameContinuation then
       f_Flags f .& FlagContinuationEndHeaders =? 0
     else false).

Section Parse.
Context {S : Type} `{!HasFrameParser S} (fn : Frame -> M S (option Error)).

(** The loop body from the checks to the update of the parser. *)
Definition accept (f : Frame) : M S (option Error) :=
  p ← gets parser_of;
  match checkContinuation p f with
  | Some e => mret (Some e)
  | None =>
      match checkFrameShape f with
      | Some e => mret (Some e)
      | None =>
          try fn f;
          modify (fun s => with_parser (note_frame f (parser_of s)) s) ;;
          mret None
      end
  end.

Fixpoint Parse_loop (fuel : nat) (buf : bytes) (consumed : Z) : M S (Z * option Error) :=
  match fuel with
  | O => panic
  | Datatypes.S fuel =>
      if zlen buf - consumed <? frameHeaderLen then mret (consumed, None)
      else
        let head := slice consumed (consumed + frameHeaderLen) buf in
        let length := be24 (at_ head 0) (at_ head 1) (at_ head 2) in
        let ftype := at_ head 3 in
        let flags := at_ head 4 in
        let streamID := be32 (at_ head 5) (at_ head 6) (at_ head 7) (at_ head 8) .& 0x7fffffff in
        p ← gets parser_of;
        if length >? p_maxFrameSize p then
          mret (consumed, Some (ErrWrap ErrFrameTooLarge
                                  (fmt_d length +:+ " > " +:+ fmt_d (p_maxFrameSize p))))
        else if zlen buf - consumed <? frameHeaderLen + length then mret (consumed, None)
        else
          let payload := slice (consumed + frameHeaderLen)
                               (consumed + frameHeaderLen + length) buf in
          e ← accept (mkFrame ftype flags streamID payload);
          match e with
          | Some e => mret (consumed, Some e)
          | None => Parse_loop fuel buf (consumed + (frameHeaderLen + length))
          end
  end.

Definition Parse (buf : bytes) : M S (Z * option Error) :=
  Parse_loop (fuel_for buf) buf 0.
End Parse.

(** ** Writing frames *)

Definition AppendFrameHeader (dst : bytes) (ftype flags streamID length : Z) : bytes :=
  dst ++ [u8 (length >> 16); u8 (length >> 8); u8 length;
          u8 ftype;
          flags;
          u8 (streamID >> 24); u8 (streamID >> 16); u8 (streamID >> 8); u8 streamID].

Definition settings_payload (settings : list (Z * Z)) : bytes :=
  fold_left (fun payload s =>
    payload ++ [u8 (fst s >> 8); u8 (fst s);
                u8 (snd s >> 24); u8 (snd s >> 16); u8 (snd s >> 8); u8 (snd s)])
    settings [].

Definition AppendSettings (dst : bytes) (settings : list (Z * Z)) : bytes :=
  let payload := settings_payload settings in
  AppendFrameHeader dst FrameSettings 0 0 (zlen payload) ++ payload.

Definition AppendSettingsAck (dst : bytes) : bytes :=
  AppendFrameHeader dst FrameSettings FlagSettingsAck 0 0.

Definition AppendPing (dst data : bytes) (ack : bool) : bytes :=
  let flags := if ack then FlagPingAck else 0 in
  AppendFrameHeader dst FramePing flags 0 8 ++ data.

Definition AppendGoAway (dst : bytes) (lastStreamID code : Z) (debug : bytes) : bytes :=
  let length := 8 + zlen debug in
  AppendFrameHeader dst FrameGoAway 0 0 length ++
  [u8 (lastStreamID >> 24); u8 (lastStreamID >> 16); u8 (lastStreamID >> 8); u8 lastStreamID;
   u8 (code >> 24); u8 (code >> 16); u8 (code >> 8); u8 code] ++ debug.

Definition AppendRSTStream (dst : bytes) (streamID code : Z) : bytes :=
  AppendFrameHeader dst FrameRSTStream 0 streamID 4 ++
  [u8 (code >> 24); u8 (code >> 16); u8 (code >> 8); u8 code].

Definition AppendWindowUpdate (dst : bytes) (streamID inc : Z) : bytes :=
  AppendFrameHeader dst FrameWindowUpdate 0 streamID 4 ++
  [u8 (inc >> 24); u8 (inc >> 16); u8 (inc >> 8); u8 inc].

Definition AppendHeaders (dst : bytes) (streamID : Z) (blockFragment : bytes)
    (endStream endHeaders : bool) : bytes :=
  let flags := 0 in
  let flags := if endStream then flags .| FlagHeadersEndStream else flags in
  let flags := if endHeaders then flags .| FlagHeadersEndHeaders else flags in
  AppendFrameHeader dst FrameHeaders flags streamID (zlen blockFragment) ++ blockFragment.

Definition AppendData (dst : bytes) (streamID : Z) (data : bytes) (endStream : bool) : bytes :=
  let flags := if endStream then FlagDataEndStream else 0 in
  AppendFrameHeader dst FrameData flags streamID (zlen data) ++ data.

(** The wire form of a frame: what every [Append...] function writes. *)
Definition encode_frame (f : Frame) : bytes :=
  AppendFrameHeader [] (f_Type f) (f_Flags f) (f_StreamID f) (zlen (f_Payload f)) ++ f_Payload f.

(** ** The parser as a framing

    [cut_frame max] is one look of [Parse] at the unread bytes. *)

Definition cut_frame (max : Z) (b : bytes) : cut_result Frame Error :=
  if zlen b <? frameHeaderLen then CutMore
  else
    let length := be24 (at_ b 0) (at_ b 1) (at_ b 2) in
    if length >? max then
      CutBad (ErrWrap ErrFrameTooLarge (fmt_d length +:+ " > " +:+ fmt_d max))
    else if zlen b <? frameHeaderLen + length then CutMore
    else CutFrame
           (mkFrame (at_ b 3) (at_ b 4)
              (be32 (at_ b 5) (at_ b 6) (at_ b 7) (at_ b 8) .& 0x7fffffff)
              (slice frameHeaderLen (frameHeaderLen + length) b))
           (frameHeaderLen + length).

(** A frame whose fields fit their wire widths. *)
Record frame_ok (max : Z) (f : Frame) : Prop := {
  ok_type : is_byte (f_Type f);
  ok_flags : is_byte (f_Flags f);
  ok_id : 0 <= f_StreamID f < 2 ^ 31;
  ok_payload : bytes_ok (f_Payload f);
  ok_len : zlen (f_Payload f) <= max;
}.

(** The length and stream rules of RFC 9113 section 6 that [checkFrameShape]
    enforces, type by type. *)
Record shape_ok (f : Frame) : Prop := {
  on_stream : f_Type f ∈ [FrameData; FrameHeaders; FramePriority; FrameRSTStream;
                          FramePushPromise; FrameContinuation] -> f_StreamID f <> 0;
  on_conn : f_Type f ∈ [FrameSettings; FramePing; FrameGoAway] -> f_StreamID f = 0;
  len_4 : f_Type f ∈ [FrameRSTStream; FrameWindowUpdate] -> zlen (f_Payload f) = 4;
  len_5 : f_Type f = FramePriority -> zlen (f_Payload f) = 5;
  len_8 : f_Type f = FramePing -> zlen (f_Payload f) = 8;
  len_ge_8 : f_Type f = FrameGoAway -> 8 <= zlen (f_Payload f);
  len_settings : f_Type f = FrameSettings ->
    if has (f_Flags f) FlagSettingsAck then zlen (f_Payload f) = 0
    else zlen (f_Payload f) mod 6 = 0;
}.

(** The header block left open after [f], given the one open before. *)
Definition opens (f : Frame) : bool :=
  (f_Type f =? FrameHeaders) || (f_Type f =? FramePushPromise).

Definition block_after (f : Frame) : option Z :=
  if opens f || (f_Type f =? FrameContinuation) then
    if f_Flags f .& FlagHeadersEndHeaders =? 0 then Some (f_StreamID f) else None
  else None.

(** No frame may come between the fragments of a header block. *)
Fixpoint contiguous (open : option Z) (fs : list Frame) : Prop :=
  match fs with
  | [] => True
  | f :: fs =>
      match open with
      | Some id => f_Type f = FrameContinuation /\ f_StreamID f = id
      | None => True
      end /\ contiguous (block_after f) fs
  end.

(** A parser together with the list of the frames it has delivered. *)
Definition recorder : Type := FrameParser * list Frame.

#[export] Instance recorder_parser : HasFrameParser recorder :=
  { parser_of := fst; with_parser p s := (p, snd s); parser_of_with p s := eq_refl }.

Definition record (f : Frame) : M recorder (option Error) :=
  modify (fun s => (fst s, snd s ++ [f])) ;; mret None.

(** A list of frames the parser will accept one after the other. *)
Fixpoint acceptable (p : FrameParser) (fs : list Frame) : Prop :=
  match fs with
  | [] => True
  | f :: fs => checkContinuation p f = None /\ checkFrameShape f = None
               /\ acceptable (note_frame f p) fs
  end.

Definition open_after (open : option Z) (fs : list Frame) : option Z :=
  match last fs with Some f => block_after f | None => open end.

(** Feeding [a], keeping the unread tail, then feeding it again with [b]: what
    a caller of [Parse] does when a read returns part of a frame. *)
Definition Parse_two {S} `{!HasFrameParser S} (fn : Frame -> M S (option Error))
    (a b : bytes) : M S (Z * option Error) :=
  r ← Parse fn a;
  match r with
  | (n, Some e) => mret (n, Some e)
  | (n, None) =>
      r' ← Parse fn (from n a ++ b);
      mret (n + fst r', snd r')
  end.

(** ** Facts about the frame layer *)

#[export] Instance cut_frame_framing max : Framing (cut_frame max).
Proof.
  assert (forall b, bytes_ok b -> 0 <= be24 (at_ b 0) (at_ b 1) (at_ b 2)) as Hpos.
  { intros b Hb. apply be24_range; auto with go. }
  split; intros b; [intros f n Hb H|intros x f n Hb H|intros x e Hb H];
    specialize (Hpos b Hb); unfold cut_frame in *; pose proof (zlen_nonneg b);
    try pose proof (zlen_nonneg x).
  all: destruct (Z.ltb_spec (zlen b) frameHeaderLen); [done|].
  all: unfold frameHeaderLen in *.
  2, 3: rewrite zlen_app, !at_app_l by lia;
        replace (zlen b + zlen x <? 9) with false by lia.
  all: destruct (_ >? max) eqn:?; try done.
  all: destruct (Z.ltb_spec (zlen b) (9 + be24 (at_ b 0) (at_ b 1) (at_ b 2))); [done|].
  - inversion H; subst. lia.
  - rewrite slice_app_le by lia.
    replace (_ <? _) with false by lia. done.
  - done.
Qed.

#[export] Instance cut_frame_local max : LocalFraming (cut_frame max).
Proof.
  split; [apply _|]. intros b f n Hb Hc.
  assert (0 <= be24 (at_ b 0) (at_ b 1) (at_ b 2)) as Hpos by (apply be24_range; auto with go).
  pose proof (cut_frame_bound _ _ _ Hb Hc) as Hn. unfold cut_frame in *.
  destruct (Z.ltb_spec (zlen b) frameHeaderLen); [done|]. unfold frameHeaderLen in *.
  destruct (_ >? max) eqn:Hmax; [done|]. destruct (Z.ltb_spec (zlen b) (9 + be24 (at_ b 0) (at_ b 1) (at_ b 2)));
    [done|]. injection Hc as Hf <-. set (n := 9 + _) in *.
  assert (zlen (upto n b) = n) as Hz by (rewrite zlen_upto by lia; lia).
  assert (forall i, 0 <= i < 9 -> at_ (upto n b) i = at_ b i) as Hat.
  { intros i Hi. rewrite <- (upto_from n b) at 2. by rewrite at_app_l by lia. }
  rewrite !Hat, Hz by lia. fold n. replace (n <? 9) with false by lia. rewrite Hmax.
  rewrite Z.ltb_irrefl. f_equal. rewrite <- Hf. f_equal.
  rewrite <- (upto_from n b) at 2. by rewrite slice_app_le by lia.
Qed.

Lemma encode_frame_cons f :
  encode_frame f =
  put24 (zlen (f_Payload f)) ++ [u8 (f_Type f); f_Flags f] ++
  put32 (f_StreamID f) ++ f_Payload f.
Proof. done. Qed.

Lemma zlen_encode_frame f : zlen (encode_frame f) = frameHeaderLen + zlen (f_Payload f).
Proof. rewrite encode_frame_cons. unfold frameHeaderLen. zlen. Qed.

Lemma land_31 x : 0 <= x < 2 ^ 31 -> x .& 0x7fffffff = x.
Proof. intros. change 0x7fffffff with (Z.ones 31). rewrite Z.land_ones by lia. apply Z.mod_small. lia. Qed.

#[export] Instance cut_frame_codec max :
  max <= MaxFrameSize -> FramingCodec (cut_frame max) encode_frame (frame_ok max).
Proof.
  intros Hmax. split; [exact (cut_frame_framing max)| |]; intros f.
  { intros []. rewrite encode_frame_cons. eauto 10 with go. }
  intros x [Ht Hf Hid Hp Hl]. unfold MaxFrameSize in Hmax.
  pose proof (zlen_nonneg (f_Payload f)). pose proof (zlen_nonneg x).
  unfold cut_frame. rewrite zlen_app, zlen_encode_frame. unfold frameHeaderLen.
  replace (_ <? 9) with false by lia.
  assert (forall i, 0 <= i < 9 -> at_ (encode_frame f ++ x) i =
    at_ (put24 (zlen (f_Payload f)) ++ [u8 (f_Type f); f_Flags f] ++ put32 (f_StreamID f)) i) as Hat.
  { intros i Hi. rewrite encode_frame_cons, <- !app_assoc.
    rewrite (app_assoc _ [_; _]), app_assoc.
    rewrite at_app_l by zlen. done. }
  rewrite !Hat by lia.
  change (at_ (put24 (zlen (f_Payload f)) ++ ?r) 0) with (u8 (zlen (f_Payload f) >> 16)).
  change (at_ (put24 (zlen (f_Payload f)) ++ ?r) 1) with (u8 (zlen (f_Payload f) >> 8)).
  change (at_ (put24 (zlen (f_Payload f)) ++ ?r) 2) with (u8 (zlen (f_Payload f))).
  rewrite be24_put by lia.
  replace (_ >? max) with false by lia.
  replace (_ <? _) with false by lia.
  change (at_ _ 3) with (u8 (f_Type f)). change (at_ _ 4) with (f_Flags f).
  change (at_ _ 5) with (u8 (f_StreamID f >> 24)).
  change (at_ _ 6) with (u8 (f_StreamID f >> 16)).
  change (at_ _ 7) with (u8 (f_StreamID f >> 8)).
  change (at_ _ 8) with (u8 (f_StreamID f)).
  rewrite be32_put, land_31, u8_small by (done || lia).
  f_equal. destruct f as [t fl id p]; cbn [f_Type f_Flags f_StreamID f_Payload] in *.
  f_equal. rewrite encode_frame_cons. cbn [f_Payload f_Type f_Flags f_StreamID].
  rewrite <- !app_assoc, (app_assoc _ [_; _]), app_assoc.
  set (h := (_ ++ _) ++ put32 id).
  replace 9 with (zlen h) by (subst h; zlen).
  apply slice_app_mid.
Qed.

Section ParseFacts.
Context {S : Type} `{!HasFrameParser S} (fn : Frame -> M S (option Error)).

(** The callback leaves the size limit alone. *)
Definition keeps_max : Prop := forall f s e s',
  fn f s = Some (e, s') -> p_maxFrameSize (parser_of s') = p_maxFrameSize (parser_of s).

Lemma accept_max f s e s' :
  keeps_max -> accept fn f s = Some (e, s') ->
  p_maxFrameSize (parser_of s') = p_maxFrameSize (parser_of s).
Proof.
  intros Hk. unfold accept, gets, mbind, M_bind.
  destruct (checkContinuation _ f); [by intros [= <- <-]|].
  destruct (checkFrameShape f); [by intros [= <- <-]|].
  unfold check, mbind, M_bind. destruct (fn f s) as [[[e'|] s1]|] eqn:Hf; [| |done].
  - intros [= <- <-]. by apply Hk in Hf.
  - unfold modify. intros [= <- <-]. rewrite parser_of_with. cbn. by apply Hk in Hf.
Qed.

Lemma Parse_loop_pump k : forall buf c s,
  keeps_max -> 0 <= c <= zlen buf ->
  bytes_ok buf ->
  Parse_loop fn k buf c s =
  pump (cut_frame (p_maxFrameSize (parser_of s))) (accept fn) k (from c buf) c s.
Proof.
  induction k as [|k IH]; intros buf c s Hk Hc Hb; [done|].
  rewrite pump_S. cbn [Parse_loop]. set (m := p_maxFrameSize (parser_of s)).
  assert (bytes_ok (from c buf)) as Hbc by auto with go.
  pose proof (cut_frame_bound (cut := cut_frame m) (from c buf)) as Hbound.
  pose proof (eq_refl (cut_frame m (from c buf))) as Hcut.
  unfold cut_frame at 2 in Hcut. rewrite Hcut in *. clear Hcut.
  rewrite zlen_from in * by lia.
  replace (0 `max` (zlen buf - c)) with (zlen buf - c) in * by lia.
  destruct (Z.ltb_spec (zlen buf - c) frameHeaderLen) as [|Hlen]; [done|].
  unfold frameHeaderLen in *.
  assert (forall i, 0 <= i < 9 -> at_ (slice c (c + 9) buf) i = at_ (from c buf) i) as Hat.
  { intros i Hi. rewrite <- (upto_from 9 (from c buf)), at_app_l, slice_upto_from.
    - by replace (c + 9 - c) with 9 by lia.
    - rewrite zlen_upto, zlen_from; lia. }
  rewrite !Hat by lia. unfold gets at 1. unfold mbind at 1, M_bind at 1. fold m.
  destruct (_ >? m) eqn:?; [done|]. destruct (_ <? _) eqn:?; [done|].
  set (len := be24 _ _ _) in *.
  assert (0 <= len) by (apply be24_range; auto with go).
  specialize (Hbound _ _ Hbc eq_refl).
  rewrite slice_from by lia.
  replace (c + (9 + len)) with (c + 9 + len) by lia.
  unfold mbind, M_bind. set (f := mkFrame _ _ _ _).
  destruct (accept fn f s) as [[[e|] s1]|] eqn:Ha; [done| |done].
  cbv beta iota. rewrite IH, from_from by (done || lia).
  replace (c + (9 + len)) with (c + 9 + len) by lia.
  by rewrite (accept_max f s None s1 Hk Ha).
Qed.

(** [Parse] is the generic loop at [cut_frame]. *)
Lemma Parse_run buf s :
  keeps_max -> bytes_ok buf ->
  Parse fn buf s = run (cut_frame (p_maxFrameSize (parser_of s))) (accept fn) buf s.
Proof.
  intros Hk Hb. pose proof (zlen_nonneg buf). unfold Parse.
  rewrite Parse_loop_pump, from_0 by (done || lia). done.
Qed.

(** Feeding only what was consumed gives the same. *)
Lemma Parse_prefix buf s n s' :
  keeps_max -> bytes_ok buf -> Parse fn buf s = Some ((n, None), s') ->
  Parse fn (upto n buf) s = Some ((n, None), s').
Proof.
  intros Hk Hb. rewrite !Parse_run by auto with go. unfold run. intros Hp.
  rewrite (pump_fuel (cut_frame _) _ (fuel_for (upto n buf)) (fuel_for buf));
    [|auto with go|unfold fuel_for; lia|].
  - replace n with (n - 0) at 1 by lia. by apply (pump_prefix _ _ _ (cut_local (cut := cut_frame _))).
  - unfold fuel_for, upto. rewrite length_take. lia.
Qed.

Lemma run_max max buf s r s' :
  keeps_max -> run (cut_frame max) (accept fn) buf s = Some (r, s') ->
  p_maxFrameSize (parser_of s') = p_maxFrameSize (parser_of s).
Proof.
  intros Hk. unfold run. generalize (fuel_for buf) as k, 0 as c. intros k c.
  revert buf c s. induction k as [|k IH]; intros buf c s; [done|]. rewrite pump_S.
  destruct (cut_frame max buf); [by intros [= <- <-]..|].
  destruct (accept fn f s) as [[[e|] s1]|] eqn:Ha; [by intros [= <- <-]; eapply accept_max| |done].
  intros H. rewrite (IH _ _ _ H). by eapply accept_max.
Qed.

Lemma checkFrameShape_ok f : checkFrameShape f = None -> shape_ok f.
Proof.
  unfold checkFrameShape, frameSizeError. intros H.
  split; intros Ht; rewrite ?elem_of_cons, ?elem_of_nil in Ht;
    destruct_or?; try done; rewrite ?Ht in H; cbn in H;
    repeat match type of H with
           | (if ?b then _ else _) = _ => destruct b eqn:?; try done
           end; try lia.
  - destruct (has _ _); cbn in *; lia.
Qed.

(** A callback that needs only well-formed frames sees only those, and the
    loop keeps the callback's invariant. *)
Lemma Parse_wp (I : S -> Prop) buf s :
  (forall f s e s', fn f s = Some (e, s') ->
     p_maxFrameSize (parser_of s') = p_maxFrameSize (parser_of s)) ->
  (forall p s, p_maxFrameSize p = p_maxFrameSize (parser_of s) ->
     I s -> I (with_parser p s)) ->
  (forall f s, frame_ok (p_maxFrameSize (parser_of s)) f -> shape_ok f ->
     I s -> wp (fn f) (fun _ s' => I s') s) ->
  bytes_ok buf -> I s ->
  wp (Parse fn buf) (fun r s' => I s' /\ 0 <= fst r <= zlen buf) s.
Proof.
  intros Hk HI Hfn Hb Hs. unfold wp. rewrite (Parse_run buf s Hk Hb).
  set (m := p_maxFrameSize (parser_of s)).
  change (wp (run (cut_frame m) (accept fn) buf)
            (fun r s' => I s' /\ 0 <= fst r <= zlen buf) s).
  eapply wp_mono.
  - apply (run_wp _ _ (fun s => I s /\ p_maxFrameSize (parser_of s) = m) (frame_ok m)).
    + intros b f n Hbb Hc.
      pose proof (cut_frame_bound _ _ _ Hbb Hc) as Hbd.
      unfold cut_frame in Hc. destruct (zlen b <? _); [done|].
      destruct (_ >? m) eqn:?; [done|]. destruct (_ <? _) eqn:?; [done|].
      inversion Hc; subst. unfold frameHeaderLen in *.
      pose proof (be24_range (at_ b 0) (at_ b 1) (at_ b 2)) as Hr.
      do 3 (specialize (Hr ltac:(auto with go))).
      split; cbn; auto with go.
      * change 0x7fffffff with (Z.ones 31). rewrite Z.land_ones by lia. zarith.
      * rewrite zlen_slice; lia.
    + intros f s0 Hf [HI0 Hm]. apply wp_post; [|intros; by rewrite <- Hm; eapply accept_max].
      unfold accept. wp_steps.
      destruct (checkContinuation _ f); [by wp_steps|].
      destruct (checkFrameShape f) eqn:Hsh; [by wp_steps|].
      wp_steps. eapply wp_mono; [apply Hfn; [by rewrite Hm|by apply checkFrameShape_ok|done]|].
      intros [e|] s1 Hs1; wp_steps; auto.
    + done.
    + done.
  - by intros r s' [[? _] ?].
Qed.
End ParseFacts.

Lemma record_keeps_max : keeps_max record.
Proof. by intros f s e s' [= <- <-]. Qed.

Lemma contiguous_snoc fs f : forall o,
  contiguous o fs ->
  match open_after o fs with
  | Some id => f_Type f = FrameContinuation /\ f_StreamID f = id
  | None => True
  end -> contiguous o (fs ++ [f]).
Proof.
  induction fs as [|g fs IH]; intros o; [done|].
  cbn. intros [Ho Hfs] Hf. split; [done|]. apply IH; [done|].
  revert Hf. unfold open_after. rewrite last_cons. by destruct (last fs).
Qed.

Lemma note_frame_awaiting f p :
  p_awaitingContinuation (note_frame f p) = bool_decide (is_Some (block_after f)).
Proof.
  unfold note_frame, block_after, opens. cbn.
  unfold FlagContinuationEndHeaders, FlagHeadersEndHeaders.
  destruct (_ || _), (f_Type f =? FrameContinuation); cbn; try done;
    by destruct (_ =? 0).
Qed.

Lemma block_after_id f id : block_after f = Some id -> id = f_StreamID f.
Proof.
  unfold block_after. destruct (opens f || _); [|done].
  destruct (_ =? 0); [by intros [= <-]|done].
Qed.

(** What a recording parser maintains: the parser waits for a CONTINUATION of
    exactly the block that the recorded frames leave open. *)
Definition recorder_inv (s : recorder) : Prop :=
  contiguous None (snd s) /\
  Forall shape_ok (snd s) /\
  (forall id, open_after None (snd s) = Some id ->
     p_awaitingContinuation (fst s) = true /\ p_lastStreamID (fst s) = id).

Lemma accept_record_inv f s :
  recorder_inv s -> wp (accept record f) (fun _ s' => recorder_inv s') s.
Proof.
  intros (Hc & Hs & Ho). unfold accept. wp_steps. cbn [parser_of recorder_parser].
  destruct (checkContinuation (fst s) f) eqn:Hcc; [by wp_steps|].
  destruct (checkFrameShape f) eqn:Hsh; [by wp_steps|].
  unfold record. wp_steps. cbn [parser_of recorder_parser with_parser fst snd].
  unfold recorder_inv. cbn [fst snd]. split; [|split].
  - apply contiguous_snoc; [done|].
    destruct (open_after None (snd s)) as [id|] eqn:Hopen; [|done].
    destruct (Ho id eq_refl) as [Ha Hid]. unfold checkContinuation in Hcc. rewrite Ha in Hcc.
    destruct (f_Type f =? FrameContinuation) eqn:Ht; [|done].
    destruct (f_StreamID f =? _) eqn:Hi; [|done]. split; lia.
  - apply Forall_app. split; [done|]. repeat constructor; by apply checkFrameShape_ok.
  - intros id Hid. unfold open_after in Hid. rewrite last_snoc in Hid.
    rewrite note_frame_awaiting, Hid. split; [done|].
    cbn. symmetry. by apply block_after_id.
Qed.

Lemma deliver_acceptable fs : forall p done_ c,
  acceptable p fs ->
  deliver_all (accept record) encode_frame fs c (p, done_) =
  Some ((c + zlen (concat (encode_frame <$> fs)), None),
        (foldl (fun p f => note_frame f p) p fs, done_ ++ fs)).
Proof.
  induction fs as [|f fs IH]; intros p dn c.
  { intros _. cbn. unfold mret, M_ret. rewrite app_nil_r, zlen_nil, Z.add_0_r. done. }
  intros (Hc & Hsh & Hok). cbn [deliver_all fmap list_fmap concat foldl].
  rewrite (bind_eq _ _ _ None (note_frame f p, dn ++ [f])).
  - rewrite IH, <- app_assoc by done. do 3 f_equal. rewrite zlen_app. lia.
  - unfold accept, gets, mbind, M_bind. cbn [parser_of recorder_parser fst].
    by rewrite Hc, Hsh.
Qed.

(** ** Properties *)

(** Reading back what was written.  Parsing the wire form of a list of
    frames that the CONTINUATION and shape rules admit, followed by an
    incomplete rest, delivers exactly those frames in order, consumes exactly
    their bytes and leaves the rest. *)
Theorem Parse_delivers p fs rest :
  p_maxFrameSize p <= MaxFrameSize ->
  Forall (frame_ok (p_maxFrameSize p)) fs -> acceptable p fs ->
  bytes_ok rest -> cut_frame (p_maxFrameSize p) rest = CutMore ->
  Parse record (concat (encode_frame <$> fs) ++ rest) (p, []) =
  Some ((zlen (concat (encode_frame <$> fs)), None),
        (foldl (fun p f => note_frame f p) p fs, fs)).
Proof.
  intros Hmax Hfs Hacc Hrest Hmore.
  pose proof (cut_frame_codec _ Hmax) as Hcodec.
  rewrite Parse_run; [|exact record_keeps_max|].
  - rewrite (run_encoded _ encode_frame (frame_ok (p_maxFrameSize p))) by done.
    by rewrite deliver_acceptable.
  - apply bytes_ok_app_2; [|done]. clear Hacc.
    induction Hfs; [constructor|]. cbn [fmap list_fmap concat]. apply bytes_ok_app_2; [by apply enc_bytes|done].
Qed.

(** how the kernel splits the byte stream does not matter.  For every
    callback that leaves the size limit alone, parsing two reads one after the
    other, with the unread tail of the first kept, has the same effect, the
    same result and the same error as parsing the two reads joined. *)
Theorem Parse_split {S} `{!HasFrameParser S} (fn : Frame -> M S (option Error)) a b s :
  keeps_max fn -> bytes_ok a -> bytes_ok b ->
  Parse fn (a ++ b) s = Parse_two fn a b s.
Proof.
  intros Hk Ha Hb. rewrite Parse_run by (done || auto with go).
  rewrite (run_split (cut_frame _)) by done.
  unfold Parse_two, run_two, mbind, M_bind. rewrite Parse_run by done.
  destruct (run _ _ a s) as [[[n [e|]] s1]|] eqn:Hr; try done.
  rewrite Parse_run by auto with go. by rewrite (run_max fn _ _ _ _ _ Hk Hr).
Qed.

(** Header blocks reach the connection whole.  Whatever bytes arrive, the
    parser never panics, and in the frames it delivers an open header block is
    continued at once, on its own stream; every frame delivered obeys the
    length and stream rules of its type. *)
Theorem Parse_contiguous buf :
  bytes_ok buf ->
  wp (Parse record buf)
     (fun r s' => contiguous None (snd s') /\ Forall shape_ok (snd s') /\
                  0 <= fst r <= zlen buf) (NewFrameParser, []).
Proof.
  intros Hb. unfold wp. rewrite Parse_run by (exact record_keeps_max || done).
  change (wp (run (cut_frame defaultMaxFrameSize) (accept record) buf)
     (fun r s' => contiguous None (snd s') /\ Forall shape_ok (snd s') /\
                  0 <= fst r <= zlen buf) (NewFrameParser, [])).
  eapply wp_mono.
  - apply (run_wp _ _ recorder_inv (fun _ => True)); [done| |done|].
    + intros f s _ Hs. by apply accept_record_inv.
    + by repeat split.
  - intros r s' [(? & ? & ?) ?]. done.
Qed.

(** the size limit is checked before the payload is waited for.  A frame
    header that declares more than the limit stops the parser at once with
    [ErrFrameTooLarge]; nothing of it is consumed and the callback is not
    called, so the state is unchanged. *)
Theorem Parse_too_large {S} `{!HasFrameParser S} (fn : Frame -> M S (option Error)) buf s :
  frameHeaderLen <= zlen buf ->
  p_maxFrameSize (parser_of s) < be24 (at_ buf 0) (at_ buf 1) (at_ buf 2) ->
  exists detail, Parse fn buf s = Some ((0, Some (ErrWrap ErrFrameTooLarge detail)), s).
Proof.
  unfold frameHeaderLen. intros Hlen Hbig. eexists. unfold Parse, fuel_for. cbn [Parse_loop].
  unfold frameHeaderLen. replace (zlen buf - 0 <? 9) with false by lia.
  assert (forall i, 0 <= i < 9 -> at_ (slice 0 (0 + 9) buf) i = at_ buf i) as Hat.
  { intros i Hi. rewrite <- (upto_from 9 buf) at 2. rewrite at_app_l; [done|].
    rewrite zlen_upto; lia. }
  rewrite !Hat by lia. unfold gets, mbind, M_bind.
  replace (_ >? _) with true by lia. done.
Qed.

(** ** Witnesses *)

(** A HEADERS frame cut in two by a CONTINUATION, then a DATA frame. *)
Definition sample_frames : list Frame :=
  [mkFrame FrameHeaders FlagHeadersEndStream 1 [130];
   mkFrame FrameContinuation FlagContinuationEndHeaders 1 [134; 132];
   mkFrame FrameData FlagDataEndStream 3 [104; 105]].

Lemma sample_frames_ok : Forall (frame_ok defaultMaxFrameSize) sample_frames.
Proof.
  unfold sample_frames.
  repeat (apply Forall_cons_2; [split; try (by vm_compute); [bytes]|]). constructor.
Qed.

Lemma Parse_delivers_witness :
  Parse record (concat (encode_frame <$> sample_frames) ++ [0; 0]) (NewFrameParser, []) =
  Some ((zlen (concat (encode_frame <$> sample_frames)), None),
        (foldl (fun p f => note_frame f p) NewFrameParser sample_frames, sample_frames)).
Proof.
  apply (Parse_delivers NewFrameParser sample_frames [0; 0]).
  - by vm_compute.
  - apply sample_frames_ok.
  - by vm_compute.
  - bytes.
  - by vm_compute.
Defined.

Lemma Parse_split_witness :
  Parse record ([0; 0; 1; 0; 1; 0] ++ [0; 0; 3; 7]) (NewFrameParser, []) =
  Parse_two record [0; 0; 1; 0; 1; 0] [0; 0; 3; 7] (NewFrameParser, []).
Proof.
  apply (Parse_split record).
  - exact record_keeps_max.
  - bytes.
  - bytes.
Defined.

Lemma Parse_contiguous_witness :
  wp (Parse record [0; 0; 1; 0; 1; 0; 0; 0; 3; 7])
     (fun r s' => contiguous None (snd s') /\ Forall shape_ok (snd s') /\
                  0 <= fst r <= zlen [0; 0; 1; 0; 1; 0; 0; 0; 3; 7]) (NewFrameParser, []).
Proof. apply Parse_contiguous. bytes. Defined.

Lemma Parse_too_large_witness :
  exists detail,
    Parse record [1; 0; 0; 0; 0; 0; 0; 0; 1] (NewFrameParser, []) =
    Some ((0, Some (ErrWrap ErrFrameTooLarge detail)), (NewFrameParser, [])).
Proof.
  apply (Parse_too_large record [1; 0; 0; 0; 0; 0; 0; 0; 1]); by vm_compute.
Defined.
