(* ===== verification/H2Headers.v ===== *)
(** * H2Headers

    Validation of decoded header blocks, [http2/headers_validate.go]:
    the syntax rules of RFC 9113 section 8.2 and 8.3, the completeness of a
    request's pseudo-headers and the [content-length] field. *)

From S2P Require Import Prelude GoStd.

(** [hpack.HeaderField]; the [Sensitive] flag is never read by the code. *)
Record HeaderField : Type := mkField { Name : string; Value : string }.

#[export] Instance HeaderField_eq_dec : EqDecision HeaderField.
Proof. solve_decision. Defined.

Definition is_upper (c : Z) : bool := (65 <=? c) && (c <=? 90).
Definition has_upper (s : string) : bool := existsb is_upper (bytes_of_string s).
Definition is_pseudo (s : string) : bool := at_ (bytes_of_string s) 0 =? 58.
Definition streq (a b : string) : bool := bool_decide (a = b).

(** The results of [validateHeaderSyntax]. *)
Record Syntax : Type := mkSyntax {
  isTrailer : bool;
  errMsg : string;
  hasMethod : bool;
  hasScheme : bool;
  hasPath : bool;
  hasStatus : bool;
}.

Definition syntax_error (msg : string) : Syntax := mkSyntax false msg false false false false.

Definition connection_specific : list string :=
  ["connection"; "keep-alive"; "proxy-connection"; "transfer-encoding"; "upgrade"].

(** One iteration per field; the arguments are the local variables of the Go
    function. *)
Fixpoint validateHeaderSyntax_loop (fields : list HeaderField)
    (seenRegular : bool) (seenPseudo : gset string) (m s p st : bool) : Syntax :=
  match fields with
  | [] => mkSyntax false "" m s p st
  | f :: rest =>
      let name := Name f in
      if zlen (bytes_of_string name) =? 0 then syntax_error "empty header name"
      else if has_upper name then syntax_error ("header name contains uppercase: " +:+ name)
      else if is_pseudo name then
        if seenRegular then
          syntax_error ("pseudo-header " +:+ name +:+ " after regular headers")
        else if bool_decide (name ∈ seenPseudo) then
          syntax_error ("duplicate pseudo-header " +:+ name)
        else
          let seenPseudo := {[name]} ∪ seenPseudo in
          let next := validateHeaderSyntax_loop rest seenRegular seenPseudo in
          if streq name ":method" then next true s p st
          else if streq name ":scheme" then next m true p st
          else if streq name ":path" then
            if streq (Value f) "" then syntax_error "empty :path" else next m s true st
          else if streq name ":authority" then next m s p st
          else if streq name ":status" then next m s p true
          else if streq name ":protocol" then syntax_error "unsupported pseudo-header :protocol"
          else syntax_error ("unknown pseudo-header " +:+ name)
      else
        if existsb (streq name) connection_specific then
          syntax_error ("connection-specific header: " +:+ name)
        else if streq name "te" && negb (streq (TrimSpace (Value f)) "trailers") then
          syntax_error ("TE with value other than trailers: " +:+ Value f)
        else validateHeaderSyntax_loop rest true seenPseudo m s p st
  end.

Definition validateHeaderSyntax (fields : list HeaderField) : Syntax :=
  validateHeaderSyntax_loop fields false ∅ false false false false.

Definition validateRequestHeaders (fields : list HeaderField) : bool * string :=
  let r := validateHeaderSyntax fields in
  if negb (streq (errMsg r) "") then (isTrailer r, errMsg r)
  else if hasStatus r then (false, ":status in a request")
  else if negb (hasMethod r) then (false, "missing :method")
  else if negb (hasScheme r) then (false, "missing :scheme")
  else if negb (hasPath r) then (false, "missing :path")
  else (false, "").

(** [contentLengthOf] returns the value, whether the field was there, and an
    error description; the accumulators are [val] and [seen]. *)
Fixpoint contentLengthOf_loop (fields : list HeaderField) (val : Z) (seen : bool)
    : Z * bool * string :=
  match fields with
  | [] => (val, seen, "")
  | f :: rest =>
      if negb (streq (Name f) "content-length") then contentLengthOf_loop rest val seen
      else if seen then (0, false, "duplicate content-length")
      else
        let s := TrimSpace (Value f) in
        if streq s "" then (0, false, "empty content-length")
        else match ParseInt s with
             | Some n =>
                 if n <? 0 then (0, false, "malformed content-length: " +:+ Value f)
                 else contentLengthOf_loop rest n true
             | None => (0, false, "malformed content-length: " +:+ Value f)
             end
  end.

Definition contentLengthOf (fields : list HeaderField) : Z * bool * string :=
  contentLengthOf_loop fields 0 false.

(** ** The rules, stated independently of the code *)

Definition name_ok (n : string) : Prop := n <> "" /\ has_upper n = false.

Definition known_pseudo : list string := [":method"; ":scheme"; ":path"; ":authority"; ":status"].

Definition pseudo_ok (f : HeaderField) : Prop :=
  name_ok (Name f) /\ Name f ∈ known_pseudo /\ (Name f = ":path" -> Value f <> "").

Definition regular_ok (f : HeaderField) : Prop :=
  name_ok (Name f) /\ is_pseudo (Name f) = false /\ Name f ∉ connection_specific /\
  (Name f = "te" -> TrimSpace (Value f) = "trailers").

(** Pseudo-headers first, each at most once, then the regular fields. *)
Definition well_formed_headers (fields : list HeaderField) : Prop :=
  exists ps rs, fields = ps ++ rs /\ Forall pseudo_ok ps /\ NoDup (Name <$> ps) /\
                Forall regular_ok rs.

Definition complete_request (fields : list HeaderField) : Prop :=
  ":method" ∈ (Name <$> fields) /\ ":scheme" ∈ (Name <$> fields) /\
  ":path" ∈ (Name <$> fields) /\ ":status" ∉ (Name <$> fields).

(** ** Facts *)

Lemma streq_true a b : streq a b = true <-> a = b.
Proof. unfold streq. apply bool_decide_eq_true. Qed.
Lemma streq_false a b : streq a b = false <-> a <> b.
Proof. unfold streq. apply bool_decide_eq_false. Qed.
Lemma streq_refl a : streq a a = true.
Proof. by apply streq_true. Qed.

Lemma zlen_string_zero s : (zlen (bytes_of_string s) =? 0) = streq s "".
Proof.
  destruct s; [done|]. cbn [bytes_of_string]. rewrite zlen_cons.
  pose proof (zlen_nonneg (bytes_of_string s)). unfold streq.
  rewrite bool_decide_eq_false_2 by done. lia.
Qed.

Lemma existsb_streq n l : existsb (streq n) l = bool_decide (n ∈ l).
Proof.
  induction l as [|x l IH]; [done|]. cbn. rewrite IH. unfold streq.
  repeat case_bool_decide; try done; set_solver.
Qed.

Ltac side := repeat split; cbn; try done; try constructor; try done; try set_solver.

(** [rest_ok sr sp fs]: the fields [fs] may follow when a regular field has
    ([sr]) or has not been seen and the pseudo-headers in [sp] have. *)
Definition rest_ok (sr : bool) (sp : gset string) (fs : list HeaderField) : Prop :=
  exists ps rs, fs = ps ++ rs /\ Forall pseudo_ok ps /\ NoDup (Name <$> ps) /\
    (forall n, n ∈ (Name <$> ps) -> n ∉ sp) /\ (sr = true -> ps = []) /\ Forall regular_ok rs.

Lemma elem_of_known n :
  n ∈ known_pseudo <->
  n = ":method" \/ n = ":scheme" \/ n = ":path" \/ n = ":authority" \/ n = ":status".
Proof. unfold known_pseudo. set_solver. Qed.

Lemma known_is_pseudo n : n ∈ known_pseudo -> is_pseudo n = true.
Proof. rewrite elem_of_known. naive_solver. Qed.

Lemma rest_ok_pseudo sr sp f fs :
  is_pseudo (Name f) = true ->
  rest_ok sr sp (f :: fs) <->
  sr = false /\ Name f ∉ sp /\ pseudo_ok f /\ rest_ok false ({[Name f]} ∪ sp) fs.
Proof.
  intros Hp. split.
  - intros (ps & rs & Heq & Hps & Hnd & Hsp & Hsr & Hrs).
    destruct ps as [|g ps]; cbn in Heq.
    { subst rs. apply Forall_cons in Hrs as [(_ & Hn & _) _]. congruence. }
    inversion Heq; subst g fs. apply Forall_cons in Hps as [Hf Hps].
    apply NoDup_cons in Hnd as [Hnf Hnd].
    split; [destruct sr; [by discriminate Hsr|done]|].
    split; [apply Hsp; left|]. split; [done|].
    exists ps, rs. repeat (split; [done|]). split; [|split; [done|done]].
    intros n Hn. assert (n ∉ sp) by (apply Hsp; by right). set_solver.
  - intros (-> & Hni & Hf & ps & rs & -> & Hps & Hnd & Hsp & _ & Hrs).
    exists (f :: ps), rs. split; [done|]. split; [by constructor|]. cbn.
    split; [constructor; [|done]; intros Hin; apply Hsp in Hin; set_solver|].
    split; [|done]. intros n [->|Hn]%elem_of_cons; [done|]. apply Hsp in Hn. set_solver.
Qed.

Lemma rest_ok_regular sr sp f fs :
  is_pseudo (Name f) = false ->
  rest_ok sr sp (f :: fs) <-> regular_ok f /\ rest_ok true sp fs.
Proof.
  intros Hp. split.
  - intros (ps & rs & Heq & Hps & Hnd & Hsp & Hsr & Hrs).
    destruct ps as [|g ps]; cbn in Heq.
    + subst rs. apply Forall_cons in Hrs as [Hf Hrs]. split; [done|].
      exists [], fs. side.
    + inversion Heq; subst g. apply Forall_cons in Hps as [(_ & Hk & _) _].
      apply known_is_pseudo in Hk. congruence.
  - intros (Hf & ps & rs & -> & Hps & Hnd & Hsp & Hsr & Hrs).
    rewrite (Hsr eq_refl) in *. exists [], (f :: rs).
    side.
Qed.

Lemma loop_ok fs : forall sr sp m s p st,
  errMsg (validateHeaderSyntax_loop fs sr sp m s p st) = "" <-> rest_ok sr sp fs.
Proof.
  induction fs as [|f fs IH]; intros sr sp m s p st.
  { split; [|done]. intros _. exists [], []. side. }
  cbn [validateHeaderSyntax_loop]. rewrite zlen_string_zero.
  branch He; [|branch Hu; [|branch Hps]].
  - apply streq_true in He. rewrite rest_ok_regular by (by rewrite He).
    split; [done|]. intros [((? & _) & _) _]. done.
  - split; [done|]. intros H. exfalso.
    destruct (is_pseudo (Name f)) eqn:Hps.
    + apply rest_ok_pseudo in H as (_ & _ & ((_ & ?) & _) & _); [congruence|done].
    + apply rest_ok_regular in H as (((_ & ?) & _) & _); [congruence|done].
  - rewrite rest_ok_pseudo by done. apply streq_false in He.
    destruct sr; [split; [done|by intros [? _]]|].
    case_bool_decide as Hin; [split; [done|by intros (_ & ? & _)]|].
    assert (forall m s p st, pseudo_ok f ->
      errMsg (validateHeaderSyntax_loop fs false ({[Name f]} ∪ sp) m s p st) = "" <->
      false = false /\ Name f ∉ sp /\ pseudo_ok f /\ rest_ok false ({[Name f]} ∪ sp) fs) as Hnext.
    { intros. rewrite IH. naive_solver. }
    assert (name_ok (Name f)) as Hname by done.
    pose proof (elem_of_known (Name f)) as Hk.
    repeat match goal with
    | |- context [if streq ?a ?b then _ else _] =>
        destruct (streq a b) eqn:?;
        [match goal with H : streq a b = true |- _ => apply streq_true in H end
        |match goal with H : streq a b = false |- _ => apply streq_false in H end]
    end;
    first [apply Hnext; split; [done|]; split; [apply Hk; by auto 6|intros; congruence]
          |split; [done|]; intros (_ & _ & (_ & Hin' & Hpath) & _); apply Hk in Hin';
           destruct_or? Hin'; first [congruence | by exfalso; apply Hpath]].
  - rewrite rest_ok_regular by done. apply streq_false in He.
    rewrite existsb_streq. case_bool_decide as Hc.
    { split; [done|]. by intros [(_ & _ & ? & _) _]. }
    branch Hte.
    + apply andb_true_iff in Hte as [Ht Hv]. apply streq_true in Ht.
      apply negb_true_iff, streq_false in Hv.
      split; [done|]. intros [(_ & _ & _ & H) _]. by apply H in Ht.
    + rewrite IH. split; [|by intros [_ ?]]. intros Hr. split; [|done].
      repeat split; try done. intros Ht. rewrite Ht, streq_refl in Hte. cbn in Hte.
      by apply negb_false_iff, streq_true in Hte.
Qed.

(** Which names are present, as a boolean. *)
Definition present (lit : string) (fs : list HeaderField) : bool :=
  existsb (fun f => streq (Name f) lit) fs.

Lemma present_true lit fs : present lit fs = true <-> lit ∈ (Name <$> fs).
Proof.
  induction fs as [|f fs IH]; cbn; [by rewrite elem_of_nil|].
  rewrite orb_true_iff, streq_true, IH, elem_of_cons. naive_solver.
Qed.

Lemma not_pseudo_streq n lit :
  is_pseudo n = false -> is_pseudo lit = true -> streq n lit = false.
Proof. intros H1 H2. apply streq_false. congruence. Qed.

(** The four flags of a successful run record which pseudo-headers are there. *)
Lemma loop_flags fs : forall sr sp m s p st,
  let r := validateHeaderSyntax_loop fs sr sp m s p st in
  errMsg r = "" ->
  r = mkSyntax false "" (m || present ":method" fs) (s || present ":scheme" fs)
        (p || present ":path" fs) (st || present ":status" fs).
Proof.
  induction fs as [|f fs IH]; intros sr sp m s p st; cbn zeta.
  { intros _. cbn. by rewrite !orb_false_r. }
  cbn [validateHeaderSyntax_loop present existsb].
  branch He; [done|]. branch Hu; [done|]. branch Hps.
  - destruct sr; [done|]. case_bool_decide; [done|].
    repeat match goal with
    | |- context [if streq ?a ?b then _ else _] => destruct (streq a b) eqn:?
    end; try done; intros Hok; apply IH in Hok as ->;
      repeat match goal with
      | H : streq _ _ = true |- _ => apply streq_true in H
      | |- context [streq (Name f) ?l] =>
          rewrite (proj2 (streq_false (Name f) l)) by congruence
      end; fold (present ":method" fs) (present ":scheme" fs) (present ":path" fs)
             (present ":status" fs); cbn [orb]; by rewrite ?orb_true_r.
  - branch Hc; [done|]. branch Hte; [done|]. intros Hok. apply IH in Hok as ->.
    by rewrite !not_pseudo_streq.
Qed.

Lemma rest_ok_start fs : rest_ok false ∅ fs <-> well_formed_headers fs.
Proof.
  split.
  - intros (ps & rs & ? & ? & ? & _ & _ & ?). by exists ps, rs.
  - intros (ps & rs & ? & ? & ? & ?). exists ps, rs. side.
Qed.

Lemma cl_loop_seen fs : forall v n,
  contentLengthOf_loop fs v true = (n, true, "") <->
  n = v /\ "content-length" ∉ (Name <$> fs).
Proof.
  induction fs as [|f fs IH]; intros v n; cbn [contentLengthOf_loop fmap list_fmap].
  { split; [intros [= <-]; split; [done|apply not_elem_of_nil]|by intros [-> _]]. }
  rewrite not_elem_of_cons. destruct (streq (Name f) "content-length") eqn:Hn; cbn.
  - apply streq_true in Hn. split; [done|]. intros [_ [? _]]. congruence.
  - apply streq_false in Hn. rewrite IH. naive_solver.
Qed.

(** ** Properties *)

(** C38: [validateRequestHeaders] accepts exactly the header lists that the
    declarative rules admit: pseudo-headers first and at most once, only known
    ones, lower-case names, no connection-specific field, [te] only with
    [trailers], and [:method], [:scheme], [:path] present, [:status] absent. *)
Theorem validateRequestHeaders_spec fields :
  validateRequestHeaders fields = (false, "") <->
  well_formed_headers fields /\ complete_request fields.
Proof.
  unfold validateRequestHeaders, complete_request, validateHeaderSyntax.
  rewrite <- rest_ok_start, <- (loop_ok fields false ∅ false false false false).
  pose proof (loop_flags fields false ∅ false false false false) as Hf. cbn zeta in Hf.
  destruct (streq (errMsg _) "") eqn:He; cbn [negb].
  - apply streq_true in He. rewrite Hf, <- !present_true by done. cbn.
    destruct (present ":status" fields), (present ":method" fields),
      (present ":scheme" fields), (present ":path" fields); cbn; intuition congruence.
  - apply streq_false in He. split; [|tauto]. intros H. inversion H. congruence.
Qed.

(** [contentLengthOf] reports a length [n] exactly when there is one
    [content-length] field and its trimmed value is a decimal number
    [0 <= n < 2^63]; a second field is always an error, which is what stops
    two readers from disagreeing about the length. *)
Theorem contentLengthOf_spec fields n :
  contentLengthOf fields = (n, true, "") <->
  exists pre f post,
    fields = pre ++ f :: post /\ Name f = "content-length" /\
    "content-length" ∉ (Name <$> pre) /\ "content-length" ∉ (Name <$> post) /\
    ParseInt (TrimSpace (Value f)) = Some n /\ 0 <= n.
Proof.
  unfold contentLengthOf. generalize 0 at 1 as v. induction fields as [|f fs IH]; intros v; cbn.
  { split; [done|]. intros ([|] & ? & ? & ? & _); done. }
  destruct (streq (Name f) "content-length") eqn:Hn; cbn.
  - apply streq_true in Hn. destruct (streq (TrimSpace (Value f)) "") eqn:Ht.
    { apply streq_true in Ht. split; [done|].
      intros ([|g pre] & h & post & [= -> ->] & Hh & Hpre & _ & Hp & _).
      - rewrite Ht in Hp. done.
      - cbn in Hpre. set_solver. }
    destruct (ParseInt (TrimSpace (Value f))) as [k|] eqn:Hp.
    + destruct (Z.ltb_spec k 0); [|rewrite cl_loop_seen]; split; try done.
      * intros ([|g pre] & h & post & [= -> ->] & ? & Hpre & ? & Hk & ?);
          [exfalso; simplify_eq; lia|cbn in Hpre; set_solver].
      * intros [-> Hpost]. exists [], f, fs. side.
      * intros ([|g pre] & h & post & [= -> ->] & ? & Hpre & ? & Hk & ?);
          [by simplify_eq|cbn in Hpre; set_solver].
    + split; [done|]. intros ([|g pre] & h & post & [= -> ->] & ? & Hpre & ? & Hk & ?);
        [congruence|cbn in Hpre; set_solver].
  - apply streq_false in Hn. rewrite IH. split.
    + intros (pre & g & post & -> & ? & ? & ? & ? & ?). exists (f :: pre), g, post. side.
    + intros ([|h pre] & g & post & [= -> ->] & ? & Hpre & ? & ? & ?); [done|].
      exists pre, g, post. cbn in Hpre. rewrite not_elem_of_cons in Hpre. naive_solver.
Qed.
