(* ===== verification/H2State.v ===== *)
(** * H2State

    The state of an HTTP/2 connection and its sending side: the first half of
    [http2/conn.go] with [http2/hpack.go].

    - [Conn] and [Stream] with the source's fields.  The stream table maps ids
      to pointers and the [Stream] objects live in a heap, because the code
      keeps using a [*Stream] after a callback may have removed it from the
      table.
    - HPACK itself is [golang.org/x/net/http2/hpack]; the class [Hpack] is its
      interface, and [hpackDecoder.Decode] and [hpackEncoder.Encode] are the
      wrappers the source puts around it.
    - [WriteHeaders], [WriteTrailers], [WriteData], [flushPending], the
      window accounting and the output buffer. *)

From S2P Require Import Prelude Pump H2Frame H2Headers.

Definition defaultHeaderTableSize : Z := 4096.
Definition defaultInitialWindowSize : Z := 65535.
Definition maxRecvWindow : Z := 2 ^ 20.

(** The HPACK coder: a decoder that is fed a block and closed, an encoder that
    appends one field at a time.  Errors are their texts. *)
Class Hpack : Type := {
  hdec : Type;
  henc : Type;
  NewDecoder : Z -> hdec;
  dec_Write : bytes -> hdec -> hdec * list HeaderField * option string;
  dec_Close : hdec -> hdec * option string;
  NewEncoder : henc;
  enc_WriteField : HeaderField -> henc -> henc * bytes * option string;
  enc_SetMaxDynamicTableSize : Z -> henc -> henc;
}.

Inductive connState : Type := statePreface | stateSettings | stateOpen | stateClosed.

(** [PRI * HTTP/2.0\r\n\r\nSM\r\n\r\n] *)
Definition clientPreface : bytes :=
  bytes_of_string "PRI * HTTP/2.0" ++ [13; 10; 13; 10] ++ bytes_of_string "SM" ++ [13; 10; 13; 10].

Inductive StreamState : Type :=
  | StreamIdle
  | StreamOpen
  | StreamHalfClosedRemote
  | StreamHalfClosedLocal
  | StreamClosed.

#[export] Instance connState_eq_dec : EqDecision connState.
Proof. solve_decision. Defined.
#[export] Instance StreamState_eq_dec : EqDecision StreamState.
Proof. solve_decision. Defined.

Record Stream : Type := mkStream {
  s_ID : Z;
  s_state : StreamState;
  s_headers : list HeaderField;
  s_remoteEnded : bool;
  s_localEnded : bool;
  s_sendWindow : Z; (** int32 *)
  s_recvWindow : Z; (** int32 *)
  s_expectContentLength : Z; (** int64, [-1] when not declared *)
  s_recvBodyLen : Z; (** int64 *)
}.

Record pendingData : Type := mkPending {
  pd_streamID : Z;
  pd_data : bytes;
  pd_endStream : bool;
}.

Record PendingHeaders : Type := mkPendingHeaders {
  ph_streamID : Z;
  ph_block : bytes;
  ph_endStream : bool;
  ph_active : bool;
}.

(** [hpackDecoder]: the decoder and what its callback collected. *)
Record hpackDecoder `{Hpack} : Type := mkHpackDecoder {
  hd_dec : hdec;
  hd_cur : list HeaderField;
  hd_err : option string;
}.

Record Conn `{Hpack} {App : Type} : Type := mkConn {
  outBuf : bytes;
  encoder : henc;
  parser : FrameParser;
  dec : hpackDecoder;
  prefaceBuf : bytes;
  state : connState;
  nextStreamID : Z; (** uint32 *)
  isClient : bool;
  streams : gmap Z positive; (** stream id to pointer *)
  heap : gmap positive Stream; (** the [Stream] objects *)
  nextPtr : positive; (** the allocator *)
  pendingHeaders : PendingHeaders;
  peerMaxFrameSize : Z; (** uint32 *)
  peerHeaderTable : Z; (** uint32 *)
  peerInitialWindow : Z; (** uint32 *)
  sendWindow : Z; (** int32 *)
  recvWindow : Z; (** int32 *)
  localInitialWindow : Z; (** int32 *)
  pending : list pendingData;
  goAway : bool;
  goAwayCode : Z;
  lastStreamID : Z; (** uint32 *)
  maxPeerStreamID : Z; (** uint32 *)
  app : App; (** the handler's own state *)
}.
Arguments Conn {_} App.
Arguments mkConn {_ _}.

(** ** Field updates *)

Definition set_s_state (v : StreamState) (s : Stream) : Stream :=
  mkStream
    (s_ID s) v (s_headers s) (s_remoteEnded s) (s_localEnded s) (s_sendWindow s)
    (s_recvWindow s) (s_expectContentLength s) (s_recvBodyLen s).
Definition set_s_headers (v : list HeaderField) (s : Stream) : Stream :=
  mkStream
    (s_ID s) (s_state s) v (s_remoteEnded s) (s_localEnded s) (s_sendWindow s)
    (s_recvWindow s) (s_expectContentLength s) (s_recvBodyLen s).
Definition set_s_remoteEnded (v : bool) (s : Stream) : Stream :=
  mkStream
    (s_ID s) (s_state s) (s_headers s) v (s_localEnded s) (s_sendWindow s)
    (s_recvWindow s) (s_expectContentLength s) (s_recvBodyLen s).
Definition set_s_sendWindow (v : Z) (s : Stream) : Stream :=
  mkStream
    (s_ID s) (s_state s) (s_headers s) (s_remoteEnded s) (s_localEnded s) v
    (s_recvWindow s) (s_expectContentLength s) (s_recvBodyLen s).
Definition set_s_recvWindow (v : Z) (s : Stream) : Stream :=
  mkStream
    (s_ID s) (s_state s) (s_headers s) (s_remoteEnded s) (s_localEnded s)
    (s_sendWindow s) v (s_expectContentLength s) (s_recvBodyLen s).
Definition set_s_expectContentLength (v : Z) (s : Stream) : Stream :=
  mkStream
    (s_ID s) (s_state s) (s_headers s) (s_remoteEnded s) (s_localEnded s)
    (s_sendWindow s) (s_recvWindow s) v (s_recvBodyLen s).
Definition set_s_recvBodyLen (v : Z) (s : Stream) : Stream :=
  mkStream
    (s_ID s) (s_state s) (s_headers s) (s_remoteEnded s) (s_localEnded s)
    (s_sendWindow s) (s_recvWindow s) (s_expectContentLength s) v.

Section Setters.
Context `{Hpack} {App : Type}.
Definition set_outBuf (v : bytes) (c : Conn App) : Conn App :=
  mkConn
    v (encoder c) (parser c) (dec c) (prefaceBuf c) (state c) (nextStreamID c)
    (isClient c) (streams c) (heap c) (nextPtr c) (pendingHeaders c)
    (peerMaxFrameSize c) (peerHeaderTable c) (peerInitialWindow c) (sendWindow c)
    (recvWindow c) (localInitialWindow c) (pending c) (goAway c) (goAwayCode c)
    (lastStreamID c) (maxPeerStreamID c) (app c).
Definition set_encoder (v : henc) (c : Conn App) : Conn App :=
  mkConn
    (outBuf c) v (parser c) (dec c) (prefaceBuf c) (state c) (nextStreamID c)
    (isClient c) (streams c) (heap c) (nextPtr c) (pendingHeaders c)
    (peerMaxFrameSize c) (peerHeaderTable c) (peerInitialWindow c) (sendWindow c)
    (recvWindow c) (localInitialWindow c) (pending c) (goAway c) (goAwayCode c)
    (lastStreamID c) (maxPeerStreamID c) (app c).
Definition set_parser (v : FrameParser) (c : Conn App) : Conn App :=
  mkConn
    (outBuf c) (encoder c) v (dec c) (prefaceBuf c) (state c) (nextStreamID c)
    (isClient c) (streams c) (heap c) (nextPtr c) (pendingHeaders c)
    (peerMaxFrameSize c) (peerHeaderTable c) (peerInitialWindow c) (sendWindow c)
    (recvWindow c) (localInitialWindow c) (pending c) (goAway c) (goAwayCode c)
    (lastStreamID c) (maxPeerStreamID c) (app c).
Definition set_dec (v : hpackDecoder) (c : Conn App) : Conn App :=
  mkConn
    (outBuf c) (encoder c) (parser c) v (prefaceBuf c) (state c) (nextStreamID c)
    (isClient c) (streams c) (heap c) (nextPtr c) (pendingHeaders c)
    (peerMaxFrameSize c) (peerHeaderTable c) (peerInitialWindow c) (sendWindow c)
    (recvWindow c) (localInitialWindow c) (pending c) (goAway c) (goAwayCode c)
    (lastStreamID c) (maxPeerStreamID c) (app c).
Definition set_prefaceBuf (v : bytes) (c : Conn App) : Conn App :=
  mkConn
    (outBuf c) (encoder c) (parser c) (dec c) v (state c) (nextStreamID c) (isClient
    c) (streams c) (heap c) (nextPtr c) (pendingHeaders c) (peerMaxFrameSize c)
    (peerHeaderTable c) (peerInitialWindow c) (sendWindow c) (recvWindow c)
    (localInitialWindow c) (pending c) (goAway c) (goAwayCode c) (lastStreamID c)
    (maxPeerStreamID c) (app c).
Definition set_state (v : connState) (c : Conn App) : Conn App :=
  mkConn
    (outBuf c) (encoder c) (parser c) (dec c) (prefaceBuf c) v (nextStreamID c)
    (isClient c) (streams c) (heap c) (nextPtr c) (pendingHeaders c)
    (peerMaxFrameSize c) (peerHeaderTable c) (peerInitialWindow c) (sendWindow c)
    (recvWindow c) (localInitialWindow c) (pending c) (goAway c) (goAwayCode c)
    (lastStreamID c) (maxPeerStreamID c) (app c).
Definition set_nextStreamID (v : Z) (c : Conn App) : Conn App :=
  mkConn
    (outBuf c) (encoder c) (parser c) (dec c) (prefaceBuf c) (state c) v (isClient
    c) (streams c) (heap c) (nextPtr c) (pendingHeaders c) (peerMaxFrameSize c)
    (peerHeaderTable c) (peerInitialWindow c) (sendWindow c) (recvWindow c)
    (localInitialWindow c) (pending c) (goAway c) (goAwayCode c) (lastStreamID c)
    (maxPeerStreamID c) (app c).
Definition set_streams (v : gmap Z positive) (c : Conn App) : Conn App :=
  mkConn
    (outBuf c) (encoder c) (parser c) (dec c) (prefaceBuf c) (state c) (nextStreamID
    c) (isClient c) v (heap c) (nextPtr c) (pendingHeaders c) (peerMaxFrameSize c)
    (peerHeaderTable c) (peerInitialWindow c) (sendWindow c) (recvWindow c)
    (localInitialWindow c) (pending c) (goAway c) (goAwayCode c) (lastStreamID c)
    (maxPeerStreamID c) (app c).
Definition set_heap (v : gmap positive Stream) (c : Conn App) : Conn App :=
  mkConn
    (outBuf c) (encoder c) (parser c) (dec c) (prefaceBuf c) (state c) (nextStreamID
    c) (isClient c) (streams c) v (nextPtr c) (pendingHeaders c) (peerMaxFrameSize
    c) (peerHeaderTable c) (peerInitialWindow c) (sendWindow c) (recvWindow c)
    (localInitialWindow c) (pending c) (goAway c) (goAwayCode c) (lastStreamID c)
    (maxPeerStreamID c) (app c).
Definition set_nextPtr (v : positive) (c : Conn App) : Conn App :=
  mkConn
    (outBuf c) (encoder c) (parser c) (dec c) (prefaceBuf c) (state c) (nextStreamID
    c) (isClient c) (streams c) (heap c) v (pendingHeaders c) (peerMaxFrameSize c)
    (peerHeaderTable c) (peerInitialWindow c) (sendWindow c) (recvWindow c)
    (localInitialWindow c) (pending c) (goAway c) (goAwayCode c) (lastStreamID c)
    (maxPeerStreamID c) (app c).
Definition set_pendingHeaders (v : PendingHeaders) (c : Conn App) : Conn App :=
  mkConn
    (outBuf c) (encoder c) (parser c) (dec c) (prefaceBuf c) (state c) (nextStreamID
    c) (isClient c) (streams c) (heap c) (nextPtr c) v (peerMaxFrameSize c)
    (peerHeaderTable c) (peerInitialWindow c) (sendWindow c) (recvWindow c)
    (localInitialWindow c) (pending c) (goAway c) (goAwayCode c) (lastStreamID c)
    (maxPeerStreamID c) (app c).
Definition set_peerMaxFrameSize (v : Z) (c : Conn App) : Conn App :=
  mkConn
    (outBuf c) (encoder c) (parser c) (dec c) (prefaceBuf c) (state c) (nextStreamID
    c) (isClient c) (streams c) (heap c) (nextPtr c) (pendingHeaders c) v
    (peerHeaderTable c) (peerInitialWindow c) (sendWindow c) (recvWindow c)
    (localInitialWindow c) (pending c) (goAway c) (goAwayCode c) (lastStreamID c)
    (maxPeerStreamID c) (app c).
Definition set_peerHeaderTable (v : Z) (c : Conn App) : Conn App :=
  mkConn
    (outBuf c) (encoder c) (parser c) (dec c) (prefaceBuf c) (state c) (nextStreamID
    c) (isClient c) (streams c) (heap c) (nextPtr c) (pendingHeaders c)
    (peerMaxFrameSize c) v (peerInitialWindow c) (sendWindow c) (recvWindow c)
    (localInitialWindow c) (pending c) (goAway c) (goAwayCode c) (lastStreamID c)
    (maxPeerStreamID c) (app c).
Definition set_peerInitialWindow (v : Z) (c : Conn App) : Conn App :=
  mkConn
    (outBuf c) (encoder c) (parser c) (dec c) (prefaceBuf c) (state c) (nextStreamID
    c) (isClient c) (streams c) (heap c) (nextPtr c) (pendingHeaders c)
    (peerMaxFrameSize c) (peerHeaderTable c) v (sendWindow c) (recvWindow c)
    (localInitialWindow c) (pending c) (goAway c) (goAwayCode c) (lastStreamID c)
    (maxPeerStreamID c) (app c).
Definition set_sendWindow (v : Z) (c : Conn App) : Conn App :=
  mkConn
    (outBuf c) (encoder c) (parser c) (dec c) (prefaceBuf c) (state c) (nextStreamID
    c) (isClient c) (streams c) (heap c) (nextPtr c) (pendingHeaders c)
    (peerMaxFrameSize c) (peerHeaderTable c) (peerInitialWindow c) v (recvWindow c)
    (localInitialWindow c) (pending c) (goAway c) (goAwayCode c) (lastStreamID c)
    (maxPeerStreamID c) (app c).
Definition set_recvWindow (v : Z) (c : Conn App) : Conn App :=
  mkConn
    (outBuf c) (encoder c) (parser c) (dec c) (prefaceBuf c) (state c) (nextStreamID
    c) (isClient c) (streams c) (heap c) (nextPtr c) (pendingHeaders c)
    (peerMaxFrameSize c) (peerHeaderTable c) (peerInitialWindow c) (sendWindow c) v
    (localInitialWindow c) (pending c) (goAway c) (goAwayCode c) (lastStreamID c)
    (maxPeerStreamID c) (app c).
Definition set_localInitialWindow (v : Z) (c : Conn App) : Conn App :=
  mkConn
    (outBuf c) (encoder c) (parser c) (dec c) (prefaceBuf c) (state c) (nextStreamID
    c) (isClient c) (streams c) (heap c) (nextPtr c) (pendingHeaders c)
    (peerMaxFrameSize c) (peerHeaderTable c) (peerInitialWindow c) (sendWindow c)
    (recvWindow c) v (pending c) (goAway c) (goAwayCode c) (lastStreamID c)
    (maxPeerStreamID c) (app c).
Definition set_pending (v : list pendingData) (c : Conn App) : Conn App :=
  mkConn
    (outBuf c) (encoder c) (parser c) (dec c) (prefaceBuf c) (state c) (nextStreamID
    c) (isClient c) (streams c) (heap c) (nextPtr c) (pendingHeaders c)
    (peerMaxFrameSize c) (peerHeaderTable c) (peerInitialWindow c) (sendWindow c)
    (recvWindow c) (localInitialWindow c) v (goAway c) (goAwayCode c) (lastStreamID
    c) (maxPeerStreamID c) (app c).
Definition set_goAway (v : bool) (c : Conn App) : Conn App :=
  mkConn
    (outBuf c) (encoder c) (parser c) (dec c) (prefaceBuf c) (state c) (nextStreamID
    c) (isClient c) (streams c) (heap c) (nextPtr c) (pendingHeaders c)
    (peerMaxFrameSize c) (peerHeaderTable c) (peerInitialWindow c) (sendWindow c)
    (recvWindow c) (localInitialWindow c) (pending c) v (goAwayCode c) (lastStreamID
    c) (maxPeerStreamID c) (app c).
Definition set_goAwayCode (v : Z) (c : Conn App) : Conn App :=
  mkConn
    (outBuf c) (encoder c) (parser c) (dec c) (prefaceBuf c) (state c) (nextStreamID
    c) (isClient c) (streams c) (heap c) (nextPtr c) (pendingHeaders c)
    (peerMaxFrameSize c) (peerHeaderTable c) (peerInitialWindow c) (sendWindow c)
    (recvWindow c) (localInitialWindow c) (pending c) (goAway c) v (lastStreamID c)
    (maxPeerStreamID c) (app c).
Definition set_lastStreamID (v : Z) (c : Conn App) : Conn App :=
  mkConn
    (outBuf c) (encoder c) (parser c) (dec c) (prefaceBuf c) (state c) (nextStreamID
    c) (isClient c) (streams c) (heap c) (nextPtr c) (pendingHeaders c)
    (peerMaxFrameSize c) (peerHeaderTable c) (peerInitialWindow c) (sendWindow c)
    (recvWindow c) (localInitialWindow c) (pending c) (goAway c) (goAwayCode c) v
    (maxPeerStreamID c) (app c).
Definition set_maxPeerStreamID (v : Z) (c : Conn App) : Conn App :=
  mkConn
    (outBuf c) (encoder c) (parser c) (dec c) (prefaceBuf c) (state c) (nextStreamID
    c) (isClient c) (streams c) (heap c) (nextPtr c) (pendingHeaders c)
    (peerMaxFrameSize c) (peerHeaderTable c) (peerInitialWindow c) (sendWindow c)
    (recvWindow c) (localInitialWindow c) (pending c) (goAway c) (goAwayCode c)
    (lastStreamID c) v (app c).
Definition set_app (v : App) (c : Conn App) : Conn App :=
  mkConn
    (outBuf c) (encoder c) (parser c) (dec c) (prefaceBuf c) (state c) (nextStreamID
    c) (isClient c) (streams c) (heap c) (nextPtr c) (pendingHeaders c)
    (peerMaxFrameSize c) (peerHeaderTable c) (peerInitialWindow c) (sendWindow c)
    (recvWindow c) (localInitialWindow c) (pending c) (goAway c) (goAwayCode c)
    (lastStreamID c) (maxPeerStreamID c) v.
End Setters.

Section Ops.
Context `{Hpack} {App : Type}.
Notation Conn := (Conn App).
Notation go A := (M Conn A).

(** The callbacks of [StreamHandler]; they may use the connection. *)
Record StreamHandler : Type := {
  OnHeaders : Z -> list HeaderField -> bool -> go unit;
  OnData : Z -> bytes -> bool -> go unit;
  OnRSTStream : Z -> Z -> go unit;
}.

(** ** HPACK wrappers *)

Definition newHpackDecoder : hpackDecoder :=
  mkHpackDecoder _ (NewDecoder defaultHeaderTableSize) [] None.

(** The callback [onField]: fields are dropped once an error was noted. *)
Definition onField (d : hpackDecoder) (f : HeaderField) : hpackDecoder :=
  match hd_err d with
  | Some _ => d
  | None => mkHpackDecoder _ (hd_dec d) (hd_cur d ++ [f]) None
  end.

Definition Decode (block : bytes) : go (list HeaderField + string) :=
  c ← get;
  let '(st, fields, err) := dec_Write block (hd_dec (dec c)) in
  let d := fold_left onField fields (mkHpackDecoder _ st [] None) in
  match err with
  | Some e => modify (set_dec d) ;; mret (inr e)
  | None =>
      let '(st, err) := dec_Close (hd_dec d) in
      let d := mkHpackDecoder _ st (hd_cur d) (hd_err d) in
      modify (set_dec d) ;;
      match err, hd_err d with
      | Some e, _ => mret (inr e)
      | None, Some e => mret (inr e)
      | None, None => mret (inl (hd_cur d))
      end
  end.

Fixpoint Encode_fields (fields : list HeaderField) (st : henc) (buf : bytes)
    : henc * (bytes + string) :=
  match fields with
  | [] => (st, inl buf)
  | f :: rest =>
      let '(st, out, err) := enc_WriteField f st in
      match err with
      | Some e => (st, inr e)
      | None => Encode_fields rest st (buf ++ out)
      end
  end.

Definition Encode (fields : list HeaderField) : go (bytes + string) :=
  c ← get;
  let '(st, r) := Encode_fields fields (encoder c) [] in
  modify (set_encoder st) ;; mret r.

(** ** Construction *)

Definition NewConn (isClient : bool) (a : App) : Conn :=
  mkConn [] NewEncoder NewFrameParser newHpackDecoder []
    (if isClient then stateOpen else statePreface)
    (if isClient then 1 else 2)
    isClient ∅ ∅ 1%positive (mkPendingHeaders 0 [] false false)
    defaultMaxFrameSize defaultHeaderTableSize defaultInitialWindowSize
    (i32 defaultInitialWindowSize) (i32 defaultInitialWindowSize) (i32 defaultInitialWindowSize)
    [] false 0 0 0 a.

(** ** The heap of streams *)

Definition load (p : positive) : go Stream := c ← get; of_option (heap c !! p).
Definition store (p : positive) (s : Stream) : go unit :=
  _ ← load p; modify (fun c => set_heap (<[p := s]> (heap c)) c).

(** [c.streams[id]], [None] being [nil]. *)
Definition GetStream (id : Z) : go (option positive) := c ← get; mret (streams c !! id).

Definition new_stream (id : Z) (c : Conn) : Stream :=
  mkStream id StreamOpen [] false false (i32 (peerInitialWindow c)) (localInitialWindow c) (-1) 0.

(** [c.stream(id)]: find or create. *)
Definition stream (id : Z) : go positive :=
  c ← get;
  match streams c !! id with
  | Some p => mret p
  | None =>
      let p := nextPtr c in
      modify (fun c => set_heap (<[p := new_stream id c]> (heap c)) c) ;;
      modify (set_nextPtr (Pos.succ p)) ;;
      modify (fun c => set_streams (<[id := p]> (streams c)) c) ;;
      mret p
  end.

Definition forgetStream (id : Z) : go unit :=
  modify (fun c => set_streams (delete id (streams c)) c).
Definition CloseStream (id : Z) : go unit := forgetStream id.

(** ** The output buffer *)

Definition writeFrameLocked (b : bytes) : go (option Error) :=
  modify (fun c => set_outBuf (outBuf c ++ b) c) ;; mret None.
Definition writeFrame (b : bytes) : go (option Error) := writeFrameLocked b.
Definition WriteRaw (b : bytes) : go unit := modify (fun c => set_outBuf (outBuf c ++ b) c).

Definition takeOutput : go bytes :=
  c ← get;
  if zlen (outBuf c) =? 0 then mret []
  else modify (set_outBuf []) ;; mret (outBuf c).

Definition sendGoAway (code : Z) (debug : string) : go bytes :=
  modify (set_state stateClosed) ;;
  modify (set_goAway true) ;;
  c ← get;
  let buf := AppendGoAway [] (lastStreamID c) code (bytes_of_string debug) in
  modify (fun c => set_outBuf (outBuf c ++ buf) c) ;;
  c ← get;
  modify (set_outBuf []) ;;
  mret (outBuf c).

(** ** Headers and trailers *)

Definition NewStreamID : go Z :=
  id ← gets nextStreamID;
  modify (fun c => set_nextStreamID (u32 (nextStreamID c + 2)) c) ;;
  stream id ;;
  mret id.

Definition boolToFlag (b : bool) (f : Z) : Z := if b then f else 0.

(** The CONTINUATION frames after the first [max] bytes; a [max] of zero would
    not end and runs out of fuel. *)
Fixpoint continuation_frames (fuel : nat) (max streamID : Z) (block buf : bytes) : option bytes :=
  match fuel with
  | O => None
  | S fuel =>
      if zlen block =? 0 then Some buf
      else
        let n := if zlen block <? max then zlen block else max in
        let last := n =? zlen block in
        let buf := AppendFrameHeader buf FrameContinuation
                     (boolToFlag last FlagContinuationEndHeaders) streamID n in
        continuation_frames fuel max streamID (from n block) (buf ++ upto n block)
  end.

Definition writeHeaderBlock (streamID : Z) (block : bytes) (endStream : bool) : go (option Error) :=
  max ← gets peerMaxFrameSize;
  if zlen block <=? max then writeFrame (AppendHeaders [] streamID block endStream true)
  else
    let buf := AppendHeaders [] streamID (upto max block) endStream false in
    let block := from max block in
    buf ← of_option (continuation_frames (fuel_for block) max streamID block buf);
    writeFrame buf.

Definition WriteHeaders (streamID : Z) (fields : list HeaderField) (endStream : bool)
    : go (option Error) :=
  r ← Encode fields;
  match r with
  | inr e => mret (Some (ErrNew e))
  | inl block => stream streamID ;; writeHeaderBlock streamID block endStream
  end.

Definition WriteTrailers (streamID : Z) (fields : list HeaderField) : go (option Error) :=
  r ← Encode fields;
  match r with
  | inr e => mret (Some (ErrNew e))
  | inl block =>
      max ← gets peerMaxFrameSize;
      if zlen block <=? max then writeFrame (AppendHeaders [] streamID block true true)
      else writeHeaderBlock streamID block true
  end.

(** [MustHeaders] panics when the encoder fails. *)
Definition MustHeaders (streamID : Z) (fields : list HeaderField) (endStream : bool) : go bytes :=
  r ← Encode fields;
  match r with
  | inr _ => panic
  | inl block => stream streamID ;; mret (AppendHeaders [] streamID block endStream true)
  end.

(** ** Data and flow control *)

(** The smaller of the connection window and, if the stream is in the table,
    its own. *)
Definition avail_window (streamID : Z) : go Z :=
  c ← get;
  match streams c !! streamID with
  | Some p =>
      s ← load p;
      mret (if s_sendWindow s <? sendWindow c then s_sendWindow s else sendWindow c)
  | None => mret (sendWindow c)
  end.

Definition debit (streamID n : Z) : go unit :=
  modify (fun c => set_sendWindow (i32 (sendWindow c - i32 n)) c) ;;
  c ← get;
  match streams c !! streamID with
  | Some p => s ← load p; store p (set_s_sendWindow (i32 (s_sendWindow s - i32 n)) s)
  | None => mret tt
  end.

Definition appendPending (streamID : Z) (data : bytes) (endStream : bool) : go unit :=
  modify (fun c => set_pending (pending c ++ [mkPending streamID data endStream]) c).

(** The splitting loop of [writeDataLocked]: returns the frames to write. *)
Fixpoint writeData_loop (fuel : nat) (max streamID : Z) (data : bytes) (endStream : bool)
    (buf : bytes) : go bytes :=
  match fuel with
  | O => panic
  | S fuel =>
      if zlen data =? 0 then mret buf
      else
        let n := if zlen data <? max then zlen data else max in
        avail ← avail_window streamID;
        if avail <=? 0 then appendPending streamID data endStream ;; mret buf
        else
          let n := if i32 n >? avail then avail else n in
          let last := n =? zlen data in
          let buf := AppendData buf streamID (upto n data) (last && endStream) in
          debit streamID n ;;
          writeData_loop fuel max streamID (from n data) endStream buf
  end.

Definition writeDataLocked (streamID : Z) (data : bytes) (endStream : bool) : go (option Error) :=
  c ← get;
  let max := peerMaxFrameSize c in
  if (zlen data <=? max) && (i32 (zlen data) <=? sendWindow c) then
    writeFrameLocked (AppendData [] streamID data endStream)
  else
    buf ← writeData_loop (fuel_for data) max streamID data endStream [];
    if 0 <? zlen buf then writeFrameLocked buf else mret None.

Definition WriteData (streamID : Z) (data : bytes) (endStream : bool) : go (option Error) :=
  writeDataLocked streamID data endStream.

Fixpoint flushPending_loop (fuel : nat) : go (option Error) :=
  match fuel with
  | O => panic
  | S fuel =>
      c ← get;
      match pending c with
      | [] => mret None
      | p :: rest =>
          avail ← avail_window (pd_streamID p);
          if avail <=? 0 then mret None
          else if i32 (zlen (pd_data p)) >? avail then
            let n := avail in
            debit (pd_streamID p) n ;;
            try writeFrameLocked (AppendData [] (pd_streamID p) (upto n (pd_data p)) false);
            modify (set_pending
              (mkPending (pd_streamID p) (from n (pd_data p)) (pd_endStream p) :: rest)) ;;
            mret None
          else
            debit (pd_streamID p) (zlen (pd_data p)) ;;
            let last := pd_endStream p && (zlen (pending c) =? 1) in
            try writeFrameLocked (AppendData [] (pd_streamID p) (pd_data p) last);
            modify (set_pending rest) ;;
            flushPending_loop fuel
      end
  end.

Definition flushPending : go (option Error) :=
  c ← get; flushPending_loop (fuel_for (pd_streamID <$> pending c)).

(** [MustData] splits by frame size only. *)
Fixpoint mustData_loop (fuel : nat) (max streamID : Z) (data : bytes) (endStream : bool)
    (buf : bytes) : option bytes :=
  match fuel with
  | O => None
  | S fuel =>
      if zlen data =? 0 then Some buf
      else
        let n := if zlen data <? max then zlen data else max in
        let last := n =? zlen data in
        mustData_loop fuel max streamID (from n data) endStream
          (AppendData buf streamID (upto n data) (last && endStream))
  end.

Definition MustData (streamID : Z) (data : bytes) (endStream : bool) : go bytes :=
  max ← gets peerMaxFrameSize;
  of_option (mustData_loop (fuel_for data) max streamID data endStream []).
End Ops.
Arguments StreamHandler {_} App.
