(* ===== verification/H2Recv.v ===== *)
(** * H2Recv

    The receiving side of [http2/conn.go]: [Feed], the dispatch of frames, one
    handler per frame type, the stream state checks and the two levels of
    errors.  The handler is a parameter; [None] is the nil interface. *)

From S2P Require Import Prelude Pump H2Frame H2Headers H2State.

Inductive frameKind : Type :=
  | frameKindHeaders
  | frameKindData
  | frameKindRSTStream
  | frameKindWindowUpdate
  | frameKindPriority
  | frameKindContinuation.

Definition kindName (k : frameKind) : string :=
  match k with
  | frameKindHeaders => "HEADERS"
  | frameKindData => "DATA"
  | frameKindRSTStream => "RST_STREAM"
  | frameKindWindowUpdate => "WINDOW_UPDATE"
  | frameKindPriority => "PRIORITY"
  | frameKindContinuation => "CONTINUATION"
  end.

(** The big-endian word at the front of a payload, with Go's bound checks. *)
Definition payload_u32 {S} (l : bytes) (i : Z) : M S Z :=
  a ← index l i; b ← index l (i + 1); c ← index l (i + 2); d ← index l (i + 3);
  mret (be32 a b c d).

(** The dependency field of a priority: the exclusive bit is masked off. *)
Definition payload_dep {S} (l : bytes) : M S Z :=
  a ← index l 0; b ← index l 1; c ← index l 2; d ← index l 3;
  mret (be32 (a .& 0x7f) b c d).

Section Recv.
Context `{Hpack} {App : Type} (handler : option (StreamHandler App)).
Notation Conn := (Conn App).
Notation go A := (M Conn A).

#[export] Instance conn_parser : HasFrameParser Conn :=
  { parser_of := parser; with_parser p c := set_parser p c; parser_of_with p c := eq_refl }.

(** Calls through the interface value; a nil handler is skipped. *)
Definition call_OnHeaders (id : Z) (fields : list HeaderField) (es : bool) : go unit :=
  match handler with Some h => OnHeaders h id fields es | None => mret tt end.
Definition call_OnData (id : Z) (data : bytes) (es : bool) : go unit :=
  match handler with Some h => OnData h id data es | None => mret tt end.
Definition call_OnRSTStream (id code : Z) : go unit :=
  match handler with Some h => OnRSTStream h id code | None => mret tt end.

(** ** SETTINGS, PING, GOAWAY, PRIORITY *)

Definition apply_setting (id val : Z) : go (option Error) :=
  if id =? 0x1 then
    modify (set_peerHeaderTable val) ;;
    modify (fun c => set_encoder (enc_SetMaxDynamicTableSize val (encoder c)) c) ;;
    mret None
  else if id =? 0x2 then
    if negb (val =? 0) && negb (val =? 1) then
      mret (Some (ErrWrap ErrBadFrameLength ("ENABLE_PUSH " +:+ fmt_d val)))
    else mret None
  else if id =? 0x3 then mret None
  else if id =? 0x4 then
    if val >? 2 ^ 31 - 1 then
      mret (Some (ErrWrap ErrBadFrameLength "INITIAL_WINDOW_SIZE too large"))
    else modify (set_peerInitialWindow val) ;; mret None
  else if id =? 0x5 then
    if (val <? defaultMaxFrameSize) || (val >? MaxFrameSize) then
      mret (Some (ErrWrap ErrBadFrameLength ("MAX_FRAME_SIZE " +:+ fmt_d val)))
    else modify (set_peerMaxFrameSize val) ;; mret None
  else mret None.

(** [for i := 0; i+6 <= len(f.Payload); i += 6]; the fuel is the length. *)
Fixpoint onSettings_loop (fuel : nat) (payload : bytes) (i : Z) : go (option Error) :=
  if zlen payload <? i + 6 then mret None
  else
    match fuel with
    | O => panic
    | S fuel =>
        let id := be16 (at_ payload i) (at_ payload (i + 1)) in
        let val := be32 (at_ payload (i + 2)) (at_ payload (i + 3))
                        (at_ payload (i + 4)) (at_ payload (i + 5)) in
        try apply_setting id val;
        onSettings_loop fuel payload (i + 6)
    end.

Definition onSettings (f : Frame) : go (option Error) :=
  if has (f_Flags f) FlagSettingsAck then mret None
  else
    try onSettings_loop (length (f_Payload f)) (f_Payload f) 0;
    writeFrame (AppendSettingsAck []).

(** [copy(data[:], f.Payload)] into eight zero bytes. *)
Definition ping_data (payload : bytes) : bytes :=
  upto 8 payload ++ replicate (8 - length (upto 8 payload)) 0.

Definition onPing (f : Frame) : go (option Error) :=
  if has (f_Flags f) FlagPingAck then mret None
  else writeFrame (AppendPing [] (ping_data (f_Payload f)) true).

Definition onGoAway (f : Frame) : go (option Error) :=
  modify (set_goAway true) ;;
  code ← payload_u32 (f_Payload f) 4;
  modify (set_goAwayCode code) ;;
  modify (set_state stateClosed) ;;
  mret None.

Definition onPriority (f : Frame) : go (option Error) :=
  if negb (zlen (f_Payload f) =? 5) then
    mret (Some (ConnError ErrCodeFrameSize
      ("PRIORITY payload " +:+ fmt_d (zlen (f_Payload f)) +:+ " != 5")))
  else
    dep ← payload_dep (f_Payload f);
    if dep =? f_StreamID f then
      mret (Some (StreamError (f_StreamID f) ErrCodeProtocol "stream depends on itself"))
    else mret None.

(** ** Stream states *)

Definition note_peer_stream (id : Z) : go (option Error) :=
  modify (fun c => if id >? maxPeerStreamID c then set_maxPeerStreamID id c else c) ;; mret None.

Definition checkStreamRecv (streamID : Z) (kind : frameKind) : go (option Error) :=
  c ← get;
  match streams c !! streamID with
  | None =>
      match kind with
      | frameKindHeaders =>
          if isClient c && (streamID mod 2 =? 1) then
            mret (Some (ConnError ErrCodeProtocol
              ("stream " +:+ fmt_d streamID +:+ ": server must not open odd streams")))
          else if negb (isClient c) && (streamID mod 2 =? 0) then
            mret (Some (ConnError ErrCodeProtocol
              ("stream " +:+ fmt_d streamID +:+ ": client must not open even streams")))
          else if streamID <=? maxPeerStreamID c then
            mret (Some (ConnError ErrCodeProtocol
              ("stream " +:+ fmt_d streamID +:+ " is not greater than the last one (" +:+
               fmt_d (maxPeerStreamID c) +:+ ")")))
          else modify (set_maxPeerStreamID streamID) ;; mret None
      | frameKindPriority => mret None
      | frameKindWindowUpdate | frameKindRSTStream =>
          mret (Some (ConnError ErrCodeProtocol
            ("stream " +:+ fmt_d streamID +:+ ": " +:+ kindName kind +:+ " on idle stream")))
      | frameKindData =>
          mret (Some (ConnError ErrCodeProtocol
            ("stream " +:+ fmt_d streamID +:+ ": DATA on idle stream")))
      | frameKindContinuation =>
          mret (Some (ConnError ErrCodeProtocol
            ("stream " +:+ fmt_d streamID +:+ ": CONTINUATION with nothing pending")))
      end
  | Some p =>
      s ← load p;
      match s_state s, kind with
      | StreamHalfClosedRemote, (frameKindData | frameKindHeaders)
      | StreamClosed, (frameKindData | frameKindHeaders) =>
          mret (Some (StreamError streamID ErrCodeStreamClosed
            (kindName kind +:+ " on half-closed(remote)/closed stream")))
      | StreamHalfClosedLocal, frameKindHeaders =>
          mret (Some (StreamError streamID ErrCodeStreamClosed
            "HEADERS on half-closed(local) stream"))
      | _, _ => note_peer_stream streamID
      end
  end.

Definition applyRecvEndStream (p : positive) (endStream : bool) : go unit :=
  if negb endStream then mret tt
  else
    s ← load p;
    store p (set_s_remoteEnded true s) ;;
    s ← load p;
    match s_state s with
    | StreamOpen => store p (set_s_state StreamHalfClosedRemote s)
    | StreamHalfClosedLocal =>
        store p (set_s_state StreamClosed s) ;; forgetStream (s_ID s)
    | _ => mret tt
    end.

Definition forgetIfClosed (p : positive) : go unit :=
  s ← load p;
  if bool_decide (s_state s = StreamClosed) then forgetStream (s_ID s) else mret tt.

Definition checkContentLength (p : positive) : go (option Error) :=
  s ← load p;
  if s_expectContentLength s <? 0 then mret None
  else if negb (s_recvBodyLen s =? s_expectContentLength s) then
    mret (Some (StreamError (s_ID s) ErrCodeProtocol
      ("content-length mismatch: declared " +:+ fmt_d (s_expectContentLength s) +:+
       ", got " +:+ fmt_d (s_recvBodyLen s))))
  else mret None.

(** ** WINDOW_UPDATE *)

Definition onConnWindowUpdate (f : Frame) : go (option Error) :=
  inc ← payload_u32 (f_Payload f) 0;
  if inc =? 0 then
    mret (Some (ErrWrap ErrBadFrameLength "connection WINDOW_UPDATE increment 0"))
  else
    c ← get;
    if sendWindow c >? i32 (2 ^ 31 - 1 - i32 inc) then
      mret (Some (ConnError ErrCodeFlowControl
        ("connection window overflow: " +:+ fmt_d (sendWindow c) +:+ " + " +:+ fmt_d inc)))
    else
      modify (fun c => set_sendWindow (i32 (sendWindow c + i32 inc)) c) ;;
      flushPending.

Definition onStreamWindowUpdate (f : Frame) : go (option Error) :=
  try checkStreamRecv (f_StreamID f) frameKindWindowUpdate;
  inc ← payload_u32 (f_Payload f) 0;
  if inc =? 0 then
    mret (Some (ConnError ErrCodeProtocol
      ("WINDOW_UPDATE increment 0 on stream " +:+ fmt_d (f_StreamID f))))
  else
    o ← GetStream (f_StreamID f);
    match o with
    | None => mret None
    | Some p =>
        s ← load p;
        if s_sendWindow s >? i32 (2 ^ 31 - 1 - i32 inc) then
          mret (Some (StreamError (f_StreamID f) ErrCodeFlowControl
            ("stream window overflow: " +:+ fmt_d (s_sendWindow s) +:+ " + " +:+ fmt_d inc)))
        else
          store p (set_s_sendWindow (i32 (s_sendWindow s + i32 inc)) s) ;;
          flushPending
    end.

(** ** HEADERS and CONTINUATION *)

Definition finishHeaders (streamID : Z) (block : bytes) (endStream : bool) : go (option Error) :=
  r ← Decode block;
  match r with
  | inr e => mret (Some (ConnError ErrCodeCompression ("HPACK decode: " +:+ e)))
  | inl fields =>
      try checkStreamRecv streamID frameKindHeaders;
      p ← stream streamID;
      client ← gets isClient;
      let herr := if (client : bool) then errMsg (validateHeaderSyntax fields)
                  else snd (validateRequestHeaders fields) in
      if negb (streq herr "") then mret (Some (StreamError streamID ErrCodeProtocol herr))
      else
        s ← load p;
        store p (set_s_headers fields s) ;;
        try (if client then mret None
             else
               let '(cl, ok, verr) := contentLengthOf fields in
               if negb (streq verr "") then
                 mret (Some (StreamError streamID ErrCodeProtocol verr))
               else
                 s ← load p;
                 store p (set_s_expectContentLength (if (ok : bool) then cl else -1) s) ;;
                 mret None);
        s ← load p;
        call_OnHeaders streamID (s_headers s) endStream ;;
        applyRecvEndStream p endStream ;;
        try (if endStream && negb client then checkContentLength p else mret None);
        forgetIfClosed p ;;
        mret None
  end.

(** Removing the padding: the pad length byte and the trailing pad. *)
Definition unpad (name : string) (flags : Z) (payload : bytes) : bytes + Error :=
  if has flags FlagHeadersPadded then
    match payload with
    | [] => inr (ErrWrap ErrBadFrameLength (name +:+ " padded without pad length"))
    | padLen :: payload =>
        if padLen >? zlen payload then
          inr (ErrWrap ErrBadFrameLength
                 (name +:+ " pad " +:+ fmt_d padLen +:+ " > " +:+ fmt_d (zlen payload)))
        else inl (upto (zlen payload - padLen) payload)
    end
  else inl payload.

Definition onHeaders (f : Frame) : go (option Error) :=
  match unpad "HEADERS" (f_Flags f) (f_Payload f) with
  | inr e => mret (Some e)
  | inl payload =>
      let k payload : go (option Error) :=
        let endStream := has (f_Flags f) FlagHeadersEndStream in
        if negb (EndHeaders f) then
          modify (set_pendingHeaders (mkPendingHeaders (f_StreamID f) payload endStream true)) ;;
          mret None
        else finishHeaders (f_StreamID f) payload endStream in
      if has (f_Flags f) FlagHeadersPriority then
        if zlen payload <? 5 then
          mret (Some (ConnError ErrCodeFrameSize
            ("HEADERS priority too short: " +:+ fmt_d (zlen payload))))
        else
          dep ← payload_dep payload;
          if dep =? f_StreamID f then
            mret (Some (StreamError (f_StreamID f) ErrCodeProtocol "stream depends on itself"))
          else k (from 5 payload)
      else k payload
  end.

Definition onContinuation (f : Frame) : go (option Error) :=
  ph ← gets pendingHeaders;
  if negb (ph_active ph) || negb (ph_streamID ph =? f_StreamID f) then
    mret (Some (ErrWrap ErrUnexpectedFrame
      ("CONTINUATION on stream " +:+ fmt_d (f_StreamID f) +:+ " with nothing pending")))
  else
    let ph := mkPendingHeaders (ph_streamID ph) (ph_block ph ++ f_Payload f)
                (ph_endStream ph) (ph_active ph) in
    modify (set_pendingHeaders ph) ;;
    if negb (EndHeaders f) then mret None
    else
      modify (set_pendingHeaders
        (mkPendingHeaders (ph_streamID ph) (ph_block ph) (ph_endStream ph) false)) ;;
      finishHeaders (f_StreamID f) (ph_block ph) (ph_endStream ph).

(** ** DATA and RST_STREAM *)

Definition giveRecvWindow (streamID n : Z) : go (option Error) :=
  modify (fun c => set_recvWindow (i32 (recvWindow c - n)) c) ;;
  c ← get;
  if recvWindow c <? 0 then mret (Some (ErrWrap ErrFlowControl "connection window exceeded"))
  else
    o ← GetStream streamID;
    try match o with
        | Some p =>
            s ← load p;
            store p (set_s_recvWindow (i32 (s_recvWindow s - n)) s) ;;
            s ← load p;
            if s_recvWindow s <? 0 then
              mret (Some (ErrWrap ErrFlowControl
                ("stream " +:+ fmt_d streamID +:+ " window exceeded")))
            else mret None
        | None => mret None
        end;
    if n <=? 0 then mret None
    else
      writeFrameLocked (AppendWindowUpdate [] 0 (u32 n)) ;;
      modify (fun c => set_recvWindow (i32 (recvWindow c + n)) c) ;;
      match o with
      | Some p =>
          writeFrameLocked (AppendWindowUpdate [] streamID (u32 n)) ;;
          s ← load p;
          store p (set_s_recvWindow (i32 (s_recvWindow s + n)) s) ;;
          mret None
      | None => mret None
      end.

Definition onData (f : Frame) : go (option Error) :=
  match unpad "DATA" (f_Flags f) (f_Payload f) with
  | inr e => mret (Some e)
  | inl payload =>
      try checkStreamRecv (f_StreamID f) frameKindData;
      o ← GetStream (f_StreamID f);
      match o with
      | None =>
          mret (Some (ConnError ErrCodeProtocol
            ("DATA on stream " +:+ fmt_d (f_StreamID f) +:+ " that is not open")))
      | Some p =>
          let endStream := has (f_Flags f) FlagDataEndStream in
          try giveRecvWindow (f_StreamID f) (i32 (zlen (f_Payload f)));
          s ← load p;
          store p (set_s_recvBodyLen (i64 (s_recvBodyLen s + zlen payload)) s) ;;
          (if 0 <? zlen payload then call_OnData (f_StreamID f) payload endStream else mret tt) ;;
          client ← gets isClient;
          try (if endStream && negb client then checkContentLength p else mret None);
          applyRecvEndStream p endStream ;;
          forgetIfClosed p ;;
          mret None
      end
  end.

Definition onRSTStream (f : Frame) : go (option Error) :=
  try checkStreamRecv (f_StreamID f) frameKindRSTStream;
  code ← payload_u32 (f_Payload f) 0;
  call_OnRSTStream (f_StreamID f) code ;;
  forgetStream (f_StreamID f) ;;
  mret None.

(** ** Dispatch *)

Definition onFrame (f : Frame) : go (option Error) :=
  let t := f_Type f in
  let on_stream : go (option Error) :=
    if f_StreamID f =? 0 then
      mret (Some (ConnError ErrCodeProtocol (FrameType_String t +:+ " on stream 0")))
    else
      modify (fun c => if f_StreamID f >? lastStreamID c
                       then set_lastStreamID (f_StreamID f) c else c) ;;
      if t =? FrameHeaders then onHeaders f
      else if t =? FrameContinuation then onContinuation f
      else if t =? FrameData then onData f
      else if t =? FrameRSTStream then onRSTStream f
      else if t =? FrameWindowUpdate then onStreamWindowUpdate f
      else mret None in
  if t =? FrameSettings then onSettings f
  else if t =? FramePing then onPing f
  else if t =? FrameGoAway then onGoAway f
  else if t =? FrameWindowUpdate then
    if f_StreamID f =? 0 then onConnWindowUpdate f else on_stream
  else if t =? FramePriority then onPriority f
  else if t =? FramePushPromise then
    mret (Some (ConnError ErrCodeProtocol "PUSH_PROMISE not supported"))
  else if (t =? FrameHeaders) || (t =? FrameData) || (t =? FrameRSTStream)
          || (t =? FrameContinuation) then on_stream
  else mret None.

Definition handleError (err : option Error) : go bytes :=
  match err with
  | None => mret []
  | Some e =>
      match asStreamError e with
      | Some (id, code, _) =>
          writeFrame (AppendRSTStream [] id code) ;;
          forgetStream id ;;
          takeOutput
      | None => let '(code, msg) := asConnError e in sendGoAway code msg
      end
  end.

Definition Feed (data : bytes) : go (Z * bytes * option Error) :=
  c ← get;
  if bool_decide (state c = statePreface) then
    modify (fun c => set_prefaceBuf (prefaceBuf c ++ data) c) ;;
    let consumed := zlen data in
    pb ← gets prefaceBuf;
    if zlen pb <? zlen clientPreface then mret (consumed, [], None)
    else if negb (bool_decide (upto (zlen clientPreface) pb = clientPreface)) then
      mret (consumed, [], Some (ErrWrap ErrBadFrameHeader "bad client preface"))
    else
      let rest := from (zlen clientPreface) pb in
      modify (set_prefaceBuf []) ;;
      modify (set_state stateSettings) ;;
      (if 0 <? zlen rest then Parse onFrame rest ;; mret tt else mret tt) ;;
      out ← takeOutput;
      mret (consumed, out, None)
  else
    r ← Parse onFrame data;
    let '(n, err) := r in
    let consumed := if n >? zlen data then zlen data else n in
    match err with
    | Some e => out ← handleError (Some e); mret (consumed, out, Some e)
    | None => out ← takeOutput; mret (consumed, out, None)
    end.
End Recv.
