(* ===== verification/H2Safe.v ===== *)
(** * H2Safe

    The invariant of an HTTP/2 connection and the contract between the
    connection and its stream handler.

    [Inv] says that the stream table points to live [Stream] objects, that
    windows are in the range of [int32] and frame sizes in the range of the
    protocol.  [handler_step] is what using the connection's public methods may
    change; [HandlerOk] asks a handler for no more than that.  The sending
    methods are proved to satisfy it, so any handler written with them does. *)

From S2P Require Import Prelude Pump H2Frame H2Headers H2State H2Recv.

Definition in_int32 (x : Z) : Prop := - 2 ^ 31 <= x < 2 ^ 31.

(** A receive window that one frame of the default size cannot exhaust. *)
Definition good_window (x : Z) : Prop := defaultMaxFrameSize <= x < 2 ^ 31.

(** The receiving side of a stream. *)
Definition recv_view (s : Stream) : Z * StreamState * bool * Z * Z * Z :=
  (s_ID s, s_state s, s_remoteEnded s, s_recvWindow s, s_expectContentLength s, s_recvBodyLen s).

Definition stream_ok (s : Stream) : Prop :=
  (s_state s = StreamOpen \/ s_state s = StreamHalfClosedRemote) /\
  in_int32 (s_sendWindow s) /\ good_window (s_recvWindow s).

(** What the handler wants to be true of its own state. *)
Class AppInv (App : Type) : Type := app_ok : App -> Prop.

Section Inv.
Context `{Hpack} {App : Type} `{!AppInv App}.
Notation Conn := (Conn App).
Notation go A := (M Conn A).

Record Inv (c : Conn) : Prop := {
  inv_ptr id p : streams c !! id = Some p -> exists s, heap c !! p = Some s /\ s_ID s = id;
  inv_fresh p s : heap c !! p = Some s -> (p < nextPtr c)%positive;
  inv_stream p s : heap c !! p = Some s -> stream_ok s;
  inv_frame : defaultMaxFrameSize <= peerMaxFrameSize c <= MaxFrameSize;
  inv_parser : p_maxFrameSize (parser c) = defaultMaxFrameSize;
  inv_send : in_int32 (sendWindow c);
  inv_recv : good_window (recvWindow c);
  inv_local : good_window (localInitialWindow c);
  inv_app : app_ok (app c);
}.

(** What the handler may do to the connection. *)
Record handler_step (c c' : Conn) : Prop := {
  hs_parser : parser c' = parser c;
  hs_recvWindow : recvWindow c' = recvWindow c;
  hs_local : localInitialWindow c' = localInitialWindow c;
  hs_maxPeer : maxPeerStreamID c' = maxPeerStreamID c;
  hs_last : lastStreamID c' = lastStreamID c;
  hs_client : isClient c' = isClient c;
  hs_pendingHeaders : pendingHeaders c' = pendingHeaders c;
  hs_state : state c' = state c;
  hs_heap p s : heap c !! p = Some s ->
    exists s', heap c' !! p = Some s' /\ recv_view s' = recv_view s;
}.

(** The contract of a stream handler. *)
Class HandlerOk (handler : option (StreamHandler App)) : Prop := {
  ho_headers id fs es c : Inv c ->
    wp (call_OnHeaders handler id fs es) (fun _ c' => Inv c' /\ handler_step c c') c;
  ho_data id d es c : bytes_ok d -> Inv c ->
    wp (call_OnData handler id d es) (fun _ c' => Inv c' /\ handler_step c c') c;
  ho_rst id code c : Inv c ->
    wp (call_OnRSTStream handler id code) (fun _ c' => Inv c' /\ handler_step c c') c;
  ho_keeps_headers id fs es : keeps parser (call_OnHeaders handler id fs es);
  ho_keeps_data id d es : keeps parser (call_OnData handler id d es);
  ho_keeps_rst id code : keeps parser (call_OnRSTStream handler id code);
}.

(** An operation the handler may use. *)
Definition safe {A} (m : go A) : Prop :=
  forall c, Inv c -> wp m (fun _ c' => Inv c' /\ handler_step c c') c.

(** ** Composition *)

#[export] Instance handler_step_preorder : PreOrder handler_step.
Proof.
  split.
  - intros c. split; eauto.
  - intros c1 c2 c3 [] []. split; try congruence.
    intros p s Hs. destruct (hs_heap0 p s Hs) as (s' & Hs' & Hv).
    destruct (hs_heap1 p s' Hs') as (s'' & ? & ?). exists s''. split; congruence.
Qed.

Lemma safe_ret {A} (a : A) : safe (mret a).
Proof. intros c Hc. by apply wp_ret. Qed.

Lemma safe_bind {A B} (m : go A) (k : A -> go B) :
  safe m -> (forall a, safe (k a)) -> safe (m ≫= k).
Proof.
  intros Hm Hk c Hc. apply wp_bind. eapply wp_mono; [by apply Hm|].
  intros a c1 [H1 Hs1]. eapply wp_mono; [by apply Hk|].
  intros b c2 [H2 Hs2]. split; [done|by transitivity c1].
Qed.

Lemma safe_check {E} (m k : go (option E)) : safe m -> safe k -> safe (check m k).
Proof. intros Hm Hk. apply safe_bind; [done|]. intros [e|]; [apply safe_ret|done]. Qed.

Lemma safe_get_bind {A} (k : Conn -> go A) :
  (forall c, Inv c -> wp (k c) (fun _ c' => Inv c' /\ handler_step c c') c) ->
  safe (get ≫= k).
Proof. intros Hk c Hc. apply wp_bind, wp_get. by apply Hk. Qed.

Lemma safe_gets {A} (f : Conn -> A) : safe (gets f).
Proof. intros c Hc. by apply wp_gets. Qed.

(** An update that touches nothing the invariant or the step speaks of. *)
Lemma safe_modify (g : Conn -> Conn) :
  (forall c, Inv c -> Inv (g c) /\ handler_step c (g c)) -> safe (modify g).
Proof. intros Hg c Hc. apply wp_modify. by apply Hg. Qed.

End Inv.

Ltac inv_frame_tac :=
  let Hc := fresh in intros ? Hc; destruct Hc; (split; [split; cbn; eauto|split; cbn; eauto]).

Section SendSafe.
Context `{Hpack} {App : Type} `{!AppInv App}.
Notation Conn := (Conn App).
Notation go A := (M Conn A).

Lemma wp_load (p : positive) s Q (c : Conn) :
  heap c !! p = Some s -> Q s c -> wp (load p) Q c.
Proof. intros Hp HQ. unfold load. wp_steps. by eapply wp_of_option. Qed.

Lemma wp_store (p : positive) s0 s Q (c : Conn) :
  heap c !! p = Some s0 -> Q tt (set_heap (<[p := s]> (heap c)) c) -> wp (store p s) Q c.
Proof.
  intros Hp HQ. unfold store. wp_step. eapply wp_load; [done|]. by wp_steps.
Qed.

(** Replacing a live stream by one with the same receiving side. *)
Lemma put_inv p s0 s (c : Conn) :
  Inv c -> heap c !! p = Some s0 -> s_ID s = s_ID s0 -> stream_ok s ->
  Inv (set_heap (<[p := s]> (heap c)) c).
Proof.
  intros [] Hp Hid Hok. split; cbn; try done.
  - intros id q Hq. destruct (inv_ptr0 id q Hq) as (t & Ht & Hti).
    destruct (decide (p = q)) as [->|Hne].
    + exists s. rewrite lookup_insert_eq. split; [done|congruence].
    + exists t. by rewrite lookup_insert_ne.
  - intros q t. rewrite lookup_insert. case_decide; [intros _; subst; eauto|eauto].
  - intros q t. rewrite lookup_insert. case_decide; [by intros [= <-]|eauto].
Qed.

Lemma put_step p s0 s (c : Conn) :
  heap c !! p = Some s0 -> recv_view s = recv_view s0 ->
  handler_step c (set_heap (<[p := s]> (heap c)) c).
Proof.
  intros Hp Hv. split; cbn; try done. intros q t Hq. rewrite lookup_insert.
  case_decide; [subst; exists s; split; [done|congruence]|eauto].
Qed.

Lemma new_stream_ok id (c : Conn) : Inv c -> stream_ok (new_stream id c).
Proof.
  intros []. split; [by left|]. split; [apply i32_range|done].
Qed.

Lemma wp_stream id (c : Conn) :
  Inv c ->
  wp (stream id) (fun p c' => Inv c' /\ handler_step c c' /\
    streams c' !! id = Some p /\
    match streams c !! id with
    | Some _ => c' = c
    | None => heap c' !! p = Some (new_stream id c)
    end) c.
Proof.
  intros Hc. unfold stream. wp_steps. destruct (streams c !! id) as [p|] eqn:Hp; [by wp_steps|].
  wp_steps. cbn. pose proof (new_stream_ok id c Hc) as Hok. destruct Hc.
  assert (heap c !! nextPtr c = None) as Hf.
  { destruct (heap c !! nextPtr c) as [s|] eqn:E; [|done]. apply inv_fresh0 in E. lia. }
  split; [|split; [|split]]; cbn; try by rewrite lookup_insert_eq.
  - split; cbn; try done.
    + intros i q. rewrite lookup_insert. case_decide.
      * intros [= <-]. subst. exists (new_stream i c). by rewrite lookup_insert_eq.
      * intros Hq. destruct (inv_ptr0 i q Hq) as (s & Hs & ?). exists s.
        rewrite lookup_insert_ne by congruence. done.
    + intros q s. rewrite lookup_insert. case_decide; [lia|].
      intros Hs%inv_fresh0. lia.
    + intros q s. rewrite lookup_insert. case_decide; [by intros [= <-]|eauto].
  - split; cbn; try done. intros q s Hq. exists s.
    rewrite lookup_insert_ne by congruence. done.
Qed.

Lemma safe_stream id : safe (App := App) (stream id).
Proof. intros c Hc. eapply wp_mono; [by apply wp_stream|]. naive_solver. Qed.

Lemma safe_writeFrame b : safe (App := App) (writeFrame b).
Proof. apply safe_bind; [|intros; apply safe_ret]. apply safe_modify. inv_frame_tac. Qed.

Lemma safe_WriteRaw b : safe (App := App) (WriteRaw b).
Proof. apply safe_modify. inv_frame_tac. Qed.

Lemma safe_takeOutput : safe (App := App) takeOutput.
Proof.
  apply safe_get_bind. intros c Hc. destruct (_ =? 0); [by wp_steps|].
  apply safe_bind; [|intros; apply safe_ret|done]. apply safe_modify. inv_frame_tac.
Qed.

Lemma safe_forgetStream id : safe (App := App) (forgetStream id).
Proof.
  apply safe_modify. intros c []. split; [|split; cbn; eauto].
  split; cbn; eauto. intros i p Hi. apply inv_ptr0. by eapply lookup_delete_Some in Hi as [_ Hi].
Qed.

Lemma safe_Encode fs : safe (App := App) (Encode fs).
Proof.
  apply safe_get_bind. intros c Hc. destruct (Encode_fields _ _ _) as [st r].
  apply safe_bind; [|intros; apply safe_ret|done]. apply safe_modify. inv_frame_tac.
Qed.

Lemma safe_NewStreamID : safe (App := App) NewStreamID.
Proof.
  apply safe_bind; [apply safe_gets|intros id].
  apply safe_bind; [apply safe_modify; inv_frame_tac|intros _].
  apply safe_bind; [apply safe_stream|intros _; apply safe_ret].
Qed.
End SendSafe.

(** ** The sending methods are safe *)

Section SendSafe2.
Context `{Hpack} {App : Type} `{!AppInv App}.
Notation Conn := (Conn App).
Notation go A := (M Conn A).

Lemma continuation_frames_total fuel max id : forall block buf,
  0 < max -> (length block < fuel)%nat ->
  is_Some (continuation_frames fuel max id block buf).
Proof.
  induction fuel as [|fuel IH]; intros block buf Hm Hf; [lia|]. cbn.
  destruct (Z.eqb_spec (zlen block) 0); [by eexists|].
  apply IH; [done|]. unfold from, zlen in *. rewrite length_drop. destruct (_ <? max) eqn:?; lia.
Qed.

Lemma safe_of_option {A} (o : option A) : is_Some o -> safe (App := App) (of_option o).
Proof. intros [a ->]. apply safe_ret. Qed.

Lemma safe_gets_bind {A B} (f : Conn -> A) (k : A -> go B) :
  (forall c, Inv c -> wp (k (f c)) (fun _ c' => Inv c' /\ handler_step c c') c) ->
  safe (gets f ≫= k).
Proof. intros Hk c Hc. apply wp_bind, wp_gets. by apply Hk. Qed.

Lemma safe_writeHeaderBlock id block es : safe (App := App) (writeHeaderBlock id block es).
Proof.
  apply safe_gets_bind. intros c Hc. pose proof (inv_frame c Hc) as Hm.
  unfold defaultMaxFrameSize in Hm. destruct (_ <=? _); [by apply safe_writeFrame|].
  apply safe_bind; [|intros; apply safe_writeFrame|done].
  apply safe_of_option, continuation_frames_total; [lia|unfold fuel_for; lia].
Qed.

Lemma safe_WriteHeaders id fs es : safe (App := App) (WriteHeaders id fs es).
Proof.
  apply safe_bind; [apply safe_Encode|]. intros [block|e]; [|apply safe_ret].
  apply safe_bind; [apply safe_stream|]. intros _. apply safe_writeHeaderBlock.
Qed.

Lemma safe_WriteTrailers id fs : safe (App := App) (WriteTrailers id fs).
Proof.
  apply safe_bind; [apply safe_Encode|]. intros [block|e]; [|apply safe_ret].
  apply safe_bind; [apply safe_gets|]. intros max.
  destruct (_ <=? _); [apply safe_writeFrame|apply safe_writeHeaderBlock].
Qed.

(** The window offered to a stream, and its bound. *)
Lemma wp_avail_window id (c : Conn) :
  Inv c -> wp (avail_window id) (fun a c' => c' = c /\ a <= sendWindow c) c.
Proof.
  intros Hc. unfold avail_window. wp_steps.
  destruct (streams c !! id) as [p|] eqn:Hp; [|wp_steps; split; [done|lia]].
  destruct (inv_ptr c Hc id p Hp) as (s & Hs & _). wp_steps.
  eapply wp_load; [done|]. wp_steps. split; [done|]. destruct (_ <? _) eqn:?; lia.
Qed.

Lemma safe_debit id n : safe (App := App) (debit id n).
Proof.
  apply safe_bind; [|intros _; apply safe_get_bind].
  - apply safe_modify. intros c Hc. pose proof (i32_range (sendWindow c - i32 n)).
    revert c Hc H0. inv_frame_tac.
  - intros c Hc. destruct (streams c !! id) as [p|] eqn:Hp; [|by wp_steps].
    destruct (inv_ptr c Hc id p Hp) as (s & Hs & _). wp_steps. eapply wp_load; [done|].
    eapply wp_store; [done|]. pose proof (inv_stream c Hc p s Hs) as (? & ? & ?).
    split; [|by eapply put_step].
    eapply put_inv; [done..|]. split; [done|]. split; [apply i32_range|done].
Qed.

Lemma safe_appendPending id d es : safe (App := App) (appendPending id d es).
Proof. apply safe_modify. inv_frame_tac. Qed.

Lemma safe_writeData_loop fuel max id es : forall data buf,
  0 < max <= MaxFrameSize -> (length data < fuel)%nat ->
  safe (App := App) (writeData_loop fuel max id data es buf).
Proof.
  unfold MaxFrameSize.
  induction fuel as [|fuel IH]; intros data buf Hm Hf; [lia|]. cbn.
  destruct (Z.eqb_spec (zlen data) 0); [apply safe_ret|]. pose proof (zlen_nonneg data).
  intros c Hc. apply wp_bind. eapply wp_mono; [by apply wp_avail_window|].
  intros a c' [-> Ha]. destruct (Z.leb_spec a 0).
  - apply safe_bind; [apply safe_appendPending|intros; apply safe_ret|done].
  - apply safe_bind; [apply safe_debit|intros _; apply IH; [done|]|done].
    unfold from, zlen in *. rewrite length_drop.
    assert (forall x, 0 < x < 2 ^ 31 -> i32 x = x) as Hi by (intros; apply i32_small; lia).
    destruct (_ <? max) eqn:?; rewrite ?Hi by lia;
      repeat match goal with |- context [if ?b then _ else _] => destruct b eqn:? end; lia.
Qed.

Lemma safe_writeDataLocked id data es : safe (App := App) (writeDataLocked id data es).
Proof.
  apply safe_get_bind. intros c Hc. pose proof (inv_frame c Hc) as Hm.
  unfold defaultMaxFrameSize in Hm. cbv beta zeta. branch Hfast; [by apply safe_writeFrame|].
  apply safe_bind; [apply safe_writeData_loop; [lia|unfold fuel_for; lia]| |done].
  intros buf. destruct (0 <? _); [apply safe_writeFrame|apply safe_ret].
Qed.

Lemma safe_WriteData id data es : safe (App := App) (WriteData id data es).
Proof. apply safe_writeDataLocked. Qed.

Lemma wp_debit_pending id n (c : Conn) :
  Inv c -> wp (debit id n) (fun _ c' => Inv c' /\ handler_step c c' /\
                                        pending c' = pending c) c.
Proof.
  assert (keeps (B := list pendingData) pending (debit (App := App) id n)) as Hk.
  { unfold debit, store, load. keeps. }
  intros Hc. eapply wp_mono.
  - eapply (wp_post _ _ (fun _ c' => pending c' = pending c)); [by apply safe_debit|].
    intros a s' Hs. by apply Hk in Hs.
  - naive_solver.
Qed.

Lemma safe_flushPending_loop fuel : forall c : Conn,
  Inv c -> (length (pending c) < fuel)%nat ->
  wp (flushPending_loop fuel) (fun _ c' => Inv c' /\ handler_step c c') c.
Proof.
  induction fuel as [|fuel IH]; intros c Hc Hf; [lia|]. cbn. wp_step. wp_step.
  destruct (pending c) as [|p rest] eqn:Hp; [by wp_steps|].
  apply wp_bind. eapply wp_mono; [by apply wp_avail_window|]. intros a c' [-> Ha].
  destruct (a <=? 0); [by wp_steps|]. destruct (_ >? a).
  - apply safe_bind; [apply safe_debit|intros _|done].
    apply safe_check; [apply safe_writeFrame|].
    apply safe_bind; [apply safe_modify; inv_frame_tac|intros; apply safe_ret].
  - apply wp_bind. eapply wp_mono; [by apply wp_debit_pending|].
    intros _ c1 (H1 & Hs1 & Hp1). unfold writeFrameLocked. wp_steps.
    eapply wp_mono; [apply IH|].
    + destruct H1. split; cbn; eauto.
    + cbn in *. lia.
    + intros e c2 [H2 Hs2]. split; [done|]. transitivity c1; [done|].
      etransitivity; [|exact Hs2]. split; cbn; eauto.
Qed.

Lemma safe_flushPending : safe (App := App) flushPending.
Proof.
  apply safe_get_bind. intros c Hc. apply safe_flushPending_loop; [done|].
  unfold fuel_for. rewrite length_fmap. lia.
Qed.

(** None of them touches the frame parser or the handler's state. *)
Definition hidden (c : Conn) : FrameParser * App := (parser c, app c).

Lemma keeps_hidden_parser {A} (m : go A) : keeps hidden m -> keeps parser m.
Proof. intros Hm s a s' Hs. pose proof (Hm _ _ _ Hs) as E. by inversion E. Qed.
Lemma keeps_hidden_app {A} (m : go A) : keeps hidden m -> keeps (B := App) app m.
Proof. intros Hm s a s' Hs. pose proof (Hm _ _ _ Hs) as E. by inversion E. Qed.

Lemma keeps_stream id : keeps hidden (stream (App := App) id).
Proof. unfold stream. keeps. Qed.
Lemma keeps_load p : keeps hidden (load (App := App) p).
Proof. unfold load. keeps. Qed.
Lemma keeps_store p s : keeps hidden (store (App := App) p s).
Proof. unfold store, load. keeps. Qed.
Lemma keeps_writeFrame b : keeps hidden (writeFrame (App := App) b).
Proof. unfold writeFrame, writeFrameLocked. keeps. Qed.
Lemma keeps_writeFrameLocked b : keeps hidden (writeFrameLocked (App := App) b).
Proof. apply keeps_writeFrame. Qed.
Lemma keeps_Encode fs : keeps hidden (Encode (App := App) fs).
Proof. unfold Encode. keeps. Qed.
Lemma keeps_Decode b : keeps hidden (Decode (App := App) b).
Proof. unfold Decode. keeps. Qed.
Lemma keeps_takeOutput : keeps hidden (takeOutput (App := App)).
Proof. unfold takeOutput. keeps. Qed.
Lemma keeps_forgetStream id : keeps hidden (forgetStream (App := App) id).
Proof. unfold forgetStream. keeps. Qed.
Lemma keeps_GetStream id : keeps hidden (GetStream (App := App) id).
Proof. unfold GetStream. keeps. Qed.
#[local] Hint Resolve keeps_stream keeps_load keeps_store keeps_writeFrame
  keeps_writeFrameLocked keeps_Encode keeps_Decode keeps_takeOutput
  keeps_forgetStream keeps_GetStream : keeps.

Lemma keeps_avail_window id : keeps hidden (avail_window (App := App) id).
Proof. unfold avail_window. keeps. Qed.
Lemma keeps_debit id n : keeps hidden (debit (App := App) id n).
Proof. unfold debit. keeps. Qed.
Lemma keeps_writeHeaderBlock id b es : keeps hidden (writeHeaderBlock (App := App) id b es).
Proof. unfold writeHeaderBlock. keeps. Qed.
#[local] Hint Resolve keeps_avail_window keeps_debit keeps_writeHeaderBlock : keeps.
Lemma keeps_WriteHeaders id fs es : keeps hidden (WriteHeaders (App := App) id fs es).
Proof. unfold WriteHeaders. keeps. Qed.
Lemma keeps_WriteTrailers id fs : keeps hidden (WriteTrailers (App := App) id fs).
Proof. unfold WriteTrailers. keeps. Qed.
Lemma keeps_writeData_loop fuel max id es : forall data buf,
  keeps hidden (writeData_loop (App := App) fuel max id data es buf).
Proof.
  induction fuel as [|fuel IH]; intros data buf; cbn; [apply keeps_panic|].
  unfold appendPending. keeps.
Qed.
#[local] Hint Resolve keeps_WriteHeaders keeps_WriteTrailers keeps_writeData_loop : keeps.
Lemma keeps_WriteData id d es : keeps hidden (WriteData (App := App) id d es).
Proof. unfold WriteData, writeDataLocked. keeps. Qed.
Lemma keeps_flushPending_loop fuel : keeps hidden (flushPending_loop (App := App) fuel).
Proof. induction fuel as [|fuel IH]; cbn; [apply keeps_panic|]. keeps. Qed.
Lemma keeps_flushPending : keeps hidden (flushPending (App := App)).
Proof. unfold flushPending. pose proof keeps_flushPending_loop. keeps. Qed.
#[local] Hint Resolve keeps_WriteData keeps_flushPending : keeps.
End SendSafe2.

#[export] Hint Resolve keeps_hidden_parser keeps_hidden_app keeps_stream keeps_load keeps_store keeps_writeFrame
  keeps_writeFrameLocked keeps_Encode keeps_Decode keeps_takeOutput
  keeps_forgetStream keeps_GetStream keeps_avail_window keeps_debit
  keeps_WriteHeaders keeps_WriteTrailers keeps_WriteData keeps_flushPending : keeps.
