(* ===== verification/H2Conn.v ===== *)
(** * H2Conn

    The receiving half of [http2/conn.go] keeps the invariant of [H2Safe]: no
    frame, no sequence of frames and no cut of the byte stream makes the
    connection panic, leave a window or a frame size out of range, move a
    stream backwards in its life cycle or forget which ids the peer has used.
    [progress] is what every receive step may do; [Feed] is its closure. *)

From S2P Require Import Prelude Pump H2Frame H2Headers H2State H2Recv H2Safe.

(** The life cycle of a stream: ids are fixed, the end of the request is
    final, a half-closed stream does not open again. *)
Record stream_le (s s' : Stream) : Prop := {
  sl_ID : s_ID s' = s_ID s;
  sl_ended : s_remoteEnded s = true -> s_remoteEnded s' = true;
  sl_state : s_state s = StreamHalfClosedRemote -> s_state s' = StreamHalfClosedRemote;
}.

(** The order in which a connection passes through its states. *)
Definition state_rank (s : connState) : nat :=
  match s with statePreface => 0 | stateSettings => 1 | stateOpen => 2 | stateClosed => 3 end.

Lemma state_rank_max s : (state_rank s <= 3)%nat.
Proof. destruct s; cbn; lia. Qed.

Lemma stream_le_refl s : stream_le s s.
Proof. by split. Qed.

Section Progress.
Context `{Hpack} {App : Type} `{!AppInv App}.
Notation Conn := (Conn App).
Notation go A := (M Conn A).

Record progress (c c' : Conn) : Prop := {
  pg_client : isClient c' = isClient c;
  pg_maxPeer : maxPeerStreamID c <= maxPeerStreamID c';
  pg_last : lastStreamID c <= lastStreamID c';
  pg_state : (state_rank (state c) <= state_rank (state c'))%nat;
  pg_heap p s : heap c !! p = Some s -> exists s', heap c' !! p = Some s' /\ stream_le s s';
}.

#[export] Instance stream_le_preorder : PreOrder stream_le.
Proof.
  split; [by intros s|]. intros s1 s2 s3 [] []. split; [congruence|auto..].
Qed.

#[export] Instance progress_preorder : PreOrder progress.
Proof.
  split.
  - intros c. split; try done. by intros p s Hs; exists s.
  - intros c1 c2 c3 [] []. split; [congruence|lia|lia|lia|].
    intros p s Hs. destruct (pg_heap0 p s Hs) as (s' & Hs' & ?).
    destruct (pg_heap1 p s' Hs') as (s'' & ? & ?). exists s''. split; [done|by transitivity s'].
Qed.

Lemma handler_progress (c c' : Conn) : handler_step c c' -> progress c c'.
Proof.
  intros []. split; try congruence; [lia|lia|rewrite hs_state; done|].
  intros p s Hs. destruct (hs_heap p s Hs) as (s' & Hs' & Hv). exists s'. split; [done|].
  unfold recv_view in Hv. inversion Hv. split; congruence.
Qed.

(** An operation of the receiving side that may run in state [c]. *)
Definition pres_at {A} (m : go A) (c : Conn) : Prop :=
  wp m (fun _ c' => Inv c' /\ progress c c') c.
Definition pres {A} (m : go A) : Prop := forall c, Inv c -> pres_at m c.

Lemma pres_safe {A} (m : go A) : safe m -> pres m.
Proof.
  intros Hm c Hc. eapply wp_mono; [by apply Hm|]. cbn. intros _ c' [? ?].
  split; [done|by apply handler_progress].
Qed.

Lemma pres_at_bind {A B} (m : go A) (k : A -> go B) c :
  wp m (fun a c' => progress c c' /\ pres_at (k a) c') c -> pres_at (m ≫= k) c.
Proof.
  intros Hm. apply wp_bind. eapply wp_mono; [exact Hm|]. cbn.
  intros a c1 [H1 H2]. eapply wp_mono; [exact H2|]. cbn. intros b c2 [? ?].
  split; [done|by transitivity c1].
Qed.

Lemma pres_ret {A} (a : A) : pres (mret a).
Proof. intros c Hc. by apply wp_ret. Qed.

Lemma pres_bind {A B} (m : go A) (k : A -> go B) :
  pres m -> (forall a, pres (k a)) -> pres (m ≫= k).
Proof.
  intros Hm Hk c Hc. apply pres_at_bind. eapply wp_mono; [by apply Hm|]. cbn.
  intros a c' [? ?]. split; [done|by apply Hk].
Qed.

Lemma pres_check {E} (m k : go (option E)) : pres m -> pres k -> pres (check m k).
Proof. intros Hm Hk. apply pres_bind; [done|]. intros [e|]; [apply pres_ret|done]. Qed.

Lemma pres_gets_bind {A B} (f : Conn -> A) (k : A -> go B) :
  (forall a, pres (k a)) -> pres (gets f ≫= k).
Proof. intros Hk c Hc. apply pres_at_bind, wp_gets. split; [done|by apply Hk]. Qed.

Lemma pres_get_bind {A} (k : Conn -> go A) :
  (forall c, Inv c -> pres_at (k c) c) -> pres (get ≫= k).
Proof. intros Hk c Hc. apply pres_at_bind, wp_get. split; [done|by apply Hk]. Qed.

Lemma pres_modify (g : Conn -> Conn) :
  (forall c, Inv c -> Inv (g c) /\ progress c (g c)) -> pres (modify g).
Proof. intros Hg c Hc. by apply wp_modify, Hg. Qed.

(** Reading and replacing a live stream. *)
Lemma pres_load {A} p s (k : Stream -> go A) c :
  heap c !! p = Some s -> pres_at (k s) c -> pres_at (load p ≫= k) c.
Proof. intros Hp Hk. apply pres_at_bind. by eapply wp_load. Qed.

Lemma pres_store {A} p s0 s (k : go A) c :
  Inv c -> heap c !! p = Some s0 -> stream_ok s -> stream_le s0 s ->
  (forall c', Inv c' -> heap c' !! p = Some s -> pres_at k c') ->
  pres_at (store p s ;; k) c.
Proof.
  intros Hc Hp Hok Hle Hk. apply pres_at_bind. eapply wp_store; [done|]. split.
  - split; cbn; try done. intros q t Hq. rewrite lookup_insert. case_decide; [|by exists t].
    subst. rewrite Hp in Hq. inversion Hq; subst. by exists s.
  - apply Hk; [|cbn; by rewrite lookup_insert_eq].
    eapply put_inv; eauto. by destruct Hle.
Qed.

(** After a step the pointer is still live. *)
Lemma pres_step {A B} (m : go A) (k : A -> go B) p s c :
  pres_at m c -> heap c !! p = Some s ->
  (forall a c' s', Inv c' -> heap c' !! p = Some s' -> stream_le s s' -> pres_at (k a) c') ->
  pres_at (m ≫= k) c.
Proof.
  intros Hm Hp Hk. apply pres_at_bind. eapply wp_mono; [exact Hm|]. cbn.
  intros a c' [Hc' Hs]. split; [done|].
  destruct (pg_heap _ _ Hs p s Hp) as (s' & ? & ?). by eapply Hk.
Qed.

(** A final store. *)
Lemma pres_store_last p s0 s c :
  Inv c -> heap c !! p = Some s0 -> stream_ok s -> stream_le s0 s -> pres_at (store p s) c.
Proof.
  intros Hc Hp Hok Hle. eapply wp_store; [done|]. split.
  - eapply put_inv; eauto. by destruct Hle.
  - split; cbn; try done. intros q t Hq. rewrite lookup_insert. case_decide; [|by exists t].
    subst. rewrite Hp in Hq. inversion Hq; subst. by exists s.
Qed.

Lemma payload_u32_wp (l : bytes) i (c : Conn) :
  bytes_ok l -> 0 <= i -> i + 4 <= zlen l ->
  wp (payload_u32 l i) (fun v c' => c' = c /\ 0 <= v < 2 ^ 32) c.
Proof.
  intros Hl Hi Hn. unfold payload_u32.
  do 4 (apply wp_bind, wp_index; [lia|]). apply wp_ret. split; [done|].
  apply be32_range; auto with go.
Qed.

Lemma pres_payload_u32 {A} (l : bytes) i (k : Z -> go A) c :
  bytes_ok l -> 0 <= i -> i + 4 <= zlen l ->
  (forall v, 0 <= v < 2 ^ 32 -> pres_at (k v) c) -> pres_at (payload_u32 l i ≫= k) c.
Proof.
  intros Hl Hi Hn Hk. apply pres_at_bind. eapply wp_mono; [by apply payload_u32_wp|].
  cbn. intros v c' [-> ?]. split; [done|by apply Hk].
Qed.

Lemma pres_payload_dep {A} (l : bytes) (k : Z -> go A) c :
  4 <= zlen l -> (forall v, pres_at (k v) c) -> pres_at (payload_dep l ≫= k) c.
Proof.
  intros Hl Hk. apply pres_at_bind. unfold payload_dep.
  do 4 (apply wp_bind, wp_index; [lia|]). by apply wp_ret.
Qed.
End Progress.

Create HintDb progress discriminated.
#[export] Hint Resolve stream_le_refl Z.le_refl Nat.le_refl state_rank_max : progress.

(** Updates of fields the invariant does not constrain. *)
Ltac pres_mod :=
  let Hc := fresh in
  apply pres_modify; intros ? Hc; destruct Hc;
  (split; [split; cbn; eauto|split; cbn; eauto with progress]).

Section Handlers.
Context `{Hpack} {App : Type} `{!AppInv App} (handler : option (StreamHandler App)) `{!HandlerOk handler}.
Notation Conn := (Conn App).
Notation go A := (M Conn A).

Lemma pres_call_OnHeaders id fs es : pres (call_OnHeaders handler id fs es).
Proof. apply pres_safe. intros c Hc. by apply ho_headers. Qed.
Lemma pres_call_OnData id d es : bytes_ok d -> pres (call_OnData handler id d es).
Proof. intros Hd. apply pres_safe. intros c Hc. by apply ho_data. Qed.
Lemma pres_call_OnRSTStream id code : pres (call_OnRSTStream handler id code).
Proof. apply pres_safe. intros c Hc. by apply ho_rst. Qed.
Lemma pres_writeFrame b : pres (App := App) (writeFrame b).
Proof. apply pres_safe, safe_writeFrame. Qed.
Lemma pres_flushPending : pres (App := App) flushPending.
Proof. apply pres_safe, safe_flushPending. Qed.
Lemma pres_forgetStream id : pres (App := App) (forgetStream id).
Proof. apply pres_safe, safe_forgetStream. Qed.
Lemma pres_takeOutput : pres (App := App) takeOutput.
Proof. apply pres_safe, safe_takeOutput. Qed.
Lemma pres_stream id : pres (App := App) (stream id).
Proof. apply pres_safe, safe_stream. Qed.

Lemma pres_Decode b : pres (App := App) (Decode b).
Proof.
  apply pres_get_bind. intros c Hc. destruct (dec_Write b _) as [[st fields] err].
  destruct err as [e|].
  - apply pres_bind; [pres_mod|intros _; apply pres_ret|done].
  - cbv zeta. destruct (dec_Close _) as [st' err'].
    apply pres_bind; [pres_mod|intros _|done]. repeat case_match; apply pres_ret.
Qed.

(** ** Connection frames *)

Lemma pres_apply_setting id val : 0 <= val < 2 ^ 32 -> pres (App := App) (apply_setting id val).
Proof.
  intros Hv. unfold apply_setting, defaultMaxFrameSize, MaxFrameSize.
  branches; try apply pres_ret.
  - do 2 (apply pres_bind; [pres_mod|intros _]). apply pres_ret.
  - apply pres_bind; [pres_mod|intros _]. apply pres_ret.
  - apply pres_bind; [|intros _; apply pres_ret]. apply pres_modify. intros c [].
    split; [split; cbn; eauto; unfold defaultMaxFrameSize, MaxFrameSize; lia|].
    split; cbn; eauto with progress.
Qed.

Lemma pres_onSettings_loop payload : bytes_ok payload -> forall fuel i,
  0 <= i -> zlen payload < i + 6 * (Z.of_nat fuel + 1) ->
  pres (App := App) (onSettings_loop fuel payload i).
Proof.
  intros Hb. induction fuel as [|fuel IH]; intros i Hi Hf; cbn;
    (destruct (Z.ltb_spec (zlen payload) (i + 6)); [apply pres_ret|]); [lia|].
  apply pres_check; [|apply IH; lia]. apply pres_apply_setting. apply be32_range; auto with go.
Qed.

Lemma pres_onSettings f : bytes_ok (f_Payload f) -> pres (App := App) (onSettings f).
Proof.
  intros Hb. unfold onSettings. destruct (has _ _); [apply pres_ret|].
  apply pres_check; [|apply pres_writeFrame].
  apply pres_onSettings_loop; [done|lia|unfold zlen; lia].
Qed.

Lemma pres_onPing f : pres (App := App) (onPing f).
Proof. unfold onPing. destruct (has _ _); [apply pres_ret|apply pres_writeFrame]. Qed.

Lemma pres_onGoAway f :
  bytes_ok (f_Payload f) -> 8 <= zlen (f_Payload f) -> pres (App := App) (onGoAway f).
Proof.
  intros Hb Hl. apply pres_bind; [pres_mod|intros _]. intros c Hc.
  apply pres_payload_u32; [done|lia|lia|]. intros v _. revert c Hc.
  change (pres (modify (set_goAwayCode v) ;; modify (set_state stateClosed) ;;
                mret (M := M Conn) (@None Error))).
  do 2 (apply pres_bind; [pres_mod|intros _]). apply pres_ret.
Qed.

Lemma pres_onPriority f : pres (App := App) (onPriority f).
Proof.
  unfold onPriority. destruct (Z.eqb_spec (zlen (f_Payload f)) 5); cbn [negb]; [|apply pres_ret].
  intros c Hc. apply pres_payload_dep; [lia|]. intros v. branch Hb; by apply pres_ret.
Qed.

(** ** Stream frames *)

Lemma pres_note_peer id : pres (App := App) (note_peer_stream id).
Proof.
  apply pres_bind; [|intros _; apply pres_ret]. apply pres_modify. intros c Hc.
  destruct (id >? _) eqn:?; [|done]. destruct Hc. split; [split; cbn; eauto|].
  split; cbn; eauto with progress. lia.
Qed.

Lemma pres_checkStreamRecv id k : pres (App := App) (checkStreamRecv id k).
Proof.
  apply pres_get_bind. intros c Hc. destruct (streams c !! id) as [p|] eqn:Hp.
  - destruct (inv_ptr c Hc id p Hp) as (s & Hs & _). eapply pres_load; [done|].
    destruct (s_state s), k; (by apply pres_ret) || (by apply pres_note_peer).
  - destruct k; try by apply pres_ret. branches; try by apply pres_ret.
    apply pres_at_bind, wp_modify. split; [|apply pres_ret].
    + split; cbn; eauto with progress. lia.
    + destruct Hc. split; cbn; eauto.
Qed.

Lemma pres_applyRecvEndStream p es s c :
  Inv c -> heap c !! p = Some s -> pres_at (applyRecvEndStream (App := App) p es) c.
Proof.
  intros Hc Hs. unfold applyRecvEndStream. destruct es; cbn [negb]; [|by apply pres_ret].
  pose proof (inv_stream c Hc p s Hs) as Hok. destruct Hok as (Hst & ? & ?).
  eapply pres_load; [done|]. eapply pres_store; [done|done|done|by split|].
  intros c' Hc' Hs'. eapply pres_load; [done|]. cbn.
  destruct Hst as [Hst|Hst]; rewrite Hst.
  - eapply pres_store_last; [done|done|split; [by right|done]|]. split; cbn; congruence.
  - by apply pres_ret.
Qed.

Lemma pres_forgetIfClosed p s c :
  Inv c -> heap c !! p = Some s -> pres_at (forgetIfClosed (App := App) p) c.
Proof.
  intros Hc Hs. eapply pres_load; [done|]. branch Hb; [by apply pres_forgetStream|by apply pres_ret].
Qed.

Lemma pres_checkContentLength p s c :
  Inv c -> heap c !! p = Some s -> pres_at (checkContentLength (App := App) p) c.
Proof.
  intros Hc Hs. eapply pres_load; [done|]. branches; by apply pres_ret.
Qed.

Lemma pres_onConnWindowUpdate f :
  bytes_ok (f_Payload f) -> zlen (f_Payload f) = 4 -> pres (App := App) (onConnWindowUpdate f).
Proof.
  intros Hb Hl c Hc. apply pres_payload_u32; [done|lia|lia|]. intros v Hv.
  branch Hz; [by apply pres_ret|]. revert c Hc. apply pres_get_bind. intros c Hc.
  branch Ho; [by apply pres_ret|]. revert c Hc Ho. intros c Hc _.
  apply pres_bind; [|intros _; apply pres_flushPending|done].
  apply pres_modify. intros c' []. split; [split; cbn; eauto; apply i32_range|].
  split; cbn; eauto with progress.
Qed.

(** A stream found in the table is live. *)
Lemma pres_GetStream {A} id (k : option positive -> go A) c :
  Inv c ->
  (forall o, o = streams c !! id ->
     (forall p, o = Some p -> exists s, heap c !! p = Some s) -> pres_at (k o) c) ->
  pres_at (GetStream id ≫= k) c.
Proof.
  intros Hc Hk. apply pres_at_bind. unfold GetStream. wp_steps. split; [done|].
  apply Hk; [done|]. intros p Hp. destruct (inv_ptr c Hc id p Hp) as (s & ? & _). by exists s.
Qed.

Lemma pres_onStreamWindowUpdate f :
  bytes_ok (f_Payload f) -> zlen (f_Payload f) = 4 -> pres (App := App) (onStreamWindowUpdate f).
Proof.
  intros Hb Hl. apply pres_check; [apply pres_checkStreamRecv|]. intros c Hc.
  apply pres_payload_u32; [done|lia|lia|]. intros v Hv. branch Hz; [by apply pres_ret|].
  apply pres_GetStream; [done|]. intros [p|] _ Hp; [|by apply pres_ret].
  destruct (Hp p eq_refl) as (s & Hs). eapply pres_load; [done|].
  branch Ho; [by apply pres_ret|]. pose proof (inv_stream c Hc p s Hs) as (Hst & _ & Hr).
  eapply pres_store; [done|done|split; [done|split; [apply i32_range|done]]|by split|].
  intros. by apply pres_flushPending.
Qed.

Lemma pres_finishHeaders id block es : pres (finishHeaders handler id block es).
Proof.
  apply pres_bind; [apply pres_Decode|]. intros [fields|e]; [|apply pres_ret].
  apply pres_check; [apply pres_checkStreamRecv|]. intros c Hc.
  apply pres_at_bind. eapply wp_mono; [by apply wp_stream|]. cbn.
  intros p c1 (H1 & Hs1 & Hp & _). apply handler_progress in Hs1. split; [done|].
  destruct (inv_ptr c1 H1 id p Hp) as (s & Hs & _).
  apply pres_at_bind, wp_gets. split; [done|]. branch Hh; [by apply pres_ret|].
  pose proof (inv_stream c1 H1 p s Hs) as Hok. eapply pres_load; [done|].
  eapply pres_store; [done|done|exact Hok|by split|]. intros c2 H2 Hs2.
  eapply pres_step; [|done|].
  - destruct (isClient c1); [by apply pres_ret|].
    destruct (contentLengthOf fields) as [[cl ok] verr]. branch Hv; [by apply pres_ret|].
    eapply pres_load; [done|]. eapply pres_store; [done|done|exact Hok|by split|].
    intros. by apply pres_ret.
  - intros [e|] c3 s3 H3 Hs3 _; [by apply pres_ret|]. eapply pres_load; [done|].
    eapply pres_step; [by apply pres_call_OnHeaders|done|]. cbv beta. intros _ c4 s4 H4 Hs4 _.
    eapply pres_step; [by eapply pres_applyRecvEndStream|done|]. intros _ c5 s5 H5 Hs5 _.
    eapply pres_step; [|done|].
    + branch Hcl; [by eapply pres_checkContentLength|by apply pres_ret].
    + intros [e|] c6 s6 H6 Hs6 _; [by apply pres_ret|].
      eapply pres_step; [by eapply pres_forgetIfClosed|done|]. intros. by apply pres_ret.
Qed.

Lemma pres_set_pendingHeaders ph : pres (App := App) (modify (set_pendingHeaders ph)).
Proof. pres_mod. Qed.

Lemma unpad_shorter name flags l l' :
  bytes_ok l -> unpad name flags l = inl l' -> zlen l' <= zlen l /\ bytes_ok l'.
Proof.
  intros Hl. unfold unpad. branch Hf; [|by intros [= <-]].
  destruct l as [|pad l]; [done|]. apply Forall_cons in Hl as [Hpad Hl].
  branch Hp; [done|]. intros [= <-]. unfold is_byte in *.
  rewrite zlen_upto, zlen_cons by lia. split; [lia|auto with go].
Qed.

Lemma pres_onHeaders f : bytes_ok (f_Payload f) -> pres (onHeaders handler f).
Proof.
  intros Hb. unfold onHeaders. destruct (unpad _ _ _) as [l|e] eqn:Hu; [|apply pres_ret].
  assert (forall l, pres (
    if negb (EndHeaders f) then
      modify (set_pendingHeaders (mkPendingHeaders (f_StreamID f) l
               (has (f_Flags f) FlagHeadersEndStream) true)) ;; mret (M := M Conn) None
    else finishHeaders handler (f_StreamID f) l (has (f_Flags f) FlagHeadersEndStream))) as Hk.
  { intros l'. branch He; [|apply pres_finishHeaders].
    apply pres_bind; [apply pres_set_pendingHeaders|intros; apply pres_ret]. }
  branch Hp; [|apply Hk]. destruct (Z.ltb_spec (zlen l) 5); [apply pres_ret|].
  intros c Hc. apply pres_payload_dep; [lia|]. intros v.
  branch Hd; [by apply pres_ret|]. by apply Hk.
Qed.

Lemma pres_onContinuation f : pres (onContinuation handler f).
Proof.
  apply pres_gets_bind. intros ph. branch Ha; [apply pres_ret|].
  apply pres_bind; [apply pres_set_pendingHeaders|intros _]. branch He; [apply pres_ret|].
  apply pres_bind; [apply pres_set_pendingHeaders|intros _]. apply pres_finishHeaders.
Qed.

(** ** DATA *)

(** What a DATA frame of [n] bytes is answered with. *)
Definition window_updates (c : Conn) (id n : Z) : bytes :=
  if n <=? 0 then []
  else AppendWindowUpdate [] 0 (u32 n) ++
       match streams c !! id with
       | Some _ => AppendWindowUpdate [] id (u32 n)
       | None => []
       end.

Lemma giveRecvWindow_eq id n c :
  Inv c -> 0 <= n <= defaultMaxFrameSize ->
  wp (giveRecvWindow id n)
     (fun e c' => e = None /\ c' = set_outBuf (outBuf c ++ window_updates c id n) c) c.
Proof.
  unfold defaultMaxFrameSize. intros Hc Hn.
  pose proof (inv_recv c Hc) as [Hr1 Hr2]. unfold defaultMaxFrameSize in Hr1.
  assert (forall w, 16384 <= w < 2 ^ 31 ->
            i32 (w - n) = w - n /\ (w - n <? 0) = false /\ i32 (w - n + n) = w) as Hw.
  { intros w ?. rewrite !i32_small by lia. split; [done|split; lia]. }
  destruct (Hw _ (conj Hr1 Hr2)) as (E1 & E2 & E3).
  unfold giveRecvWindow, GetStream. wp_steps. cbn. rewrite E1, E2. wp_steps. cbn.
  unfold window_updates. destruct (streams c !! id) as [p|] eqn:Hp.
  - destruct (inv_ptr c Hc id p Hp) as (s & Hs & _).
    pose proof (inv_stream c Hc p s Hs) as (_ & _ & Hg1 & Hg2). unfold defaultMaxFrameSize in Hg1.
    destruct (Hw _ (conj Hg1 Hg2)) as (F1 & F2 & F3). wp_steps.
    eapply wp_load; [done|]. wp_steps. eapply wp_store; [done|]. wp_steps.
    eapply wp_load; [cbn; by rewrite lookup_insert_eq|]. cbn. rewrite F1, F2. wp_steps.
    assert (set_s_recvWindow (s_recvWindow s) s = s) as Es by by destruct s.
    assert (forall w, set_s_recvWindow (s_recvWindow s) (set_s_recvWindow w s) = s) as Ew
      by by destruct s.
    branch Hn0; unfold writeFrameLocked; wp_steps.
    + split; [done|]. assert (n = 0) as -> by lia. rewrite !Z.sub_0_r, app_nil_r, Es, insert_id by done.
      by destruct c.
    + eapply wp_load; [cbn; by rewrite lookup_insert_eq|]. wp_steps.
      eapply wp_store; [cbn; by rewrite lookup_insert_eq|]. wp_steps. split; [done|].
      cbn. rewrite E3, F3, Ew, insert_insert_eq, insert_id, <- !app_assoc by done. by destruct c.
  - wp_steps. branch Hn0; unfold writeFrameLocked; wp_steps; (split; [done|]).
    + assert (n = 0) as -> by lia. rewrite !Z.sub_0_r, app_nil_r. by destruct c.
    + cbn. rewrite E3. by destruct c.
Qed.

Lemma pres_set_outBuf b (c : Conn) : Inv c -> Inv (set_outBuf b c) /\ progress c (set_outBuf b c).
Proof. intros []. split; split; cbn; eauto with progress. Qed.

Lemma pres_giveRecvWindow id n :
  0 <= n <= defaultMaxFrameSize -> pres (App := App) (giveRecvWindow id n).
Proof.
  intros Hn c Hc. eapply wp_mono; [by apply giveRecvWindow_eq|]. cbn. intros e c' [_ ->].
  by apply pres_set_outBuf.
Qed.

Lemma pres_onData f :
  frame_ok defaultMaxFrameSize f -> pres (onData handler f).
Proof.
  intros [_ _ _ Hb Hl]. unfold onData. destruct (unpad _ _ _) as [l|e] eqn:Hu; [|apply pres_ret].
  apply unpad_shorter in Hu as [_ Hl']; [|done].
  apply pres_check; [apply pres_checkStreamRecv|]. intros c Hc.
  apply pres_GetStream; [done|]. intros [p|] _ Hp; [|by apply pres_ret].
  destruct (Hp p eq_refl) as (s & Hs). pose proof (zlen_nonneg (f_Payload f)).
  unfold defaultMaxFrameSize in Hl.
  eapply pres_step; [apply pres_giveRecvWindow; [|done]|done|].
  { unfold defaultMaxFrameSize. rewrite i32_small; lia. }
  intros [e|] c1 s1 H1 Hs1 _; [by apply pres_ret|]. eapply pres_load; [done|].
  pose proof (inv_stream c1 H1 p s1 Hs1) as Hok.
  eapply pres_store; [done|done|exact Hok|by split|]. intros c2 H2 Hs2.
  eapply pres_step; [|done|].
  { branch Hn; [by apply pres_call_OnData|by apply pres_ret]. }
  intros _ c3 s3 H3 Hs3 _. apply pres_at_bind, wp_gets. split; [done|].
  eapply pres_step; [|done|].
  { branch Hcl; [by eapply pres_checkContentLength|by apply pres_ret]. }
  intros [e|] c4 s4 H4 Hs4 _; [by apply pres_ret|].
  eapply pres_step; [by eapply pres_applyRecvEndStream|done|]. intros _ c5 s5 H5 Hs5 _.
  eapply pres_step; [by eapply pres_forgetIfClosed|done|]. intros. by apply pres_ret.
Qed.

Lemma pres_onRSTStream f :
  bytes_ok (f_Payload f) -> zlen (f_Payload f) = 4 -> pres (onRSTStream handler f).
Proof.
  intros Hb Hl. apply pres_check; [apply pres_checkStreamRecv|]. intros c Hc.
  apply pres_payload_u32; [done|lia|lia|]. intros v _.
  apply pres_bind; [apply pres_call_OnRSTStream|intros _|done].
  apply pres_bind; [apply pres_forgetStream|intros _; apply pres_ret].
Qed.

(** ** Dispatch *)

Lemma pres_onFrame f :
  frame_ok defaultMaxFrameSize f -> shape_ok f -> pres (onFrame handler f).
Proof.
  intros Hok Hsh. pose proof (ok_payload _ _ Hok) as Hb.
  assert (pres (
    if f_StreamID f =? 0 then
      mret (Some (ConnError ErrCodeProtocol (FrameType_String (f_Type f) +:+ " on stream 0")))
    else
      modify (fun c => if f_StreamID f >? lastStreamID c
                       then set_lastStreamID (f_StreamID f) c else c) ;;
      if f_Type f =? FrameHeaders then onHeaders handler f
      else if f_Type f =? FrameContinuation then onContinuation handler f
      else if f_Type f =? FrameData then onData handler f
      else if f_Type f =? FrameRSTStream then onRSTStream handler f
      else if f_Type f =? FrameWindowUpdate then onStreamWindowUpdate f
      else mret (M := M Conn) None)) as Hstream.
  { branch Hz; [apply pres_ret|]. apply pres_bind; [|intros _].
    - apply pres_modify. intros c Hc. destruct (_ >? _) eqn:?; [|done]. destruct Hc.
      split; split; cbn; eauto with progress. lia.
    - repeat match goal with
             | |- context [f_Type f =? ?t] =>
                 destruct (Z.eqb_spec (f_Type f) t) as [Ht|_]
             end.
      + by apply pres_onHeaders.
      + by apply pres_onContinuation.
      + by apply pres_onData.
      + apply pres_onRSTStream; [done|]. apply (len_4 f Hsh). rewrite Ht. set_solver.
      + apply pres_onStreamWindowUpdate; [done|]. apply (len_4 f Hsh). rewrite Ht. set_solver.
      + apply pres_ret. }
  unfold onFrame. cbv zeta.
  destruct (Z.eqb_spec (f_Type f) FrameSettings); [by apply pres_onSettings|].
  destruct (f_Type f =? FramePing); [by apply pres_onPing|].
  destruct (Z.eqb_spec (f_Type f) FrameGoAway) as [Hg|_].
  { apply pres_onGoAway; [done|]. by apply (len_ge_8 f Hsh). }
  destruct (Z.eqb_spec (f_Type f) FrameWindowUpdate) as [Hw|_].
  { destruct (f_StreamID f =? 0); [|exact Hstream].
    apply pres_onConnWindowUpdate; [done|]. apply (len_4 f Hsh). rewrite Hw. set_solver. }
  destruct (f_Type f =? FramePriority); [apply pres_onPriority|].
  destruct (f_Type f =? FramePushPromise); [apply pres_ret|].
  branch Hk; [exact Hstream|apply pres_ret].
Qed.

(** ** The receiving side leaves the frame parser to [Parse] *)

Lemma keeps_call_OnHeaders id fs es : keeps parser (call_OnHeaders handler id fs es).
Proof. apply ho_keeps_headers. Qed.
Lemma keeps_call_OnData id d es : keeps parser (call_OnData handler id d es).
Proof. apply ho_keeps_data. Qed.
Lemma keeps_call_OnRSTStream id code : keeps parser (call_OnRSTStream handler id code).
Proof. apply ho_keeps_rst. Qed.
Lemma keeps_apply_setting id val : keeps parser (apply_setting (App := App) id val).
Proof. unfold apply_setting. keeps. Qed.
Lemma keeps_checkStreamRecv id k : keeps parser (checkStreamRecv (App := App) id k).
Proof. unfold checkStreamRecv, note_peer_stream. keeps; by destruct (_ >? _). Qed.
Lemma keeps_applyRecvEndStream p es : keeps parser (applyRecvEndStream (App := App) p es).
Proof. unfold applyRecvEndStream. keeps. Qed.
Lemma keeps_forgetIfClosed p : keeps parser (forgetIfClosed (App := App) p).
Proof. unfold forgetIfClosed. keeps. Qed.
Lemma keeps_checkContentLength p : keeps parser (checkContentLength (App := App) p).
Proof. unfold checkContentLength. keeps. Qed.
Lemma keeps_giveRecvWindow id n : keeps parser (giveRecvWindow (App := App) id n).
Proof. unfold giveRecvWindow. keeps. Qed.
Lemma keeps_payload_u32 l i : keeps (B := FrameParser) (parser (App := App)) (payload_u32 l i).
Proof. unfold payload_u32. keeps. Qed.
Lemma keeps_payload_dep l : keeps (B := FrameParser) (parser (App := App)) (payload_dep l).
Proof. unfold payload_dep. keeps. Qed.
#[local] Hint Resolve keeps_call_OnHeaders keeps_call_OnData keeps_call_OnRSTStream
  keeps_apply_setting keeps_checkStreamRecv keeps_applyRecvEndStream keeps_forgetIfClosed
  keeps_checkContentLength keeps_giveRecvWindow keeps_payload_u32 keeps_payload_dep : keeps.

Lemma keeps_onSettings_loop payload fuel : forall i,
  keeps parser (onSettings_loop (App := App) fuel payload i).
Proof. induction fuel as [|fuel IH]; intros i; cbn; keeps. Qed.
#[local] Hint Resolve keeps_onSettings_loop : keeps.
Lemma keeps_finishHeaders id block es : keeps parser (finishHeaders handler id block es).
Proof. unfold finishHeaders. keeps. Qed.
#[local] Hint Resolve keeps_finishHeaders : keeps.
Lemma keeps_onHeaders f : keeps parser (onHeaders handler f).
Proof. unfold onHeaders. keeps. Qed.
Lemma keeps_onContinuation f : keeps parser (onContinuation handler f).
Proof. unfold onContinuation. keeps. Qed.
Lemma keeps_onData f : keeps parser (onData handler f).
Proof. unfold onData. keeps. Qed.
Lemma keeps_onRSTStream f : keeps parser (onRSTStream handler f).
Proof. unfold onRSTStream. keeps. Qed.
Lemma keeps_onConnWindowUpdate f : keeps parser (onConnWindowUpdate (App := App) f).
Proof. unfold onConnWindowUpdate. keeps. Qed.
Lemma keeps_onStreamWindowUpdate f : keeps parser (onStreamWindowUpdate (App := App) f).
Proof. unfold onStreamWindowUpdate. keeps. Qed.
#[local] Hint Resolve keeps_onHeaders keeps_onContinuation keeps_onData keeps_onRSTStream
  keeps_onConnWindowUpdate keeps_onStreamWindowUpdate : keeps.
Lemma keeps_onFrame f : keeps parser (onFrame handler f).
Proof.
  unfold onFrame, onSettings, onPing, onGoAway, onPriority. keeps; by destruct (_ >? _).
Qed.

(** ** Feeding bytes *)

Lemma pres_sendGoAway code msg : pres (App := App) (sendGoAway code msg).
Proof.
  apply pres_bind; [pres_mod|intros _]. apply pres_bind; [pres_mod|intros _].
  apply pres_get_bind. intros c1 H1. cbv zeta. apply pres_bind; [pres_mod|intros _|done].
  apply pres_get_bind. intros c2 H2. apply pres_bind; [pres_mod|intros _|done]. apply pres_ret.
Qed.

Lemma pres_handleError e : pres (App := App) (handleError e).
Proof.
  destruct e as [e|]; [|apply pres_ret]. cbn [handleError].
  destruct (asStreamError e) as [[[id code] ?]|].
  - apply pres_bind; [apply pres_writeFrame|intros _].
    apply pres_bind; [apply pres_forgetStream|intros _]. apply pres_takeOutput.
  - destruct (asConnError e). apply pres_sendGoAway.
Qed.

Lemma wp_Parse_onFrame buf (c : Conn) :
  Inv c -> bytes_ok buf ->
  wp (Parse (onFrame handler) buf)
     (fun r c' => (Inv c' /\ progress c c') /\ 0 <= fst r <= zlen buf) c.
Proof.
  intros Hc Hb. apply (Parse_wp (onFrame handler) (fun c' => Inv c' /\ progress c c')).
  - intros f s e s' Hf. cbn. by rewrite (keeps_onFrame f _ _ _ Hf).
  - intros p s Hp [Hs Hg]. destruct Hs. cbn in *. split; [split; cbn; eauto; congruence|].
    transitivity s; [done|]. split; cbn; eauto with progress.
  - intros f s Hf Hsh [Hs Hg]. cbn in Hf. rewrite (inv_parser s Hs) in Hf.
    eapply wp_mono; [by apply pres_onFrame|]. cbn. intros _ s' [? ?].
    split; [done|by transitivity s].
  - done.
  - done.
Qed.

Lemma pres_Parse buf : bytes_ok buf -> pres (Parse (onFrame handler) buf).
Proof. intros Hb c Hc. eapply wp_mono; [by apply wp_Parse_onFrame|]. cbn. tauto. Qed.

(** What a connection needs to be fed. *)
Definition ready (c : Conn) : Prop :=
  Inv c /\ (state c = statePreface -> bytes_ok (prefaceBuf c)).

Lemma ready_later (c c' : Conn) :
  Inv c' -> progress c c' -> state c <> statePreface -> ready c'.
Proof.
  intros Hc [] Hs. split; [done|]. intros Hs'. rewrite Hs' in pg_state0.
  destruct (state c); cbn in pg_state0; by try lia.
Qed.

Lemma wp_Feed data c :
  bytes_ok data -> ready c ->
  wp (Feed handler data)
     (fun r c' => ready c' /\ progress c c' /\ 0 <= fst (fst r) <= zlen data) c.
Proof.
  intros Hd [Hc Hpb]. pose proof (zlen_nonneg data). unfold Feed. wp_steps.
  branch Hst.
  - apply bool_decide_eq_true in Hst. specialize (Hpb Hst). wp_steps. cbn.
    assert (Inv (set_prefaceBuf (prefaceBuf c ++ data) c)) as H1.
    { destruct Hc. split; cbn; eauto. }
    assert (ready (set_prefaceBuf (prefaceBuf c ++ data) c)) as R1.
    { split; [done|]. intros _. cbn. auto with go. }
    assert (progress c (set_prefaceBuf (prefaceBuf c ++ data) c)) as G1.
    { split; cbn; eauto with progress. }
    branch Hl; [wp_steps; cbn; split; [done|split; [done|lia]]|].
    branch Hp; [wp_steps; cbn; split; [done|split; [done|lia]]|].
    wp_steps. set (c1 := set_state _ _).
    assert (Inv c1 /\ progress c c1) as [H2 G2].
    { unfold c1. destruct Hc. split; split; cbn; eauto with progress. rewrite Hst. cbn. lia. }
    eapply (wp_mono _ (fun _ c' => Inv c' /\ progress c1 c')).
    { branch Hr; [|by apply wp_ret]. apply wp_bind. eapply wp_mono; [apply pres_Parse|]; [|done|].
      - auto with go.
      - intros r c' ?. by apply wp_ret. }
    intros _ c2 [H3 G3]. wp_steps. eapply wp_mono; [by apply pres_takeOutput|].
    cbn. intros o c3 [H4 G4]. apply wp_ret. assert (progress c1 c3) by by etransitivity.
    split; [by apply (ready_later c1)|]. split; [by etransitivity|cbn; lia].
  - apply bool_decide_eq_false in Hst. wp_steps. eapply wp_mono; [by apply wp_Parse_onFrame|].
    intros [n e] c1 [[H1 G1] Hn]. cbn in Hn. replace (n >? zlen data) with false by lia.
    destruct e as [e|]; wp_steps;
      (eapply wp_mono; [(by apply pres_handleError) || (by apply pres_takeOutput)|]);
      cbn; intros o c2 [H2 G2]; wp_steps; assert (progress c c2) by (by etransitivity);
      (split; [by apply (ready_later c)|split; [done|cbn; lia]]).
Qed.
End Handlers.
