(* ===== verification/H2Feed.v ===== *)
(** * H2Feed

    What a user of [http2.Conn] may rely on when it feeds bytes: the safety of
    [Feed] for every handler that keeps its contract, the opening of streams by
    the peer, the accounting of the receive windows, the check of the declared
    content length, SETTINGS, and the two levels of errors.  First concrete
    instances of the interfaces, on which the witnesses run: a header coder that
    writes names and values behind one-byte lengths, and a handler that answers
    every request and echoes the body. *)

From S2P Require Import Prelude Pump H2Frame H2Headers H2State H2Recv H2Safe H2Conn.

Definition plain_string (s : string) : bytes :=
  let b := bytes_of_string s in u8 (zlen b) :: b.

Definition plain_field (f : HeaderField) : bytes := plain_string (Name f) ++ plain_string (Value f).

Definition plain_cut (b : bytes) : option (string * bytes) :=
  match b with
  | [] => None
  | n :: b => if zlen b <? n then None else Some (string_of_bytes (upto n b), from n b)
  end.

Fixpoint plain_decode (fuel : nat) (b : bytes) : list HeaderField * option string :=
  match fuel, b with
  | _, [] => ([], None)
  | O, _ => ([], Some "fuel"%string)
  | S fuel, _ =>
      match plain_cut b with
      | None => ([], Some "short"%string)
      | Some (name, b) =>
          match plain_cut b with
          | None => ([], Some "short"%string)
          | Some (value, b) =>
              let '(fs, err) := plain_decode fuel b in (mkField name value :: fs, err)
          end
      end
  end.

#[export] Instance plain_hpack : Hpack := {|
  hdec := unit;
  henc := unit;
  NewDecoder _ := tt;
  dec_Write b d := let '(fs, err) := plain_decode (S (length b)) b in (d, fs, err);
  dec_Close d := (d, None);
  NewEncoder := tt;
  enc_WriteField f e := (e, plain_field f, None);
  enc_SetMaxDynamicTableSize _ e := e;
|}.

(** Answers 200 at once and sends every piece of the body back; records the
    events it saw. *)
Inductive event : Type :=
  | EvHeaders (id : Z) (fields : list HeaderField) (es : bool)
  | EvData (id : Z) (data : bytes) (es : bool)
  | EvReset (id code : Z).

#[export] Instance event_inv : AppInv (list event) := fun _ => True.

Definition note (e : event) : M (Conn (list event)) unit :=
  modify (fun c => set_app (app c ++ [e]) c).

Definition echo : StreamHandler (list event) := {|
  OnHeaders id fields es :=
    note (EvHeaders id fields es) ;;
    WriteHeaders id [mkField ":status" "200"] es ;; mret tt;
  OnData id data es := note (EvData id data es) ;; WriteData id data es ;; mret tt;
  OnRSTStream id code := note (EvReset id code);
|}.

Lemma safe_note e : safe (note e).
Proof. apply safe_modify. inv_frame_tac. Qed.
Lemma keeps_note e : keeps parser (note e).
Proof. unfold note. keeps. Qed.
#[local] Hint Resolve keeps_note : keeps.

#[export] Instance echo_ok : HandlerOk (Some echo).
Proof.
  split; cbn -[WriteHeaders WriteData].
  - intros id fs es. apply safe_bind; [apply safe_note|intros _].
    apply safe_bind; [apply safe_WriteHeaders|intros; apply safe_ret].
  - intros id d es c _. apply safe_bind; [apply safe_note|intros _].
    apply safe_bind; [apply safe_WriteData|intros; apply safe_ret].
  - intros id code. apply safe_note.
  - intros. keeps.
  - intros. keeps.
  - intros. keeps.
Qed.

(** No handler at all, the nil interface. *)
#[export] Instance no_handler_ok {App} `{!AppInv App} : HandlerOk (App := App) None.
Proof. split; cbn; intros; (by apply wp_ret) || apply keeps_ret. Qed.

Section Feed.
Context `{Hpack} {App : Type} `{!AppInv App} (handler : option (StreamHandler App)).
Notation Conn := (Conn App).
Notation go A := (M Conn A).

(** A connection being fed one read after the other.  [Feed] itself does not
    refuse bytes after an error, so neither does this. *)
Fixpoint feed_all (chunks : list bytes) : go (list (Z * bytes * option Error)) :=
  match chunks with
  | [] => mret []
  | b :: rest => r ← Feed handler b; rs ← feed_all rest; mret (r :: rs)
  end.

(** Applying the settings of one frame in order, up to the first bad one. *)
Fixpoint apply_settings (l : list (Z * Z)) : go (option Error) :=
  match l with
  | [] => mret None
  | (id, val) :: l => try apply_setting id val; apply_settings l
  end.
End Feed.

Section FeedFacts.
Context `{Hpack} {App : Type} `{!AppInv App} (handler : option (StreamHandler App)) `{!HandlerOk handler}.
Notation Conn := (Conn App).
Notation go A := (M Conn A).

Lemma NewConn_Inv cl a : app_ok a -> Inv (NewConn (App := App) cl a).
Proof.
  intros Ha.
  split; try done; unfold in_int32, good_window, defaultMaxFrameSize, MaxFrameSize; cbn; lia.
Qed.

Lemma wp_feed_all chunks : forall c,
  Forall bytes_ok chunks -> ready c ->
  wp (feed_all handler chunks)
     (fun rs c' => ready c' /\ progress c c' /\
        Forall2 (fun b r => 0 <= fst (fst r) <= zlen b) chunks rs) c.
Proof.
  induction chunks as [|b rest IH]; intros c Hb Hc; cbn [feed_all].
  - by apply wp_ret.
  - apply Forall_cons in Hb as [Hb Hrest]. wp_steps.
    eapply wp_mono; [by apply wp_Feed|]. intros r c1 (H1 & G1 & Hr). wp_steps.
    eapply wp_mono; [by apply IH|]. intros rs c2 (H2 & G2 & Hrs). wp_steps.
    split; [done|]. split; [by etransitivity|]. by constructor.
Qed.

(** ** Streams opened by the peer *)

Definition may_open (c : Conn) (id : Z) : bool :=
  (if isClient c then id mod 2 =? 0 else id mod 2 =? 1) && (maxPeerStreamID c <? id).

Lemma checkStreamRecv_new id c :
  streams c !! id = None ->
  exists msg, checkStreamRecv id frameKindHeaders c =
    if may_open c id then Some (None, set_maxPeerStreamID id c)
    else Some (Some (ConnError ErrCodeProtocol msg), c).
Proof.
  intros Hn. unfold checkStreamRecv, may_open, get. cbv [mbind M_bind mret M_ret]. rewrite Hn.
  assert ((id mod 2 =? 1) = negb (id mod 2 =? 0)) as -> by zarith.
  assert ((id <=? maxPeerStreamID c) = negb (maxPeerStreamID c <? id)) as -> by lia.
  destruct (isClient c), (id mod 2 =? 0), (_ <? id); cbn [negb andb];
    (by exists EmptyString) || (by eexists).
Qed.

(** ** The length of a request body *)

Definition body_complete (s : Stream) : Prop :=
  s_expectContentLength s < 0 \/ s_recvBodyLen s = s_expectContentLength s.

Lemma wp_checkContentLength p s c :
  heap c !! p = Some s ->
  wp (checkContentLength (App := App) p)
     (fun e c' => c' = c /\
        match e with
        | None => body_complete s
        | Some e => ~ body_complete s /\ exists msg, e = StreamError (s_ID s) ErrCodeProtocol msg
        end) c.
Proof.
  intros Hs. unfold checkContentLength, body_complete. wp_steps. eapply wp_load; [done|].
  branch Hneg; [wp_steps; split; [done|left; lia]|].
  destruct (Z.eqb_spec (s_recvBodyLen s) (s_expectContentLength s)); cbn [negb]; wp_steps.
  - by auto.
  - split; [done|]. split; [lia|]. by eexists.
Qed.

Lemma wp_applyRecvEndStream p s es c :
  Inv c -> heap c !! p = Some s ->
  wp (applyRecvEndStream (App := App) p es)
     (fun _ c' => heap c' = if es : bool then <[p := set_s_state StreamHalfClosedRemote (set_s_remoteEnded true s)]> (heap c)
                            else heap c) c.
Proof.
  intros Hc Hs. unfold applyRecvEndStream. destruct es; cbn [negb]; [|by wp_steps].
  wp_steps. eapply wp_load; [done|]. wp_steps.
  eapply wp_store; [done|]. wp_steps. eapply wp_load; [cbn; by rewrite lookup_insert_eq|].
  destruct (inv_stream c Hc p s Hs) as [[Hst|Hst] _]; cbn; rewrite Hst.
  - eapply wp_store; [cbn; by rewrite lookup_insert_eq|]. cbn. by rewrite insert_insert_eq.
  - wp_steps. cbn. f_equal. destruct s; cbn in *. by rewrite Hst.
Qed.

(** The state checks only look at the streams. *)
Lemma keeps_check_streams id k :
  keeps (fun c => (streams c, heap c, isClient c)) (checkStreamRecv (App := App) id k).
Proof.
  unfold checkStreamRecv, note_peer_stream, load. keeps; by destruct (_ >? _).
Qed.

Lemma wp_check_streams id k c :
  Inv c ->
  wp (checkStreamRecv (App := App) id k)
     (fun e c' => Inv c' /\ streams c' = streams c /\ heap c' = heap c /\
                  isClient c' = isClient c) c.
Proof.
  intros Hc. eapply wp_mono.
  - apply wp_post; [by apply pres_checkStreamRecv|]. exact (fun e c' => keeps_check_streams id k c e c').
  - cbn. by intros e c' [[? _] [= -> -> ->]].
Qed.

Lemma heap_forgetIfClosed p s c :
  heap c !! p = Some s ->
  wp (forgetIfClosed (App := App) p) (fun _ c' => heap c' = heap c) c.
Proof.
  intros Hs. unfold forgetIfClosed, forgetStream. wp_steps. eapply wp_load; [done|].
  destruct (bool_decide _); by wp_steps.
Qed.

(** A stream that is open may send. *)
Lemma check_open id p s (c : Conn) :
  streams c !! id = Some p -> heap c !! p = Some s -> s_state s = StreamOpen ->
  exists c', checkStreamRecv id frameKindData c = Some (None, c').
Proof.
  intros Hp Hs Ho. unfold checkStreamRecv, note_peer_stream, load, get, modify. cbv [mbind M_bind mret M_ret].
  rewrite Hp. unfold of_option. rewrite Hs. cbv [mret M_ret]. rewrite Ho. by eexists.
Qed.

(** What DATA of [n] bytes for the stream object [q] adds to the counts of the
    stream objects; without END_STREAM the states stay. *)
Definition counted (q : positive) (n : Z) (es : bool) (c c' : Conn) : Prop :=
  forall p s, heap c !! p = Some s -> exists s', heap c' !! p = Some s' /\
    s_expectContentLength s' = s_expectContentLength s /\
    s_recvBodyLen s' = (if decide (p = q) then i64 (s_recvBodyLen s + n) else s_recvBodyLen s) /\
    s_state s' = if decide (p = q) then (if es then StreamHalfClosedRemote else s_state s) else s_state s.

(** The end of a body that was accepted. *)
Definition body_ended (q : positive) (c : Conn) : Prop :=
  exists s, heap c !! q = Some s /\ s_remoteEnded s = true /\ s_state s = StreamHalfClosedRemote /\ body_complete s.

Lemma wp_onData_counted f l (c : Conn) (es := has (f_Flags f) FlagDataEndStream) :
  Inv c -> frame_ok defaultMaxFrameSize f -> unpad "DATA" (f_Flags f) (f_Payload f) = inl l ->
  wp (onData handler f) (fun e c' =>
    (e = None -> exists q, streams c !! f_StreamID f = Some q /\ counted q (zlen l) es c c' /\
      (es = true -> isClient c = false -> body_ended q c')) /\
    (forall q s, streams c !! f_StreamID f = Some q -> heap c !! q = Some s -> s_state s = StreamOpen -> e <> None ->
       i64 (s_recvBodyLen s + zlen l) <> s_expectContentLength s)) c.
Proof.
  intros Hc [_ _ _ Hb Hl] Hu. unfold onData. rewrite Hu.
  apply unpad_shorter in Hu as [_ Hl']; [|done].
  unfold defaultMaxFrameSize in Hl. pose proof (zlen_nonneg (f_Payload f)). apply wp_check.
  eapply wp_mono; [apply wp_post; [by apply wp_check_streams|exact (fun e c1 E => E)]|].
  intros e c1 [(Hc1 & Es & Eh & Ec) Eck].
  destruct (streams c !! f_StreamID f) as [q|] eqn:Hq; cycle 1.
  { destruct e as [e|]; [done|]. unfold GetStream. wp_steps. rewrite Es, Hq. by wp_steps. }
  destruct (inv_ptr c Hc _ _ Hq) as (s & Hs & _).
  destruct e as [e|].
  { split; [done|]. intros q' s' [= <-] Hs' Hst _. destruct (check_open _ _ _ _ Hq Hs' Hst) as [c' E]. by rewrite E in Eck. }
  unfold GetStream. wp_steps. rewrite Es, Hq.
  wp_steps. eapply wp_mono; [apply giveRecvWindow_eq; [done|]|].
  { unfold defaultMaxFrameSize. rewrite i32_small; lia. }
  cbn beta. intros e c2 [-> ->]. set (c2 := set_outBuf _ c1). wp_steps.
  assert (Inv c2) as Hc2 by by apply pres_set_outBuf. pose proof Hs as Hs0. rewrite <- Eh in Hs.
  eapply wp_load; [done|]. wp_steps. eapply wp_store; [done|]. set (c3 := set_heap _ c2).
  set (s3 := set_s_recvBodyLen (i64 (s_recvBodyLen s + zlen l)) s). wp_steps.
  assert (Inv c3) as Hc3.
  { eapply put_inv; [exact Hc2|exact Hs|done|exact (inv_stream c1 Hc1 q s Hs)]. }
  assert (counted q (zlen l) false c c3) as N3.
  { intros p t Ht. cbn. rewrite Eh. destruct (decide (p = q)) as [->|Hp].
    - rewrite lookup_insert_eq. rewrite Hs0 in Ht. injection Ht as <-. by exists s3.
    - rewrite lookup_insert_ne by congruence. by exists t. }
  eapply (wp_mono _ (fun _ c4 => Inv c4 /\ handler_step c3 c4)).
  { branch Hn; [by apply (ho_data (handler := handler))|by apply wp_ret]. }
  intros _ c4 (Hc4 & G4). wp_steps. assert (isClient c4 = isClient c) as Ec4 by (rewrite (hs_client _ _ G4); done).
  assert (counted q (zlen l) false c c4) as N4.
  { intros p t Ht. destruct (N3 p t Ht) as (s1 & Hs1 & E1 & E2 & E3).
    destruct (hs_heap _ _ G4 _ _ Hs1) as (s2 & Hs2 & [= _ F1 _ _ F2 F3]). exists s2. split; [done|]. by rewrite F1, F2, F3. }
  destruct (N4 q s Hs0) as (s4 & Hs4 & X4 & B4 & _). rewrite decide_True in B4 by done. fold es. rewrite Ec4.
  eapply (wp_mono _ (fun e c5 => c5 = c4 /\ (e = None -> es = true -> isClient c = false -> body_complete s4) /\
    (e <> None -> ~ body_complete s4))).
  { destruct es, (isClient c); cbn [andb negb]; try by wp_steps.
    eapply wp_mono; [by apply wp_checkContentLength|]. intros [e|] c5 [-> He]; [|done]. split; [done|].
    split; [done|]. intros _. apply He. }
  intros [e|] c5 (-> & Hbody & Hno).
  { split; [done|]. intros q' s' [= <-] Hs' _ _ Heq. apply Hno; [done|]. right.
    rewrite Hs0 in Hs'. injection Hs' as <-. congruence. }
  wp_steps. eapply wp_mono; [by apply wp_applyRecvEndStream|]. intros [] c6 E6. wp_steps.
  assert (exists s6, heap c6 !! q = Some s6) as [s6 Hs6].
  { rewrite E6. destruct es; [rewrite lookup_insert_eq|]; by eexists. }
  eapply wp_mono; [by eapply heap_forgetIfClosed|]. intros x c7 E7. wp_steps. split; [intros _|done].
  exists q. split; [done|]. split.
  - intros p t Ht. destruct (N4 p t Ht) as (s1 & Hs1 & E1 & E2 & E3). rewrite E7, E6. clear Hbody.
    destruct es; [|by exists s1]. destruct (decide (p = q)) as [->|Hp].
    + rewrite lookup_insert_eq. rewrite Hs1 in Hs4. injection Hs4 as ->. by eexists.
    + rewrite lookup_insert_ne by congruence. by exists s1.
  - intros Hes Hcl. specialize (Hbody eq_refl Hes Hcl). rewrite Hes in E6. eexists. rewrite E7, E6, lookup_insert_eq.
    split; [done|]. by split_and!.
Qed.

(** Decoding and the state checks leave the streams and the pointers alone. *)
Lemma keeps_Decode_heap b : keeps (fun c => (streams c, heap c, nextPtr c, isClient c)) (Decode (App := App) b).
Proof. unfold Decode. keeps; repeat case_match; keeps. Qed.

Lemma keeps_check_heap id k :
  keeps (fun c => (streams c, heap c, nextPtr c, isClient c)) (checkStreamRecv (App := App) id k).
Proof. unfold checkStreamRecv, note_peer_stream, load. keeps; by destruct (_ >? _). Qed.

(** A request that opens a stream: no body yet, the length it declares. *)
Lemma wp_finishHeaders_new id block fields n (c c0 : Conn) :
  Inv c -> isClient c = false -> streams c !! id = None -> Decode block c = Some (inl fields, c0) ->
  contentLengthOf fields = (n, true, "") ->
  wp (finishHeaders handler id block false) (fun e c' => e = None ->
    exists s, heap c' !! nextPtr c = Some s /\ s_expectContentLength s = n /\ s_recvBodyLen s = 0 /\
      s_state s = StreamOpen) c.
Proof.
  intros Hc Hcl Hid Hdec Hn. pose proof (keeps_Decode_heap block c _ _ Hdec) as K0.
  pose proof (wp_elim _ _ _ (pres_Decode block c Hc)) as (r & c0' & E & [Hc0 _]). rewrite Hdec in E.
  injection E as <- <-. unfold finishHeaders. apply wp_bind. eapply wp_intro; [exact Hdec|]. cbv beta iota.
  apply wp_check. eapply wp_mono; [apply wp_post; [by apply pres_checkStreamRecv|exact (fun e c' => keeps_check_heap id _ c0 e c')]|].
  intros [e|] c1 [[Hc1 _] K1]; [done|]. rewrite K0 in K1. injection K1 as Es Eh Ep Ec.
  assert (streams c1 !! id = None) as Hid1 by congruence.
  assert (forall p c', stream id c1 = Some (p, c') -> p = nextPtr c /\ isClient c' = false) as Hp.
  { intros p c' E. unfold stream, modify, get in E. cbv [mbind M_bind mret M_ret] in E. rewrite Hid1 in E.
    injection E as <- <-. cbn. split; congruence. }
  apply wp_bind. eapply wp_mono; [apply wp_post; [by apply wp_stream|exact Hp]|]. rewrite Hid1.
  intros p c2 [(Hc2 & _ & _ & Hs2) [-> Hcl2]]. wp_steps. rewrite Hcl2. branch Hv; [by wp_steps|].
  wp_steps. eapply wp_load; [exact Hs2|]. wp_steps. eapply wp_store; [exact Hs2|]. wp_steps. rewrite Hn.
  cbn [streq String.eqb negb]. wp_steps. apply wp_bind. eapply wp_load; [cbn; by rewrite lookup_insert_eq|]. wp_steps.
  eapply wp_store; [cbn; by rewrite lookup_insert_eq|]. wp_steps.
  eapply wp_load; [cbn; by rewrite lookup_insert_eq|]. wp_steps.
  set (s3 := set_s_expectContentLength n (set_s_headers fields (new_stream id c1))).
  set (c3 := set_heap _ _). assert (heap c3 !! nextPtr c = Some s3) as Hs3.
  { unfold c3. cbn. by rewrite lookup_insert_eq. }
  assert (Inv c3) as Hc3.
  { pose proof (inv_stream c2 Hc2 _ _ Hs2) as Hok.
    eapply put_inv; [eapply put_inv; [exact Hc2|exact Hs2|done|exact Hok]|cbn; by rewrite lookup_insert_eq|done|exact Hok]. }
  eapply wp_mono; [by apply (ho_headers (handler := handler))|]. cbv beta. intros _ c4 [Hc4 G4].
  destruct (hs_heap _ _ G4 _ _ Hs3) as (s4 & Hs4 & [= _ E4 _ _ E5 E6]). wp_steps.
  unfold applyRecvEndStream. cbn [negb andb]. wp_steps.
  eapply wp_mono; [by eapply heap_forgetIfClosed|]. intros x c7 E7. wp_steps. intros _. exists s4. by rewrite E7.
Qed.
End FeedFacts.

(** ** SETTINGS payloads *)

Section Settings.
Context `{Hpack} {App : Type} `{!AppInv App}.
Notation Conn := (Conn App).

Definition setting_bytes (s : Z * Z) : bytes := put16 (fst s) ++ put32 (snd s).

Lemma settings_payload_concat l : settings_payload l = concat (setting_bytes <$> l).
Proof.
  assert (forall acc, fold_left (fun payload s =>
    payload ++ [u8 (fst s >> 8); u8 (fst s);
                u8 (snd s >> 24); u8 (snd s >> 16); u8 (snd s >> 8); u8 (snd s)]) l acc =
    acc ++ concat (setting_bytes <$> l)) as Hl; [|exact (Hl [])].
  induction l as [|s l IH]; intros acc; cbn; [by rewrite app_nil_r|].
  rewrite IH, <- app_assoc. done.
Qed.

Lemma zlen_settings l : zlen (concat (setting_bytes <$> l)) = 6 * zlen l.
Proof.
  induction l as [|s l IH]; [done|]. rewrite fmap_cons. cbn [concat].
  rewrite zlen_app, IH, zlen_cons. change (zlen (setting_bytes s)) with 6. lia.
Qed.

Definition setting_ok (s : Z * Z) : Prop := 0 <= fst s < 2 ^ 16 /\ 0 <= snd s < 2 ^ 32.

Lemma onSettings_loop_eq l : forall fuel pre (c : Conn),
  Forall setting_ok l -> (length l <= fuel)%nat ->
  onSettings_loop fuel (pre ++ concat (setting_bytes <$> l)) (zlen pre) c = apply_settings l c.
Proof.
  induction l as [|[id val] l IH]; intros fuel pre c Hok Hf.
  - destruct fuel; cbn; rewrite app_nil_r; by replace (_ <? _) with true by lia.
  - apply Forall_cons in Hok as [[Hid Hval] Hok]. cbn [fst snd] in *.
    destruct fuel as [|fuel]; [cbn in Hf; lia|]. cbn [onSettings_loop apply_settings].
    rewrite zlen_app, zlen_settings, zlen_cons. pose proof (zlen_nonneg l).
    replace (_ <? _) with false by lia. rewrite fmap_cons. cbn [concat].
    assert (forall k, 0 <= k < 6 ->
      at_ (pre ++ setting_bytes (id, val) ++ concat (setting_bytes <$> l)) (zlen pre + k) =
      at_ (setting_bytes (id, val)) k) as Hat.
    { intros k Hk. rewrite <- at_from, from_app_length, at_app_l; (done || lia || apply zlen_nonneg). }
    rewrite <- (Z.add_0_r (zlen pre)) at 1. rewrite !Hat by lia.
    cbn [at_ setting_bytes put16 put32 fst snd app].
    change (at_ _ 0) with (u8 (id >> 8)). change (at_ _ 1) with (u8 id).
    change (at_ _ 2) with (u8 (val >> 24)). change (at_ _ 3) with (u8 (val >> 16)).
    change (at_ _ 4) with (u8 (val >> 8)). change (at_ _ 5) with (u8 val).
    rewrite be16_put, be32_put by done. unfold check, mbind, M_bind.
    destruct (apply_setting id val c) as [[[e|] c']|]; [done| |done].
    replace (zlen pre + 6) with (zlen (pre ++ setting_bytes (id, val)))
      by (rewrite zlen_app; done).
    rewrite app_assoc. apply IH; [done|cbn in Hf; lia].
Qed.
End Settings.

Section FeedProps.
Context `{Hpack} {App : Type} `{!AppInv App} (handler : option (StreamHandler App)).
Notation Conn := (Conn App).
Notation go A := (M Conn A).

(** C12: feeding a connection is safe.  A server or client connection whose
    handler keeps its contract, fed any bytes in any pieces, never panics
    and never loops; it consumes no more than it is given; its windows stay in
    range, its stream table points to live streams, every stream is open or
    half-closed(remote), and it only moves forward: ids used by the peer stay
    used, the end of a request is final, a closed connection stays closed. *)
Theorem Feed_safe cl a chunks :
  HandlerOk handler -> app_ok a -> Forall bytes_ok chunks ->
  wp (feed_all handler chunks)
     (fun rs c => Inv c /\ progress (NewConn cl a) c /\
        Forall2 (fun b r => 0 <= fst (fst r) <= zlen b) chunks rs) (NewConn cl a).
Proof.
  intros Hh Ha Hb. eapply wp_mono; [apply (wp_feed_all handler); [done|]|].
  - split; [by apply NewConn_Inv|]. intros _. constructor.
  - intros rs c ([? _] & ? & ?). done.
Qed.

(** C37: stream ids are opened once, in increasing order.  A HEADERS frame for
    a stream that is not in the table is admitted exactly when the id has the
    peer's parity and is larger than every id admitted before; after that,
    however the connection goes on, a stream that has left the table is not
    opened again, nor is any smaller id: the connection fails with
    PROTOCOL_ERROR. *)
Theorem streams_not_reused id id' (c c' c'' : Conn) :
  streams c !! id = None -> checkStreamRecv id frameKindHeaders c = Some (None, c') ->
  progress c' c'' -> streams c'' !! id' = None -> id' <= id ->
  may_open c id = true /\ c' = set_maxPeerStreamID id c /\
  exists msg, checkStreamRecv id' frameKindHeaders c'' =
                Some (Some (ConnError ErrCodeProtocol msg), c'').
Proof.
  intros Hn Hck Hpg Hn' Hle. destruct (checkStreamRecv_new id c Hn) as [m E].
  rewrite Hck in E. destruct (may_open c id) eqn:Hm; [|done]. inversion E; subst.
  split; [done|]. split; [done|]. destruct (checkStreamRecv_new id' c'' Hn') as [m' E'].
  exists m'. rewrite E'. pose proof (pg_maxPeer _ _ Hpg) as Hmax. cbn in Hmax.
  unfold may_open. replace (maxPeerStreamID c'' <? id') with false by lia.
  by rewrite andb_false_r.
Qed.

(** DATA frames, none of which ends stream [id], accepted while the stream object
    [p] is that stream's; [d] is what they carry for it, without the padding. *)
Inductive body_run (id : Z) (p : positive) : bytes -> Conn -> Conn -> Prop :=
  | br_start c : streams c !! id = Some p -> body_run id p [] c c
  | br_data f l d c c1 c2 :
      body_run id p d c c1 -> frame_ok defaultMaxFrameSize f -> f_StreamID f = id ->
      has (f_Flags f) FlagDataEndStream = false -> unpad "DATA" (f_Flags f) (f_Payload f) = inl l ->
      onData handler f c1 = Some (None, c2) -> streams c2 !! id = Some p ->
      body_run id p (d ++ l) c c2
  | br_other f d c c1 c2 :
      body_run id p d c c1 -> frame_ok defaultMaxFrameSize f -> f_StreamID f <> id ->
      onData handler f c1 = Some (None, c2) -> streams c2 !! id = Some p ->
      body_run id p d c c2.

Lemma i64_plus a b : i64 (i64 a + b) = i64 (a + b).
Proof.
  unfold i64, swrap. f_equal. set (h := 2 ^ (64 - 1)).
  replace ((a + h) mod 2 ^ 64 - h + b + h) with ((a + h) mod 2 ^ 64 + b) by lia.
  rewrite Zplus_mod_idemp_l. f_equal. lia.
Qed.

Lemma i64_i64 a : i64 (i64 a) = i64 a.
Proof. pose proof (i64_plus a 0) as E. by rewrite !Z.add_0_r in E. Qed.

Lemma body_run_counted `{!HandlerOk handler} id p d c c1 s :
  body_run id p d c c1 -> Inv c -> isClient c = false -> heap c !! p = Some s ->
  Inv c1 /\ isClient c1 = false /\ streams c1 !! id = Some p /\
  exists s', heap c1 !! p = Some s' /\ s_expectContentLength s' = s_expectContentLength s /\
    i64 (s_recvBodyLen s') = i64 (s_recvBodyLen s + zlen d) /\ s_state s' = s_state s.
Proof.
  intros Hrun Hc Hcl Hs. assert (forall f c1 c2, frame_ok defaultMaxFrameSize f -> Inv c1 -> isClient c1 = false ->
    onData handler f c1 = Some (None, c2) -> Inv c2 /\ isClient c2 = false /\
    exists q l, unpad "DATA" (f_Flags f) (f_Payload f) = inl l /\ streams c1 !! f_StreamID f = Some q /\
      counted q (zlen l) (has (f_Flags f) FlagDataEndStream) c1 c2) as Hstep.
  { intros f k k' Hf Hk Hkcl E.
    destruct (wp_elim _ _ _ (pres_onData handler f Hf k Hk)) as (e & c' & E' & [Hk' G]). rewrite E in E'. injection E' as <- <-.
    destruct (unpad "DATA" (f_Flags f) (f_Payload f)) as [l|] eqn:Hu; [|unfold onData in E; by rewrite Hu in E].
    destruct (wp_elim _ _ _ (wp_onData_counted handler f l k Hk Hf Hu)) as (e & c' & E' & [Hq _]). rewrite E in E'. injection E' as <- <-.
    destruct (Hq eq_refl) as (q & Hq1 & Hq2 & _). split; [done|]. split; [by rewrite (pg_client _ _ G)|]. by exists q, l. }
  induction Hrun as [c Hp|f l d c c1 c2 _ IH Hf Hid Hes Hu E Hp|f d c c1 c2 _ IH Hf Hid E Hp].
  - do 3 (split; [done|]). exists s. by rewrite Z.add_0_r.
  - destruct (IH Hc Hcl Hs) as (H1 & Hcl1 & Hp1 & s1 & Hs1 & E1 & E2 & E3).
    destruct (Hstep f _ _ Hf H1 Hcl1 E) as (H2 & Hcl2 & q & l' & Hu' & Hq & N). rewrite Hu in Hu'. injection Hu' as <-.
    rewrite Hid, Hp1 in Hq. injection Hq as <-. do 3 (split; [done|]).
    destruct (N _ _ Hs1) as (s2 & Hs2 & E4 & E5 & E6). exists s2. rewrite Hes in E6. rewrite decide_True in E5 by done. rewrite decide_True in E6 by done.
    split; [done|]. split; [congruence|]. split; [|congruence].
    rewrite E5, zlen_app, Z.add_assoc, <- (i64_plus (s_recvBodyLen s + zlen d)), <- E2. by rewrite i64_plus, i64_i64.
  - destruct (IH Hc Hcl Hs) as (H1 & Hcl1 & Hp1 & s1 & Hs1 & E1 & E2 & E3).
    destruct (Hstep f _ _ Hf H1 Hcl1 E) as (H2 & Hcl2 & q & l' & Hu' & Hq & N). do 3 (split; [done|]).
    destruct (N _ _ Hs1) as (s2 & Hs2 & E4 & E5 & E6). exists s2.
    assert (p <> q) as Hne.
    { intros <-. destruct (inv_ptr _ H1 _ _ Hq) as (t & Ht & Et). destruct (inv_ptr _ H1 _ _ Hp1) as (t' & Ht' & Et'). congruence. }
    rewrite decide_False in E5 by done. rewrite decide_False in E6 by done. split; [done|]. split; [congruence|]. split; congruence.
Qed.

(** C31: a request body has the declared length.  When a server has accepted the
    header block of a new stream with one content-length field, of value [n],
    then DATA frames, also of other streams in between, and no second header
    block on the stream, it accepts a DATA frame that ends the stream exactly if
    the bytes the frames on this stream carried, padding apart, are [n]; the
    stream is then half-closed(remote). *)
Theorem request_body_length id block fields n f l d c c0 c1 c2 :
  HandlerOk handler -> Inv c -> isClient c = false -> streams c !! id = None ->
  Decode block c = Some (inl fields, c0) -> contentLengthOf fields = (n, true, "") ->
  finishHeaders handler id block false c = Some (None, c1) ->
  body_run id (nextPtr c) d c1 c2 ->
  frame_ok defaultMaxFrameSize f -> f_StreamID f = id -> has (f_Flags f) FlagDataEndStream = true ->
  unpad "DATA" (f_Flags f) (f_Payload f) = inl l -> zlen (d ++ l) < 2 ^ 63 ->
  wp (onData handler f)
     (fun e c' => (e = None <-> zlen (d ++ l) = n) /\
        (e = None -> exists s, heap c' !! nextPtr c = Some s /\ s_remoteEnded s = true /\ s_state s = StreamHalfClosedRemote)) c2.
Proof.
  intros Hh Hc Hcl Hid Hdec Hn E Hrun Hf Hfid Hes Hu Hl.
  destruct (wp_elim _ _ _ (pres_finishHeaders handler id block false c Hc)) as (e & c' & E' & [Hc1 G1]).
  rewrite E in E'. injection E' as <- <-.
  destruct (wp_elim _ _ _ (wp_finishHeaders_new handler id block fields n c c0 Hc Hcl Hid Hdec Hn)) as (e & c' & E' & Hs).
  rewrite E in E'. injection E' as <- <-. destruct (Hs eq_refl) as (s1 & Hs1 & Hx1 & Hb1 & Ho1).
  assert (isClient c1 = false) as Hcl1 by by rewrite (pg_client _ _ G1).
  destruct (body_run_counted _ _ _ _ _ _ Hrun Hc1 Hcl1 Hs1) as (Hc2 & Hcl2 & Hp2 & s2 & Hs2 & Hx2 & Hb2 & Ho2).
  apply contentLengthOf_spec in Hn as (_ & _ & _ & _ & _ & _ & _ & _ & Hn0).
  assert (i64 (s_recvBodyLen s2 + zlen l) = zlen (d ++ l)) as Hlen.
  { rewrite <- i64_plus, Hb2, i64_plus, Hb1, Z.add_0_l, <- zlen_app. pose proof (zlen_nonneg (d ++ l)).
    unfold i64, swrap. rewrite Z.mod_small; lia. }
  eapply wp_mono; [by apply wp_onData_counted|]. cbv beta. intros e c' [He Hr]. rewrite Hfid in He, Hr.
  assert (e = None -> body_ended (nextPtr c) c' /\ zlen (d ++ l) = n) as Hend.
  { intros He0. destruct (He He0) as (q & Hq & N & Hend). rewrite Hp2 in Hq. injection Hq as <-.
    specialize (Hend Hes Hcl2). split; [done|]. destruct Hend as (s & Hs3 & _ & _ & Hbody).
    destruct (N _ _ Hs2) as (s' & Hs' & Hx3 & Hb3 & _). rewrite Hs3 in Hs'. injection Hs' as <-.
    rewrite decide_True in Hb3 by done. destruct Hbody as [Hbody|Hbody]; [lia|]. congruence. }
  split; [split|].
  - intros He0. by apply Hend.
  - intros Heq. destruct e as [e|]; [|done]. exfalso. apply (Hr _ _ Hp2 Hs2); [congruence|done|congruence].
  - intros He0. destruct (Hend He0) as [(s & ? & ? & ? & _) _]. by exists s.
Qed.

(** The peer never runs out of receive window.  Data of up to a frame is
    accepted without a flow-control error, is acknowledged at once by a
    WINDOW_UPDATE of its full length for the connection and, if it is still in
    the table, for the stream, and leaves both windows as they were. *)
Theorem recv_window_restored id n (c : Conn) :
  Inv c -> 0 <= n <= defaultMaxFrameSize ->
  giveRecvWindow id n c =
    Some (None, set_outBuf (outBuf c ++
      (if n =? 0 then []
       else encode_frame (mkFrame FrameWindowUpdate 0 0 (put32 n)) ++
            match streams c !! id with
            | Some _ => encode_frame (mkFrame FrameWindowUpdate 0 id (put32 n))
            | None => []
            end)) c).
Proof.
  unfold defaultMaxFrameSize. intros Hc Hn.
  destruct (wp_elim _ _ _ (giveRecvWindow_eq id n c Hc Hn)) as (e & c' & E & -> & ->).
  rewrite E. unfold window_updates. rewrite (u32_small n) by lia.
  destruct (Z.eqb_spec n 0); [subst; done|]. by replace (n <=? 0) with false by lia.
Qed.

(** SETTINGS round trip.  The payload that [AppendSettings] writes for a
    list of settings is read back as that list: the settings are applied one by
    one, in order, up to the first that is refused, and if none is refused the
    frame is acknowledged. *)
Theorem settings_roundtrip l (c : Conn) :
  Forall setting_ok l ->
  onSettings (mkFrame FrameSettings 0 0 (settings_payload l)) c =
  (try apply_settings l; writeFrame (AppendSettingsAck [])) c.
Proof.
  intros Hl. unfold onSettings. cbn [f_Flags f_Payload]. cbn [has negb].
  unfold check at 1 2, mbind, M_bind. rewrite settings_payload_concat.
  rewrite <- (onSettings_loop_eq l (length (concat (setting_bytes <$> l))) [] c Hl); [done|].
  pose proof (zlen_settings l). unfold zlen in *. lia.
Qed.

(** The two levels of errors.  A stream error is answered by RST_STREAM
    with its code, takes the stream out of the table and leaves the rest of the
    connection as it was; any other error is answered by GOAWAY with the last
    stream id, the code and the text, and closes the connection.  The answer is
    appended to what was already waiting to be written. *)
Theorem handleError_levels e (c : Conn) :
  handleError (Some e) c =
  match e with
  | StreamError id code _ =>
      Some (outBuf c ++ encode_frame (mkFrame FrameRSTStream 0 id (put32 code)),
            set_outBuf [] (set_streams (delete id (streams c)) c))
  | _ =>
      let '(code, msg) := asConnError e in
      Some (outBuf c ++ encode_frame (mkFrame FrameGoAway 0 0
              (put32 (lastStreamID c) ++ put32 code ++ bytes_of_string msg)),
            set_outBuf [] (set_goAway true (set_state stateClosed c)))
  end.
Proof.
  assert (forall (b x : bytes) y, (zlen (b ++ y :: x) =? 0) = false) as Hne.
  { intros b x y. rewrite zlen_app, zlen_cons. pose proof (zlen_nonneg b).
    pose proof (zlen_nonneg x). lia. }
  assert (forall code msg, sendGoAway code msg c =
    Some (outBuf c ++ encode_frame (mkFrame FrameGoAway 0 0
            (put32 (lastStreamID c) ++ put32 code ++ bytes_of_string msg)),
          set_outBuf [] (set_goAway true (set_state stateClosed c)))) as Hg.
  { intros code msg. unfold sendGoAway, modify, get. cbv [mbind M_bind mret M_ret].
    do 2 f_equal. cbn [outBuf set_outBuf set_goAway set_state lastStreamID].
    unfold AppendGoAway, encode_frame. cbn [f_Type f_Flags f_StreamID f_Payload].
    rewrite !zlen_app, Z.add_assoc. done. }
  destruct e as [t|b d|code msg|id code msg]; cbn [handleError asStreamError asConnError];
    [apply Hg..|].
  unfold takeOutput, writeFrame, writeFrameLocked, forgetStream, modify, get.
  cbv [mbind M_bind mret M_ret]. cbn [outBuf set_streams set_outBuf].
  rewrite (Hne (outBuf c) _ _ : (zlen (outBuf c ++ AppendRSTStream [] id code) =? 0) = false).
  done.
Qed.
End FeedProps.

(** ** Witnesses *)

Definition demo_request : list HeaderField :=
  [mkField ":method" "POST"; mkField ":scheme" "http"; mkField ":path" "/x";
   mkField ":authority" "h"; mkField "content-length" "2"].

Definition demo_block : bytes := concat (plain_field <$> demo_request).

(** The preface, SETTINGS and a request for a two-byte body, in three reads
    that do not respect the frames. *)
Definition demo_headers : bytes :=
  encode_frame (mkFrame FrameHeaders FlagHeadersEndHeaders 1 demo_block).

Definition demo_chunks : list bytes :=
  [clientPreface; AppendSettings [] [(4, 70000)]; demo_headers].

Definition demo_conn : Conn (list event) :=
  match feed_all (Some echo) demo_chunks (NewConn false []) with
  | Some (_, c) => c
  | None => NewConn false []
  end.

Lemma demo_chunks_ok : Forall bytes_ok demo_chunks.
Proof. repeat (apply Forall_cons_2; [bytes|]). constructor. Qed.

Lemma demo_conn_Inv : Inv demo_conn.
Proof.
  assert (wp (feed_all (Some echo) demo_chunks) (fun _ c => Inv c) (NewConn false [])) as Hw.
  { eapply wp_mono; [apply (wp_feed_all (Some echo)); [apply demo_chunks_ok|]|by intros rs c ([? _] & _)].
    split; [by apply NewConn_Inv|constructor]. }
  apply wp_elim in Hw as (rs & c & E & Hc). unfold demo_conn. by rewrite E.
Qed.

Lemma Feed_safe_witness :
  wp (feed_all (Some echo) demo_chunks)
     (fun rs c => Inv c /\ progress (NewConn false []) c /\
        Forall2 (fun b r => 0 <= fst (fst r) <= zlen b) demo_chunks rs) (NewConn false []).
Proof. apply Feed_safe; [apply echo_ok|done|apply demo_chunks_ok]. Defined.

Lemma streams_not_reused_witness :
  let c : Conn (list event) := NewConn false [] in
  may_open c 5 = true /\ set_maxPeerStreamID 5 c = set_maxPeerStreamID 5 c /\
  exists msg, checkStreamRecv 3 frameKindHeaders (set_maxPeerStreamID 5 c) =
    Some (Some (ConnError ErrCodeProtocol msg), set_maxPeerStreamID 5 c).
Proof.
  intros c. apply (streams_not_reused 5 3 c _ (set_maxPeerStreamID 5 c)).
  - done.
  - done.
  - done.
  - done.
  - lia.
Defined.

(** A step that was taken. *)
Definition taken (m : M (Conn (list event)) (option Error)) (c : Conn (list event)) : Conn (list event) :=
  match m c with Some (None, c') => c' | _ => c end.

Lemma taken_step m c :
  match m c with Some (None, _) => true | _ => false end = true -> m c = Some (None, taken m c).
Proof. unfold taken. by destruct (m c) as [[[e|] c']|]. Qed.

(** The body "hi", a byte in each of two frames, the first of them padded. *)
Definition demo_open : Conn (list event) :=
  match feed_all (Some echo) (take 2 demo_chunks) (NewConn false []) with Some (_, c) => c | None => NewConn false [] end.
Definition demo_accepted : Conn (list event) := taken (finishHeaders (Some echo) 1 demo_block false) demo_open.
Definition demo_data1 : Frame := mkFrame FrameData 8 1 [2; 104; 0; 0].
Definition demo_data2 : Frame := mkFrame FrameData FlagDataEndStream 1 [105].
Definition demo_half : Conn (list event) := taken (onData (Some echo) demo_data1) demo_accepted.

Lemma request_body_length_witness :
  wp (onData (Some echo) demo_data2)
     (fun e c' => (e = None <-> 2 = 2) /\ (e = None -> exists s, heap c' !! 1%positive = Some s /\ s_remoteEnded s = true /\
        s_state s = StreamHalfClosedRemote)) demo_half.
Proof.
  apply (request_body_length (Some echo) 1 demo_block demo_request 2 demo_data2 [105] [104] demo_open
    (match Decode demo_block demo_open with Some (_, c) => c | None => demo_open end) demo_accepted).
  - apply echo_ok.
  - assert (wp (feed_all (Some echo) (take 2 demo_chunks)) (fun _ c => Inv c) (NewConn false [])) as Hw.
    { eapply wp_mono; [apply (wp_feed_all (Some echo)); [by apply Forall_take, demo_chunks_ok|]|by intros rs c ([? _] & _)].
      split; [by apply NewConn_Inv|constructor]. }
    apply wp_elim in Hw as (rs & c & E & Hc). unfold demo_open. by rewrite E.
  - by vm_compute.
  - by vm_compute.
  - by vm_compute.
  - by vm_compute.
  - apply taken_step. by vm_compute.
  - change [104] with ([] ++ [104]). apply (br_data _ _ _ demo_data1 [104] [] demo_accepted demo_accepted); [apply br_start; by vm_compute|..].
    + split; try (by vm_compute). bytes.
    + done.
    + by vm_compute.
    + by vm_compute.
    + apply taken_step. by vm_compute.
    + by vm_compute.
  - split; try (by vm_compute). bytes.
  - done.
  - by vm_compute.
  - by vm_compute.
  - by vm_compute.
Defined.

Lemma recv_window_restored_witness :
  giveRecvWindow 1 2 demo_conn =
    Some (None, set_outBuf (outBuf demo_conn ++
      encode_frame (mkFrame FrameWindowUpdate 0 0 (put32 2)) ++
      match streams demo_conn !! 1 with
      | Some _ => encode_frame (mkFrame FrameWindowUpdate 0 1 (put32 2))
      | None => []
      end) demo_conn).
Proof.
  apply (recv_window_restored 1 2 demo_conn).
  - apply demo_conn_Inv.
  - unfold defaultMaxFrameSize. lia.
Defined.

Lemma settings_roundtrip_witness :
  onSettings (mkFrame FrameSettings 0 0 (settings_payload [(4, 70000); (5, 20000)])) demo_conn =
  (try apply_settings [(4, 70000); (5, 20000)]; writeFrame (AppendSettingsAck [])) demo_conn.
Proof.
  apply (settings_roundtrip [(4, 70000); (5, 20000)] demo_conn).
  repeat (apply Forall_cons_2; [unfold setting_ok; cbn; lia|]). constructor.
Defined.
