(* ===== verification/H2Send.v ===== *)
(** * H2Send

    What the sending side of [http2.Conn] puts on the wire: how a header block
    is cut into HEADERS and CONTINUATION frames and put together again by the
    receiver, how data is cut by frame size and flow control, what is kept for
    later, and what [flushPending] sends when the windows grow. *)

From S2P Require Import Prelude Pump H2Frame H2Headers H2State H2Recv H2Safe H2Conn H2Feed.

(** Cutting into pieces of at most [max] bytes. *)
Fixpoint pieces (fuel : nat) (max : Z) (l : bytes) : list bytes :=
  match fuel with
  | O => []
  | S fuel => if zlen l =? 0 then [] else upto max l :: pieces fuel max (from max l)
  end.

Lemma pieces_concat fuel max : forall l,
  0 < max -> (length l < fuel)%nat -> concat (pieces fuel max l) = l.
Proof.
  induction fuel as [|fuel IH]; intros l Hm Hl; [lia|]. cbn.
  destruct (Z.eqb_spec (zlen l) 0) as [Hz|Hz]; [by apply zlen_zero in Hz|]. cbn.
  rewrite IH; [apply upto_from|done|]. unfold from, zlen in *. rewrite length_drop. lia.
Qed.

Lemma pieces_size fuel max : forall l,
  0 < max -> Forall (fun p => 0 < zlen p <= max) (pieces fuel max l).
Proof.
  induction fuel as [|fuel IH]; intros l Hm; cbn; [constructor|]. pose proof (zlen_nonneg l).
  destruct (Z.eqb_spec (zlen l) 0); constructor; [|by apply IH]. rewrite zlen_upto; lia.
Qed.

(** ** Header blocks *)

Fixpoint continuations (id : Z) (frs : list bytes) : list Frame :=
  match frs with
  | [] => []
  | [b] => [mkFrame FrameContinuation FlagContinuationEndHeaders id b]
  | b :: rest => mkFrame FrameContinuation 0 id b :: continuations id rest
  end.

(** A header block sent as [b] and then [frs]. *)
Definition header_frames (id : Z) (es : bool) (b : bytes) (frs : list bytes) : list Frame :=
  let flags := if es then FlagHeadersEndStream else 0 in
  match frs with
  | [] => [mkFrame FrameHeaders (flags .| FlagHeadersEndHeaders) id b]
  | _ => mkFrame FrameHeaders flags id b :: continuations id frs
  end.

Lemma encode_frames_app (l1 l2 : list Frame) :
  concat (encode_frame <$> (l1 ++ l2)) = concat (encode_frame <$> l1) ++ concat (encode_frame <$> l2).
Proof. by rewrite fmap_app, concat_app. Qed.

Lemma append_header dst t fl id b :
  AppendFrameHeader dst t fl id (zlen b) ++ b = dst ++ encode_frame (mkFrame t fl id b).
Proof. unfold AppendFrameHeader, encode_frame. cbn [f_Type f_Flags f_StreamID f_Payload].
  by rewrite <- !app_assoc. Qed.

Lemma continuation_frames_eq max id fuel : forall block buf,
  0 < max -> (length block < fuel)%nat ->
  continuation_frames fuel max id block buf =
  Some (buf ++ concat (encode_frame <$> continuations id (pieces fuel max block))).
Proof.
  induction fuel as [|fuel IH]; intros block buf Hm Hf; [lia|]. cbn.
  pose proof (zlen_nonneg block).
  destruct (Z.eqb_spec (zlen block) 0) as [Hz|Hz]; [cbn; by rewrite app_nil_r|].
  set (n := if zlen block <? max then zlen block else max).
  assert (upto n block = upto max block /\ from n block = from max block /\
          zlen (upto max block) = n /\ 0 < n <= zlen block) as (E1 & E2 & E3 & Hn).
  { unfold n. rewrite zlen_upto by lia. destruct (Z.ltb_spec (zlen block) max).
    - rewrite !upto_all by lia. unfold from, zlen in *. rewrite !drop_ge by lia.
      split; [done|split; [done|lia]].
    - split; [done|split; [done|lia]]. }
  rewrite E1, E2. rewrite <- E3 at 2. rewrite append_header.
  assert (length (from max block) < fuel)%nat as Hl.
  { unfold from, zlen in *. rewrite length_drop. lia. }
  rewrite IH by done. f_equal. rewrite <- app_assoc. f_equal.
  pose proof (pieces_concat fuel max (from max block) Hm Hl) as Hc.
  destruct (pieces fuel max (from max block)) as [|q qs] eqn:Hq.
  - cbn in Hc. assert (n = zlen block) as ->.
    { rewrite <- E3. pose proof (f_equal zlen (upto_from max block)) as Hz'.
      rewrite <- Hc, zlen_app in Hz'. change (zlen []) with 0 in Hz'. lia. }
    rewrite Z.eqb_refl. cbn. by rewrite app_nil_r.
  - replace (n =? zlen block) with false; [done|].
    symmetry. apply Z.eqb_neq. intros ->. assert (zlen (from max block) = 0) as Hz0.
    { rewrite <- E2. by rewrite from_all. }
    pose proof (pieces_size fuel max (from max block) Hm) as Hs. rewrite Hq in Hs.
    apply Forall_cons in Hs as [Hs _]. rewrite <- Hc in Hz0. cbn in Hz0.
    rewrite zlen_app in Hz0. pose proof (zlen_nonneg (concat qs)). lia.
Qed.

(** ** Receiving the fragments *)

Section Receive.
Context `{Hpack} {App : Type} `{!AppInv App} (handler : option (StreamHandler App)).
Notation Conn := (Conn App).
Notation go A := (M Conn A).

(** Frames handed to the connection one after the other, up to an error. *)
Fixpoint receive (fs : list Frame) : go (option Error) :=
  match fs with
  | [] => mret None
  | f :: fs => try onFrame handler f; receive fs
  end.

Definition seen_stream (id : Z) (c : Conn) : Conn :=
  set_lastStreamID (Z.max id (lastStreamID c)) c.

Lemma note_stream_eq id (c : Conn) :
  (if id >? lastStreamID c then set_lastStreamID id c else c) = seen_stream id c.
Proof.
  unfold seen_stream. destruct (id >? lastStreamID c) eqn:E.
  - by rewrite Z.max_l by lia.
  - rewrite Z.max_r by lia. by destruct c.
Qed.

Lemma onFrame_headers flags id b (c : Conn) :
  id <> 0 -> onFrame handler (mkFrame FrameHeaders flags id b) c =
             onHeaders handler (mkFrame FrameHeaders flags id b) (seen_stream id c).
Proof.
  intros Hid. unfold onFrame. cbn [f_Type f_StreamID].
  cbn. replace (id =? 0) with false by lia.
  unfold modify. cbv [mbind M_bind]. by rewrite note_stream_eq.
Qed.

Lemma onFrame_continuation flags id b (c : Conn) :
  id <> 0 -> onFrame handler (mkFrame FrameContinuation flags id b) c =
             onContinuation handler (mkFrame FrameContinuation flags id b) (seen_stream id c).
Proof.
  intros Hid. unfold onFrame. cbn [f_Type f_StreamID]. cbn.
  replace (id =? 0) with false by lia.
  unfold modify. cbv [mbind M_bind]. by rewrite note_stream_eq.
Qed.

Lemma seen_stream_id id (c : Conn) : id <= lastStreamID c -> seen_stream id c = c.
Proof. intros. unfold seen_stream. rewrite Z.max_r by lia. by destruct c. Qed.

Lemma receive_continuations id es frs : forall blk (c : Conn),
  0 < id <= lastStreamID c -> frs <> [] ->
  pendingHeaders c = mkPendingHeaders id blk es true ->
  receive (continuations id frs) c =
  finishHeaders handler id (blk ++ concat frs) es
    (set_pendingHeaders (mkPendingHeaders id (blk ++ concat frs) es false) c).
Proof.
  induction frs as [|b frs IH]; intros blk c Hid Hne Hph; [done|]. clear Hne.
  assert (forall flags k, check (onFrame handler (mkFrame FrameContinuation flags id b)) k c =
    check (if has flags FlagContinuationEndHeaders
           then (modify (set_pendingHeaders (mkPendingHeaders id (blk ++ b) es false)) ;;
                 finishHeaders handler id (blk ++ b) es)
           else mret None) k
      (set_pendingHeaders (mkPendingHeaders id (blk ++ b) es true) c)) as Hstep.
  { intros flags k. unfold check, mbind, M_bind.
    rewrite onFrame_continuation, seen_stream_id by lia.
    unfold onContinuation, gets, modify. cbv [mbind M_bind mret M_ret]. rewrite Hph.
    cbn [ph_active ph_streamID ph_block ph_endStream f_StreamID negb orb f_Payload].
    rewrite Z.eqb_refl. cbn [negb orb].
    change (EndHeaders (mkFrame FrameContinuation flags id b))
      with (has flags FlagContinuationEndHeaders).
    by destruct (has _ _). }
  destruct frs as [|b' frs].
  - cbn [continuations receive]. rewrite Hstep. cbn [concat]. rewrite app_nil_r.
    change (has FlagContinuationEndHeaders _) with true. cbv iota beta. unfold check, mbind, M_bind, modify.
    destruct (finishHeaders _ _ _ _ _) as [[[e|] c']|]; done.
  - change (receive (continuations id (b :: b' :: frs)))
      with (check (onFrame handler (mkFrame FrameContinuation 0 id b))
                  (receive (continuations id (b' :: frs)))).
    rewrite Hstep. change (has 0 FlagContinuationEndHeaders) with false. cbv iota.
    change (check (mret None) (receive (continuations id (b' :: frs))))
      with (receive (continuations id (b' :: frs))).
    rewrite (IH (blk ++ b)) by done. cbn [concat]. by rewrite <- !app_assoc.
Qed.

(** The fragments of one block are the block. *)
Lemma receive_header_frames id es b frs (c : Conn) :
  0 < id ->
  receive (header_frames id es b frs) c =
  finishHeaders handler id (b ++ concat frs) es
    (set_pendingHeaders
       (match frs with [] => pendingHeaders c
        | _ => mkPendingHeaders id (b ++ concat frs) es false end) (seen_stream id c)).
Proof.
  intros Hid. unfold header_frames. destruct frs as [|b' frs].
  - cbn [receive concat]. rewrite app_nil_r. unfold check, mbind, M_bind.
    rewrite onFrame_headers by lia.
    replace (set_pendingHeaders (pendingHeaders c) (seen_stream id c)) with (seen_stream id c)
      by (by destruct c).
    assert (onHeaders handler (mkFrame FrameHeaders ((if es then FlagHeadersEndStream else 0)
                                 .| FlagHeadersEndHeaders) id b) (seen_stream id c) =
            finishHeaders handler id b es (seen_stream id c)) as -> by by destruct es.
    by destruct (finishHeaders _ _ _ _ _) as [[[e|] c']|].
  - cbn [receive]. unfold check at 1, mbind at 1, M_bind at 1. rewrite onFrame_headers by lia.
    set (flags := if es then FlagHeadersEndStream else 0).
    assert (onHeaders handler (mkFrame FrameHeaders flags id b) (seen_stream id c) =
      Some (None, set_pendingHeaders (mkPendingHeaders id b es true) (seen_stream id c))) as E.
    { unfold flags. by destruct es. }
    rewrite E. rewrite (receive_continuations id es (b' :: frs) b); [done| |done|done].
    cbn. lia.
Qed.
End Receive.

(** ** Data *)

(** DATA frames for the pieces [ps]; [fin] puts END_STREAM on the last. *)
Fixpoint data_frames (id : Z) (fin : bool) (ps : list bytes) : list Frame :=
  match ps with
  | [] => []
  | [p] => [mkFrame FrameData (if fin then FlagDataEndStream else 0) id p]
  | p :: ps => mkFrame FrameData 0 id p :: data_frames id fin ps
  end.

(** What stays in the queue when only a prefix could be sent. *)
Definition left_over (id : Z) (es : bool) (rest : bytes) : list pendingData :=
  match rest with [] => [] | _ => [mkPending id rest es] end.

Definition is_nil {A} (l : list A) : bool := match l with [] => true | _ => false end.

Section Windows.
Context `{Hpack} {App : Type} `{!AppInv App}.
Notation Conn := (Conn App).
Notation go A := (M Conn A).

(** The send window of a stream in the table. *)
Definition stream_window (c : Conn) (id : Z) : option Z :=
  p ← streams c !! id; s_sendWindow <$> heap c !! p.

Definition available (c : Conn) (id : Z) : Z :=
  match stream_window c id with
  | Some w => Z.min w (sendWindow c)
  | None => sendWindow c
  end.

(** [c'] is [c] after [n] bytes of stream [id] were charged to its windows. *)
Record charged (id n : Z) (c c' : Conn) : Prop := {
  ch_conn : sendWindow c' = sendWindow c - n;
  ch_stream : stream_window c' id = (fun w => w - n) <$> stream_window c id;
  ch_others id' : id' <> id -> stream_window c' id' = stream_window c id';
  ch_max : peerMaxFrameSize c' = peerMaxFrameSize c;
}.

Lemma charged_0 id c : charged id 0 c c.
Proof.
  split; [lia| |done|done]. destruct (stream_window c id); cbn; [by rewrite Z.sub_0_r|done].
Qed.

Lemma charged_trans id n m c1 c2 c3 :
  charged id n c1 c2 -> charged id m c2 c3 -> charged id (n + m) c1 c3.
Proof.
  intros [A1 A2 A3 A4] [B1 B2 B3 B4].
  split; [lia| |intros; by rewrite B3, A3|congruence].
  rewrite B2, A2. destruct (stream_window c1 id); cbn; [|done]. f_equal. lia.
Qed.

Lemma wp_avail_eq id (c : Conn) :
  Inv c -> wp (avail_window id) (fun a c' => c' = c /\ a = available c id) c.
Proof.
  intros Hc. unfold avail_window, available, stream_window. wp_steps.
  destruct (streams c !! id) as [p|] eqn:Hp; cbn; [|by wp_steps].
  destruct (inv_ptr c Hc id p Hp) as (s & Hs & _). wp_steps.
  eapply wp_load; [done|]. wp_steps. rewrite Hs. cbn. split; [done|].
  destruct (Z.ltb_spec (s_sendWindow s) (sendWindow c)); lia.
Qed.

Lemma available_bound c id :
  Inv c -> available c id <= sendWindow c < 2 ^ 31 /\
           match stream_window c id with Some w => available c id <= w < 2 ^ 31 | None => True end.
Proof.
  intros Hc. pose proof (inv_send c Hc) as [_ Hs]. unfold available.
  destruct (stream_window c id) as [w|] eqn:Hw; [|lia]. split; [lia|].
  unfold stream_window in Hw. apply bind_Some in Hw as (p & Hp & Hw).
  apply fmap_Some in Hw as (s & Hs' & ->).
  pose proof (inv_stream c Hc p s Hs') as (_ & [_ ?] & _). lia.
Qed.

Lemma charged_available id n (c c' : Conn) :
  charged id n c c' -> available c' id = available c id - n.
Proof.
  intros [H1 H2 _ _]. unfold available. rewrite H1, H2. destruct (stream_window c id); cbn; lia.
Qed.

(** Charging no more than is available does not wrap around. *)
Lemma wp_debit id n (c : Conn) :
  Inv c -> 0 <= n <= available c id ->
  wp (debit id n)
     (fun _ c' => Inv c' /\ charged id n c c' /\ outBuf c' = outBuf c /\ pending c' = pending c) c.
Proof.
  intros Hc Hn. pose proof (available_bound c id Hc) as [Ha1 Ha2].
  eapply wp_mono.
  - apply (wp_and _ (fun _ c' => Inv c' /\ handler_step c c')); [by apply safe_debit|].
    apply (wp_mono _ (fun _ c' => charged id n c c' /\ outBuf c' = outBuf c /\
                                  pending c' = pending c)); [|intros ? ? HQ; exact HQ].
    assert (forall w, n <= w < 2 ^ 31 -> i32 (w - i32 n) = w - n) as Hw.
    { intros w ?. rewrite (i32_small n), i32_small by lia. done. }
    unfold debit. wp_steps. cbn. unfold stream_window in *.
    destruct (streams c !! id) as [p|] eqn:Hp; cbn in *.
    + destruct (inv_ptr c Hc id p Hp) as (s & Hs & Hsid). rewrite Hs in *. cbn in *.
      wp_steps. eapply wp_load; [done|]. wp_steps. eapply wp_store; [done|].
      split; [|done]. split; cbn; [apply Hw; lia| | |done].
      * unfold stream_window. cbn. rewrite Hp. cbn. rewrite lookup_insert_eq, Hs. cbn.
        f_equal. apply Hw. lia.
      * intros id' Hne. unfold stream_window. cbn. destruct (streams c !! id') as [q|] eqn:Hq; [|done].
        cbn. destruct (inv_ptr c Hc id' q Hq) as (t & Ht & Hid).
        rewrite lookup_insert_ne; [done|]. intros ->. congruence.
    + wp_steps. split; [|done]. split; cbn; [apply Hw; lia| |done|done].
      unfold stream_window. cbn. by rewrite Hp.
  - cbn. intros _ c' [[? _] (? & ? & ?)]. done.
Qed.

Lemma data_frames_cons id es p ps (rest : bytes) :
  data_frames id (es && is_nil rest) (p :: ps) =
  mkFrame FrameData (if (is_nil ps && is_nil rest) && es then FlagDataEndStream else 0) id p
    :: data_frames id (es && is_nil rest) ps.
Proof. destruct ps as [|q ps]; cbn; [by destruct es, rest|done]. Qed.

Lemma append_data dst id b fin :
  AppendData dst id b fin =
  dst ++ encode_frame (mkFrame FrameData (if fin then FlagDataEndStream else 0) id b).
Proof. apply append_header. Qed.

Lemma is_nil_concat max (ps : list bytes) (rest : bytes) :
  Forall (fun p => 0 < zlen p <= max) ps ->
  is_nil ps && is_nil rest = (zlen (concat ps ++ rest) =? 0).
Proof.
  destruct 1 as [|p ps Hp _]; cbn; [by destruct rest|]. rewrite !zlen_app.
  pose proof (zlen_nonneg (concat ps)). pose proof (zlen_nonneg rest).
  symmetry. apply Z.eqb_neq. lia.
Qed.

Lemma appendPending_Inv id data es (c : Conn) :
  Inv c -> Inv (set_pending (pending c ++ [mkPending id data es]) c).
Proof. intros []. split; cbn; eauto. Qed.

(** The outcome of sending [data]: the frames, what is left and the charge. *)
Definition sent_as (max id : Z) (es : bool) (data : bytes) (out : bytes) (c c' : Conn) : Prop :=
  exists ps rest,
    data = concat ps ++ rest /\ Forall (fun p => 0 < zlen p <= max) ps /\
    out = concat (encode_frame <$> data_frames id (es && is_nil rest) ps) /\
    pending c' = pending c ++ left_over id es rest /\
    charged id (zlen (concat ps)) c c' /\ zlen (concat ps) <= Z.max 0 (available c id) /\
    (rest = [] \/ available c' id <= 0).

Lemma sent_as_outBuf max id es data out b (c c' : Conn) :
  sent_as max id es data out c c' -> sent_as max id es data out c (set_outBuf b c').
Proof.
  intros (ps & rest & ? & ? & ? & ? & [] & ? & ?). exists ps, rest.
  split_and!; try done.
Qed.

Lemma wp_writeData_loop fuel max id es : forall data buf (c : Conn),
  Inv c -> 0 < max <= MaxFrameSize -> (length data < fuel)%nat ->
  wp (writeData_loop fuel max id data es buf)
     (fun buf' c' => Inv c' /\ outBuf c' = outBuf c /\
        exists out, buf' = buf ++ out /\ sent_as max id es data out c c') c.
Proof.
  unfold MaxFrameSize. induction fuel as [|fuel IH]; intros data buf c Hc Hm Hf; [lia|]. cbn.
  pose proof (zlen_nonneg data).
  destruct (Z.eqb_spec (zlen data) 0) as [Hz|Hz].
  { apply zlen_zero in Hz as ->. apply wp_ret. split; [done|]. split; [done|]. exists [].
    split; [by rewrite app_nil_r|]. exists [], []. cbn. rewrite app_nil_r.
    split; [done|]. split; [constructor|]. split; [done|]. split; [done|].
    split; [apply charged_0|]. split; [unfold zlen; cbn; lia|by left]. }
  apply wp_bind. eapply wp_mono; [by apply wp_avail_eq|]. intros a c0 [-> Ha].
  destruct (Z.leb_spec a 0) as [Hle|Hgt].
  { unfold appendPending. wp_steps. split; [by apply appendPending_Inv|]. split; [done|].
    exists []. split; [by rewrite app_nil_r|]. exists [], data. cbn.
    split; [done|]. split; [constructor|]. split; [done|].
    split; [by destruct data|]. split; [by destruct (charged_0 id c); split|].
    split; [unfold zlen; cbn; lia|right].
    rewrite Ha in Hle. exact Hle. }
  set (n0 := if zlen data <? max then zlen data else max).
  set (n := if i32 n0 >? a then a else n0).
  assert (0 < n <= a /\ n <= max /\ n <= zlen data) as (Hn1 & Hn2 & Hn3).
  { assert (0 < n0 <= max /\ n0 <= zlen data) as [? ?]
      by (unfold n0; destruct (_ <? max) eqn:?; lia).
    unfold n. clearbody n0. rewrite i32_small by lia. destruct (n0 >? a) eqn:?; lia. }
  wp_step. eapply wp_mono; [apply wp_debit; [done|lia]|].
  intros _ c1 (H1 & Hch & Ho & Hp). eapply wp_mono; [apply IH; [done|done|]|].
  { unfold from, zlen in *. rewrite length_drop. lia. }
  intros buf' c2 (H2 & Ho2 & out & -> & ps & rest & Hd & Hps & -> & Hp2 & Hch2 & Hsum & Hrest).
  split; [done|]. split; [congruence|]. eexists. split; [by rewrite append_data, <- app_assoc|].
  assert (zlen (upto n data) = n) as Hl by (rewrite zlen_upto; lia).
  exists (upto n data :: ps), rest.
  split; [cbn; by rewrite <- app_assoc, <- Hd, upto_from|]. split; [constructor; [lia|done]|].
  assert ((n =? zlen data) = is_nil ps && is_nil rest) as Hlast.
  { rewrite (is_nil_concat max), <- Hd by done. unfold n. rewrite zlen_from by lia. lia. }
  split; [by rewrite data_frames_cons, Hlast|]. split; [congruence|].
  rewrite (charged_available _ _ _ _ Hch) in Hsum.
  split; [|split; [|done]]; cbn [concat]; rewrite zlen_app, Hl; [by eapply charged_trans|lia].
Qed.

Lemma wp_writeDataLocked id data es (c : Conn) :
  Inv c ->
  (zlen data <=? peerMaxFrameSize c) && (i32 (zlen data) <=? sendWindow c) = false ->
  wp (writeDataLocked id data es)
     (fun e c' => e = None /\ Inv c' /\
        exists out, outBuf c' = outBuf c ++ out /\
                    sent_as (peerMaxFrameSize c) id es data out c c') c.
Proof.
  intros Hc Hslow. pose proof (inv_frame c Hc) as Hm. unfold defaultMaxFrameSize in Hm.
  unfold writeDataLocked. wp_step. wp_step. rewrite Hslow. wp_step.
  eapply wp_mono; [apply wp_writeData_loop; [done|lia|unfold fuel_for; lia]|].
  intros buf c1 (H1 & Ho & out & -> & Hs). rewrite app_nil_l.
  destruct (Z.ltb_spec 0 (zlen out)) as [|Hz]; unfold writeFrameLocked; cbv iota; wp_steps.
  - split; [done|]. split; [by apply pres_set_outBuf|]. exists out.
    split; [cbn; by rewrite Ho|by apply sent_as_outBuf].
  - split; [done|]. split; [done|]. exists out. pose proof (zlen_nonneg out).
    assert (out = []) as -> by (apply zlen_zero; lia). by rewrite app_nil_r.
Qed.

(** *** The queue *)

(** Queued data and frames, as sequences of bytes tagged with their stream. *)
Definition tag (id : Z) (b : bytes) : list (Z * Z) := (fun x => (id, x)) <$> b.
Definition queued (l : list pendingData) : list (Z * Z) :=
  concat ((fun p => tag (pd_streamID p) (pd_data p)) <$> l).
Definition framed (fs : list Frame) : list (Z * Z) :=
  concat ((fun f => tag (f_StreamID f) (f_Payload f)) <$> fs).

(** The bytes of one stream among them. *)
Fixpoint sent_on (id : Z) (fs : list Frame) : Z :=
  match fs with
  | [] => 0
  | f :: fs => (if f_StreamID f =? id then zlen (f_Payload f) else 0) + sent_on id fs
  end.

(** The windows pay for exactly the frames [fs]. *)
Record paid (fs : list Frame) (c c' : Conn) : Prop := {
  pay_conn : sendWindow c' = sendWindow c - zlen (framed fs);
  pay_stream id : stream_window c' id = (fun w => w - sent_on id fs) <$> stream_window c id;
}.

Lemma paid_nil (c : Conn) : paid [] c c.
Proof.
  split; [cbn; unfold zlen; cbn; lia|]. intros id. destruct (stream_window c id); cbn; [|done].
  by rewrite Z.sub_0_r.
Qed.

Lemma paid_cons t fl id b fs (c c1 c2 : Conn) :
  charged id (zlen b) c c1 -> paid fs c1 c2 -> paid (mkFrame t fl id b :: fs) c c2.
Proof.
  intros [A1 A2 A3 _] [B1 B2]. split.
  - unfold framed in *. rewrite fmap_cons. cbn [concat f_StreamID f_Payload]. rewrite zlen_app.
    unfold tag, zlen in *. rewrite length_fmap. lia.
  - intros id'. rewrite B2. cbn [sent_on f_StreamID f_Payload].
    destruct (Z.eqb_spec id id') as [<-|Hne].
    + rewrite A2. destruct (stream_window c id); cbn; [|done]. f_equal. lia.
    + rewrite A3 by done. destruct (stream_window c id'); cbn; done.
Qed.

Lemma tag_split id n b : tag id (upto n b) ++ tag id (from n b) = tag id b.
Proof. unfold tag. by rewrite <- fmap_app, upto_from. Qed.

(** What [flushPending] leaves behind: nothing, or data whose stream has no
    window left. *)
Definition stuck (c : Conn) : Prop :=
  match pending c with [] => True | p :: _ => available c (pd_streamID p) <= 0 end.

Definition small_pending (l : list pendingData) : Prop :=
  Forall (fun p => zlen (pd_data p) < 2 ^ 31) l.

Lemma pending_Inv l (c : Conn) : Inv c -> Inv (set_pending l c).
Proof. intros []. split; cbn; eauto. Qed.

Lemma wp_flushPending_loop fuel : forall c : Conn,
  Inv c -> small_pending (pending c) -> (length (pending c) < fuel)%nat ->
  wp (flushPending_loop fuel)
     (fun e c' => e = None /\ Inv c' /\ exists fs,
        outBuf c' = outBuf c ++ concat (encode_frame <$> fs) /\
        framed fs ++ queued (pending c') = queued (pending c) /\
        paid fs c c' /\ stuck c') c.
Proof.
  induction fuel as [|fuel IH]; intros c Hc Hsm Hf; [lia|]. cbn [flushPending_loop].
  wp_step. wp_step.
  destruct (pending c) as [|p rest] eqn:Hp.
  { wp_steps. split; [done|]. split; [done|]. exists []. cbn. rewrite app_nil_r, Hp.
    split; [done|]. split; [done|]. split; [apply paid_nil|]. unfold stuck. by rewrite Hp. }
  apply Forall_cons in Hsm as [Hps Hsm]. pose proof (zlen_nonneg (pd_data p)).
  apply wp_bind. eapply wp_mono; [by apply wp_avail_eq|]. intros a c0 [-> Ha].
  destruct (Z.leb_spec a 0) as [Hle|Hgt].
  { wp_steps. split; [done|]. split; [done|]. exists []. cbn. rewrite app_nil_r, Hp.
    split; [done|]. split; [done|]. split; [apply paid_nil|]. unfold stuck. rewrite Hp. lia. }
  rewrite i32_small by lia. destruct (zlen (pd_data p) >? a) eqn:Hfit.
  - apply wp_bind. eapply wp_mono; [apply wp_debit; [done|lia]|].
    intros _ c1 (H1 & Hch & Ho & Hp1). unfold writeFrameLocked. wp_steps.
    split; [done|]. split; [by apply pending_Inv, pres_set_outBuf|].
    exists [mkFrame FrameData 0 (pd_streamID p) (upto a (pd_data p))].
    assert (zlen (upto a (pd_data p)) = a) as Hl by (rewrite zlen_upto; lia).
    split; [cbn -[encode_frame AppendData]; by rewrite append_data, Ho, !app_nil_r|].
    split.
    { unfold framed, queued. cbn. rewrite app_nil_r, app_assoc. f_equal. apply tag_split. }
    split; [|unfold stuck; cbn -[available]].
    + eapply paid_cons; [rewrite Hl; exact Hch|].
      split; [cbn; unfold zlen; cbn; lia|]. intros id. cbn [sent_on]. unfold stream_window.
      cbn. by destruct (streams c1 !! id) as [q|]; cbn; [destruct (heap c1 !! q); cbn; rewrite ?Z.sub_0_r|].
    + apply charged_available in Hch. change (available c1 (pd_streamID p) <= 0). lia.
  - apply wp_bind. eapply wp_mono; [apply wp_debit; [done|lia]|].
    intros _ c1 (H1 & Hch & Ho & Hp1). unfold writeFrameLocked. wp_steps.
    set (fin := pd_endStream p && _).
    eapply wp_mono; [apply IH; [by apply pending_Inv, pres_set_outBuf|done|cbn in *; lia]|].
    intros e c2 (-> & H2 & fs & Ho2 & Hq & Hpay & Hst). split; [done|]. split; [done|].
    exists (mkFrame FrameData (if fin then FlagDataEndStream else 0) (pd_streamID p) (pd_data p) :: fs).
    split; [rewrite Ho2; cbn -[encode_frame AppendData]; by rewrite append_data, Ho, app_nil_l, <- app_assoc|].
    split; [|split; [|done]].
    + cbn in Hq. unfold framed, queued in *. rewrite !fmap_cons. cbn [concat f_StreamID f_Payload].
      by rewrite <- app_assoc, Hq.
    + eapply paid_cons; [exact Hch|]. destruct Hpay as [P1 P2]. by split.
Qed.
End Windows.

Lemma continuations_payloads (P : bytes -> Prop) id frs :
  Forall P frs -> Forall (fun f => P (f_Payload f)) (continuations id frs).
Proof.
  induction 1 as [|b frs Hb Hfrs IH]; [constructor|]. cbn. destruct frs; by constructor.
Qed.

Lemma header_frames_payloads (P : bytes -> Prop) id es b frs :
  Forall P (b :: frs) -> Forall (fun f => P (f_Payload f)) (header_frames id es b frs).
Proof.
  intros [Hb Hfrs]%Forall_cons. unfold header_frames.
  destruct frs as [|q qs]; [by repeat constructor|].
  constructor; [done|by apply continuations_payloads].
Qed.

Lemma writeHeaderBlock_eq `{Hpack} {App : Type} `{!AppInv App} id block es (c : Conn App) :
  Inv c -> exists b frs,
    writeHeaderBlock id block es c =
      Some (None, set_outBuf (outBuf c ++ concat (encode_frame <$> header_frames id es b frs)) c) /\
    b ++ concat frs = block /\ Forall (fun p => zlen p <= peerMaxFrameSize c) (b :: frs).
Proof.
  intros Hc. pose proof (inv_frame c Hc) as Hm. unfold defaultMaxFrameSize in Hm.
  unfold writeHeaderBlock, gets, writeFrame, writeFrameLocked, modify.
  cbv [mbind M_bind mret M_ret]. set (max := peerMaxFrameSize c) in *.
  destruct (Z.leb_spec (zlen block) max) as [Hle|Hgt].
  - exists block, []. split; [|split; [by rewrite app_nil_r|by repeat constructor]].
    cbn -[encode_frame AppendHeaders]. rewrite app_nil_r. unfold AppendHeaders.
    rewrite append_header. by destruct es.
  - assert (length (from max block) < fuel_for (from max block))%nat as Hf by (unfold fuel_for; lia).
    set (frs := pieces (fuel_for (from max block)) max (from max block)).
    assert (concat frs = from max block) as Hcat by (apply pieces_concat; [lia|done]).
    exists (upto max block), frs. split; [|split].
    + rewrite continuation_frames_eq by (done || lia). fold frs. unfold AppendHeaders.
      rewrite append_header, app_nil_l. unfold of_option. cbv [mret M_ret]. do 2 f_equal.
      assert (frs <> []) as Hne.
      { intros E. rewrite E in Hcat. apply (f_equal zlen) in Hcat. rewrite zlen_from in Hcat by lia.
        change (zlen (concat [])) with 0 in Hcat. lia. }
      unfold header_frames. destruct frs as [|q qs]; [done|]. by destruct es.
    + rewrite Hcat. apply upto_from.
    + constructor; [rewrite zlen_upto by lia; lia|].
      eapply Forall_impl; [apply pieces_size; lia|]. cbn. lia.
Qed.

(** ** Properties *)

Section SendProps.
Context `{Hpack} {App : Type} `{!AppInv App}.
Notation Conn := (Conn App).

(** C33: a header block crosses the wire whole.  [writeHeaderBlock] writes a
    HEADERS frame and as many CONTINUATION frames as the peer's frame size
    requires, none larger than it; a peer that receives these frames decodes
    exactly the block that was sent, with the END_STREAM flag that was sent,
    as if it had arrived in one frame. *)
Theorem header_block_roundtrip (handler : option (StreamHandler App)) id block es (c r : Conn) :
  Inv c -> 0 < id ->
  exists b frs ph,
    writeHeaderBlock id block es c =
      Some (None, set_outBuf (outBuf c ++ concat (encode_frame <$> header_frames id es b frs)) c) /\
    Forall (fun f => zlen (f_Payload f) <= peerMaxFrameSize c) (header_frames id es b frs) /\
    receive handler (header_frames id es b frs) r =
      finishHeaders handler id block es (set_pendingHeaders ph (seen_stream id r)).
Proof.
  intros Hc Hid. destruct (writeHeaderBlock_eq id block es c Hc) as (b & frs & E & Hcat & Hsize).
  exists b, frs. eexists. split; [exact E|]. split; [|by rewrite receive_header_frames, Hcat].
  by apply (header_frames_payloads (fun p => zlen p <= peerMaxFrameSize c)).
Qed.

(** C32: data is neither lost nor changed.  Whatever the windows and the frame
    size, the bytes given to [WriteData] are the payloads of the DATA frames it
    writes, in order, followed by what it queues; no frame is larger than the
    peer accepts; and END_STREAM, if asked for, is on the last frame when
    everything was written and with the queued rest otherwise. *)
Theorem WriteData_conserves id data es (c : Conn) :
  Inv c -> 0 <= sendWindow c ->
  wp (WriteData id data es)
     (fun e c' => e = None /\ Inv c' /\ exists ps rest,
        data = concat ps ++ rest /\ (ps <> [] \/ rest <> []) /\
        Forall (fun p => zlen p <= peerMaxFrameSize c) ps /\
        outBuf c' = outBuf c ++ concat (encode_frame <$> data_frames id (es && is_nil rest) ps) /\
        pending c' = pending c ++ left_over id es rest) c.
Proof.
  intros Hc Hw. pose proof (zlen_nonneg data). unfold WriteData.
  destruct ((zlen data <=? peerMaxFrameSize c) && (i32 (zlen data) <=? sendWindow c)) eqn:Hfast.
  - unfold writeDataLocked. wp_step. wp_step. rewrite Hfast. unfold writeFrameLocked. wp_steps.
    split; [done|]. split; [by apply pres_set_outBuf|]. exists [data], []. cbn [concat].
    rewrite !app_nil_r. split; [done|]. split; [by left|]. split; [constructor; [lia|done]|].
    cbn [outBuf set_outBuf]. rewrite append_data. destruct es; cbn; by rewrite ?app_nil_r.
  - eapply wp_mono; [by apply wp_writeDataLocked|].
    intros e c' (-> & H1 & out & Ho & ps & rest & Hd & Hps & -> & Hp & _). split; [done|].
    split; [done|]. exists ps, rest. split; [done|]. split; [|split; [|done]].
    + destruct ps; [right|by left]. cbn in Hd. subst rest. intros ->.
      pose proof (inv_frame c Hc) as Hm. unfold defaultMaxFrameSize in Hm.
      change (zlen []) with 0 in Hfast. rewrite i32_small in Hfast by lia. lia.
    + eapply Forall_impl; [exact Hps|]. cbn. lia.
Qed.

(** C36: data that has to be cut stays within both windows.  When the data is
    larger than one frame or than the connection window, what is written is at
    most what the smaller of the two windows allows, both windows are charged
    with exactly the bytes written, the windows of other streams are left
    alone, and something is queued only if a window is used up. *)
Theorem WriteData_within_windows id data es (c : Conn) :
  Inv c -> peerMaxFrameSize c < zlen data \/ sendWindow c < zlen data < 2 ^ 31 ->
  wp (WriteData id data es)
     (fun _ c' => exists ps rest,
        data = concat ps ++ rest /\
        outBuf c' = outBuf c ++ concat (encode_frame <$> data_frames id (es && is_nil rest) ps) /\
        charged id (zlen (concat ps)) c c' /\
        zlen (concat ps) <= Z.max 0 (available c id) /\
        (rest = [] \/ available c' id <= 0)) c.
Proof.
  intros Hc Hbig. pose proof (zlen_nonneg data). unfold WriteData.
  eapply wp_mono; [apply wp_writeDataLocked; [done|]|].
  - destruct Hbig as [Hb|Hb]; [lia|]. rewrite i32_small by lia. lia.
  - intros e c' (_ & _ & out & Ho & ps & rest & Hd & _ & -> & _ & Hch & Hsum & Hrest).
    exists ps, rest. by split_and!.
Qed.

(** the shortcut for small data charges nothing.  Data that fits one frame
    and the connection window is written as one frame at once and nothing else
    of the connection changes: neither window is charged, the window of the
    stream is not looked at, and data queued earlier stays queued behind it. *)
Theorem WriteData_shortcut id data es (c : Conn) :
  zlen data <= peerMaxFrameSize c -> zlen data < 2 ^ 31 -> zlen data <= sendWindow c ->
  WriteData id data es c =
    Some (None, set_outBuf (outBuf c ++ encode_frame
      (mkFrame FrameData (if es then FlagDataEndStream else 0) id data)) c).
Proof.
  intros Hm H31 Hw. pose proof (zlen_nonneg data).
  unfold WriteData, writeDataLocked, get, writeFrameLocked, modify. cbv [mbind M_bind mret M_ret].
  rewrite (i32_small (zlen data)) by lia.
  replace ((zlen data <=? peerMaxFrameSize c) && (zlen data <=? sendWindow c)) with true by lia.
  by rewrite append_data.
Qed.

(** The queue is sent in order and paid for.  [flushPending] writes DATA
    frames whose bytes, followed by what stays in the queue, are the bytes that
    were queued, stream by stream and in order; the connection window and the
    window of each stream are charged with exactly the bytes written for them;
    it stops only when the queue is empty or the stream at its head has no
    window left. *)
Theorem flushPending_conserves (c : Conn) :
  Inv c -> small_pending (pending c) ->
  wp flushPending
     (fun e c' => e = None /\ Inv c' /\ exists fs,
        outBuf c' = outBuf c ++ concat (encode_frame <$> fs) /\
        framed fs ++ queued (pending c') = queued (pending c) /\
        paid fs c c' /\ stuck c') c.
Proof.
  intros Hc Hsm. unfold flushPending. wp_step. wp_step.
  apply wp_flushPending_loop; [done|done|]. unfold fuel_for. rewrite length_fmap. lia.
Qed.
End SendProps.

(** ** Witnesses *)

Lemma header_block_roundtrip_witness :
  exists b frs ph,
    writeHeaderBlock 1 (replicate (Z.to_nat 20000) 7) true demo_conn =
      Some (None, set_outBuf (outBuf demo_conn ++
        concat (encode_frame <$> header_frames 1 true b frs)) demo_conn) /\
    Forall (fun f => zlen (f_Payload f) <= peerMaxFrameSize demo_conn) (header_frames 1 true b frs) /\
    receive (Some echo) (header_frames 1 true b frs) demo_conn =
      finishHeaders (Some echo) 1 (replicate (Z.to_nat 20000) 7) true
        (set_pendingHeaders ph (seen_stream 1 demo_conn)).
Proof.
  apply (header_block_roundtrip (Some echo) 1 (replicate (Z.to_nat 20000) 7) true demo_conn demo_conn).
  - apply demo_conn_Inv.
  - lia.
Defined.

Lemma demo_windows : 0 <= sendWindow demo_conn /\ peerMaxFrameSize demo_conn = 16384
                     /\ sendWindow demo_conn = 65535.
Proof. by vm_compute. Qed.

Lemma WriteData_conserves_witness :
  wp (WriteData 1 (replicate (Z.to_nat 70000) 7) true)
     (fun e c' => e = None /\ Inv c' /\ exists ps rest,
        replicate (Z.to_nat 70000) 7 = concat ps ++ rest /\ (ps <> [] \/ rest <> []) /\
        Forall (fun p => zlen p <= peerMaxFrameSize demo_conn) ps /\
        outBuf c' = outBuf demo_conn ++
          concat (encode_frame <$> data_frames 1 (true && is_nil rest) ps) /\
        pending c' = pending demo_conn ++ left_over 1 true rest) demo_conn.
Proof.
  apply (WriteData_conserves 1 (replicate (Z.to_nat 70000) 7) true demo_conn).
  - apply demo_conn_Inv.
  - apply demo_windows.
Defined.

Lemma WriteData_within_windows_witness :
  wp (WriteData 1 (replicate (Z.to_nat 70000) 7) true)
     (fun _ c' => exists ps rest,
        replicate (Z.to_nat 70000) 7 = concat ps ++ rest /\
        outBuf c' = outBuf demo_conn ++
          concat (encode_frame <$> data_frames 1 (true && is_nil rest) ps) /\
        charged 1 (zlen (concat ps)) demo_conn c' /\
        zlen (concat ps) <= Z.max 0 (available demo_conn 1) /\
        (rest = [] \/ available c' 1 <= 0)) demo_conn.
Proof.
  apply (WriteData_within_windows 1 (replicate (Z.to_nat 70000) 7) true demo_conn).
  - apply demo_conn_Inv.
  - left. destruct demo_windows as (_ & -> & _). unfold zlen. rewrite length_replicate. lia.
Defined.

Lemma WriteData_shortcut_witness :
  WriteData 1 [104; 105] true demo_conn =
    Some (None, set_outBuf (outBuf demo_conn ++ encode_frame
      (mkFrame FrameData FlagDataEndStream 1 [104; 105])) demo_conn).
Proof. apply (WriteData_shortcut 1 [104; 105] true demo_conn); by vm_compute. Defined.

(** Two streams with data in the queue. *)
Definition queue_conn : Conn (list event) :=
  set_pending [mkPending 1 [1; 2] true; mkPending 3 [3] true] demo_conn.

Lemma flushPending_conserves_witness :
  wp flushPending
     (fun e c' => e = None /\ Inv c' /\ exists fs,
        outBuf c' = outBuf queue_conn ++ concat (encode_frame <$> fs) /\
        framed fs ++ queued (pending c') = queued (pending queue_conn) /\
        paid fs queue_conn c' /\ stuck c') queue_conn.
Proof.
  apply (flushPending_conserves queue_conn).
  - apply pending_Inv, demo_conn_Inv.
  - repeat (apply Forall_cons_2; [by vm_compute|]). constructor.
Defined.
