(* ===== verification/H2Findings.v ===== *)
(** * H2Findings

    Concrete runs of the HTTP/2 model on inputs where the code does something
    its comments or RFC 9113 say it does not.  Each is an evaluation of the
    definitions translated from the source, with the coder and the handler of
    [H2Feed]. *)

From S2P Require Import Prelude Pump H2Frame H2Headers H2State H2Recv H2Safe H2Conn H2Feed H2Send.

(** END_STREAM of a queued end of stream is lost when the data of another
    stream is queued behind it: stream 1 never ends. *)
Lemma flush_loses_END_STREAM :
  (match flushPending queue_conn with
   | Some (None, c') => Some (from (zlen (outBuf queue_conn)) (outBuf c'), pending c')
   | _ => None
   end) = Some (encode_frame (mkFrame FrameData 0 1 [1; 2]) ++
                encode_frame (mkFrame FrameData FlagDataEndStream 3 [3]), []).
Proof. vm_compute. reflexivity. Qed.

(** A queued piece is sent as one frame, whatever the peer's frame size. *)
Definition big_queue : Conn (list event) :=
  set_pending [mkPending 1 (replicate (Z.to_nat 17000) 7) true] demo_conn.

Lemma flush_ignores_frame_size :
  match flushPending big_queue with
  | Some (None, c') =>
      is_nil (pending c') && (peerMaxFrameSize c' =? 16384) &&
      (zlen (outBuf c') =? zlen (outBuf big_queue) + frameHeaderLen + 17000)
  | _ => false
  end = true.
Proof. vm_compute. reflexivity. Qed.

(** A frame that arrives in two reads, the first of them together with the
    preface, is lost: the first half is dropped and the second is read as the
    start of a frame. *)
Definition seen (chunks : list bytes) : option (list (option Error) * list event) :=
  match feed_all (Some echo) chunks (NewConn false []) with
  | Some (rs, c) => Some (snd <$> rs, app c)
  | None => None
  end.

Lemma preface_tail_lost :
  seen [clientPreface; demo_headers] = Some ([None; None], [EvHeaders 1 demo_request false]) /\
  snd <$> seen [clientPreface ++ upto 4 demo_headers; from 4 demo_headers] = Some [].
Proof. split; vm_compute; reflexivity. Qed.

(** A second HEADERS block on an open stream replaces the declared length: a
    request that declared two bytes and sent five is accepted when a block
    without content-length ends it. *)
Definition undeclared : bytes :=
  encode_frame (mkFrame FrameHeaders (FlagHeadersEndHeaders .| FlagHeadersEndStream) 1
    (concat (plain_field <$> take 4 demo_request))).

Lemma content_length_replaced :
  seen [clientPreface; demo_headers; encode_frame (mkFrame FrameData 0 1 [1; 2; 3; 4; 5]); undeclared] =
  Some ([None; None; None; None],
        [EvHeaders 1 demo_request false; EvData 1 [1; 2; 3; 4; 5] false;
         EvHeaders 1 (take 4 demo_request) true]).
Proof. vm_compute. reflexivity. Qed.

(** Trailers after a request body are refused: they have no [:method]. *)
Lemma request_trailers_refused :
  exists msg,
    seen [clientPreface; demo_headers; encode_frame (mkFrame FrameData 0 1 [1; 2]);
          encode_frame (mkFrame FrameHeaders (FlagHeadersEndHeaders .| FlagHeadersEndStream) 1
            (plain_field (mkField "x-checksum" "1")))] =
    Some ([None; None; None; Some (StreamError 1 ErrCodeProtocol msg)],
          [EvHeaders 1 demo_request false; EvData 1 [1; 2] false]).
Proof. eexists. vm_compute. reflexivity. Qed.

(** An empty DATA frame never reaches the handler, also when it carries
    END_STREAM: the handler is not told that the request ended. *)
Lemma empty_DATA_is_silent `{Hpack} {App} (h : option (StreamHandler App)) f :
  f_Payload f = [] -> has (f_Flags f) FlagHeadersPadded = false -> onData h f = onData None f.
Proof. intros Hp Hf. unfold onData, unpad. by rewrite Hf, Hp. Qed.
