(* ===== verification/H3Varint.v ===== *)
(** * H3Varint

    [http3/varint.go]: the variable-length integers of QUIC.  The two top bits
    of the first byte give the length, 1, 2, 4 or 8 bytes. *)

From S2P Require Import Prelude GoStd.

Definition ErrVarintTooShort : error := errorsNew "http3: varint truncated".
Definition ErrVarintTooLong : error := errorsNew "http3: varint value too large".

Definition VarintLen (v : Z) : Z :=
  if v <? 1 << 6 then 1
  else if v <? 1 << 14 then 2
  else if v <? 1 << 30 then 4
  else if v <? 1 << 62 then 8
  else 0.

Definition AppendVarint (dst : bytes) (v : Z) : bytes :=
  if v <? 1 << 6 then dst ++ [u8 v]
  else if v <? 1 << 14 then dst ++ [u8 (v >> 8) .| 0x40; u8 v]
  else if v <? 1 << 30 then dst ++ [u8 (v >> 24) .| 0x80; u8 (v >> 16); u8 (v >> 8); u8 v]
  else if v <? 1 << 62 then
    dst ++ [u8 (v >> 56) .| 0xc0; u8 (v >> 48); u8 (v >> 40); u8 (v >> 32);
            u8 (v >> 24); u8 (v >> 16); u8 (v >> 8); u8 v]
  else dst.

(** [for i := 1; i < size; i++ { v = v<<8 | uint64(b[i]) }] *)
Fixpoint ReadVarint_loop (k : nat) (i v : Z) (b : bytes) : Z :=
  match k with
  | O => v
  | S k => ReadVarint_loop k (i + 1) (u64 (v << 8) .| at_ b i) b
  end.

Definition ReadVarint (b : bytes) : (Z * Z) + error :=
  if zlen b =? 0 then inr ErrVarintTooShort
  else
    let prefix := at_ b 0 >> 6 in
    let size := 1 << prefix in
    if zlen b <? size then inr ErrVarintTooShort
    else inl (ReadVarint_loop (Z.to_nat (size - 1)) 1 (at_ b 0 .& 0x3f) b, size).

Definition AppendVarintLen (dst content : bytes) : bytes :=
  AppendVarint dst (zlen content) ++ content.

(** [len(b)-m] is not negative and [int(l)] does not wrap: see [ReadVarint_bound]. *)
Definition ReadVarintLen (b : bytes) : (bytes * Z) + error :=
  match ReadVarint b with
  | inr e => inr e
  | inl (l, m) =>
      if u64 (zlen b - m) <? l then inr ErrVarintTooShort
      else inl (slice m (m + l) b, m + l)
  end.

(** ** Reading *)

Lemma prefix_cases b : is_byte b -> b >> 6 = 0 \/ b >> 6 = 1 \/ b >> 6 = 2 \/ b >> 6 = 3.
Proof. unfold is_byte. intros. rewrite shr_div by lia. change (2 ^ 6) with 64. zarith. Qed.

Lemma size_cases b :
  is_byte b -> 1 << (b >> 6) = 1 \/ 1 << (b >> 6) = 2 \/ 1 << (b >> 6) = 4 \/ 1 << (b >> 6) = 8.
Proof. intros Hb. destruct (prefix_cases b Hb) as [-> | [-> | [-> | -> ]]]; vm_compute; auto. Qed.

Lemma ReadVarint_loop_bound b k : forall i v w,
  bytes_ok b -> 0 <= w -> w + 8 * Z.of_nat k <= 62 -> 0 <= v < 2 ^ w ->
  0 <= ReadVarint_loop k i v b < 2 ^ (w + 8 * Z.of_nat k).
Proof.
  induction k as [|k IH]; intros i v w Hb Hw Hk Hv.
  { cbn [ReadVarint_loop]. by replace (w + 8 * Z.of_nat 0) with w by lia. }
  cbn [ReadVarint_loop]. replace (w + 8 * Z.of_nat (S k)) with ((w + 8) + 8 * Z.of_nat k) by lia.
  apply IH; [done|lia|lia|]. pose proof (at_byte b i Hb) as Hbi. unfold is_byte in Hbi.
  assert (2 ^ (w + 8) = 2 ^ w * 256) as Hp by (rewrite Z.pow_add_r by lia; done).
  assert (2 ^ (w + 8) <= 2 ^ 62) by (apply Z.pow_le_mono_r; lia).
  assert (2 ^ 62 < 2 ^ 64) by done.
  unfold u64. rewrite Z.shiftl_mul_pow2, Z.mod_small by lia.
  rewrite <- Z.shiftl_mul_pow2, lor_shiftl_add by lia. lia.
Qed.

Lemma ReadVarint_bound b v n :
  bytes_ok b -> ReadVarint b = inl (v, n) ->
  0 <= v < 2 ^ 62 /\ 1 <= n <= 8 /\ n <= zlen b.
Proof.
  unfold ReadVarint. intros Hb. pose proof (zlen_nonneg b).
  destruct (Z.eqb_spec (zlen b) 0); [done|].
  destruct (Z.ltb_spec (zlen b) (1 << (at_ b 0 >> 6))) as [|Hl]; [done|].
  intros [= <- <-]. pose proof (at_byte b 0 Hb) as H0.
  assert (0 <= at_ b 0 .& 63 < 2 ^ 6) as Hf.
  { change 63 with (Z.ones 6). rewrite Z.land_ones by lia. apply Z.mod_pos_bound. lia. }
  assert (forall k, (k <= 7)%nat ->
            0 <= ReadVarint_loop k 1 (at_ b 0 .& 63) b < 2 ^ 62) as Hk.
  { intros k Hk. pose proof (ReadVarint_loop_bound b k 1 (at_ b 0 .& 63) 6 Hb) as Hr.
    assert (2 ^ (6 + 8 * Z.of_nat k) <= 2 ^ 62) by (apply Z.pow_le_mono_r; lia).
    specialize (Hr ltac:(lia) ltac:(lia) Hf). lia. }
  pose proof (size_cases _ H0). split; [apply Hk|]; lia.
Qed.

(** Bytes behind the integer do not matter. *)
Lemma ReadVarint_loop_app b x k : forall i v,
  0 <= i -> i + Z.of_nat k <= zlen b ->
  ReadVarint_loop k i v (b ++ x) = ReadVarint_loop k i v b.
Proof.
  induction k as [|k IH]; intros i v Hi Hk; [done|]. cbn [ReadVarint_loop].
  rewrite at_app_l by lia. apply IH; lia.
Qed.

Lemma ReadVarint_app b x r : ReadVarint b = inl r -> ReadVarint (b ++ x) = inl r.
Proof.
  unfold ReadVarint. pose proof (zlen_nonneg b). pose proof (zlen_nonneg x).
  destruct (Z.eqb_spec (zlen b) 0); [done|]. rewrite zlen_app, at_app_l by lia.
  destruct (Z.ltb_spec (zlen b) (1 << (at_ b 0 >> 6))) as [|Hl]; [done|]. intros [= <-].
  replace (zlen b + zlen x =? 0) with false by lia.
  replace (zlen b + zlen x <? _) with false by lia.
  do 2 f_equal. pose proof (Z.shiftl_nonneg 1 (at_ b 0 >> 6)) as [_ Hn].
  apply ReadVarint_loop_app; lia.
Qed.

(** ** Writing *)

(** One byte more: the accumulator holds the bits read so far. *)
Lemma varint_step v k k8 :
  0 <= v < 2 ^ 62 -> 0 <= k -> k8 = k + 8 -> u64 ((v >> k8) << 8) .| u8 (v >> k) = v >> k.
Proof.
  intros Hv Hk ->. rewrite !shr_div by lia. rewrite Z.pow_add_r, <- Z.div_div by lia.
  set (q := v / 2 ^ k). assert (0 <= q < 2 ^ 62) as Hq.
  { unfold q. pose proof (Z.pow_pos_nonneg 2 k). split; [apply Z.div_pos; lia|].
    apply Z.div_lt_upper_bound; [lia|]. nia. }
  unfold u64, u8. rewrite Z.shiftl_mul_pow2, Z.mod_small by zarith.
  rewrite <- Z.shiftl_mul_pow2, lor_shiftl_add by zarith. zarith.
Qed.

Lemma varint_last v : 0 <= v < 2 ^ 62 -> u64 ((v >> 8) << 8) .| u8 v = v.
Proof. intros Hv. by apply (varint_step v 0 8). Qed.

(** The first byte: prefix and top bits. *)
Lemma varint_first x p :
  0 <= x < 64 -> 0 <= p < 4 ->
  (u8 x .| (p << 6)) >> 6 = p /\ (u8 x .| (p << 6)) .& 0x3f = x.
Proof.
  intros Hx Hp. rewrite (u8_small x), Z.lor_comm, lor_shiftl_add by (unfold is_byte; lia).
  change 63 with (Z.ones 6). rewrite Z.land_ones, shr_div by lia. split; zarith.
Qed.

Lemma varint_top v k : 0 <= k -> 0 <= v < 2 ^ (k + 6) -> 0 <= v >> k < 64.
Proof.
  intros Hk Hv. rewrite shr_div by lia. rewrite Z.pow_add_r in Hv by lia.
  pose proof (Z.pow_pos_nonneg 2 k). split; [apply Z.div_pos; lia|].
  apply Z.div_lt_upper_bound; lia.
Qed.

Lemma AppendVarint_dst dst v : AppendVarint dst v = dst ++ AppendVarint [] v.
Proof. unfold AppendVarint. branches; by rewrite ?app_nil_r. Qed.

Ltac varint_bounds :=
  change (1 << 6) with (2 ^ (0 + 6)); change (1 << 14) with (2 ^ (8 + 6));
  change (1 << 30) with (2 ^ (24 + 6)); change (1 << 62) with (2 ^ (56 + 6)).

Lemma AppendVarint_ok v : 0 <= v -> bytes_ok (AppendVarint [] v).
Proof.
  intros Hv. unfold AppendVarint. rewrite !app_nil_l. varint_bounds.
  assert (forall k p, 0 <= k -> 0 <= p < 4 -> v < 2 ^ (k + 6) ->
            is_byte (u8 (v >> k) .| (p << 6))) as Hb.
  { intros k p Hk Hp Hvk. pose proof (varint_top v k Hk ltac:(lia)).
    rewrite (u8_small (v >> k)), Z.lor_comm, lor_shiftl_add by (unfold is_byte; lia).
    unfold is_byte. lia. }
  branches; repeat (apply bytes_ok_cons; [auto with go|]); try apply bytes_ok_nil.
  - apply (Hb 8 1); lia.
  - apply (Hb 24 2); lia.
  - apply (Hb 56 3); lia.
Qed.

Lemma ReadVarint_cons a l :
  ReadVarint (a :: l) =
  if 1 + zlen l <? 1 << (a >> 6) then inr ErrVarintTooShort
  else inl (ReadVarint_loop (Z.to_nat (1 << (a >> 6) - 1)) 1 (a .& 0x3f) (a :: l), 1 << (a >> 6)).
Proof.
  unfold ReadVarint. rewrite zlen_cons. pose proof (zlen_nonneg l).
  by replace (1 + zlen l =? 0) with false by lia.
Qed.

Lemma ReadVarint_Append v rest :
  0 <= v < 2 ^ 62 -> ReadVarint (AppendVarint [] v ++ rest) = inl (v, VarintLen v).
Proof.
  intros Hv. unfold AppendVarint, VarintLen. rewrite !app_nil_l. pose proof (zlen_nonneg rest).
  varint_bounds.
  assert (forall k p, 0 <= k -> 0 <= p < 4 -> v < 2 ^ (k + 6) ->
    (u8 (v >> k) .| (p << 6)) >> 6 = p /\ (u8 (v >> k) .| (p << 6)) .& 0x3f = v >> k) as Hf.
  { intros k p Hk Hp Hvk. apply varint_first; [apply varint_top; lia|done]. }
  branches; [| | | |lia]; cbn [app]; rewrite ReadVarint_cons, ?zlen_cons.
  - destruct (Hf 0 0) as [E1 E2]; [lia..|]. rewrite Z.shiftr_0_r, Z.shiftl_0_l, Z.lor_0_r in E1, E2.
    rewrite E1, E2. change (1 << 0) with 1. replace (_ <? 1) with false by lia. done.
  - destruct (Hf 8 1) as [E1 E2]; [lia..|]. change 64 with (1 << 6). rewrite E1, E2.
    change (1 << 1) with 2. replace (_ <? 2) with false by lia.
    change (Z.to_nat (2 - 1)) with 1%nat. cbn [ReadVarint_loop]. do 2 f_equal. by apply varint_last.
  - destruct (Hf 24 2) as [E1 E2]; [lia..|]. change 0x80 with (2 << 6). rewrite E1, E2.
    change (1 << 2) with 4. replace (_ <? 4) with false by lia.
    change (Z.to_nat (4 - 1)) with 3%nat. cbn [ReadVarint_loop]. do 2 f_equal.
    change (u64 ((u64 ((u64 ((v >> 24) << 8) .| u8 (v >> 16)) << 8) .| u8 (v >> 8)) << 8) .| u8 v = v).
    rewrite (varint_step v 16), (varint_step v 8) by (done || lia). by apply varint_last.
  - destruct (Hf 56 3) as [E1 E2]; [lia..|]. change 0xc0 with (3 << 6). rewrite E1, E2.
    change (1 << 3) with 8. replace (_ <? 8) with false by lia.
    change (Z.to_nat (8 - 1)) with 7%nat. cbn [ReadVarint_loop]. do 2 f_equal.
    change (u64 ((u64 ((u64 ((u64 ((u64 ((u64 ((u64 ((v >> 56) << 8) .| u8 (v >> 48)) << 8)
      .| u8 (v >> 40)) << 8) .| u8 (v >> 32)) << 8) .| u8 (v >> 24)) << 8)
      .| u8 (v >> 16)) << 8) .| u8 (v >> 8)) << 8) .| u8 v = v).
    rewrite (varint_step v 48), (varint_step v 40), (varint_step v 32), (varint_step v 24),
      (varint_step v 16), (varint_step v 8) by (done || lia). by apply varint_last.
Qed.

Lemma zlen_AppendVarint v : 0 <= v < 2 ^ 62 -> zlen (AppendVarint [] v) = VarintLen v.
Proof.
  intros Hv. unfold AppendVarint, VarintLen. varint_bounds. branches; done || lia.
Qed.

(** ** Properties *)

(** varints round trip.  Every value a varint can hold is read back from
    the bytes [AppendVarint] writes, whatever follows them, and takes exactly
    [VarintLen] bytes; conversely whatever is read from any bytes is such a
    value and lies inside the buffer. *)
Theorem varint_roundtrip v rest b w n :
  0 <= v < 2 ^ 62 -> bytes_ok b -> ReadVarint b = inl (w, n) ->
  ReadVarint (AppendVarint [] v ++ rest) = inl (v, VarintLen v) /\
  zlen (AppendVarint [] v) = VarintLen v /\
  0 <= w < 2 ^ 62 /\ 1 <= n <= 8 /\ n <= zlen b.
Proof.
  intros Hv Hb Hr. split; [by apply ReadVarint_Append|]. split; [by apply zlen_AppendVarint|].
  by apply ReadVarint_bound.
Qed.

(** length-prefixed fields round trip.  The content that [AppendVarintLen]
    writes is read back whole by [ReadVarintLen], with the number of bytes it
    occupies, whatever follows it. *)
Theorem varint_len_roundtrip content rest :
  zlen content < 2 ^ 62 -> zlen content + zlen rest < 2 ^ 63 ->
  ReadVarintLen (AppendVarintLen [] content ++ rest) =
    inl (content, zlen (AppendVarintLen [] content)).
Proof.
  intros Hc Hr. pose proof (zlen_nonneg content). pose proof (zlen_nonneg rest).
  unfold ReadVarintLen, AppendVarintLen. rewrite <- app_assoc, ReadVarint_Append by lia.
  pose proof (zlen_AppendVarint (zlen content) ltac:(lia)) as Hl.
  rewrite !zlen_app, <- Hl. set (b := AppendVarint [] (zlen content)).
  replace (zlen b + (zlen content + zlen rest) - zlen b) with (zlen content + zlen rest) by lia.
  unfold u64. rewrite Z.mod_small by lia.
  replace (zlen content + zlen rest <? zlen content) with false by lia.
  by rewrite slice_app_mid.
Qed.

(** ** Witnesses *)

Lemma varint_roundtrip_witness :
  ReadVarint (AppendVarint [] 15293 ++ [1; 2]) = inl (15293, VarintLen 15293) /\
  zlen (AppendVarint [] 15293) = VarintLen 15293 /\
  0 <= 37 < 2 ^ 62 /\ 1 <= 2 <= 8 /\ 2 <= zlen [64; 37].
Proof. apply (varint_roundtrip 15293 [1; 2] [64; 37] 37 2); [lia|bytes|done]. Defined.

Lemma varint_len_roundtrip_witness :
  ReadVarintLen (AppendVarintLen [] [9; 8; 7] ++ [6]) =
    inl ([9; 8; 7], zlen (AppendVarintLen [] [9; 8; 7])).
Proof. apply (varint_len_roundtrip [9; 8; 7] [6]); by vm_compute. Defined.
