(* ===== verification/H3Frame.v ===== *)
(** * H3Frame

    [http3/frame.go]: the frames of HTTP/3 and their parser.  A frame is a
    type, a length, both varints, and a payload; the parser keeps the tail of
    each read itself.  The loop is an instance of [Pump.pump], so everything
    proved there holds of it. *)

From S2P Require Import Prelude Pump GoStd H3Varint.

Definition FrameData : Z := 0x0.
Definition FrameHeaders : Z := 0x1.
Definition FrameCancelPush : Z := 0x3.
Definition FrameSettings : Z := 0x4.
Definition FramePushPromise : Z := 0x5.
Definition FrameGoAway : Z := 0x7.
Definition FrameMaxPushID : Z := 0xd.

Definition IsRequestStream (id : Z) : bool := id .& 0x3 =? 0.

Definition ErrBadFrame : error := errorsNew "http3: malformed frame".
Definition ErrFrameTooLong : error := errorsNew "http3: frame payload too large".

Record Frame : Type := mkFrame { f_Type : Z; f_Payload : bytes }.

Definition FrameType_String (t : Z) : string :=
  if t =? FrameData then "DATA"
  else if t =? FrameHeaders then "HEADERS"
  else if t =? FrameCancelPush then "CANCEL_PUSH"
  else if t =? FrameSettings then "SETTINGS"
  else if t =? FramePushPromise then "PUSH_PROMISE"
  else if t =? FrameGoAway then "GOAWAY"
  else if t =? FrameMaxPushID then "MAX_PUSH_ID"
  else "UNKNOWN(0x" +:+ fmt_x t +:+ ")".

Definition maxFramePayload : Z := 16 * 1024 * 1024.

Record FrameParser : Type := mkParser { p_buf : bytes }.

Definition NewFrameParser : FrameParser := mkParser [].
Definition Reset (p : FrameParser) : FrameParser := mkParser [].
Definition Buffered (p : FrameParser) : Z := zlen (p_buf p).

Section Parse.
Context {S : Type} (fn : Frame -> M S (option error)).

(** The loop of [Parse] over [work], from [consumed] on. *)
Fixpoint Parse_loop (fuel : nat) (work : bytes) (consumed : Z) : M S (Z * option error) :=
  match fuel with
  | O => panic
  | Datatypes.S fuel =>
      match ReadVarint (from consumed work) with
      | inr _ => mret (consumed, None)
      | inl (ftype, n) =>
          match ReadVarint (from (consumed + n) work) with
          | inr _ => mret (consumed, None)
          | inl (length, m) =>
              if length >? maxFramePayload then
                mret (consumed, Some (errorfWrap ErrFrameTooLong
                  (fmt_d length +:+ " > " +:+ fmt_d maxFramePayload)))
              else
                let headLen := n + m in
                if u64 (zlen work - consumed - headLen) <? length then mret (consumed, None)
                else
                  e ← fn (mkFrame ftype (slice (consumed + headLen) (consumed + headLen + length) work));
                  match e with
                  | Some e => mret (consumed, Some e)
                  | None => Parse_loop fuel work (consumed + (headLen + length))
                  end
          end
      end
  end.

(** The parser object is passed and returned; the callback works on [S]. *)
Definition Parse (p : FrameParser) (data : bytes) : M S (FrameParser * (Z * option error)) :=
  let work := if 0 <? zlen (p_buf p) then p_buf p ++ data else data in
  r ← Parse_loop (fuel_for work) work 0;
  let '(consumed, err) := r in
  mret (mkParser (from consumed work), (zlen data, err)).
End Parse.

Definition AppendFrame (dst : bytes) (ftype : Z) (payload : bytes) : bytes :=
  let dst := AppendVarint dst ftype in
  let dst := AppendVarint dst (zlen payload) in
  dst ++ payload.

Definition AppendData (dst body : bytes) : bytes := AppendFrame dst FrameData body.
Definition AppendHeaders (dst block : bytes) : bytes := AppendFrame dst FrameHeaders block.

Record Setting : Type := mkSetting { ID : Z; Value : Z }.

Definition AppendSettings_payload (settings : list Setting) : bytes :=
  fold_left (fun payload s => AppendVarint (AppendVarint payload (ID s)) (Value s)) settings [].

Definition AppendSettings (dst : bytes) (settings : list Setting) : bytes :=
  AppendFrame dst FrameSettings (AppendSettings_payload settings).

(** Each turn reads at least two bytes; the length is fuel enough. *)
Fixpoint ParseSettings_loop (fuel : nat) (payload : bytes) (i : Z) (out : list Setting)
    : option (list Setting + error) :=
  if zlen payload <=? i then Some (inl out)
  else
    match fuel with
    | O => None
    | S fuel =>
        match ReadVarint (from i payload) with
        | inr e => Some (inr (errorfWrap ErrBadFrame ("setting id: " +:+ error_text e)))
        | inl (id, n) =>
            match ReadVarint (from (i + n) payload) with
            | inr e => Some (inr (errorfWrap ErrBadFrame ("setting value: " +:+ error_text e)))
            | inl (val, m) =>
                ParseSettings_loop fuel payload (i + (n + m)) (out ++ [mkSetting id val])
            end
        end
    end.

Definition ParseSettings (payload : bytes) : option (list Setting + error) :=
  ParseSettings_loop (length payload) payload 0 [].

(** ** The parser as a framing *)

Definition cut_frame (b : bytes) : cut_result Frame error :=
  match ReadVarint b with
  | inr _ => CutMore
  | inl (ftype, n) =>
      match ReadVarint (from n b) with
      | inr _ => CutMore
      | inl (length, m) =>
          if length >? maxFramePayload then
            CutBad (errorfWrap ErrFrameTooLong (fmt_d length +:+ " > " +:+ fmt_d maxFramePayload))
          else if zlen b <? n + m + length then CutMore
          else CutFrame (mkFrame ftype (slice (n + m) (n + m + length) b)) (n + m + length)
      end
  end.

Lemma two_varints b t n l m :
  bytes_ok b -> ReadVarint b = inl (t, n) -> ReadVarint (from n b) = inl (l, m) ->
  0 <= t < 2 ^ 62 /\ 0 <= l < 2 ^ 62 /\ 0 < n /\ 0 < m /\ n + m <= zlen b.
Proof.
  intros Hb H1 H2. pose proof (ReadVarint_bound _ _ _ Hb H1) as (? & ? & ?).
  pose proof (ReadVarint_bound _ _ _ (bytes_ok_from n b Hb) H2) as (? & ? & Hm).
  rewrite zlen_from in Hm by lia. lia.
Qed.

Lemma two_varints_app b x t n l m :
  bytes_ok b -> ReadVarint b = inl (t, n) -> ReadVarint (from n b) = inl (l, m) ->
  ReadVarint (b ++ x) = inl (t, n) /\ ReadVarint (from n (b ++ x)) = inl (l, m).
Proof.
  intros Hb H1 H2. pose proof (ReadVarint_bound _ _ _ Hb H1) as (? & ? & ?).
  rewrite from_app_le by lia. split; by apply ReadVarint_app.
Qed.

#[export] Instance cut_frame_framing : Framing cut_frame.
Proof.
  split; intros b; [intros f n Hb H|intros x f n Hb H|intros x e Hb H]; unfold cut_frame in *;
    destruct (ReadVarint b) as [[t n1]|] eqn:E1; try done;
    destruct (ReadVarint (from n1 b)) as [[l m]|] eqn:E2; try done;
    pose proof (two_varints _ _ _ _ _ Hb E1 E2) as (? & ? & ? & ? & ?).
  2, 3: destruct (two_varints_app b x _ _ _ _ Hb E1 E2) as [-> ->].
  all: destruct (l >? maxFramePayload); try done;
    destruct (Z.ltb_spec (zlen b) (n1 + m + l)); try done.
  - inversion H; subst. lia.
  - rewrite zlen_app, slice_app_le by lia. pose proof (zlen_nonneg x).
    by replace (_ <? _) with false by lia.
Qed.

(** A frame the parser accepts. *)
Record frame_ok (f : Frame) : Prop := {
  ok_type : 0 <= f_Type f < 2 ^ 62;
  ok_payload : bytes_ok (f_Payload f);
  ok_len : zlen (f_Payload f) <= maxFramePayload;
}.

Definition encode_frame (f : Frame) : bytes := AppendFrame [] (f_Type f) (f_Payload f).

Lemma encode_frame_eq f :
  encode_frame f =
  AppendVarint [] (f_Type f) ++ AppendVarint [] (zlen (f_Payload f)) ++ f_Payload f.
Proof.
  unfold encode_frame, AppendFrame. by rewrite (AppendVarint_dst (AppendVarint _ _)), <- app_assoc.
Qed.

#[export] Instance cut_frame_codec : FramingCodec cut_frame encode_frame frame_ok.
Proof.
  split; [apply _|..].
  - intros f [Ht Hp Hl]. pose proof (zlen_nonneg (f_Payload f)). rewrite encode_frame_eq.
    apply bytes_ok_app_2; [apply AppendVarint_ok; lia|].
    apply bytes_ok_app_2; [apply AppendVarint_ok; lia|done].
  - intros f x [Ht Hp Hl]. pose proof (zlen_nonneg (f_Payload f)).
    unfold maxFramePayload in Hl. rewrite encode_frame_eq. unfold cut_frame.
    rewrite <- !app_assoc, ReadVarint_Append by done.
    rewrite <- zlen_AppendVarint, from_app_length, ReadVarint_Append by lia.
    rewrite <- zlen_AppendVarint by lia. unfold maxFramePayload.
    replace (_ >? _) with false by lia. rewrite !zlen_app. pose proof (zlen_nonneg x).
    set (a := AppendVarint [] (f_Type f)). set (b := AppendVarint [] (zlen (f_Payload f))).
    replace (zlen a + (zlen b + (zlen (f_Payload f) + zlen x)) <? _) with false by lia.
    f_equal; [|lia]. destruct f as [t p]. cbn [f_Type f_Payload] in *. f_equal.
    rewrite app_assoc, <- zlen_app. apply slice_app_mid.
Qed.

Section ParseFacts.
Context {S : Type} (fn : Frame -> M S (option error)).

Lemma h3_loop_pump k : forall work c s,
  bytes_ok work -> zlen work < 2 ^ 63 -> 0 <= c <= zlen work ->
  Parse_loop fn k work c s = pump cut_frame fn k (from c work) c s.
Proof.
  induction k as [|k IH]; intros work c s Hb Hw Hc; [done|].
  rewrite pump_S. cbn [Parse_loop]. unfold cut_frame.
  assert (bytes_ok (from c work)) as Hbc by auto with go.
  destruct (ReadVarint (from c work)) as [[t n]|] eqn:E1; [|done].
  pose proof (ReadVarint_bound _ _ _ Hbc E1) as (_ & Hn & _).
  rewrite (from_from n c) by lia.
  destruct (ReadVarint (from (c + n) work)) as [[l m]|] eqn:E2; [|done].
  rewrite <- (from_from n c) in E2 by lia.
  pose proof (two_varints _ _ _ _ _ Hbc E1 E2) as (? & Hl & ? & ? & Hnm).
  rewrite zlen_from in * by lia. replace (0 `max` (zlen work - c)) with (zlen work - c) in * by lia.
  destruct (l >? maxFramePayload) eqn:Hmax; [done|]. unfold maxFramePayload in Hmax.
  unfold u64. rewrite Z.mod_small by lia.
  replace (zlen work - c <? n + m + l) with (zlen work - c - (n + m) <? l) by lia.
  destruct (Z.ltb_spec (zlen work - c - (n + m)) l) as [|Hfit]; [done|].
  rewrite slice_from by lia. rewrite !Z.add_assoc. unfold mbind, M_bind.
  destruct (fn _ s) as [[[e|] s1]|]; [done| |done].
  rewrite IH, from_from by (done || lia). by rewrite !Z.add_assoc.
Qed.

Lemma h3_absorb p data s :
  bytes_ok (p_buf p) -> bytes_ok data -> zlen (p_buf p) + zlen data < 2 ^ 63 ->
  Parse fn p data s =
  match absorb cut_frame fn (p_buf p) data s with
  | Some ((rest, e), s') => Some ((mkParser rest, (zlen data, e)), s')
  | None => None
  end.
Proof.
  intros Hp Hd Hl. unfold Parse, absorb, run.
  assert ((if 0 <? zlen (p_buf p) then p_buf p ++ data else data) = p_buf p ++ data) as ->.
  { pose proof (zlen_nonneg (p_buf p)).
    destruct (Z.ltb_spec 0 (zlen (p_buf p))); [done|].
    assert (p_buf p = []) as -> by (apply zlen_zero; lia). done. }
  unfold mbind, M_bind. rewrite h3_loop_pump, from_0;
    [|by auto with go|by rewrite zlen_app|split; [done|apply zlen_nonneg]].
  destruct (pump _ _ _ _ _ s) as [[[n e] s']|]; done.
Qed.
End ParseFacts.

(** ** SETTINGS *)

Definition setting_bytes (s : Setting) : bytes := AppendVarint [] (ID s) ++ AppendVarint [] (Value s).
Definition setting_ok (s : Setting) : Prop := 0 <= ID s < 2 ^ 62 /\ 0 <= Value s < 2 ^ 62.

Lemma settings_payload_eq l : AppendSettings_payload l = concat (setting_bytes <$> l).
Proof.
  unfold AppendSettings_payload.
  assert (forall acc, fold_left
    (fun payload s => AppendVarint (AppendVarint payload (ID s)) (Value s)) l acc =
    acc ++ concat (setting_bytes <$> l)) as Hl; [|exact (Hl [])].
  induction l as [|s l IH]; intros acc; cbn [fold_left]; [by rewrite app_nil_r|].
  rewrite IH, AppendVarint_dst, (AppendVarint_dst acc), fmap_cons. cbn [concat].
  change (setting_bytes s) with (AppendVarint [] (ID s) ++ AppendVarint [] (Value s)).
  by rewrite <- !app_assoc.
Qed.

Lemma VarintLen_pos v : 0 <= v < 2 ^ 62 -> 1 <= VarintLen v.
Proof. intros Hv. unfold VarintLen. varint_bounds. branches; lia. Qed.

Lemma ParseSettings_loop_eq l : forall fuel pre out,
  Forall setting_ok l -> (length (concat (setting_bytes <$> l)) <= fuel)%nat ->
  ParseSettings_loop fuel (pre ++ concat (setting_bytes <$> l)) (zlen pre) out =
  Some (inl (out ++ l)).
Proof.
  induction l as [|s l IH]; intros fuel pre out Hok Hf.
  { destruct fuel; cbn; rewrite !app_nil_r; by replace (_ <=? _) with true by lia. }
  apply Forall_cons in Hok as [[Hid Hv] Hok]. rewrite fmap_cons in *. cbn [concat] in *.
  pose proof (VarintLen_pos _ Hid). pose proof (VarintLen_pos _ Hv).
  set (tl := concat (setting_bytes <$> l)) in *. pose proof (zlen_nonneg tl).
  assert (zlen (setting_bytes s) = VarintLen (ID s) + VarintLen (Value s)) as Hlen.
  { unfold setting_bytes. by rewrite zlen_app, !zlen_AppendVarint. }
  rewrite length_app in Hf. assert (0 < length (setting_bytes s))%nat by (unfold zlen in Hlen; lia).
  destruct fuel as [|fuel]; [lia|]. cbn [ParseSettings_loop]. rewrite !zlen_app.
  replace (zlen pre + (zlen (setting_bytes s) + zlen tl) <=? zlen pre) with false by lia.
  rewrite from_app_length. unfold setting_bytes at 1. rewrite <- app_assoc, ReadVarint_Append by done.
  rewrite <- zlen_AppendVarint, <- from_from, from_app_length by (done || lia || apply zlen_nonneg).
  unfold setting_bytes at 1. rewrite <- app_assoc, from_app_length, ReadVarint_Append by done.
  rewrite app_assoc. replace (zlen pre + _) with (zlen (pre ++ setting_bytes s)).
  - rewrite IH; [by rewrite <- app_assoc; destruct s|done|lia].
  - rewrite zlen_app, zlen_AppendVarint by done. unfold zlen in *. lia.
Qed.

(** ** Properties *)

(** Reads handed to one parser, up to the first error. *)
Fixpoint Parse_all {S} (fn : Frame -> M S (option error)) (p : FrameParser) (chunks : list bytes)
    : M S (FrameParser * option error) :=
  match chunks with
  | [] => mret (p, None)
  | a :: rest =>
      r ← Parse fn p a;
      let '(p, (_, err)) := r in
      match err with
      | Some e => mret (p, Some e)
      | None => Parse_all fn p rest
      end
  end.

Lemma h3_all_absorb {S} (fn : Frame -> M S (option error)) chunks : forall p s,
  bytes_ok (p_buf p) -> Forall bytes_ok chunks -> zlen (p_buf p) + zlen (concat chunks) < 2 ^ 63 ->
  Parse_all fn p chunks s =
  match absorb_all cut_frame fn (p_buf p) chunks s with
  | Some ((rest, e), s') => Some ((mkParser rest, e), s')
  | None => None
  end.
Proof.
  induction chunks as [|a chunks IH]; intros p s Hp Hch Hl; [by destruct p|].
  apply Forall_cons in Hch as [Ha Hch]. cbn [concat] in Hl. rewrite zlen_app in Hl.
  pose proof (zlen_nonneg (concat chunks)).
  cbn [Parse_all absorb_all]. unfold mbind, M_bind. rewrite h3_absorb by (done || lia).
  destruct (absorb cut_frame fn (p_buf p) a s) as [[[rest [e|]] s1]|] eqn:Ea; try done.
  cbn [fst snd]. rewrite IH; [done| |done|].
  - exact (absorb_keeps_bytes _ _ _ _ _ _ _ Hp Ha Ea).
  - assert (zlen rest <= zlen (p_buf p ++ a)); [|rewrite zlen_app in *; cbn; lia].
    unfold absorb, mbind, M_bind in Ea.
    destruct (run cut_frame fn (p_buf p ++ a) s) as [[[n e] s2]|] eqn:Hr; [|done].
    inversion Ea; subst. cbn. apply (run_bound cut_frame) in Hr; [|by auto with go].
    rewrite zlen_from; lia.
Qed.

(** C40: HTTP/3 frames cross a stream.  However the bytes of a sequence of
    frames, followed by the beginning of another, are cut into reads, the
    parser delivers exactly those frames, in order, reports no error and keeps
    exactly the incomplete rest. *)
Theorem Parse_stream fs rest chunks :
  Forall frame_ok fs -> Forall bytes_ok chunks -> cut_frame rest = CutMore ->
  concat chunks = concat (encode_frame <$> fs) ++ rest -> zlen (concat chunks) < 2 ^ 63 ->
  Parse_all collect NewFrameParser chunks [] = Some ((mkParser rest, None), fs).
Proof.
  intros Hfs Hch Hrest Hcat Hl. rewrite h3_all_absorb; [|apply bytes_ok_nil|done|exact Hl]. cbn [p_buf NewFrameParser].
  rewrite (absorb_all_encoded cut_frame encode_frame frame_ok collect fs rest chunks [] fs);
    try done. exact (deliver_all_collect encode_frame fs [] 0).
Qed.

(** an HTTP/3 frame may not declare an absurd size.  When the buffer
    starts with a type and a length over the limit, the parser stops at once
    with [ErrFrameTooLong], without waiting for the payload and without calling
    the callback. *)
Theorem Parse_too_long {S} (fn : Frame -> M S (option error)) t len rest (s : S) :
  0 <= t < 2 ^ 62 -> maxFramePayload < len < 2 ^ 62 ->
  exists detail p, Parse fn NewFrameParser (AppendVarint (AppendVarint [] t) len ++ rest) s =
    Some ((p, (zlen (AppendVarint (AppendVarint [] t) len ++ rest),
               Some (errorfWrap ErrFrameTooLong detail))), s).
Proof.
  unfold maxFramePayload. intros Ht Hl. do 2 eexists.
  unfold Parse, fuel_for. cbn [p_buf NewFrameParser]. change (0 <? zlen []) with false.
  cbv iota zeta. cbn [Parse_loop]. rewrite AppendVarint_dst, <- app_assoc, from_0.
  rewrite ReadVarint_Append, <- zlen_AppendVarint, Z.add_0_l, from_app_length by done.
  rewrite ReadVarint_Append by lia. unfold maxFramePayload.
  replace (_ >? _) with true by lia. done.
Qed.

(** HTTP/3 settings round trip: the payload that [AppendSettings] writes
    is parsed back to the same list of settings. *)
Theorem ParseSettings_roundtrip l :
  Forall setting_ok l -> ParseSettings (AppendSettings_payload l) = Some (inl l).
Proof.
  intros Hl. rewrite settings_payload_eq. unfold ParseSettings.
  by rewrite (ParseSettings_loop_eq l _ [] []).
Qed.

(** ** Witnesses *)

Definition sample : list Frame := [mkFrame FrameHeaders [1; 2; 3]; mkFrame FrameData [9]].

Lemma Parse_stream_witness :
  Parse_all collect NewFrameParser [[1; 3; 1]; [2]; [3; 0; 1; 9; 64]] [] =
    Some ((mkParser [64], None), sample).
Proof.
  apply (Parse_stream sample [64]).
  - repeat (apply Forall_cons_2; [split; [by vm_compute|bytes|by vm_compute]|]). constructor.
  - repeat (apply Forall_cons_2; [bytes|]). constructor.
  - by vm_compute.
  - by vm_compute.
  - by vm_compute.
Defined.

Lemma Parse_too_long_witness :
  exists detail p, Parse collect NewFrameParser (AppendVarint (AppendVarint [] 0) 16777217 ++ [1]) [] =
    Some ((p, (zlen (AppendVarint (AppendVarint [] 0) 16777217 ++ [1]),
               Some (errorfWrap ErrFrameTooLong detail))), []).
Proof. apply (Parse_too_long collect 0 16777217 [1]); unfold maxFramePayload; lia. Defined.

Lemma ParseSettings_roundtrip_witness :
  ParseSettings (AppendSettings_payload [mkSetting 6 65536; mkSetting 1 0]) =
    Some (inl [mkSetting 6 65536; mkSetting 1 0]).
Proof.
  apply ParseSettings_roundtrip.
  repeat (apply Forall_cons_2; [unfold setting_ok; cbn; lia|]). constructor.
Defined.
