(* ===== verification/H3Packet.v ===== *)
(** * H3Packet

    [http3/packet.go]: the long and short packet headers of QUIC.  Reads are
    the panicking reads of the prelude, so that "no input makes the parser
    read out of bounds" is a theorem and not a property of the model. *)

From S2P Require Import Prelude GoStd.

Definition PacketInitial : Z := 0x0.
Definition PacketZeroRTT : Z := 0x1.
Definition PacketHandshake : Z := 0x2.
Definition PacketRetry : Z := 0x3.

Definition ErrBadPacket : error := errorsNew "http3: malformed packet".
Definition ErrShortPacket : error := errorsNew "http3: packet truncated".

Record LongHeader : Type := mkLong {
  lh_Type : Z;
  lh_Version : Z; (** uint32 *)
  lh_DestConnID : bytes;
  lh_SrcConnID : bytes;
  lh_PacketNumber : Z; (** uint64 *)
  lh_PacketNumberLen : Z;
  lh_Payload : bytes;
}.

Record ShortHeader : Type := mkShort {
  sh_SpinBit : bool;
  sh_KeyPhase : bool;
  sh_DestConnID : bytes;
  sh_PacketNumber : Z;
  sh_PacketNumberLen : Z;
  sh_Payload : bytes;
}.

Definition connIDLen (b : Z) : Z := b.

Section Read.
Context {S : Type}.

(** [for i := 0; i < pnLen; i++ { pn = pn<<8 | uint64(b[off+i]) }] *)
Fixpoint read_pn (k : nat) (b : bytes) (off pn : Z) : M S Z :=
  match k with
  | O => mret pn
  | Datatypes.S k => x ← index b off; read_pn k b (off + 1) (u64 (pn << 8) .| x)
  end.

(** A connection id and the offset behind it. *)
Definition read_conn_id (what : string) (b : bytes) (off : Z) : M S ((bytes * Z) + error) :=
  if zlen b <=? off then mret (inr ErrShortPacket)
  else
    x ← index b off;
    let n := connIDLen x in
    let off := off + 1 in
    if n >? 20 then mret (inr (errorfWrap ErrBadPacket (what +:+ " conn id " +:+ fmt_d n +:+ " > 20")))
    else if off + n >? zlen b then mret (inr ErrShortPacket)
    else id ← reslice b off (off + n); mret (inl (id, off + n)).

Definition ReadLongHeader (b : bytes) : M S (LongHeader + error) :=
  if zlen b <? 1 then mret (inr ErrShortPacket)
  else
    b0 ← index b 0;
    let type := (b0 >> 4) .& 0x3 in
    if zlen b <? 5 then mret (inr ErrShortPacket)
    else
      v ← reslice b 1 5;
      let version := be32 (at_ v 0) (at_ v 1) (at_ v 2) (at_ v 3) in
      if version =? 0 then
        payload ← reslice b 5 (zlen b);
        mret (inl (mkLong type 0 [] [] 0 0 payload))
      else
        r ← read_conn_id "dest" b 5;
        match r with
        | inr e => mret (inr e)
        | inl (dcid, off) =>
            r ← read_conn_id "src" b off;
            match r with
            | inr e => mret (inr e)
            | inl (scid, off) =>
                let pnLen := (b0 .& 0x3) + 1 in
                if off + pnLen >? zlen b then mret (inr ErrShortPacket)
                else
                  pn ← read_pn (Z.to_nat pnLen) b off 0;
                  payload ← reslice b (off + pnLen) (zlen b);
                  mret (inl (mkLong type version dcid scid pn pnLen payload))
            end
        end.

Definition ReadShortHeader (b : bytes) (connIDLen : Z) : M S (ShortHeader + error) :=
  if zlen b <? 1 + connIDLen + 1 then mret (inr ErrShortPacket)
  else
    b0 ← index b 0;
    let off := 1 in
    id ← reslice b off (off + connIDLen);
    let off := off + connIDLen in
    let pnLen := (b0 .& 0x3) + 1 in
    if off + pnLen >? zlen b then mret (inr ErrShortPacket)
    else
      pn ← read_pn (Z.to_nat pnLen) b off 0;
      payload ← reslice b (off + pnLen) (zlen b);
      mret (inl (mkShort (negb (b0 .& 0x20 =? 0)) (negb (b0 .& 0x04 =? 0)) id pn pnLen payload)).
End Read.

Definition IsLongHeader (b : Z) : bool := negb (b .& 0x80 =? 0).

(** [for i := pnLen - 1; i >= 0; i-- { dst = append(dst, byte(pn>>(8*uint(i)))) }] *)
Fixpoint append_pn (k : nat) (dst : bytes) (pn : Z) : bytes :=
  match k with
  | O => dst
  | S k => append_pn k (dst ++ [u8 (pn >> (8 * Z.of_nat k))]) pn
  end.

Definition AppendLongHeader (dst : bytes) (ptype version : Z) (destConnID srcConnID : bytes)
    (pn pnLen : Z) : bytes :=
  let first := 0x80 .| u8 ((ptype .& 0x3) << 4) .| u8 (pnLen - 1) in
  let dst := dst ++ [first] in
  let dst := dst ++ put32 version in
  let dst := dst ++ [u8 (zlen destConnID)] in
  let dst := dst ++ destConnID in
  let dst := dst ++ [u8 (zlen srcConnID)] in
  let dst := dst ++ srcConnID in
  append_pn (Z.to_nat pnLen) dst pn.

Definition AppendShortHeader (dst connID : bytes) (pn pnLen : Z) : bytes :=
  let first := 0x40 .| u8 (pnLen - 1) in
  let dst := dst ++ [first] in
  let dst := dst ++ connID in
  append_pn (Z.to_nat pnLen) dst pn.

(** ** Packet numbers *)

(** The bytes of a packet number, most significant first. *)
Fixpoint pn_bytes (k : nat) (pn : Z) : bytes :=
  match k with
  | O => []
  | S k => u8 (pn >> (8 * Z.of_nat k)) :: pn_bytes k pn
  end.

Lemma append_pn_eq k : forall dst pn, append_pn k dst pn = dst ++ pn_bytes k pn.
Proof.
  induction k as [|k IH]; intros dst pn; cbn [append_pn pn_bytes]; [by rewrite app_nil_r|].
  by rewrite IH, <- app_assoc.
Qed.

Lemma zlen_pn_bytes k pn : zlen (pn_bytes k pn) = Z.of_nat k.
Proof. induction k as [|k IH]; [done|]. cbn [pn_bytes]. rewrite zlen_cons, IH. lia. Qed.

Lemma pn_step pn k :
  0 <= pn < 2 ^ 64 ->
  u64 ((pn >> (8 * Z.of_nat (S k))) << 8) .| u8 (pn >> (8 * Z.of_nat k)) = pn >> (8 * Z.of_nat k).
Proof.
  intros Hpn. replace (8 * Z.of_nat (S k)) with (8 * Z.of_nat k + 8) by lia.
  rewrite !shr_div by lia. rewrite Z.pow_add_r, <- Z.div_div by lia.
  set (q := pn / 2 ^ (8 * Z.of_nat k)). assert (0 <= q < 2 ^ 64) as Hq.
  { unfold q. pose proof (Z.pow_pos_nonneg 2 (8 * Z.of_nat k)). split; [apply Z.div_pos; lia|].
    apply Z.div_lt_upper_bound; [lia|]. nia. }
  unfold u64, u8. rewrite Z.shiftl_mul_pow2, Z.mod_small by zarith.
  rewrite <- Z.shiftl_mul_pow2, lor_shiftl_add by zarith. zarith.
Qed.

Lemma read_pn_eq {S} k pn : forall pre rest (s : S),
  0 <= pn < 2 ^ 64 ->
  read_pn k (pre ++ pn_bytes k pn ++ rest) (zlen pre) (pn >> (8 * Z.of_nat k)) s = Some (pn, s).
Proof.
  induction k as [|k IH]; intros pre rest s Hpn.
  { cbn [read_pn]. change (8 * Z.of_nat 0) with 0. by rewrite Z.shiftr_0_r. }
  cbn [read_pn pn_bytes]. unfold mbind, M_bind. pose proof (zlen_nonneg pre).
  pose proof (zlen_nonneg (pn_bytes k pn)). pose proof (zlen_nonneg rest).
  rewrite index_ok by (rewrite !zlen_app, zlen_cons; lia).
  change ((u8 (pn >> (8 * Z.of_nat k)) :: pn_bytes k pn) ++ rest)
    with (u8 (pn >> (8 * Z.of_nat k)) :: (pn_bytes k pn ++ rest)).
  rewrite at_app_length.
  rewrite pn_step by done.
  specialize (IH (pre ++ [u8 (pn >> (8 * Z.of_nat k))]) rest s Hpn).
  rewrite zlen_app, <- app_assoc in IH. exact IH.
Qed.

Lemma pn_top k pn : 0 <= pn < 2 ^ (8 * Z.of_nat k) -> pn >> (8 * Z.of_nat k) = 0.
Proof. intros Hpn. rewrite shr_div by lia. by apply Z.div_small. Qed.

Lemma read_pn_0 {S} k pn pre rest (s : S) :
  0 <= pn < 2 ^ (8 * Z.of_nat k) -> (k <= 8)%nat ->
  read_pn k (pre ++ pn_bytes k pn ++ rest) (zlen pre) 0 s = Some (pn, s).
Proof.
  intros Hpn Hk. rewrite <- (pn_top k pn Hpn). apply read_pn_eq.
  assert (2 ^ (8 * Z.of_nat k) <= 2 ^ 64) by (apply Z.pow_le_mono_r; lia). lia.
Qed.

Lemma wp_read_pn {S} k b : forall off pn (s : S),
  0 <= off -> off + Z.of_nat k <= zlen b -> wp (read_pn k b off pn) (fun _ s' => s' = s) s.
Proof.
  induction k as [|k IH]; intros off pn s Ho Hk; [by apply wp_ret|].
  cbn [read_pn]. apply wp_bind, wp_index; [lia|]. apply IH; lia.
Qed.

(** ** Connection ids *)

Lemma read_conn_id_eq {S} what pre id rest (s : S) :
  zlen id <= 20 ->
  read_conn_id what (pre ++ u8 (zlen id) :: (id ++ rest)) (zlen pre) s =
    Some (inl (id, zlen (pre ++ u8 (zlen id) :: id)), s).
Proof.
  intros Hid. pose proof (zlen_nonneg pre). pose proof (zlen_nonneg id).
  pose proof (zlen_nonneg rest). unfold read_conn_id, connIDLen.
  rewrite !zlen_app, !zlen_cons, !zlen_app. replace (_ <=? zlen pre) with false by lia.
  unfold mbind, M_bind. rewrite index_ok by (rewrite !zlen_app, zlen_cons, zlen_app; lia).
  rewrite at_app_length, (u8_small (zlen id)) by (unfold is_byte; lia).
  replace (zlen id >? 20) with false by lia. replace (_ >? _) with false by lia.
  rewrite reslice_ok by (rewrite ?zlen_app, ?zlen_cons, ?zlen_app; lia).
  unfold mret, M_ret. do 4 f_equal; [|lia].
  rewrite cons_middle, app_assoc. replace (zlen pre + 1) with (zlen (pre ++ [zlen id])) by zlen.
  apply slice_app_mid.
Qed.

Lemma wp_read_conn_id {S} what b off (s : S) :
  bytes_ok b -> 0 <= off ->
  wp (read_conn_id what b off)
     (fun r s' => s' = s /\
        match r with
        | inl (id, off') => off < off' <= zlen b /\ zlen id <= 20
        | inr e => e = ErrShortPacket \/ exists d, e = errorfWrap ErrBadPacket d
        end) s.
Proof.
  intros Hb Ho. unfold read_conn_id, connIDLen.
  destruct (Z.leb_spec (zlen b) off); [apply wp_ret; auto|].
  apply wp_bind, wp_index; [lia|]. pose proof (at_byte b off Hb) as Hx. unfold is_byte in Hx.
  destruct (at_ b off >? 20) eqn:?; [apply wp_ret; split; [done|]; right; by eexists|].
  destruct (_ >? zlen b) eqn:?; [apply wp_ret; auto|].
  apply wp_bind, wp_reslice; [lia|lia|]. apply wp_ret. split; [done|].
  rewrite zlen_slice; lia.
Qed.

(** ** First bytes *)

Definition long_first (t k : Z) : Z := 0x80 .| u8 ((t .& 0x3) << 4) .| u8 (k - 1).
Definition short_first (k : Z) : Z := 0x40 .| u8 (k - 1).

Lemma long_first_ok t k :
  0 <= t < 4 -> 1 <= k <= 4 ->
  is_byteb (long_first t k) = true /\ (long_first t k >> 4) .& 0x3 = t /\
  (long_first t k .& 0x3) + 1 = k /\ IsLongHeader (long_first t k) = true.
Proof.
  intros Ht Hk. assert (t = 0 \/ t = 1 \/ t = 2 \/ t = 3) as Ht' by lia.
  assert (k = 1 \/ k = 2 \/ k = 3 \/ k = 4) as Hk' by lia.
  destruct Ht' as [-> | [-> | [-> | ->]]]; destruct Hk' as [-> | [-> | [-> | ->]]];
    vm_compute; auto.
Qed.

Lemma short_first_ok k :
  1 <= k <= 4 ->
  (short_first k .& 0x3) + 1 = k /\ IsLongHeader (short_first k) = false /\
  short_first k .& 0x20 = 0 /\ short_first k .& 0x04 = 0.
Proof.
  intros Hk. assert (k = 1 \/ k = 2 \/ k = 3 \/ k = 4) as Hk' by lia.
  destruct Hk' as [-> | [-> | [-> | ->]]]; vm_compute; auto.
Qed.

Lemma land_3 b : 0 <= b .& 0x3 <= 3.
Proof.
  assert (b .& Z.ones 2 = b mod 4) as E by by rewrite Z.land_ones.
  change (b .& 3) with (b .& Z.ones 2). rewrite E. zarith.
Qed.

(** ** Properties *)

(** No packet makes the header parsers read out of bounds.  On any bytes
    [ReadLongHeader] returns, and [ReadShortHeader] does for any expected
    length of the connection id; a header they return has connection ids of at
    most 20 bytes (or the length expected) and a packet number of 1 to 4 bytes,
    and the only errors are a truncated or a malformed packet. *)
Theorem read_headers_safe {S} b n (s : S) :
  bytes_ok b -> 0 <= n ->
  wp (ReadLongHeader b)
     (fun r s' => s' = s /\
        match r with
        | inl h => zlen (lh_DestConnID h) <= 20 /\ zlen (lh_SrcConnID h) <= 20 /\
                   (lh_Version h <> 0 -> 1 <= lh_PacketNumberLen h <= 4)
        | inr e => e = ErrShortPacket \/ exists d, e = errorfWrap ErrBadPacket d
        end) s /\
  wp (ReadShortHeader b n)
     (fun r s' => s' = s /\
        match r with
        | inl h => zlen (sh_DestConnID h) = n /\ 1 <= sh_PacketNumberLen h <= 4
        | inr e => e = ErrShortPacket
        end) s.
Proof.
  intros Hb Hn. pose proof (zlen_nonneg b). pose proof (land_3 (at_ b 0)) as H3. split.
  - unfold ReadLongHeader. destruct (Z.ltb_spec (zlen b) 1); [apply wp_ret; auto|].
    apply wp_bind, wp_index; [lia|]. destruct (Z.ltb_spec (zlen b) 5); [apply wp_ret; auto|].
    apply wp_bind, wp_reslice; [lia|lia|]. set (v := be32 _ _ _ _).
    destruct (Z.eqb_spec v 0).
    { apply wp_bind, wp_reslice; [lia|lia|]. apply wp_ret. by cbn. }
    apply wp_bind. eapply wp_mono; [by apply wp_read_conn_id|].
    intros [[d off]|e] ? [-> Hd]; [|by apply wp_ret].
    apply wp_bind. eapply wp_mono; [apply wp_read_conn_id; [done|lia]|].
    intros [[c off']|e] ? [-> Hc]; [|by apply wp_ret].
    destruct (off' + _ >? zlen b) eqn:Hp; [apply wp_ret; auto|].
    apply wp_bind. eapply wp_mono; [apply wp_read_pn; lia|]. intros pn ? ->.
    apply wp_bind, wp_reslice; [lia|lia|]. apply wp_ret.
    cbn [lh_DestConnID lh_SrcConnID lh_PacketNumberLen]. split_and!; (done || lia).
  - unfold ReadShortHeader. destruct (Z.ltb_spec (zlen b) (1 + n + 1)); [by apply wp_ret|].
    apply wp_bind, wp_index; [lia|]. apply wp_bind, wp_reslice; [lia|lia|].
    destruct (1 + n + _ >? zlen b) eqn:Hp; [by apply wp_ret|].
    apply wp_bind. eapply wp_mono; [apply wp_read_pn; lia|]. intros pn ? ->.
    apply wp_bind, wp_reslice; [lia|lia|]. apply wp_ret. cbn [sh_DestConnID sh_PacketNumberLen].
    rewrite zlen_slice by lia. split_and!; (done || lia).
Qed.

(** long headers round trip.  What [AppendLongHeader] writes in front of a
    payload is recognised as a long header and read back with its type,
    version, connection ids, packet number and payload. *)
Theorem long_header_roundtrip {S} t version d c pn k payload (s : S) :
  0 <= t < 4 -> 0 < version < 2 ^ 32 -> zlen d <= 20 -> zlen c <= 20 ->
  1 <= k <= 4 -> 0 <= pn < 2 ^ (8 * k) ->
  let packet := AppendLongHeader [] t version d c pn k ++ payload in
  IsLongHeader (at_ packet 0) = true /\
  ReadLongHeader packet s = Some (inl (mkLong t version d c pn k payload), s).
Proof.
  intros Ht Hv Hd Hc Hk Hpn packet. destruct (long_first_ok t k Ht Hk) as (_ & E1 & E2 & E3).
  set (ns := pn_bytes (Z.to_nat k) pn). set (P0 := long_first t k :: put32 version).
  set (P1 := P0 ++ u8 (zlen d) :: d). set (P2 := P1 ++ u8 (zlen c) :: c).
  assert (packet = P2 ++ ns ++ payload) as Ep2.
  { unfold packet, AppendLongHeader, P2, P1, P0. rewrite append_pn_eq, !app_nil_l.
    by rewrite <- !app_assoc. }
  assert (packet = P1 ++ u8 (zlen c) :: (c ++ ns ++ payload)) as Ep1.
  { rewrite Ep2. unfold P2. by rewrite <- !app_assoc. }
  assert (packet = P0 ++ u8 (zlen d) :: (d ++ u8 (zlen c) :: c ++ ns ++ payload)) as Ep0.
  { rewrite Ep1. unfold P1. by rewrite <- !app_assoc. }
  clearbody packet.
  pose proof (read_conn_id_eq "dest" P0 d (u8 (zlen c) :: c ++ ns ++ payload) s Hd) as R0.
  pose proof (read_conn_id_eq "src" P1 c (ns ++ payload) s Hc) as R1.
  assert (read_pn (Z.to_nat k) packet (zlen P2) 0 s = Some (pn, s)) as R2.
  { rewrite Ep2. apply read_pn_0; [by rewrite Z2Nat.id by lia|lia]. }
  rewrite <- Ep0 in R0. rewrite <- Ep1 in R1. fold P1 in R0. fold P2 in R1.
  assert (zlen P2 = 5 + (1 + zlen d) + (1 + zlen c)) as Hl2.
  { unfold P2, P1, P0. rewrite !zlen_app, !zlen_cons. change (zlen (put32 version)) with 4. lia. }
  assert (zlen packet = zlen P2 + k + zlen payload) as Hl.
  { rewrite Ep2, !zlen_app. unfold ns. rewrite zlen_pn_bytes. lia. }
  pose proof (zlen_nonneg d). pose proof (zlen_nonneg c). pose proof (zlen_nonneg payload).
  assert (at_ packet 0 = long_first t k) as F0 by by rewrite Ep0.
  split; [by rewrite F0|]. unfold ReadLongHeader.
  replace (zlen packet <? 1) with false by lia. replace (zlen packet <? 5) with false by lia.
  unfold mbind, M_bind. rewrite index_ok, reslice_ok, F0, E1, E2 by lia.
  assert (slice 1 5 packet = put32 version) as -> by by rewrite Ep0, slice_app_le.
  change (be32 (at_ (put32 version) 0) _ _ _) with
    (be32 (u8 (version >> 24)) (u8 (version >> 16)) (u8 (version >> 8)) (u8 version)).
  rewrite be32_put by lia. replace (version =? 0) with false by lia.
  change 5 with (zlen P0). rewrite R0, R1.
  replace (zlen P2 + k >? zlen packet) with false by lia. rewrite R2, reslice_ok by lia.
  unfold mret, M_ret. do 4 f_equal. rewrite Ep2, app_assoc.
  replace (zlen P2 + k) with (zlen (P2 ++ ns)) by (unfold ns; rewrite zlen_app, zlen_pn_bytes; lia).
  rewrite slice_upto_from, from_app_length. apply upto_all. rewrite !zlen_app. lia.
Qed.

(** short headers round trip, given the length of the connection id. *)
Theorem short_header_roundtrip {S} c pn k payload (s : S) :
  1 <= k <= 4 -> 0 <= pn < 2 ^ (8 * k) ->
  let packet := AppendShortHeader [] c pn k ++ payload in
  IsLongHeader (at_ packet 0) = false /\
  ReadShortHeader packet (zlen c) s = Some (inl (mkShort false false c pn k payload), s).
Proof.
  intros Hk Hpn packet. destruct (short_first_ok k Hk) as (E1 & E2 & E3 & E4).
  set (ns := pn_bytes (Z.to_nat k) pn). set (P1 := short_first k :: c).
  assert (packet = P1 ++ ns ++ payload) as Ep.
  { unfold packet, AppendShortHeader, P1. rewrite append_pn_eq, !app_nil_l.
    by rewrite <- !app_assoc. }
  clearbody packet.
  assert (read_pn (Z.to_nat k) packet (zlen P1) 0 s = Some (pn, s)) as R.
  { rewrite Ep. apply read_pn_0; [by rewrite Z2Nat.id by lia|lia]. }
  assert (zlen packet = zlen P1 + k + zlen payload) as Hl.
  { rewrite Ep, !zlen_app. unfold ns. rewrite zlen_pn_bytes. lia. }
  assert (zlen P1 = 1 + zlen c) as Hl1 by (unfold P1; by rewrite zlen_cons).
  pose proof (zlen_nonneg c). pose proof (zlen_nonneg payload).
  assert (at_ packet 0 = short_first k) as F0 by by rewrite Ep.
  split; [by rewrite F0|]. unfold ReadShortHeader.
  replace (zlen packet <? 1 + zlen c + 1) with false by lia.
  unfold mbind, M_bind. rewrite index_ok, reslice_ok, F0, E1, E3, E4 by lia.
  rewrite <- Hl1. replace (zlen P1 + k >? zlen packet) with false by lia.
  rewrite R, reslice_ok by lia. unfold mret, M_ret. do 4 f_equal.
  - rewrite Ep, Hl1. unfold P1. change (short_first k :: c) with ([short_first k] ++ c).
    rewrite <- app_assoc. apply (slice_app_mid [short_first k]).
  - rewrite Ep, app_assoc.
    replace (zlen P1 + k) with (zlen (P1 ++ ns)) by (unfold ns; rewrite zlen_app, zlen_pn_bytes; lia).
    rewrite slice_upto_from, from_app_length. apply upto_all. rewrite !zlen_app. lia.
Qed.

(** ** Witnesses *)

Lemma read_headers_safe_witness :
  wp (ReadLongHeader [192; 0; 0; 0; 1; 4; 9])
     (fun r s' => s' = tt /\
        match r with
        | inl h => zlen (lh_DestConnID h) <= 20 /\ zlen (lh_SrcConnID h) <= 20 /\
                   (lh_Version h <> 0 -> 1 <= lh_PacketNumberLen h <= 4)
        | inr e => e = ErrShortPacket \/ exists d, e = errorfWrap ErrBadPacket d
        end) tt /\
  wp (ReadShortHeader [192; 0; 0; 0; 1; 4; 9] 2)
     (fun r s' => s' = tt /\
        match r with
        | inl h => zlen (sh_DestConnID h) = 2 /\ 1 <= sh_PacketNumberLen h <= 4
        | inr e => e = ErrShortPacket
        end) tt.
Proof. apply (read_headers_safe [192; 0; 0; 0; 1; 4; 9] 2 tt); [bytes|lia]. Defined.

Lemma long_header_roundtrip_witness :
  let packet := AppendLongHeader [] 2 1 [1; 2; 3] [7] 770 2 ++ [5; 5] in
  IsLongHeader (at_ packet 0) = true /\
  ReadLongHeader packet tt = Some (inl (mkLong 2 1 [1; 2; 3] [7] 770 2 [5; 5]), tt).
Proof. apply (long_header_roundtrip 2 1 [1; 2; 3] [7] 770 2 [5; 5] tt); unfold zlen; cbn; lia. Defined.

Lemma short_header_roundtrip_witness :
  let packet := AppendShortHeader [] [1; 2; 3] 770 2 ++ [5; 5] in
  IsLongHeader (at_ packet 0) = false /\
  ReadShortHeader packet (zlen [1; 2; 3]) tt = Some (inl (mkShort false false [1; 2; 3] 770 2 [5; 5]), tt).
Proof. apply (short_header_roundtrip [1; 2; 3] 770 2 [5; 5] tt); lia. Defined.
