(* ===== verification/GrpcMessage.v ===== *)
(** * GrpcMessage

    [grpc/message.go]: gRPC messages inside the bytes of a stream.  A message
    is a compression flag, a four-byte length and a payload; DATA frames and
    messages have no common boundaries, so the parser keeps the tail of each
    piece.  The loop is an instance of [Pump.pump]. *)

From S2P Require Import Prelude Pump GoStd.

Definition messageHeaderLen : Z := 5.
Definition defaultMaxMessageSize : Z := 4 * 1024 * 1024.

Definition ErrMessageTooLarge : error := errorsNew "grpc: message exceeds max size".
Definition ErrBadMessageHeader : error := errorsNew "grpc: malformed message header".
Definition ErrCompressed : error := errorsNew "grpc: compressed messages not supported".

Record MessageParser : Type := mkMessageParser { mp_maxSize : Z; mp_buf : bytes }.

Definition NewMessageParser (maxSize : Z) : MessageParser :=
  mkMessageParser (if maxSize <=? 0 then defaultMaxMessageSize else maxSize) [].

Definition Reset (p : MessageParser) : MessageParser := mkMessageParser (mp_maxSize p) [].
Definition Buffered (p : MessageParser) : Z := zlen (mp_buf p).

Section Parse.
Context {S : Type} (fn : bytes -> M S (option error)).

(** The loop of [Parse] over [work], from [consumed] on. *)
Fixpoint Parse_loop (fuel : nat) (maxSize : Z) (work : bytes) (consumed : Z)
    : M S (Z * option error) :=
  match fuel with
  | O => panic
  | Datatypes.S fuel =>
      if zlen work - consumed <? messageHeaderLen then mret (consumed, None)
      else
        let head := slice consumed (consumed + messageHeaderLen) work in
        let compressed := at_ head 0 in
        let length := be32 (at_ head 1) (at_ head 2) (at_ head 3) (at_ head 4) in
        if negb (compressed =? 0) then mret (consumed, Some ErrCompressed)
        else if length >? u32 maxSize then
          mret (consumed, Some (errorfWrap ErrMessageTooLarge (fmt_d length +:+ " > " +:+ fmt_d maxSize)))
        else if zlen work - consumed - messageHeaderLen <? length then mret (consumed, None)
        else
          e ← fn (slice (consumed + messageHeaderLen) (consumed + messageHeaderLen + length) work);
          match e with
          | Some e => mret (consumed, Some e)
          | None => Parse_loop fuel maxSize work (consumed + (messageHeaderLen + length))
          end
  end.

(** The parser object is passed and returned; the callback works on [S]. *)
Definition Parse (p : MessageParser) (data : bytes) : M S (MessageParser * (Z * option error)) :=
  let oldLen := zlen (mp_buf p) in
  let work := if 0 <? oldLen then mp_buf p ++ data else data in
  r ← Parse_loop (fuel_for work) (mp_maxSize p) work 0;
  let '(consumed, err) := r in
  mret (mkMessageParser (mp_maxSize p) (from consumed work), (zlen data, err)).
End Parse.

Definition Encode (dst msg : bytes) : bytes :=
  let dst := dst ++ [0] in
  let dst := dst ++ put32 (u32 (zlen msg)) in
  dst ++ msg.

Definition EncodeAll (dst : bytes) (msgs : list bytes) : bytes :=
  fold_left (fun dst m => Encode dst m) msgs dst.

(** ** The parser as a framing *)

Definition cut_message (maxSize : Z) (b : bytes) : cut_result bytes error :=
  if zlen b <? messageHeaderLen then CutMore
  else
    let length := be32 (at_ b 1) (at_ b 2) (at_ b 3) (at_ b 4) in
    if negb (at_ b 0 =? 0) then CutBad ErrCompressed
    else if length >? u32 maxSize then
      CutBad (errorfWrap ErrMessageTooLarge (fmt_d length +:+ " > " +:+ fmt_d maxSize))
    else if zlen b <? messageHeaderLen + length then CutMore
    else CutFrame (slice messageHeaderLen (messageHeaderLen + length) b) (messageHeaderLen + length).

Definition message_ok (maxSize : Z) (m : bytes) : Prop := bytes_ok m /\ zlen m <= u32 maxSize.

#[export] Instance cut_message_framing max : Framing (cut_message max).
Proof.
  assert (forall b, bytes_ok b -> 0 <= be32 (at_ b 1) (at_ b 2) (at_ b 3) (at_ b 4)) as Hpos.
  { intros b Hb. apply be32_range; auto with go. }
  split; intros b; [intros f n Hb H|intros x f n Hb H|intros x e Hb H];
    specialize (Hpos b Hb); unfold cut_message, messageHeaderLen in *;
    pose proof (zlen_nonneg b); try pose proof (zlen_nonneg x).
  all: destruct (Z.ltb_spec (zlen b) 5); [done|].
  2, 3: rewrite zlen_app, !at_app_l by lia; replace (zlen b + zlen x <? 5) with false by lia.
  all: set (l := be32 _ _ _ _) in *.
  all: destruct (at_ b 0 =? 0); cbn [negb] in *; try done.
  all: destruct (l >? u32 max) eqn:?; try done.
  all: destruct (Z.ltb_spec (zlen b) (5 + l)); try done.
  - inversion H; subst. lia.
  - inversion H; subst. rewrite slice_app_le by lia. by replace (_ <? _) with false by lia.
Qed.

Lemma Encode_eq dst msg : Encode dst msg = dst ++ [0] ++ put32 (u32 (zlen msg)) ++ msg.
Proof. unfold Encode. by rewrite <- !app_assoc. Qed.

Lemma EncodeAll_eq msgs : forall dst, EncodeAll dst msgs = dst ++ concat (Encode [] <$> msgs).
Proof.
  induction msgs as [|m msgs IH]; intros dst; [cbn; by rewrite app_nil_r|].
  unfold EncodeAll in *. cbn [fold_left]. rewrite IH, fmap_cons. cbn [concat].
  by rewrite (Encode_eq dst), (Encode_eq []), <- !app_assoc.
Qed.

#[export] Instance cut_message_codec max : FramingCodec (cut_message max) (Encode []) (message_ok max).
Proof.
  split; [apply _|..].
  - intros m [Hm Hl]. rewrite Encode_eq. apply bytes_ok_app_2; [constructor|].
    apply bytes_ok_app_2; [bytes|]. apply bytes_ok_app_2; auto with go.
  - intros m x [Hm Hl]. pose proof (zlen_nonneg m). pose proof (zlen_nonneg x).
    pose proof (u32_range max). rewrite Encode_eq, (u32_small (zlen m)) by lia.
    unfold cut_message, messageHeaderLen. set (h := 0 :: put32 (zlen m)).
    assert (([] ++ [0] ++ put32 (zlen m) ++ m) ++ x = h ++ m ++ x) as ->
      by (unfold h; by rewrite <- !app_assoc).
    assert (zlen h = 5) as Hh by done. rewrite !zlen_app, Hh.
    replace (_ <? 5) with false by lia.
    change (at_ (h ++ m ++ x) 0) with 0. cbn [negb Z.eqb].
    change (be32 (at_ (h ++ m ++ x) 1) _ _ _) with
      (be32 (u8 (zlen m >> 24)) (u8 (zlen m >> 16)) (u8 (zlen m >> 8)) (u8 (zlen m))).
    rewrite be32_put by lia. replace (_ >? _) with false by lia.
    replace (_ <? _) with false by lia. f_equal.
    + rewrite <- Hh. apply slice_app_mid.
    + change (zlen []) with 0. change (zlen [0]) with 1. change (zlen (put32 (zlen m))) with 4. lia.
Qed.

Section ParseFacts.
Context {S : Type} (fn : bytes -> M S (option error)).

Lemma message_loop_pump max k : forall work c s,
  bytes_ok work -> 0 <= c <= zlen work ->
  Parse_loop fn k max work c s = pump (cut_message max) fn k (from c work) c s.
Proof.
  induction k as [|k IH]; intros work c s Hb Hc; [done|].
  rewrite pump_S. cbn [Parse_loop]. unfold cut_message, messageHeaderLen.
  assert (bytes_ok (from c work)) as Hbc by auto with go.
  rewrite zlen_from by lia. replace (0 `max` (zlen work - c)) with (zlen work - c) by lia.
  destruct (Z.ltb_spec (zlen work - c) 5) as [|Hlen]; [done|].
  assert (forall i, 0 <= i < 5 -> at_ (slice c (c + 5) work) i = at_ (from c work) i) as Hat.
  { intros i Hi. rewrite <- (upto_from 5 (from c work)), at_app_l, slice_upto_from.
    - by replace (c + 5 - c) with 5 by lia.
    - rewrite zlen_upto, zlen_from; lia. }
  rewrite !Hat by lia. set (l := be32 _ _ _ _).
  assert (0 <= l) by (apply be32_range; auto with go).
  destruct (negb _); [done|]. destruct (l >? u32 max); [done|].
  replace (zlen work - c <? 5 + l) with (zlen work - c - 5 <? l) by lia.
  destruct (Z.ltb_spec (zlen work - c - 5) l) as [|Hfit]; [done|].
  rewrite slice_from by lia. rewrite Z.add_assoc. unfold mbind, M_bind.
  destruct (fn _ s) as [[[e|] s1]|]; [done| |done].
  rewrite IH, from_from by (done || lia). by rewrite !Z.add_assoc.
Qed.

Lemma message_absorb p data s :
  bytes_ok (mp_buf p) -> bytes_ok data ->
  Parse fn p data s =
  match absorb (cut_message (mp_maxSize p)) fn (mp_buf p) data s with
  | Some ((rest, e), s') => Some ((mkMessageParser (mp_maxSize p) rest, (zlen data, e)), s')
  | None => None
  end.
Proof.
  intros Hp Hd. unfold Parse, absorb, run.
  assert ((if 0 <? zlen (mp_buf p) then mp_buf p ++ data else data) = mp_buf p ++ data) as ->.
  { pose proof (zlen_nonneg (mp_buf p)).
    destruct (Z.ltb_spec 0 (zlen (mp_buf p))); [done|].
    assert (mp_buf p = []) as -> by (apply zlen_zero; lia). done. }
  unfold mbind, M_bind. rewrite message_loop_pump, from_0;
    [|by auto with go|split; [done|apply zlen_nonneg]].
  destruct (pump _ _ _ _ _ s) as [[[n e] s']|]; done.
Qed.

(** An invariant the callback keeps is kept by [Parse]; messages are bytes. *)
Lemma cut_message_bytes max b m n : bytes_ok b -> cut_message max b = CutFrame m n -> bytes_ok m.
Proof.
  intros Hb. unfold cut_message. destruct (_ <? _); [done|]. destruct (negb _); [done|].
  destruct (_ >? _); [done|]. destruct (_ <? _); [done|]. intros [= <- _]. auto with go.
Qed.

Lemma message_parse_wp (I : S -> Prop) p data s :
  (forall m s, bytes_ok m -> I s -> wp (fn m) (fun _ s' => I s') s) ->
  bytes_ok (mp_buf p) -> bytes_ok data -> I s ->
  wp (Parse fn p data) (fun r s' => I s' /\ bytes_ok (mp_buf (fst r))) s.
Proof.
  intros Hfn Hp Hd Hs. unfold wp. rewrite message_absorb by done. unfold absorb, mbind, M_bind.
  pose proof (run_wp (cut_message (mp_maxSize p)) fn I bytes_ok (mp_buf p ++ data) s) as Hr.
  unfold wp in Hr. destruct (run _ fn _ s) as [[[n e] s']|].
  - cbn. destruct Hr as [? ?]; [by intros b f k; apply cut_message_bytes|done|auto with go|done|].
    split; [done|]. auto with go.
  - apply Hr; [by intros b f k; apply cut_message_bytes|done|auto with go|done].
Qed.

Lemma keeps_Parse {B} (f : S -> B) p data :
  (forall m, keeps f (fn m)) -> keeps f (Parse fn p data).
Proof.
  intros Hfn. assert (forall k max work c, keeps f (Parse_loop fn k max work c)) as Hl.
  { induction k as [|k IH]; intros; cbn; keeps; done. }
  unfold Parse. keeps; done.
Qed.
End ParseFacts.

(** The pieces of one stream, handed to its parser up to the first error. *)
Fixpoint Parse_all {S} (fn : bytes -> M S (option error)) (p : MessageParser) (chunks : list bytes)
    : M S (MessageParser * option error) :=
  match chunks with
  | [] => mret (p, None)
  | a :: rest =>
      r ← Parse fn p a;
      let '(p, (_, err)) := r in
      match err with
      | Some e => mret (p, Some e)
      | None => Parse_all fn p rest
      end
  end.

Lemma messages_absorb {S} (fn : bytes -> M S (option error)) chunks : forall p s,
  bytes_ok (mp_buf p) -> Forall bytes_ok chunks ->
  Parse_all fn p chunks s =
  match absorb_all (cut_message (mp_maxSize p)) fn (mp_buf p) chunks s with
  | Some ((rest, e), s') => Some ((mkMessageParser (mp_maxSize p) rest, e), s')
  | None => None
  end.
Proof.
  induction chunks as [|a chunks IH]; intros p s Hp Hch; [by destruct p|].
  apply Forall_cons in Hch as [Ha Hch].
  cbn [Parse_all absorb_all]. unfold mbind, M_bind. rewrite message_absorb by done.
  destruct (absorb _ fn (mp_buf p) a s) as [[[rest [e|]] s1]|] eqn:Ea; try done.
  cbn [fst snd]. rewrite IH; [done| |done].
  exact (absorb_keeps_bytes _ _ _ _ _ _ _ Hp Ha Ea).
Qed.

(** A callback simulated by another one parses the same. *)
Lemma Parse_sim {S1 S2} (R : S1 -> S2 -> Prop) (fn1 : bytes -> M S1 (option error))
    (fn2 : bytes -> M S2 (option error)) p data s1 s2 r s2' :
  (forall m a b e b', R a b -> fn2 m b = Some (e, b') ->
     exists a', fn1 m a = Some (e, a') /\ R a' b') ->
  R s1 s2 -> Parse fn2 p data s2 = Some (r, s2') ->
  exists s1', Parse fn1 p data s1 = Some (r, s1') /\ R s1' s2'.
Proof.
  intros Hfn HR H.
  assert (forall k max work c a b r b', R a b -> Parse_loop fn2 k max work c b = Some (r, b') ->
    exists a', Parse_loop fn1 k max work c a = Some (r, a') /\ R a' b') as Hl.
  { induction k as [|k IH]; intros max work c a b r0 b' HRab; cbn [Parse_loop]; [done|].
    branch H1; [intros [= <- <-]; by exists a|].
    branch H2; [intros [= <- <-]; by exists a|].
    branch H3; [intros [= <- <-]; by exists a|].
    branch H4; [intros [= <- <-]; by exists a|].
    unfold mbind, M_bind. destruct (fn2 _ b) as [[e b1]|] eqn:E; [|done].
    destruct (Hfn _ _ _ _ _ HRab E) as (a1 & -> & HR1).
    destruct e as [e|]; [intros [= <- <-]; by exists a1|by apply IH]. }
  unfold Parse, mbind, M_bind in *. destruct (Parse_loop fn2 _ _ _ _ s2) as [[[n e] b']|] eqn:E; [|done].
  destruct (Hl _ _ _ _ _ _ _ _ HR E) as (a' & -> & HR'). injection H as <- <-. by exists a'.
Qed.

(** Messages encoded one after the other, in any pieces. *)
Lemma Parse_all_encoded maxSize msgs rest chunks :
  let max := mp_maxSize (NewMessageParser maxSize) in
  Forall (message_ok max) msgs -> Forall bytes_ok chunks -> cut_message max rest = CutMore ->
  concat chunks = concat (Encode [] <$> msgs) ++ rest ->
  Parse_all collect (NewMessageParser maxSize) chunks [] =
    Some ((mkMessageParser max rest, None), msgs).
Proof.
  intros max Hm Hch Hrest Hcat.
  rewrite messages_absorb; [|apply bytes_ok_nil|done]. fold max.
  change (mp_buf (NewMessageParser maxSize)) with (@nil Z).
  rewrite (absorb_all_encoded (cut_message max) (Encode []) (message_ok max) collect msgs rest
             chunks [] msgs); try done.
  exact (deliver_all_collect (Encode []) msgs [] 0).
Qed.

(** ** Properties *)

(** gRPC messages cross a stream.  However the bytes of [EncodeAll msgs],
    followed by the beginning of another message, are cut into DATA frames, the
    parser of the stream delivers exactly those messages, in order, reports no
    error and keeps exactly the incomplete rest. *)
Theorem Parse_messages maxSize msgs rest chunks :
  let max := mp_maxSize (NewMessageParser maxSize) in
  Forall (message_ok max) msgs -> Forall bytes_ok chunks -> cut_message max rest = CutMore ->
  concat chunks = EncodeAll [] msgs ++ rest ->
  Parse_all collect (NewMessageParser maxSize) chunks [] =
    Some ((mkMessageParser max rest, None), msgs).
Proof.
  intros max Hm Hch Hrest Hcat. rewrite EncodeAll_eq, app_nil_l in Hcat.
  by apply Parse_all_encoded.
Qed.

(** bad message headers are refused at once.  When the buffered bytes
    begin with a header whose compression flag is set, or whose length is over
    the limit, [Parse] returns the error without waiting for the payload and
    without calling the callback, and keeps the bytes. *)
Theorem Parse_refuses {S} (fn : bytes -> M S (option error)) p data (s : S) :
  let work := mp_buf p ++ data in
  bytes_ok (mp_buf p) -> bytes_ok data -> messageHeaderLen <= zlen work ->
  at_ work 0 <> 0 \/ u32 (mp_maxSize p) < be32 (at_ work 1) (at_ work 2) (at_ work 3) (at_ work 4) ->
  exists e, Parse fn p data s = Some ((mkMessageParser (mp_maxSize p) work, (zlen data, Some e)), s) /\
            (e = ErrCompressed \/ exists d, e = errorfWrap ErrMessageTooLarge d).
Proof.
  intros work Hp Hd Hl Hbad. rewrite message_absorb by done. unfold absorb, run, fuel_for.
  fold work. unfold mbind, M_bind. rewrite pump_S. unfold cut_message.
  replace (zlen work <? messageHeaderLen) with false by lia.
  destruct (Z.eqb_spec (at_ work 0) 0) as [H0|H0]; cbn [negb].
  - destruct Hbad as [?|Hbad]; [done|]. replace (_ >? _) with true by lia.
    eexists. split; [done|]. right. by eexists.
  - eexists. split; [done|]. by left.
Qed.

(** ** Witnesses *)

Lemma Parse_messages_witness :
  Parse_all collect (NewMessageParser 0) [[0; 0; 0]; [0; 2; 7]; [8; 0; 0; 0; 0; 0; 0]] [] =
    Some ((mkMessageParser defaultMaxMessageSize [0], None), [[7; 8]; []]).
Proof.
  apply (Parse_messages 0 [[7; 8]; []] [0]).
  - repeat (apply Forall_cons_2; [split; [bytes|by vm_compute]|]). constructor.
  - repeat (apply Forall_cons_2; [bytes|]). constructor.
  - by vm_compute.
  - by vm_compute.
Defined.

Lemma Parse_refuses_witness :
  exists e,
    Parse collect (NewMessageParser 0) [1; 0; 0; 0; 2] [] =
      Some ((mkMessageParser defaultMaxMessageSize [1; 0; 0; 0; 2], (5, Some e)), []) /\
    (e = ErrCompressed \/ exists d, e = errorfWrap ErrMessageTooLarge d).
Proof.
  apply (Parse_refuses collect (NewMessageParser 0) [1; 0; 0; 0; 2] []).
  - bytes.
  - bytes.
  - by vm_compute.
  - by left.
Defined.
