(* ===== verification/GrpcStatus.v ===== *)
(** * GrpcStatus

    [grpc/status.go] and the header helpers of [grpc/call.go]: status codes,
    the percent encoding of [grpc-message], the status in the trailers, method
    paths and the headers of a call. *)

From S2P Require Import Prelude GoStd H2Headers.

Definition OK : Z := 0.
Definition Canceled : Z := 1.
Definition Unknown : Z := 2.
Definition InvalidArgument : Z := 3.
Definition DeadlineExceeded : Z := 4.
Definition NotFound : Z := 5.
Definition AlreadyExists : Z := 6.
Definition PermissionDenied : Z := 7.
Definition ResourceExhausted : Z := 8.
Definition FailedPrecondition : Z := 9.
Definition Aborted : Z := 10.
Definition OutOfRange : Z := 11.
Definition Unimplemented : Z := 12.
Definition Internal : Z := 13.
Definition Unavailable : Z := 14.
Definition DataLoss : Z := 15.
Definition Unauthenticated : Z := 16.

Definition Code_String (c : Z) : string :=
  if c =? OK then "OK"
  else if c =? Canceled then "Canceled"
  else if c =? Unknown then "Unknown"
  else if c =? InvalidArgument then "InvalidArgument"
  else if c =? DeadlineExceeded then "DeadlineExceeded"
  else if c =? NotFound then "NotFound"
  else if c =? AlreadyExists then "AlreadyExists"
  else if c =? PermissionDenied then "PermissionDenied"
  else if c =? ResourceExhausted then "ResourceExhausted"
  else if c =? FailedPrecondition then "FailedPrecondition"
  else if c =? Aborted then "Aborted"
  else if c =? OutOfRange then "OutOfRange"
  else if c =? Unimplemented then "Unimplemented"
  else if c =? Internal then "Internal"
  else if c =? Unavailable then "Unavailable"
  else if c =? DataLoss then "DataLoss"
  else if c =? Unauthenticated then "Unauthenticated"
  else "Code(" +:+ fmt_d (u32 c) +:+ ")".

Definition headerContentType : string := "content-type".
Definition headerStatus : string := "grpc-status".
Definition headerMessage : string := "grpc-message".
Definition ContentType : string := "application/grpc".


Definition IsGRPCContentType (v : string) : bool :=
  let v := bytes_of_string v in
  let ct := bytes_of_string ContentType in
  (zlen ct <=? zlen v) && bool_decide (upto (zlen ct) v = ct).

Record Status : Type := mkStatus { st_Code : Z; st_Message : string }.

Definition StatusOK : Status := mkStatus OK "".
Definition StatusNotFound (msg : string) : Status := mkStatus NotFound msg.
Definition StatusUnimplemented (msg : string) : Status := mkStatus Unimplemented msg.
Definition StatusInternal (msg : string) : Status := mkStatus Internal msg.
Definition StatusInvalidArgument (msg : string) : Status := mkStatus InvalidArgument msg.

(** [None] is the nil pointer. *)
Definition Status_Error (s : option Status) : string :=
  match s with
  | None => ""
  | Some s =>
      if st_Code s =? OK then ""
      else if streq (st_Message s) "" then "rpc error: code = " +:+ Code_String (st_Code s)
      else "rpc error: code = " +:+ Code_String (st_Code s) +:+ " desc = " +:+ st_Message s
  end.

(** ** Percent encoding *)

Definition unhex (c : Z) : Z * bool :=
  if (48 <=? c) && (c <=? 57) then (c - 48, true)
  else if (97 <=? c) && (c <=? 102) then (c - 97 + 10, true)
  else if (65 <=? c) && (c <=? 70) then (c - 65 + 10, true)
  else (0, false).

Definition percent : Z := 37.

(** The loop of [percentDecode] on what is left of the string. *)
Fixpoint percentDecode_loop (l : bytes) : bytes :=
  match l with
  | [] => []
  | c :: rest =>
      if negb (c =? percent) then c :: percentDecode_loop rest
      else
        match rest with
        | a :: b :: rest' =>
            let '(hi, ok1) := unhex a in
            let '(lo, ok2) := unhex b in
            if negb ok1 || negb ok2 then c :: percentDecode_loop rest
            else (u8 (hi << 4) .| lo) :: percentDecode_loop rest'
        | _ => c :: percentDecode_loop rest
        end
  end.

Definition percentDecode (s : string) : string :=
  let l := bytes_of_string s in
  if negb (existsb (fun c => c =? percent) l) then s
  else string_of_bytes (percentDecode_loop l).

Definition must_escape (c : Z) : bool := (c <? 0x20) || (c >? 0x7e) || (c =? percent).

Definition hexDigits : bytes := bytes_of_string "0123456789ABCDEF".

Fixpoint percentEncode_loop (l : bytes) : bytes :=
  match l with
  | [] => []
  | c :: rest =>
      if must_escape c then
        percent :: at_ hexDigits (c >> 4) :: at_ hexDigits (c .& 0xf) :: percentEncode_loop rest
      else c :: percentEncode_loop rest
  end.

Definition percentEncode (s : string) : string :=
  let l := bytes_of_string s in
  if negb (existsb must_escape l) then s
  else string_of_bytes (percentEncode_loop l).

(** ** The status in the trailers *)

Fixpoint StatusFromHeaders_loop (headers : list HeaderField) (s : Status) : Status :=
  match headers with
  | [] => s
  | h :: rest =>
      if streq (Name h) headerStatus then
        match ParseUint (Value h) 32 with
        | None => mkStatus Unknown ("malformed grpc-status: " +:+ Value h)
        | Some n => StatusFromHeaders_loop rest (mkStatus n "")
        end
      else if streq (Name h) headerMessage then
        StatusFromHeaders_loop rest (mkStatus (st_Code s) (percentDecode (Value h)))
      else StatusFromHeaders_loop rest s
  end.

Definition StatusFromHeaders (headers : list HeaderField) : Status :=
  StatusFromHeaders_loop headers (mkStatus Unknown "missing grpc-status in trailer").

Definition AppendStatus (dst : list HeaderField) (s : option Status) : list HeaderField :=
  let code := match s with Some s => st_Code s | None => OK end in
  let dst := dst ++ [mkField headerStatus (string_of_bytes (format_uint code))] in
  match s with
  | Some s =>
      if negb (streq (st_Message s) "") then dst ++ [mkField headerMessage (percentEncode (st_Message s))]
      else dst
  | None => dst
  end.

(** ** Method paths and headers of a call *)

Definition MethodPath (service method : string) : string :=
  "/" +:+ service +:+ "/" +:+ method.

Definition SplitMethodPath (path : string) : string * string * bool :=
  let l := bytes_of_string path in
  if (zlen l <? 3) || negb (at_ l 0 =? 47) then ("", "", false)
  else
    let rest := from 1 l in
    let i := IndexByte rest 47 in
    if (i <=? 0) || (i =? zlen rest - 1) then ("", "", false)
    else (string_of_bytes (upto i rest), string_of_bytes (from (i + 1) rest), true).

Definition RequestHeaders (service method : string) (extra : list HeaderField) : list HeaderField :=
  [mkField ":method" "POST";
   mkField ":path" (MethodPath service method);
   mkField ":scheme" "http";
   mkField headerContentType ContentType;
   mkField "te" "trailers"] ++ extra.

Definition ResponseHeaders (extra : list HeaderField) : list HeaderField :=
  [mkField ":status" "200"; mkField headerContentType ContentType] ++ extra.

(** ** Facts *)

(** A property of all bytes, by checking each of them. *)
Lemma all_bytes (P : Z -> bool) :
  forallb P (Z.of_nat <$> seq 0 256) = true -> forall c, is_byte c -> P c = true.
Proof.
  rewrite forallb_forall. intros H c [Hc1 Hc2]. apply H. apply list_elem_of_In, list_elem_of_fmap.
  exists (Z.to_nat c). split; [lia|]. apply elem_of_seq. lia.
Qed.

Definition hex_ok (c : Z) : bool :=
  let '(hi, ok1) := unhex (at_ hexDigits (c >> 4)) in
  let '(lo, ok2) := unhex (at_ hexDigits (c .& 0xf)) in
  ok1 && ok2 && (u8 (hi << 4) .| lo =? c) &&
  negb (must_escape (at_ hexDigits (c >> 4))) && negb (must_escape (at_ hexDigits (c .& 0xf))) &&
  is_byteb (at_ hexDigits (c >> 4)) && is_byteb (at_ hexDigits (c .& 0xf)).

Lemma hex_ok_all c : is_byte c -> hex_ok c = true.
Proof. apply all_bytes. vm_compute. reflexivity. Qed.

Lemma percentDecode_escape c l :
  is_byte c ->
  percentDecode_loop (percent :: at_ hexDigits (c >> 4) :: at_ hexDigits (c .& 0xf) :: l) =
  c :: percentDecode_loop l.
Proof.
  intros Hc. pose proof (hex_ok_all c Hc) as Hh. unfold hex_ok in Hh. cbn [percentDecode_loop].
  change (percent =? percent) with true. cbn [negb].
  destruct (unhex (at_ hexDigits (c >> 4))) as [hi ok1].
  destruct (unhex (at_ hexDigits (c .& 0xf))) as [lo ok2].
  destruct ok1, ok2; try done. cbn [negb orb andb] in *. f_equal. lia.
Qed.

Lemma percent_loop l : bytes_ok l -> percentDecode_loop (percentEncode_loop l) = l.
Proof.
  induction 1 as [|c l Hc Hl IH]; [done|]. cbn [percentEncode_loop].
  destruct (must_escape c) eqn:He; [by rewrite percentDecode_escape, IH|].
  cbn [percentDecode_loop]. unfold must_escape in He.
  replace (c =? percent) with false by lia. cbn [negb]. by rewrite IH.
Qed.

Definition plain (c : Z) : Prop := 0x20 <= c <= 0x7e /\ c <> percent.

Lemma must_escape_plain c : must_escape c = false <-> plain c.
Proof. unfold must_escape, plain. lia. Qed.

(** Escaped text is printable ASCII. *)
Lemma percentEncode_printable l :
  bytes_ok l -> Forall (fun c => 0x20 <= c <= 0x7e) (percentEncode_loop l).
Proof.
  induction 1 as [|c l Hc Hl IH]; [constructor|]. cbn [percentEncode_loop].
  destruct (must_escape c) eqn:He.
  - pose proof (hex_ok_all c Hc) as Hh. unfold hex_ok in Hh.
    destruct (unhex (at_ hexDigits (c >> 4))) as [hi ok1].
    destruct (unhex (at_ hexDigits (c .& 0xf))) as [lo ok2].
    rewrite !andb_true_iff, !negb_true_iff, !must_escape_plain in Hh. unfold plain in Hh.
    constructor; [unfold percent; lia|]. repeat (constructor; [lia|]). done.
  - apply must_escape_plain in He. unfold plain in He. constructor; [lia|done].
Qed.

Lemma no_percent_loop l :
  existsb (fun c => c =? percent) l = false -> percentDecode_loop l = l.
Proof.
  induction l as [|c l IH]; [done|]. cbn [existsb percentDecode_loop].
  rewrite orb_false_iff. intros [-> Hl]. cbn [negb]. by rewrite IH.
Qed.

Lemma no_escape_loop l : existsb must_escape l = false -> percentEncode_loop l = l.
Proof.
  induction l as [|c l IH]; [done|]. cbn [existsb percentEncode_loop].
  rewrite orb_false_iff. intros [-> Hl]. by rewrite IH.
Qed.

Lemma percentDecode_bytes s :
  percentDecode s = string_of_bytes (percentDecode_loop (bytes_of_string s)).
Proof.
  unfold percentDecode. destruct (existsb _ _) eqn:He; cbn [negb]; [done|].
  by rewrite no_percent_loop, string_of_bytes_of_string.
Qed.

Lemma percentEncode_bytes s :
  percentEncode s = string_of_bytes (percentEncode_loop (bytes_of_string s)).
Proof.
  unfold percentEncode. destruct (existsb _ _) eqn:He; cbn [negb]; [done|].
  by rewrite no_escape_loop, string_of_bytes_of_string.
Qed.

Lemma percentEncode_loop_bytes l : bytes_ok l -> bytes_ok (percentEncode_loop l).
Proof.
  intros Hl. eapply Forall_impl; [by apply percentEncode_printable|].
  unfold is_byte. cbn. lia.
Qed.

Lemma percent_inverse s : percentDecode (percentEncode s) = s.
Proof.
  rewrite percentDecode_bytes, percentEncode_bytes, bytes_of_string_of_bytes.
  - by rewrite percent_loop, string_of_bytes_of_string by apply bytes_of_string_ok.
  - apply percentEncode_loop_bytes, bytes_of_string_ok.
Qed.

Lemma StatusFromHeaders_skip pre rest : forall s,
  Forall (fun h => Name h <> headerStatus /\ Name h <> headerMessage) pre ->
  StatusFromHeaders_loop (pre ++ rest) s = StatusFromHeaders_loop rest s.
Proof.
  induction pre as [|h pre IH]; intros s; [done|]. intros [[H1 H2] Hpre]%Forall_cons.
  cbn [app StatusFromHeaders_loop]. unfold streq.
  rewrite !bool_decide_eq_false_2 by done. by apply IH.
Qed.

Lemma MethodPath_bytes service method :
  bytes_of_string (MethodPath service method) =
  [47] ++ bytes_of_string service ++ 47 :: bytes_of_string method.
Proof. unfold MethodPath. by rewrite !bytes_of_string_app. Qed.

Lemma bytes_of_string_nil s : bytes_of_string s = [] -> s = EmptyString.
Proof. intros E. by rewrite <- (string_of_bytes_of_string s), E. Qed.

Lemma SplitMethodPath_cut a b :
  a <> [] -> b <> [] -> 47 ∉ a -> bytes_ok a -> bytes_ok b ->
  SplitMethodPath (string_of_bytes ([47] ++ a ++ 47 :: b)) =
    (string_of_bytes a, string_of_bytes b, true).
Proof.
  intros Ha Hb Hn Hao Hbo. unfold SplitMethodPath.
  assert (0 < zlen a /\ 0 < zlen b) as [Hla Hlb].
  { by destruct a, b. }
  rewrite bytes_of_string_of_bytes.
  - rewrite !zlen_app. change (zlen [47]) with 1. rewrite zlen_cons.
    replace (_ <? 3) with false by lia. change (at_ ([47] ++ _) 0) with 47.
    cbn [negb orb Z.eqb Pos.eqb]. change (from 1 ([47] ++ a ++ 47 :: b)) with (a ++ 47 :: b).
    rewrite IndexByte_app by done. rewrite zlen_app, zlen_cons.
    replace (_ <=? 0) with false by lia. replace (_ =? _) with false by lia. cbn [orb].
    rewrite upto_app_length, <- from_from, from_app_length by lia. done.
  - apply bytes_ok_app_2; [bytes|]. apply bytes_ok_app_2; [done|].
    apply bytes_ok_cons; [unfold is_byte; lia|done].
Qed.

Lemma SplitMethodPath_inv path service method :
  SplitMethodPath path = (service, method, true) ->
  exists a b, bytes_of_string path = [47] ++ a ++ 47 :: b /\ a <> [] /\ b <> [] /\ 47 ∉ a /\
              service = string_of_bytes a /\ method = string_of_bytes b.
Proof.
  unfold SplitMethodPath. destruct (bytes_of_string path) as [|x rest]; [done|].
  change (at_ (x :: rest) 0) with x. change (from 1 (x :: rest)) with rest.
  destruct (Z.eqb_spec x 47) as [->|]; cbn [negb]; [|by rewrite orb_true_r].
  destruct (zlen (47 :: rest) <? 3); [done|]. cbn [orb]. unfold IndexByte.
  destruct (IndexByte_from_spec rest 47 0) as [[-> _]|(a & b & -> & Ha & ->)]; [done|].
  rewrite Z.add_0_l, zlen_app, zlen_cons.
  destruct (Z.leb_spec (zlen a) 0) as [|Hla]; [done|].
  destruct (Z.eqb_spec (zlen a) (zlen a + (1 + zlen b) - 1)) as [|Hlb]; [done|]. cbn [orb].
  rewrite upto_app_length, <- from_from, from_app_length by lia. intros [= <- <-].
  exists a, b. split_and!; try done; intros ->; unfold zlen in *; cbn in *; lia.
Qed.

(** What a client reads from the fields of [AppendStatus]. *)
Lemma status_of_appended dst (st : option Status) :
  Forall (fun h => Name h <> headerStatus /\ Name h <> headerMessage) dst ->
  match st with Some s => 0 <= st_Code s < 2 ^ 32 | None => True end ->
  StatusFromHeaders (AppendStatus dst st) = default StatusOK st.
Proof.
  intros Hdst Hc. unfold AppendStatus, StatusFromHeaders.
  assert (forall m code, 0 <= code < 2 ^ 32 ->
    StatusFromHeaders_loop ([mkField headerStatus (string_of_bytes (format_uint code))] ++ m)
      (mkStatus Unknown "missing grpc-status in trailer") =
    StatusFromHeaders_loop m (mkStatus code "")) as Hcode.
  { intros m code Hcode. cbn [app StatusFromHeaders_loop Name Value].
    change (streq headerStatus headerStatus) with true. cbv iota.
    by rewrite ParseUint_format by lia. }
  destruct st as [[code msg]|]; cbn [st_Code st_Message default] in *.
  - destruct (streq msg "") eqn:Hm; cbn [negb].
    + apply bool_decide_eq_true in Hm as ->. rewrite StatusFromHeaders_skip by done.
      rewrite <- (app_nil_r [mkField headerStatus _]). by rewrite Hcode by done.
    + rewrite <- app_assoc, StatusFromHeaders_skip, Hcode by done.
      cbn [StatusFromHeaders_loop Name Value st_Code].
      change (streq headerMessage headerStatus) with false.
      change (streq headerMessage headerMessage) with true. cbv iota. by rewrite percent_inverse.
  - rewrite StatusFromHeaders_skip by done. rewrite <- (app_nil_r [mkField headerStatus _]).
    by rewrite Hcode by (unfold OK; lia).
Qed.

(** ** Properties *)

(** the percent encoding of [grpc-message] loses nothing.  Every message,
    whatever bytes it holds, is decoded from its encoding, and the encoding
    consists of printable ASCII only, as a header value must. *)
Theorem percent_roundtrip s :
  percentDecode (percentEncode s) = s /\
  Forall (fun c => 0x20 <= c <= 0x7e) (bytes_of_string (percentEncode s)).
Proof.
  split; [apply percent_inverse|]. rewrite percentEncode_bytes, bytes_of_string_of_bytes.
  - apply percentEncode_printable, bytes_of_string_ok.
  - apply percentEncode_loop_bytes, bytes_of_string_ok.
Qed.

(** the status of a call crosses in the trailers.  A client reads from the
    fields that [AppendStatus] adds, behind any other fields, the code and the
    message that the server gave, and OK when it gave none. *)
Theorem status_roundtrip dst (st : option Status) :
  Forall (fun h => Name h <> headerStatus /\ Name h <> headerMessage) dst ->
  match st with Some s => 0 <= st_Code s < 2 ^ 32 | None => True end ->
  StatusFromHeaders (AppendStatus dst st) = default StatusOK st.
Proof. apply status_of_appended. Qed.

(** The order of the trailers matters to [StatusFromHeaders]: a message in
    front of the status is dropped. *)
Lemma message_before_status :
  StatusFromHeaders [mkField headerMessage "why"; mkField headerStatus "5"] = mkStatus NotFound "".
Proof. vm_compute. reflexivity. Qed.

(** method paths.  [SplitMethodPath] accepts exactly the paths that
    [MethodPath] makes of a non-empty service name without a slash and a
    non-empty method name, and returns the two names. *)
Theorem SplitMethodPath_spec path service method :
  SplitMethodPath path = (service, method, true) <->
  path = MethodPath service method /\ service <> EmptyString /\ method <> EmptyString /\
  47 ∉ bytes_of_string service.
Proof.
  pose proof (bytes_of_string_ok path) as Hok. split.
  - intros H. apply SplitMethodPath_inv in H as (a & b & E & Ha & Hb & Hn & -> & ->).
    rewrite E in Hok. apply bytes_ok_app in Hok as [_ Hok]. apply bytes_ok_app in Hok as [Hao Hok].
    apply Forall_cons in Hok as [_ Hbo]. split; [|split; [|split]].
    + rewrite <- (string_of_bytes_of_string path), E. by rewrite !string_of_bytes_app.
    + by destruct a.
    + by destruct b.
    + by rewrite bytes_of_string_of_bytes.
  - intros (-> & Hs & Hm & Hn).
    rewrite <- (string_of_bytes_of_string (MethodPath service method)), MethodPath_bytes.
    rewrite SplitMethodPath_cut, !string_of_bytes_of_string; auto using bytes_of_string_ok.
    + intros E. by apply bytes_of_string_nil in E.
    + intros E. by apply bytes_of_string_nil in E.
Qed.

(** ** Witnesses *)

Lemma status_roundtrip_witness :
  StatusFromHeaders (AppendStatus [mkField "x" "y"] (Some (mkStatus NotFound "no such %"))) =
  default StatusOK (Some (mkStatus NotFound "no such %")).
Proof.
  apply (status_roundtrip [mkField "x" "y"] (Some (mkStatus NotFound "no such %"))).
  - repeat constructor; done.
  - unfold NotFound. cbn. lia.
Defined.
