(* ===== verification/GrpcServer.v ===== *)
(** * GrpcServer

    [grpc/server.go] and [grpc/call.go]: a gRPC server as the stream handler
    of an HTTP/2 connection, and the client's side of a call.

    The handler's own state is the [app] field of the connection: the table of
    calls, the [ServerCall] objects (callbacks keep pointers to them) and the
    state of the business handler.  Errors of the business handler are known by
    their texts, which is all the code uses. *)

From S2P Require Import Prelude Pump GoStd GrpcMessage H2Frame H2Headers H2State H2Recv H2Safe.
From S2P Require Import GrpcStatus.

Record ServerCall : Type := mkServerCall {
  sc_StreamID : Z;
  sc_Service : string;
  sc_Method : string;
  sc_Headers : list HeaderField;
  sc_parser : MessageParser;
  sc_replied : bool;
}.

Definition set_sc_parser (p : MessageParser) (s : ServerCall) : ServerCall :=
  mkServerCall (sc_StreamID s) (sc_Service s) (sc_Method s) (sc_Headers s) p (sc_replied s).
Definition set_sc_replied (b : bool) (s : ServerCall) : ServerCall :=
  mkServerCall (sc_StreamID s) (sc_Service s) (sc_Method s) (sc_Headers s) (sc_parser s) b.

(** [ServerHandler]: its table, the objects it points to, the business state. *)
Record ServerHandler {U : Type} : Type := mkServerHandler {
  calls : gmap Z positive;
  objs : gmap positive ServerCall;
  nextCall : positive;
  user : U;
}.
Arguments ServerHandler : clear implicits.

Section Server.
Context `{Hpack} {U : Type}.
Notation Conn := (Conn (ServerHandler U)).
Notation go A := (M Conn A).

(** The business interface. *)
Record Handler : Type := {
  OnCall : positive -> go (option string);
  OnMessage : positive -> bytes -> go (option string);
  OnEnd : positive -> go (option string);
}.

Definition NewServerHandler (u : U) : ServerHandler U := mkServerHandler U ∅ ∅ 1%positive u.

Definition set_calls (v : gmap Z positive) (s : ServerHandler U) : ServerHandler U :=
  mkServerHandler U v (objs s) (nextCall s) (user s).
Definition set_objs (v : gmap positive ServerCall) (s : ServerHandler U) : ServerHandler U :=
  mkServerHandler U (calls s) v (nextCall s) (user s).
Definition set_nextCall (v : positive) (s : ServerHandler U) : ServerHandler U :=
  mkServerHandler U (calls s) (objs s) v (user s).
Definition set_user (v : U) (s : ServerHandler U) : ServerHandler U :=
  mkServerHandler U (calls s) (objs s) (nextCall s) v.
Definition modify_app (f : ServerHandler U -> ServerHandler U) : go unit :=
  modify (fun c => set_app (f (app c)) c).

Definition load_call (p : positive) : go ServerCall := c ← get; of_option (objs (app c) !! p).
Definition store_call (p : positive) (sc : ServerCall) : go unit :=
  _ ← load_call p; modify_app (fun s => set_objs (<[p := sc]> (objs s)) s).
Definition new_call (sc : ServerCall) : go positive :=
  p ← gets (fun c => nextCall (app c));
  modify_app (fun s => set_objs (<[p := sc]> (objs s)) s) ;;
  modify_app (set_nextCall (Pos.succ p)) ;;
  mret p.

(** ** Answering a call *)

Definition Replied (p : positive) : go bool := sc ← load_call p; mret (sc_replied sc).

Definition StartReply (p : positive) : go (option Error) :=
  sc ← load_call p; WriteHeaders (sc_StreamID sc) (ResponseHeaders []) false.

Definition Send (p : positive) (msg : bytes) (last : bool) : go (option Error) :=
  sc ← load_call p; WriteData (sc_StreamID sc) (GrpcMessage.Encode [] msg) last.

Definition Finish (p : positive) (st : option Status) : go (option Error) :=
  let st := default StatusOK st in
  sc ← load_call p;
  try WriteTrailers (sc_StreamID sc) (AppendStatus [] (Some st));
  sc ← load_call p;
  store_call p (set_sc_replied true sc) ;;
  mret None.

Definition Reply (p : positive) (msg : option bytes) (st : option Status) : go (option Error) :=
  try StartReply p;
  try (match msg with
       | Some msg =>
           sc ← load_call p; WriteData (sc_StreamID sc) (GrpcMessage.Encode [] msg) false
       | None => mret None
       end);
  Finish p st.

Definition ReplyError (p : positive) (st : option Status) : go (option Error) :=
  let st := default (StatusInternal "unknown error") st in
  try StartReply p; Finish p (Some st).

(** ** The stream handler *)

Context (h : Handler).

(** [if err != nil && !call.replied { _ = call.ReplyError(c, status(err)) }] *)
Definition reply_if_error (p : positive) (err : option string) (status : string -> Status) : go unit :=
  match err with
  | None => mret tt
  | Some e =>
      replied ← Replied p;
      if (replied : bool) then mret tt else ReplyError p (Some (status e)) ;; mret tt
  end.

Definition forget (streamID : Z) : go unit :=
  modify_app (fun s => set_calls (delete streamID (calls s)) s).

Definition end_ (streamID : Z) (p : positive) : go unit :=
  err ← OnEnd h p;
  reply_if_error p err StatusInternal ;;
  forget streamID.

(** The last [:path] and the last [content-type]. *)
Definition path_and_type (headers : list HeaderField) : string * string :=
  fold_left (fun r f =>
    if streq (Name f) ":path" then (Value f, snd r)
    else if streq (Name f) "content-type" then (fst r, Value f)
    else r) headers (EmptyString, EmptyString).

Definition ServerHandler_OnHeaders (streamID : Z) (headers : list HeaderField) (endStream : bool)
    : go unit :=
  let '(path, ctype) := path_and_type headers in
  if negb (IsGRPCContentType ctype) then
    WriteHeaders streamID [mkField ":status" "415"; mkField "content-type" "text/plain"] true ;;
    mret tt
  else
    p ← new_call (mkServerCall streamID "" "" headers (NewMessageParser 0) false);
    let '(svc, method, ok) := SplitMethodPath path in
    if (ok : bool) then
      sc ← load_call p;
      store_call p (mkServerCall (sc_StreamID sc) svc method (sc_Headers sc) (sc_parser sc)
                      (sc_replied sc)) ;;
      modify_app (fun s => set_calls (<[streamID := p]> (calls s)) s) ;;
      err ← OnCall h p;
      reply_if_error p err StatusInternal ;;
      (if endStream then end_ streamID p else mret tt)
    else
      ReplyError p (Some (StatusUnimplemented ("malformed method path " +:+ path))) ;; mret tt.

(** The callback handed to the message parser; it never returns an error. *)
Definition on_message (p : positive) (msg : bytes) : go (option error) :=
  err ← OnMessage h p msg;
  reply_if_error p err StatusInternal ;;
  mret None.

Definition ServerHandler_OnData (streamID : Z) (data : bytes) (endStream : bool) : go unit :=
  o ← gets (fun c => calls (app c) !! streamID);
  match o with
  | None => mret tt
  | Some p =>
      sc ← load_call p;
      r ← GrpcMessage.Parse (on_message p) (sc_parser sc) data;
      let '(parser, (_, err)) := r in
      sc ← load_call p;
      store_call p (set_sc_parser parser sc) ;;
      replied ← Replied p;
      match err with
      | Some e =>
          if negb replied then
            ReplyError p (Some (StatusInvalidArgument (error_text e))) ;;
            forget streamID
          else if endStream then end_ streamID p else mret tt
      | None => if endStream then end_ streamID p else mret tt
      end
  end.

Definition ServerHandler_OnRSTStream (streamID code : Z) : go unit := forget streamID.

Definition server : StreamHandler (ServerHandler U) := {|
  OnHeaders := ServerHandler_OnHeaders;
  OnData := ServerHandler_OnData;
  OnRSTStream := ServerHandler_OnRSTStream;
|}.
End Server.
Arguments Handler {_} U.

(** ** The client's side *)

Record Call : Type := mkCall {
  call_StreamID : Z;
  call_parser : MessageParser;
  call_status : option Status;
  call_gotStatus : bool;
  call_headers : list HeaderField;
}.

Definition NewCall (streamID : Z) : Call := mkCall streamID (NewMessageParser 0) None false [].

(** Fields that hold [grpc-status] are the trailers. *)
Definition Call_OnHeaders (fields : list HeaderField) (c : Call) : Call :=
  if existsb (fun f => streq (Name f) headerStatus) fields then
    mkCall (call_StreamID c) (call_parser c) (Some (StatusFromHeaders fields)) true (call_headers c)
  else mkCall (call_StreamID c) (call_parser c) (call_status c) (call_gotStatus c) fields.

Definition Call_OnData {S} (fn : bytes -> M S (option error)) (data : bytes) (c : Call)
    : M S (Call * option error) :=
  r ← GrpcMessage.Parse fn (call_parser c) data;
  let '(parser, (_, err)) := r in
  let c := mkCall (call_StreamID c) parser (call_status c) (call_gotStatus c) (call_headers c) in
  mret (c, match err with
           | Some e => Some (errorfPrefix ("grpc: stream " +:+ fmt_d (call_StreamID c)) e)
           | None => None
           end).

Definition Call_Status (c : Call) : option Status :=
  if negb (call_gotStatus c) then None else call_status c.
Definition Done (c : Call) : bool := call_gotStatus c.

Section Client.
Context `{Hpack} {App : Type}.
Notation Conn := (Conn App).
Notation go A := (M Conn A).

(** The stream id allocated by [NewStreamID] and the fate of the HEADERS. *)
Definition CallStream (service method : string) : go (Call + Error) :=
  streamID ← NewStreamID;
  e ← WriteHeaders streamID (RequestHeaders service method []) false;
  mret (match e with Some e => inr e | None => inl (NewCall streamID) end).

Definition ClientConn_Call (service method : string) (reqMsg : bytes) : go (Call + Error) :=
  streamID ← NewStreamID;
  e ← WriteHeaders streamID (RequestHeaders service method []) false;
  match e with
  | Some e => mret (inr e)
  | None =>
      e ← WriteData streamID (GrpcMessage.Encode [] reqMsg) true;
      mret (match e with Some e => inr e | None => inl (NewCall streamID) end)
  end.

Definition ClientConn_Send (call : Call) (msg : bytes) (last : bool) : go (option Error) :=
  WriteData (call_StreamID call) (GrpcMessage.Encode [] msg) last.

Definition ClientConn_Finish (call : Call) : go (option Error) :=
  WriteData (call_StreamID call) [] true.

Definition WriteResponse (streamID : Z) (msg : bytes) (st : option Status) : go (option Error) :=
  try WriteHeaders streamID (ResponseHeaders []) false;
  try WriteData streamID (GrpcMessage.Encode [] msg) false;
  WriteTrailers streamID (AppendStatus [] st).

Definition ClientConn_WriteTrailers (streamID : Z) (st : option Status) : go (option Error) :=
  WriteTrailers streamID (AppendStatus [] st).
End Client.

(** ** The server keeps the contract of the connection *)

Section Safe.
Context `{Hpack} {U : Type} `{!AppInv U}.
Notation Conn := (Conn (ServerHandler U)).
Notation go A := (M Conn A).

(** The table points to the calls of its streams, and parsers hold bytes. *)
Record server_ok (s : ServerHandler U) : Prop := {
  so_calls id p : calls s !! id = Some p -> exists sc, objs s !! p = Some sc /\ sc_StreamID sc = id;
  so_objs p sc : objs s !! p = Some sc ->
    (p < nextCall s)%positive /\ bytes_ok (mp_buf (sc_parser sc));
  so_user : app_ok (user s);
}.
#[export] Instance server_inv : AppInv (ServerHandler U) := server_ok.

(** Call objects stay alive and stay with their stream: callbacks and the
    business handler keep pointers to them. *)
Definition call_le (s s' : ServerHandler U) : Prop :=
  forall p sc, objs s !! p = Some sc ->
    exists sc', objs s' !! p = Some sc' /\ sc_StreamID sc' = sc_StreamID sc.
Definition live_le (c c' : Conn) : Prop := call_le (app c) (app c').

#[export] Instance call_le_preorder : PreOrder call_le.
Proof.
  split; [intros s p sc Hp; by exists sc|]. intros s1 s2 s3 L1 L2 p sc Hp.
  destruct (L1 p sc Hp) as (sc1 & H1 & <-). by apply L2.
Qed.

Lemma call_le_same s s' : objs s' = objs s -> call_le s s'.
Proof. intros E p sc. rewrite E. by exists sc. Qed.

Lemma live_trans c1 c2 c3 : live_le c1 c2 -> live_le c2 c3 -> live_le c1 c3.
Proof. apply (transitivity (R := call_le)). Qed.

Lemma live_live c c' p :
  live_le c c' -> is_Some (objs (app c) !! p) -> is_Some (objs (app c') !! p).
Proof. intros L [sc Hp]. destruct (L p sc Hp) as (sc' & ? & _). by eexists. Qed.

Definition calm_at {A} (m : go A) (c : Conn) : Prop :=
  wp m (fun _ c' => Inv c' /\ handler_step c c' /\ live_le c c') c.
Definition calm {A} (m : go A) : Prop := forall c, Inv c -> calm_at m c.

(** What the business handler must promise: it uses the connection and its
    calls through their methods. *)
Class UserOk (h : Handler U) : Prop := {
  uo_call p c : Inv c -> is_Some (objs (app c) !! p) -> calm_at (OnCall h p) c;
  uo_message p m c : Inv c -> bytes_ok m -> is_Some (objs (app c) !! p) -> calm_at (OnMessage h p m) c;
  uo_end p c : Inv c -> is_Some (objs (app c) !! p) -> calm_at (OnEnd h p) c;
  uo_keeps_call p : keeps parser (OnCall h p);
  uo_keeps_message p m : keeps parser (OnMessage h p m);
  uo_keeps_end p : keeps parser (OnEnd h p);
}.

Lemma calm_at_bind {A B} (m : go A) (k : A -> go B) c :
  calm_at m c ->
  (forall a c', Inv c' -> live_le c c' -> calm_at (k a) c') -> calm_at (m ≫= k) c.
Proof.
  intros Hm Hk. apply wp_bind. eapply wp_mono; [exact Hm|]. cbn. intros a c1 (H1 & S1 & L1).
  eapply wp_mono; [by apply Hk|]. cbn. intros b c2 (H2 & S2 & L2).
  split; [done|]. split; [by transitivity c1|]. by apply (live_trans c c1 c2).
Qed.

Lemma calm_ret {A} (a : A) : calm (mret a).
Proof. intros c Hc. apply wp_ret. split; [done|]. split; [done|]. by intros p sc Hp; exists sc. Qed.

Lemma calm_at_check {E} (m k : go (option E)) c :
  calm_at m c -> (forall c', Inv c' -> live_le c c' -> calm_at k c') -> calm_at (check m k) c.
Proof.
  intros Hm Hk. apply calm_at_bind; [done|]. intros [e|] c' Hc' Hl; [by apply calm_ret|auto].
Qed.

(** Methods of the connection. *)
Lemma calm_method {A} (m : go A) : safe m -> keeps hidden m -> calm m.
Proof.
  intros Hs Hk c Hc. apply keeps_hidden_app in Hk.
  eapply wp_mono; [apply wp_post; [by apply Hs|]|].
  - intros a c' E. exact (Hk _ _ _ E).
  - cbn. intros a c' [[? ?] E]. split; [done|]. split; [done|]. unfold live_le. by rewrite E.
Qed.

Lemma calm_WriteHeaders id fs es : calm (WriteHeaders id fs es).
Proof. apply calm_method; [apply safe_WriteHeaders|apply keeps_WriteHeaders]. Qed.
Lemma calm_WriteData id d es : calm (WriteData id d es).
Proof. apply calm_method; [apply safe_WriteData|apply keeps_WriteData]. Qed.
Lemma calm_WriteTrailers id fs : calm (WriteTrailers id fs).
Proof. apply calm_method; [apply safe_WriteTrailers|apply keeps_WriteTrailers]. Qed.

(** Updates of the handler's own state. *)
Lemma calm_modify_app f c :
  Inv c -> server_ok (f (app c)) ->
  call_le (app c) (f (app c)) ->
  calm_at (modify_app f) c.
Proof.
  intros [] Hok Hl. apply wp_modify. split; [split; cbn; eauto|]. split; [split; cbn; eauto|exact Hl].
Qed.

Lemma calm_load {A} p (k : ServerCall -> go A) c :
  is_Some (objs (app c) !! p) ->
  (forall sc, objs (app c) !! p = Some sc -> calm_at (k sc) c) -> calm_at (load_call p ≫= k) c.
Proof.
  intros [sc Hsc] Hk. apply wp_bind. unfold load_call. wp_steps. eapply wp_of_option; [done|].
  by apply Hk.
Qed.

Lemma calm_store p sc0 sc c :
  Inv c -> objs (app c) !! p = Some sc0 -> sc_StreamID sc = sc_StreamID sc0 ->
  bytes_ok (mp_buf (sc_parser sc)) -> calm_at (store_call p sc) c.
Proof.
  intros Hc Hp Hid Hb. apply calm_load; [by eexists|]. intros _ _.
  pose proof (inv_app c Hc) as [Hcalls Hobjs Huser].
  assert (call_le (app c) (set_objs (<[p:=sc]> (objs (app c))) (app c))) as L.
  { intros q t Hq. cbn. rewrite lookup_insert. case_decide; [|by exists t].
    subst q. rewrite Hp in Hq. injection Hq as <-. by exists sc. }
  apply calm_modify_app; [done| |done]. split; cbn; [| |done].
  - intros id q Hq. destruct (Hcalls id q Hq) as (t & Ht & <-). by apply L.
  - intros q t. rewrite lookup_insert. case_decide as E; [|apply Hobjs].
    intros [= <-]. subst. split; [by eapply Hobjs|done].
Qed.

Lemma store_call_lookup p sc (c c' : Conn) :
  store_call p sc c = Some (tt, c') -> objs (app c') !! p = Some sc.
Proof.
  unfold store_call, load_call, modify_app, get, modify, of_option. cbv [mbind M_bind mret M_ret].
  destruct (objs (app c) !! p); [|done]. intros [= <-]. apply lookup_insert_eq.
Qed.

(** ** Answering *)

Lemma calm_StartReply p c : Inv c -> is_Some (objs (app c) !! p) -> calm_at (StartReply p) c.
Proof. intros Hc Hp. apply calm_load; [done|]. intros sc _. by apply calm_WriteHeaders. Qed.

Lemma calm_Finish p st c : Inv c -> is_Some (objs (app c) !! p) -> calm_at (Finish p st) c.
Proof.
  intros Hc Hp. apply calm_load; [done|]. intros sc _.
  apply calm_at_check; [by apply calm_WriteTrailers|]. intros c1 H1 L1.
  apply calm_load; [by eauto using live_live|]. intros sc1 Hsc1.
  apply calm_at_bind; [|intros; by apply calm_ret]. apply (calm_store p sc1); [done..|]. pose proof (inv_app c1 H1) as [_ Hobjs _].
  by destruct (Hobjs p sc1 Hsc1).
Qed.

Lemma calm_Send p m last c : Inv c -> is_Some (objs (app c) !! p) -> calm_at (Send p m last) c.
Proof. intros Hc Hp. apply calm_load; [done|]. intros sc _. by apply calm_WriteData. Qed.

Lemma calm_Reply p m st c : Inv c -> is_Some (objs (app c) !! p) -> calm_at (Reply p m st) c.
Proof.
  intros Hc Hp. apply calm_at_check; [by apply calm_StartReply|]. intros c1 H1 L1.
  apply calm_at_check.
  - destruct m as [m|]; [|by apply calm_ret]. apply calm_load; [by eauto using live_live|].
    intros sc _. by apply calm_WriteData.
  - intros c2 H2 L2. apply calm_Finish; [done|]. eauto using live_live.
Qed.

Lemma calm_ReplyError p st c : Inv c -> is_Some (objs (app c) !! p) -> calm_at (ReplyError p st) c.
Proof.
  intros Hc Hp. apply calm_at_check; [by apply calm_StartReply|]. intros c1 H1 L1.
  apply calm_Finish; [done|]. eauto using live_live.
Qed.

Lemma calm_reply_if_error p err f c :
  Inv c -> is_Some (objs (app c) !! p) -> calm_at (reply_if_error p err f) c.
Proof.
  intros Hc Hp. destruct err as [e|]; [|by apply calm_ret]. unfold reply_if_error.
  apply calm_at_bind.
  - apply calm_load; [done|]. intros. by apply calm_ret.
  - intros replied c1 H1 L1. destruct replied; [by apply calm_ret|].
    apply calm_at_bind; [apply calm_ReplyError; eauto using live_live|]. intros. by apply calm_ret.
Qed.

Lemma calm_forget id c : Inv c -> calm_at (forget id) c.
Proof.
  intros Hc. pose proof (inv_app c Hc) as [Hcalls Hobjs Huser].
  apply calm_modify_app; [done| |by apply call_le_same]. split; cbn; [|done|done].
  intros i p Hp. apply lookup_delete_Some in Hp as [_ Hp]. by apply (Hcalls i p).
Qed.

(** A step after which more is known. *)
Lemma calm_at_step {A B} (m : go A) (k : A -> go B) c :
  wp m (fun a c' => Inv c' /\ handler_step c c' /\ live_le c c' /\ calm_at (k a) c') c ->
  calm_at (m ≫= k) c.
Proof.
  intros Hm. apply wp_bind. eapply wp_mono; [exact Hm|]. cbn. intros a c1 (H1 & S1 & L1 & K).
  eapply wp_mono; [exact K|]. cbn. intros b c2 (H2 & S2 & L2).
  split; [done|]. split; [by transitivity c1|]. by apply (live_trans c c1 c2).
Qed.

Lemma calm_new_call {A} sc (k : positive -> go A) c :
  Inv c -> bytes_ok (mp_buf (sc_parser sc)) ->
  (forall p c', Inv c' -> live_le c c' -> objs (app c') !! p = Some sc -> calm_at (k p) c') ->
  calm_at (new_call sc ≫= k) c.
Proof.
  intros Hc Hb Hk. apply calm_at_step. unfold new_call, modify_app. wp_steps.
  set (p := nextCall (app c)). set (c' := set_app _ _).
  pose proof (inv_app c Hc) as [Hcalls Hobjs Huser].
  assert (objs (app c') !! p = Some sc) as Hp by apply lookup_insert_eq.
  assert (objs (app c) !! p = None) as Hfresh.
  { destruct (objs (app c) !! p) as [t|] eqn:Ht; [|done]. destruct (Hobjs p t Ht). unfold p in *. lia. }
  assert (live_le c c') as Hl.
  { intros q t Hq. exists t. split; [|done]. cbn. rewrite lookup_insert_ne; [done|congruence]. }
  assert (Inv c') as Hc'.
  { destruct Hc. split; cbn; eauto. split; cbn; [| |done].
    - intros id q Hq. destruct (Hcalls id q Hq) as (t & Ht & <-). by apply Hl.
    - intros q t. rewrite lookup_insert. case_decide as E.
      + intros [= <-]. split; [subst; unfold p; lia|done].
      + intros Hq. destruct (Hobjs q t Hq). split; [lia|done]. }
  split; [done|]. split; [by split; cbn; eauto|]. split; [done|]. by apply Hk.
Qed.

Context (h : Handler U) `{!UserOk h}.

Lemma calm_end id p c : Inv c -> is_Some (objs (app c) !! p) -> calm_at (end_ h id p) c.
Proof.
  intros Hc Hp. apply calm_at_bind; [by apply uo_end|]. intros err c1 H1 L1.
  apply calm_at_bind; [apply calm_reply_if_error; eauto using live_live|]. intros _ c2 H2 L2.
  by apply calm_forget.
Qed.

Lemma calm_end_if (b : bool) id p c :
  Inv c -> is_Some (objs (app c) !! p) ->
  calm_at (if b then end_ h id p else mret tt) c.
Proof. intros Hc Hp. destruct b; [by apply calm_end|by apply calm_ret]. Qed.

Lemma calm_OnHeaders id fs es : calm (ServerHandler_OnHeaders h id fs es).
Proof.
  intros c Hc. unfold ServerHandler_OnHeaders. destruct (path_and_type fs) as [path ctype].
  branch Ht; [by apply calm_at_bind; [apply calm_WriteHeaders|intros; apply calm_ret]|].
  apply calm_new_call; [done|apply bytes_ok_nil|]. intros p c1 H1 _ Hp.
  assert (is_Some (objs (app c1) !! p)) as Hlive by by eexists.
  destruct (SplitMethodPath path) as [[svc method] ok]. destruct ok.
  - apply calm_load; [done|]. intros sc Hsc. rewrite Hp in Hsc. injection Hsc as <-.
    apply calm_at_step. set (sc1 := mkServerCall _ svc method _ _ _).
    pose proof (calm_store p _ sc1 c1 H1 Hp eq_refl bytes_ok_nil) as Hst.
    eapply wp_mono; [apply (wp_post _ _ (fun _ c2 => objs (app c2) !! p = Some sc1) c1 Hst)|].
    { intros [] c2. exact (store_call_lookup p sc1 c1 c2). }
    cbn beta. intros _ c2 [(H2 & S2 & L2) Hp2]. split; [done|]. split; [done|]. split; [done|].
    assert (is_Some (objs (app c2) !! p)) as Hlive2 by by eexists.
    apply calm_at_bind.
    { pose proof (inv_app c2 H2) as [Hcalls Hobjs Huser]. apply calm_modify_app; [done| |by apply call_le_same].
      split; cbn; [|done|done]. intros i q. rewrite lookup_insert. case_decide; [|apply Hcalls].
      intros [= <-]. subst i. by exists sc1. }
    intros _ c3 H3 L3. apply calm_at_bind; [apply uo_call; eauto using live_live|]. intros err c4 H4 L4.
    apply calm_at_bind; [apply calm_reply_if_error; eauto using live_live|]. intros _ c5 H5 L5.
    apply calm_end_if; eauto using live_live.
  - apply calm_at_bind; [by apply calm_ReplyError|]. intros. by apply calm_ret.
Qed.

Lemma calm_on_message p m c :
  Inv c -> bytes_ok m -> is_Some (objs (app c) !! p) -> calm_at (on_message h p m) c.
Proof.
  intros Hc Hm Hp. apply calm_at_bind; [by apply uo_message|]. intros err c1 H1 L1.
  apply calm_at_bind; [apply calm_reply_if_error; eauto using live_live|]. intros. by apply calm_ret.
Qed.

Lemma calm_parse p q data {A} (k : _ -> go A) c :
  Inv c -> is_Some (objs (app c) !! p) -> bytes_ok (mp_buf q) -> bytes_ok data ->
  (forall r c', Inv c' -> live_le c c' -> bytes_ok (mp_buf (fst r)) -> calm_at (k r) c') ->
  calm_at (GrpcMessage.Parse (on_message h p) q data ≫= k) c.
Proof.
  intros Hc Hp Hq Hd Hk. apply calm_at_step.
  eapply wp_mono; [apply (GrpcMessage.message_parse_wp _ (fun c' => Inv c' /\ handler_step c c' /\ live_le c c'))|].
  - intros m c1 Hm (H1 & S1 & L1).
    eapply wp_mono; [apply calm_on_message; [done|done|by eauto using live_live]|]. cbn.
    intros _ c2 (H2 & S2 & L2). split; [done|]. split; [by transitivity c1|]. by apply (live_trans c c1 c2).
  - done.
  - done.
  - split; [done|]. split; [done|]. by apply call_le_same.
  - cbn. intros r c' [(H1 & S1 & L1) Hr]. auto 6.
Qed.

Lemma calm_OnData id data es : bytes_ok data -> calm (ServerHandler_OnData h id data es).
Proof.
  intros Hd c Hc. unfold ServerHandler_OnData. apply calm_at_step, wp_gets.
  split; [done|]. split; [done|]. split; [by intros q t Hq; exists t|].
  pose proof (inv_app c Hc) as [Hcalls Hobjs _].
  destruct (calls (app c) !! id) as [p|] eqn:Hid; [|by apply calm_ret].
  assert (is_Some (objs (app c) !! p)) as Hp by (destruct (Hcalls id p Hid) as (? & ? & _); by eexists).
  apply calm_load; [done|]. intros sc Hsc.
  apply (calm_parse p); [done|done|by destruct (Hobjs p sc Hsc)|done|].
  intros [parser [n err]] c1 H1 L1 Hb. cbn in Hb. pose proof (live_live _ _ _ L1 Hp) as Hp1.
  apply calm_load; [done|]. intros sc1 Hsc1.
  apply calm_at_bind; [by apply (calm_store p sc1)|]. intros _ c2 H2 L2.
  pose proof (live_live _ _ _ L2 Hp1) as Hp2.
  apply calm_at_bind; [by apply calm_load; [done|]; intros; apply calm_ret|].
  intros replied c3 H3 L3. pose proof (live_live _ _ _ L3 Hp2) as Hp3.
  destruct err as [e|]; [|by apply calm_end_if]. branch Hrep; [|by apply calm_end_if].
  apply calm_at_bind; [by apply calm_ReplyError|]. intros. by apply calm_forget.
Qed.

(** ** The contract of a stream handler *)

Lemma keeps_load_call p : keeps parser (load_call (U := U) p).
Proof. unfold load_call. keeps. Qed.
Lemma keeps_modify_app f : keeps parser (modify_app (U := U) f).
Proof. unfold modify_app. keeps. Qed.
#[local] Hint Resolve keeps_load_call keeps_modify_app uo_keeps_call uo_keeps_message uo_keeps_end : keeps.
Lemma keeps_store_call p sc : keeps parser (store_call (U := U) p sc).
Proof. unfold store_call. keeps. Qed.
Lemma keeps_new_call sc : keeps parser (new_call (U := U) sc).
Proof. unfold new_call. keeps. Qed.
#[local] Hint Resolve keeps_store_call keeps_new_call : keeps.
Lemma keeps_ReplyError p st : keeps parser (ReplyError (U := U) p st).
Proof. unfold ReplyError, StartReply, Finish. keeps. Qed.
#[local] Hint Resolve keeps_ReplyError : keeps.
Lemma keeps_reply_if_error p err f : keeps parser (reply_if_error (U := U) p err f).
Proof. unfold reply_if_error, Replied. keeps. Qed.
#[local] Hint Resolve keeps_reply_if_error : keeps.
Lemma keeps_end id p : keeps parser (end_ h id p).
Proof. unfold end_, forget. keeps. Qed.
#[local] Hint Resolve keeps_end : keeps.
Lemma keeps_OnHeaders id fs es : keeps parser (ServerHandler_OnHeaders h id fs es).
Proof. unfold ServerHandler_OnHeaders. keeps. Qed.
Lemma keeps_on_message_parse p q data :
  keeps parser (GrpcMessage.Parse (on_message h p) q data).
Proof. apply GrpcMessage.keeps_Parse. intros m. unfold on_message. keeps. Qed.
#[local] Hint Resolve keeps_on_message_parse : keeps.
Lemma keeps_OnData id data es : keeps parser (ServerHandler_OnData h id data es).
Proof. unfold ServerHandler_OnData, forget, Replied. keeps. Qed.

Lemma calm_safe {A} (m : go A) c :
  calm_at m c -> wp m (fun _ c' => Inv c' /\ handler_step c c') c.
Proof. intros Hm. eapply wp_mono; [exact Hm|]. by intros _ c' (? & ? & _). Qed.

(** The gRPC server is a stream handler the connection may trust. *)
#[export] Instance server_handler_ok : HandlerOk (Some (server h)).
Proof.
  split; cbn -[ServerHandler_OnHeaders ServerHandler_OnData].
  - intros id fs es c Hc. by apply calm_safe, calm_OnHeaders.
  - intros id d es c Hd Hc. by apply calm_safe, calm_OnData.
  - intros id code c Hc. exact (calm_safe _ _ (calm_forget id c Hc)).
  - apply keeps_OnHeaders.
  - apply keeps_OnData.
  - intros id code. apply keeps_modify_app.
Qed.
End Safe.
