(* ===== verification/GrpcFeed.v ===== *)
(** * GrpcFeed

    The gRPC server on its connection, and the client's view of a reply: safety
    of the server for all bytes of the peer, separation of the calls that share
    a connection, and the round trip of a unary reply. *)

From S2P Require Import Prelude Pump GoStd GrpcMessage H2Frame H2Headers H2State H2Recv H2Safe.
From S2P Require Import H2Conn H2Feed GrpcStatus GrpcServer.

(** The messages of a business log that went to one call. *)
Fixpoint received (p : positive) (l : list (positive * bytes)) : list bytes :=
  match l with
  | [] => []
  | (q, m) :: l => if Pos.eqb q p then m :: received p l else received p l
  end.

Lemma received_app p l1 l2 : received p (l1 ++ l2) = received p l1 ++ received p l2.
Proof. induction l1 as [|[q m] l1 IH]; cbn; [done|]. destruct (Pos.eqb q p); cbn; by rewrite IH. Qed.

Record piece : Type := mkPiece { pc_id : Z; pc_data : bytes; pc_end : bool }.

(** What the connection hands over for one stream. *)
Fixpoint pieces_of (id : Z) (l : list piece) : list bytes :=
  match l with
  | [] => []
  | e :: l => if pc_id e =? id then pc_data e :: pieces_of id l else pieces_of id l
  end.

#[export] Instance log_inv : AppInv (list (positive * bytes)) := fun _ => True.

Section Server.
Context `{Hpack}.
Notation App := (ServerHandler (list (positive * bytes))).
Notation Conn := (Conn App).
Notation go A := (M Conn A).

(** A business handler that records the messages of every call. *)
Definition log_message (p : positive) (m : bytes) : go (option string) :=
  modify_app (fun s => set_user (user s ++ [(p, m)]) s) ;; mret None.

Definition recorder : Handler (list (positive * bytes)) := {|
  OnCall _ := mret None;
  OnMessage := log_message;
  OnEnd _ := mret None;
|}.

Fixpoint OnData_all (l : list piece) : go unit :=
  match l with
  | [] => mret tt
  | e :: l => ServerHandler_OnData recorder (pc_id e) (pc_data e) (pc_end e) ;; OnData_all l
  end.

#[export] Instance recorder_ok : UserOk recorder.
Proof.
  split.
  - intros p c Hc _. by apply calm_ret.
  - intros p m c Hc _ _. apply calm_at_bind; [|intros; by apply calm_ret].
    apply calm_modify_app; [done| |by apply call_le_same]. destruct (inv_app c Hc). by split.
  - intros p c Hc _. by apply calm_ret.
  - intros p. apply keeps_ret.
  - intros p m. apply keeps_bind; [apply keeps_modify_app|intros; apply keeps_ret].
  - intros p. apply keeps_ret.
Qed.

(** The part of the state that belongs to one stream and its call. *)
Definition call_view (id : Z) (p : positive) (c : Conn)
    : option positive * option ServerCall * list bytes :=
  (calls (app c) !! id, objs (app c) !! p, received p (user (app c))).

Section Other.
Context (id : Z) (p q : positive) (Hpq : q <> p).

Lemma view_hidden {A} (m : go A) : keeps hidden m -> keeps (call_view id p) m.
Proof. intros Hm c a c' E. apply Hm in E. injection E as _ E. unfold call_view. by rewrite E. Qed.
Lemma view_load : keeps (call_view id p) (load_call q).
Proof. unfold load_call. keeps. Qed.
Lemma view_store sc : keeps (call_view id p) (store_call q sc).
Proof.
  unfold store_call, modify_app. keeps; [apply view_load|].
  unfold call_view. cbn. by rewrite lookup_insert_ne.
Qed.
Lemma view_log m : keeps (call_view id p) (log_message q m).
Proof.
  unfold log_message, modify_app. keeps. unfold call_view. cbn. rewrite received_app. cbn.
  apply Pos.eqb_neq in Hpq. by rewrite Hpq, app_nil_r.
Qed.
Lemma view_forget id' : id' <> id -> keeps (call_view id p) (forget id').
Proof.
  intros Hid. unfold forget, modify_app. keeps. unfold call_view. cbn. by rewrite lookup_delete_ne.
Qed.

#[local] Hint Resolve view_load view_store view_log view_forget : keeps.
#[local] Hint Extern 4 (keeps (call_view _ _) _) => apply view_hidden : keeps.

Lemma view_ReplyError st : keeps (call_view id p) (ReplyError q st).
Proof. unfold ReplyError, StartReply, Finish. keeps. Qed.

Lemma view_parse mp data :
  keeps (call_view id p) (GrpcMessage.Parse (on_message recorder q) mp data).
Proof.
  apply GrpcMessage.keeps_Parse. intros m. unfold on_message. apply keeps_bind; [apply view_log|].
  intros err. unfold reply_if_error, Replied. pose proof view_ReplyError. keeps.
Qed.
#[local] Hint Resolve view_ReplyError view_parse : keeps.

Lemma view_end id' : id' <> id -> keeps (call_view id p) (end_ recorder id' q).
Proof. intros Hid. unfold end_, reply_if_error, Replied. cbn. keeps. Qed.
End Other.

(** Data on another stream leaves a stream and its call alone. *)
Lemma view_OnData id p id' data es c c' :
  Inv c -> calls (app c) !! id = Some p -> id' <> id ->
  ServerHandler_OnData recorder id' data es c = Some (tt, c') -> call_view id p c' = call_view id p c.
Proof.
  intros Hc Hp Hid. unfold ServerHandler_OnData, gets. unfold mbind at 1, M_bind at 1.
  destruct (calls (app c) !! id') as [q|] eqn:Hq; [|by intros [= <-]].
  assert (q <> p) as Hne.
  { intros ->. destruct (so_calls _ (inv_app c Hc) _ _ Hp) as (s1 & E1 & <-).
    destruct (so_calls _ (inv_app c Hc) _ _ Hq) as (s2 & E2 & <-). congruence. }
  revert c c' Hc Hp Hq. assert (forall m : go unit, keeps (call_view id p) m ->
    forall c c', Inv c -> calls (app c) !! id = Some p -> calls (app c) !! id' = Some q ->
    m c = Some (tt, c') -> call_view id p c' = call_view id p c) as Hk; [eauto|apply Hk].
  pose proof (view_load id p q). pose proof (fun sc => view_store id p q Hne sc).
  pose proof (fun mp d => view_parse id p q Hne mp d). pose proof (fun st => view_ReplyError id p q Hne st).
  pose proof (view_forget id p id' Hid). pose proof (view_end id p q Hne id' Hid).
  unfold Replied. keeps.
Qed.

Lemma load_call_eq p sc (c : Conn) : objs (app c) !! p = Some sc -> load_call p c = Some (sc, c).
Proof. intros E. unfold load_call, get. cbv [mbind M_bind]. by rewrite E. Qed.

Lemma store_call_eq p sc sc' (c : Conn) :
  objs (app c) !! p = Some sc ->
  store_call p sc' c = Some (tt, set_app (set_objs (<[p:=sc']> (objs (app c))) (app c)) c).
Proof. intros E. unfold store_call. by rewrite (bind_eq _ _ _ _ _ (load_call_eq p sc c E)). Qed.

(** Data on a stream is parsed into its call, message by message. *)
Lemma own_OnData id p sc data base l q n l1 c :
  Inv c -> bytes_ok data -> calls (app c) !! id = Some p -> objs (app c) !! p = Some sc ->
  received p (user (app c)) = base ++ l ->
  GrpcMessage.Parse collect (sc_parser sc) data l = Some ((q, (n, None)), l1) ->
  wp (ServerHandler_OnData recorder id data false)
     (fun _ c' => Inv c' /\ calls (app c') !! id = Some p /\
        objs (app c') !! p = Some (set_sc_parser q sc) /\
        received p (user (app c')) = base ++ l1) c.
Proof.
  intros Hc Hd Hid Hp Hlog Hparse.
  eapply wp_mono; [apply (wp_post _ _ (fun _ c' => calls (app c') !! id = Some p /\
        objs (app c') !! p = Some (set_sc_parser q sc) /\
        received p (user (app c')) = base ++ l1) _ (calm_OnData recorder id data false Hd c Hc))|].
  - destruct (GrpcMessage.Parse_sim
      (fun c1 l2 => calls (app c1) = calls (app c) /\ objs (app c1) = objs (app c) /\
                    received p (user (app c1)) = base ++ l2)
      (on_message recorder p) collect (sc_parser sc) data c l (q, (n, None)) l1) as (c1 & E1 & Hcalls & Hobjs & Hr);
      [|done|exact Hparse|].
    { intros m a b e b' (Ha1 & Ha2 & Ha3) [= <- <-]. eexists. split; [done|]. cbn.
      rewrite received_app, Ha3, <- app_assoc. cbn. by rewrite Pos.eqb_refl. }
    intros [] c' E. unfold ServerHandler_OnData, gets in E. unfold mbind at 1, M_bind at 1 in E.
    rewrite Hid, (bind_eq _ _ _ _ _ (load_call_eq p sc c Hp)), (bind_eq _ _ _ _ _ E1) in E.
    assert (objs (app c1) !! p = Some sc) as Hp1 by by rewrite Hobjs.
    rewrite (bind_eq _ _ _ _ _ (load_call_eq p sc c1 Hp1)) in E.
    rewrite (bind_eq _ _ _ _ _ (store_call_eq p sc (set_sc_parser q sc) c1 Hp1)) in E.
    set (c2 := set_app _ _) in E.
    assert (load_call p c2 = Some (set_sc_parser q sc, c2)) as E2 by apply load_call_eq, lookup_insert_eq.
    unfold Replied, mbind, M_bind in E. rewrite E2 in E. injection E as <-. cbn.
    by rewrite Hcalls, lookup_insert_eq.
  - cbn. tauto.
Qed.

Lemma wp_OnData_all id p evs base : forall sc l mp l1 c,
  Inv c -> Forall (fun e => bytes_ok (pc_data e)) evs ->
  Forall (fun e => pc_id e = id -> pc_end e = false) evs ->
  calls (app c) !! id = Some p -> objs (app c) !! p = Some sc ->
  received p (user (app c)) = base ++ l ->
  GrpcMessage.Parse_all collect (sc_parser sc) (pieces_of id evs) l = Some ((mp, None), l1) ->
  wp (OnData_all evs)
     (fun _ c' => Inv c' /\ calls (app c') !! id = Some p /\
        objs (app c') !! p = Some (set_sc_parser mp sc) /\
        received p (user (app c')) = base ++ l1) c.
Proof.
  induction evs as [|e evs IH]; intros sc l mp l1 c Hc Hb He Hid Hp Hl Hparse.
  { cbn in Hparse. injection Hparse as <- <-. apply wp_ret. by destruct sc. }
  apply Forall_cons in Hb as [Hbe Hb]. apply Forall_cons in He as [Hee He].
  cbn [OnData_all pieces_of] in *. apply wp_bind. destruct (Z.eqb_spec (pc_id e) id) as [E|E].
  - cbn [GrpcMessage.Parse_all] in Hparse. unfold mbind, M_bind in Hparse.
    destruct (GrpcMessage.Parse collect _ _ l) as [[[q [n [err|]]] l2]|] eqn:Hpe; try done.
    rewrite Hee, E by done. eapply wp_mono; [by apply (own_OnData id p sc _ base l q n l2)|].
    cbn. intros _ c1 (H1 & H1id & H1p & H1l).
    eapply wp_mono; [by eapply (IH (set_sc_parser q sc) l2)|]. cbn. tauto.
  - eapply wp_mono; [apply (wp_post _ _ (fun _ c' => call_view id p c' = call_view id p c) _
      (calm_OnData recorder (pc_id e) (pc_data e) (pc_end e) Hbe c Hc))|].
    { intros [] c1. by apply view_OnData. }
    cbn. intros _ c1 [(H1 & _) [= V1 V2 V3]].
    eapply wp_mono; [eapply (IH sc l); try done; congruence|]. done.
Qed.

(** ** Properties *)

Context {U : Type} `{!AppInv U} (h : Handler U).

(** C18: a gRPC server is safe for its connection.  With any business handler
    that keeps its contract, a server fed any bytes in any pieces does not
    panic, keeps the invariant of the connection, and its table maps every
    stream id to a live call of that very stream: calls of different streams
    are never mixed up. *)
Theorem grpc_server_safe (u : U) chunks :
  UserOk h -> app_ok u -> Forall bytes_ok chunks ->
  wp (feed_all (Some (server h)) chunks)
     (fun _ c => Inv c /\ app_ok (user (app c)) /\
        forall id p, calls (app c) !! id = Some p ->
          exists sc, objs (app c) !! p = Some sc /\ sc_StreamID sc = id)
     (NewConn false (NewServerHandler u)).
Proof.
  intros Hh Hu Hb. eapply wp_mono; [apply (wp_feed_all (Some (server h))); [done|]|].
  - split; [|by intros _; constructor]. apply NewConn_Inv. by split.
  - intros rs c ([Hc _] & _). destruct (inv_app c Hc). done.
Qed.

(** C34: calls that share a connection do not mix.  Take a stream with a fresh
    call whose DATA pieces, wherever they are cut and however they are
    interleaved with the pieces of other streams, carry the messages [msgs]
    and the beginning of another one.  Then the business handler receives for
    this call exactly [msgs], in order, and the call keeps the incomplete rest,
    whatever bytes the other streams carry. *)
Theorem grpc_streams_do_not_mix id p sc evs msgs rest c :
  Inv c -> calls (app c) !! id = Some p -> objs (app c) !! p = Some sc ->
  sc_parser sc = NewMessageParser 0 ->
  Forall (fun e => bytes_ok (pc_data e)) evs ->
  Forall (fun e => pc_id e = id -> pc_end e = false) evs ->
  Forall (message_ok GrpcMessage.defaultMaxMessageSize) msgs ->
  GrpcMessage.cut_message GrpcMessage.defaultMaxMessageSize rest = CutMore ->
  concat (pieces_of id evs) = GrpcMessage.EncodeAll [] msgs ++ rest ->
  wp (OnData_all evs)
     (fun _ c' => calls (app c') !! id = Some p /\
        (exists sc', objs (app c') !! p = Some sc' /\ mp_buf (sc_parser sc') = rest) /\
        received p (user (app c')) = received p (user (app c)) ++ msgs) c.
Proof.
  intros Hc Hid Hp Hfresh Hb He Hm Hrest Hcat.
  rewrite GrpcMessage.EncodeAll_eq, app_nil_l in Hcat.
  assert (Forall bytes_ok (pieces_of id evs)) as Hpb.
  { clear -Hb. induction Hb as [|e evs Hbe Hb IH]; cbn; [constructor|]. destruct (_ =? _); auto. }
  pose proof (GrpcMessage.Parse_all_encoded 0 msgs rest (pieces_of id evs) Hm Hpb Hrest Hcat) as Hparse.
  eapply wp_mono; [apply (wp_OnData_all id p evs (received p (user (app c))) sc []); try done|].
  - by rewrite app_nil_r.
  - rewrite Hfresh. exact Hparse.
  - cbn. intros _ c' (_ & ? & Hp' & ?). split; [done|]. split; [|done]. eexists. split; [exact Hp'|done].
Qed.
End Server.

(** ** The client's view *)

Section Client.
Context {S : Type} (fn : bytes -> M S (option error)).

Fixpoint Call_OnData_all (chunks : list bytes) (c : Call) : M S (Call * option error) :=
  match chunks with
  | [] => mret (c, None)
  | d :: rest =>
      r ← Call_OnData fn d c;
      match snd r with Some e => mret r | None => Call_OnData_all rest (fst r) end
  end.

Lemma Call_OnData_all_eq chunks : forall c s p s',
  GrpcMessage.Parse_all fn (call_parser c) chunks s = Some ((p, None), s') ->
  Call_OnData_all chunks c s =
    Some ((mkCall (call_StreamID c) p (call_status c) (call_gotStatus c) (call_headers c), None), s').
Proof.
  induction chunks as [|d chunks IH]; intros c s p s' Hp.
  { cbn in *. injection Hp as <- <-. by destruct c. }
  cbn [Call_OnData_all GrpcMessage.Parse_all] in *. unfold Call_OnData, mbind, M_bind in *.
  destruct (GrpcMessage.Parse fn _ d s) as [[[q [n [e|]]] s1]|]; try done.
  cbn. by rewrite (IH (mkCall (call_StreamID c) q (call_status c) (call_gotStatus c) (call_headers c)) _ _ _ Hp).
Qed.
End Client.

Lemma existsb_no_status extra :
  Forall (fun f => Name f <> headerStatus) extra ->
  existsb (fun f => streq (Name f) headerStatus) (ResponseHeaders extra) = false.
Proof.
  intros Hex. unfold ResponseHeaders. rewrite existsb_app. apply orb_false_iff. split; [done|].
  induction Hex as [|f l Hf _ IH]; [done|]. cbn. apply orb_false_iff. split; [|done].
  by apply bool_decide_eq_false_2.
Qed.

(** The trailers are recognised. *)
Lemma Call_OnHeaders_trailers st c :
  Call_OnHeaders (AppendStatus [] (Some st)) c =
  mkCall (call_StreamID c) (call_parser c) (Some (StatusFromHeaders (AppendStatus [] (Some st)))) true
    (call_headers c).
Proof.
  unfold Call_OnHeaders, AppendStatus. destruct (negb _); done.
Qed.

(** C39: a client understands a reply.  From the response headers, the messages
    in DATA pieces cut anywhere, and the trailers that the server's [Finish]
    sends, a call reports exactly the messages, in order, no error, the
    headers, and the status the server gave; before the trailers it is not
    done. *)
Theorem client_reads_reply id extra msgs chunks st :
  Forall (fun f => Name f <> headerStatus) extra ->
  Forall (message_ok GrpcMessage.defaultMaxMessageSize) msgs -> Forall bytes_ok chunks ->
  concat chunks = GrpcMessage.EncodeAll [] msgs -> 0 <= st_Code st < 2 ^ 32 ->
  let start := Call_OnHeaders (ResponseHeaders extra) (NewCall id) in
  exists c, Call_OnData_all collect chunks start [] = Some ((c, None), msgs) /\
    Done c = false /\
    let c' := Call_OnHeaders (AppendStatus [] (Some st)) c in
    Done c' = true /\ Call_Status c' = Some st /\ call_headers c' = ResponseHeaders extra /\
    mp_buf (call_parser c') = [].
Proof.
  intros Hex Hm Hb Hcat Hst start.
  assert (start = mkCall id (NewMessageParser 0) None false (ResponseHeaders extra)) as Hs.
  { unfold start, Call_OnHeaders. by rewrite existsb_no_status. }
  rewrite GrpcMessage.EncodeAll_eq, app_nil_l in Hcat.
  assert (concat chunks = concat (GrpcMessage.Encode [] <$> msgs) ++ []) as Hcat' by by rewrite app_nil_r.
  pose proof (GrpcMessage.Parse_all_encoded 0 msgs [] chunks Hm Hb eq_refl Hcat') as Hparse.
  eexists. split; [|split; [|split; [|split; [|split]]]].
  - rewrite Hs. eapply (Call_OnData_all_eq collect chunks). exact Hparse.
  - done.
  - by rewrite Call_OnHeaders_trailers.
  - rewrite Call_OnHeaders_trailers. cbn [Call_Status call_gotStatus call_status negb].
    by rewrite status_of_appended.
  - by rewrite Call_OnHeaders_trailers.
  - by rewrite Call_OnHeaders_trailers.
Qed.

(** ** Witnesses *)

(** A business handler that answers every message with itself. *)
Definition unary_echo : Handler unit := {|
  OnCall _ := mret None;
  OnMessage p m := _ ← Reply p (Some m) None; mret None;
  OnEnd _ := mret None;
|}.

#[export] Instance unit_inv : AppInv unit := fun _ => True.

#[export] Instance unary_echo_ok : UserOk unary_echo.
Proof.
  split.
  - intros p c Hc _. by apply calm_ret.
  - intros p m c Hc _ Hp. apply calm_at_bind; [by apply calm_Reply|intros; by apply calm_ret].
  - intros p c Hc _. by apply calm_ret.
  - intros p. apply keeps_ret.
  - intros p m. cbn. unfold Reply, StartReply, Finish. pose proof (@keeps_load_call).
    pose proof (@keeps_store_call). keeps.
  - intros p. apply keeps_ret.
Qed.

Definition grpc_request : list HeaderField :=
  [mkField ":method" "POST"; mkField ":scheme" "http"; mkField ":path" "/svc/Get";
   mkField ":authority" "h"; mkField "content-type" "application/grpc+proto"].

Definition grpc_headers (id : Z) : bytes :=
  encode_frame (mkFrame FrameHeaders FlagHeadersEndHeaders id (concat (plain_field <$> grpc_request))).

Definition grpc_chunks : list bytes :=
  [clientPreface; grpc_headers 1; encode_frame (mkFrame FrameData 0 1 [0; 0; 0; 0; 1; 42]); [1; 2; 3]].

Lemma grpc_server_safe_witness :
  wp (feed_all (Some (server unary_echo)) grpc_chunks)
     (fun _ c => Inv c /\ app_ok (user (app c)) /\
        forall id p, calls (app c) !! id = Some p ->
          exists sc, objs (app c) !! p = Some sc /\ sc_StreamID sc = id)
     (NewConn false (NewServerHandler tt)).
Proof.
  apply (grpc_server_safe unary_echo tt grpc_chunks); [apply unary_echo_ok|done|].
  repeat (apply Forall_cons_2; [bytes|]). constructor.
Defined.

Definition two_calls : Conn (ServerHandler (list (positive * bytes))) :=
  match feed_all (Some (server recorder)) [clientPreface; grpc_headers 1; grpc_headers 3]
          (NewConn false (NewServerHandler [])) with
  | Some (_, c) => c
  | None => NewConn false (NewServerHandler [])
  end.

Lemma two_calls_Inv : Inv two_calls.
Proof.
  assert (wp (feed_all (Some (server recorder)) [clientPreface; grpc_headers 1; grpc_headers 3])
    (fun _ c => Inv c) (NewConn false (NewServerHandler []))) as Hw.
  { eapply wp_mono; [apply (wp_feed_all (Some (server recorder)))|by intros rs c ([? _] & _)].
    - repeat (apply Forall_cons_2; [bytes|]). constructor.
    - split; [|by intros _; constructor]. apply NewConn_Inv. by split. }
  apply wp_elim in Hw as (rs & c & E & Hc). unfold two_calls. by rewrite E.
Qed.

(** Stream 1 carries a message in two pieces; stream 3 carries garbage. *)
Definition mixed : list piece :=
  [mkPiece 1 [0; 0; 0] false; mkPiece 3 [9; 9; 9; 9; 9] true; mkPiece 1 [0; 1; 42; 0] false].

Lemma grpc_streams_do_not_mix_witness :
  wp (OnData_all mixed)
     (fun _ c' => calls (app c') !! 1 = Some 1%positive /\
        (exists sc', objs (app c') !! 1%positive = Some sc' /\ mp_buf (sc_parser sc') = [0]) /\
        received 1 (user (app c')) = received 1 (user (app two_calls)) ++ [[42]]) two_calls.
Proof.
  apply (grpc_streams_do_not_mix 1 1
    (mkServerCall 1 "svc" "Get" grpc_request (NewMessageParser 0) false) mixed [[42]] [0]).
  - apply two_calls_Inv.
  - by vm_compute.
  - by vm_compute.
  - done.
  - repeat (apply Forall_cons_2; [bytes|]). constructor.
  - repeat (apply Forall_cons_2; [cbn; (done || lia)|]). constructor.
  - repeat (apply Forall_cons_2; [split; [bytes|by vm_compute]|]). constructor.
  - by vm_compute.
  - by vm_compute.
Defined.

Lemma client_reads_reply_witness :
  let start := Call_OnHeaders (ResponseHeaders [mkField "server" "g"]) (NewCall 1) in
  exists c, Call_OnData_all collect [[0; 0; 0]; [0; 1; 42]] start [] = Some ((c, None), [[42]]) /\
    Done c = false /\
    let c' := Call_OnHeaders (AppendStatus [] (Some (StatusNotFound "no"))) c in
    Done c' = true /\ Call_Status c' = Some (StatusNotFound "no") /\
    call_headers c' = ResponseHeaders [mkField "server" "g"] /\ mp_buf (call_parser c') = [].
Proof.
  apply (client_reads_reply 1 [mkField "server" "g"] [[42]] [[0; 0; 0]; [0; 1; 42]] (StatusNotFound "no")).
  - repeat (apply Forall_cons_2; [done|]). constructor.
  - repeat (apply Forall_cons_2; [split; [bytes|by vm_compute]|]). constructor.
  - repeat (apply Forall_cons_2; [bytes|]). constructor.
  - by vm_compute.
  - cbn. unfold NotFound. lia.
Defined.
