(* ===== verification/EngConn.v ===== *)
(** * EngConn

    The connection of [engine]: [engine/conn.go], with the event loop of
    [engine/eventloop.go] and the registration of [engine/multi_event_loops.go].

    The protocol is a [Handler]; its own state is the field [hstate].  The world
    outside the source is [EngLib]: the kernel, the poller, the buffer pool.
    [conns] and [curConn] are the parent's connection table, as far as it is
    about this connection, and its counter.  The last five fields are a trace
    that the code does not have: the calls of the handler, the bytes read from the socket, the bytes the
    handler has taken, the bytes that [Write] accepted, the bytes the socket
    took.  All of the code runs on the goroutine of the event loop. *)

From S2P Require Import Prelude Sock.

(** ** The world outside the source *)

Class EngLib : Type := {
  World : Type;
  (** What a protocol hangs on the connection ([any]), the write hooks it may
      install, its errors. *)
  UserData : Type;
  HookId : Type;
  ProtoError : Type;
  (** [bytespool.GetBytes n]: the length, and capacity, of the slice. *)
  GetBytes : Z -> Z;
  sys_read : Z -> Z -> World -> (bytes + errno) * World;
  sys_write : Z -> bytes -> World -> (Z + errno) * World;
  sys_close : Z -> World -> World;
  (** The poller, by descriptor. *)
  poll_AddRead : Z -> World -> option errno * World;
  poll_DelRead : Z -> World -> option errno * World;
  poll_ResetRead : Z -> World -> option errno * World;
}.

(** Its documented behaviour; [incoming] is what the peer will still deliver,
    [reads_left] bounds the reads before the socket is empty. *)
Class EngLaws `{EngLib} : Type := {
  incoming : World -> bytes;
  reads_left : World -> nat;
  GetBytes_enough n : 0 <= n -> n <= GetBytes n;
  sys_read_spec fd n w : 0 < n ->
    match sys_read fd n w with
    | (inl data, w') => incoming w = data ++ incoming w' /\ zlen data <= n /\ bytes_ok data /\
                        (reads_left w' < reads_left w)%nat
    | (inr EINTR, w') => incoming w' = incoming w /\ (reads_left w' < reads_left w)%nat
    | (inr _, w') => incoming w' = incoming w /\ (reads_left w' <= reads_left w)%nat
    end;
  sys_write_spec fd p w n w' : sys_write fd p w = (inl n, w') -> 0 <= n <= zlen p;
  world_view (w : World) : bytes * nat := (incoming w, reads_left w);
  sys_write_view fd p w : world_view (snd (sys_write fd p w)) = world_view w;
  sys_close_view fd w : world_view (sys_close fd w) = world_view w;
  poll_AddRead_view fd w : world_view (snd (poll_AddRead fd w)) = world_view w;
  poll_DelRead_view fd w : world_view (snd (poll_DelRead fd w)) = world_view w;
  poll_ResetRead_view fd w : world_view (snd (poll_ResetRead fd w)) = world_view w;
}.

(** ** The connection *)

Section State.
Context `{EngLib}.

Inductive eerror : Type :=
  | ErrClosed
  | EOF
  | Errno (e : errno)
  | Proto (e : ProtoError).

(** The calls of the protocol, for the trace. *)
Inductive hcall : Type :=
  | HOpen
  | HData (buf : bytes)
  | HClose (err : option eerror).

Record Conn {App : Type} : Type := mkConn {
  fd : Z;
  rbuf : option bytes;
  rr : Z;
  rw : Z;
  wbufList : list (option wbuf);
  userData : option UserData;
  packed : Z;
  closeOnce : bool;
  closed : bool;
  writeHookFn : option HookId;
  releaseReadBuf : bool;
  conns : gset Z;
  curConn : Z;
  world : World;
  hstate : App;
  calls : list hcall;
  received : bytes;
  consumed : bytes;
  written : bytes;
  sent : bytes;
}.
Arguments Conn : clear implicits.

Section Fields.
Context {App : Type}.

Definition set_fd (v : Z) (c : Conn App) : Conn App :=
  mkConn App v (rbuf c) (rr c) (rw c) (wbufList c) (userData c) (packed c) (closeOnce c) (closed c)
    (writeHookFn c) (releaseReadBuf c) (conns c) (curConn c) (world c) (hstate c) (calls c)
    (received c) (consumed c) (written c) (sent c).
Definition set_rbuf (v : option bytes) (c : Conn App) : Conn App :=
  mkConn App (fd c) v (rr c) (rw c) (wbufList c) (userData c) (packed c) (closeOnce c) (closed c)
    (writeHookFn c) (releaseReadBuf c) (conns c) (curConn c) (world c) (hstate c) (calls c)
    (received c) (consumed c) (written c) (sent c).
Definition set_rr (v : Z) (c : Conn App) : Conn App :=
  mkConn App (fd c) (rbuf c) v (rw c) (wbufList c) (userData c) (packed c) (closeOnce c) (closed c)
    (writeHookFn c) (releaseReadBuf c) (conns c) (curConn c) (world c) (hstate c) (calls c)
    (received c) (consumed c) (written c) (sent c).
Definition set_rw (v : Z) (c : Conn App) : Conn App :=
  mkConn App (fd c) (rbuf c) (rr c) v (wbufList c) (userData c) (packed c) (closeOnce c) (closed c)
    (writeHookFn c) (releaseReadBuf c) (conns c) (curConn c) (world c) (hstate c) (calls c)
    (received c) (consumed c) (written c) (sent c).
Definition set_wbufList (v : list (option wbuf)) (c : Conn App) : Conn App :=
  mkConn App (fd c) (rbuf c) (rr c) (rw c) v (userData c) (packed c) (closeOnce c) (closed c)
    (writeHookFn c) (releaseReadBuf c) (conns c) (curConn c) (world c) (hstate c) (calls c)
    (received c) (consumed c) (written c) (sent c).
Definition set_userData (v : option UserData) (c : Conn App) : Conn App :=
  mkConn App (fd c) (rbuf c) (rr c) (rw c) (wbufList c) v (packed c) (closeOnce c) (closed c)
    (writeHookFn c) (releaseReadBuf c) (conns c) (curConn c) (world c) (hstate c) (calls c)
    (received c) (consumed c) (written c) (sent c).
Definition set_packed (v : Z) (c : Conn App) : Conn App :=
  mkConn App (fd c) (rbuf c) (rr c) (rw c) (wbufList c) (userData c) v (closeOnce c) (closed c)
    (writeHookFn c) (releaseReadBuf c) (conns c) (curConn c) (world c) (hstate c) (calls c)
    (received c) (consumed c) (written c) (sent c).
Definition set_closeOnce (v : bool) (c : Conn App) : Conn App :=
  mkConn App (fd c) (rbuf c) (rr c) (rw c) (wbufList c) (userData c) (packed c) v (closed c)
    (writeHookFn c) (releaseReadBuf c) (conns c) (curConn c) (world c) (hstate c) (calls c)
    (received c) (consumed c) (written c) (sent c).
Definition set_closed (v : bool) (c : Conn App) : Conn App :=
  mkConn App (fd c) (rbuf c) (rr c) (rw c) (wbufList c) (userData c) (packed c) (closeOnce c) v
    (writeHookFn c) (releaseReadBuf c) (conns c) (curConn c) (world c) (hstate c) (calls c)
    (received c) (consumed c) (written c) (sent c).
Definition set_writeHookFn (v : option HookId) (c : Conn App) : Conn App :=
  mkConn App (fd c) (rbuf c) (rr c) (rw c) (wbufList c) (userData c) (packed c) (closeOnce c)
    (closed c) v (releaseReadBuf c) (conns c) (curConn c) (world c) (hstate c) (calls c)
    (received c) (consumed c) (written c) (sent c).
Definition set_releaseReadBuf (v : bool) (c : Conn App) : Conn App :=
  mkConn App (fd c) (rbuf c) (rr c) (rw c) (wbufList c) (userData c) (packed c) (closeOnce c)
    (closed c) (writeHookFn c) v (conns c) (curConn c) (world c) (hstate c) (calls c) (received c)
    (consumed c) (written c) (sent c).
Definition set_conns (v : gset Z) (c : Conn App) : Conn App :=
  mkConn App (fd c) (rbuf c) (rr c) (rw c) (wbufList c) (userData c) (packed c) (closeOnce c)
    (closed c) (writeHookFn c) (releaseReadBuf c) v (curConn c) (world c) (hstate c) (calls c)
    (received c) (consumed c) (written c) (sent c).
Definition set_curConn (v : Z) (c : Conn App) : Conn App :=
  mkConn App (fd c) (rbuf c) (rr c) (rw c) (wbufList c) (userData c) (packed c) (closeOnce c)
    (closed c) (writeHookFn c) (releaseReadBuf c) (conns c) v (world c) (hstate c) (calls c)
    (received c) (consumed c) (written c) (sent c).
Definition set_world (v : World) (c : Conn App) : Conn App :=
  mkConn App (fd c) (rbuf c) (rr c) (rw c) (wbufList c) (userData c) (packed c) (closeOnce c)
    (closed c) (writeHookFn c) (releaseReadBuf c) (conns c) (curConn c) v (hstate c) (calls c)
    (received c) (consumed c) (written c) (sent c).
Definition set_hstate (v : App) (c : Conn App) : Conn App :=
  mkConn App (fd c) (rbuf c) (rr c) (rw c) (wbufList c) (userData c) (packed c) (closeOnce c)
    (closed c) (writeHookFn c) (releaseReadBuf c) (conns c) (curConn c) (world c) v (calls c)
    (received c) (consumed c) (written c) (sent c).
Definition set_calls (v : list hcall) (c : Conn App) : Conn App :=
  mkConn App (fd c) (rbuf c) (rr c) (rw c) (wbufList c) (userData c) (packed c) (closeOnce c)
    (closed c) (writeHookFn c) (releaseReadBuf c) (conns c) (curConn c) (world c) (hstate c) v
    (received c) (consumed c) (written c) (sent c).
Definition set_received (v : bytes) (c : Conn App) : Conn App :=
  mkConn App (fd c) (rbuf c) (rr c) (rw c) (wbufList c) (userData c) (packed c) (closeOnce c)
    (closed c) (writeHookFn c) (releaseReadBuf c) (conns c) (curConn c) (world c) (hstate c)
    (calls c) v (consumed c) (written c) (sent c).
Definition set_consumed (v : bytes) (c : Conn App) : Conn App :=
  mkConn App (fd c) (rbuf c) (rr c) (rw c) (wbufList c) (userData c) (packed c) (closeOnce c)
    (closed c) (writeHookFn c) (releaseReadBuf c) (conns c) (curConn c) (world c) (hstate c)
    (calls c) (received c) v (written c) (sent c).
Definition set_written (v : bytes) (c : Conn App) : Conn App :=
  mkConn App (fd c) (rbuf c) (rr c) (rw c) (wbufList c) (userData c) (packed c) (closeOnce c)
    (closed c) (writeHookFn c) (releaseReadBuf c) (conns c) (curConn c) (world c) (hstate c)
    (calls c) (received c) (consumed c) v (sent c).
Definition set_sent (v : bytes) (c : Conn App) : Conn App :=
  mkConn App (fd c) (rbuf c) (rr c) (rw c) (wbufList c) (userData c) (packed c) (closeOnce c)
    (closed c) (writeHookFn c) (releaseReadBuf c) (conns c) (curConn c) (world c) (hstate c)
    (calls c) (received c) (consumed c) (written c) v.
End Fields.

(** [Handler]: what a protocol implements. *)
Record Handler {App : Type} : Type := mkHandler {
  OnOpen : M (Conn App) unit;
  OnData : bytes -> M (Conn App) (Z * option eerror);
  OnClose : option eerror -> M (Conn App) unit;
}.
End State.
Arguments Conn {_} App.
Arguments Handler {_} App.

Definition maxCorkBytes : Z := 32 * 1024.
Definition batchReadBufferSize : Z := 16 * 1024.
Definition maxReadBufferSize : Z := 4 * 1024 * 1024.

Definition flagClient : Z := 1 << 0.
Definition flagBusy : Z := 1 << 1.
Definition flagPendingRead : Z := 1 << 2.
Definition flagPendingWrite : Z := 1 << 3.
Definition flagCorking : Z := 1 << 4.
Definition flagActivated : Z := 1 << 5.

Section Methods.
Context `{EngLib} {App : Type}.
Notation Conn := (Conn App).
Notation go A := (M Conn A).

(** ** Flags and small state *)

Definition Fd : go Z := gets fd.
Definition IsClosed : go bool := gets closed.
Definition SetUserData (v : option UserData) : go unit := modify (set_userData v).
Definition GetUserData : go (option UserData) := gets userData.
Definition SetWriteHook (h : option HookId) : go unit := modify (set_writeHookFn h).
Definition writeHook : go (option HookId) := gets writeHookFn.

Definition put (f : Z) (v : bool) : go unit := modify (fun c => set_packed (put_flag f v (packed c)) c).
(** [atomic.OrUint32] and [atomic.AndUint32] return the old word. *)
Definition fetch (f : Z) (v : bool) : go bool :=
  old ← gets (fun c => has_flag f (packed c)); put f v ;; mret old.

Definition setClient (v : bool) : go unit := put flagClient v.
Definition isClient : go bool := gets (fun c => has_flag flagClient (packed c)).
Definition tryBusy : go bool := old ← fetch flagBusy true; mret (negb old).
Definition unbusy : go unit := put flagBusy false.
Definition setPendingRead : go unit := put flagPendingRead true.
Definition setPendingWrite : go unit := put flagPendingWrite true.
Definition takePendingRead : go bool := fetch flagPendingRead false.
Definition takePendingWrite : go bool := fetch flagPendingWrite false.
Definition isActivated : go bool := gets (fun c => has_flag flagActivated (packed c)).
Definition setActivated : go (bool * bool) :=
  old ← gets packed;
  put flagActivated true ;;
  mret (has_flag flagPendingRead old, has_flag flagPendingWrite old).
Definition isCorking : go bool := gets (fun c => has_flag flagCorking (packed c)).
Definition setCorking (v : bool) : go unit := put flagCorking v.

(** ** Calls into the world *)

Definition outside {A} (f : World -> A * World) : go A :=
  fun c => let '(a, w) := f (world c) in Some (a, set_world w c).

(** No system call for an empty slice. *)
Definition socketRead (n : Z) : go (bytes + errno) :=
  if n =? 0 then mret (inl [])
  else
    fd ← gets fd;
    r ← outside (sys_read fd n);
    match r with
    | inr e => mret (inr e)
    | inl data => modify (fun c => set_received (received c ++ data) c) ;; mret (inl data)
    end.

Definition send (p : bytes) : go (Z * option errno) :=
  fd ← gets fd;
  r ← outside (sys_write fd p);
  match r with
  | inr e => mret (0, Some e)
  | inl n => modify (fun c => set_sent (sent c ++ upto n p) c) ;; mret (n, None)
  end.

Definition socketWrite (p : bytes) : go (Z * option errno) :=
  if zlen p =? 0 then mret (0, None) else send p.
Definition socketWritev (header payload : bytes) : go (Z * option errno) := send (header ++ payload).

Definition addWrite : go unit := fd ← gets fd; outside (poll_ResetRead fd) ;; mret tt.
Definition AddRead : go (option errno) := fd ← gets fd; outside (poll_AddRead fd).
Definition DelRead : go (option errno) := fd ← gets fd; outside (poll_DelRead fd).

(** ** Reading *)

Definition deref_rbuf : go bytes := o ← gets rbuf; of_option o.

(** A slice from the pool: its content is what earlier users left; nothing
    reads it, so zeros stand for it. *)
Definition pool_slice (n : Z) : bytes := replicate (Z.to_nat (GetBytes n)) 0.

Definition ReadBuffer : go bytes :=
  c ← get;
  match rbuf c with
  | None => mret []
  | Some buf => reslice buf (rr c) (rw c)
  end.

Definition ConsumeRead (n : Z) : go unit :=
  if n <=? 0 then mret tt
  else
    c ← get;
    let r := if rr c + n >? rw c then rw c else rr c + n in
    modify (set_consumed (consumed c ++ from_option (slice (rr c) r) [] (rbuf c))) ;;
    modify (set_rr r) ;;
    if negb (r =? rw c) then mret tt else modify (set_releaseReadBuf true).

Definition growReadBuffer : go bool :=
  o ← gets rbuf;
  match o with
  | None => mret false
  | Some old =>
      let cur := zlen old in
      if cur >=? maxReadBufferSize then mret false
      else
        let want :=
          if cur <? batchReadBufferSize then batchReadBufferSize
          else if cur * 2 >? maxReadBufferSize then maxReadBufferSize else cur * 2 in
        w ← gets rw;
        src ← reslice old 0 w;
        modify (set_rbuf (Some (copy_front (pool_slice want) src))) ;;
        mret true
  end.

(** The bytes a read put behind the write index. *)
Definition store_read (data : bytes) : go unit :=
  buf ← deref_rbuf;
  w ← gets rw;
  modify (set_rbuf (Some (upto w buf ++ data ++ from (w + zlen data) buf))) ;;
  modify (set_rw (w + zlen data)).

Fixpoint Read_loop (fuel : nat) (total : Z) : go (Z * option eerror) :=
  match fuel with
  | O => panic
  | S fuel =>
      buf ← deref_rbuf;
      w ← gets rw;
      room ← reslice buf w (zlen buf);
      if zlen room =? 0 then
        ok ← growReadBuffer;
        if negb ok then mret (total, None) else Read_loop fuel total
      else
        r ← socketRead (zlen room);
        match r with
        | inr EINTR => Read_loop fuel total
        | inr EAGAIN => mret (total, None)
        | inr e => mret (total, Some (Errno e))
        | inl [] =>
            c ← get;
            if rw c >? rr c then mret (total, None) else mret (total, Some EOF)
        | inl data =>
            store_read data ;;
            buf ← deref_rbuf;
            w ← gets rw;
            (if (w =? zlen buf) && (zlen buf <? batchReadBufferSize)
             then growReadBuffer ;; mret tt else mret tt) ;;
            Read_loop fuel (total + zlen data)
        end
  end.

(** The buffer of the last round, when all of it was taken. *)
Definition release_consumed : go unit :=
  modify (fun c =>
    if releaseReadBuf c && match rbuf c with Some _ => true | None => false end
    then set_rw 0 (set_rr 0 (set_rbuf None c)) else c) ;;
  modify (set_releaseReadBuf false).

Definition Read (fuel : nat) : go (Z * option eerror) :=
  cl ← IsClosed;
  if (cl : bool) then mret (0, Some ErrClosed)
  else
    release_consumed ;;
    o ← gets rbuf;
    (match o with None => modify (set_rbuf (Some (pool_slice (8 * 1024)))) | Some _ => mret tt end) ;;
    Read_loop fuel 0.

(** ** Writing *)

Definition writeToSocket (p : bytes) : go (Z * option errno) := socketWrite p.

Definition new_wbuf (data : bytes) (oldLen : Z) : go unit :=
  modify (fun c =>
    set_wbufList (wbufList c ++ [Some (mkWbuf data (GetBytes (zlen data + oldLen)))]) c).

Definition appendToWbufList (data : bytes) (oldLen : Z) : go unit :=
  if zlen data =? 0 then mret tt
  else
    l ← gets wbufList;
    match last l with
    | None => new_wbuf data oldLen
    | Some None => panic
    | Some (Some b) =>
        if wb_cap b - zlen (wb_data b) >=? zlen data then
          modify (set_wbufList
            (take (length l - 1) l ++ [Some (mkWbuf (wb_data b ++ data) (wb_cap b))]))
        else new_wbuf data oldLen
    end.

(** The loop of [flushLocked] from slot [i] on. *)
Fixpoint flush_loop (fuel i : nat) : go (option eerror) :=
  match fuel with
  | O => panic
  | S fuel =>
      l ← gets wbufList;
      match l !! i with
      | None => modify (set_wbufList []) ;; mret None
      | Some None => panic
      | Some (Some b) =>
          r ← writeToSocket (wb_data b);
          let '(n, err) := r in
          if bool_decide (err = None) && (n =? zlen (wb_data b)) then
            modify (set_wbufList (<[i := None]> l)) ;;
            flush_loop fuel (S i)
          else if is_soft err then
            let b := if n >? 0 then mkWbuf (from n (wb_data b)) (wb_cap b) else b in
            modify (set_wbufList (drop i (<[i := Some b]> l))) ;;
            addWrite ;;
            mret None
          else mret (Some (Errno (default EAGAIN err)))
      end
  end.

Definition flushLocked : go (option eerror) :=
  l ← gets wbufList; flush_loop (S (length l)) 0.

Definition accept (data : bytes) : go unit := modify (fun c => set_written (written c ++ data) c).

(** The critical section of [Write] and of [WriteRaw]; [accept] notes what was
    taken in the trace. *)
Definition write_locked (data : bytes) : go (option eerror) :=
  l ← gets wbufList;
  if negb (zlen l =? 0) then
    appendToWbufList data (zlen data) ;;
    accept data ;;
    flushLocked ;;
    mret None
  else
    r ← writeToSocket data;
    let '(n, err) := r in
    if bool_decide (err = None) && (n =? zlen data) then accept data ;; mret None
    else if is_soft err then
      (if n <? zlen data then appendToWbufList (from n data) (zlen data - n) else mret tt) ;;
      accept data ;;
      addWrite ;;
      mret None
    else mret (Some (Errno (default EAGAIN err))).

Definition WriteRaw (data : bytes) : go (option eerror) :=
  cl ← IsClosed;
  if (cl : bool) then mret (Some ErrClosed)
  else if zlen data =? 0 then mret None
  else write_locked data.

Definition Writev (a b : bytes) : go (option eerror) :=
  cl ← IsClosed;
  if (cl : bool) then mret (Some ErrClosed)
  else
    l ← gets wbufList;
    if negb (zlen l =? 0) then
      appendToWbufList (a ++ b) (zlen (a ++ b)) ;;
      accept (a ++ b) ;;
      flushLocked ;;
      mret None
    else
      r ← socketWritev a b;
      let '(n, err) := r in
      let total := zlen a + zlen b in
      if bool_decide (err = None) && (n =? total) then accept (a ++ b) ;; mret None
      else if is_soft err then
        let n := if n <? 0 then 0 else n in
        let rest := if n <? zlen a then from n a ++ b else from (n - zlen a) b in
        appendToWbufList rest total ;;
        accept (a ++ b) ;;
        addWrite ;;
        mret None
      else mret (Some (Errno (default EAGAIN err))).

Definition Flush : go (option eerror) :=
  cl ← IsClosed; if (cl : bool) then mret (Some ErrClosed) else flushLocked.

Definition NeedFlush : go bool := gets (fun c => 0 <? zlen (wbufList c)).

(** The hooks a protocol may install; they write with [WriteRaw]. *)
Context (run_hook : HookId -> bytes -> go (option eerror)).

Definition Write (data : bytes) : go (option eerror) :=
  cl ← IsClosed;
  if (cl : bool) then mret (Some ErrClosed)
  else if zlen data =? 0 then mret None
  else
    h ← writeHook;
    match h with
    | Some h => run_hook h data
    | None => write_locked data
    end.

(** ** Closing *)

Definition delConn (fd : Z) : go unit :=
  if fd <? 0 then mret tt
  else
    modify (fun c =>
      if bool_decide (fd ∈ conns c)
      then set_curConn (curConn c - 1) (set_conns (conns c ∖ {[fd]}) c) else c).

(** [EventLoop.del]. *)
Definition del : go unit := fd ← Fd; delConn fd.

Definition closeFd (fd : Z) : go unit := outside (fun w => (tt, sys_close fd w)).

Context (handler : option (Handler App)).

Definition call (k : hcall) : go unit := modify (fun c => set_calls (calls c ++ [k]) c).

Definition closeWith (err : option eerror) : go unit :=
  cl ← IsClosed;
  if (cl : bool) then mret tt
  else
    once ← gets closeOnce;
    if (once : bool) then mret tt
    else
      modify (set_closeOnce true) ;;
      flushLocked ;;
      modify (set_closed true) ;;
      fd ← gets fd;
      modify (set_fd (-1)) ;;
      modify (set_rbuf None) ;;
      modify (set_wbufList []) ;;
      modify (set_rr 0) ;;
      modify (set_rw 0) ;;
      del ;;
      (if fd >=? 0 then closeFd fd else mret tt) ;;
      call (HClose err) ;;
      match handler with
      | Some h => OnClose h err
      | None => mret tt
      end.

Definition Close : go (option eerror) := closeWith None ;; mret None.

(** ** The event loop *)

Definition call_OnOpen : go unit :=
  call HOpen ;;
  match handler with Some h => OnOpen h | None => mret tt end.
(** The interface is not checked before this call. *)
Definition call_OnData (buf : bytes) : go (Z * option eerror) :=
  call (HData buf) ;;
  match handler with Some h => OnData h buf | None => panic end.

(** Feeding the protocol: [OnData] takes everything or the loop ends, so two
    rounds are enough. *)
Fixpoint dispatch_loop (fuel : nat) : go (option eerror) :=
  match fuel with
  | O => panic
  | S fuel =>
      buf ← ReadBuffer;
      if zlen buf =? 0 then mret None
      else
        r ← call_OnData buf;
        let '(n, err) := r in
        match err with
        | Some e => mret (Some e)
        | None =>
            if n <=? 0 then mret None
            else
              ConsumeRead n ;;
              if n <? zlen buf then mret None else dispatch_loop fuel
        end
  end.

Definition readAndDispatch (fuel : nat) : go (option eerror) :=
  r ← Read fuel;
  try dispatch_loop 2;
  mret (snd r).

(** [activate]; [process] is [processConn]. *)
Definition activate_with (process : bool -> bool -> go unit) : go unit :=
  cl ← IsClosed;
  act ← isActivated;
  if (cl : bool) || (act : bool) then mret tt
  else
    owned ← tryBusy;
    call_OnOpen ;;
    (if (owned : bool) then unbusy else mret tt) ;;
    p ← setActivated;
    let '(pendingRead, pendingWrite) := p in
    if (pendingRead || pendingWrite) && owned then
      got ← tryBusy;
      if (got : bool) then process pendingRead pendingWrite else mret tt
    else mret tt.

Fixpoint processConn (fuel : nat) (isRead isWrite : bool) : go unit :=
  match fuel with
  | O => panic
  | S k =>
      cl ← IsClosed;
      if (cl : bool) then unbusy
      else
        activate_with (processConn k) ;;
        cl ← IsClosed;
        if (cl : bool) then unbusy
        else
          need ← NeedFlush;
          e ← (if isWrite && need then Flush else mret None);
          match e with
          | Some e => closeWith (Some e) ;; unbusy
          | None =>
              e ← (if isRead then readAndDispatch fuel else mret None);
              match e with
              | Some e => closeWith (Some e) ;; unbusy
              | None =>
                  isRead ← takePendingRead;
                  isWrite ← takePendingWrite;
                  if negb isRead && negb isWrite then unbusy else processConn k isRead isWrite
              end
          end
  end.

Definition activate (fuel : nat) : go unit := activate_with (processConn fuel).

(** What the event loop does: a task that [Add] posted, or what the poller
    reports for the descriptor. *)
Inductive poll_event : Type :=
  | RunTask
  | PollError (again : bool)
  | PollEOF
  | PollReady (isRead isWrite : bool).

(** The callback of [Loop]; [known] is what [getConn] finds. *)
Definition on_event (fuel : nat) (polled : Z) (ev : poll_event) : go unit :=
  known ← gets (fun c => bool_decide (polled ∈ conns c));
  match ev with
  | RunTask => activate fuel
  | PollError _ => mret tt
  | PollEOF =>
      if negb known then mret tt
      else
        activate fuel ;;
        cl ← IsClosed;
        if (cl : bool) then mret tt
        else
          readAndDispatch fuel ;;
          closeWith (Some EOF)
  | PollReady isRead isWrite =>
      if negb known then mret tt
      else
        free ← tryBusy;
        if negb free then
          (if isRead then setPendingRead else mret tt) ;;
          (if isWrite then setPendingWrite else mret tt)
        else processConn fuel isRead isWrite
  end.

Fixpoint run_events (fuel : nat) (polled : Z) (evs : list poll_event) : go unit :=
  match evs with
  | [] => mret tt
  | ev :: evs => on_event fuel polled ev ;; run_events fuel polled evs
  end.

(** ** Registration *)

Definition NumConns : go Z := gets curConn.

(** [Conn.Init]; the fields it does not mention keep their values. *)
Definition Init (nfd : Z) : go unit :=
  modify (fun c =>
    set_userData None (set_wbufList [] (set_rw 0 (set_rr 0 (set_rbuf None (set_packed 0
      (set_closed false (set_fd nfd c)))))))).

(** [MultiEventLoop.Add] on a running engine; the task it posts is [RunTask]. *)
Definition Add (nfd : Z) : go (option errno) :=
  Init nfd ;;
  modify (fun c => set_conns (conns c ∪ {[nfd]}) c) ;;
  err ← AddRead;
  match err with
  | Some e => modify (fun c => set_conns (conns c ∖ {[nfd]}) c) ;; mret (Some e)
  | None => modify (fun c => set_curConn (curConn c + 1) c) ;; mret None
  end.
End Methods.

(** [HandlerFunc]: a protocol given by functions, any of which may be missing. *)
Record HandlerFunc `{EngLib} {App : Type} : Type := mkHandlerFunc {
  OpenFunc : option (M (Conn App) unit);
  DataFunc : option (bytes -> M (Conn App) (Z * option eerror));
  CloseFunc : option (option eerror -> M (Conn App) unit);
}.
Arguments HandlerFunc {_} App.

Definition of_HandlerFunc `{EngLib} {App} (h : HandlerFunc App) : Handler App := {|
  OnOpen := default (mret tt) (OpenFunc h);
  OnData buf := match DataFunc h with Some f => f buf | None => mret (zlen buf, None) end;
  OnClose err := match CloseFunc h with Some f => f err | None => mret tt end;
|}.

(** A connection as the pool makes it. *)
Definition blank `{EngLib} {App} (w : World) (a : App) : Conn App :=
  mkConn App 0 None 0 0 [] None 0 false false None false ∅ 0 w a [] [] [] [] [].
