(* ===== verification/EngLoop.v ===== *)
(** * EngLoop

    The writing side of an engine connection and its closing: while the socket
    reports no error other than "not now", the bytes it took followed by the
    bytes that wait are the bytes that [Write] accepted; closing flushes, drops
    the rest and calls [OnClose] once.  Then the event loop for every protocol
    that keeps its contract [HandlerOk] and every sequence of events: no step
    panics or loops; the protocol is called in the order [OnOpen], [OnData]...,
    [OnClose]; the bytes it has taken followed by the unread ones are the bytes
    received; the bytes the socket took are the first bytes that were written. *)

From S2P Require Import Prelude Sock EngConn.

Lemma slots_skip n l : slots (replicate n None ++ l) = slots l.
Proof. by rewrite slots_app, slots_None. Qed.

Lemma push_eq (s p r : bytes) n : (s ++ upto n p) ++ from n p ++ r = s ++ p ++ r.
Proof. by rewrite <- app_assoc, (app_assoc (upto n p)), upto_from. Qed.

(** ** Executions in which no write fails for good *)

Section Kernel.
Context `{EngLib}.

(** What the calls that an open connection makes on its descriptor [fd] do to
    the world. *)
Inductive kstep (fd : Z) (w : World) : World -> Prop :=
  | ks_read n : kstep fd w (snd (sys_read fd n w))
  | ks_write p : kstep fd w (snd (sys_write fd p w))
  | ks_AddRead : kstep fd w (snd (poll_AddRead fd w))
  | ks_DelRead : kstep fd w (snd (poll_DelRead fd w))
  | ks_ResetRead : kstep fd w (snd (poll_ResetRead fd w)).

(** The peer stays there: whatever the connection has called so far, a write
    takes some bytes or says [EAGAIN] or [EINTR]. *)
Definition unbroken (fd : Z) (w : World) : Prop :=
  forall w' p e, rtc (kstep fd) w w' -> fst (sys_write fd p w') = inr e -> is_soft (Some e) = true.

Lemma unbroken_rtc fd w w' : rtc (kstep fd) w w' -> unbroken fd w -> unbroken fd w'.
Proof. intros Hw Hu w2 p e Hw2. apply Hu. by transitivity w'. Qed.

(** A kernel whose writes never fail for good. *)
Lemma unbroken_always fd w :
  (forall p w e, fst (sys_write fd p w) = inr e -> is_soft (Some e) = true) -> unbroken fd w.
Proof. intros Hs w' p e _. apply Hs. Qed.

(** The world after calls that read nothing. *)
Definition reaches `{!EngLaws} (fd : Z) (w w' : World) : Prop :=
  world_view w' = world_view w /\ rtc (kstep fd) w w'.

#[export] Instance reaches_preorder `{!EngLaws} fd : PreOrder (reaches fd).
Proof. split; [by intros w; split|]. intros w1 w2 w3 [A1 A2] [B1 B2]. split; [congruence|by transitivity w2]. Qed.

Lemma reaches_write `{!EngLaws} fd p w : reaches fd w (snd (sys_write fd p w)).
Proof. split; [apply sys_write_view|]. apply rtc_once. constructor. Qed.
Lemma reaches_ResetRead `{!EngLaws} fd w : reaches fd w (snd (poll_ResetRead fd w)).
Proof. split; [apply poll_ResetRead_view|]. apply rtc_once. constructor. Qed.
End Kernel.

Section Safe.
Context `{EngLib} `{!EngLaws} {App : Type}.
Notation Conn := (Conn App).
Notation go A := (M Conn A).

Definition waiting (c : Conn) : bytes := slots (wbufList c).

Definition healthy (c : Conn) : Prop := unbroken (fd c) (world c).

(** What the writing side may change. *)
Definition outs (l : list (option wbuf)) (s wr : bytes) (w : World) (c : Conn) : Conn :=
  set_wbufList l (set_sent s (set_written wr (set_world w c))).

(** One write to the socket: [n] bytes are taken. *)
Definition pushed (p : bytes) (n : Z) (c c' : Conn) : Prop :=
  0 <= n <= zlen p /\
  exists w, c' = outs (wbufList c) (sent c ++ upto n p) (written c) w c /\
            reaches (fd c) (world c) w.

Lemma outs_same (c : Conn) : outs (wbufList c) (sent c) (written c) (world c) c = c.
Proof. by destruct c. Qed.

Lemma eng_wp_send p (c : Conn) : healthy c ->
  wp (send p) (fun r c' => pushed p (fst r) c c' /\ is_soft (snd r) = true /\
                           (snd r <> None -> fst r = 0)) c.
Proof.
  intros Hc. unfold send. wp_steps. unfold wp, outside. pose proof (reaches_write (fd c) p (world c)) as Hv.
  pose proof (sys_write_spec (fd c) p (world c)) as Hw.
  pose proof (fun e => Hc (world c) p e (rtc_refl _ _)) as Hs. pose proof (zlen_nonneg p).
  destruct (sys_write (fd c) p (world c)) as [[n|e] w']; cbn in *.
  - split; [|done]. split; [by eapply Hw|]. exists w'. by destruct c.
  - split; [|split; [by apply Hs|done]]. split; [lia|]. exists w'. rewrite app_nil_r. by destruct c.
Qed.

Lemma eng_wp_socketWrite p (c : Conn) : healthy c ->
  wp (socketWrite p) (fun r c' => pushed p (fst r) c c' /\ is_soft (snd r) = true /\
                                  (snd r <> None -> fst r = 0)) c.
Proof.
  intros Hc. unfold socketWrite. destruct (Z.eqb_spec (zlen p) 0) as [E|E]; [|by apply eng_wp_send].
  wp_steps. split; [|done]. cbn. split; [lia|]. exists (world c). rewrite app_nil_r.
  by rewrite outs_same.
Qed.

Lemma healthy_reaches w (c c' : Conn) : healthy c -> fd c' = fd c -> world c' = w -> reaches (fd c) (world c) w -> healthy c'.
Proof. intros Hc Ef <- [_ Hw]. unfold healthy. rewrite Ef. by eapply unbroken_rtc. Qed.

(** ** The list of waiting buffers *)

(** Appending keeps the slots and the order. *)
Lemma eng_wp_append data old (c : Conn) :
  Forall slot_ok (wbufList c) -> 0 <= old ->
  wp (appendToWbufList data old)
     (fun _ c' => exists l, c' = set_wbufList l c /\ Forall slot_ok l /\
        slots l = slots (wbufList c) ++ data) c.
Proof.
  intros Hok Ho. unfold appendToWbufList. pose proof (zlen_nonneg data).
  destruct (Z.eqb_spec (zlen data) 0) as [Hz|Hz].
  { apply zlen_zero in Hz as ->. wp_steps. exists (wbufList c). rewrite app_nil_r. by destruct c. }
  pose proof (GetBytes_enough (zlen data + old)) as Hg.
  assert (wp (new_wbuf data old) (fun _ c' => exists l, c' = set_wbufList l c /\ Forall slot_ok l /\
            slots l = slots (wbufList c) ++ data) c) as Hnew.
  { unfold new_wbuf. wp_steps. eexists. split; [done|]. split.
    - apply Forall_app. split; [done|]. apply Forall_singleton. cbn. lia.
    - by rewrite slots_app, slots_one. }
  wp_steps. destruct (last (wbufList c)) as [[b|]|] eqn:Hl; [|..|done].
  - branch Hroom; [|done]. wp_steps. eexists. split; [done|]. pose proof (last_split _ _ Hl) as Hsplit.
    split.
    + rewrite Hsplit in Hok. apply Forall_app in Hok as [Hinit _].
      apply Forall_app. split; [done|]. apply Forall_singleton. cbn. rewrite zlen_app. lia.
    + rewrite slots_app, slots_one. rewrite Hsplit at 3. by rewrite slots_app, slots_one, <- app_assoc.
  - apply last_Some in Hl as [l' Hl']. rewrite Hl' in Hok. apply Forall_app in Hok as [_ Hbad].
    by rewrite Forall_singleton in Hbad.
Qed.

Lemma wp_addWrite (c : Conn) Q :
  (forall w, reaches (fd c) (world c) w -> Q tt (set_world w c)) -> wp addWrite Q c.
Proof.
  intros HQ. unfold addWrite. wp_steps. unfold wp, outside.
  pose proof (reaches_ResetRead (fd c) (world c)) as Hv.
  destruct (poll_ResetRead (fd c) (world c)) as [e w']. by apply HQ.
Qed.

(** What is left of the list after a flush. *)
Definition flushed (c c' : Conn) : Prop :=
  exists l s w, c' = outs l s (written c) w c /\ reaches (fd c) (world c) w /\
    Forall slot_ok l /\ s ++ slots l = sent c ++ waiting c.

Lemma wp_flush_loop k : forall done rest (c : Conn),
  healthy c -> wbufList c = replicate done None ++ rest -> Forall slot_ok rest -> (length rest < k)%nat ->
  wp (flush_loop k done) (fun e c' => e = None /\ flushed c c') c.
Proof.
  induction k as [|k IH]; intros done rest c Hc Hl Hok Hk; [lia|]. cbn [flush_loop]. wp_steps.
  destruct rest as [|[b|] rest].
  - rewrite app_nil_r in Hl. rewrite Hl, lookup_ge_None_2 by (rewrite length_replicate; lia).
    wp_steps. split; [done|]. exists [], (sent c), (world c). split; [by destruct c|]. split; [done|].
    split; [done|]. unfold waiting. by rewrite Hl, slots_None.
  - apply Forall_cons in Hok as [Hb Hok].
    assert (forall x, <[done := x]> (replicate done None ++ Some b :: rest) =
                      replicate done None ++ x :: rest) as Hset.
    { intros x. replace done with (length (replicate done (@None wbuf)) + 0)%nat at 1
        by (rewrite length_replicate; lia). by rewrite insert_app_r. }
    rewrite Hl, list_lookup_middle by (by rewrite length_replicate). wp_steps.
    eapply wp_mono; [by apply eng_wp_socketWrite|]. cbn. intros [n err] c1 ([Hn (w & -> & Hw)] & Hsoft & He).
    cbn in *. rewrite Hset. branch Hfull.
    + apply andb_true_iff in Hfull as [_ Hfull]. apply Z.eqb_eq in Hfull as ->.
      rewrite upto_all by lia. wp_steps.
      eapply wp_mono; [apply (IH (S done) rest); [by eapply (healthy_reaches w c)| |done|lia]|].
      { by rewrite replicate_S_end, <- app_assoc. }
      cbn. intros e c2 (-> & l & s & w2 & -> & Hw2 & Hl2 & Hs2). split; [done|].
      exists l, s, w2. split; [done|]. split; [by transitivity w|]. split; [done|].
      rewrite Hs2. unfold waiting. rewrite Hl. cbn [wbufList sent outs set_wbufList set_sent].
      by rewrite !slots_skip, !slots_cons, <- app_assoc.
    + rewrite Hsoft. wp_steps. apply wp_addWrite. cbn. intros w2 Hw2. wp_steps. split; [done|].
      rewrite Hset, drop_app_length' by (by rewrite length_replicate).
      eexists _, _, w2. split; [done|]. split; [by transitivity w|].
      assert (zlen (wb_data b) <= wb_cap b) as Hcap by done. unfold waiting.
      rewrite Hl, slots_skip. destruct (Z.gtb_spec n 0) as [Hpos|Hpos].
      * split; [constructor; [cbn; rewrite zlen_from by lia; lia|done]|]. apply push_eq.
      * assert (n = 0) as -> by lia. split; [by constructor|].
        apply (push_eq (sent c) (wb_data b) (slots rest) 0).
  - by apply Forall_cons in Hok as [Hb _].
Qed.

Lemma eng_wp_flushLocked (c : Conn) :
  healthy c -> Forall slot_ok (wbufList c) -> wp flushLocked (fun e c' => e = None /\ flushed c c') c.
Proof.
  intros Hc Hok. unfold flushLocked. wp_steps. apply (wp_flush_loop _ 0 (wbufList c)); [done|done|done|lia].
Qed.

(** ** Writing *)

(** [data] is accepted: what the socket took and what waits is what was
    written before, then [data]. *)
Definition wrote (data : bytes) (c c' : Conn) : Prop :=
  exists l s w, c' = outs l s (written c ++ data) w c /\ reaches (fd c) (world c) w /\
    Forall slot_ok l /\ s ++ slots l = sent c ++ waiting c ++ data.

Lemma wp_backlog data old (c : Conn) :
  healthy c -> Forall slot_ok (wbufList c) -> 0 <= old ->
  wp (appendToWbufList data old ;; accept data ;; flushLocked ;; mret None)
     (fun e c' => (e : option eerror) = None /\ wrote data c c') c.
Proof.
  intros Hc Hok Ho. wp_steps. eapply wp_mono; [by apply eng_wp_append|]. cbn. intros _ c1 (l & -> & Hl & Hs).
  unfold accept. wp_steps. eapply wp_mono; [by apply eng_wp_flushLocked|]. cbn.
  intros e c2 (-> & l2 & s2 & w2 & -> & Hw2 & Hl2 & Hs2). wp_steps. split; [done|].
  exists l2, s2, w2. split; [done|]. split; [done|]. split; [done|]. rewrite Hs2.
  exact (f_equal (app (sent c)) Hs).
Qed.

(** The rest of a short write is queued. *)
Lemma wp_queue_rest data rest n old (c c1 : Conn) :
  wbufList c = [] -> pushed data n c c1 -> rest = from n data -> 0 <= old ->
  wp (appendToWbufList rest old ;; accept data ;; addWrite ;; mret None)
     (fun e c' => (e : option eerror) = None /\ wrote data c c') c1.
Proof.
  intros Hl [Hn (w & -> & Hw)] -> Ho. wp_steps.
  eapply wp_mono; [apply eng_wp_append; [cbn; by rewrite Hl|done]|]. cbn.
  rewrite Hl. intros _ c2 (l & -> & Hok & Hs). unfold accept. wp_steps. apply wp_addWrite. cbn.
  intros w2 Hw2. wp_steps. split; [done|]. exists l, (sent c ++ upto n data), w2.
  split; [done|]. split; [by transitivity w|]. split; [done|]. unfold waiting. rewrite Hl, Hs. cbn.
  by rewrite <- app_assoc, upto_from.
Qed.

Lemma wrote_whole data (c c1 : Conn) :
  wbufList c = [] -> pushed data (zlen data) c c1 ->
  wp (accept data ;; mret None) (fun e c' => (e : option eerror) = None /\ wrote data c c') c1.
Proof.
  intros Hl [_ (w & -> & Hw)]. unfold accept. wp_steps. split; [done|].
  exists [], (sent c ++ data), w. rewrite upto_all by lia. cbn. rewrite Hl. split; [done|].
  split; [done|]. split; [done|]. unfold waiting. rewrite Hl. cbn. by rewrite app_nil_r.
Qed.

Lemma wp_write_locked data (c : Conn) :
  healthy c -> Forall slot_ok (wbufList c) ->
  wp (write_locked data) (fun e c' => e = None /\ wrote data c c') c.
Proof.
  intros Hc Hok. unfold write_locked. pose proof (zlen_nonneg data). wp_steps.
  destruct (Z.eqb_spec (zlen (wbufList c)) 0) as [Hz|Hz]; cbn [negb]; [|by apply wp_backlog].
  apply zlen_zero in Hz. wp_steps. eapply wp_mono; [by apply eng_wp_socketWrite|]. cbn.
  intros [n err] c1 (Hp & Hsoft & He). cbn in *. branch Hfull.
  - apply andb_true_iff in Hfull as [_ Hfull]. apply Z.eqb_eq in Hfull as ->. by apply wrote_whole.
  - rewrite Hsoft. destruct (Z.ltb_spec n (zlen data)) as [Hlt|Hlt].
    + apply (wp_queue_rest data _ n); [done|done|done|lia].
    + eapply wp_mono; [apply (wp_queue_rest data [] n 0 c); [done|done| |lia]|done].
      destruct Hp as [Hn _]. replace n with (zlen data) by lia. by rewrite from_all.
Qed.

Lemma wp_Writev_open a b (c : Conn) :
  healthy c -> closed c = false -> Forall slot_ok (wbufList c) ->
  wp (Writev a b) (fun e c' => e = None /\ wrote (a ++ b) c c') c.
Proof.
  intros Hc Hcl Hok. unfold Writev, IsClosed. pose proof (zlen_nonneg a). pose proof (zlen_nonneg b).
  wp_steps. rewrite Hcl. wp_steps.
  destruct (Z.eqb_spec (zlen (wbufList c)) 0) as [Hz|Hz]; cbn [negb];
    [|apply wp_backlog; [done|done|rewrite zlen_app; lia]].
  apply zlen_zero in Hz. unfold socketWritev. wp_steps. eapply wp_mono; [by apply eng_wp_send|]. cbn.
  intros [n err] c1 (Hp & Hsoft & He). cbn in *. rewrite <- zlen_app. branch Hfull.
  - apply andb_true_iff in Hfull as [_ Hfull]. apply Z.eqb_eq in Hfull as ->. by apply wrote_whole.
  - rewrite Hsoft. pose proof Hp as [Hn _]. rewrite zlen_app in Hn. replace (n <? 0) with false by lia.
    apply (wp_queue_rest (a ++ b) _ n); [done|done| |rewrite zlen_app; lia].
    destruct (Z.ltb_spec n (zlen a)) as [Hlt|Hlt]; [by rewrite from_app_le by lia|].
    replace n with (zlen a + (n - zlen a)) at 2 by lia. rewrite <- from_from by lia.
    by rewrite from_app_length.
Qed.
End Safe.

(** The order of the calls of a protocol. *)
Inductive phase : Type := PNew | POpen | PClosed.

Section Calls.
Context `{EngLib}.

Definition next_phase (p : phase) (k : hcall) : option phase :=
  match p, k with
  | PNew, HOpen => Some POpen
  | POpen, HData _ => Some POpen
  | POpen, HClose _ => Some PClosed
  | _, _ => None
  end.

Definition phase_of (l : list hcall) : option phase :=
  fold_left (fun p k => p ≫= fun p => next_phase p k) l (Some PNew).

Lemma phase_of_app l k p : phase_of l = Some p -> phase_of (l ++ [k]) = next_phase p k.
Proof. intros Hp. unfold phase_of in *. by rewrite fold_left_app, Hp. Qed.
End Calls.

Section Loop.
Context `{EngLib} `{!EngLaws} {App : Type}.
Notation Conn := (Conn App).
Notation go A := (M Conn A).
Context (run_hook : HookId -> bytes -> go (option eerror)).
Context (handler : option (Handler App)).
(** What the protocol wants to be true of its own state. *)
Context (app_ok : App -> Prop).
(** What the protocol promises about its state, the bytes it has taken, the
    bytes it has written and the write hook, when its first state is [h0]. *)
Context (h0 : App) (Rel : App -> bytes -> bytes -> option HookId -> Prop).

Definition unread (c : Conn) : bytes :=
  match rbuf c with Some buf => slice (rr c) (rw c) buf | None => [] end.

Definition buf_ok (c : Conn) : Prop :=
  match rbuf c with
  | Some buf => 0 <= rr c <= rw c /\ rw c <= zlen buf
  | None => rr c = 0 /\ rw c = 0
  end /\ (releaseReadBuf c = true -> rr c = rw c).

(** The invariant, but for the calls made so far. *)
Record Binv (c : Conn) : Prop := {
  bi_list : Forall slot_ok (wbufList c);
  bi_wire : exists rest, written c = sent c ++ waiting c ++ rest /\ (closed c = false -> rest = []);
  bi_once : closeOnce c = closed c;
  bi_buf : closed c = false -> buf_ok c;
  bi_stream : closed c = false -> received c = consumed c ++ unread c;
  bi_closed : closed c = true -> rbuf c = None;
  bi_bytes : bytes_ok (received c);
  bi_app : app_ok (hstate c);
  bi_healthy : closed c = false -> healthy c;
}.

Record Einv (c : Conn) : Prop := {
  ei_base : Binv c;
  ei_phase : phase_of (calls c) = Some (if closed c then PClosed else POpen);
}.

(** What a protocol may do to the connection. *)
Definition read_part (c : Conn) := (rbuf c, rr c, rw c, releaseReadBuf c, consumed c, calls c).

Record estep (c c' : Conn) : Prop := {
  es_closed : closed c = true -> closed c' = true;
  es_open : closed c' = false -> read_part c' = read_part c;
  es_received : received c' = received c;
  es_view : world_view (world c') = world_view (world c);
  es_packed : packed c' = packed c;
}.

#[export] Instance estep_preorder : PreOrder estep.
Proof.
  split; [by intros c|]. intros c1 c2 c3 [A1 A2 A3 A4 A5] [B1 B2 B3 B4 B5].
  split; [auto| |congruence..]. intros Hc3. rewrite B2, A2; [done| |done].
  destruct (closed c2); [by rewrite B1 in Hc3|done].
Qed.

Definition calm {A} (m : go A) : Prop := forall c, Einv c -> wp m (fun _ c' => Einv c' /\ estep c c') c.

Lemma eng_calm_mret {A} (a : A) : calm (mret a).
Proof. intros c Hc. by apply wp_ret. Qed.

Lemma eng_calm_bind {A B} (m : go A) (k : A -> go B) : calm m -> (forall a, calm (k a)) -> calm (m ≫= k).
Proof.
  intros Hm Hk c Hc. apply wp_bind. eapply wp_mono; [by apply Hm|]. cbn. intros a c1 [W1 S1].
  eapply wp_mono; [by apply Hk|]. cbn. intros b c2 [W2 S2]. split; [done|by transitivity c1].
Qed.

Lemma eng_calm_check {E} (m k : go (option E)) : calm m -> calm k -> calm (check m k).
Proof. intros Hm Hk. apply eng_calm_bind; [done|]. intros [e|]; [apply eng_calm_mret|done]. Qed.

Lemma eng_calm_gets {A} (f : Conn -> A) : calm (gets f).
Proof. intros c Hc. by apply wp_gets. Qed.

Lemma eng_calm_modify (g : Conn -> Conn) : (forall c, Einv c -> Einv (g c) /\ estep c (g c)) -> calm (modify g).
Proof. intros Hg c Hc. by apply wp_modify, Hg. Qed.

(** The protocol's own state. *)
Lemma Einv_set_hstate a (c : Conn) :
  Einv c -> app_ok a -> Einv (set_hstate a c) /\ estep c (set_hstate a c).
Proof. intros [[] ?] Ha. split; [|by split]. split; [by split|done]. Qed.

Lemma calm_set_hstate (f : App -> App) :
  (forall a, app_ok a -> app_ok (f a)) -> calm (modify (fun c => set_hstate (f (hstate c)) c)).
Proof.
  intros Hf. apply eng_calm_modify. intros c [[] ?]. split; [|by split]. split; [|done].
  split; cbn; auto.
Qed.

(** ** The contract of a protocol *)

Class HookOk : Prop := hook_ok : forall h data, calm (run_hook h data).

Class CloseOk : Prop := ho_close err c : Einv c ->
  wp (match handler with Some h => OnClose h err | None => mret tt end)
     (fun _ c' => Einv c' /\ estep c c') c.

Definition rel_ok (c : Conn) : Prop :=
  closed c = false -> Rel (hstate c) (consumed c) (written c) (writeHookFn c).

Class HandlerOk : Prop := {
  ho_closes :: CloseOk;
  ho_open c : Einv c ->
    wp (match handler with Some h => OnOpen h | None => mret tt end)
       (fun _ c' => Einv c' /\ estep c c' /\
          (closed c = false -> hstate c = h0 -> consumed c = [] -> written c = [] -> writeHookFn c = None -> rel_ok c')) c;
  ho_data buf c : Einv c -> bytes_ok buf ->
    wp (match handler with Some h => OnData h buf | None => panic end)
       (fun r c' => Einv c' /\ estep c c' /\
          (closed c = false -> rel_ok c -> closed c' = false -> snd r = None ->
           Rel (hstate c') (consumed c ++ upto (fst r) buf) (written c') (writeHookFn c'))) c;
}.

(** ** Writing *)

Lemma wrote_inv data (c c' : Conn) :
  Einv c -> closed c = false -> wrote data c c' -> Einv c' /\ estep c c'.
Proof.
  intros [Hb Hp] Hcl (l & s & w & -> & Hw & Hl & Hs). destruct Hb.
  split; [|split; try done; apply Hw]. split; [|done].
  split; try done; [|intros _; by eapply (healthy_reaches w c); auto]. exists []. split; [|done].
  destruct bi_wire0 as (rest & Hwr & Hrest). rewrite (Hrest Hcl), app_nil_r in Hwr. rewrite app_nil_r.
  change (written c ++ data = s ++ slots l). by rewrite Hs, Hwr, app_assoc.
Qed.

Lemma flushed_wrote (c c' : Conn) : flushed c c' -> wrote [] c c'.
Proof.
  intros (l & s & w & -> & Hw & Hl & Hs). exists l, s, w. by rewrite !app_nil_r.
Qed.

Lemma calm_write_open (m : go (option eerror)) :
  calm (cl ← IsClosed; if (cl : bool) then mret (Some ErrClosed) else m) <->
  (forall c, closed c = false -> Einv c -> wp m (fun _ c' => Einv c' /\ estep c c') c).
Proof.
  unfold IsClosed. split.
  - intros Hm c Hcl Hc. specialize (Hm c Hc). unfold wp, gets, mbind, M_bind in *. by rewrite Hcl in Hm.
  - intros Hm c Hc. wp_steps. destruct (closed c) eqn:Hcl; [by wp_steps|by apply Hm].
Qed.

Lemma wp_write_locked_inv data (c : Conn) :
  closed c = false -> Einv c -> wp (write_locked data) (fun _ c' => Einv c' /\ estep c c') c.
Proof.
  intros Hcl Hc. eapply wp_mono; [apply wp_write_locked; [by apply Hc|apply Hc]|]. cbn.
  intros e c' [_ Hw]. by eapply wrote_inv.
Qed.

Lemma calm_WriteRaw data : calm (WriteRaw data).
Proof.
  apply calm_write_open. intros c Hcl Hc. destruct (zlen data =? 0); [by apply wp_ret|].
  by apply wp_write_locked_inv.
Qed.

Lemma calm_Writev a b : calm (Writev a b).
Proof.
  intros c Hc. destruct (closed c) eqn:Hcl.
  - unfold Writev, IsClosed. wp_steps. rewrite Hcl. by wp_steps.
  - eapply wp_mono; [apply wp_Writev_open; [by apply Hc|done|apply Hc]|]. cbn. intros e c' [_ Hw].
    by eapply wrote_inv.
Qed.

Lemma wp_flush_inv (c : Conn) :
  closed c = false -> Einv c -> wp flushLocked (fun e c' => e = None /\ Einv c' /\ estep c c') c.
Proof.
  intros Hcl Hc. eapply wp_mono; [apply eng_wp_flushLocked; [by apply Hc|apply Hc]|]. cbn.
  intros e c' [-> Hf]. split; [done|]. eapply wrote_inv; [done..|by apply flushed_wrote].
Qed.

Lemma calm_Flush : calm Flush.
Proof.
  apply calm_write_open. intros c Hcl Hc. eapply wp_mono; [by apply wp_flush_inv|]. cbn. tauto.
Qed.

Context `{!HookOk}.

Lemma calm_Write data : calm (Write run_hook data).
Proof.
  apply calm_write_open. intros c Hcl Hc. destruct (zlen data =? 0); [by apply wp_ret|].
  unfold writeHook. wp_steps. destruct (writeHookFn c); [by apply hook_ok|by apply wp_write_locked_inv].
Qed.

(** [Write] when the hooks leave the protocol alone. *)
Lemma wp_Write data (c : Conn) :
  (forall h d, keeps hstate (run_hook h d)) -> Einv c ->
  wp (Write run_hook data) (fun e c' => Einv c' /\ estep c c' /\ hstate c' = hstate c /\
    (closed c = false -> writeHookFn c = None ->
     e = None /\ closed c' = false /\ writeHookFn c' = None /\ written c' = written c ++ data)) c.
Proof.
  intros Hkeeps Hc. unfold Write, IsClosed, writeHook. wp_steps. destruct (closed c) eqn:Ho; [by wp_steps|].
  destruct (Z.eqb_spec (zlen data) 0) as [Hz|Hz].
  { wp_steps. apply zlen_zero in Hz as ->. by rewrite app_nil_r. }
  wp_steps. destruct (writeHookFn c) as [hk|] eqn:Hk.
  - eapply wp_mono; [apply wp_post; [by apply hook_ok|intros a c' Hrun; exact (Hkeeps _ _ _ _ _ Hrun)]|].
    cbn. intros e c' [[? ?] ?]. done.
  - eapply wp_mono; [apply wp_write_locked; [by apply Hc|apply Hc]|]. cbn. intros e c' [-> Hw].
    destruct (wrote_inv _ _ _ Hc Ho Hw) as [I1 S1]. split; [done|]. split; [done|].
    by destruct Hw as (l & s & w & -> & _).
Qed.

Lemma calm_SetUserData v : calm (SetUserData v).
Proof. apply eng_calm_modify. intros c [[] ?]. split; [|by split]. split; [by split|done]. Qed.
Lemma calm_SetWriteHook v : calm (SetWriteHook v).
Proof. apply eng_calm_modify. intros c [[] ?]. split; [|by split]. split; [by split|done]. Qed.

(** ** Closing *)

Context `{!CloseOk}.

Lemma wp_closeWith err (c : Conn) :
  Einv c -> wp (closeWith handler err) (fun _ c' => Einv c' /\ estep c c' /\ closed c' = true) c.
Proof.
  intros Hc. unfold closeWith, IsClosed. wp_steps. destruct (closed c) eqn:Hcl; [by wp_steps|].
  wp_steps. rewrite (bi_once _ (ei_base _ Hc)), Hcl. wp_steps.
  eapply wp_mono; [apply eng_wp_flushLocked; [by apply Hc|apply Hc]|]. cbn.
  intros _ c1 [_ (l & s & w & -> & Hw & Hl & Hs)]. cbn in *.
  unfold del, Fd, delConn. wp_steps. cbn. wp_steps.
  eapply (wp_mono _ (fun _ c2 => exists w2, world_view w2 = world_view (world c) /\
    c2 = set_world w2 (set_rw 0 (set_rr 0 (set_wbufList [] (set_rbuf None (set_fd (-1)
           (set_closed true (outs l s (written c) w (set_closeOnce true c))))))))) _).
  { branch Hfd; [|wp_steps; exists w; split; [apply Hw|done]].
    unfold closeFd, wp, outside. cbn. eexists. split; [|done]. rewrite sys_close_view. apply Hw. }
  cbn. intros _ c2 (w2 & Hw2 & ->). unfold call. wp_steps.
  set (c3 := set_calls _ _). assert (Einv c3 /\ estep c c3) as [I3 S3].
  { destruct Hc as [[] Hp]. split.
    - split; [split; cbn; try done|].
      + exists (slots l). split; [|done]. destruct bi_wire0 as (rest & Hwr & Hrest).
        rewrite Hwr, (Hrest Hcl), app_nil_r. symmetry. exact Hs.
      + rewrite Hcl in Hp. exact (phase_of_app _ (HClose err) _ Hp).
    - by split. }
  eapply wp_mono; [by apply ho_close|]. cbn. intros _ c4 [I4 S4]. split; [done|].
  split; [by transitivity c3|by apply (es_closed _ _ S4)].
Qed.

Lemma calm_closeWith err : calm (closeWith handler err).
Proof. intros c Hc. eapply wp_mono; [by apply wp_closeWith|]. cbn. tauto. Qed.

Lemma calm_Close : calm (Close handler).
Proof. apply eng_calm_bind; [apply calm_closeWith|]. intros _. apply eng_calm_mret. Qed.
End Loop.
