(* ===== verification/EngEvents.v ===== *)
(** * EngEvents

    Reading in [engine]: [Read] fills the buffer until the socket is dry, and
    [readAndDispatch] gives the protocol what is unread.  The reads that are
    left bound the loop.  Then the event loop as a whole: for every sequence of
    events the poller may report, every protocol that keeps its contract and
    every way the kernel cuts the bytes. *)

From S2P Require Import Prelude Sock EngConn EngLoop.

Section Read.
Context `{EngLib} `{!EngLaws} {App : Type}.
Notation Conn := (Conn App).
Notation go A := (M Conn A).
Context (app_ok : App -> Prop).
Notation Einv := (Einv app_ok).

(** All the bytes of the peer, read and unread. *)
Definition stream (c : Conn) : bytes := received c ++ incoming (world c).

(** What reading leaves alone. *)
Definition kept (c : Conn) :=
  (wbufList c, packed c, closed c, closeOnce c, hstate c, calls c, consumed c, written c, sent c,
   writeHookFn c, fd c).

(** The invariant inside [Read]. *)
Record Rinv (buf : bytes) (c : Conn) : Prop := {
  ri_inv : Einv c;
  ri_open : closed c = false;
  ri_buf : rbuf c = Some buf;
  ri_release : releaseReadBuf c = false;
}.

Lemma Rinv_bounds buf (c : Conn) : Rinv buf c ->
  (0 <= rr c <= rw c /\ rw c <= zlen buf) /\ received c = consumed c ++ slice (rr c) (rw c) buf.
Proof.
  intros [[Hb _] Ho Hbuf _]. pose proof (bi_buf _ _ Hb Ho) as [Hbounds _].
  pose proof (bi_stream _ _ Hb Ho) as Hs. unfold unread in Hs. rewrite Hbuf in Hbounds, Hs. done.
Qed.

(** A new buffer, new indices, and bytes read into it. *)
Lemma Rinv_from buf' w r data (c c' : Conn) :
  Einv c -> closed c = false -> kept c' = kept c -> releaseReadBuf c' = false -> rbuf c' = Some buf' ->
  rr c' = r -> rw c' = w -> received c' = received c ++ data -> bytes_ok data ->
  0 <= r <= w /\ w <= zlen buf' -> slice r w buf' = unread c ++ data ->
  rtc (kstep (fd c)) (world c) (world c') -> Rinv buf' c'.
Proof.
  intros [[] Hp] Ho [= E1 E2 E3 E4 E5 E6 E7 E8 E9 E10 E11] Hrel Hbuf <- <- Hrec Hd Hb Hs Hk.
  split; [|by rewrite E3|done|done]. split; [|by rewrite E3, E6].
  split.
  - by rewrite E1.
  - unfold waiting. by rewrite E1, E3, E8, E9.
  - by rewrite E3, E4.
  - intros _. unfold buf_ok. by rewrite Hbuf, Hrel.
  - intros _. unfold unread at 1. by rewrite Hbuf, Hrec, Hs, bi_stream, E7, app_assoc.
  - rewrite E3, Ho. done.
  - rewrite Hrec. by apply bytes_ok_app.
  - by rewrite E5.
  - intros _. unfold healthy. rewrite E11. eapply unbroken_rtc; [exact Hk|by apply bi_healthy].
Qed.

Lemma Rinv_next buf buf' w r data (c c' : Conn) :
  Rinv buf c -> kept c' = kept c -> releaseReadBuf c' = false -> rbuf c' = Some buf' ->
  rr c' = r -> rw c' = w -> received c' = received c ++ data -> bytes_ok data ->
  0 <= r <= w /\ w <= zlen buf' -> slice r w buf' = slice (rr c) (rw c) buf ++ data ->
  rtc (kstep (fd c)) (world c) (world c') -> Rinv buf' c'.
Proof.
  intros [Hc Ho Hbuf Hrel0] ? ? ? ? ? ? ? ? Hs ?. eapply (Rinv_from buf' w r data c); try done.
  unfold unread. by rewrite Hbuf.
Qed.

Lemma eng_pool_slice_len n : 0 <= n -> zlen (pool_slice n) = GetBytes n.
Proof.
  intros Hn. pose proof (GetBytes_enough n Hn). unfold pool_slice, zlen.
  rewrite length_replicate. lia.
Qed.

(** Growing moves the bytes to a larger buffer, or reports that it may not. *)
Lemma eng_wp_growReadBuffer buf (c : Conn) :
  Rinv buf c ->
  wp growReadBuffer (fun ok c' => kept c' = kept c /\ rw c' = rw c /\ world c' = world c /\
    received c' = received c /\
    exists buf', Rinv buf' c' /\ (if ok : bool then zlen buf < zlen buf' else
      buf' = buf /\ maxReadBufferSize <= zlen buf)) c.
Proof.
  intros Hri. pose proof (Rinv_bounds _ _ Hri) as [[Hr Hw] _]. unfold growReadBuffer. wp_steps.
  rewrite (ri_buf _ _ Hri). destruct (Z.geb_spec (zlen buf) maxReadBufferSize) as [Hmax|Hmax]; wp_steps.
  { do 4 (split; [done|]). by exists buf. }
  set (want := if zlen buf <? _ then _ else _).
  assert (zlen buf < want) as Hwant by (unfold want; branches; unfold maxReadBufferSize, batchReadBufferSize in *; lia).
  apply wp_reslice; [lia|lia|]. wp_steps. do 4 (split; [done|]).
  pose proof (eng_pool_slice_len want ltac:(lia)) as Hp. pose proof (GetBytes_enough want ltac:(lia)) as Hge.
  destruct (slice_copy (rr c) (rw c) buf (pool_slice want)) as [Hc1 Hc2]; [lia..|].
  exists (copy_front (pool_slice want) (slice 0 (rw c) buf)). rewrite Hc2. split; [|lia].
  eapply (Rinv_next buf _ (rw c) (rr c) []); try done; [apply Hri|by rewrite app_nil_r|apply bytes_ok_nil|rewrite Hc2; lia|].
  by rewrite Hc1, app_nil_r.
Qed.

(** One read of the socket. *)
Lemma eng_wp_socketRead n (c : Conn) Q :
  0 < n ->
  (forall data w', incoming (world c) = data ++ incoming w' -> zlen data <= n -> bytes_ok data ->
     (reads_left w' < reads_left (world c))%nat -> rtc (kstep (fd c)) (world c) w' ->
     Q (inl data) (set_received (received c ++ data) (set_world w' c))) ->
  (forall e w', incoming w' = incoming (world c) ->
     (reads_left w' <= reads_left (world c))%nat ->
     (e = EINTR -> (reads_left w' < reads_left (world c))%nat) -> rtc (kstep (fd c)) (world c) w' -> Q (inr e) (set_world w' c)) ->
  wp (socketRead n) Q c.
Proof.
  intros Hn HD HE. unfold socketRead. replace (n =? 0) with false by lia. wp_steps.
  unfold wp, outside. pose proof (sys_read_spec (fd c) n (world c) Hn) as Hs.
  assert (rtc (kstep (fd c)) (world c) (snd (sys_read (fd c) n (world c)))) as Hk by (apply rtc_once; constructor).
  destruct (sys_read (fd c) n (world c)) as [[data|e] w'].
  - destruct Hs as (? & ? & ? & ?). by apply HD.
  - cbn. destruct e; apply HE; try done; try lia; by destruct Hs.
Qed.

Definition todo (buf : bytes) (c : Conn) : nat :=
  (2 * reads_left (world c) + if (rw c =? zlen buf)%Z then 1 else 0)%nat.

Lemma wp_Read_loop fuel : forall total buf (c : Conn),
  Rinv buf c -> (todo buf c < fuel)%nat ->
  wp (Read_loop fuel total) (fun r c' => kept c' = kept c /\ stream c' = stream c /\
    (reads_left (world c') <= reads_left (world c))%nat /\ exists buf', Rinv buf' c') c.
Proof.
  induction fuel as [|fuel IH]; intros total buf c Hri Hf; [lia|]. cbn [Read_loop].
  pose proof (Rinv_bounds _ _ Hri) as [[Hr Hw] _]. unfold deref_rbuf. wp_steps.
  rewrite (ri_buf _ _ Hri). eapply wp_of_option; [done|]. wp_steps.
  apply wp_reslice; [lia|lia|]. rewrite zlen_slice by lia. unfold todo in Hf.
  assert (forall k total' buf' c1, k = fuel -> Rinv buf' c1 -> kept c1 = kept c -> stream c1 = stream c ->
    (todo buf' c1 < fuel)%nat -> (reads_left (world c1) <= reads_left (world c))%nat ->
    wp (Read_loop k total') (fun r c' => kept c' = kept c /\ stream c' = stream c /\
      (reads_left (world c') <= reads_left (world c))%nat /\ exists buf', Rinv buf' c') c1) as Hgo.
  { intros k total' buf' c1 -> Hri1 Hk Hs Ht Hle. eapply wp_mono; [by eapply IH|]. cbn.
    intros r c2 (K & S & L & B). split; [congruence|]. split; [congruence|]. split; [lia|done]. }
  destruct (Z.eqb_spec (zlen buf - rw c) 0) as [Hfull|Hroom].
  - replace (rw c =? zlen buf) with true in Hf by lia. cbn in Hf. wp_steps.
    eapply wp_mono; [by apply eng_wp_growReadBuffer|]. cbn.
    intros ok c1 (K & W & Hwd & Hrec & buf' & Hri1 & Hok). destruct ok; cbn [negb]; wp_steps.
    + apply (Hgo fuel total buf'); try done; [unfold stream; by rewrite Hrec, Hwd| |by rewrite Hwd].
      unfold todo. rewrite W, Hwd. destruct (Z.eqb_spec (rw c) (zlen buf')); lia.
    + split; [done|]. split; [unfold stream; by rewrite Hrec, Hwd|]. rewrite Hwd. split; [done|].
      by exists buf'.
  - replace (rw c =? zlen buf) with false in Hf by lia. cbn in Hf. wp_steps. apply eng_wp_socketRead; [lia|..].
    + intros data w' Hin Hd Hok Hless Hks.
      set (c1 := set_received _ _). assert (kept c1 = kept c) as K1 by done.
      assert (stream c1 = stream c) as S1 by (unfold stream; cbn; by rewrite Hin, app_assoc).
      destruct data as [|x data]; [|set (d := x :: data) in *].
      * assert (Rinv buf c1) as R1.
        { eapply (Rinv_next buf buf (rw c) (rr c) []); try done; [apply Hri|apply Hri|by rewrite app_nil_r]. }
        wp_steps. branch Hb; wp_steps; (split; [done|]); (split; [done|]); (split; [cbn; lia|by exists buf]).
      * pose proof (zlen_nonneg d).
        destruct (slice_store (rr c) (rw c) buf d) as [Hs1 Hs2]; [lia|lia|].
        unfold store_read, deref_rbuf. wp_steps. cbn. rewrite (ri_buf _ _ Hri).
        eapply wp_of_option; [done|]. wp_steps. eapply wp_of_option; [done|]. wp_steps.
        set (c2 := set_rw _ _). set (buf2 := upto (rw c) buf ++ _) in *.
        assert (Rinv buf2 c2) as R2.
        { eapply (Rinv_next buf buf2 (rw c + zlen d) (rr c) d); try done; [apply Hri|]. lia. }
        assert (kept c2 = kept c) as K2 by done. assert (stream c2 = stream c) as S2 by exact S1.
        assert (reads_left (world c2) = reads_left w') as L2 by done.
        branch Hgrow; wp_steps.
        -- eapply wp_mono; [by apply eng_wp_growReadBuffer|]. cbn.
           intros ok c3 (K & W & Hwd & Hrec & buf' & Hri1 & Hk). wp_steps.
           apply (Hgo fuel _ buf'); try done; [unfold stream; by rewrite Hrec, Hwd| |rewrite Hwd; lia].
           unfold todo. rewrite Hwd. branch Hfl; lia.
        -- apply (Hgo fuel _ buf2); try done; [|lia]. unfold todo. branch Hfl; lia.
    + intros e w' Hin Hle Hintr Hks. set (c1 := set_world w' c).
      assert (stream c1 = stream c) as S1 by (unfold stream; cbn; by rewrite Hin).
      assert (Rinv buf c1) as R1.
      { eapply (Rinv_next buf buf (rw c) (rr c) []); try done; [apply Hri|apply Hri|by rewrite app_nil_r|apply bytes_ok_nil|].
        by rewrite app_nil_r. }
      destruct e; wp_steps.
      * split; [done|]. split; [done|]. split; [done|by exists buf].
      * apply (Hgo fuel total buf); try done. unfold todo. specialize (Hintr eq_refl).
        cbn. branch Hfl; lia.
      * split; [done|]. split; [done|]. split; [done|by exists buf].
Qed.

Lemma wp_Read fuel (c : Conn) :
  Einv c -> closed c = false -> (2 * reads_left (world c) + 1 < fuel)%nat ->
  wp (Read fuel) (fun r c' => kept c' = kept c /\ stream c' = stream c /\
    (reads_left (world c') <= reads_left (world c))%nat /\ exists buf', Rinv buf' c') c.
Proof.
  intros Hc Ho Hf. unfold Read, IsClosed, release_consumed. wp_steps. rewrite Ho. wp_steps.
  pose proof (bi_buf _ _ (ei_base _ _ Hc) Ho) as [Hb Hrel].
  pose proof (bi_stream _ _ (ei_base _ _ Hc) Ho) as Hstr.
  eapply (wp_mono _ (fun _ c1 => kept c1 = kept c /\ stream c1 = stream c /\ world c1 = world c /\
    exists buf, Rinv buf c1)).
  - assert (forall c1, unread c = [] -> kept c1 = kept c -> received c1 = received c ->
      rr c1 = 0 -> rw c1 = 0 -> releaseReadBuf c1 = false -> world c1 = world c ->
      Rinv (pool_slice (8 * 1024)) (set_rbuf (Some (pool_slice (8 * 1024))) c1)) as Hfresh.
    { intros c1 Hu ? Hrec Hr0 Hw0 ? Hw1. pose proof (zlen_nonneg (pool_slice (8 * 1024))).
      eapply (Rinv_from _ 0 0 [] c); try done; [by rewrite app_nil_r|apply bytes_ok_nil|by rewrite Hu|].
      cbn. by rewrite Hw1. }
    assert (unread c = [] -> rbuf c = None \/ releaseReadBuf c = true ->
      Rinv (pool_slice (8 * 1024)) (set_rbuf (Some (pool_slice (8 * 1024)))
        (set_releaseReadBuf false (if releaseReadBuf c && match rbuf c with Some _ => true | None => false end
           then set_rw 0 (set_rr 0 (set_rbuf None c)) else c)))) as Hnew.
    { intros Hu Hor. destruct (rbuf c) as [buf|] eqn:Hbuf.
      - destruct Hor as [?|Hr]; [done|]. rewrite Hr. by apply Hfresh.
      - rewrite andb_false_r. destruct Hb as [Hr0 Hw0]. by apply Hfresh. }
    destruct (rbuf c) as [buf|] eqn:Hbuf; cbn in *; rewrite ?andb_true_r, ?andb_false_r in *.
    + destruct (releaseReadBuf c) eqn:Hr; wp_steps.
      * split; [done|]. split; [done|]. split; [done|]. eexists. apply Hnew; [|by right].
        unfold unread. rewrite Hbuf, (Hrel eq_refl), slice_upto_from, Z.sub_diag. done.
      * rewrite Hbuf. wp_steps. split; [done|]. split; [done|]. split; [done|]. exists buf.
        eapply (Rinv_from buf (rw c) (rr c) [] c); try done; [by rewrite app_nil_r|apply bytes_ok_nil|].
        unfold unread. by rewrite Hbuf, app_nil_r.
    + rewrite Hbuf. wp_steps. split; [done|]. split; [done|]. split; [done|]. eexists.
      apply Hnew; [|by left]. unfold unread. by rewrite Hbuf.
  - cbn. intros _ c1 (K & S & W & buf & R). eapply wp_mono; [eapply wp_Read_loop; [done|]|].
    { unfold todo. rewrite W. branch Hfl; lia. }
    cbn. intros r c2 (K2 & S2 & L2 & B2). rewrite W in L2.
    split; [congruence|]. split; [congruence|]. by split.
Qed.
End Read.

Lemma has_put_other f g v p : f .& g = 0 -> has_flag g (put_flag f v p) = has_flag g p.
Proof. intros Hf. unfold has_flag. by rewrite put_flag_other. Qed.

Lemma slice_join (a b c : Z) (l : bytes) :
  0 <= a <= b -> b <= c -> slice a b l ++ slice b c l = slice a c l.
Proof.
  intros Ha Hb. rewrite <- (upto_from (b - a) (slice a c l)), upto_slice, from_slice by lia.
  f_equal; f_equal; lia.
Qed.

Lemma upto_neg {A} n (l : list A) : n <= 0 -> upto n l = [].
Proof. intros Hn. unfold upto. by replace (Z.to_nat n) with 0%nat by lia. Qed.

Section Events.
Context `{EngLib} `{!EngLaws} {App : Type}.
Notation Conn := (Conn App).
Notation go A := (M Conn A).
Context (run_hook : HookId -> bytes -> go (option eerror)).
Context (handler : option (Handler App)).
Context (app_ok : App -> Prop).
Context (h0 : App) (Rel : App -> bytes -> bytes -> option HookId -> Prop).
Context `{!HookOk run_hook app_ok} `{!HandlerOk handler app_ok h0 Rel}.
Notation Einv := (Einv app_ok).
Notation Binv := (Binv app_ok).
Notation rel_ok := (rel_ok Rel).

(** What any part of an event does. *)
Record lstep (c c' : Conn) : Prop := {
  ls_closed : closed c = true -> closed c' = true;
  ls_stream : stream c' = stream c;
  ls_left : (reads_left (world c') <= reads_left (world c))%nat;
}.

#[export] Instance lstep_preorder : PreOrder lstep.
Proof. split; [by intros c|]. intros c1 c2 c3 [] []. split; [auto|congruence|lia]. Qed.

Lemma estep_lstep (c c' : Conn) : estep c c' -> lstep c c'.
Proof.
  intros [? _ Hr Hv _]. injection Hv as Hi Hl. split; [done| |lia]. unfold stream. by rewrite Hr, Hi.
Qed.

(** ** Feeding the protocol *)

Lemma wp_call_OnData buf (c : Conn) :
  Einv c -> closed c = false -> bytes_ok buf ->
  wp (call_OnData handler buf) (fun r c' => Einv c' /\ lstep c c' /\ packed c' = packed c /\
    (closed c' = false -> rr c' = rr c /\ rw c' = rw c /\ unread c' = unread c /\ consumed c' = consumed c) /\
    (rel_ok c -> closed c' = false -> snd r = None ->
     Rel (hstate c') (consumed c ++ upto (fst r) buf) (written c') (writeHookFn c'))) c.
Proof.
  intros Hc Ho Hb. unfold call_OnData, call. wp_steps. set (c0 := set_calls _ c).
  assert (Einv c0) as I0.
  { destruct Hc as [[] Hp]. split; [by split|]. rewrite Ho in Hp. cbn. rewrite Ho.
    exact (phase_of_app _ (HData buf) _ Hp). }
  eapply wp_mono; [by apply (ho_data handler app_ok h0 Rel)|]. cbn. intros r c1 (I1 & S1 & R1).
  split; [done|]. split; [destruct (estep_lstep _ _ S1) as [A1 A2 A3]; split; [exact A1|exact A2|exact A3]|].
  split; [exact (es_packed _ _ S1)|]. split; [|by apply R1].
  intros Hc1. pose proof (es_open _ _ S1 Hc1) as [= E1 E2 E3 _ E5 _].
  split; [done|]. split; [done|]. split; [|done]. unfold unread. by rewrite E1, E2, E3.
Qed.

Lemma wp_ReadBuffer (c : Conn) Q :
  Binv c -> (zlen (unread c) = rw c - rr c \/ closed c = true -> Q (unread c) c) -> wp ReadBuffer Q c.
Proof.
  intros Hc HQ. unfold ReadBuffer. wp_steps. unfold unread in HQ.
  destruct (closed c) eqn:Ho.
  - rewrite (bi_closed _ _ Hc Ho) in *. wp_steps. apply HQ. by right.
  - destruct (bi_buf _ _ Hc Ho) as [Hb _]. destruct (rbuf c) as [buf|].
    + apply wp_reslice; [lia|lia|]. apply HQ. left. rewrite zlen_slice; lia.
    + wp_steps. apply HQ. left. destruct Hb. rewrite zlen_nil. lia.
Qed.

Record consumed_next (c : Conn) (taken : bytes) (c' : Conn) : Prop := {
  cn_hstate : hstate c' = hstate c;
  cn_written : written c' = written c;
  cn_hook : writeHookFn c' = writeHookFn c;
  cn_closed : closed c' = closed c;
  cn_consumed : closed c = false -> consumed c' = consumed c ++ taken;
}.

Lemma wp_ConsumeRead n (c : Conn) :
  Einv c -> wp (ConsumeRead n) (fun _ c' => Einv c' /\ lstep c c' /\ packed c' = packed c /\
    (rw c - rr c <= n \/ closed c = true -> unread c' = []) /\
    consumed_next c (upto n (unread c)) c') c.
Proof.
  intros Hc. pose proof Hc as [[] Hp]. unfold ConsumeRead. destruct (Z.leb_spec n 0) as [Hn|Hn].
  { wp_steps. split; [done|]. split; [done|]. split; [done|].
    split; [|split; [done..|]; rewrite upto_neg by done; by rewrite app_nil_r].
    unfold unread. intros [Hle|Hcl].
    - destruct (closed c) eqn:Ho; [by rewrite bi_closed|].
      destruct bi_buf as [Hb _]; [done|]. destruct (rbuf c); [|done].
      rewrite slice_upto_from. unfold upto. replace (Z.to_nat (rw c - rr c)) with 0%nat by lia. done.
    - by rewrite bi_closed. }
  wp_steps. set (r := if rr c + n >? rw c then rw c else rr c + n).
  set (c1 := set_rr r (set_consumed (consumed c ++ from_option (slice (rr c) r) [] (rbuf c)) c)).
  assert (forall c2, c2 = c1 \/ (r = rw c /\ c2 = set_releaseReadBuf true c1) ->
    Einv c2 /\ lstep c c2 /\ packed c2 = packed c /\
    (rw c - rr c <= n \/ closed c = true -> unread c2 = []) /\
    consumed_next c (upto n (unread c)) c2) as Hall.
  { intros c2 Hc2.
    assert (unread c2 = match rbuf c with Some buf => slice r (rw c) buf | None => [] end) as Hu
      by (destruct Hc2 as [->|[_ ->]]; done).
    split; [|split; [|split; [|split]]].
    - assert (closed c = false -> buf_ok c2 /\ received c2 = consumed c2 ++ unread c2) as Hrd.
      { intros Ho. destruct bi_buf as [Hb Hrel]; [done|]. specialize (bi_stream Ho).
        rewrite Hu. unfold buf_ok, unread in *.
        destruct (rbuf c) as [buf|] eqn:Hbuf.
        - assert (rr c <= r <= rw c) as Hr by (unfold r; branch Hgt; lia).
          destruct Hc2 as [->|[Hrw ->]]; cbn; rewrite Hbuf; cbn.
          + split; [split; [lia|]|by rewrite bi_stream, <- app_assoc, slice_join by lia].
            intros Hr'. specialize (Hrel Hr'). lia.
          + split; [split; [lia|done]|]. by rewrite bi_stream, <- app_assoc, slice_join by lia.
        - assert (r = 0) as Hr0 by (unfold r; branch Hgt; lia).
          destruct Hc2 as [->|[Hrw ->]]; cbn; rewrite Hbuf; cbn;
            (split; [split; [lia|intros; lia]|by rewrite bi_stream, !app_nil_r]). }
      destruct Hc2 as [->|[_ ->]]; (split; [split; try done; intros Ho; by apply Hrd|done]).
    - destruct Hc2 as [->|[_ ->]]; done.
    - destruct Hc2 as [->|[_ ->]]; done.
    - rewrite Hu. intros [Hle|Hcl]; [|by rewrite bi_closed]. destruct (rbuf c); [|done].
      replace r with (rw c) by (unfold r; branch Hgt; lia).
      rewrite slice_upto_from, Z.sub_diag. done.
    - assert (closed c = false -> consumed c2 = consumed c ++ upto n (unread c)) as Hcons.
      { intros Ho. destruct bi_buf as [Hb _]; [done|]. unfold unread.
        replace (consumed c2) with (consumed c1) by (by destruct Hc2 as [->|[_ ->]]). cbn. f_equal.
        destruct (rbuf c) as [buf|]; cbn; [|by unfold upto; rewrite take_nil].
        unfold r. branch Hgt; [rewrite upto_all; [done|rewrite zlen_slice; lia]|].
        by rewrite upto_slice by lia. }
      destruct Hc2 as [->|[_ ->]]; by split. }
  change (rw c1) with (rw c). destruct (Z.eqb_spec r (rw c)) as [E|E]; cbn [negb]; wp_steps; apply Hall; auto.
Qed.

Lemma wp_dispatch (c : Conn) :
  Einv c -> closed c = false ->
  wp (dispatch_loop handler 2) (fun e c' => Einv c' /\ lstep c c' /\ packed c' = packed c /\
    (rel_ok c -> e = None -> rel_ok c')) c.
Proof.
  intros Hc Ho. cbn [dispatch_loop]. wp_steps. apply wp_ReadBuffer; [apply Hc|]. intros [Hlen|?]; [|congruence].
  destruct (Z.eqb_spec (zlen (unread c)) 0) as [Hz|Hz]; [by wp_steps|].
  assert (bytes_ok (unread c)) as Hbytes.
  { pose proof (bi_bytes _ _ (ei_base _ _ Hc)) as Hb. rewrite (bi_stream _ _ (ei_base _ _ Hc) Ho) in Hb.
    by apply bytes_ok_app in Hb as [_ ?]. }
  wp_steps. eapply wp_mono; [by apply wp_call_OnData|]. cbn. intros [n err] c1 (I1 & L1 & P1 & E1 & R1).
  cbn in *. destruct err as [e|]; [by wp_steps|]. destruct (Z.leb_spec n 0) as [Hn|Hn].
  { wp_steps. split; [done|]. split; [done|]. split; [done|]. intros Hr _ Ho1.
    destruct (E1 Ho1) as (_ & _ & _ & ->). specialize (R1 Hr Ho1 eq_refl).
    by rewrite upto_neg, app_nil_r in R1. }
  wp_steps. eapply wp_mono; [by apply wp_ConsumeRead|]. cbn. intros _ c2 (I2 & L2 & P2 & U2 & [N1 N2 N3 N4 N5]).
  assert (rel_ok c -> rel_ok c2) as R2.
  { intros Hr Ho2. rewrite N4 in Ho2. destruct (E1 Ho2) as (_ & _ & Hu & Hcs).
    rewrite N1, N2, N3, (N5 Ho2), Hcs, Hu. by apply R1. }
  assert (lstep c c2 /\ packed c2 = packed c) as [L3 P3] by (split; [by transitivity c1|congruence]).
  destruct (Z.ltb_spec n (zlen (unread c))) as [Hlt|Hge]; [by wp_steps; auto|]. wp_steps.
  apply wp_ReadBuffer; [apply I2|]. intros _. rewrite U2; [cbn; wp_steps; do 3 (split; [done|]); by auto|].
  destruct (closed c1) eqn:Hc1; [by right|]. left. destruct (E1 eq_refl) as (-> & -> & _ & _). lia.
Qed.

Lemma wp_readAndDispatch fuel (c : Conn) :
  Einv c -> closed c = false -> (2 * reads_left (world c) + 1 < fuel)%nat ->
  wp (readAndDispatch handler fuel) (fun e c' => Einv c' /\ lstep c c' /\ packed c' = packed c /\
    (rel_ok c -> e = None -> rel_ok c')) c.
Proof.
  intros Hc Ho Hf. unfold readAndDispatch. wp_steps. eapply wp_mono; [by eapply wp_Read|]. cbv beta.
  intros [n err] c1 (K & S & L & buf & R). wp_steps. injection K as _ Kp Kc _ Kh _ Kcs Kw _ Kk.
  eapply wp_mono; [apply wp_dispatch; [by eapply ri_inv|by eapply ri_open]|]. cbn.
  intros e c2 (I2 & L2 & P2 & R2).
  assert (rel_ok c -> rel_ok c1) as Hr1 by (unfold rel_ok; by rewrite Kh, Kcs, Kw, Kk, Kc).
  assert (lstep c c2) as L3.
  { transitivity c1; [|done]. split; [by rewrite Kc|done|done]. }
  destruct e; wp_steps; (split; [done|]); (split; [done|]); (split; [congruence|]); [done|auto].
Qed.

(** ** Opening *)

(** The flags of the packed word, when nothing is pending. *)
Record flags (p : Z) (busy act : bool) : Prop := {
  fl_busy : has_flag flagBusy p = busy;
  fl_act : has_flag flagActivated p = act;
  fl_read : has_flag flagPendingRead p = false;
  fl_write : has_flag flagPendingWrite p = false;
}.

Lemma flags_busy p b act v : flags p b act -> flags (put_flag flagBusy v p) v act.
Proof. intros []. split; [by rewrite has_put_flag|by rewrite has_put_other..]. Qed.
Lemma flags_act p b act v : flags p b act -> flags (put_flag flagActivated v p) b v.
Proof. intros []. split; [by rewrite has_put_other|by rewrite has_put_flag|by rewrite has_put_other..]. Qed.
Lemma flags_read p b act : flags p b act -> flags (put_flag flagPendingRead false p) b act.
Proof. intros []. split; [by rewrite has_put_other..|by rewrite has_put_flag|by rewrite has_put_other]. Qed.
Lemma flags_write p b act : flags p b act -> flags (put_flag flagPendingWrite false p) b act.
Proof. intros []. split; [by rewrite has_put_other..|by rewrite has_put_flag]. Qed.

(** Before and after the protocol was opened. *)
Definition fresh (c : Conn) : Prop :=
  closed c = false /\ calls c = [] /\ hstate c = h0 /\ Binv c /\ consumed c = [] /\ written c = [] /\ writeHookFn c = None.
Definition opened (act : bool) (c : Conn) : Prop :=
  Einv c /\ rel_ok c /\ (closed c = true \/ act = true).
Definition good (act : bool) (c : Conn) : Prop := (act = false /\ fresh c) \/ opened act c.

Lemma Binv_packed p (c : Conn) : Binv c -> Binv (set_packed p c).
Proof. by intros []. Qed.
Lemma Einv_packed p (c : Conn) : Einv c -> Einv (set_packed p c).
Proof. intros [? ?]. split; [by apply Binv_packed|done]. Qed.
Lemma lstep_packed p (c c' : Conn) : lstep c c' -> lstep c (set_packed p c').
Proof. intros [A1 A2 A3]. split; [exact A1|exact A2|exact A3]. Qed.

Lemma wp_activate process busy act (c : Conn) :
  flags (packed c) busy act -> good act c ->
  wp (activate_with handler process) (fun _ c' => exists act', flags (packed c') busy act' /\
    opened act' c' /\ lstep c c') c.
Proof.
  intros Hf Hg. unfold activate_with, IsClosed, isActivated. wp_steps. rewrite (fl_act _ _ _ Hf).
  destruct (closed c || act) eqn:Hca.
  { wp_steps. exists act. split; [done|]. split; [|done]. destruct Hg as [[-> (Ho & _)]|Ho]; [|done].
    by rewrite Ho in Hca. }
  apply orb_false_iff in Hca as [Ho ->].
  destruct Hg as [[_ (_ & Hcalls & Hh0 & Hb & Hcons & Hwr & Hk)]|(_ & _ & [?|?])]; [|congruence..].
  unfold tryBusy, fetch, put. wp_steps. rewrite (fl_busy _ _ _ Hf). unfold call_OnOpen, call. wp_steps.
  set (c1 := set_calls _ _).
  assert (Einv c1) as I1.
  { split; [destruct Hb; by split|]. cbn. by rewrite Ho, Hcalls. }
  assert (flags (packed c1) true false) as F1 by by eapply flags_busy.
  eapply wp_mono; [by apply (ho_open handler app_ok h0 Rel)|]. cbn. intros _ c2 (I2 & S2 & R2).
  assert (rel_ok c2) as R2' by (by apply R2). clear R2.
  assert (lstep c c2) as L2.
  { destruct (estep_lstep _ _ S2) as [A1 A2 A3]. split; [exact A1|exact A2|exact A3]. }
  rewrite <- (es_packed _ _ S2) in F1. destruct busy; cbn [negb].
  - unfold setActivated, put. wp_steps. destruct (F1) as [_ _ -> ->]. cbn. wp_steps. exists true.
    split; [exact (flags_act _ _ _ true F1)|]. split; [|by apply lstep_packed].
    split; [by apply Einv_packed|]. split; [done|by right].
  - unfold unbusy, setActivated, put. wp_steps. cbn [packed set_packed].
    pose proof (flags_busy _ _ _ false F1) as F2. destruct (F2) as [_ _ -> ->]. cbn. wp_steps. exists true.
    split; [exact (flags_act _ _ _ true F2)|]. split; [|by do 2 apply lstep_packed].
    split; [by do 2 apply Einv_packed|]. split; [done|by right].
Qed.
(** ** Events *)

(** A connection between two events. *)
Definition live (c : Conn) : Prop := exists act, flags (packed c) false act /\ good act c.

Lemma live_unbusy act busy (c0 c : Conn) :
  flags (packed c) busy act -> opened act c -> lstep c0 c ->
  wp unbusy (fun _ c' => live c' /\ lstep c0 c') c.
Proof.
  intros Hf (Hi & Hr & Hor) Hl. unfold unbusy, put. wp_steps. split; [|by apply lstep_packed].
  exists act. split; [by eapply flags_busy|]. right. split; [by apply Einv_packed|done].
Qed.

Lemma wp_close_unbusy err act busy (c0 c : Conn) :
  flags (packed c) busy act -> Einv c -> lstep c0 c ->
  wp (closeWith handler err ;; unbusy) (fun _ c' => live c' /\ lstep c0 c') c.
Proof.
  intros Hf Hi Hl. wp_steps. eapply wp_mono; [by apply (wp_closeWith handler app_ok)|]. cbv beta.
  intros _ c1 (I1 & S1 & C1). eapply (live_unbusy act busy); [by rewrite (es_packed _ _ S1)| |].
  - split; [done|]. split; [|by left]. intros ?. congruence.
  - transitivity c; [done|by apply estep_lstep].
Qed.

Lemma wp_processConn k isRead isWrite act (c : Conn) :
  flags (packed c) true act -> good act c -> (2 * reads_left (world c) + 1 < S k)%nat ->
  wp (processConn handler (S k) isRead isWrite) (fun _ c' => live c' /\ lstep c c') c.
Proof.
  intros Hf Hg Hk. cbn [processConn]. unfold IsClosed. wp_steps. destruct (closed c) eqn:Ho.
  { eapply live_unbusy; [done| |done]. destruct Hg as [[_ (? & _)]|?]; [congruence|done]. }
  wp_steps. eapply wp_mono; [by eapply wp_activate|]. cbv beta. intros _ c1 (act1 & F1 & O1 & L1).
  wp_steps. destruct (closed c1) eqn:Ho1; [by eapply live_unbusy|]. destruct O1 as (I1 & R1 & [?| ->]); [congruence|].
  unfold NeedFlush. wp_steps.
  eapply (wp_mono _ (fun e c2 => e = None /\ Einv c2 /\ rel_ok c2 /\ estep c1 c2 /\ closed c2 = false)).
  { branch Hw; [|by wp_steps]. unfold Flush, IsClosed. wp_steps. rewrite Ho1.
    eapply wp_mono; [apply eng_wp_flushLocked; [by apply I1|apply I1]|]. cbn. intros e c2 [-> Hfl].
    split; [done|]. destruct (wrote_inv _ _ _ _ I1 Ho1 (flushed_wrote _ _ Hfl)) as [I2 S2].
    split; [done|]. destruct Hfl as (l & s & w & -> & _). by split. }
  cbv beta. intros e c2 (-> & I2 & R2 & S2 & Ho2). wp_steps.
  assert (lstep c c2) as L2 by (transitivity c1; [done|by apply estep_lstep]).
  rewrite <- (es_packed _ _ S2) in F1.
  eapply (wp_mono _ (fun e c3 => Einv c3 /\ lstep c c3 /\ packed c3 = packed c2 /\ (e = None -> rel_ok c3))).
  { destruct isRead; [|by wp_steps]. pose proof (ls_left _ _ L2).
    eapply wp_mono; [apply wp_readAndDispatch; [done|done|lia]|]. cbv beta.
    intros e c3 (I3 & L3 & P3 & R3). split; [done|]. split; [by transitivity c2|]. by auto. }
  cbv beta. intros e c3 (I3 & L3 & P3 & R3). rewrite <- P3 in F1.
  destruct e as [e|]; [by eapply wp_close_unbusy|]. specialize (R3 eq_refl).
  unfold takePendingRead, takePendingWrite, fetch, put. wp_steps. rewrite (fl_read _ _ _ F1). cbn [packed set_packed].
  pose proof (flags_read _ _ _ F1) as F2. rewrite (fl_write _ _ _ F2). cbn [negb andb].
  eapply (live_unbusy true true).
  - exact (flags_write _ _ _ F2).
  - split; [by do 2 apply Einv_packed|]. split; [done|by right].
  - by do 2 apply lstep_packed.
Qed.

Lemma wp_on_event fuel polled ev (c : Conn) :
  live c -> (2 * reads_left (world c) + 1 < fuel)%nat ->
  wp (on_event handler fuel polled ev) (fun _ c' => live c' /\ lstep c c') c.
Proof.
  intros (act & Hf & Hg) Hfuel. unfold on_event. wp_steps.
  assert (wp (activate handler fuel) (fun _ c' => exists act', flags (packed c') false act' /\
    opened act' c' /\ lstep c c') c) as Hact by (by eapply wp_activate).
  assert (wp (mret ()) (fun _ c' => live c' /\ lstep c c') c) as Hnone.
  { wp_steps. split; [by exists act|done]. }
  destruct ev as [|again| |isRead isWrite].
  - eapply wp_mono; [exact Hact|]. cbv beta. intros _ c1 (act1 & F1 & O1 & L1).
    split; [|done]. exists act1. split; [done|by right].
  - done.
  - destruct (bool_decide _); cbn [negb]; [|done]. wp_steps. eapply wp_mono; [exact Hact|]. cbv beta.
    intros _ c1 (act1 & F1 & O1 & L1). unfold IsClosed. wp_steps. destruct (closed c1) eqn:Ho1.
    { wp_steps. split; [|done]. exists act1. split; [done|by right]. }
    wp_steps. pose proof (ls_left _ _ L1). eapply wp_mono; [apply wp_readAndDispatch; [apply O1|done|lia]|].
    cbv beta. intros e c2 (I2 & L2 & P2 & _). eapply wp_mono; [by apply (wp_closeWith handler app_ok)|].
    cbv beta. intros _ c3 (I3 & S3 & C3). split.
    + exists act1. split; [by rewrite (es_packed _ _ S3), P2|]. right. split; [done|].
      split; [|by left]. intros ?. congruence.
    + transitivity c1; [done|]. transitivity c2; [done|by apply estep_lstep].
  - destruct (bool_decide _); cbn [negb]; [|done]. unfold tryBusy, fetch, put. wp_steps.
    rewrite (fl_busy _ _ _ Hf). cbn [negb]. destruct fuel as [|k]; [lia|].
    eapply wp_mono; [apply (wp_processConn k isRead isWrite act)|].
    + by eapply flags_busy.
    + destruct Hg as [[-> (G1 & G2 & G0 & G3 & G4)]|(G1 & G2 & G3)].
      * left. do 4 (split; [done|]). by split; [apply Binv_packed|].
      * right. split; [by apply Einv_packed|done].
    + cbn. lia.
    + cbv beta. intros _ c1 [L1 [A1 A2 A3]]. split; [done|]. by split.
Qed.

Lemma eng_wp_run_events evs : forall fuel polled (c : Conn),
  live c -> (2 * reads_left (world c) + 1 < fuel)%nat ->
  wp (run_events handler fuel polled evs) (fun _ c' => live c' /\ lstep c c') c.
Proof.
  induction evs as [|ev evs IH]; intros fuel polled c Hc Hf; cbn [run_events]; [by wp_steps|].
  wp_steps. eapply wp_mono; [by apply wp_on_event|]. cbv beta. intros _ c1 [L1 S1].
  pose proof (ls_left _ _ S1). eapply wp_mono; [apply IH; [done|lia]|]. cbv beta.
  intros _ c2 [L2 S2]. split; [done|by transitivity c1].
Qed.

(** ** A served connection *)

Lemma eng_wp_outside {A} (f : World -> A * World) Q (c : Conn) :
  (forall a w, f (world c) = (a, w) -> Q a (set_world w c)) -> wp (outside f) Q c.
Proof. intros HQ. unfold wp, outside. destruct (f (world c)) as [a w] eqn:E. by apply HQ. Qed.

(** [MultiEventLoop.Add] on a new connection object, then events. *)
Definition serve (nfd : Z) (fuel : nat) (evs : list poll_event) : go unit :=
  err ← Add nfd;
  match err with Some _ => mret tt | None => run_events handler fuel nfd evs end.

Lemma wp_serve nfd fuel evs w :
  app_ok h0 -> unbroken nfd w -> (2 * reads_left w + 1 < fuel)%nat ->
  wp (serve nfd fuel evs) (fun _ c' => live c' /\ stream c' = incoming w) (blank w h0).
Proof.
  intros Ha Hu Hf. pose proof (poll_AddRead_view nfd w) as Hv.
  assert (forall c : Conn, packed c = 0 -> closed c = false -> calls c = [] -> wbufList c = [] ->
    written c = [] -> sent c = [] -> closeOnce c = false -> rbuf c = None -> rr c = 0 -> rw c = 0 ->
    received c = [] -> consumed c = [] -> hstate c = h0 -> writeHookFn c = None -> releaseReadBuf c = false ->
    unbroken (fd c) (world c) -> live c) as Hlive.
  { intros c E1 E2 E3 E4 E5 E6 E7 E8 E9 E10 E11 E12 E13 E14 E15 E16. exists false. rewrite E1.
    split; [done|]. left. do 4 (split; [done|]). split; [|done].
    split; [by rewrite E4| |by rewrite E2, E7| | |by rewrite E2| |by rewrite E13|done].
    - exists []. unfold waiting. by rewrite E5, E6, E4.
    - intros _. unfold buf_ok. by rewrite E8, E15.
    - intros _. unfold unread. by rewrite E11, E12, E8.
    - rewrite E11. apply bytes_ok_nil. }
  unfold serve, Add, Init, AddRead. wp_steps. apply eng_wp_outside. cbn. intros [e|] w' Hadd; wp_steps;
    rewrite Hadd in Hv; injection Hv as Hin Hleft;
    assert (unbroken nfd w') as Hu'
      by (pose proof (ks_AddRead nfd w) as Hk; rewrite Hadd in Hk; by eapply unbroken_rtc; [apply rtc_once, Hk|]).
  - split; [by apply Hlive|]. exact Hin.
  - eapply wp_mono; [apply eng_wp_run_events; [by apply Hlive|cbn; lia]|]. cbv beta.
    intros _ c2 [L2 S2]. split; [done|]. rewrite (ls_stream _ _ S2). exact Hin.
Qed.
End Events.
