(* ===== verification/EngServe.v ===== *)
(** * EngServe

    Concrete instances of the interfaces of the [engine] model: the kernel of
    [Sock], and a protocol that sends back what it gets; the witnesses run on
    them.  Then what a protocol on the [engine] may rely on, for every sequence
    of events, every way the kernel cuts the input and takes the output, and the
    fuel bound that shows that every callback returns. *)

From S2P Require Import Prelude Sock EngConn EngLoop EngEvents.

#[export] Instance plain_eng : EngLib := {|
  World := plain_world;
  UserData := unit;
  HookId := Empty_set;
  ProtoError := string;
  GetBytes n := if n <=? 0 then 0 else (n + 1023) / 1024 * 1024;
  sys_read _ := plain_read;
  sys_write _ := plain_write;
  sys_close _ w := w;
  poll_AddRead _ w := (None, w);
  poll_DelRead _ w := (None, w);
  poll_ResetRead _ w := (None, w);
|}.

#[export] Instance plain_eng_laws : EngLaws.
Proof.
  refine {| incoming := plain_incoming : World -> bytes; reads_left := plain_left : World -> nat |};
    try done.
  - intros n Hn. cbn. destruct (Z.leb_spec n 0); [lia|]. zarith.
  - intros fd. exact plain_read_spec.
  - intros fd p w n w'. cbn. unfold plain_write. destruct (pw_room w) as [|k l]; [done|].
    intros [= <- _]. pose proof (zlen_nonneg p). lia.
  - intros fd p w. cbn. unfold plain_write. by destruct (pw_room w).
Defined.

(** The peer of [Sock] does not go away. *)
Lemma plain_unbroken fd w : unbroken (H := plain_eng) fd w.
Proof. apply unbroken_always. intros p w' e. cbn. unfold plain_write. destruct (pw_room w'); [by intros [= <-]|done]. Qed.

Definition no_hook {App} (h : HookId) : bytes -> M (Conn App) (option eerror) :=
  match h : Empty_set with end.

#[export] Instance no_hook_ok {App} (app_ok : App -> Prop) : HookOk no_hook app_ok.
Proof. by intros []. Qed.

(** Echo: takes all it gets and writes it. *)
Definition echo : Handler unit := {|
  OnOpen := mret tt;
  OnData buf := e ← Write no_hook buf; mret (zlen buf, e);
  OnClose _ := mret tt;
|}.

(** What was taken is what was written. *)
Definition echoed (_ : unit) (taken given : bytes) (_ : option HookId) : Prop := given = taken.

#[export] Instance echo_ok : HandlerOk (Some echo) (fun _ => True) tt echoed.
Proof.
  split.
  - intros err c Hc. by apply wp_ret.
  - intros c Hc. cbn. apply wp_ret. split; [done|]. split; [done|].
    intros _ _ E1 E2 _. unfold rel_ok, echoed. by rewrite E1, E2.
  - intros buf c Hc Hb. cbn. apply wp_bind.
    destruct (closed c) eqn:Ho.
    { unfold Write, IsClosed. wp_steps. rewrite Ho. by wp_steps. }
    unfold Write, IsClosed, writeHook. wp_steps. rewrite Ho. branch Hz.
    { wp_steps. split; [done|]. split; [done|]. intros _ Hr _ _. cbn in *. unfold echoed in *.
      apply Z.eqb_eq, zlen_zero in Hz as ->. rewrite app_nil_r. by apply Hr. }
    wp_steps. destruct (writeHookFn c) as [[]|].
    eapply wp_mono; [apply wp_write_locked; [by apply Hc|apply Hc]|]. cbn. intros e c1 [-> Hw].
    wp_steps. destruct (wrote_inv _ _ _ _ Hc Ho Hw) as [I1 S1]. split; [done|]. split; [done|].
    intros _ Hr _ _. cbn. unfold echoed. destruct Hw as (l & s & w & -> & _). cbn.
    rewrite (Hr Ho). by rewrite upto_all by done.
Qed.

Section Serve.
Context `{EngLib} `{!EngLaws} {App : Type}.
Notation Conn := (Conn App).
Context (run_hook : HookId -> bytes -> M Conn (option eerror)).
Context (handler : option (Handler App)) (app_ok : App -> Prop).
Context (a : App) (Rel : App -> bytes -> bytes -> option HookId -> Prop).

(** The phase of the protocol, as far as the state of the connection tells. *)
Definition phase_fits (c : Conn) (p : phase) : Prop :=
  (closed c = true -> p = PClosed) /\ (closed c = false -> p <> PClosed).

Lemma live_phase (c : Conn) :
  live app_ok a Rel c -> exists p, phase_of (calls c) = Some p /\ phase_fits c p.
Proof.
  intros (act & _ & [[_ (Ho & Hc & _)]|([_ Hp] & _)]).
  - exists PNew. rewrite Hc. split; [done|]. split; [congruence|done].
  - eexists. split; [exact Hp|]. unfold phase_fits. by destruct (closed c).
Qed.

Lemma live_Binv (c : Conn) : live app_ok a Rel c -> Binv app_ok c.
Proof. by intros (act & _ & [[_ (_ & _ & _ & ? & _)]|([? _] & _)]). Qed.

Lemma live_rel (c : Conn) :
  live app_ok a Rel c -> closed c = false -> calls c <> [] ->
  Rel (hstate c) (consumed c) (written c) (writeHookFn c).
Proof. by intros (act & _ & [[_ (_ & ? & _)]|(_ & Hr & _)]) Ho; [|intros _; by apply Hr]. Qed.

(** C17: As long as no write of the socket fails for good ([unbroken]): whatever
    events the poller reports for a connection and however the kernel cuts its
    bytes, [Add] followed by these events returns without a panic; the protocol is called in the order [OnOpen], then [OnData] any
    number of times, then [OnClose] once, and [OnClose] has been called exactly
    when the connection is closed.  (A write that fails for good can panic the
    loop: [EngFindings.failed_flush_then_close_panics].) *)
Theorem events_call_in_order nfd fuel evs w :
  unbroken nfd w -> HookOk run_hook app_ok -> HandlerOk handler app_ok a Rel ->
  app_ok a -> (2 * reads_left w + 1 < fuel)%nat ->
  wp (serve handler nfd fuel evs)
     (fun _ c' => exists p, phase_of (calls c') = Some p /\ phase_fits c' p) (blank w a).
Proof.
  intros Hs Hh Ho Ha Hf. eapply wp_mono; [by eapply wp_serve|]. cbn. intros _ c' [L _].
  by apply live_phase.
Qed.

(** C15: As long as no write of the socket fails for good ([unbroken]), a
    connection of the engine is a byte stream in both directions.  At any time
    the bytes read and those still in the socket are the bytes of the peer, and
    the socket took a prefix of the bytes written.  While it is open, the bytes the protocol has taken, the unread ones and
    those still in the socket are the bytes of the peer in order, none lost or
    repeated, and the bytes the socket took followed by those that wait are the
    bytes written, in order, and once the protocol was opened its own relation
    between what it took and what it wrote holds. *)
Theorem engine_is_a_stream nfd fuel evs w :
  unbroken nfd w -> HookOk run_hook app_ok -> HandlerOk handler app_ok a Rel ->
  app_ok a -> (2 * reads_left w + 1 < fuel)%nat ->
  wp (serve handler nfd fuel evs)
     (fun _ c' =>
        received c' ++ incoming (world c') = incoming w /\
        (exists rest, written c' = sent c' ++ waiting c' ++ rest /\ (closed c' = false -> rest = [])) /\
        (closed c' = false -> received c' = consumed c' ++ unread c' /\
           (calls c' <> [] -> Rel (hstate c') (consumed c') (written c') (writeHookFn c'))))
     (blank w a).
Proof.
  intros Hs Hh Ho Ha Hf. eapply wp_mono; [by eapply wp_serve|]. cbn. intros _ c' [L S].
  pose proof (live_Binv _ L) as Hb. split; [exact S|]. split; [apply Hb|].
  intros Hop. split; [by apply Hb|]. intros Hc. by apply live_rel.
Qed.
End Serve.

(** ** Witnesses *)

Definition echo_world : World (EngLib := plain_eng) :=
  mkWorld [[1; 2; 3]; [4; 5]; [6]; []] [2; 100].

Definition echo_events : list poll_event :=
  [PollReady true false; RunTask; PollReady true true; PollReady true true].

Lemma echo_fuel : (2 * reads_left echo_world + 1 < 30)%nat.
Proof. vm_compute. lia. Qed.

Lemma events_call_in_order_witness :
  wp (serve (H := plain_eng) (Some echo) 7 30 echo_events)
     (fun _ c' => exists p, phase_of (calls c') = Some p /\ phase_fits c' p) (blank echo_world tt).
Proof.
  apply (events_call_in_order no_hook (Some echo) (fun _ => True) tt echoed).
  - apply plain_unbroken.
  - exact (no_hook_ok _).
  - exact echo_ok.
  - done.
  - exact echo_fuel.
Defined.

Lemma engine_is_a_stream_witness :
  wp (serve (H := plain_eng) (Some echo) 7 30 echo_events)
     (fun _ c' =>
        received c' ++ incoming (world c') = incoming echo_world /\
        (exists rest, written c' = sent c' ++ waiting c' ++ rest /\ (closed c' = false -> rest = [])) /\
        (closed c' = false -> received c' = consumed c' ++ unread c' /\
           (calls c' <> [] -> echoed (hstate c') (consumed c') (written c') (writeHookFn c'))))
     (blank echo_world tt).
Proof.
  apply (engine_is_a_stream no_hook (Some echo) (fun _ => True) tt echoed).
  - apply plain_unbroken.
  - exact (no_hook_ok _).
  - exact echo_ok.
  - done.
  - exact echo_fuel.
Defined.
