(* ===== verification/H2Stack.v ===== *)
(** * H2Stack

    The whole stack: the event loop of [engine], the adapter [ConnHandler] and
    an HTTP/2 connection with its stream handler. *)

From S2P Require Import Prelude Pump Sock EngConn EngLoop EngEvents EngServe.
From S2P Require Import H2Frame H2Headers H2State H2Recv H2Safe H2Conn H2Feed H2Engine.

Section Feed.
Context `{Hpack} {U : Type} `{!AppInv U} (handler : option (StreamHandler U)) `{!H2Safe.HandlerOk handler}.
Notation Conn := (H2State.Conn U).

(** Only the bytes that [Feed] reports as consumed matter to it. *)
Lemma Feed_prefix buf (s : Conn) n out s' :
  bytes_ok buf -> ready s -> Feed handler buf s = Some ((n, out, None), s') ->
  Feed handler (upto n buf) s = Some ((n, out, None), s') /\ zlen (upto n buf) = n.
Proof.
  intros Hb Hr Hf. pose proof (wp_Feed handler buf s Hb Hr) as Hw. unfold wp in Hw. rewrite Hf in Hw.
  destruct Hw as (_ & _ & Hn). cbn in Hn.
  assert (zlen (upto n buf) = n) as Hz by (rewrite zlen_upto by lia; lia). split; [|done].
  assert (n = zlen buf -> Feed handler (upto n buf) s = Some ((n, out, None), s')) as Hall.
  { intros ->. by rewrite upto_all by lia. }
  revert Hf. unfold Feed at 1. unfold get. cbv [mbind M_bind mret M_ret].
  destruct (bool_decide (state s = statePreface)) eqn:Hst.
  - intros Hf. apply Hall. revert Hf. cbv [modify gets].
    repeat case_match; simplify_eq; intros; by simplify_eq.
  - destruct (Parse (onFrame handler) buf s) as [[[m [e|]] s1]|] eqn:Hp; [|..|done].
    { by destruct (handleError _ _) as [[? ?]|]. }
    pose proof (wp_Parse_onFrame handler buf s (proj1 Hr) Hb) as Hm. unfold wp in Hm. rewrite Hp in Hm.
    destruct Hm as [_ Hm]. cbn in Hm. replace (m >? zlen buf) with false by lia.
    destruct (takeOutput s1) as [[o s2]|] eqn:Ho; [|done]. intros [= -> -> ->].
    unfold Feed, get. cbv [mbind M_bind mret M_ret]. rewrite Hst.
    assert (Parse (onFrame handler) (upto n buf) s = Some ((n, None), s1)) as ->.
    { apply Parse_prefix; [|done|done]. intros f s0 e s3 Hf. cbn.
      by rewrite (keeps_onFrame handler f _ _ _ Hf). }
    rewrite Hz, Z.gtb_ltb, Z.ltb_irrefl. by rewrite Ho.
Qed.

(** Every chunk was consumed whole, without an error. *)
Definition all_fed (chunks : list bytes) (rs : list (Z * bytes * option Error)) : Prop :=
  Forall2 (fun b r => fst (fst r) = zlen b /\ snd r = None) chunks rs.
Definition outputs (rs : list (Z * bytes * option Error)) : bytes :=
  concat ((fun r => snd (fst r)) <$> rs).

Lemma feed_all_snoc chunks b : forall (s : Conn),
  feed_all handler (chunks ++ [b]) s =
    match feed_all handler chunks s with
    | Some (rs, s1) => match Feed handler b s1 with Some (r, s2) => Some (rs ++ [r], s2) | None => None end
    | None => None
    end.
Proof.
  induction chunks as [|x chunks IH]; intros s; cbn [feed_all Datatypes.app]; cbv [mbind M_bind mret M_ret].
  - by destruct (Feed handler b s) as [[r s2]|].
  - destruct (Feed handler x s) as [[r s1]|]; [|done]. rewrite IH.
    destruct (feed_all handler chunks s1) as [[rs s2]|]; [|done].
    by destruct (Feed handler b s2) as [[r' s3]|].
Qed.
End Feed.

Section Stack.
Context `{EngLib} `{!EngLaws} `{Hpack} {U : Type} `{!AppInv U}.
Notation EConn := (EngConn.Conn (ConnHandler U)).
Context (proto : Error -> ProtoError).
Context (run_hook : HookId -> bytes -> M EConn (option eerror)).
Context (handler : option (StreamHandler U)) `{!H2Safe.HandlerOk handler} (isClient : bool) (u : U).

(** What the adapter keeps true of itself. *)
Definition adapter_ok (ch : ConnHandler U) : Prop :=
  match ch_conn ch with Some s => ready s | None => True end /\ app_ok (ch_user ch).
Notation Einv := (Einv adapter_ok).
Context `{!HookOk run_hook adapter_ok} (hook_keeps : forall h data, keeps hstate (run_hook h data)).

(** The connection is the opened one after [Feed] on pieces of what was taken;
    what was written is its opening and the outputs. *)
Definition fed (ch : ConnHandler U) (taken given : bytes) (hook : option HookId) : Prop :=
  hook = None /\ ch_user ch = u /\
  exists s0 s opn chunks rs, opening isClient u = Some (opn, s0) /\ ch_conn ch = Some s /\
    feed_all handler chunks s0 = Some (rs, s) /\ all_fed chunks rs /\
    concat chunks = taken /\ given = opn ++ outputs rs.

Lemma wp_on_conn {A} (m : M (H2State.Conn U) A) s (P : A -> H2State.Conn U -> Prop) Q (c : EConn) :
  ch_conn (hstate c) = Some s -> wp m P s ->
  (forall a s', m s = Some (a, s') -> P a s' ->
     Q a (set_hstate (mkConnHandler _ _ (Some s') (ch_user (hstate c))) c)) ->
  wp (on_conn m) Q c.
Proof.
  intros Hs Hm HQ. unfold on_conn. wp_steps. rewrite Hs.
  destruct (wp_elim _ _ _ Hm) as (a & s' & E & HP). rewrite E. wp_steps. by apply HQ.
Qed.

(** Writing what a method of the connection put out. *)
Lemma wp_write_out out (c : EConn) :
  Einv c ->
  wp (if 0 <? zlen out then EngConn.Write run_hook out else mret None)
     (fun e c' => Einv c' /\ estep c c' /\ hstate c' = hstate c /\
        (closed c = false -> writeHookFn c = None ->
         writeHookFn c' = None /\ written c' = written c ++ out)) c.
Proof.
  intros Hc. destruct (Z.ltb_spec 0 (zlen out)) as [Hpos|Hz].
  - eapply wp_mono; [by apply (wp_Write run_hook adapter_ok)|]. cbn. intros e c' (I1 & S1 & E1 & W1).
    split; [done|]. split; [done|]. split; [done|]. intros Ho Hk. by destruct (W1 Ho Hk) as (_ & _ & -> & ->).
  - wp_steps. split; [done|]. split; [done|]. split; [done|]. intros _ Hk. split; [done|].
    assert (out = []) as -> by (apply zlen_zero; pose proof (zlen_nonneg out); lia). by rewrite app_nil_r.
Qed.

Lemma ready_opening (v : U) :
  app_ok v -> wp (send_opening isClient) (fun _ s => ready s) (NewConn isClient v).
Proof.
  intros Hu. destruct isClient; cbn; unfold sendPreface, sendServerSettings, WriteRaw, writeFrame,
    writeFrameLocked; wp_steps; (split; [|cbn; intros _; constructor]);
    (split; try done; unfold in_int32, good_window, defaultMaxFrameSize, MaxFrameSize; vm_compute; try done; lia).
Qed.

Lemma ready_output (s : H2State.Conn U) : ready s -> wp takeOutput (fun _ s' => ready s') s.
Proof.
  intros [Hi Hp]. unfold takeOutput. wp_steps. branch Hz; wp_steps; [done|]. split; [|done].
  destruct Hi. by split.
Qed.

Lemma wp_OnOpen (c : EConn) :
  Einv c ->
  wp (ConnHandler_OnOpen run_hook isClient) (fun _ c' => Einv c' /\ estep c c' /\
    is_Some (ch_conn (hstate c')) /\
    (closed c = false -> hstate c = NewConnHandler u -> consumed c = [] -> written c = [] ->
     writeHookFn c = None -> rel_ok fed c')) c.
Proof.
  intros Hc. pose proof (bi_app _ _ (ei_base _ _ Hc)) as [_ Hu]. unfold ConnHandler_OnOpen. wp_steps.
  set (c1 := set_hstate _ c). eapply (wp_on_conn _ (NewConn isClient (ch_user (hstate c))));
    [done|by apply ready_opening|].
  intros [] s1 E1 R1. cbn. unfold flush. wp_steps.
  eapply (wp_on_conn _ s1); [done|by apply ready_output|]. cbn. intros out s2 E2 R2.
  set (c2 := set_hstate _ _).
  destruct (Einv_set_hstate adapter_ok (mkConnHandler _ _ (Some s2) (ch_user (hstate c))) c Hc) as [I2 S2]; [done|].
  assert (opening isClient (ch_user (hstate c)) = Some (out, s2)) as Hop.
  { unfold opening, mbind, M_bind. by rewrite E1. }
  eapply (wp_mono _ (fun _ c' => Einv c' /\ estep c2 c' /\ hstate c' = hstate c2 /\
    (closed c2 = false -> writeHookFn c2 = None -> writeHookFn c' = None /\ written c' = written c2 ++ out))).
  - pose proof (wp_write_out out c2 I2) as Hw. destruct (0 <? zlen out).
    + wp_steps. eapply wp_mono; [exact Hw|]. cbn. intros e c' ?. by apply wp_ret.
    + exact Hw.
  - cbn. intros _ c3 (I3 & S3 & H3 & W3). split; [done|]. split; [by transitivity c2|].
    rewrite H3. split; [by eexists|]. intros Ho Hh Hcs Hwr Hk Ho3. destruct (W3 Ho Hk) as [-> ->].
    pose proof (es_open _ _ S3 Ho3) as [= _ _ _ _ -> _]. rewrite H3. split; [done|]. rewrite Hh in Hop. split; [by rewrite Hh|].
    exists s2, s2, out, [], []. split; [done|]. split; [done|]. split; [done|]. split; [constructor|].
    split; [done|]. cbn. by rewrite Hwr, app_nil_r.
Qed.

Lemma fed_more ch c0 given buf n out s s' :
  bytes_ok buf -> fed ch c0 given None -> ch_conn ch = Some s -> ready s ->
  Feed handler buf s = Some ((n, out, None), s') ->
  fed (mkConnHandler _ _ (Some s') (ch_user ch)) (c0 ++ upto n buf) (given ++ out) None.
Proof.
  intros Hb (_ & Hu & s0 & s1 & opn & chunks & rs & Hop & Hs1 & Hfeed & Hall & <- & ->) Hs Hr Hf.
  rewrite Hs in Hs1. injection Hs1 as <-. destruct (Feed_prefix _ _ _ _ _ _ Hb Hr Hf) as [Hp Hz].
  split; [done|]. split; [done|]. exists s0, s', opn, (chunks ++ [upto n buf]), (rs ++ [(n, out, None)]).
  split; [done|]. split; [done|]. split; [by rewrite feed_all_snoc, Hfeed, Hp|]. split.
  - apply Forall2_app; [done|]. constructor; [by rewrite Hz|constructor].
  - unfold outputs. rewrite concat_app, fmap_app, concat_app. cbn. by rewrite !app_nil_r, app_assoc.
Qed.

#[export] Instance http2_ok : EngLoop.HandlerOk (Some (http2 proto run_hook handler isClient)) adapter_ok (NewConnHandler u) fed.
Proof.
  split.
  - intros err c Hc. cbn. unfold ConnHandler_OnClose. wp_steps. apply Einv_set_hstate; [done|].
    pose proof (bi_app _ _ (ei_base _ _ Hc)) as [Hs Hu]. split; [done|]. cbn.
    destruct (ch_conn (hstate c)) as [s|]; [|done]. cbn. by destruct Hs as [[] _].
  - intros c Hc. eapply wp_mono; [by apply wp_OnOpen|]. cbn. tauto.
  - intros buf c Hc Hb. cbn. unfold ConnHandler_OnData. wp_steps.
    eapply (wp_mono _ (fun _ c1 => Einv c1 /\ estep c c1 /\ is_Some (ch_conn (hstate c1)) /\
      (closed c = false -> rel_ok fed c -> c1 = c))).
    { destruct (ch_conn (hstate c)) as [s|] eqn:Hs.
      - wp_steps. rewrite Hs. by eauto.
      - eapply wp_mono; [by apply wp_OnOpen|]. cbn. intros _ c1 (I1 & S1 & C1 & _).
        split; [done|]. split; [done|]. split; [done|]. intros Ho Hr.
        destruct (Hr Ho) as (_ & _ & _ & s & _ & _ & _ & _ & Hs' & _). congruence. }
    cbv beta. intros _ c1 (I1 & S1 & [s Hs] & Hsame). wp_steps.
    pose proof (bi_app _ _ (ei_base _ _ I1)) as [Hrs Hu]. rewrite Hs in Hrs.
    eapply (wp_on_conn _ s); [done|by apply wp_Feed|]. cbn. intros [[n out] err] s' Hf (Hr' & _ & Hn). cbn in Hn.
    wp_steps. set (c2 := set_hstate _ _).
    destruct (Einv_set_hstate adapter_ok (mkConnHandler _ _ (Some s') (ch_user (hstate c1))) c1 I1) as [I2 S2]; [done|].
    fold c2 in I2, S2. eapply wp_mono; [by apply wp_write_out|]. cbv beta. intros werr c3 (I3 & S3 & H3 & W3).
    assert (estep c c3) as S03 by (transitivity c1; [done|by transitivity c2]).
    destruct werr as [e|]; [by wp_steps|]. destruct err as [e|]; [by wp_steps|]. wp_steps.
    split; [done|]. split; [done|]. cbn. intros Ho Hr Ho3 _. pose proof (Hsame Ho Hr) as ->.
    pose proof (Hr Ho) as Hfed.
    assert (writeHookFn c = None) as Hk by apply Hfed. destruct (W3 Ho Hk) as [-> ->]. rewrite H3.
    rewrite Hk in Hfed. by eapply fed_more.
Qed.

Lemma wp_stack nfd fuel evs w :
  app_ok u -> unbroken nfd w -> (2 * reads_left w + 1 < fuel)%nat ->
  wp (serve (Some (http2 proto run_hook handler isClient)) nfd fuel evs)
     (fun _ c' => live adapter_ok (NewConnHandler u) fed c' /\ EngEvents.stream c' = incoming w)
     (blank w (NewConnHandler u)).
Proof. intros Hu Hw Hf. eapply wp_serve; [apply _|by split|done|done]. Qed.
End Stack.

(** C9: As long as no write of the socket fails for good ([unbroken]), an HTTP/2
    connection served by the event loop is [http2.Conn.Feed] on pieces of the
    byte stream: for every sequence of events, every way the
    kernel cuts the input and takes the output and every stream handler that
    keeps its contract, the callbacks return without a panic, and while the
    connection is open its state is what [Feed] makes of some pieces of the
    bytes received, each consumed whole, the unread bytes come after them, and
    the bytes sent and waiting are the opening of the connection followed by
    the outputs of [Feed] in order. *)
Theorem stack_refines_Feed `{EngLib} `{!EngLaws} `{Hpack} {U : Type} `{!AppInv U}
    (proto : Error -> ProtoError) (run_hook : HookId -> bytes -> M (EngConn.Conn (ConnHandler U)) (option eerror))
    (handler : option (StreamHandler U)) (isClient : bool) (u : U) nfd fuel evs w :
  unbroken nfd w -> HookOk run_hook adapter_ok -> (forall h data, keeps hstate (run_hook h data)) ->
  H2Safe.HandlerOk handler -> app_ok u -> (2 * reads_left w + 1 < fuel)%nat ->
  wp (serve (Some (http2 proto run_hook handler isClient)) nfd fuel evs)
     (fun _ c' => closed c' = false -> calls c' <> [] ->
        exists s0 s opn chunks rs,
          opening isClient u = Some (opn, s0) /\ ch_conn (hstate c') = Some s /\
          feed_all handler chunks s0 = Some (rs, s) /\ all_fed chunks rs /\ ready s /\
          received c' = concat chunks ++ unread c' /\
          received c' ++ incoming (EngConn.world c') = incoming w /\
          sent c' ++ waiting c' = opn ++ outputs rs)
     (blank w (NewConnHandler u)).
Proof.
  intros Hunbroken Hhook Hkeeps Hh Hu Hf.
  eapply wp_mono; [by eapply (wp_stack proto run_hook handler isClient u)|]. cbv beta.
  intros _ c' [L S] Ho Hc. pose proof (live_Binv _ _ _ _ L) as Hb.
  destruct (live_rel _ _ _ _ L Ho Hc) as (_ & _ & s0 & s & opn & chunks & rs & H1' & H2' & H3 & H4 & H5 & H6).
  exists s0, s, opn, chunks, rs. do 4 (split; [done|]). split; [|split; [|split]].
  - pose proof (bi_app _ _ Hb) as [Hr _]. by rewrite H2' in Hr.
  - by rewrite H5, (bi_stream _ _ Hb Ho).
  - exact S.
  - destruct (bi_wire _ _ Hb) as (rest & Hw & Hrest). rewrite (Hrest Ho), app_nil_r in Hw. by rewrite <- Hw.
Qed.

(** ** A run *)

Definition plain_proto (e : Error) : ProtoError (EngLib := plain_eng) := fst (snd (asConnError e), tt).

Definition stack_world : World (EngLib := plain_eng) :=
  mkWorld [upto 20 clientPreface; from 20 clientPreface ++ AppendSettings [] [(4, 70000)]; demo_headers]
          [10; 1000; 1000; 1000].

Definition stack_events : list poll_event := [RunTask; PollReady true false; PollReady true true].

Definition demo_stack : M (EngConn.Conn (H := plain_eng) (ConnHandler (list event))) unit :=
  serve (Some (http2 plain_proto no_hook (Some H2Feed.echo) false)) 5 400 stack_events.

(** The request arrives and is answered. *)
Example demo_stack_runs :
  match demo_stack (blank stack_world (NewConnHandler [])) with
  | Some (_, c) => (closed c, H2State.app <$> ch_conn (hstate c), zlen (calls c), bool_decide (waiting c = []))
  | None => (true, None, 0, true)
  end = (false, Some [EvHeaders 1 demo_request false], 2, true).
Proof. vm_compute. reflexivity. Qed.

Lemma stack_refines_Feed_witness :
  wp demo_stack
     (fun _ c' => closed c' = false -> calls c' <> [] ->
        exists s0 s opn chunks rs,
          opening false ([] : list event) = Some (opn, s0) /\ ch_conn (hstate c') = Some s /\
          feed_all (Some H2Feed.echo) chunks s0 = Some (rs, s) /\ all_fed chunks rs /\ ready s /\
          received c' = concat chunks ++ unread c' /\
          received c' ++ incoming (EngConn.world c') = incoming stack_world /\
          sent c' ++ waiting c' = opn ++ outputs rs)
     (blank stack_world (NewConnHandler [])).
Proof.
  apply (stack_refines_Feed plain_proto no_hook (Some H2Feed.echo) false []).
  - apply plain_unbroken.
  - exact (no_hook_ok _).
  - intros [].
  - exact H2Feed.echo_ok.
  - exact I.
  - vm_compute. lia.
Defined.
