(* ===== verification/EngFindings.v ===== *)
(** * EngFindings

    Behaviours of [engine] and of the HTTP/2 adapter that their comments do not
    lead one to expect, each proved or evaluated on a concrete input. *)

From S2P Require Import Prelude Pump Sock EngConn EngLoop EngEvents EngServe.
From S2P Require Import H2Frame H2Headers H2State H2Recv H2Safe H2Conn H2Feed H2Engine H2Stack.

(** [closeWith] clears the descriptor before [del] reads it, so the connection
    stays in the table and is counted for ever. *)
Lemma closed_stays_registered :
  match serve (Some EngServe.echo) 7 30 [PollReady true false; PollEOF] (blank echo_world tt) with
  | Some (_, c) => (closed c, bool_decide (7 ∈ conns c), curConn c)
  | None => (false, false, 0)
  end = (true, true, 1).
Proof. vm_compute. reflexivity. Qed.

(** The end of the peer's data, read together with the last bytes, is not
    reported: [Read] keeps the end back because there are unread bytes, the
    protocol takes them, and nothing reads again. *)
Lemma end_of_input_lost :
  match serve (Some EngServe.echo) 7 30 [PollReady true true] (blank (mkWorld [[1; 2]; []] [9]) tt) with
  | Some (_, c) => (closed c, consumed c, incoming (EngConn.world c), pw_in (EngConn.world c))
  | None => (true, [], [], [])
  end = (false, [1; 2], [], []).
Proof. vm_compute. reflexivity. Qed.

(** A kernel whose writes fail for good once it has nothing planned. *)
Definition failing_write (p : bytes) (w : plain_world) : (Z + errno) * plain_world :=
  match pw_room w with
  | [] => (inr (Eother "EPIPE"), w)
  | n :: l => if n <? 0 then (inr EAGAIN, mkWorld (pw_in w) l)
              else (inl (Z.min (zlen p) n), mkWorld (pw_in w) l)
  end.

Definition failing_eng : EngLib := {|
  World := plain_world;
  UserData := unit;
  HookId := Empty_set;
  ProtoError := string;
  GetBytes n := n;
  sys_read _ := plain_read;
  sys_write _ := failing_write;
  sys_close _ w := w;
  poll_AddRead _ w := (None, w);
  poll_DelRead _ w := (None, w);
  poll_ResetRead _ w := (None, w);
|}.

(** A write error behind a buffer that was written leaves an empty slot in the
    list, and closing the connection flushes the list again: nil dereference. *)
Definition two_buffers : EngConn.Conn (H := failing_eng) unit :=
  set_wbufList [Some (mkWbuf [1] 1); Some (mkWbuf [2] 1)]
    (EngConn.set_fd 7 (blank (H := failing_eng) (mkWorld [] [1]) tt)).

Lemma failed_flush_then_close_panics :
  match EngConn.Flush (H := failing_eng) two_buffers with
  | Some (err, c) => (err, closeWith (H := failing_eng) None err c)
  | None => (None, None)
  end = (Some (Errno (H := failing_eng) (Eother "EPIPE")), None).
Proof. vm_compute. reflexivity. Qed.

(** When data is waiting, [Write] does not report that the flush failed. *)
Lemma failed_write_reports_success :
  fst <$> EngConn.Write (H := failing_eng) (fun h => match h : Empty_set with end) [3]
    (set_wbufList [Some (mkWbuf [1] 1)] (blank (H := failing_eng) (mkWorld [] []) tt)) = Some None.
Proof. vm_compute. reflexivity. Qed.

(** The read buffer is never compacted: once the write index has reached the
    end of a buffer of the maximal size, reading is over although only the
    bytes from the read index on are unread. *)
Lemma full_buffer_stalls `{EngLib} {App} fuel buf (c : EngConn.Conn App) :
  closed c = false -> rbuf c = Some buf -> releaseReadBuf c = false ->
  rr c < rw c -> rw c = zlen buf -> maxReadBufferSize <= zlen buf ->
  Read (S fuel) c = Some ((0, None), c).
Proof.
  intros Ho Hb Hrel Hr Hw Hmax. unfold Read, IsClosed, release_consumed, gets, modify.
  cbv [mbind M_bind mret M_ret]. rewrite Ho, Hrel. cbn [andb].
  assert (set_releaseReadBuf false c = c) as -> by (rewrite <- Hrel; by destruct c).
  rewrite Hb. cbn [Read_loop]. unfold deref_rbuf, gets. cbv [mbind M_bind mret M_ret]. rewrite Hb.
  cbn [of_option]. cbv [mret M_ret]. pose proof (zlen_nonneg buf).
  unfold reslice. replace ((0 <=? rw c) && (rw c <=? zlen buf) && (zlen buf <=? zlen buf)) with true by lia.
  cbv [mret M_ret]. rewrite zlen_slice by lia. replace (zlen buf - rw c =? 0) with true by lia.
  unfold growReadBuffer, gets. cbv [mbind M_bind mret M_ret]. rewrite Hb.
  replace (zlen buf >=? maxReadBufferSize) with true by lia. done.
Qed.

(** A stream error, which should only cost the stream, closes the whole
    connection: here HEADERS with a field name in upper case, after which the
    headers of another stream are not looked at. *)
Definition bad_field : bytes :=
  encode_frame (mkFrame FrameHeaders FlagHeadersEndHeaders 2 (plain_field (mkField "A" "1"))).

Lemma stream_error_closes_connection :
  asStreamError <$> (snd (default (0, [], None) (fst <$>
    Feed (Some H2Feed.echo) bad_field (NewConn true [])))) =
    Some (Some (2, ErrCodeProtocol, "header name contains uppercase: A"%string)) /\
  match serve (Some (http2 plain_proto no_hook (Some H2Feed.echo) true)) 5 400
          [RunTask; PollReady true false]
          (blank (mkWorld [bad_field] [1000; 1000; 1000]) (NewConnHandler [])) with
  | Some (_, c) => closed c
  | None => false
  end = true.
Proof. split; vm_compute; reflexivity. Qed.
