(* ===== verification/WsState.v ===== *)
(** * WsState

    The data of the [websocket] package: frame headers, the connection, its
    packed flags, its errors, and the world outside the source that it calls:
    the kernel, the poller, the buffer pool, the compressor and the frame
    helpers of [github.com/antlabs/wsutil] ([WsLib], with the documented
    behaviour of these in [WsLaws]).

    A connection runs its callbacks in place, as in the [io] mode ([c.task] is
    nil); statistics, logging and timers are not modelled.  The critical
    sections of [c.mu] are the atomic steps.  The last three fields of [Conn]
    are a trace that the code does not have: the bytes read from the socket,
    the frames handed to [processCallback], the bytes the socket accepted. *)

From Stdlib Require Import SpecFloat.
From S2P Require Import Prelude GoStd Sock.

(** ** Frames and errors *)

(** Opcodes of RFC 6455, 5.2. *)
Definition Continuation : Z := 0.
Definition Text : Z := 1.
Definition Binary : Z := 2.
Definition Close : Z := 8.
Definition Ping : Z := 9.
Definition Pong : Z := 10.

Record FrameHeader : Type := mkHeader {
  PayloadLen : Z;
  Opcode : Z;
  MaskKey : Z;
  Mask : bool;
  Head : Z;
}.

Record Frame2 : Type := mkFrame2 { f_Header : FrameHeader; f_Payload : bytes }.

Definition set_PayloadLen (v : Z) (h : FrameHeader) : FrameHeader :=
  mkHeader v (Opcode h) (MaskKey h) (Mask h) (Head h).
Definition set_Opcode (v : Z) (h : FrameHeader) : FrameHeader :=
  mkHeader (PayloadLen h) v (MaskKey h) (Mask h) (Head h).
Definition set_MaskKey (v : Z) (h : FrameHeader) : FrameHeader :=
  mkHeader (PayloadLen h) (Opcode h) v (Mask h) (Head h).
Definition set_Mask (v : bool) (h : FrameHeader) : FrameHeader :=
  mkHeader (PayloadLen h) (Opcode h) (MaskKey h) v (Head h).
Definition set_Head (v : Z) (h : FrameHeader) : FrameHeader :=
  mkHeader (PayloadLen h) (Opcode h) (MaskKey h) (Mask h) v.

(** Errors by their kind: a [StatusCode] and a pointer to one are different
    types for [errors.As]. *)
Inductive wserror : Type :=
  | EOF
  | ErrSentinel (text : string)
  | ErrStatusCode (code : Z)
  | ErrStatusCodePtr (code : Z)
  | ErrClose (code : Z) (msg : string)
  | Errno (e : errno)
  | Wrapped (prefix : string) (e : wserror)
  | ErrOf (what : string) (e : wserror).

Definition ErrClosed : wserror := ErrSentinel "closed".
Definition netErrClosed : wserror := ErrSentinel "use of closed network connection".
Definition ErrMaxControlFrameSize : wserror :=
  ErrSentinel "error:max control frame size > 125, need <= 125".
Definition ErrRsv123 : wserror := ErrSentinel "error:rsv1 or rsv2 or rsv3 has a value".
Definition ErrOpcode : wserror := ErrSentinel "error:wrong opcode".
Definition ErrNOTBeFragmented : wserror :=
  ErrSentinel "error:since control message MUST NOT be fragmented".
Definition ErrFrameOpcode : wserror :=
  ErrSentinel "error:since all data frames after the initial data frame must have opcode 0.".
Definition ErrTextNotUTF8 : wserror := ErrSentinel "error:text is not utf8 data".
Definition ErrClosePayloadTooSmall : wserror := ErrSentinel "error:close payload too small".
Definition ErrCloseValue : wserror := ErrSentinel "error:close value is wrong".
Definition ErrFramePayloadLength : wserror := ErrSentinel "errs: frame payload length".

Definition maxControlFrameSize : Z := 125.

(** ** The world outside the source *)

Class WsLib : Type := {
  World : Type;
  (** [bytespool.GetBytes n]: the length, and capacity, of the slice. *)
  GetBytes : Z -> Z;
  MaxFrameHeaderSize : Z;
  (** The conversion of a float that is out of the range of [int]. *)
  int_out_of_range : spec_float -> Z;
  GetFin : FrameHeader -> bool;
  GetRsv1 : FrameHeader -> bool;
  GetRsv2 : FrameHeader -> bool;
  GetRsv3 : FrameHeader -> bool;
  IsControl : Z -> bool;
  (** [mask.Mask]: the payload after unmasking with the key. *)
  mask : bytes -> Z -> bytes;
  (** The one block [frame.WriteFrame] builds and gives to [Write]:
      payload, fin, rsv1, is-mask, opcode, mask value. *)
  frame_bytes : bytes -> bool -> bool -> bool -> Z -> Z -> bytes;
  (** System calls on a descriptor: the bytes read into a buffer of that size,
      the number of bytes taken; or an errno. *)
  sys_read : Z -> Z -> World -> (bytes + errno) * World;
  sys_write : Z -> bytes -> World -> (Z + errno) * World;
  (** The poller, by descriptor. *)
  el_AddWrite : Z -> World -> option wserror * World;
  el_Del : Z -> World -> option wserror * World;
  el_ResetRead : Z -> World -> option wserror * World;
  el_close : Z -> World -> World;
  (** The compressor and decompressor contexts. *)
  Compress : bytes -> World -> (bytes + wserror) * World;
  Decompress : bytes -> Z -> World -> (bytes + wserror) * World;
  rand_Uint32 : World -> Z * World;
}.

(** The documented behaviour of that world.  [incoming] is what the peer will
    still deliver and [reads_left] bounds the reads before the socket is
    empty; only reads change them. *)
Class WsLaws `{WsLib} : Type := {
  incoming : World -> bytes;
  reads_left : World -> nat;
  GetBytes_enough n : 0 <= n -> n <= GetBytes n;
  MaxFrameHeaderSize_enough : 14 <= MaxFrameHeaderSize;
  MaxFrameHeaderSize_small : MaxFrameHeaderSize <= 1024;
  GetFin_spec h : GetFin h = negb (Head h .& 0x80 =? 0);
  GetRsv1_spec h : GetRsv1 h = negb (Head h .& 0x40 =? 0);
  GetRsv2_spec h : GetRsv2 h = negb (Head h .& 0x20 =? 0);
  GetRsv3_spec h : GetRsv3 h = negb (Head h .& 0x10 =? 0);
  IsControl_spec op : IsControl op = (op >=? 8);
  sys_read_spec fd n w : 0 < n ->
    match sys_read fd n w with
    | (inl data, w') => incoming w = data ++ incoming w' /\ zlen data <= n /\ bytes_ok data /\
                        (reads_left w' < reads_left w)%nat
    | (inr EINTR, w') => incoming w' = incoming w /\ (reads_left w' < reads_left w)%nat
    | (inr _, w') => incoming w' = incoming w /\ (reads_left w' <= reads_left w)%nat
    end;
  sys_write_spec fd p w n w' : sys_write fd p w = (inl n, w') -> 0 <= n <= zlen p;
  world_view (w : World) : bytes * nat := (incoming w, reads_left w);
  sys_write_view fd p w : world_view (snd (sys_write fd p w)) = world_view w;
  el_AddWrite_view fd w : world_view (snd (el_AddWrite fd w)) = world_view w;
  el_Del_view fd w : world_view (snd (el_Del fd w)) = world_view w;
  el_ResetRead_view fd w : world_view (snd (el_ResetRead fd w)) = world_view w;
  el_close_view fd w : world_view (el_close fd w) = world_view w;
  Compress_view b w : world_view (snd (Compress b w)) = world_view w;
  Decompress_view b n w : world_view (snd (Decompress b n w)) = world_view w;
  rand_view w : world_view (snd (rand_Uint32 w)) = world_view w;
}.

(** The settings of a connection. *)
Record Config : Type := mkConfig {
  replyPing : bool;
  ignorePong : bool;
  utf8Check : bytes -> bool;
  (** A [float32]. *)
  windowsMultipleTimesPayloadSize : spec_float;
  readMaxMessage : Z;
  flowBackPressureRemoveRead : bool;
  zeroCopyPayload : bool;
  pd_Compression : bool;
  pd_Decompression : bool;
}.

Section State.
Context `{WsLib}.

Record Conn {App : Type} : Type := mkConn {
  rbuf : option bytes;
  rr : Z;
  rw : Z;
  wbufList : list (option wbuf);
  lenAndMaskSize : Z;
  rh : FrameHeader;
  fragmentFramePayload : option bytes;
  fragmentFrameHeader : option FrameHeader;
  packed : Z;
  fd : Z;
  closed : bool;
  onCloseOnce : bool;
  world : World;
  app : App;
  received : bytes;
  delivered : list Frame2;
  sent : bytes;
}.
Arguments Conn : clear implicits.

Section Fields.
Context {App : Type}.

Definition set_rbuf (v : option bytes) (c : Conn App) : Conn App :=
  mkConn App v (rr c) (rw c) (wbufList c) (lenAndMaskSize c) (rh c) (fragmentFramePayload c)
    (fragmentFrameHeader c) (packed c) (fd c) (closed c) (onCloseOnce c) (world c) (app c)
    (received c) (delivered c) (sent c).
Definition set_rr (v : Z) (c : Conn App) : Conn App :=
  mkConn App (rbuf c) v (rw c) (wbufList c) (lenAndMaskSize c) (rh c) (fragmentFramePayload c)
    (fragmentFrameHeader c) (packed c) (fd c) (closed c) (onCloseOnce c) (world c) (app c)
    (received c) (delivered c) (sent c).
Definition set_rw (v : Z) (c : Conn App) : Conn App :=
  mkConn App (rbuf c) (rr c) v (wbufList c) (lenAndMaskSize c) (rh c) (fragmentFramePayload c)
    (fragmentFrameHeader c) (packed c) (fd c) (closed c) (onCloseOnce c) (world c) (app c)
    (received c) (delivered c) (sent c).
Definition set_wbufList (v : list (option wbuf)) (c : Conn App) : Conn App :=
  mkConn App (rbuf c) (rr c) (rw c) v (lenAndMaskSize c) (rh c) (fragmentFramePayload c)
    (fragmentFrameHeader c) (packed c) (fd c) (closed c) (onCloseOnce c) (world c) (app c)
    (received c) (delivered c) (sent c).
Definition set_lenAndMaskSize (v : Z) (c : Conn App) : Conn App :=
  mkConn App (rbuf c) (rr c) (rw c) (wbufList c) v (rh c) (fragmentFramePayload c)
    (fragmentFrameHeader c) (packed c) (fd c) (closed c) (onCloseOnce c) (world c) (app c)
    (received c) (delivered c) (sent c).
Definition set_rh (v : FrameHeader) (c : Conn App) : Conn App :=
  mkConn App (rbuf c) (rr c) (rw c) (wbufList c) (lenAndMaskSize c) v (fragmentFramePayload c)
    (fragmentFrameHeader c) (packed c) (fd c) (closed c) (onCloseOnce c) (world c) (app c)
    (received c) (delivered c) (sent c).
Definition set_fragmentFramePayload (v : option bytes) (c : Conn App) : Conn App :=
  mkConn App (rbuf c) (rr c) (rw c) (wbufList c) (lenAndMaskSize c) (rh c) v
    (fragmentFrameHeader c) (packed c) (fd c) (closed c) (onCloseOnce c) (world c) (app c)
    (received c) (delivered c) (sent c).
Definition set_fragmentFrameHeader (v : option FrameHeader) (c : Conn App) : Conn App :=
  mkConn App (rbuf c) (rr c) (rw c) (wbufList c) (lenAndMaskSize c) (rh c) (fragmentFramePayload
    c) v (packed c) (fd c) (closed c) (onCloseOnce c) (world c) (app c) (received c) (delivered
    c) (sent c).
Definition set_packed (v : Z) (c : Conn App) : Conn App :=
  mkConn App (rbuf c) (rr c) (rw c) (wbufList c) (lenAndMaskSize c) (rh c) (fragmentFramePayload
    c) (fragmentFrameHeader c) v (fd c) (closed c) (onCloseOnce c) (world c) (app c) (received
    c) (delivered c) (sent c).
Definition set_fd (v : Z) (c : Conn App) : Conn App :=
  mkConn App (rbuf c) (rr c) (rw c) (wbufList c) (lenAndMaskSize c) (rh c) (fragmentFramePayload
    c) (fragmentFrameHeader c) (packed c) v (closed c) (onCloseOnce c) (world c) (app c)
    (received c) (delivered c) (sent c).
Definition set_closed (v : bool) (c : Conn App) : Conn App :=
  mkConn App (rbuf c) (rr c) (rw c) (wbufList c) (lenAndMaskSize c) (rh c) (fragmentFramePayload
    c) (fragmentFrameHeader c) (packed c) (fd c) v (onCloseOnce c) (world c) (app c) (received
    c) (delivered c) (sent c).
Definition set_onCloseOnce (v : bool) (c : Conn App) : Conn App :=
  mkConn App (rbuf c) (rr c) (rw c) (wbufList c) (lenAndMaskSize c) (rh c) (fragmentFramePayload
    c) (fragmentFrameHeader c) (packed c) (fd c) (closed c) v (world c) (app c) (received c)
    (delivered c) (sent c).
Definition set_world (v : World) (c : Conn App) : Conn App :=
  mkConn App (rbuf c) (rr c) (rw c) (wbufList c) (lenAndMaskSize c) (rh c) (fragmentFramePayload
    c) (fragmentFrameHeader c) (packed c) (fd c) (closed c) (onCloseOnce c) v (app c) (received
    c) (delivered c) (sent c).
Definition set_app (v : App) (c : Conn App) : Conn App :=
  mkConn App (rbuf c) (rr c) (rw c) (wbufList c) (lenAndMaskSize c) (rh c) (fragmentFramePayload
    c) (fragmentFrameHeader c) (packed c) (fd c) (closed c) (onCloseOnce c) (world c) v
    (received c) (delivered c) (sent c).
Definition set_received (v : bytes) (c : Conn App) : Conn App :=
  mkConn App (rbuf c) (rr c) (rw c) (wbufList c) (lenAndMaskSize c) (rh c) (fragmentFramePayload
    c) (fragmentFrameHeader c) (packed c) (fd c) (closed c) (onCloseOnce c) (world c) (app c) v
    (delivered c) (sent c).
Definition set_delivered (v : list Frame2) (c : Conn App) : Conn App :=
  mkConn App (rbuf c) (rr c) (rw c) (wbufList c) (lenAndMaskSize c) (rh c) (fragmentFramePayload
    c) (fragmentFrameHeader c) (packed c) (fd c) (closed c) (onCloseOnce c) (world c) (app c)
    (received c) v (sent c).
Definition set_sent (v : bytes) (c : Conn App) : Conn App :=
  mkConn App (rbuf c) (rr c) (rw c) (wbufList c) (lenAndMaskSize c) (rh c) (fragmentFramePayload
    c) (fragmentFrameHeader c) (packed c) (fd c) (closed c) (onCloseOnce c) (world c) (app c)
    (received c) (delivered c) v.
End Fields.

(** The user's callbacks. *)
Record Callback {App : Type} : Type := {
  OnMessage : Z -> bytes -> M (Conn App) unit;
  OnClose : option wserror -> M (Conn App) unit;
}.
End State.
Arguments Conn {_} App.
Arguments Callback {_} App.

Section Methods.
Context `{WsLib} {App : Type}.
Notation Conn := (Conn App).
Notation go A := (M Conn A).

(** ** Packed flags *)

Definition frameStateHeaderStart : Z := 0.
Definition frameStateHeaderPayloadAndMask : Z := 1.
Definition frameStatePayload : Z := 2.

Definition stateMask : Z := 0x3.
Definition flagClient : Z := 1 << 2.
Definition flagBusy : Z := 1 << 3.
Definition flagCorking : Z := 1 << 6.

Definition getCurState : go Z := gets (fun c => packed c .& stateMask).
Definition setCurState (st : Z) : go unit :=
  modify (fun c => set_packed (Z.ldiff (packed c) stateMask .| (st .& stateMask)) c).
Definition isClient : go bool := gets (fun c => has_flag flagClient (packed c)).
Definition setClient (v : bool) : go unit :=
  modify (fun c => set_packed (put_flag flagClient v (packed c)) c).
Definition isCorking : go bool := gets (fun c => has_flag flagCorking (packed c)).
Definition setCorking (v : bool) : go unit :=
  modify (fun c => set_packed (put_flag flagCorking v (packed c)) c).
Definition tryBusy : go bool :=
  old ← gets packed;
  modify (fun c => set_packed (packed c .| flagBusy) c) ;;
  mret (old .& flagBusy =? 0).
Definition unbusy : go unit := modify (fun c => set_packed (Z.ldiff (packed c) flagBusy) c).

Definition isClosed : go bool := gets closed.

(** ** Calls into the world *)

Definition outside {A} (f : World -> A * World) : go A :=
  fun c => let '(a, w) := f (world c) in Some (a, set_world w c).

(** [socketRead]: no system call for an empty buffer. *)
Definition socketRead (n : Z) : go (bytes * option errno) :=
  if n =? 0 then mret ([], None)
  else
    fd ← gets fd;
    r ← outside (sys_read fd n);
    match r with
    | inr e => mret ([], Some e)
    | inl data => modify (fun c => set_received (received c ++ data) c) ;; mret (data, None)
    end.

Definition send (p : bytes) : go (Z * option errno) :=
  fd ← gets fd;
  r ← outside (sys_write fd p);
  match r with
  | inr e => mret (0, Some e)
  | inl n => modify (fun c => set_sent (sent c ++ upto n p) c) ;; mret (n, None)
  end.

Definition socketWrite (p : bytes) : go (Z * option errno) :=
  if zlen p =? 0 then mret (0, None) else send p.

(** [sendmsg] of several segments: the kernel joins them, and there is no
    check for emptiness. *)
Definition writevIovec (segs : list bytes) : go (Z * option errno) := send (concat segs).
Definition socketWritev (header payload : bytes) : go (Z * option errno) :=
  writevIovec [header; payload].
Definition socketWritev3 (first header payload : bytes) : go (Z * option errno) :=
  writevIovec [first; header; payload].

Definition addWrite : go (option wserror) := fd ← gets fd; outside (el_AddWrite fd).
Definition delRead : go (option wserror) := fd ← gets fd; outside (el_Del fd).
Definition del : go unit := fd ← gets fd; outside (fun w => (tt, el_close fd w)).

(** ** Closing *)

Context (cb : Callback App).

(** [onCloseOnce.Do]. *)
Definition once_OnClose (err : option wserror) : go unit :=
  done ← gets onCloseOnce;
  if (done : bool) then mret tt
  else modify (set_onCloseOnce true) ;; OnClose cb err.

Definition closeWithoutLockOnClose (err : option wserror) (onClose : bool) : go unit :=
  cl ← isClosed;
  if (cl : bool) then mret tt
  else
    let err := match err with Some _ => Some EOF | None => None end in
    del ;;
    modify (set_fd (-1)) ;;
    modify (set_closed true) ;;
    if onClose then once_OnClose err else mret tt.

Definition closeNoLock (err : option wserror) : go unit := closeWithoutLockOnClose err true.

Definition closeWithLock (err : option wserror) : go unit :=
  cl ← isClosed;
  if (cl : bool) then mret tt
  else
    let err := match err with None => Some EOF | Some e => Some e end in
    closeWithoutLockOnClose err false ;;
    cl ← isClosed;
    if (cl : bool) then once_OnClose err else mret tt.

Definition Conn_Close : go unit := closeWithLock None.
End Methods.

(** The initial state of a connection, [newConn]. *)
Definition newConn `{WsLib} {App} (fd : Z) (client : bool) (w : World) (a : App) : Conn App :=
  mkConn App None 0 0 [] 0 (mkHeader 0 0 0 false 0) None None (put_flag flagClient client 0) fd
    false false w a [] [] [].
