(* ===== verification/WsWrite.v ===== *)
(** * WsWrite

    The writing side of a websocket connection: the frame header of
    [ws_header.go], the list of buffers that wait for the socket and its
    flushing ([conn_unix.go]), the corking of replies ([cork.go]), and
    [WriteMessage] with the methods built on it ([conn_core.go]). *)

From S2P Require Import Prelude Sock WsState.

(** ** Frame headers *)

(** [wsHeader]: the bytes it puts at the front of its buffer. *)
Definition wsHeader (op payloadLen : Z) : bytes :=
  let b0 := 0x80 .| (op .& 0x0F) in
  if payloadLen <=? 125 then [b0; u8 payloadLen]
  else if payloadLen <=? 65535 then [b0; 126; u8 (payloadLen >> 8); u8 payloadLen]
  else [b0; 127] ++ put64 (u64 payloadLen).

Section Write.
Context `{WsLib} {App : Type} (cfg : Config) (cb : Callback App).
Notation Conn := (Conn App).
Notation go A := (M Conn A).

(** ** The list of waiting buffers *)

(** New buffers of what did not fit: one, or more if the pool gives less than
    asked for. *)
Fixpoint append_new (fuel : nat) (data : bytes) (oldLen : Z) : go unit :=
  if zlen data =? 0 then mret tt
  else
    match fuel with
    | O => panic
    | S fuel =>
        let cap := GetBytes (zlen data + oldLen) in
        let copySize := if zlen data >? cap then cap else zlen data in
        modify (fun c => set_wbufList (wbufList c ++ [Some (mkWbuf (upto copySize data) cap)]) c) ;;
        append_new fuel (from copySize data) oldLen
    end.

Definition appendToWbufList (data : bytes) (oldLen : Z) : go unit :=
  if zlen data =? 0 then mret tt
  else
    l ← gets wbufList;
    match last l with
    | None =>
        let cap := GetBytes (zlen data + oldLen) in
        if zlen data <=? cap
        then modify (set_wbufList [Some (mkWbuf data cap)])
        else panic
    | Some None => panic
    | Some (Some lastBuf) =>
        let room := wb_cap lastBuf - zlen (wb_data lastBuf) in
        let put (d : bytes) : go unit :=
          modify (fun c => set_wbufList
            (take (length l - 1) (wbufList c) ++ [Some (mkWbuf (wb_data lastBuf ++ d) (wb_cap lastBuf))]) c) in
        if room >=? zlen data then put data
        else
          (if room >? 0 then put (upto room data) else mret tt) ;;
          let data := if room >? 0 then from room data else data in
          append_new (S (length data)) data oldLen
    end.

Definition writeToSocket (data : bytes) : go (Z * option errno) :=
  r ← socketWrite data;
  match snd r with None => mret r | Some e => mret (0, Some e) end.

(** The slots before [done] are dropped. *)
Definition compactWbufList (done : Z) : go unit :=
  if done =? 0 then mret tt
  else modify (fun c => set_wbufList (from done (wbufList c)) c).

(** What to do when the socket is full. *)
Definition wait_writable : go (option wserror) :=
  if flowBackPressureRemoveRead cfg then _ ← delRead; mret None else addWrite.

(** [handlePartialWrite] for data that is not in the list yet ... *)
Definition handlePartialWrite_append (data : bytes) (n : Z) : go (option wserror) :=
  let n := if n <? 0 then 0 else n in
  if n >=? zlen data then mret None
  else appendToWbufList (from n data) (zlen data) ;; wait_writable.

(** ... and for the buffer in a slot of the list. *)
Definition handlePartialWrite_slot (slot : nat) (buf : wbuf) (n : Z) : go (option wserror) :=
  let n := if n <? 0 then 0 else n in
  if n >=? zlen (wb_data buf) then mret None
  else
    modify (fun c => set_wbufList
      (<[slot := Some (mkWbuf (from n (wb_data buf)) (wb_cap buf))]> (wbufList c)) c) ;;
    wait_writable.

(** The loop over the list; [inl] leaves the loop, [inr] the method. *)
Fixpoint write_loop (fuel : nat) (done : nat) (total : Z) : go (nat + Z * option wserror) :=
  match fuel with
  | O => panic
  | S fuel =>
      l ← gets wbufList;
      match l !! done with
      | None => mret (inl done)
      | Some None => mret (inl done)
      | Some (Some buf) =>
          r ← writeToSocket (wb_data buf);
          let '(n, err) := r in
          if is_soft err then
            if n =? zlen (wb_data buf) then
              modify (fun c => set_wbufList (<[done := None]> (wbufList c)) c) ;;
              write_loop fuel (S done) total
            else
              e ← handlePartialWrite_slot done buf n;
              match e with
              | Some e => closeNoLock cb (Some e) ;; mret (inr (0, Some e))
              | None => compactWbufList (Z.of_nat done) ;; mret (inr (total, None))
              end
          else
            let e := Errno (default EAGAIN err) in
            closeNoLock cb (Some e) ;; mret (inr (n, Some e))
      end
  end.

Definition write (data : bytes) : go (Z * option wserror) :=
  f ← gets fd;
  if f =? -1 then mret (0, Some netErrClosed)
  else
    l ← gets wbufList;
    match l with
    | [] =>
        if zlen data =? 0 then mret (0, None)
        else
          r ← writeToSocket data;
          let '(n, err) := r in
          if is_soft err then
            if n =? zlen data then mret (n, None)
            else
              e ← handlePartialWrite_append data n;
              match e with
              | Some e => closeNoLock cb (Some e) ;; mret (0, Some e)
              | None => mret (zlen data, None)
              end
          else
            let e := Errno (default EAGAIN err) in
            closeNoLock cb (Some e) ;; mret (n, Some e)
    | _ =>
        (if 0 <? zlen data then appendToWbufList data (zlen data) else mret tt) ;;
        l ← gets wbufList;
        r ← write_loop (S (length l)) 0 (zlen data);
        match r with
        | inr r => mret r
        | inl done =>
            compactWbufList (Z.of_nat done) ;;
            (if flowBackPressureRemoveRead cfg then fd ← gets fd; _ ← outside (el_ResetRead fd); mret tt else mret tt) ;;
            mret (zlen data, None)
        end
    end.

Definition connWrite (b : bytes) : go (Z * option wserror) :=
  cl ← isClosed;
  if (cl : bool) then mret (0, Some ErrClosed) else write b.

Definition needFlush : go bool := gets (fun c => negb (zlen (wbufList c) =? 0)).
Definition flushLocked : go unit := _ ← connWrite []; mret tt.
Definition flush : go unit := flushLocked.

(** ** Corking *)

Definition maxCorkBytes : Z := 32 * 1024.
Definition corkGrowBytes : Z := 16 * 1024.

Definition corkStartLocked (capHint : Z) : go unit :=
  let capHint := if capHint >? maxCorkBytes then maxCorkBytes else capHint in
  let capHint := capHint + Z.quot capHint 4 in
  modify (set_wbufList [Some (mkWbuf [] (GetBytes capHint))]) ;;
  setCorking true.

Definition maybeCork : go unit :=
  k ← isCorking; cl ← isClient;
  if k || cl then mret tt
  else
    l ← gets wbufList;
    if negb (zlen l =? 0) then mret tt
    else
      rem ← gets (fun c => rw c - rr c);
      if rem <=? 0 then mret tt else corkStartLocked rem.

(** The last slot of the list, dereferenced. *)
Definition last_buf : go wbuf :=
  l ← gets wbufList; of_option (mjoin (last l)).
Definition set_last_buf (b : wbuf) : go unit :=
  modify (fun c => set_wbufList (take (length (wbufList c) - 1) (wbufList c) ++ [Some b]) c).

Definition growCork (old : wbuf) (need : Z) : go (option wbuf) :=
  if (wb_cap old >=? corkGrowBytes) || (need >? corkGrowBytes) then mret None
  else
    let cap := GetBytes corkGrowBytes in
    if cap <? need then mret None
    else
      let nb := mkWbuf (wb_data old) cap in
      set_last_buf nb ;; mret (Some nb).

(** No room and no larger buffer: the batch and the new frame go out together. *)
Definition corkSpill (b : wbuf) (hdr payload : bytes) : go (option wserror) :=
  let seg := wb_data b in
  r ← socketWritev3 seg hdr payload;
  let '(n, err) := r in
  let n := if n <? 0 then 0 else n in
  let total := zlen seg + zlen hdr + zlen payload in
  if bool_decide (err = None) && (n =? total) then
    set_last_buf (mkWbuf [] (wb_cap b)) ;; mret None
  else if is_soft err then
    setCorking false ;;
    set_last_buf (mkWbuf [] (wb_cap b)) ;;
    (if n <? zlen seg then
       appendToWbufList (from n seg) (total - n) ;;
       appendToWbufList hdr (zlen hdr + zlen payload) ;;
       appendToWbufList payload (zlen payload)
     else if n <? zlen seg + zlen hdr then
       appendToWbufList (from (n - zlen seg) hdr) (zlen hdr + zlen payload - n + zlen seg) ;;
       appendToWbufList payload (zlen payload)
     else appendToWbufList (from (n - zlen seg - zlen hdr) payload) (total - n)) ;;
    addWrite
  else
    set_last_buf (mkWbuf [] (wb_cap b)) ;;
    mret (Errno <$> err).

Definition corkWrite (op : Z) (payload : bytes) : go (option wserror) :=
  l ← gets wbufList;
  (if zlen l =? 0 then corkStartLocked (zlen payload) else mret tt) ;;
  b ← last_buf;
  let hdr := wsHeader op (zlen payload) in
  let hn := zlen hdr in
  if zlen (wb_data b) + hn + zlen payload <=? wb_cap b then
    set_last_buf (mkWbuf (wb_data b ++ hdr ++ payload) (wb_cap b)) ;; mret None
  else
    nb ← growCork b (zlen (wb_data b) + hn + zlen payload);
    match nb with
    | Some nb => set_last_buf (mkWbuf (wb_data nb ++ hdr ++ payload) (wb_cap nb)) ;; mret None
    | None => corkSpill b hdr payload
    end.

Definition corkEnd : go unit :=
  k ← isCorking;
  if negb k then mret tt
  else
    setCorking false ;;
    l ← gets wbufList;
    match l with
    | [] => mret tt
    | [Some b] => if zlen (wb_data b) =? 0 then modify (set_wbufList []) else flushLocked
    | [None] => panic
    | _ => flushLocked
    end.

(** ** Messages *)

Definition encoode (payload : bytes) : go (bytes + wserror) := outside (Compress payload).
Definition decode (payload : bytes) : go (bytes + wserror) :=
  outside (Decompress payload (readMaxMessage cfg)).

(** [frame.WriteFrame] gives its block to [newConnWrite.Write]. *)
Definition WriteFrame (payload : bytes) (fin rsv1 isMask : bool) (op maskValue : Z)
    : go (option wserror) :=
  r ← connWrite (frame_bytes payload fin rsv1 isMask op maskValue); mret (snd r).

(** The two fast paths differ in the system call only. *)
Definition write_rest (all : bytes) (n : Z) (werr : option errno) : go (option wserror) :=
  if bool_decide (werr = None) && (n =? zlen all) then mret None
  else if is_soft werr then
    appendToWbufList (from n all) (zlen all - n) ;; addWrite
  else mret (Errno <$> werr).

(** The part of [WriteMessage] under the lock. *)
Definition WriteMessage_locked (op : Z) (writeBuf : bytes) (rsv1 client : bool) (maskValue : Z)
    : go (option wserror) :=
  k ← isCorking;
  if k && negb rsv1 then corkWrite (u8 op) writeBuf
  else
    l ← gets wbufList;
    let all := wsHeader (u8 op) (zlen writeBuf) ++ writeBuf in
    if negb client && negb rsv1 && (zlen writeBuf <=? 4096) && (zlen l =? 0) then
      r ← socketWrite all; write_rest all (fst r) (snd r)
    else if negb client && negb rsv1 && (zlen writeBuf <=? 65535) && (zlen l =? 0) then
      r ← socketWritev (wsHeader (u8 op) (zlen writeBuf)) writeBuf; write_rest all (fst r) (snd r)
    else WriteFrame writeBuf true rsv1 client op maskValue.

Definition WriteMessage (op : Z) (writeBuf : bytes) : go (option wserror) :=
  cl ← isClosed;
  if (cl : bool) then mret (Some ErrClosed)
  else if (op =? Text) && negb (utf8Check cfg writeBuf) then mret (Some ErrTextNotUTF8)
  else
    let rsv1 := pd_Compression cfg && ((op =? Text) || (op =? Binary)) in
    r ← (if rsv1 then encoode writeBuf else mret (inl writeBuf));
    match r with
    | inr e => mret (Some e)
    | inl writeBuf =>
        client ← isClient;
        maskValue ← (if (client : bool) then outside rand_Uint32 else mret 0);
        WriteMessage_locked op writeBuf rsv1 client maskValue
    end.

(** The deadline timers around it are not modelled. *)
Definition WriteTimeout (op : Z) (data : bytes) : go (option wserror) := WriteMessage op data.

Definition WriteControl (op : Z) (data : bytes) : go (option wserror) :=
  if zlen data >? maxControlFrameSize then mret (Some ErrMaxControlFrameSize)
  else WriteMessage op data.
Definition WritePing (data : bytes) : go (option wserror) := WriteControl Ping data.
Definition WritePong (data : bytes) : go (option wserror) := WriteControl Pong data.

(** [writeFragment]: pieces of at most [maxFragment] bytes. *)
Fixpoint writeFragment_loop (fuel : nat) (op : Z) (writeBuf : bytes) (maxFragment : Z)
    (rsv1 client : bool) (maskValue : Z) : go (option wserror) :=
  if zlen writeBuf =? 0 then mret None
  else
    match fuel with
    | O => panic
    | S fuel =>
        if zlen writeBuf >? maxFragment then
          piece ← reslice writeBuf 0 maxFragment;
          try WriteFrame piece false rsv1 client op maskValue;
          writeFragment_loop fuel Continuation (from maxFragment writeBuf) maxFragment rsv1 client maskValue
        else WriteFrame writeBuf true rsv1 client op maskValue
    end.

Definition writeFragment (op : Z) (writeBuf : bytes) (maxFragment : Z) : go (option wserror) :=
  if zlen writeBuf <? maxFragment then WriteMessage op writeBuf
  else if (op =? Text) && negb (utf8Check cfg writeBuf) then mret (Some ErrTextNotUTF8)
  else
    let rsv1 := pd_Compression cfg && ((op =? Text) || (op =? Binary)) in
    r ← (if rsv1 then encoode writeBuf else mret (inl writeBuf));
    match r with
    | inr e => mret (Some e)
    | inl writeBuf =>
        client ← isClient;
        maskValue ← (if (client : bool) then outside rand_Uint32 else mret 0);
        writeFragment_loop (S (length writeBuf)) op writeBuf maxFragment rsv1 client maskValue
    end.
End Write.
