(* ===== verification/WsRead.v ===== *)
(** * WsRead

    The reading side of a websocket connection: the two-step header parser,
    the read buffer and its growth, the payload ([conn_core.go]), the read loop
    on the socket ([conn_unix.go]), close codes ([status_codes.go]), and
    [processCallback], which reassembles fragmented messages and answers
    control frames. *)

From S2P Require Import Prelude GoStd Sock WsState WsWrite.

(** ** Close codes *)

Definition NormalClosure : Z := 1000.
Definition EndpointGoingAway : Z := 1001.
Definition ProtocolError : Z := 1002.
Definition DataCannotAccept : Z := 1003.
Definition NotConsistentMessageType : Z := 1007.
Definition TerminatingConnection : Z := 1008.
Definition TooBigMessage : Z := 1009.
Definition NoExtensions : Z := 1010.
Definition ServerTerminating : Z := 1011.

Definition StatusCode_String (s : Z) : string :=
  if s =? NormalClosure then "NormalClosure"
  else if s =? EndpointGoingAway then "EndpointGoingAway"
  else if s =? ProtocolError then "ProtocolError"
  else if s =? DataCannotAccept then "DataCannotAccept"
  else if s =? NotConsistentMessageType then "NotConsistentMessageType"
  else if s =? TerminatingConnection then "TerminatingConnection"
  else if s =? TooBigMessage then "TooBigMessage"
  else if s =? NoExtensions then "NoExtensions"
  else if s =? ServerTerminating then "ServerTerminating"
  else "unknown".

Definition toBytes (s : Z) : bytes := put16 (u16 s) ++ bytes_of_string (StatusCode_String s).

(** [bytesToCloseErrMsg]; the code is an [int16]. *)
Definition bytesToCloseErrMsg (payload : bytes) : wserror :=
  let code := if 2 <=? zlen payload then i16 (be16 (at_ payload 0) (at_ payload 1)) else 0 in
  let msg := if 3 <=? zlen payload then string_of_bytes (from 3 payload) else EmptyString in
  ErrClose code msg.

Definition validCode (code : Z) : bool :=
  if (code =? 1004) || (code =? 1005) || (code =? 1006) || (code =? 1015) then false
  else if (code >=? 1000) && (code <=? 1015) then true
  else if (code >=? 3000) && (code <=? 4999) then true
  else false.

(** [CloseErrMsg.Error]; the code is printed as an [int]. *)
Definition CloseErrMsg_Error (code : Z) (msg : string) : string :=
  "<fio close: code:" +:+ fmt_d code +:+ " msg:" +:+ StatusCode_String code +:+ msg +:+ ">".

(** [errors.As(err, &sc)] for a target of type [*StatusCode]. *)
Fixpoint as_StatusCode (e : wserror) : option Z :=
  match e with
  | ErrStatusCodePtr code => Some code
  | Wrapped _ e | ErrOf _ e => as_StatusCode e
  | _ => None
  end.

(** [binary.BigEndian.Uint64] and [binary.LittleEndian.Uint32]. *)
Definition be64 (l : bytes) : Z :=
  be32 (at_ l 0) (at_ l 1) (at_ l 2) (at_ l 3) << 32 .| be32 (at_ l 4) (at_ l 5) (at_ l 6) (at_ l 7).
Definition le32 (l : bytes) : Z := be32 (at_ l 3) (at_ l 2) (at_ l 1) (at_ l 0).

Definition frameState_String (f : Z) : string :=
  if f =? frameStateHeaderStart then "frameStateHeaderStart"
  else if f =? frameStateHeaderPayloadAndMask then "frameStateHeaderPayloadAndMask"
  else if f =? frameStatePayload then "frameStatePayload"
  else EmptyString.

Section Read.
Context `{WsLib} {App : Type} (cfg : Config) (cb : Callback App).
Notation Conn := (Conn App).
Notation go A := (M Conn A).

(** ** The read buffer *)

Definition deref_rbuf : go bytes := o ← gets rbuf; of_option o.

Definition leftMove : go unit :=
  r ← gets rr;
  if r =? 0 then mret tt
  else
    buf ← deref_rbuf;
    w ← gets rw;
    src ← reslice buf r w;
    modify (set_rbuf (Some (copy_front buf src))) ;;
    modify (set_rw (w - r)) ;;
    modify (set_rr 0).

(** [int(float32(len)*c.windowsMultipleTimesPayloadSize) + enum.MaxFrameHeaderSize]. *)
Definition bufferSize (len : Z) : Z :=
  i64 (int_of_float32 int_out_of_range (mul32 (float32 len) (windowsMultipleTimesPayloadSize cfg))
       + MaxFrameHeaderSize).

Definition readBufferSize : go Z :=
  gets (fun c => bufferSize (PayloadLen (rh c))).

Definition batchReadBufferSize : Z := 16 * 1024.

(** A slice from the pool: its content is what earlier users left; nothing
    reads it, so zeros stand for it. *)
Definition pool_slice (n : Z) : bytes := replicate (Z.to_nat (GetBytes n)) 0.

Definition growReadBuffer : go unit :=
  old ← deref_rbuf;
  w ← gets rw;
  src ← reslice old 0 w;
  modify (set_rbuf (Some (copy_front (pool_slice batchReadBufferSize) src))).

(** The length of the part of the buffer behind [c.rw]. *)
Definition writeCap : go Z :=
  buf ← deref_rbuf;
  w ← gets rw;
  s ← reslice buf w (zlen buf);
  mret (zlen s).

(** ** The frame header *)

(** The first two bytes; [true] when they were there. *)
Definition readHeader_start : go bool :=
  buf ← deref_rbuf;
  r ← gets rr;
  (if zlen buf - r <? MaxFrameHeaderSize then leftMove else mret tt) ;;
  c ← get;
  if rw c - rr c <? 2 then mret false
  else
    buf ← deref_rbuf;
    b0 ← index buf (rr c);
    b1 ← index buf (rr c + 1);
    let masked := negb (b1 .& (1 << 7) =? 0) in
    let len := b1 .& 0x7F in
    let have := (if masked then 4 else 0) + (if len =? 126 then 2 else if len =? 127 then 8 else 0) in
    modify (fun c => set_rh (mkHeader len (b0 .& 0xF) (MaskKey (rh c)) masked b0) c) ;;
    setCurState frameStateHeaderPayloadAndMask ;;
    modify (set_lenAndMaskSize have) ;;
    modify (fun c => set_rr (rr c + 2) c) ;;
    mret true.

Definition readHeader_rest : go (bool * option wserror) :=
  c ← get;
  if rw c - rr c <? lenAndMaskSize c then mret (false, None)
  else
    buf ← deref_rbuf;
    head ← reslice buf (rr c) (rr c + lenAndMaskSize c);
    lr ← (if PayloadLen (rh c) =? 126 then
            h2 ← reslice head 0 2;
            mret (be16 (at_ h2 0) (at_ h2 1), from 2 head)
          else if PayloadLen (rh c) =? 127 then
            h8 ← reslice head 0 8;
            mret (i64 (be64 h8), from 8 head)
          else mret (PayloadLen (rh c), head));
    let '(len, head) := lr in
    modify (fun c => set_rh (set_PayloadLen len (rh c)) c) ;;
    if (readMaxMessage cfg >? 0) && (len >? readMaxMessage cfg) then
      mret (false, Some (ErrStatusCode TooBigMessage))
    else
      (if Mask (rh c) then
         h4 ← reslice head 0 4;
         modify (fun c => set_rh (set_MaskKey (le32 h4) (rh c)) c)
       else mret tt) ;;
      setCurState frameStatePayload ;;
      modify (fun c => set_rr (rr c + lenAndMaskSize c) c) ;;
      mret (true, None).

Definition readHeader : go (bool * option wserror) :=
  state ← getCurState;
  if state =? frameStateHeaderStart then
    ok ← readHeader_start;
    if (ok : bool) then readHeader_rest else mret (false, None)
  else if state =? frameStateHeaderPayloadAndMask then readHeader_rest
  else mret (state =? frameStatePayload, None).

Definition failRsv1 (op : Z) : bool :=
  if negb (pd_Decompression cfg) then true
  else negb (op =? Text) && negb (op =? Binary).

(** ** The payload *)

(** Room for the payload: a new buffer, or the unread bytes moved to the
    front. *)
Definition readPayload_room : go unit :=
  c ← get;
  let readUnhandle := rw c - rr c in
  let missing := i64 (PayloadLen (rh c) - readUnhandle) in
  room ← writeCap;
  if missing >? room + rr c then
    old ← deref_rbuf;
    src ← reslice old (rr c) (rw c);
    modify (set_rbuf (Some (copy_front
      (pool_slice (bufferSize (PayloadLen (rh c)))) src))) ;;
    modify (set_rw (rw c - rr c)) ;;
    modify (set_rr 0)
  else if missing >? room then leftMove else mret tt.

Definition readPayload (needCopy : bool) : go (option Frame2) :=
  c ← get;
  let readUnhandle := rw c - rr c in
  readPayload_room ;;
  if i64 (PayloadLen (rh c) - readUnhandle) >? 0 then mret None
  else
    c ← get;
    let len := PayloadLen (rh c) in
    buf ← deref_rbuf;
    payload ← reslice buf (rr c) (rr c + len);
    if negb needCopy then
      modify (set_rr (rr c + len)) ;;
      mret (Some (mkFrame2 (rh c) payload))
    else
      (if zlen (pool_slice (len + MaxFrameHeaderSize)) <? len then panic else mret tt) ;;
      modify (set_rr (rr c + len)) ;;
      (if zlen buf - rw c <? MaxFrameHeaderSize then leftMove else mret tt) ;;
      mret (Some (mkFrame2 (rh c) payload)).

(** ** Closing with a code *)

Definition WriteCloseTimeout (sc : Z) : go (option wserror) := WriteTimeout cfg cb Close (toBytes sc).

Definition writeErrAndOnClose (code : Z) (userErr : wserror) : go (option wserror) :=
  e ← WriteTimeout cfg cb Close (toBytes code);
  once_OnClose cb (Some userErr) ;;
  mret (Some (default userErr e)).

Definition writeAndMaybeOnClose (err : wserror) : go (option wserror) :=
  e ← match as_StatusCode err with
      | Some code => WriteTimeout cfg cb Close (toBytes code)
      | None => mret None
      end;
  once_OnClose cb (Some err) ;;
  mret e.

(** ** Handing frames over *)

Definition rsv_error (f : Frame2) : wserror := ErrOf "rsv" ErrRsv123.

(** A complete message: decompressed, checked, delivered. *)
Definition processCallbackData (op : Z) (payload : bytes) (rsv1 needMask : bool) (maskKey : Z) : go unit :=
  let payload := if needMask then mask payload maskKey else payload in
  r ← (if rsv1 && pd_Decompression cfg then decode cfg payload else mret (inl payload));
  match r with
  | inr e => closeWithLock cb (Some e)
  | inl payload =>
      if (op =? Text) && negb (utf8Check cfg payload) then
        closeWithLock cb None ;;
        once_OnClose cb (Some ErrTextNotUTF8)
      else OnMessage cb op payload
  end.

(** The last fragment arrived. *)
Definition fragment_done (op : Z) (rsv1 : bool) (payload : bytes) : go unit :=
  r ← (if rsv1 && pd_Decompression cfg then decode cfg payload else mret (inl payload));
  match r with
  | inr e => closeWithLock cb (Some e)
  | inl payload =>
      if (op =? Text) && negb (utf8Check cfg payload) then
        once_OnClose cb (Some ErrTextNotUTF8) ;;
        closeWithLock cb None
      else OnMessage cb op payload
  end.

(** [addTask] without an executor. *)
Definition addTask (f : go unit) : go unit :=
  cl ← isClosed; if (cl : bool) then mret tt else f.

Definition on_continuation (h : FrameHeader) (f : Frame2) (maskKey : Z) (needMask : bool)
    : go (option wserror) :=
  let payload := if needMask then mask (f_Payload f) maskKey else f_Payload f in
  modify (fun c => set_fragmentFramePayload
    (Some (default [] (fragmentFramePayload c) ++ payload)) c) ;;
  if GetFin (f_Header f) then
    o ← gets fragmentFramePayload;
    modify (set_fragmentFrameHeader None) ;;
    modify (set_fragmentFramePayload None) ;;
    addTask (fragment_done (Opcode h) (GetRsv1 h) (default [] o)) ;;
    mret None
  else mret None.

Definition on_data (f : Frame2) (rsv1 : bool) (maskKey : Z) (needMask : bool) : go (option wserror) :=
  if negb (GetFin (f_Header f)) then
    let payload := if needMask then mask (f_Payload f) maskKey else f_Payload f in
    modify (fun c => set_fragmentFramePayload
      (Some (default payload (fragmentFramePayload c))) c) ;;
    modify (set_fragmentFrameHeader (Some (f_Header f))) ;;
    mret None
  else
    cl ← isClosed;
    (if (cl : bool) then mret tt
     else processCallbackData (Opcode (f_Header f)) (f_Payload f) rsv1 needMask maskKey) ;;
    mret None.

Definition on_close (payload : bytes) : go (option wserror) :=
  if zlen payload =? 0 then
    writeErrAndOnClose NormalClosure (ErrClose NormalClosure "") ;; mret None
  else if zlen payload <? 2 then writeErrAndOnClose ProtocolError ErrClosePayloadTooSmall
  else if negb (utf8Check cfg (from 2 payload)) then writeErrAndOnClose ProtocolError ErrTextNotUTF8
  else if negb (validCode (be16 (at_ payload 0) (at_ payload 1))) then
    writeErrAndOnClose ProtocolError ErrCloseValue
  else
    try WriteTimeout cfg cb Close payload;
    let err := bytesToCloseErrMsg payload in
    once_OnClose cb (Some err) ;;
    mret (Some err).

Definition on_control (f : Frame2) (maskKey : Z) (needMask : bool) : go (option wserror) :=
  let op := Opcode (f_Header f) in
  let payload := if needMask then mask (f_Payload f) maskKey else f_Payload f in
  if PayloadLen (f_Header f) >? maxControlFrameSize then
    writeErrAndOnClose ProtocolError ErrMaxControlFrameSize ;; mret (Some ErrMaxControlFrameSize)
  else if negb (GetFin (f_Header f)) then
    writeErrAndOnClose ProtocolError ErrNOTBeFragmented ;; mret (Some ErrNOTBeFragmented)
  else if op =? Close then on_close payload
  else if (op =? Ping) && replyPing cfg then
    e ← WriteTimeout cfg cb Pong payload;
    match e with
    | Some e => once_OnClose cb (Some e) ;; mret (Some e)
    | None => addTask (OnMessage cb op payload) ;; mret None
    end
  else if (op =? Pong) && ignorePong cfg then mret None
  else addTask (OnMessage cb op []) ;; mret None.

Definition processCallback (f : Frame2) : go (option wserror) :=
  let hd := f_Header f in
  frag ← gets fragmentFrameHeader;
  let op := match frag with Some h => Opcode h | None => Opcode hd end in
  let rsv1 := GetRsv1 hd in
  if (rsv1 && failRsv1 op) || GetRsv2 hd || GetRsv3 hd then
    writeErrAndOnClose ProtocolError (rsv_error f)
  else
    maskKey ← gets (fun c => MaskKey (rh c));
    needMask ← gets (fun c => Mask (rh c));
    let rest : go (option wserror) :=
      if (Opcode hd =? Text) || (Opcode hd =? Binary) then on_data f rsv1 maskKey needMask
      else if (Opcode hd =? Close) || (Opcode hd =? Ping) || (Opcode hd =? Pong) then
        on_control f maskKey needMask
      else writeErrAndOnClose ProtocolError ErrOpcode ;; mret (Some ErrOpcode) in
    match frag with
    | Some h =>
        if negb (IsControl (Opcode hd)) then
          if Opcode hd =? Continuation then on_continuation h f maskKey needMask
          else writeErrAndOnClose ProtocolError ErrFrameOpcode ;; mret (Some ErrFrameOpcode)
        else rest
    | None => rest
    end.

(** ** The loops *)

(** [readPayloadAndCallback]; the frame is noted in the trace. *)
Definition readPayloadAndCallback : go (bool * option wserror) :=
  state ← getCurState;
  if negb (state =? frameStatePayload) then mret (false, None)
  else
    c ← get;
    let needCopy := negb (zeroCopyPayload cfg) || GetRsv1 (rh c) || negb (GetFin (rh c)) ||
                    match fragmentFrameHeader c with Some _ => true | None => false end in
    o ← readPayload needCopy;
    match o with
    | None => mret (false, None)
    | Some f =>
        modify (fun c => set_delivered (delivered c ++ [f]) c) ;;
        maybeCork ;;
        e ← processCallback f;
        match e with
        | Some e => closeWithLock cb (Some e) ;; mret (false, Some e)
        | None => setCurState frameStateHeaderStart ;; mret (true, None)
        end
    end.

(** Frames as long as there are whole ones. *)
Fixpoint parse_loop (fuel : nat) : go (option wserror) :=
  match fuel with
  | O => panic
  | S fuel =>
      r ← readHeader;
      match r with
      | (_, Some e) => mret (Some (Wrapped "read header err: " e))
      | (false, None) => mret None
      | (true, None) =>
          r ← readPayloadAndCallback;
          match r with
          | (_, Some e) => mret (Some (Wrapped "read payload err: " e))
          | (false, None) => mret None
          | (true, None) => parse_loop fuel
          end
      end
  end.

(** The unread bytes are at most [n]: enough rounds for all their frames. *)
Definition parse_fuel : go nat := gets (fun c => Z.to_nat (rw c - rr c) + 2)%nat.

(** A full buffer: parse one step to learn how much room is needed. *)
Definition full_buffer_step : go (option wserror) :=
  r ← readHeader;
  match snd r with
  | Some e => mret (Some (Wrapped "read header err: " e))
  | None =>
      r ← readPayloadAndCallback;
      match snd r with
      | Some e => mret (Some (Wrapped "read header err: " e))
      | None => mret None
      end
  end.

(** Reading until the socket is empty. *)
Fixpoint read_loop (fuel : nat) : go (option wserror) :=
  match fuel with
  | O => panic
  | S fuel =>
      n0 ← writeCap;
      r ← socketRead n0;
      let '(data, err) := r in
      match err with
      | Some EINTR => read_loop fuel
      | Some EAGAIN => mret None
      | Some e => mret (Some (Errno e))
      | None =>
          let n := zlen data in
          if (n =? 0) && (n0 >? 0) then
            closeWithLock cb (Some EOF) ;;
            once_OnClose cb (Some EOF) ;;
            mret (Some EOF)
          else
            buf ← deref_rbuf;
            w ← gets rw;
            modify (set_rbuf (Some (upto w buf ++ data ++ from (w + n) buf))) ;;
            modify (fun c => set_rw (rw c + n) c) ;;
            buf ← deref_rbuf;
            w ← gets rw;
            (if (w =? zlen buf) && (zlen buf <? batchReadBufferSize) then growReadBuffer else mret tt) ;;
            room ← writeCap;
            if room =? 0 then
              e ← full_buffer_step;
              match e with Some e => mret (Some e) | None => read_loop fuel end
            else if n <? n0 then mret None
            else read_loop fuel
      end
  end.

(** The end of a round: replies go out, an empty buffer goes back. *)
Definition end_round (err : option wserror) : go unit :=
  corkEnd cfg cb ;;
  modify (fun c =>
    if match err with Some _ => true | None => false end ||
       match rbuf c with Some _ => rr c =? rw c | None => false end
    then set_rbuf None (set_rw 0 (set_rr 0 c)) else c).

Definition processWebsocketFrame (fuel : nat) : go (option wserror) :=
  o ← gets rbuf;
  (match o with
   | None => n ← readBufferSize; modify (set_rbuf (Some (pool_slice n)))
   | Some _ => mret tt
   end) ;;
  e ← read_loop fuel;
  e ← match e with
      | Some e => mret (Some e)
      | None => k ← parse_fuel; parse_loop k
      end;
  end_round e ;;
  match e with
  | Some err => writeAndMaybeOnClose err ;; mret e
  | None => mret None
  end.

(** What a parsing goroutine runs when the bytes are already there. *)
Definition processHeaderPayloadCallback : go (option wserror) :=
  k ← parse_fuel;
  e ← parse_loop k;
  end_round e ;;
  mret e.

(** ** The event loop *)

(** What the poller reports for a descriptor. *)
Inductive poll_event : Type :=
  | PollError (again : bool)
  | PollReady (isRead isWrite : bool).

(** The callback that [EventLoop.Loop] gives to [Poll], without a parse pool.
    A closed connection is no longer in [safeConns]. *)
Definition on_poll (fuel : nat) (ev : poll_event) : go unit :=
  gone ← isClosed;
  if (gone : bool) then mret tt
  else
    match ev with
    | PollError again => if again then mret tt else Conn_Close cb
    | PollReady isRead isWrite =>
        need ← needFlush;
        (if isWrite && need then flush cfg cb else mret tt) ;;
        if isRead then
          e ← processWebsocketFrame fuel;
          match e with Some _ => Conn_Close cb | None => mret tt end
        else mret tt
    end.

Fixpoint run_events (fuel : nat) (evs : list poll_event) : go unit :=
  match evs with
  | [] => mret tt
  | ev :: evs => on_poll fuel ev ;; run_events fuel evs
  end.
End Read.
