(* ===== verification/WsPlain.v ===== *)
(** * WsPlain

    A concrete world for the websocket model, on which the witnesses run: a
    socket that delivers given pieces and takes given numbers of bytes, a pool
    of 1 KB pages, RFC 6455 masking.  It models nothing of the repository; it
    shows that the hypotheses on the world can be met. *)

From S2P Require Import Prelude GoStd Sock WsState WsWrite.

Fixpoint mask_from (i : Z) (b : bytes) (key : Z) : bytes :=
  match b with
  | [] => []
  | x :: b => Z.lxor x ((key >> (8 * (i mod 4))) .& 255) :: mask_from (i + 1) b key
  end.

Definition plain_frame (payload : bytes) (fin rsv1 isMask : bool) (op maskValue : Z) : bytes :=
  let b0 := (if fin then 0x80 else 0) .| (if rsv1 then 0x40 else 0) .| (op .& 0x0F) in
  let head := from 1 (wsHeader op (zlen payload)) in
  if isMask then
    b0 :: (at_ head 0 .| 0x80) :: from 1 head ++
      [u8 maskValue; u8 (maskValue >> 8); u8 (maskValue >> 16); u8 (maskValue >> 24)] ++
      mask_from 0 payload maskValue
  else b0 :: head ++ payload.

#[export] Instance plain_lib : WsLib := {|
  World := plain_world;
  GetBytes n := if n <=? 0 then 0 else (n + 1023) / 1024 * 1024;
  MaxFrameHeaderSize := 14;
  int_out_of_range _ := - 2 ^ 63;
  GetFin h := negb (Head h .& 0x80 =? 0);
  GetRsv1 h := negb (Head h .& 0x40 =? 0);
  GetRsv2 h := negb (Head h .& 0x20 =? 0);
  GetRsv3 h := negb (Head h .& 0x10 =? 0);
  IsControl op := op >=? 8;
  mask b key := mask_from 0 b key;
  frame_bytes := plain_frame;
  sys_read fd n w := if fd <? 0 then (inr (Eother "EBADF"), w) else plain_read n w;
  sys_write _ := plain_write;
  el_AddWrite _ w := (None, w);
  el_Del _ w := (None, w);
  el_ResetRead _ w := (None, w);
  el_close _ w := w;
  Compress b w := (inl b, w);
  Decompress b _ w := (inl b, w);
  rand_Uint32 w := (0x01020304, w);
|}.

#[export] Instance plain_laws : WsLaws.
Proof.
  refine {| incoming := plain_incoming : World -> bytes; reads_left := plain_left : World -> nat |};
    try done.
  - intros n Hn. cbn. destruct (Z.leb_spec n 0); [lia|]. zarith.
  - intros fd n w Hn. cbn. destruct (fd <? 0); [done|]. by apply plain_read_spec.
  - intros fd p w n w'. cbn. unfold plain_write. destruct (pw_room w) as [|k l]; [done|].
    intros [= <- _]. pose proof (zlen_nonneg p). lia.
  - intros fd p w. cbn. unfold plain_write. by destruct (pw_room w).
Defined.

Definition plain_config : Config := {|
  replyPing := true;
  ignorePong := false;
  utf8Check _ := true;
  windowsMultipleTimesPayloadSize := two32;
  readMaxMessage := 0;
  flowBackPressureRemoveRead := false;
  zeroCopyPayload := true;
  pd_Compression := false;
  pd_Decompression := false;
|}.

(** A callback that records the messages and the reasons for closing. *)
Inductive ws_event : Type :=
  | EvMessage (op : Z) (payload : bytes)
  | EvClose (err : option wserror).

Definition ws_note `{WsLib} (e : ws_event) : M (Conn (list ws_event)) unit :=
  modify (fun c => set_app (app c ++ [e]) c).

Definition recorder `{WsLib} : Callback (list ws_event) := {|
  OnMessage op p := ws_note (EvMessage op p);
  OnClose err := ws_note (EvClose err);
|}.
