(* ===== verification/WsSafe.v ===== *)
(** * WsSafe

    The writing side of a websocket connection loses, repeats and reorders
    nothing, whatever the socket accepts: at every moment the bytes the socket
    took followed by the bytes that wait are the frames of the messages in the
    order in which they were written.  The user's callbacks are known by their
    contract, [CallbackOk]. *)

From S2P Require Import Prelude Sock WsState WsWrite.

(** The flags do not disturb the state of the parser. *)
Lemma put_flag_state f v p : f .& stateMask = 0 -> put_flag f v p .& stateMask = p .& stateMask.
Proof. apply put_flag_other. Qed.

Section Safe.
Context `{WsLib} `{!WsLaws} {App : Type} (cfg : Config) (cb : Callback App).
Notation Conn := (Conn App).
Notation go A := (M Conn A).

Definition waiting (c : Conn) : bytes := slots (wbufList c).

(** What the writing side leaves alone. *)
Definition read_part (c : Conn) :=
  (rbuf c, rr c, rw c, lenAndMaskSize c, rh c, packed c .& stateMask, received c, delivered c,
   world_view (world c)).
Definition frag_part (c : Conn) := (fragmentFramePayload c, fragmentFrameHeader c).

Record step (c c' : Conn) : Prop := {
  st_read : read_part c' = read_part c;
  st_frag : frag_part c' = frag_part c;
  st_closed : closed c = true -> closed c' = true;
}.

#[export] Instance step_preorder : PreOrder step.
Proof. split; [by intros c|]. intros c1 c2 c3 [] []. split; [congruence|congruence|auto]. Qed.

(** Every slot holds a buffer; after a fatal error the front slots may be
    empty, but the one that failed is still there. *)
Definition Winv (c : Conn) : Prop :=
  Forall slot_ok (wbufList c) \/ (closed c = true /\ (2 <= length (wbufList c))%nat).

Class CallbackOk : Prop := {
  cbo_message op p c : Winv c -> wp (OnMessage cb op p) (fun _ c' => Winv c' /\ step c c') c;
  cbo_close err c : Winv c -> wp (OnClose cb err) (fun _ c' => Winv c' /\ step c c') c;
}.

Definition calm {A} (m : go A) : Prop := forall c, Winv c -> wp m (fun _ c' => Winv c' /\ step c c') c.

Lemma calm_mret {A} (a : A) : calm (mret a).
Proof. intros c Hc. by apply wp_ret. Qed.

Lemma calm_bind {A B} (m : go A) (k : A -> go B) : calm m -> (forall a, calm (k a)) -> calm (m ≫= k).
Proof.
  intros Hm Hk c Hc. apply wp_bind. eapply wp_mono; [by apply Hm|]. cbn. intros a c1 [W1 S1].
  eapply wp_mono; [by apply Hk|]. cbn. intros b c2 [W2 S2]. split; [done|by transitivity c1].
Qed.

Lemma calm_check {E} (m k : go (option E)) : calm m -> calm k -> calm (check m k).
Proof. intros Hm Hk. apply calm_bind; [done|]. intros [e|]; [apply calm_mret|done]. Qed.

Lemma calm_gets {A} (f : Conn -> A) : calm (gets f).
Proof. intros c Hc. by apply wp_gets. Qed.

Lemma calm_modify (g : Conn -> Conn) : (forall c, Winv c -> Winv (g c) /\ step c (g c)) -> calm (modify g).
Proof. intros Hg c Hc. by apply wp_modify, Hg. Qed.

Lemma wp_outside {A} (f : World -> A * World) (Q : A -> Conn -> Prop) c :
  (forall w, world_view (snd (f w)) = world_view w) ->
  (forall a w', step c (set_world w' c) -> Q a (set_world w' c)) -> wp (outside f) Q c.
Proof.
  intros Hf HQ. unfold wp, outside. specialize (Hf (world c)). destruct (f (world c)) as [a w'].
  apply HQ. split; [|done|done]. unfold read_part. cbn in *. by rewrite Hf.
Qed.

Lemma calm_outside {A} (f : World -> A * World) :
  (forall w, world_view (snd (f w)) = world_view w) -> calm (outside f).
Proof. intros Hf c Hc. apply wp_outside; [done|]. intros a w' Hs. done. Qed.

Context `{!CallbackOk}.

(** ** Closing *)

Lemma calm_once_OnClose err : calm (once_OnClose cb err).
Proof.
  apply calm_bind; [apply calm_gets|]. intros [|]; [apply calm_mret|].
  apply calm_bind; [by apply calm_modify|]. intros _ c Hc. by apply cbo_close.
Qed.

(** Closing from a state whose list is still usable. *)
Lemma wp_closeWithoutLockOnClose err b c :
  Winv (set_closed true c) ->
  wp (closeWithoutLockOnClose cb err b) (fun _ c' => Winv c' /\ step c c' /\ closed c' = true) c.
Proof.
  intros Hc. unfold closeWithoutLockOnClose, isClosed. wp_steps.
  destruct (closed c) eqn:Hcl; [wp_steps; split; [|by split]; destruct c; cbn in *; by subst|].
  unfold del. wp_steps. apply wp_outside; [intros w; apply el_close_view|]. intros [] w' Hs. wp_steps.
  set (c1 := set_closed true _). assert (Winv c1) as W1 by exact Hc.
  assert (step c c1) as S1 by (split; [exact (st_read _ _ Hs)|exact (st_frag _ _ Hs)|done]).
  destruct b; [|by apply wp_ret].
  eapply wp_mono; [by apply calm_once_OnClose|]. cbn. intros _ c2 [W2 S2].
  split; [done|]. split; [by transitivity c1|]. by apply (st_closed _ _ S2).
Qed.

Lemma wp_closeNoLock err c :
  Winv (set_closed true c) ->
  wp (closeNoLock cb err) (fun _ c' => Winv c' /\ step c c' /\ closed c' = true) c.
Proof. apply wp_closeWithoutLockOnClose. Qed.

Lemma Winv_close c : Winv c -> Winv (set_closed true c).
Proof. intros [?|[? ?]]; [by left|by right]. Qed.

Lemma calm_closeWithLock err : calm (closeWithLock cb err).
Proof.
  intros c Hc. unfold closeWithLock, isClosed. wp_steps. destruct (closed c) eqn:Hcl; [by wp_steps|].
  wp_steps. eapply wp_mono; [apply wp_closeWithoutLockOnClose, Winv_close, Hc|].
  cbn. intros _ c1 (W1 & S1 & Hc1). wp_steps. rewrite Hc1.
  eapply wp_mono; [by apply calm_once_OnClose|]. cbn. intros _ c2 [W2 S2].
  split; [done|by transitivity c1].
Qed.

(** ** The list of waiting buffers *)

Lemma append_new_eq k data old (c : Conn) :
  0 < zlen data -> 0 <= old ->
  exists b, append_new (S k) data old c = Some (tt, set_wbufList (wbufList c ++ [Some b]) c) /\
            wb_data b = data /\ slot_ok (Some b).
Proof.
  intros Hd Ho. cbn [append_new]. replace (zlen data =? 0) with false by lia.
  pose proof (GetBytes_enough (zlen data + old)) as Hg.
  replace (zlen data >? GetBytes (zlen data + old)) with false by lia.
  exists (mkWbuf data (GetBytes (zlen data + old))).
  split; [|split; [done|cbn; lia]].
  unfold modify, mbind, M_bind. rewrite from_all, upto_all by lia. by destruct k.
Qed.

(** Appending keeps the order and the slots. *)
Lemma wp_append data old (c : Conn) :
  Forall slot_ok (wbufList c) -> 0 <= old ->
  wp (appendToWbufList data old)
     (fun _ c' => exists l, c' = set_wbufList l c /\ Forall slot_ok l /\
        slots l = slots (wbufList c) ++ data) c.
Proof.
  intros Hok Ho. unfold appendToWbufList. pose proof (zlen_nonneg data).
  destruct (Z.eqb_spec (zlen data) 0) as [Hz|Hz].
  { apply zlen_zero in Hz as ->. wp_steps. exists (wbufList c). rewrite app_nil_r. by destruct c. }
  wp_steps. pose proof (GetBytes_enough (zlen data + old)) as Hg.
  destruct (last (wbufList c)) as [[b|]|] eqn:Hl.
  - pose proof (last_split _ _ Hl) as Hsplit. rewrite Hsplit in Hok.
    apply Forall_app in Hok as [Hinit Hlast]. rewrite Forall_singleton in Hlast. cbn in Hlast.
    set (room := wb_cap b - zlen (wb_data b)) in *.
    assert (forall d, zlen d <= room ->
      Forall slot_ok (take (length (wbufList c) - 1) (wbufList c) ++ [Some (mkWbuf (wb_data b ++ d) (wb_cap b))]) /\
      slots (take (length (wbufList c) - 1) (wbufList c) ++ [Some (mkWbuf (wb_data b ++ d) (wb_cap b))]) =
      slots (wbufList c) ++ d) as Hput.
    { intros d Hd. split.
      - apply Forall_app. split; [done|]. apply Forall_singleton. cbn. rewrite zlen_app. lia.
      - assert (slots (wbufList c) = slots (take (length (wbufList c) - 1) (wbufList c)) ++ wb_data b) as ->
          by (rewrite Hsplit at 1; by rewrite slots_app, slots_one).
        by rewrite slots_app, slots_one, <- app_assoc. }
    branch Hroom.
    + wp_steps. destruct (Hput data) as [Hp1 Hp2]; [lia|]. by eexists.
    + wp_steps. destruct (room >? 0) eqn:Hr.
      * destruct (Hput (upto room data)) as [Hp1 Hp2]; [rewrite zlen_upto by lia; lia|].
        wp_steps. set (l1 := take _ _ ++ [Some (mkWbuf (wb_data b ++ _) _)]) in *.
        destruct (append_new_eq (length (from room data)) (from room data) old (set_wbufList l1 c))
          as (nb & E & Hnb & Hnok); [rewrite zlen_from by lia; lia|done|].
        eapply wp_intro; [exact E|]. eexists. split; [done|]. cbn [wbufList set_wbufList]. split.
        -- apply Forall_app. split; [done|by apply Forall_singleton].
        -- by rewrite slots_app, slots_one, Hp2, Hnb, <- app_assoc, upto_from.
      * wp_steps. destruct (append_new_eq (length data) data old c) as (nb & E & Hnb & Hnok); [lia|done|].
        eapply wp_intro; [exact E|]. eexists. split; [done|]. split.
        -- rewrite Hsplit. apply Forall_app. split; [|by apply Forall_singleton].
           apply Forall_app. split; [done|]. by apply Forall_singleton.
        -- by rewrite slots_app, slots_one, Hnb.
  - apply last_Some in Hl as [l' Hl']. rewrite Hl' in Hok. apply Forall_app in Hok as [_ Hbad].
    by rewrite Forall_singleton in Hbad.
  - apply last_None in Hl. rewrite Hl. replace (zlen data <=? _) with true by lia.
    wp_steps. eexists. split; [done|]. split; [apply Forall_singleton; cbn; lia|by rewrite slots_one].
Qed.

(** What one write to the socket does. *)
Record pushed (p : bytes) (n : Z) (c c' : Conn) : Prop := {
  pu_n : 0 <= n <= zlen p;
  pu_sent : sent c' = sent c ++ upto n p;
  pu_list : wbufList c' = wbufList c;
  pu_packed : packed c' = packed c;
  pu_closed : closed c' = closed c;
  pu_fd : fd c' = fd c;
  pu_step : step c c';
}.

Lemma upto_nil {A} (l : list A) : upto 0 l = [].
Proof. done. Qed.

Lemma wp_send p (c : Conn) :
  wp (send p) (fun r c' => pushed p (fst r) c c' /\ (snd r <> None -> fst r = 0)) c.
Proof.
  unfold send. wp_steps. unfold wp, outside.
  pose proof (sys_write_view (fd c) p (world c)) as Hv. pose proof (sys_write_spec (fd c) p (world c)) as Hw.
  destruct (sys_write (fd c) p (world c)) as [[n|e] w']; cbn in *; pose proof (zlen_nonneg p).
  - specialize (Hw n w' eq_refl). split; [|done].
    split; cbn; try done. split; try done. unfold read_part. cbn. by rewrite Hv.
  - split; [|done]. split; cbn; try done; [by rewrite app_nil_r|].
    split; try done. unfold read_part. cbn. by rewrite Hv.
Qed.

Lemma wp_socketWrite p (c : Conn) :
  wp (socketWrite p) (fun r c' => pushed p (fst r) c c' /\ (snd r <> None -> fst r = 0)) c.
Proof.
  unfold socketWrite. destruct (Z.eqb_spec (zlen p) 0) as [Hz|Hz]; [|apply wp_send].
  wp_steps. split; [|done]. apply zlen_zero in Hz as ->. split; try done. cbn. by rewrite app_nil_r.
Qed.

Lemma wp_writeToSocket p (c : Conn) :
  wp (writeToSocket p) (fun r c' => pushed p (fst r) c c' /\ (snd r <> None -> fst r = 0)) c.
Proof.
  unfold writeToSocket. wp_steps. eapply wp_mono; [apply wp_socketWrite|]. cbn.
  intros [n [e|]] c' [Hp Hn]; wp_steps; [|by split]. cbn in *. rewrite (Hn ltac:(done)) in Hp. by split.
Qed.

(** An operation on the list that leaves the rest of the connection. *)
Record quiet (c c' : Conn) : Prop := {
  qu_sent : sent c' = sent c;
  qu_packed : packed c' = packed c;
  qu_closed : closed c' = closed c;
  qu_step : step c c';
}.

Lemma wp_wait_writable (c : Conn) :
  wp (wait_writable cfg) (fun _ c' => quiet c c' /\ wbufList c' = wbufList c) c.
Proof.
  unfold wait_writable, delRead, addWrite. branch Hf; wp_steps;
    (apply wp_outside; [apply el_Del_view || apply el_AddWrite_view|]); intros a w' Hs; wp_steps; by split.
Qed.

(** Taking the front of a list into the socket. *)
Lemma slots_push l c c' n p rest :
  pushed p n c c' -> slots l = from n p ++ rest ->
  sent c' ++ slots l = sent c ++ p ++ rest.
Proof.
  intros [] ->. rewrite pu_sent0, <- app_assoc, (app_assoc (upto n p)). by rewrite upto_from.
Qed.

Lemma set_slot (done : nat) (x y : option wbuf) l :
  <[done := y]> (replicate done None ++ x :: l) = replicate done None ++ y :: l.
Proof.
  replace done with (length (replicate done (@None wbuf)) + 0)%nat at 1
    by (rewrite length_replicate; lia).
  by rewrite insert_app_r.
Qed.

Lemma get_slot (done : nat) (x : option wbuf) l : (replicate done None ++ x :: l) !! done = Some x.
Proof. apply list_lookup_middle. by rewrite length_replicate. Qed.

Lemma from_slots (done : nat) (l : list (option wbuf)) : from (Z.of_nat done) (replicate done None ++ l) = l.
Proof.
  unfold from. rewrite Nat2Z.id. apply drop_app_length'. by rewrite length_replicate.
Qed.

Lemma wp_compact (done : nat) l (c : Conn) Q :
  wbufList c = replicate done None ++ l -> (forall c', c' = set_wbufList l c -> Q tt c') ->
  wp (compactWbufList (Z.of_nat done)) Q c.
Proof.
  intros Hl HQ. unfold compactWbufList. destruct (Z.eqb_spec (Z.of_nat done) 0) as [E|E].
  - wp_steps. apply HQ. assert (done = 0%nat) as -> by lia. cbn in Hl. rewrite <- Hl. by destruct c.
  - wp_steps. apply HQ. by rewrite Hl, from_slots.
Qed.

Lemma step_list l (c c' : Conn) : step c c' -> step c (set_wbufList l c').
Proof. intros [Hr Hf Hc]. split; [exact Hr|exact Hf|exact Hc]. Qed.

(** A slot that could not be emptied is replaced by what is left of it. *)
Lemma wp_partial done b n rest (c : Conn) :
  wbufList c = replicate done None ++ Some b :: rest -> 0 <= n < zlen (wb_data b) ->
  wp (handlePartialWrite_slot cfg done b n)
     (fun _ c' => quiet c c' /\
        wbufList c' = replicate done None ++ Some (mkWbuf (from n (wb_data b)) (wb_cap b)) :: rest) c.
Proof.
  intros Hl Hn. unfold handlePartialWrite_slot. replace (n <? 0) with false by lia.
  replace (n >=? zlen (wb_data b)) with false by lia. wp_steps. rewrite Hl, set_slot.
  eapply wp_mono; [apply wp_wait_writable|]. cbn. intros _ c' [[] E]. split; [|done].
  split; try done. transitivity (set_wbufList (replicate done None ++
    Some (mkWbuf (from n (wb_data b)) (wb_cap b)) :: rest) c); [by apply step_list|done].
Qed.

Lemma Winv_slots done x rest (c : Conn) :
  wbufList c = replicate done None ++ x :: rest -> slot_ok x -> Forall slot_ok rest ->
  Winv (set_closed true c).
Proof.
  intros Hl Hx Hr. destruct done as [|done].
  - left. cbn. rewrite Hl. by constructor.
  - right. cbn. rewrite Hl. split; [done|]. rewrite length_app, length_replicate. cbn. lia.
Qed.

Lemma wp_write_loop k : forall done total rest (c : Conn),
  closed c = false -> wbufList c = replicate done None ++ rest -> Forall slot_ok rest ->
  (length rest < k)%nat ->
  wp (write_loop cfg cb k done total) (fun r c' => step c c' /\
    match r with
    | inl d => closed c' = false /\ wbufList c' = replicate d None /\
               sent c' = sent c ++ slots rest /\ packed c' = packed c
    | inr (n, None) => closed c' = false /\ Forall slot_ok (wbufList c') /\ n = total /\
               sent c' ++ waiting c' = sent c ++ slots rest /\ packed c' = packed c /\
               (length (wbufList c') <= length rest)%nat
    | inr (_, Some _) => Winv c' /\ closed c' = true
    end) c.
Proof.
  induction k as [|k IH]; intros done total rest c Hcl Hl Hok Hk; [lia|].
  cbn [write_loop]. wp_steps. destruct rest as [|[b|] rest].
  - rewrite app_nil_r in Hl. rewrite Hl, lookup_ge_None_2 by (rewrite length_replicate; lia).
    wp_steps. split; [done|]. split; [done|]. split; [done|]. by rewrite app_nil_r.
  - apply Forall_cons in Hok as [Hb Hok]. rewrite Hl, get_slot. wp_steps.
    eapply wp_mono; [apply wp_writeToSocket|]. cbn. intros [n err] c1 [Hp Hn]. cbn in *.
    pose proof (pu_list _ _ _ _ Hp) as Hl1. rewrite Hl in Hl1.
    pose proof (pu_closed _ _ _ _ Hp) as Hcl1. rewrite Hcl in Hcl1.
    pose proof (pu_n _ _ _ _ Hp) as Hn1. pose proof (pu_step _ _ _ _ Hp) as S1.
    destruct (is_soft err).
    + destruct (Z.eqb_spec n (zlen (wb_data b))) as [E|E].
      * wp_steps. rewrite Hl1, set_slot.
        eapply wp_mono; [apply (IH (S done) total rest); [done| |done|cbn in Hk; lia]|].
        { by rewrite replicate_S_end, <- app_assoc. }
        cbn. intros r c2 [S2 Hr]. rewrite (pu_sent _ _ _ _ Hp), E, upto_all, <- app_assoc in Hr by lia.
        rewrite (pu_packed _ _ _ _ Hp) in Hr. split; [transitivity c1; [done|by destruct S2]|].
        destruct r as [d|[m [e|]]]; [done|done|]. decompose [and] Hr. repeat split; try done. lia.
      * wp_steps. eapply wp_mono; [apply (wp_partial done b n rest); [done|lia]|]. cbn.
        intros e c2 [[Q1 Q2 Q3 S2] Hl2].
        assert (slot_ok (Some (mkWbuf (from n (wb_data b)) (wb_cap b)))) as Hs
          by (cbn in *; rewrite zlen_from by lia; lia).
        destruct e as [e|]; wp_steps.
        -- eapply wp_mono; [eapply wp_closeNoLock, Winv_slots; [exact Hl2|done|done]|].
           cbn. intros _ c3 (W3 & S3 & C3). wp_steps. split; [|done].
           transitivity c1; [done|]. by transitivity c2.
        -- eapply wp_compact; [exact Hl2|]. intros c3 ->. wp_steps. cbn.
           split; [by transitivity c1; [|apply step_list]|]. split; [by rewrite Q3|].
           split; [by constructor|]. split; [done|]. split; [|split; [by rewrite Q2, (pu_packed _ _ _ _ Hp)|lia]].
           unfold waiting. cbn [wbufList set_wbufList]. rewrite Q1.
           exact (slots_push (Some (mkWbuf (from n (wb_data b)) (wb_cap b)) :: rest) c c1 n (wb_data b)
             (slots rest) Hp eq_refl).
    + wp_steps. eapply wp_mono; [eapply wp_closeNoLock, Winv_slots; [exact Hl1|done|done]|].
      cbn. intros _ c3 (W3 & S3 & C3). wp_steps. split; [|done]. by transitivity c1.
  - by apply Forall_cons in Hok as [Hb _].
Qed.

Record wrote (b : bytes) (c c' : Conn) : Prop := {
  wr_closed : closed c' = closed c;
  wr_ok : Forall slot_ok (wbufList c');
  wr_wire : sent c' ++ waiting c' = sent c ++ waiting c ++ b;
  wr_packed : packed c' = packed c;
  wr_length : b = [] -> (length (wbufList c') <= length (wbufList c))%nat;
}.

Lemma wrote_Winv b c c' : wrote b c c' -> Winv c'.
Proof. intros []. by left. Qed.

(** The result of a write: an error that closed the connection or left it
    alone, or the bytes are on their way. *)
Definition write_post (b : bytes) (c : Conn) (e : option wserror) (c' : Conn) : Prop :=
  Winv c' /\ step c c' /\
  match e with None => wrote b c c' | Some _ => closed c' = true \/ c' = c end.

(** Nothing was waiting. *)
Lemma wp_write_direct data (c : Conn) :
  closed c = false -> wbufList c = [] ->
  wp (r ← writeToSocket data;
      let '(n, err) := r in
      if is_soft err then
        if n =? zlen data then mret (n, None)
        else
          e ← handlePartialWrite_append cfg data n;
          match e with
          | Some e => closeNoLock cb (Some e) ;; mret (0, Some e)
          | None => mret (zlen data, None)
          end
      else
        let e := Errno (default EAGAIN err) in closeNoLock cb (Some e) ;; mret (n, Some e))
     (fun r c' => write_post data c (snd r) c') c.
Proof.
  intros Hcl Hl. wp_steps. eapply wp_mono; [apply wp_writeToSocket|]. cbn. intros [n err] c1 [Hp Hn].
  cbn in *. pose proof (pu_list _ _ _ _ Hp) as Hl1. rewrite Hl in Hl1.
  pose proof (pu_n _ _ _ _ Hp) as Hn1. pose proof (pu_step _ _ _ _ Hp) as S1.
  destruct (is_soft err).
  - destruct (Z.eqb_spec n (zlen data)) as [E|E]; wp_steps; cbn.
    + assert (wrote data c c1) as Hw.
      { split; [by rewrite (pu_closed _ _ _ _ Hp)|by rewrite Hl1| |by rewrite (pu_packed _ _ _ _ Hp)|by rewrite Hl1, Hl].
        unfold waiting. rewrite (pu_sent _ _ _ _ Hp), Hl1, Hl, E, upto_all by lia. cbn.
        by rewrite app_nil_r. }
      split; [by eapply wrote_Winv|done].
    + unfold handlePartialWrite_append. replace (n <? 0) with false by lia.
      replace (n >=? zlen data) with false by lia. wp_steps.
      eapply wp_mono; [apply wp_append; [by rewrite Hl1|apply zlen_nonneg]|].
      cbn. intros _ c2 (l & -> & Hok & Hs). rewrite Hl1, app_nil_l in Hs.
      eapply wp_mono; [apply wp_wait_writable|]. cbn. intros e c3 [[Q1 Q2 Q3 S3] Hl3]. cbn in *.
      assert (step c c3) as S13 by (transitivity c1; [done|]; transitivity (set_wbufList l c1); [by apply step_list|done]).
      destruct e as [e|]; wp_steps; cbn.
      * eapply wp_mono; [apply wp_closeNoLock; left; cbn; by rewrite Hl3|].
        cbn. intros _ c4 (W4 & S4 & C4). wp_steps. split; [done|]. split; [by transitivity c3|by left].
      * assert (wrote data c c3) as Hw; [|split; [by eapply wrote_Winv|done]].
        split; [by rewrite Q3, (pu_closed _ _ _ _ Hp)|by rewrite Hl3| |by rewrite Q2, (pu_packed _ _ _ _ Hp)|].
        -- unfold waiting. rewrite Q1, (pu_sent _ _ _ _ Hp), Hl3, Hs, Hl. cbn.
           by rewrite <- app_assoc, upto_from.
        -- intros ->. rewrite zlen_nil in *. lia.
  - wp_steps. eapply wp_mono; [apply wp_closeNoLock; left; cbn; by rewrite Hl1|].
    cbn. intros _ c4 (W4 & S4 & C4). wp_steps. split; [done|]. split; [by transitivity c1|by left].
Qed.

Lemma wp_write data (c : Conn) :
  closed c = false -> Forall slot_ok (wbufList c) ->
  wp (write cfg cb data) (fun r c' => write_post data c (snd r) c') c.
Proof.
  intros Hcl Hok. unfold write. wp_steps.
  destruct (fd c =? -1); [wp_steps; split; [by left|split; [done|by right]]|].
  wp_steps. destruct (wbufList c) as [|o l] eqn:Hl.
  - destruct (Z.eqb_spec (zlen data) 0) as [Hz|Hz]; [|by apply wp_write_direct].
    apply zlen_zero in Hz as ->. wp_steps. split; [left; by rewrite Hl|]. split; [done|].
    split; [done|by rewrite Hl|by rewrite !app_nil_r|done|done].
  - wp_steps. rewrite <- Hl in *.
    eapply (wp_mono _ (fun _ c' => exists l, c' = set_wbufList l c /\ Forall slot_ok l /\
              slots l = slots (wbufList c) ++ data /\ (data = [] -> l = wbufList c))).
    { pose proof (zlen_nonneg data). destruct (Z.ltb_spec 0 (zlen data)) as [Hd|Hd].
      - eapply wp_mono; [apply wp_append; [done|lia]|]. cbn. intros _ c' (l1 & -> & ? & ?).
        exists l1. split; [done|]. split; [done|]. split; [done|]. by intros ->.
      - assert (data = []) as -> by (apply zlen_zero; lia). wp_steps. exists (wbufList c).
        rewrite app_nil_r. by destruct c. }
    cbv beta. intros _ c1 (l1 & -> & Hok1 & Hs1 & Hl1). wp_steps. cbn [wbufList set_wbufList].
    eapply wp_mono; [apply (wp_write_loop _ 0 (zlen data) l1); [done|done|done|lia]|].
    cbn. intros r c2 [S2 Hr].
    assert (step c c2) as S02 by (transitivity (set_wbufList l1 c); [by apply step_list|done]).
    destruct r as [d|[n [e|]]].
    + destruct Hr as (C2 & L2 & E2 & P2). rewrite Hs1 in E2. wp_steps.
      eapply (wp_compact d []); [by rewrite app_nil_r|]. intros c3 ->. wp_steps.
      eapply (wp_mono _ (fun _ c' => quiet (set_wbufList [] c2) c' /\ wbufList c' = [])).
      { destruct (flowBackPressureRemoveRead cfg); [|by wp_steps].
        wp_steps. apply wp_outside; [apply el_ResetRead_view|]. intros a w' Hs. by wp_steps. }
      cbn. intros _ c4 [[Q1 Q2 Q3 S4] L4]. cbn in *. wp_steps. cbn.
      assert (wrote data c c4) as Hw.
      { split; [by rewrite Q3, Hcl|by rewrite L4| |by rewrite Q2|by rewrite L4; cbn; lia].
        unfold waiting. rewrite Q1, L4, E2. cbn. by rewrite app_nil_r. }
      split; [by eapply wrote_Winv|]. split; [|done].
      transitivity c2; [done|]. transitivity (set_wbufList [] c2); [by apply step_list|done].
    + wp_steps. destruct Hr as [W2 C2]. split; [done|]. split; [done|by left].
    + destruct Hr as (C2 & K2 & _ & E2 & P2 & L2). wp_steps. rewrite Hs1 in E2.
      assert (wrote data c c2) as Hw; [|split; [by left|done]].
      split; [by rewrite C2|done|done|done|]. intros Hd. rewrite (Hl1 Hd) in L2. done.
Qed.

Lemma wp_connWrite data (c : Conn) :
  Winv c -> wp (connWrite cfg cb data) (fun r c' => write_post data c (snd r) c') c.
Proof.
  intros Hc. unfold connWrite, isClosed. wp_steps. destruct (closed c) eqn:Hcl.
  - wp_steps. split; [done|]. split; [done|by left].
  - destruct Hc as [Hok|[? _]]; [|congruence]. by apply wp_write.
Qed.

Lemma wp_flushLocked (c : Conn) :
  Winv c -> wp (flushLocked cfg cb)
    (fun _ c' => Winv c' /\ step c c' /\ (closed c' = true \/ c' = c \/ wrote [] c c')) c.
Proof.
  intros Hc. unfold flushLocked. wp_steps. eapply wp_mono; [by apply wp_connWrite|].
  cbn. intros [n [e|]] c' (W & S1 & Hr); wp_steps; (split; [done|]); (split; [done|]); cbn in Hr; tauto.
Qed.

Lemma calm_flushLocked : calm (flushLocked cfg cb).
Proof. intros c Hc. eapply wp_mono; [by apply wp_flushLocked|]. cbn. tauto. Qed.
End Safe.
