(* ===== verification/WsWire.v ===== *)
(** * WsWire

    Corking and [WriteMessage] on top of [WsSafe]: the property that the frames
    of a sequence of messages reach the socket in order, each exactly once. *)

From S2P Require Import Prelude Sock WsState WsWrite WsPlain WsSafe.

Section Wire.
Context `{WsLib} `{!WsLaws} {App : Type} (cfg : Config) (cb : Callback App) `{!CallbackOk cb}.
Notation Conn := (Conn App).
Notation go A := (M Conn A).

(** While corking, the replies are in one buffer. *)
Definition cork1 (c : Conn) : Prop :=
  has_flag flagCorking (packed c) = true -> (length (wbufList c) <= 1)%nat.

(** Bytes added at the end of the wire. *)
Record wired (b : bytes) (c c' : Conn) : Prop := {
  wi_closed : closed c' = closed c;
  wi_ok : Forall slot_ok (wbufList c');
  wi_wire : sent c' ++ waiting c' = sent c ++ waiting c ++ b;
  wi_cork : cork1 c';
}.

Lemma cork_state v p : put_flag flagCorking v p .& stateMask = p .& stateMask.
Proof. by apply put_flag_state. Qed.

(** Changes of the list and of the corking flag only. *)
Record corked (c c' : Conn) : Prop := {
  co_sent : sent c' = sent c;
  co_closed : closed c' = closed c;
  co_step : step c c';
}.

Lemma corked_list l (c : Conn) : corked c (set_wbufList l c).
Proof. split; [done..|]. by apply step_list. Qed.

Lemma corked_flag v (c : Conn) : corked c (set_packed (put_flag flagCorking v (packed c)) c).
Proof. split; [done..|]. split; try done. unfold read_part. cbn [packed set_packed rbuf rr rw lenAndMaskSize rh received delivered world]. by rewrite cork_state. Qed.

Lemma corked_trans (c1 c2 c3 : Conn) : corked c1 c2 -> corked c2 c3 -> corked c1 c3.
Proof. intros [] []. split; [congruence|congruence|by transitivity c2]. Qed.

Lemma wp_corkStart n (c : Conn) Q :
  0 <= n ->
  (forall cap c', 0 <= cap -> wbufList c' = [Some (mkWbuf [] cap)] -> corked c c' -> Q tt c') ->
  wp (corkStartLocked n) Q c.
Proof.
  intros Hn HQ. unfold corkStartLocked, setCorking. set (k := if n >? maxCorkBytes then _ else _).
  assert (0 <= k) as Hk by (unfold k, maxCorkBytes; destruct (_ >? _); lia).
  pose proof (Z.quot_pos k 4 Hk ltac:(lia)). pose proof (GetBytes_enough (k + Z.quot k 4) ltac:(lia)).
  wp_steps. eapply (HQ (GetBytes (k + Z.quot k 4))); [lia|done|].
  eapply corked_trans; [apply corked_list|]. apply (corked_flag true).
Qed.

Lemma wp_set_last init b b' (c : Conn) Q :
  wbufList c = init ++ [Some b] -> Q tt (set_wbufList (init ++ [Some b']) c) ->
  wp (set_last_buf b') Q c.
Proof.
  intros Hl HQ. unfold set_last_buf. wp_steps. rewrite Hl, length_app. cbn [length].
  replace (length init + 1 - 1)%nat with (length init) by lia. by rewrite take_app_length.
Qed.

Lemma Forall_last init b b' :
  Forall slot_ok (init ++ [Some b]) -> zlen (wb_data b') <= wb_cap b' ->
  Forall slot_ok (init ++ [Some b']).
Proof.
  intros Hok Hb. apply Forall_app in Hok as [Hi _]. apply Forall_app. split; [done|].
  by apply Forall_singleton.
Qed.

Lemma zlen_wsHeader op n : 0 <= n -> 0 < zlen (wsHeader op n).
Proof.
  intros Hn. unfold wsHeader. destruct (_ <=? 125); [done|]. by destruct (_ <=? 65535).
Qed.

(** Appending two pieces one after the other. *)
Lemma wp_append_then data old data2 old2 (c : Conn) Q :
  Forall slot_ok (wbufList c) -> 0 <= old -> 0 <= old2 ->
  (forall l, Forall slot_ok l -> slots l = slots (wbufList c) ++ data ++ data2 -> Q tt (set_wbufList l c)) ->
  wp (appendToWbufList data old ;; appendToWbufList data2 old2) Q c.
Proof.
  intros Hok Ho Ho2 HQ. wp_steps. eapply wp_mono; [by apply wp_append|].
  cbv beta. intros _ c' (l & -> & Hl & Hs). eapply wp_mono; [by apply wp_append|].
  cbv beta. intros [] c' (l2 & -> & Hl2 & Hs2). apply HQ; [done|].
  by rewrite Hs2, app_assoc, <- Hs.
Qed.

(** What the socket did not take of a spilled batch goes back to the list. *)
Lemma wp_leftover seg hdr payload n (c : Conn) :
  let total := zlen seg + zlen hdr + zlen payload in
  Forall slot_ok (wbufList c) -> 0 <= n <= total ->
  wp (if n <? zlen seg then
        appendToWbufList (from n seg) (total - n) ;;
        appendToWbufList hdr (zlen hdr + zlen payload) ;;
        appendToWbufList payload (zlen payload)
      else if n <? zlen seg + zlen hdr then
        appendToWbufList (from (n - zlen seg) hdr) (zlen hdr + zlen payload - n + zlen seg) ;;
        appendToWbufList payload (zlen payload)
      else appendToWbufList (from (n - zlen seg - zlen hdr) payload) (total - n))
     (fun _ c' => exists l, c' = set_wbufList l c /\ Forall slot_ok l /\
        slots l = slots (wbufList c) ++ from n (seg ++ hdr ++ payload)) c.
Proof.
  intros total Hok Hn. unfold total in *.
  pose proof (zlen_nonneg seg). pose proof (zlen_nonneg hdr). pose proof (zlen_nonneg payload).
  destruct (Z.ltb_spec n (zlen seg)) as [Ha|Ha]; [|destruct (Z.ltb_spec n (zlen seg + zlen hdr)) as [Hb|Hb]].
  - wp_step. eapply wp_mono; [apply wp_append; [done|lia]|]. cbv beta. intros _ c' (l & -> & Hl & Hs).
    apply wp_append_then; [done|lia|lia|]. intros l2 Hl2 Hs2. exists l2. split; [done|]. split; [done|].
    cbn [wbufList set_wbufList] in Hs2. by rewrite Hs2, Hs, <- app_assoc, from_app_le by lia.
  - apply wp_append_then; [done|lia|lia|]. intros l2 Hl2 Hs2. exists l2. split; [done|]. split; [done|].
    rewrite Hs2. f_equal. replace n with (zlen seg + (n - zlen seg)) at 2 by lia.
    by rewrite <- from_from, from_app_length, from_app_le by lia.
  - eapply wp_mono; [apply wp_append; [done|lia]|]. cbv beta. intros _ c' (l & -> & Hl & Hs).
    exists l. split; [done|]. split; [done|]. rewrite Hs. f_equal.
    replace n with (zlen seg + (zlen hdr + (n - zlen seg - zlen hdr))) at 2 by lia.
    rewrite <- from_from, from_app_length by lia. by rewrite <- from_from, from_app_length by lia.
Qed.

Lemma concat3 {A} (a b c : list A) : concat [a; b; c] = a ++ b ++ c.
Proof. cbn. by rewrite app_nil_r. Qed.

(** A batch and a frame, written together. *)
Lemma wp_corkSpill init b hdr payload (c : Conn) :
  closed c = false -> wbufList c = init ++ [Some b] -> Forall slot_ok (wbufList c) ->
  wp (corkSpill b hdr payload)
     (fun e c' => Winv c' /\ step c c' /\
        (e = None -> init = [] -> wired (hdr ++ payload) c c')) c.
Proof.
  intros Hcl Hl Hok. unfold corkSpill, socketWritev3, writevIovec. rewrite concat3. wp_steps.
  set (all := wb_data b ++ hdr ++ payload).
  eapply wp_mono; [apply wp_send|]. cbv beta. intros [n err] c1 [Hp Hn]. cbn [fst snd] in *.
  pose proof (pu_n _ _ _ _ Hp) as Hn1. pose proof (pu_step _ _ _ _ Hp) as S1.
  pose proof (pu_list _ _ _ _ Hp) as Hl1. rewrite Hl in Hl1. replace (n <? 0) with false by lia.
  assert (zlen all = zlen (wb_data b) + zlen hdr + zlen payload) as Htot
    by (unfold all; rewrite !zlen_app; lia).
  assert (0 <= wb_cap b) as Hcap.
  { rewrite Hl in Hok. apply Forall_app in Hok as [_ Hb]. rewrite Forall_singleton in Hb. cbn in Hb.
    pose proof (zlen_nonneg (wb_data b)). lia. }
  assert (Forall slot_ok (init ++ [Some (mkWbuf [] (wb_cap b))])) as Hok1.
  { eapply Forall_last; [rewrite Hl in Hok; exact Hok|done]. }
  assert (slots (init ++ [Some (mkWbuf [] (wb_cap b))]) = slots init) as Hs1
    by (rewrite slots_app, slots_one; apply app_nil_r).
  assert (init = [] -> waiting c = wb_data b) as Hw.
  { intros ->. unfold waiting. by rewrite Hl, app_nil_l, slots_one. }
  branch Hall.
  - apply andb_true_iff in Hall as [_ Hall]. wp_steps. eapply wp_set_last; [done|]. wp_steps.
    split; [by left|]. split; [by apply step_list|]. intros _ Hi. split; [cbn; apply (pu_closed _ _ _ _ Hp)|done| |].
    + unfold waiting at 1. cbn [wbufList set_wbufList sent]. rewrite Hs1, (Hw Hi), (pu_sent _ _ _ _ Hp), Hi.
      rewrite upto_all by lia. apply app_nil_r.
    + intros _. cbn. rewrite Hi. cbn. lia.
  - clear Hall. branch Hsoft.
    + unfold setCorking. wp_steps. eapply wp_set_last; [exact Hl1|]. wp_steps.
      eapply wp_mono; [apply wp_leftover; [exact Hok1|lia]|].
      cbv beta. intros _ c2 (l & -> & Hl2 & Hs2). cbn [wbufList set_wbufList] in Hs2.
      set (c2 := set_wbufList l _). unfold addWrite. wp_steps. apply wp_outside; [apply el_AddWrite_view|].
      intros e w' Hs. assert (step c c2) as S2.
      { transitivity c1; [done|]. apply step_list, step_list. apply (co_step _ _ (corked_flag false c1)). }
      split; [by left|]. split; [by transitivity c2|]. intros _ Hi.
      split; [cbn; apply (pu_closed _ _ _ _ Hp)|done| |].
      * unfold waiting at 1. cbn [wbufList set_wbufList sent set_world c2 set_packed].
        rewrite Hs2, Hs1, (Hw Hi), (pu_sent _ _ _ _ Hp), Hi. cbn [slots concat fmap list_fmap app].
        fold all. by rewrite <- app_assoc, app_nil_l, upto_from.
      * intros Hk. cbn [packed set_world c2 set_wbufList set_packed] in Hk.
        by rewrite has_put_flag in Hk.
    + wp_steps. eapply wp_set_last; [exact Hl1|]. wp_steps.
      split; [by left|]. split; [by apply step_list|]. by destruct err.
Qed.

(** Corked replies: appended to the buffer, or written out together with it. *)
Lemma wp_corkWrite op payload (c : Conn) :
  closed c = false -> Forall slot_ok (wbufList c) ->
  wp (corkWrite op payload)
     (fun e c' => Winv c' /\ step c c' /\
        (e = None -> cork1 c -> has_flag flagCorking (packed c) = true ->
         wired (wsHeader op (zlen payload) ++ payload) c c')) c.
Proof.
  intros Hcl Hok. unfold corkWrite. pose proof (zlen_nonneg payload) as Hpl. wp_steps.
  set (hdr := wsHeader op (zlen payload)). set (frame := hdr ++ payload).
  eapply (wp_mono _ (fun _ c1 => exists init b, wbufList c1 = init ++ [Some b] /\ corked c c1 /\
            Forall slot_ok (wbufList c1) /\ waiting c1 = waiting c /\
            (length init = 0 \/ length init < length (wbufList c))%nat)).
  { destruct (Z.eqb_spec (zlen (wbufList c)) 0) as [Hz|Hz].
    - apply zlen_zero in Hz. apply wp_corkStart; [done|]. intros cap c1 Hcap Hl1 K.
      exists [], (mkWbuf [] cap). unfold waiting. rewrite Hl1, Hz. split; [done|]. split; [done|].
      split; [by apply Forall_singleton|]. split; [done|by left].
    - wp_steps. destruct (wbufList c) as [|o l] eqn:Hl using rev_ind; [done|]. clear IHl.
      apply Forall_app in Hok as [Hi Ho]. rewrite Forall_singleton in Ho. destruct o as [b|]; [|done].
      exists l, b. split; [done|]. split; [by split|]. split; [|split; [done|right; rewrite length_app; cbn; lia]].
      apply Forall_app. split; [done|by apply Forall_singleton]. }
  cbv beta. intros _ c1 (init & b & Hl1 & K1 & Hok1 & Hwait & Hinit).
  destruct K1 as [Es Ec S1]. wp_steps. unfold last_buf. wp_steps. rewrite Hl1, last_snoc.
  eapply wp_of_option; [done|]. cbv zeta beta. fold hdr.
  assert (waiting c = slots init ++ wb_data b) as Hw by by rewrite <- Hwait; unfold waiting; rewrite Hl1, slots_app, slots_one.
  (* the frame in a buffer with room *)
  assert (forall b2 c2, wbufList c2 = init ++ [Some b2] -> wb_data b2 = wb_data b ->
    corked c c2 -> packed c2 = packed c1 -> zlen (wb_data b) + zlen hdr + zlen payload <= wb_cap b2 ->
    wp (set_last_buf (mkWbuf (wb_data b2 ++ hdr ++ payload) (wb_cap b2)) ;; mret (@None wserror))
      (fun e c' => Winv c' /\ step c c' /\
        (e = None -> cork1 c -> has_flag flagCorking (packed c) = true -> wired frame c c')) c2) as Hput.
  { intros b2 c2 Hl2 Hd [Es2 Ec2 S2] Hp2 Hroom. wp_steps. eapply wp_set_last; [done|]. wp_steps.
    assert (Forall slot_ok (init ++ [Some (mkWbuf (wb_data b2 ++ hdr ++ payload) (wb_cap b2))])) as Hok2.
    { eapply Forall_last; [rewrite Hl1 in Hok1; exact Hok1|]. cbn. rewrite Hd, !zlen_app. lia. }
    split; [by left|]. split; [by apply step_list|]. intros _ Hc1 Hk. split; [cbn; congruence|done| |].
    - unfold waiting at 1. cbn [wbufList set_wbufList sent]. rewrite Hw, slots_app, slots_one, Es2, Hd.
      cbn [wb_data]. unfold frame. by rewrite !app_assoc.
    - intros _. cbn. rewrite length_app. cbn. specialize (Hc1 Hk). lia. }
  branch Hfit; [apply Hput; [done|done|by split|done|lia]|].
  assert (wp (corkSpill b hdr payload) (fun e c' => Winv c' /\ step c c' /\
        (e = None -> cork1 c -> has_flag flagCorking (packed c) = true -> wired frame c c')) c1) as Hspill.
  { eapply wp_mono; [apply (wp_corkSpill init b); [congruence|done|done]|].
    cbv beta. intros e c2 (W2 & S2 & Hr). split; [done|]. split; [by transitivity c1|].
    intros He Hc1 Hk. specialize (Hc1 Hk). destruct Hr as [R1 R2 R3 R4]; [done|destruct init; [done|cbn in *; lia]|].
    split; [congruence|done|by rewrite R3, Es, Hwait|done]. }
  unfold growCork. branch Hgrow; [by wp_steps|]. branch Hcap; [by wp_steps|].
  wp_steps. eapply wp_set_last; [done|]. wp_steps. apply Hput; try done.
  - eapply corked_trans; [by split|]. apply corked_list.
  - cbn. lia.
Qed.

(** ** Starting and ending a batch *)

Lemma wp_maybeCork (c : Conn) :
  Winv c -> wp maybeCork (fun _ c' => Winv c' /\ step c c' /\
    (Forall slot_ok (wbufList c) -> cork1 c -> wired [] c c')) c.
Proof.
  intros Hc. unfold maybeCork, isCorking, isClient. wp_steps.
  assert (Forall slot_ok (wbufList c) -> cork1 c -> wired [] c c) as Hsame.
  { intros. split; [done..| |done]. by rewrite app_nil_r. }
  branch Hk; [by wp_steps|]. wp_steps.
  destruct (Z.eqb_spec (zlen (wbufList c)) 0) as [Hz|Hz]; cbn [negb]; [|by wp_steps].
  wp_steps. branch Hrem; [by wp_steps|]. apply zlen_zero in Hz.
  apply wp_corkStart; [lia|]. intros cap c' Hcap Hl [K1 K2 K3].
  assert (Forall slot_ok (wbufList c')) as Hok by (rewrite Hl; by apply Forall_singleton).
  split; [by left|]. split; [done|]. intros _ _. split; [done|done| |].
  - unfold waiting. by rewrite K1, Hl, Hz.
  - intros _. rewrite Hl. cbn. lia.
Qed.

Lemma wrote_wired b (c c' : Conn) :
  wrote b c c' -> (has_flag flagCorking (packed c) = true -> (length (wbufList c') <= 1)%nat) ->
  wired b c c'.
Proof. intros [] Hk. split; [done..|]. intros Hk'. apply Hk. congruence. Qed.

Lemma wp_corkEnd (c : Conn) :
  Winv c -> wp (corkEnd cfg cb) (fun _ c' => Winv c' /\ step c c' /\
    (closed c' = true \/ (Forall slot_ok (wbufList c) -> wired [] c c'))) c.
Proof.
  intros Hc. unfold corkEnd, isCorking, setCorking. wp_steps.
  destruct (has_flag flagCorking (packed c)) eqn:Hk; cbn [negb].
  2: { wp_steps. split; [done|]. split; [done|]. right. intros Hok.
       split; [done..|by rewrite app_nil_r|unfold cork1; congruence]. }
  wp_steps. set (c1 := set_packed _ c). assert (corked c c1) as K1 by apply (corked_flag false).
  assert (Winv c1) as W1 by exact Hc.
  assert (has_flag flagCorking (packed c1) = false) as Hk1 
    by exact (has_put_flag flagCorking false (packed c) eq_refl).
  change (wbufList c1) with (wbufList c).
  assert (wp (flushLocked cfg cb) (fun _ c' => Winv c' /\ step c c' /\
    (closed c' = true \/ (Forall slot_ok (wbufList c) -> wired [] c c'))) c1) as Hflush.
  { eapply wp_mono; [by apply wp_flushLocked|]. cbv beta. intros _ c2 (W2 & S2 & Hr).
    split; [done|]. split; [transitivity c1; [apply (co_step _ _ K1)|done]|].
    destruct Hr as [Hr|[-> |Hr]]; [by left|right; intros Hok..].
    - split; [done|done|by rewrite app_nil_r|unfold cork1; congruence].
    - destruct Hr as [R1 R2 R3 R4 R5]. split; [done|done|done|unfold cork1; congruence]. }
  destruct (wbufList c) as [|[b|] [|o l]] eqn:Hl; try exact Hflush.
  - wp_steps. split; [done|]. split; [apply (co_step _ _ K1)|]. right. intros _.
    split; [done|by cbn; rewrite Hl|by rewrite app_nil_r|unfold cork1; congruence].
  - destruct (Z.eqb_spec (zlen (wb_data b)) 0) as [Hz|Hz]; [|exact Hflush]. apply zlen_zero in Hz.
    wp_steps. split; [by left|]. split; [apply step_list, (co_step _ _ K1)|]. right. intros _.
    split; [done|done| |intros _; cbn; lia]. unfold waiting. rewrite Hl, slots_one, Hz. done.
  - destruct Hc as [Hc|[_ Hc]]; rewrite Hl in Hc; [by apply Forall_cons in Hc as [? _]|cbn in Hc; lia].
Qed.

(** ** Messages *)

Lemma wp_write_rest all n err (c c1 : Conn) :
  all <> [] -> closed c = false -> wbufList c = [] -> pushed all n c c1 -> (err <> None -> n = 0) ->
  wp (write_rest all n err)
     (fun e c' => Winv c' /\ step c c' /\ (e = None -> wrote all c c')) c1.
Proof.
  intros Hne Hcl Hl Hp Hn. unfold write_rest. pose proof (pu_list _ _ _ _ Hp) as Hl1. rewrite Hl in Hl1.
  pose proof (pu_n _ _ _ _ Hp) as Hn1. pose proof (pu_step _ _ _ _ Hp) as S1.
  branch Hall.
  - apply andb_true_iff in Hall as [_ Hall]. wp_steps. split; [left; by rewrite Hl1|]. split; [done|].
    intros _. split; [apply (pu_closed _ _ _ _ Hp)|by rewrite Hl1| |apply (pu_packed _ _ _ _ Hp)|by rewrite Hl1, Hl].
    unfold waiting. rewrite (pu_sent _ _ _ _ Hp), Hl1, Hl, upto_all by lia. apply app_nil_r.
  - clear Hall. branch Hsoft.
    + wp_steps. eapply wp_mono; [apply wp_append; [by rewrite Hl1|lia]|].
      cbv beta. intros _ c2 (l & -> & Hok & Hs). rewrite Hl1, app_nil_l in Hs.
      unfold addWrite. wp_steps. apply wp_outside; [apply el_AddWrite_view|]. intros e w' Hst.
      split; [by left|]. split; [transitivity (set_wbufList l c1); [by apply step_list|done]|].
      intros _. split; [apply (pu_closed _ _ _ _ Hp)|done| |apply (pu_packed _ _ _ _ Hp)|].
      * unfold waiting. cbn [wbufList set_wbufList set_world sent].
        rewrite Hs, (pu_sent _ _ _ _ Hp), Hl. cbn. by rewrite <- app_assoc, upto_from.
      * done.
    + wp_steps. split; [left; by rewrite Hl1|]. split; [done|]. by destruct err.
Qed.

(** The one frame of a message. *)
Definition message_frame (op : Z) (data fr : bytes) : Prop :=
  fr = wsHeader (u8 op) (zlen data) ++ data \/
  exists isMask maskValue, fr = frame_bytes data true false isMask op maskValue.

Lemma header_not_nil op (data : bytes) : wsHeader op (zlen data) ++ data <> [].
Proof.
  intros E. apply (f_equal zlen) in E. rewrite zlen_app in E.
  pose proof (zlen_wsHeader op (zlen data) (zlen_nonneg data)). pose proof (zlen_nonneg data).
  change (zlen []) with 0 in E. lia.
Qed.

(** Under the lock, from an open connection. *)
Lemma wp_WriteMessage_locked op data rsv1 client mv (c : Conn) :
  closed c = false -> Forall slot_ok (wbufList c) ->
  wp (WriteMessage_locked cfg cb op data rsv1 client mv) (fun e c' => Winv c' /\ step c c' /\
    (e = None -> rsv1 = false -> cork1 c -> exists fr, message_frame op data fr /\ wired fr c c')) c.
Proof.
  intros Hcl Hok. unfold WriteMessage_locked, isCorking. wp_steps. branch Hcork.
  - apply andb_true_iff in Hcork as [Hk _].
    eapply wp_mono; [by apply wp_corkWrite|]. cbv beta. intros e c3 (W3 & S3 & H3).
    split; [done|]. split; [done|]. intros He _ Hc1.
    exists (wsHeader (u8 op) (zlen data) ++ data). split; [by left|]. by apply H3.
  - wp_steps.
    assert (forall (m : go (option wserror)) k fr, (rsv1 = false -> message_frame op data fr) ->
      wp m (fun e c3 => Winv c3 /\ step c c3 /\ (e = None -> wrote fr c c3)) k ->
      wp m (fun e c' => Winv c' /\ step c c' /\ (e = None -> rsv1 = false -> cork1 c ->
              exists fr, message_frame op data fr /\ wired fr c c')) k) as Hfin.
    { intros m k fr Hfr Hm. eapply wp_mono; [exact Hm|]. cbv beta. intros e c3 (W3 & S3 & H3).
      split; [done|]. split; [done|]. intros He Hr _. exists fr. split; [auto|].
      apply wrote_wired; [auto|]. rewrite Hr, andb_true_r in Hcork. congruence. }
    set (all := wsHeader (u8 op) (zlen data) ++ data). branch Hf1; [|branch Hf2].
    + repeat (apply andb_true_iff in Hf1 as [Hf1 ?Hx]). apply Z.eqb_eq, zlen_zero in Hx. wp_steps.
      eapply wp_mono; [apply wp_socketWrite|]. cbv beta. intros [n err] c3 [Hp Hn].
      eapply (Hfin _ _ all); [by left|]. apply wp_write_rest; try done. apply header_not_nil.
    + repeat (apply andb_true_iff in Hf2 as [Hf2 ?Hx]). apply Z.eqb_eq, zlen_zero in Hx. wp_steps.
      unfold socketWritev, writevIovec. cbn [concat]. rewrite app_nil_r. fold all.
      eapply wp_mono; [apply wp_send|]. cbv beta. intros [n err] c3 [Hp Hn].
      eapply (Hfin _ _ all); [by left|]. apply wp_write_rest; try done. apply header_not_nil.
    + eapply (Hfin _ _ (frame_bytes data true rsv1 client op mv)).
      { intros ->. right. by exists client, mv. }
      unfold WriteFrame. wp_steps. eapply wp_mono; [apply (wp_connWrite cfg cb); by left|].
      cbv beta. intros [n e] c3 (W3 & S3 & H3). wp_steps. cbn [snd] in *.
      split; [done|]. split; [done|]. by intros ->.
Qed.

Lemma wp_WriteMessage_any op data (c : Conn) :
  Winv c ->
  wp (WriteMessage cfg cb op data) (fun e c' => Winv c' /\ step c c' /\
    (e = None -> pd_Compression cfg && ((op =? Text) || (op =? Binary)) = false -> cork1 c ->
     exists fr, message_frame op data fr /\ wired fr c c')) c.
Proof.
  intros Hc. unfold WriteMessage, isClosed. wp_steps. destruct (closed c) eqn:Hcl; [by wp_steps|].
  destruct Hc as [Hok|[? _]]; [|congruence]. branch Hutf; [wp_steps; split; [by left|done]|].
  set (rsv1 := pd_Compression cfg && _). wp_steps.
  set (same := fun c1 => step c c1 /\ sent c1 = sent c /\ wbufList c1 = wbufList c /\
                         packed c1 = packed c /\ closed c1 = false).
  eapply (wp_mono _ (fun r c1 => same c1 /\ (rsv1 = false -> r = inl data))).
  { destruct rsv1; [|by wp_steps]. apply wp_outside; [apply Compress_view|]. by intros r w' Hs. }
  cbv beta. intros r c1 [Same1 Hr].
  destruct r as [buf|e]; [|wp_steps; split; [left; by destruct Same1 as (? & ? & -> & _)|by destruct Same1]].
  unfold isClient. wp_steps. eapply (wp_mono _ (fun _ => same)).
  { destruct (has_flag _ _); [|by wp_steps]. apply wp_outside; [apply rand_view|]. intros mv w' Hs.
    destruct Same1 as (S1 & ?). split; [by transitivity c1|done]. }
  cbv beta. intros mv c2 (S2 & E2 & L2 & P2 & C2).
  eapply wp_mono; [apply wp_WriteMessage_locked; [done|by rewrite L2]|].
  cbv beta. intros e c3 (W3 & S3 & H3). split; [done|]. split; [by transitivity c2|].
  intros He Hpd Hc1. assert (rsv1 = false) as Hrsv by exact Hpd.
  specialize (Hr Hrsv). injection Hr as ->.
  destruct H3 as (fr & Hfr & [R1 R2 R3 R4]); [done|done|unfold cork1; by rewrite P2, L2|].
  exists fr. split; [done|]. split; [congruence|done| |done]. rewrite R3, E2. unfold waiting. by rewrite L2.
Qed.

Lemma wp_WriteMessage op data (c : Conn) :
  Winv c ->
  wp (WriteMessage cfg cb op data) (fun e c' => Winv c' /\ step c c' /\
    (e = None -> pd_Compression cfg = false -> cork1 c ->
     exists fr, message_frame op data fr /\ wired fr c c')) c.
Proof.
  intros Hc. eapply wp_mono; [by apply wp_WriteMessage_any|]. cbv beta. intros e c' (W1 & S1 & Hr).
  split; [done|]. split; [done|]. intros He Hpd. apply Hr; [done|by rewrite Hpd].
Qed.

(** ** A sequence of operations *)

Inductive wire_op : Type :=
  | OpMessage (op : Z) (data : bytes)
  | OpFlush
  | OpCork
  | OpEnd.

Definition run_op (o : wire_op) : go (option wserror) :=
  match o with
  | OpMessage op data => WriteMessage cfg cb op data
  | OpFlush => flush cfg cb ;; mret None
  | OpCork => maybeCork ;; mret None
  | OpEnd => corkEnd cfg cb ;; mret None
  end.

Fixpoint run_ops (l : list wire_op) : go (option wserror) :=
  match l with
  | [] => mret None
  | o :: l => try run_op o; run_ops l
  end.

Fixpoint messages (l : list wire_op) : list (Z * bytes) :=
  match l with
  | [] => []
  | OpMessage op data :: l => (op, data) :: messages l
  | _ :: l => messages l
  end.

(** The frames that one operation puts on the wire. *)
Lemma wp_run_op o (c : Conn) :
  Winv c -> pd_Compression cfg = false ->
  wp (run_op o) (fun e c' => Winv c' /\ step c c' /\
    (e = None -> Forall slot_ok (wbufList c) -> cork1 c -> closed c' = true \/
     exists frs, Forall2 (fun m => message_frame (fst m) (snd m)) (messages [o]) frs /\
                 wired (concat frs) c c')) c.
Proof.
  intros Hc Hpd. destruct o as [op data| | |]; cbn [run_op messages].
  - eapply wp_mono; [by apply wp_WriteMessage|]. cbv beta. intros e c' (W1 & S1 & Hr).
    split; [done|]. split; [done|]. intros He _ Hc1. right.
    destruct Hr as (fr & Hfr & Hw); [done..|]. exists [fr]. split; [by constructor|].
    cbn. by rewrite app_nil_r.
  - wp_steps. eapply wp_mono; [by apply wp_flushLocked|]. cbv beta. intros _ c' (W1 & S1 & Hr). wp_steps.
    split; [done|]. split; [done|]. intros _ Hok Hc1. destruct Hr as [Hr|[-> |Hr]]; [by left|right; exists []..].
    + split; [constructor|]. split; [done|done|by rewrite app_nil_r|done].
    + split; [constructor|]. apply wrote_wired; [done|]. intros Hk. pose proof (wr_length _ _ _ Hr eq_refl).
      specialize (Hc1 Hk). lia.
  - wp_steps. eapply wp_mono; [by apply wp_maybeCork|]. cbv beta. intros _ c' (W1 & S1 & Hr). wp_steps.
    split; [done|]. split; [done|]. intros _ Hok Hc1. right. exists []. split; [constructor|]. by apply Hr.
  - wp_steps. eapply wp_mono; [by apply wp_corkEnd|]. cbv beta. intros _ c' (W1 & S1 & Hr). wp_steps.
    split; [done|]. split; [done|]. intros _ Hok Hc1. destruct Hr as [Hr|Hr]; [by left|right].
    exists []. split; [constructor|]. by apply Hr.
Qed.

Lemma wp_run_ops_closed l : pd_Compression cfg = false -> forall c : Conn, Winv c ->
  wp (run_ops l) (fun _ c' => Winv c' /\ step c c') c.
Proof.
  intros Hpd. induction l as [|o l IH]; intros c Hc; cbn [run_ops]; [by apply wp_ret|].
  wp_steps. eapply wp_mono; [by apply wp_run_op|]. cbv beta. intros [e|] c1 (W1 & S1 & _); [done|].
  eapply wp_mono; [by apply IH|]. cbv beta. intros _ c2 [W2 S2]. split; [done|by transitivity c1].
Qed.

Lemma wp_run_ops ops (c : Conn) :
  pd_Compression cfg = false -> Forall slot_ok (wbufList c) -> cork1 c ->
  wp (run_ops ops)
     (fun e c' => e = None -> closed c' = false ->
        exists frs, Forall2 (fun m => message_frame (fst m) (snd m)) (messages ops) frs /\
          sent c' ++ waiting c' = sent c ++ waiting c ++ concat frs) c.
Proof.
  intros Hpd. revert c. induction ops as [|o ops IH]; intros c Hok Hc1; cbn [run_ops].
  { apply wp_ret. intros _ _. exists []. split; [constructor|by rewrite app_nil_r]. }
  wp_steps. eapply wp_mono; [apply wp_run_op; [by left|done]|].
  cbv beta. intros [e|] c1 (W1 & S1 & Hr); [done|]. destruct (Hr eq_refl Hok Hc1) as [Hcl|(frs & Hfrs & Hw)].
  - eapply wp_mono; [by apply wp_run_ops_closed|]. cbv beta. intros e c2 [_ S2] _ Hopen.
    rewrite (st_closed _ _ S2 Hcl) in Hopen. done.
  - destruct Hw as [H1 H2 H3 H4]. eapply wp_mono; [by apply IH|].
    cbv beta. intros e c2 Hr2 He Hopen. destruct (Hr2 He Hopen) as (frs2 & Hfrs2 & Hw2).
    exists (frs ++ frs2). split.
    + replace (messages (o :: ops)) with (messages [o] ++ messages ops) by (by destruct o).
      by apply Forall2_app.
    + by rewrite Hw2, app_assoc, H3, concat_app, <- !app_assoc.
Qed.

(** ** Properties *)

(** C16: nothing on the wire is lost, repeated or reordered.  Take any sequence
    of messages, flushes, starts and ends of batches on a connection that does
    not compress, with any behaviour of the socket (short writes, EAGAIN,
    EINTR, errors) and of the poller.  No operation panics; and if all report
    success and the connection is still open, then the bytes the socket took,
    followed by those that wait, are what they were before, followed by exactly
    one frame per message, in order. *)
Theorem wire_in_order ops (c : Conn) :
  pd_Compression cfg = false -> Forall slot_ok (wbufList c) -> cork1 c ->
  wp (run_ops ops)
     (fun e c' => e = None -> closed c' = false ->
        exists frs, Forall2 (fun m => message_frame (fst m) (snd m)) (messages ops) frs /\
          sent c' ++ waiting c' = sent c ++ waiting c ++ concat frs) c.
Proof. apply wp_run_ops. Qed.
End Wire.

(** ** Witness *)

Lemma note_ok `{WsLib} `{!WsLaws} e (c : Conn (list ws_event)) :
  Winv c -> wp (ws_note e) (fun _ c' => Winv c' /\ step c c') c.
Proof. intros Hc. apply wp_modify. split; [exact Hc|by split]. Qed.

#[export] Instance recorder_ok `{WsLib} `{!WsLaws} : CallbackOk recorder.
Proof. split; intros; by apply note_ok. Qed.

(** A socket that takes three bytes, then nothing, then everything. *)
Definition slow_conn : Conn (list ws_event) :=
  set_rw 9 (newConn 7 false (mkWorld [] [3; 0; 100]) []).

Definition slow_ops : list wire_op :=
  [OpMessage Text [104; 105]; OpMessage Binary [1]; OpFlush; OpCork; OpMessage Text [7]; OpEnd; OpFlush].

Lemma wire_in_order_witness :
  wp (run_ops plain_config recorder slow_ops)
     (fun e c' => e = None -> closed c' = false ->
        exists frs, Forall2 (fun m => message_frame (fst m) (snd m)) (messages slow_ops) frs /\
          sent c' ++ waiting c' = sent slow_conn ++ waiting slow_conn ++ concat frs) slow_conn.
Proof.
  apply (wire_in_order plain_config recorder slow_ops slow_conn).
  - done.
  - constructor.
  - unfold cork1. cbn. lia.
Defined.
