(* ===== verification/WsStream.v ===== *)
(** * WsStream

    The reading side of a websocket connection against the byte stream: frames
    as RFC 6455 lays them out ([frame_of]), the state of the two-step parser in
    terms of the bytes it has consumed ([state_ok]), and the read buffer as a
    window on the stream ([Has]). *)

From Stdlib Require Import SpecFloat.
From S2P Require Import Prelude GoStd Sock WsState WsWrite WsRead WsPlain WsSafe WsWire.

(** ** Frames as bytes *)

Definition masked (b1 : Z) : bool := negb (b1 .& (1 << 7) =? 0).
Definition len7 (b1 : Z) : Z := b1 .& 0x7F.
Definition rest_size (b1 : Z) : Z :=
  (if masked b1 then 4 else 0) + (if len7 b1 =? 126 then 2 else if len7 b1 =? 127 then 8 else 0).

(** The payload length that a whole header declares; an [int64]. *)
Definition declared (hdr : bytes) : Z :=
  let len := len7 (at_ hdr 1) in
  if len =? 126 then be16 (at_ hdr 2) (at_ hdr 3)
  else if len =? 127 then i64 (be64 (slice 2 10 hdr))
  else len.

Definition whole_header (hdr : bytes) : Prop := zlen hdr = 2 + rest_size (at_ hdr 1).

Record header_of (hdr : bytes) (h : FrameHeader) : Prop := {
  ho_whole : whole_header hdr;
  ho_Head : Head h = at_ hdr 0;
  ho_Opcode : Opcode h = at_ hdr 0 .& 0xF;
  ho_Mask : Mask h = masked (at_ hdr 1);
  ho_len : PayloadLen h = declared hdr;
  ho_key : Mask h = true -> MaskKey h = le32 (from (zlen hdr - 4) hdr);
}.

Definition frame_of (raw : bytes) (f : Frame2) : Prop :=
  exists hdr, raw = hdr ++ f_Payload f /\ header_of hdr (f_Header f) /\
              zlen (f_Payload f) = declared hdr.

(** The stream does not begin with a whole frame. *)
Definition incomplete (rest : bytes) : Prop :=
  forall raw f rest', rest = raw ++ rest' -> ~ frame_of raw f.

Lemma rest_size_bound b1 : 0 <= rest_size b1 <= 12.
Proof. unfold rest_size. destruct (masked b1), (len7 b1 =? 126), (len7 b1 =? 127); lia. Qed.

Lemma at_take l l' i n : 0 <= i < n -> n <= zlen l -> l = upto n l' ++ from n l' -> at_ l i = at_ (upto n l) i.
Proof.
  intros Hi Hn _. rewrite <- (upto_from n l) at 1. rewrite at_app_l; [done|].
  rewrite zlen_upto by lia. lia.
Qed.

(** Two headers at the front of the same bytes are the same. *)
Lemma whole_header_unique h1 h2 r1 r2 :
  h1 ++ r1 = h2 ++ r2 -> whole_header h1 -> whole_header h2 -> h1 = h2 /\ r1 = r2.
Proof.
  intros E H1 H2. unfold whole_header in *.
  pose proof (rest_size_bound (at_ h1 1)). pose proof (rest_size_bound (at_ h2 1)).
  assert (at_ h1 1 = at_ h2 1) as Hb.
  { rewrite <- (at_app_l h1 r1), E, at_app_l by lia. done. }
  rewrite Hb in H1. apply app_inj_1; [|done]. unfold zlen in *. lia.
Qed.

(** What is left is too short for its header, or for its payload. *)
Lemma incomplete_header rest :
  (2 <= zlen rest -> zlen rest < 2 + rest_size (at_ rest 1)) -> incomplete rest.
Proof.
  intros Hr raw f rest' -> (hdr & -> & Hh & _). pose proof (ho_whole _ _ Hh) as Hw.
  unfold whole_header in Hw. pose proof (rest_size_bound (at_ hdr 1)).
  rewrite <- app_assoc, zlen_app, at_app_l in Hr by lia.
  pose proof (zlen_nonneg (f_Payload f ++ rest')). lia.
Qed.

Lemma incomplete_payload hdr l :
  whole_header hdr -> zlen l < declared hdr -> incomplete (hdr ++ l).
Proof.
  intros Hw Hl raw f rest' E (hdr2 & -> & Hh & Hp). rewrite <- app_assoc in E.
  apply whole_header_unique in E as [<- ->]; [|done|exact (ho_whole _ _ Hh)].
  rewrite zlen_app in Hl. pose proof (zlen_nonneg rest'). lia.
Qed.

(** ** Parts of a slice *)

Section SliceParts.
Context {A : Type}.
Implicit Types buf : list A.


End SliceParts.

Lemma at_slice i a b (buf : bytes) :
  0 <= a -> 0 <= i < b - a -> b <= zlen buf -> at_ (slice a b buf) i = at_ buf (a + i).
Proof.
  intros Ha Hi Hb. unfold at_, slice. f_equal. rewrite lookup_take, decide_True by lia.
  rewrite lookup_drop. f_equal. lia.
Qed.

(** ** The window of the read buffer *)

Section Stream.
Context `{WsLib} `{!WsLaws} {App : Type} (cfg : Config) (cb : Callback App) `{!CallbackOk cb}.
Notation Conn := (Conn App).
Notation go A := (M Conn A).

(** The buffer of size [n] holds the unread bytes [l]. *)
Definition Has (c : Conn) (l : bytes) (n : Z) : Prop :=
  exists buf, rbuf c = Some buf /\ 0 <= rr c <= rw c /\ rw c <= n /\ zlen buf = n /\
              slice (rr c) (rw c) buf = l.

Lemma Has_len c l n : Has c l n -> zlen l = rw c - rr c.
Proof. intros (buf & _ & ? & ? & <- & <-). by rewrite zlen_slice. Qed.

(** Fields the parser does not touch. *)
Definition outer (c : Conn) := (wbufList c, closed c, world c, received c, delivered c).
Definition parser_part (c : Conn) := (lenAndMaskSize c, rh c, packed c).

Lemma wp_leftMove (c : Conn) l n :
  Has c l n ->
  wp leftMove (fun _ c' => Has c' l n /\ rr c' = 0 /\ outer c' = outer c /\ parser_part c' = parser_part c) c.
Proof.
  intros (buf & Hb & Hr & Hw & Hn & Hs). unfold leftMove, deref_rbuf. wp_steps.
  destruct (Z.eqb_spec (rr c) 0) as [E|E]; [wp_steps; split; [by exists buf|done]|].
  wp_steps. rewrite Hb. eapply wp_of_option; [done|]. wp_steps.
  eapply wp_intro; [apply reslice_ok; lia|]. wp_steps. split; [|done].
  rewrite Hs. assert (zlen l = rw c - rr c) as Hl by (rewrite <- Hs, zlen_slice; lia).
  destruct (copy_front_eq buf l) as [H1 H2]; [lia|].
  exists (copy_front buf l). cbn. split; [done|]. split; [lia|]. split; [lia|]. split; [lia|]. by rewrite <- Hl.
Qed.

(** Consuming the front of the unread bytes. *)
Lemma Has_advance c c' l n k :
  Has c l n -> 0 <= k <= zlen l -> rbuf c' = rbuf c -> rr c' = rr c + k -> rw c' = rw c ->
  Has c' (from k l) n.
Proof.
  intros Hc Hk Eb Er Ew. pose proof (Has_len _ _ _ Hc) as Hl.
  destruct Hc as (buf & Hb & Hr & Hw & Hn & <-). exists buf. rewrite Eb, Er, Ew.
  split; [done|]. split; [lia|]. split; [lia|]. split; [done|]. by rewrite from_slice by lia.
Qed.

Lemma wp_deref c l n Q :
  Has c l n -> (forall buf, rbuf c = Some buf -> zlen buf = n -> slice (rr c) (rw c) buf = l -> Q buf c) ->
  wp deref_rbuf Q c.
Proof.
  intros (buf & Hb & _ & _ & Hn & Hs) HQ. unfold deref_rbuf. wp_steps. rewrite Hb.
  eapply wp_of_option; [done|]. by apply HQ.
Qed.

Lemma wp_writeCap c l n Q : Has c l n -> Q (n - rw c) c -> wp writeCap Q c.
Proof.
  intros Hc HQ. unfold writeCap. wp_steps. eapply wp_deref; [done|]. intros buf Hb Hn Hs. wp_steps.
  destruct Hc as (_ & _ & Hr & Hw & _ & _). apply wp_reslice; [lia|lia|]. wp_steps.
  rewrite zlen_slice by lia. by rewrite Hn.
Qed.

(** ** What a stream may declare *)

(** A read buffer made for a payload of [n] bytes holds it, and a header. *)
Definition roomy (n : Z) : Prop :=
  0 <= n < 2 ^ 62 /\ Z.max n MaxFrameHeaderSize <= bufferSize cfg n.

(** No frame header of the stream declares a length that is negative, which is
    what the code makes of a 64-bit length with the top bit set, or that the
    product in [float32] cannot make a buffer for; the stream itself is not
    that long. *)
Definition sane (stream : bytes) : Prop :=
  zlen stream < 2 ^ 62 /\ (forall n, 0 <= n < 128 -> roomy n) /\
  forall raws hdr rest fs, stream = concat raws ++ hdr ++ rest -> Forall2 frame_of raws fs ->
    whole_header hdr -> roomy (declared hdr).

(** With a multiple between 1 and 2^33 every length up to 2^27 has its buffer;
    with the default multiple every length below 2^59. *)
Lemma roomy_multiple n mm me :
  windowsMultipleTimesPayloadSize cfg = S754_finite false mm me ->
  2 ^ 23 <= Zpos mm < 2 ^ 24 -> -23 <= me <= 10 -> 0 <= n < 2 ^ 27 -> roomy n.
Proof.
  intros Hm Hmm Hme Hn. pose proof MaxFrameHeaderSize_enough. pose proof MaxFrameHeaderSize_small.
  split; [lia|]. unfold bufferSize. rewrite Hm. destruct (Z.eq_dec n 0) as [->|Hn0].
  - change (int_of_float32 _ _) with 0. unfold i64, swrap. rewrite Z.mod_small; lia.
  - assert (Z.log2 n < 27) by (apply Z.log2_lt_pow2; lia).
    destruct (int_of_product int_out_of_range n mm me) as (H1' & H2' & _); [lia..|]. specialize (H2' ltac:(lia)).
    set (w := int_of_float32 _ _) in *. unfold i64, swrap. rewrite Z.mod_small; lia.
Qed.

Lemma roomy_default n :
  windowsMultipleTimesPayloadSize cfg = two32 -> 0 <= n < 2 ^ 59 -> roomy n.
Proof.
  intros Hm Hn. pose proof MaxFrameHeaderSize_enough. pose proof MaxFrameHeaderSize_small.
  split; [lia|]. unfold bufferSize. rewrite Hm. destruct (Z.eq_dec n 0) as [->|Hn0].
  - change (int_of_float32 _ _) with 0. unfold i64, swrap. rewrite Z.mod_small; lia.
  - assert (Z.log2 n < 59) by (apply Z.log2_lt_pow2; lia).
    change two32 with (S754_finite false 8388608 (-22)).
    destruct (int_of_product int_out_of_range n 8388608 (-22)) as (H1' & _ & H3'); [lia..|]. specialize (H3' ltac:(lia)).
    set (w := int_of_float32 _ _) in *. unfold i64, swrap. rewrite Z.mod_small; lia.
Qed.

Lemma sane_default (stream : bytes) :
  windowsMultipleTimesPayloadSize cfg = two32 -> zlen stream < 2 ^ 62 ->
  (forall raws hdr rest fs, stream = concat raws ++ hdr ++ rest -> Forall2 frame_of raws fs ->
     whole_header hdr -> 0 <= declared hdr < 2 ^ 59) -> sane stream.
Proof.
  intros Hm Hz Hd. split; [done|]. split; [intros n Hn; apply roomy_default; [done|lia]|].
  intros raws hdr rest fs E Hf Hw. apply roomy_default; [done|by eapply Hd].
Qed.

(** ** The state of the parser *)

Definition cur (c : Conn) : Z := packed c .& stateMask.

Lemma cur_set st p : 0 <= st < 4 -> (Z.ldiff p stateMask .| (st .& stateMask)) .& stateMask = st.
Proof.
  intros Hst. assert (st .& stateMask = st) as ->.
  { change stateMask with (Z.ones 2). rewrite Z.land_ones by lia. apply Z.mod_small. lia. }
  rewrite Z.land_lor_distr_l. change stateMask with (Z.ones 2).
  rewrite (Z.land_ones st) by lia. rewrite Z.mod_small by lia.
  assert (Z.ldiff p (Z.ones 2) .& Z.ones 2 = 0) as ->; [|done].
  apply Z.bits_inj'. intros n _. rewrite Z.land_spec, Z.ldiff_spec, Z.bits_0.
  by destruct (Z.testbit p n), (Z.testbit (Z.ones 2) n).
Qed.

(** The bytes [hdr] of the current frame that the parser has consumed. *)
Record half_header (c : Conn) (hdr : bytes) (n : Z) : Prop := {
  hh_len : zlen hdr = 2;
  hh_have : lenAndMaskSize c = rest_size (at_ hdr 1);
  hh_Head : Head (rh c) = at_ hdr 0;
  hh_Opcode : Opcode (rh c) = at_ hdr 0 .& 0xF;
  hh_Mask : Mask (rh c) = masked (at_ hdr 1);
  hh_len7 : PayloadLen (rh c) = len7 (at_ hdr 1);
  hh_room : rr c + rest_size (at_ hdr 1) <= n;
}.

Inductive state_ok (c : Conn) (n : Z) : bytes -> Prop :=
  | st_start : cur c = frameStateHeaderStart -> state_ok c n []
  | st_half hdr : cur c = frameStateHeaderPayloadAndMask -> half_header c hdr n -> state_ok c n hdr
  | st_payload hdr : cur c = frameStatePayload -> header_of hdr (rh c) -> state_ok c n hdr.

Lemma half_header_of c n hdr :
  state_ok c n hdr -> cur c = frameStateHeaderPayloadAndMask -> half_header c hdr n.
Proof. by intros [E|? E Hh|? E Hh] Hc; rewrite E in Hc. Qed.
Lemma header_of_state c n hdr :
  state_ok c n hdr -> cur c = frameStatePayload -> header_of hdr (rh c).
Proof. by intros [E|? E Hh|? E Hh] Hc; rewrite E in Hc. Qed.
Lemma start_state c n hdr : state_ok c n hdr -> cur c = frameStateHeaderStart -> hdr = [].
Proof. by intros [E|? E Hh|? E Hh] Hc; rewrite E in Hc. Qed.

(** The connection against the stream: whole frames delivered, the consumed
    part of the next header, the unread bytes. *)
Record RI (raws : list bytes) (hdr l : bytes) (n : Z) (c : Conn) : Prop := {
  ri_has : Has c l n;
  ri_size : MaxFrameHeaderSize <= n;
  ri_received : received c = concat raws ++ hdr ++ l;
  ri_frames : Forall2 frame_of raws (delivered c);
  ri_state : state_ok c n hdr;
  ri_sane : sane (received c ++ incoming (world c));
  ri_bytes : bytes_ok (received c);
  ri_len : roomy (PayloadLen (rh c));
  ri_write : Winv c;
}.

Lemma Winv_outer (c c' : Conn) : outer c' = outer c -> Winv c -> Winv c'.
Proof. intros [= E1 E2 _ _ _] [Hc|[Hc Hl]]; [left; congruence|right; by rewrite E1, E2]. Qed.

Lemma RI_move raws hdr hdr' l l' n n' c c' :
  RI raws hdr l n c -> outer c' = outer c -> hdr' ++ l' = hdr ++ l -> Has c' l' n' ->
  MaxFrameHeaderSize <= n' -> state_ok c' n' hdr' -> roomy (PayloadLen (rh c')) -> RI raws hdr' l' n' c'.
Proof.
  intros [] E Ecat Hhas Hn Hst Hlen. pose proof E as [= E1 E2 E3 E4 E5]. split; try done.
  - congruence.
  - by rewrite E5.
  - by rewrite E3, E4.
  - by rewrite E4.
  - by eapply Winv_outer.
Qed.

Lemma RI_bytes raws hdr l n c : RI raws hdr l n c -> bytes_ok hdr /\ bytes_ok l.
Proof.
  intros []. rewrite ri_received0 in ri_bytes0. apply bytes_ok_app in ri_bytes0 as [_ Hb].
  by apply bytes_ok_app in Hb.
Qed.

(** ** The header *)

Lemma len7_bound b : 0 <= len7 b < 128.
Proof. unfold len7. change 0x7F with (Z.ones 7). rewrite Z.land_ones by lia. apply Z.mod_pos_bound. lia. Qed.

Lemma wp_readHeader_start raws l n (c : Conn) :
  RI raws [] l n c -> cur c = frameStateHeaderStart ->
  wp readHeader_start (fun ok c' => outer c' = outer c /\
    if (ok : bool)
    then exists hdr l', RI raws hdr l' n c' /\ hdr ++ l' = l /\ cur c' = frameStateHeaderPayloadAndMask
    else RI raws [] l n c' /\ cur c' = frameStateHeaderStart /\ zlen l < 2 /\ rw c' < n) c.
Proof.
  intros Hri Hcur. pose proof (ri_has _ _ _ _ _ Hri) as Hhas. unfold readHeader_start.
  pose proof MaxFrameHeaderSize_enough as Hmax. pose proof (ri_size _ _ _ _ _ Hri) as Hn.
  wp_steps. eapply wp_deref; [done|]. intros buf Hbuf Hlen _. wp_steps. rewrite Hlen.
  eapply (wp_mono _ (fun _ c' => Has c' l n /\ outer c' = outer c /\ parser_part c' = parser_part c /\
            (rr c' = 0 \/ MaxFrameHeaderSize <= n - rr c'))).
  { destruct (Z.ltb_spec (n - rr c) MaxFrameHeaderSize) as [Hlt|Hlt]; [|wp_steps; by auto].
    eapply wp_mono; [by apply wp_leftMove|]. cbv beta. intros _ c' (? & ? & ? & ?). auto. }
  cbv beta. intros _ c1 (Hhas1 & Ho1 & [= P1 P2 P3] & Hroom). wp_steps.
  pose proof (Has_len _ _ _ Hhas1) as Hl1. pose proof Hhas1 as (_ & _ & Hr1 & Hw1 & _ & _).
  assert (cur c1 = frameStateHeaderStart) as Hcur1 by (unfold cur; by rewrite P3).
  assert (RI raws [] l n c1) as Hri1.
  { eapply RI_move; try done; [by apply st_start|rewrite P2; apply (ri_len _ _ _ _ _ Hri)]. }
  branch Hshort; [wp_steps; split; [done|]; split; [done|]; split; [done|lia]|].
  wp_steps. eapply wp_deref; [done|]. intros buf1 Hb1 Hn1 Hs1. wp_steps.
  apply wp_index; [lia|]. wp_steps. apply wp_index; [lia|]. wp_steps. unfold setCurState. wp_steps.
  assert (at_ buf1 (rr c1) = at_ l 0) as E0 by (rewrite <- Hs1, at_slice by lia; f_equal; lia).
  assert (at_ buf1 (rr c1 + 1) = at_ l 1) as E1 by (rewrite <- Hs1, at_slice by lia; f_equal; lia).
  rewrite E0, E1. fold (masked (at_ l 1)). change (at_ l 1 .& 127) with (len7 (at_ l 1)). fold (rest_size (at_ l 1)).
  set (c2 := set_rr _ _). split; [done|]. exists (upto 2 l), (from 2 l).
  assert (zlen (upto 2 l) = 2) as Hh by (rewrite zlen_upto by lia; lia).
  assert (forall i, 0 <= i < 2 -> at_ (upto 2 l) i = at_ l i) as Hat.
  { intros i Hi. rewrite <- (upto_from 2 l) at 2. by rewrite at_app_l by lia. }
  assert (cur c2 = frameStateHeaderPayloadAndMask) as Hcur2 by (apply cur_set; unfold frameStateHeaderPayloadAndMask; lia).
  split; [|split; [apply upto_from|done]].
  eapply (RI_move _ [] _ l); [exact Hri1|done|apply upto_from|by apply (Has_advance c1 c2 l n 2); [|lia|..]|done| |].
  - apply st_half; [done|]. pose proof (rest_size_bound (at_ l 1)).
    split; rewrite ?Hat by lia; try done. cbn. lia.
  - apply (proj1 (proj2 (ri_sane _ _ _ _ _ Hri))), len7_bound.
Qed.

Definition key_size (b1 : Z) : Z := if masked b1 then 4 else 0.

Lemma key_size_masked b1 : masked b1 = true -> key_size b1 = 4.
Proof. unfold key_size. by intros ->. Qed.
Lemma rest_size_masked b1 : masked b1 = true -> 4 <= rest_size b1.
Proof. unfold rest_size. intros ->. destruct (len7 b1 =? 126), (len7 b1 =? 127); lia. Qed.

Lemma at_app_r (l1 l2 : bytes) i : 0 <= i -> at_ (l1 ++ l2) (zlen l1 + i) = at_ l2 i.
Proof.
  intros Hi. unfold at_. f_equal. rewrite lookup_app_r by (unfold zlen; lia). f_equal. unfold zlen. lia.
Qed.

(** The length field, and what follows it. *)
Lemma wp_length_field hdr head len (c : Conn) :
  zlen hdr = 2 -> len = len7 (at_ hdr 1) -> zlen head = rest_size (at_ hdr 1) ->
  wp (if len =? 126 then
        h2 ← reslice head 0 2; mret (be16 (at_ h2 0) (at_ h2 1), from 2 head)
      else if len =? 127 then
        h8 ← reslice head 0 8; mret (i64 (be64 h8), from 8 head)
      else mret (len, head))
     (fun r c' => c' = c /\ r = (declared (hdr ++ head), from (zlen head - key_size (at_ hdr 1)) head)) c.
Proof.
  intros Hh -> Hz. unfold rest_size in Hz. unfold declared, key_size.
  rewrite at_app_l by lia. assert (forall i, 0 <= i -> at_ (hdr ++ head) (2 + i) = at_ head i) as Hat
    by (intros i Hi; rewrite <- Hh; by apply at_app_r).
  destruct (len7 (at_ hdr 1) =? 126) eqn:E6; [|destruct (len7 (at_ hdr 1) =? 127) eqn:E7].
  - apply wp_bind, wp_reslice; [lia|destruct (masked _); lia|]. wp_steps. split; [done|]. f_equal.
    + rewrite (Hat 0 ltac:(lia) : at_ (hdr ++ head) 2 = _), (Hat 1 ltac:(lia) : at_ (hdr ++ head) 3 = _).
      rewrite !at_slice by (destruct (masked _); lia). done.
    + f_equal. destruct (masked _); lia.
  - apply wp_bind, wp_reslice; [lia|destruct (masked _); lia|]. wp_steps. split; [done|]. f_equal.
    + do 2 f_equal. rewrite !slice_upto_from. change (10 - 2) with 8. rewrite <- Hh at 1.
      by rewrite from_app_length.
    + f_equal. destruct (masked _); lia.
  - wp_steps. split; [done|]. f_equal. rewrite Hz. destruct (masked _); cbn; done.
Qed.

Lemma set_rh_same (c : Conn) : set_rh (set_MaskKey (MaskKey (rh c)) (rh c)) c = c.
Proof. by destruct c as [? ? ? ? ? [] ? ? ? ? ? ? ? ? ? ? ?]. Qed.

Lemma wp_readHeader_rest raws hdr l n (c : Conn) :
  RI raws hdr l n c -> cur c = frameStateHeaderPayloadAndMask ->
  wp (readHeader_rest cfg) (fun r c' => outer c' = outer c /\
    match r with
    | (_, Some _) => True
    | (true, None) => exists hdr' l', RI raws hdr' l' n c' /\ hdr' ++ l' = hdr ++ l /\
                      whole_header hdr' /\ cur c' = frameStatePayload
    | (false, None) => c' = c /\ zlen hdr = 2 /\ zlen l < rest_size (at_ hdr 1) /\ rw c' < n
    end) c.
Proof.
  intros Hri Hcur. pose proof (ri_has _ _ _ _ _ Hri) as Hhas. pose proof (Has_len _ _ _ Hhas) as Hll.
  destruct (half_header_of _ _ _ (ri_state _ _ _ _ _ Hri) Hcur) as [H1 H2 H3 H4 H5 H6 H7]. pose proof (rest_size_bound (at_ hdr 1)) as Hb1.
  unfold readHeader_rest. wp_steps. rewrite H2. set (have := rest_size (at_ hdr 1)) in *.
  branch Hshort; [wp_steps; split; [done|]; split; [done|]; lia|].
  wp_steps. eapply wp_deref; [done|]. intros buf Hbuf Hn Hs. wp_steps.
  pose proof Hhas as (_ & _ & Hr & Hw & _ & _). apply wp_reslice; [lia|lia|]. wp_steps.
  rewrite <- (upto_slice have (rr c) (rw c) buf) by lia. rewrite Hs. set (head := upto have l).
  assert (zlen head = have) as Hhead by (unfold head; rewrite zlen_upto by lia; lia).
  eapply wp_mono; [by apply (wp_length_field hdr head)|]. cbv beta. intros [len key] c' [-> [= -> ->]].
  wp_steps. branch Hbig; [by wp_steps|]. clear Hbig.
  set (hdr' := hdr ++ head). set (key := from _ head).
  assert (hdr' ++ from have l = hdr ++ l) as Hcat by (unfold hdr', head; by rewrite <- app_assoc, upto_from).
  assert (at_ hdr' 1 = at_ hdr 1) as Hb by (unfold hdr'; rewrite at_app_l by lia; done).
  assert (whole_header hdr') as Hwhole by (unfold whole_header; rewrite Hb; unfold hdr'; rewrite zlen_app; fold have; lia).
  assert (roomy (declared hdr')) as Hdecl.
  { eapply (proj2 (proj2 (ri_sane _ _ _ _ _ Hri)) raws hdr' (from have l ++ incoming (world c)) (delivered c)); [|apply Hri|done].
    by rewrite (ri_received _ _ _ _ _ Hri), <- Hcat, <- !app_assoc. }
  assert (Mask (rh c) = true -> 4 <= zlen head) as Hroom4.
  { intros Hm. rewrite Hhead. apply rest_size_masked. congruence. }
  wp_steps. set (c1 := set_rh _ c).
  eapply (wp_mono _ (fun _ c2 => exists k, c2 = set_rh (set_MaskKey k (rh c1)) c1 /\
            (Mask (rh c) = true -> k = le32 key))).
  { change (Mask (rh c1)) with (Mask (rh c)). destruct (Mask (rh c)) eqn:Hm.
    - wp_steps. assert (zlen key = 4) as Hk.
      { unfold key. rewrite key_size_masked by congruence. rewrite zlen_from by lia. lia. }
      apply wp_reslice; [lia|lia|]. wp_steps. eexists. split; [done|]. intros _.
      rewrite slice_upto_from, from_0, upto_all by lia. done.
    - wp_steps. exists (MaskKey (rh c1)). by rewrite set_rh_same. }
  cbv beta. intros _ c2 (k & -> & Hk). unfold setCurState. wp_steps.
  set (c2 := set_rr _ _). split; [done|]. exists hdr', (from have l).
  assert (cur c2 = frameStatePayload) as Hc2 by (apply cur_set; unfold frameStatePayload; lia).
  split; [|done]. eapply RI_move; [exact Hri|done|exact Hcat| |apply Hri| |exact Hdecl].
  - apply (Has_advance c c2 l n have); [done|lia|done|cbn; by rewrite H2|done].
  - apply st_payload; [done|]. split; try done; rewrite ?Hb; try done.
    + cbn. rewrite H3. unfold hdr'. by rewrite at_app_l by lia.
    + cbn. rewrite H4. unfold hdr'. by rewrite at_app_l by lia.
    + intros Hm. change (Mask (rh c) = true) in Hm. change (k = le32 (from (zlen hdr' - 4) hdr')). rewrite Hk by exact Hm. f_equal.
      unfold key, hdr'. rewrite key_size_masked by congruence.
      rewrite zlen_app. replace (zlen hdr + zlen head - 4) with (zlen hdr + (zlen head - 4)) by lia.
      specialize (Hroom4 Hm). by rewrite <- from_from, from_app_length by lia.
Qed.
End Stream.

#[global] Arguments ri_has {_ _ _ _} _ _ _ _ _ _.
#[global] Arguments ri_size {_ _ _ _} _ _ _ _ _ _.
#[global] Arguments ri_received {_ _ _ _} _ _ _ _ _ _.
#[global] Arguments ri_frames {_ _ _ _} _ _ _ _ _ _.
#[global] Arguments ri_state {_ _ _ _} _ _ _ _ _ _.
#[global] Arguments ri_sane {_ _ _ _} _ _ _ _ _ _.
#[global] Arguments ri_bytes {_ _ _ _} _ _ _ _ _ _.
#[global] Arguments ri_len {_ _ _ _} _ _ _ _ _ _.
#[global] Arguments ri_write {_ _ _ _} _ _ _ _ _ _.
