(* ===== verification/WsParse.v ===== *)
(** * WsParse

    The parse loops of a websocket connection ([readHeader], [readPayload],
    [readPayloadAndCallback], the loop of [processHeaderPayloadCallback]):
    what they deliver is what the stream holds, they leave an incomplete frame
    for the next round, and they end. *)

From S2P Require Import Prelude GoStd Sock WsState WsWrite WsRead WsPlain WsSafe WsWire WsStream.

Section Parse.
Context `{WsLib} `{!WsLaws} {App : Type} (cfg : Config) (cb : Callback App) `{!CallbackOk cb}.
Notation Conn := (Conn App).
Notation go A := (M Conn A).

Abbreviation RI := (RI cfg).
Abbreviation sane := (sane cfg).
Abbreviation roomy := (roomy cfg).

(** ** The header *)

(** What a parsing step leaves when it made no error. *)
Definition parsed (raws : list bytes) (all : bytes) (n : Z) (c c' : Conn) (P : bytes -> bytes -> Prop) : Prop :=
  outer c' = outer c /\ exists hdr l, RI raws hdr l n c' /\ hdr ++ l = all /\ P hdr l.

Lemma half_incomplete hdr l :
  zlen hdr = 2 -> zlen l < rest_size (at_ hdr 1) -> incomplete (hdr ++ l).
Proof. intros Hh Hl. apply incomplete_header. rewrite zlen_app, at_app_l by lia. lia. Qed.

Lemma wp_readHeader raws hdr l n (c : Conn) :
  RI raws hdr l n c ->
  wp (readHeader cfg) (fun r c' =>
    match r with
    | (_, Some _) => outer c' = outer c
    | (true, None) => parsed raws (hdr ++ l) n c c' (fun hdr' l' =>
          cur c' = frameStatePayload /\ whole_header hdr' /\ zlen l' <= zlen l)
    | (false, None) => parsed raws (hdr ++ l) n c c' (fun hdr' l' =>
          cur c' <> frameStatePayload /\ incomplete (hdr' ++ l') /\ rw c' < n)
    end) c.
Proof.
  intros Hri. unfold readHeader, getCurState. wp_steps. fold (cur c).
  assert (forall hdr l (c1 : Conn), RI raws hdr l n c1 -> cur c1 = frameStateHeaderPayloadAndMask ->
    wp (readHeader_rest cfg) (fun r c' =>
    match r with
    | (_, Some _) => outer c' = outer c1
    | (true, None) => parsed raws (hdr ++ l) n c1 c' (fun hdr' l' =>
          cur c' = frameStatePayload /\ whole_header hdr' /\ zlen l' <= zlen l)
    | (false, None) => parsed raws (hdr ++ l) n c1 c' (fun hdr' l' =>
          cur c' <> frameStatePayload /\ incomplete (hdr' ++ l') /\ rw c' < n)
    end) c1) as Hrest.
  { clear. intros hdr l c1 Hri Hcur. eapply wp_mono; [by apply wp_readHeader_rest|]. cbv beta.
    pose proof (half_header_of _ _ _ (ri_state _ _ _ _ _ Hri) Hcur) as Hhh.
    intros [[|] [e|]] c' [Ho Hr]; try done.
    - destruct Hr as (hdr' & l' & Hri' & Hcat & Hw & Hc'). split; [done|]. exists hdr', l'.
      split; [done|]. split; [done|]. split; [done|]. split; [done|].
      apply (f_equal zlen) in Hcat. rewrite !zlen_app in Hcat. unfold whole_header in Hw.
      pose proof (rest_size_bound (at_ hdr' 1)). rewrite (hh_len _ _ _ Hhh) in Hcat. lia.
    - destruct Hr as (-> & Hh & Hl & Hw). split; [done|]. exists hdr, l. split; [done|]. split; [done|].
      split; [by rewrite Hcur|]. split; [by apply half_incomplete|done]. }
  destruct (Z.eqb_spec (cur c) frameStateHeaderStart) as [Hs|Hs].
  - pose proof (start_state _ _ _ (ri_state _ _ _ _ _ Hri) Hs) as ->. cbn [app].
    wp_steps. eapply wp_mono; [by apply wp_readHeader_start|]. cbv beta.
    intros [|] c1 [Ho Hr].
    + destruct Hr as (hdr & l1 & Hri1 & Hcat & Hc1).
      eapply wp_mono; [by apply (Hrest hdr l1)|]. cbv beta.
      pose proof (f_equal zlen Hcat) as Hz. rewrite zlen_app in Hz. pose proof (zlen_nonneg hdr).
      intros [[|] [e|]] c2; unfold parsed; rewrite Ho; try done; rewrite Hcat; [|done].
      intros (? & hdr2 & l2 & ? & ? & ? & ? & ?). split; [done|]. exists hdr2, l2.
      repeat (split; [done|]). lia.
    + wp_steps. destruct Hr as (Hri1 & Hc1 & Hl & Hw). split; [done|]. exists [], l. split; [done|].
      split; [done|]. split; [by rewrite Hc1|]. split; [|done]. apply incomplete_header. cbn. lia.
  - destruct (Z.eqb_spec (cur c) frameStateHeaderPayloadAndMask) as [Hh|Hh]; [by apply Hrest|].
    wp_steps. assert (cur c = frameStatePayload /\ whole_header hdr) as [Hc Hw].
    { destruct (ri_state _ _ _ _ _ Hri) as [?|? ? ?|? Hc Hho]; [done|done|split; [done|apply Hho]]. }
    rewrite Hc. cbn. split; [done|]. exists hdr, l. done.
Qed.

(** ** The payload *)

Lemma i64_small x : - 2 ^ 62 < x < 2 ^ 62 -> i64 x = x.
Proof. intros Hx. unfold i64, swrap. change (2 ^ (64 - 1)) with (2 * 2 ^ 62). rewrite Z.mod_small; lia. Qed.

Lemma RI_small raws hdr l n (c : Conn) : RI raws hdr l n c -> zlen l < 2 ^ 62.
Proof.
  intros Hri. destruct (ri_sane _ _ _ _ _ Hri) as [Hs _]. rewrite (ri_received _ _ _ _ _ Hri) in Hs.
  rewrite !zlen_app in Hs. pose proof (zlen_nonneg (concat raws)). pose proof (zlen_nonneg hdr).
  pose proof (zlen_nonneg (incoming (world c))). lia.
Qed.

Lemma RI_declared raws hdr l n (c : Conn) :
  RI raws hdr l n c -> whole_header hdr -> roomy (declared hdr).
Proof.
  intros Hri Hw. eapply (proj2 (proj2 (ri_sane _ _ _ _ _ Hri)) raws hdr (l ++ incoming (world c))); [|apply Hri|done].
  by rewrite (ri_received _ _ _ _ _ Hri), <- !app_assoc.
Qed.

Lemma pool_slice_len k : 0 <= k -> k <= zlen (pool_slice k).
Proof.
  intros Hk. unfold pool_slice, zlen. pose proof (GetBytes_enough k Hk). rewrite length_replicate. lia.
Qed.

(** A larger buffer with the unread bytes at its front. *)
Lemma Has_new (c c' : Conn) l (new : bytes) :
  zlen l <= zlen new -> rbuf c' = Some (copy_front new l) -> rr c' = 0 -> rw c' = zlen l ->
  Has c' l (zlen new).
Proof.
  intros Hl Hb Hr Hw. destruct (copy_front_eq new l Hl) as [H1 H2]. exists (copy_front new l).
  pose proof (zlen_nonneg l). rewrite Hr, Hw. repeat split; try done; lia.
Qed.

(** After this the rest of the payload fits behind [rw]. *)
Lemma wp_readPayload_room raws hdr l n (c : Conn) :
  RI raws hdr l n c -> cur c = frameStatePayload ->
  wp (readPayload_room cfg) (fun _ c' => exists n', RI raws hdr l n' c' /\ outer c' = outer c /\
      parser_part c' = parser_part c /\ n <= n' /\ declared hdr - zlen l <= n' - rw c') c.
Proof.
  intros Hri Hcur. pose proof (ri_has _ _ _ _ _ Hri) as Hhas. pose proof (Has_len _ _ _ Hhas) as Hl.
  pose proof (header_of_state _ _ _ (ri_state _ _ _ _ _ Hri) Hcur) as Hho.
  pose proof (RI_small _ _ _ _ _ Hri) as Hsm. pose proof (ri_size _ _ _ _ _ Hri) as Hn.
  destruct (RI_declared _ _ _ _ _ Hri (ho_whole _ _ Hho)) as [Hd Hwin]. pose proof (zlen_nonneg l).
  assert (forall n' (c' : Conn), Has c' l n' -> outer c' = outer c -> parser_part c' = parser_part c -> n <= n' ->
    declared hdr - zlen l <= n' - rw c' ->
    exists n'', RI raws hdr l n'' c' /\ outer c' = outer c /\ parser_part c' = parser_part c /\ n <= n'' /\
      declared hdr - zlen l <= n'' - rw c') as Hfin.
  { intros n' c' Hhas' Ho Hp Hn' Hd'. pose proof Hp as [= P1 P2 P3]. exists n'. split; [|done].
    assert (cur c' = frameStatePayload) as Hcur' by (unfold cur; by rewrite P3).
    eapply RI_move; try done; [lia|by apply st_payload; rewrite ?P2|rewrite P2; exact (ri_len _ _ _ _ _ Hri)]. }
  unfold readPayload_room. wp_steps. eapply wp_writeCap; [done|]. wp_steps.
  rewrite (ho_len _ _ Hho), <- Hl, i64_small by lia.
  pose proof Hhas as (buf & Hb & Hr & Hw & Hnb & Hs).
  branch Hbig; [|branch Hmid].
  - unfold deref_rbuf. wp_steps. rewrite Hb. eapply wp_of_option; [done|]. wp_steps.
    apply wp_reslice; [lia|lia|]. wp_steps. rewrite Hs.
    pose proof MaxFrameHeaderSize_enough. pose proof (pool_slice_len (bufferSize cfg (declared hdr))) as Hps.
    specialize (Hps ltac:(lia)).
    eapply Hfin; [eapply (Has_new c); [|done|done|cbn; lia]; lia|done|done|..]; cbn; lia.
  - eapply wp_mono; [by apply wp_leftMove|]. cbv beta. intros _ c' (Hhas' & Hr' & Ho & Hp).
    apply (Hfin n); try done. pose proof (Has_len _ _ _ Hhas'). lia.
  - wp_steps. apply (Hfin n); try done. lia.
Qed.
Lemma wp_readPayload needCopy raws hdr l n (c : Conn) :
  RI raws hdr l n c -> cur c = frameStatePayload ->
  wp (readPayload cfg needCopy) (fun o c' => outer c' = outer c /\ parser_part c' = parser_part c /\
    match o with
    | None => exists n', RI raws hdr l n' c' /\ zlen l < declared hdr /\ rw c' < n'
    | Some f => frame_of (hdr ++ f_Payload f) f /\
        exists l' n', l = f_Payload f ++ l' /\ Has c' l' n' /\ MaxFrameHeaderSize <= n'
    end) c.
Proof.
  intros Hri Hcur. pose proof (Has_len _ _ _ (ri_has _ _ _ _ _ Hri)) as Hl.
  pose proof (header_of_state _ _ _ (ri_state _ _ _ _ _ Hri) Hcur) as Hho.
  pose proof (RI_small _ _ _ _ _ Hri) as Hsm. pose proof (zlen_nonneg l).
  destruct (RI_declared _ _ _ _ _ Hri (ho_whole _ _ Hho)) as [Hd _].
  unfold readPayload. wp_steps. eapply wp_mono; [by eapply wp_readPayload_room|]. cbv beta.
  intros _ c1 (n1 & Hri1 & Ho1 & Hp1 & Hn1 & Hroom). wp_steps.
  pose proof (ri_has _ _ _ _ _ Hri1) as Hhas1. pose proof (Has_len _ _ _ Hhas1) as Hl1.
  rewrite (ho_len _ _ Hho), <- Hl, i64_small by lia.
  branch Hneed; [wp_steps; split; [done|]; split; [done|]; exists n1; split; [done|]; lia|].
  wp_steps. pose proof Hp1 as [= P1 P2 P3]. rewrite P2, (ho_len _ _ Hho).
  eapply wp_deref; [done|]. intros buf Hb Hnb Hs. wp_steps.
  pose proof Hhas1 as (_ & _ & Hr & Hw & _ & _). apply wp_reslice; [lia|lia|]. wp_steps.
  rewrite <- (upto_slice (declared hdr) (rr c1) (rw c1) buf) by lia. rewrite Hs.
  assert (frame_of (hdr ++ upto (declared hdr) l) (mkFrame2 (rh c) (upto (declared hdr) l))) as Hf.
  { exists hdr. split; [done|]. split; [done|]. cbn. rewrite zlen_upto; lia. }
  set (c2 := set_rr (rr c1 + declared hdr) c1).
  assert (Has c2 (from (declared hdr) l) n1) as Hhas2
    by (apply (Has_advance c1 c2 l n1 (declared hdr)); (done || lia)).
  pose proof (ri_size _ _ _ _ _ Hri1) as Hsz.
  branch Hcopy.
  - wp_steps. split; [done|]. split; [done|]. split; [done|]. exists (from (declared hdr) l), n1.
    split; [symmetry; apply upto_from|done].
  - pose proof (pool_slice_len (declared hdr + MaxFrameHeaderSize)) as Hps.
    pose proof MaxFrameHeaderSize_enough. specialize (Hps ltac:(lia)).
    replace (zlen (pool_slice (declared hdr + MaxFrameHeaderSize)) <? declared hdr) with false by lia.
    wp_steps. fold c2.
    eapply (wp_mono _ (fun _ c' => Has c' (from (declared hdr) l) n1 /\ outer c' = outer c2 /\
              parser_part c' = parser_part c2)).
    { branch Hmove; [|by wp_steps]. eapply wp_mono; [by apply wp_leftMove|]. cbv beta. tauto. }
    cbv beta. intros _ c3 (Hhas3 & Ho3 & Hp3). wp_steps. split; [by rewrite Ho3|].
    split; [by rewrite Hp3|]. split; [done|]. exists (from (declared hdr) l), n1.
    split; [symmetry; apply upto_from|done].
Qed.

(** ** The callbacks *)

(** What the handling of a frame leaves alone. *)
Definition rstep (c c' : Conn) : Prop :=
  read_part c' = read_part c /\ (closed c = true -> closed c' = true).
Definition quietly {B} (m : go B) : Prop :=
  forall c, Winv c -> wp m (fun _ c' => Winv c' /\ rstep c c') c.

#[export] Instance rstep_preorder : PreOrder rstep.
Proof. split; [by intros c|]. intros c1 c2 c3 [] []. split; [congruence|auto]. Qed.

Lemma calm_quietly {B} (m : go B) : calm m -> quietly m.
Proof. intros Hm c Hc. eapply wp_mono; [by apply Hm|]. cbv beta. intros b c' [? []]. done. Qed.

Lemma quietly_bind {B D} (m : go B) (k : B -> go D) :
  quietly m -> (forall b, quietly (k b)) -> quietly (m ≫= k).
Proof.
  intros Hm Hk c Hc. apply wp_bind. eapply wp_mono; [by apply Hm|]. cbn. intros b c1 [W1 S1].
  eapply wp_mono; [by apply Hk|]. cbn. intros d c2 [W2 S2]. split; [done|by transitivity c1].
Qed.

Lemma quietly_ret {B} (b : B) : quietly (mret b).
Proof. apply calm_quietly, calm_mret. Qed.
Lemma quietly_gets {B} (f : Conn -> B) : quietly (gets f).
Proof. apply calm_quietly, calm_gets. Qed.
Lemma quietly_modify (g : Conn -> Conn) :
  (forall c, read_part (g c) = read_part c /\ closed (g c) = closed c /\ wbufList (g c) = wbufList c) ->
  quietly (modify g).
Proof.
  intros Hg c Hc. apply wp_modify. destruct (Hg c) as (H1 & H2 & H3). split.
  - unfold Winv. by rewrite H2, H3.
  - split; [done|by rewrite H2].
Qed.

Lemma quietly_check {E} (m k : go (option E)) : quietly m -> quietly k -> quietly (check m k).
Proof. intros Hm Hk. apply quietly_bind; [done|]. intros [e|]; [apply quietly_ret|done]. Qed.

Lemma quietly_WriteTimeout op data : quietly (WriteTimeout cfg cb op data).
Proof.
  intros c Hc. eapply wp_mono; [by apply wp_WriteMessage|]. cbv beta. intros e c' (W & [S1 S2 S3] & _). done.
Qed.

Lemma quietly_closeWithLock err : quietly (closeWithLock cb err).
Proof. by apply calm_quietly, calm_closeWithLock. Qed.
Lemma quietly_once err : quietly (once_OnClose cb err).
Proof. by apply calm_quietly, calm_once_OnClose. Qed.
Lemma quietly_OnMessage op p : quietly (OnMessage cb op p).
Proof. apply calm_quietly. intros c Hc. by apply cbo_message. Qed.
Lemma quietly_decode p : quietly (decode cfg p).
Proof. apply calm_quietly, calm_outside. apply Decompress_view. Qed.

(** One step of such a proof, by the head of the program. *)
Ltac quiet_step :=
  match goal with
  | |- quietly (check _ _) => apply quietly_check
  | |- quietly (mbind _ _) => apply quietly_bind; [|intros]
  | |- quietly (mret _) => apply quietly_ret
  | |- quietly (gets _) => apply quietly_gets
  | |- quietly get => apply quietly_gets
  | |- quietly (modify _) => apply quietly_modify; by intros
  | |- quietly (WriteTimeout _ _ _ _) => apply quietly_WriteTimeout
  | |- quietly (closeWithLock _ _) => apply quietly_closeWithLock
  | |- quietly (once_OnClose _ _) => apply quietly_once
  | |- quietly (OnMessage _ _ _) => apply quietly_OnMessage
  | |- quietly (decode _ _) => apply quietly_decode
  | |- quietly (if ?b then _ else _) => destruct b
  | |- quietly (match ?x with _ => _ end) => destruct x
  | |- quietly (let '(_, _) := ?x in _) => destruct x
  end.

Lemma quietly_writeErr code e : quietly (writeErrAndOnClose cfg cb code e).
Proof. unfold writeErrAndOnClose. repeat quiet_step. Qed.

Lemma quietly_addTask f : quietly f -> quietly (addTask f).
Proof. intros Hf. unfold addTask, isClosed. repeat quiet_step. done. Qed.

Lemma quietly_data op p rsv1 nm k : quietly (processCallbackData cfg cb op p rsv1 nm k).
Proof. unfold processCallbackData. repeat quiet_step. Qed.

Lemma quietly_done op rsv1 p : quietly (fragment_done cfg cb op rsv1 p).
Proof. unfold fragment_done. repeat quiet_step. Qed.

Lemma quietly_on_control f k nm : quietly (on_control cfg cb f k nm).
Proof.
  unfold on_control, on_close.
  repeat first [apply quietly_writeErr | apply quietly_addTask | quiet_step].
Qed.

Lemma quietly_on_data f rsv1 k nm : quietly (on_data cfg cb f rsv1 k nm).
Proof.
  unfold on_data, isClosed. repeat first [apply quietly_data | quiet_step].
Qed.

Lemma quietly_continuation h f k nm : quietly (on_continuation cfg cb h f k nm).
Proof.
  unfold on_continuation. repeat first [apply quietly_addTask | apply quietly_done | quiet_step].
Qed.

Lemma quietly_processCallback f : quietly (processCallback cfg cb f).
Proof.
  unfold processCallback. cbv zeta.
  repeat first [apply quietly_writeErr | apply quietly_on_control | apply quietly_on_data
    | apply quietly_continuation | quiet_step].
Qed.

(** ** A frame, and all frames *)

Definition to_start (c : Conn) : Conn :=
  set_packed (Z.ldiff (packed c) stateMask .| (frameStateHeaderStart .& stateMask)) c.

(** The delivered frames are the first frames of what has been received. *)
Definition front (c : Conn) : Prop :=
  exists raws rest, received c = concat raws ++ rest /\ Forall2 frame_of raws (delivered c).

(** The bytes that are there and the bytes that are still to come do not change. *)
Definition same_stream (c c' : Conn) : Prop :=
  received c' = received c /\ world_view (world c') = world_view (world c).

#[export] Instance same_stream_preorder : PreOrder same_stream.
Proof. split; [by intros c|]. intros c1 c2 c3 [] []. split; congruence. Qed.

Lemma outer_stream (c c' : Conn) : outer c' = outer c -> same_stream c c'.
Proof. intros [= E1 E2 E3 E4 E5]. split; [done|by rewrite E3]. Qed.

Lemma RI_front raws hdr l n (c : Conn) : RI raws hdr l n c -> front c.
Proof. intros Hri. exists raws, (hdr ++ l). split; apply Hri. Qed.

(** A step that gave up before it touched anything. *)
Lemma RI_outer_error (raws : list bytes) hdr l n (c c' : Conn) :
  RI raws hdr l n c -> outer c' = outer c ->
  same_stream c c' /\ front c' /\ Winv c'.
Proof.
  intros Hri Ho. split; [by apply outer_stream|]. split; [|by apply (Winv_outer c); [|apply Hri]].
  injection Ho as E1 E2 E3 E4 E5. destruct (RI_front _ _ _ _ _ Hri) as (rs & rest & Hrec & Hf).
  exists rs, rest. by rewrite E4, E5.
Qed.

(** From a delivered frame, through its callback, to the start of the next. *)
Lemma RI_delivered raws hdr l n l' n' f (c c1 c2 : Conn) :
  RI raws hdr l n c -> outer c1 = outer c -> frame_of (hdr ++ f_Payload f) f ->
  l = f_Payload f ++ l' -> Has c1 l' n' -> MaxFrameHeaderSize <= n' ->
  roomy (PayloadLen (rh c1)) ->
  rstep (set_delivered (delivered c1 ++ [f]) c1) c2 -> Winv c2 ->
  RI (raws ++ [hdr ++ f_Payload f]) [] l' n' (to_start c2).
Proof.
  intros Hri Ho Hf Hl Hhas Hn Hlen [Hrd _] W2. pose proof Ho as [= O1 O2 O3 O4 O5].
  injection Hrd as E1 E2 E3 E4 E5 E6 E7 E8 E9.
  assert (received c2 = concat (raws ++ [hdr ++ f_Payload f]) ++ l') as Hrec.
  { cbn in E7. rewrite E7, O4, (ri_received _ _ _ _ _ Hri), Hl, concat_app. cbn.
    by rewrite app_nil_r, <- !app_assoc. }
  split.
  - destruct Hhas as (buf & Hb & ? & ? & ? & ?). exists buf. cbn in *. by rewrite E1, E2, E3.
  - done.
  - done.
  - cbn in *. rewrite E8, O5. apply Forall2_app; [apply Hri|by repeat constructor].
  - apply st_start. apply cur_set. unfold frameStateHeaderStart. lia.
  - change (sane (received c2 ++ incoming (world c2))).
    cbn in E7, E9. rewrite E7, E9, O3, O4. apply Hri.
  - cbn in *. rewrite E7, O4. apply Hri.
  - cbn in *. by rewrite E5.
  - exact W2.
Qed.

Lemma rstep_front (c c' : Conn) : rstep c c' -> front c -> front c'.
Proof.
  intros [Hrd _] (raws & rest & Hr & Hf). injection Hrd as E1 E2 E3 E4 E5 E6 E7 E8 E9.
  exists raws, rest. by rewrite E7, E8.
Qed.
Lemma rstep_stream (c c' : Conn) : rstep c c' -> same_stream c c'.
Proof. intros [Hrd _]. unfold read_part in Hrd. by split; congruence. Qed.

Lemma wp_readPayloadAndCallback raws hdr l n (c : Conn) :
  RI raws hdr l n c -> cur c = frameStatePayload ->
  wp (readPayloadAndCallback cfg cb) (fun r c' => same_stream c c' /\ front c' /\ Winv c' /\
    match r with
    | (_, Some _) => True
    | (true, None) => exists raw l' n', RI (raws ++ [raw]) [] l' n' c' /\ zlen l' <= zlen l /\ whole_header hdr
    | (false, None) => exists n', RI raws hdr l n' c' /\ incomplete (hdr ++ l) /\ rw c' < n'
    end) c.
Proof.
  intros Hri Hcur. pose proof (header_of_state _ _ _ (ri_state _ _ _ _ _ Hri) Hcur) as Hho.
  unfold readPayloadAndCallback, getCurState. wp_steps. fold (cur c). rewrite Hcur. cbn.
  wp_steps. set (needCopy := _ || _). eapply wp_mono; [by apply (wp_readPayload needCopy raws hdr l n)|].
  cbv beta. intros [f|] c1 (Ho1 & Hp1 & Hr).
  2: { wp_steps. destruct Hr as (n' & Hri' & Hl & Hw). split; [by apply outer_stream|].
       split; [by eapply RI_front|]. split; [apply Hri'|]. exists n'. split; [done|].
       split; [|done]. apply incomplete_payload; [apply Hho|done]. }
  destruct Hr as (Hf & l' & n' & Hl & Hhas & Hn'). wp_steps.
  set (c2 := set_delivered _ c1).
  assert (Winv c2) as W2 by exact (Winv_outer c c1 Ho1 (ri_write _ _ _ _ _ Hri)).
  eapply wp_mono; [by apply wp_maybeCork|]. cbv beta. intros _ c3 (W3 & [S1 S2 S3] & _).
  assert (rstep c2 c3) as R3 by done. wp_steps.
  eapply wp_mono; [by apply quietly_processCallback|]. cbv beta. intros e c4 (W4 & R4).
  assert (rstep c2 c4) as R24 by (by transitivity c3).
  assert (roomy (PayloadLen (rh c1))) as Hpl by (injection Hp1 as _ -> _; exact (ri_len _ _ _ _ _ Hri)).
  pose proof (RI_delivered raws hdr l n l' n' f c c1 c4 Hri Ho1 Hf Hl Hhas Hn' Hpl R24 W4) as Hri4.
  assert (same_stream c c4) as Hs4.
  { transitivity c1; [by apply outer_stream|]. exact (rstep_stream _ _ R24). }
  pose proof (RI_front _ _ _ _ _ Hri4) as Hf4.
  destruct e as [e|].
  - wp_steps. eapply wp_mono; [by apply quietly_closeWithLock|]. cbv beta. intros _ c5 (W5 & R5).
    wp_steps. split; [transitivity c4; [done|by apply rstep_stream]|].
    split; [by apply (rstep_front c4)|done].
  - unfold setCurState. wp_steps. split; [done|]. split; [done|]. split; [done|].
    exists (hdr ++ f_Payload f), l', n'. split; [exact Hri4|]. split; [|apply Hho].
    rewrite Hl, zlen_app. pose proof (zlen_nonneg (f_Payload f)). lia.
Qed.

(** What a round of parsing leaves. *)
Definition parse_post (c : Conn) (e : option wserror) (c' : Conn) : Prop :=
  same_stream c c' /\ front c' /\ Winv c' /\
  (e = None -> exists raws hdr l n, RI raws hdr l n c' /\ incomplete (hdr ++ l)).

Lemma parse_post_from (c c1 : Conn) e (c' : Conn) :
  same_stream c c1 -> parse_post c1 e c' -> parse_post c e c'.
Proof. intros Hs (Hs1 & Hrest). split; [by transitivity c1|done]. Qed.

Definition pending (hdr : bytes) : Z := match hdr with [] => 1 | _ => 2 end.

Lemma wp_parse_loop k : forall raws hdr l n (c : Conn),
  RI raws hdr l n c -> zlen l + pending hdr <= Z.of_nat k ->
  wp (parse_loop cfg cb k) (parse_post c) c.
Proof.
  induction k as [|k IH]; intros raws hdr l n c Hri Hk.
  { pose proof (zlen_nonneg l). destruct hdr; cbn in Hk; lia. }
  cbn [parse_loop]. wp_steps. eapply wp_mono; [by eapply wp_readHeader|]. cbv beta.
  intros [[|] [e|]] c1 Hr; wp_steps.
  1, 3: by destruct (RI_outer_error _ _ _ _ _ _ Hri Hr) as (? & ? & ?).
  - destruct Hr as (Ho & hdr1 & l1 & Hri1 & Hcat & Hcur & Hw & Hl).
    eapply wp_mono; [by eapply wp_readPayloadAndCallback|]. cbv beta.
    intros [[|] [e|]] c2 (Hs & Hf & W2 & Hr); wp_steps.
    1, 3: split; [transitivity c1; [by apply outer_stream|done]|done].
    + destruct Hr as (raw & l2 & n2 & Hri2 & Hl2 & _).
      eapply wp_mono; [eapply (IH _ [] l2 n2 c2 Hri2)|].
      * apply (f_equal zlen) in Hcat. rewrite !zlen_app in Hcat. cbn [pending].
        unfold whole_header in Hw. pose proof (rest_size_bound (at_ hdr1 1)).
        destruct hdr as [|b hdr]; cbn [pending] in Hk; [rewrite zlen_nil in Hcat|]; lia.
      * cbv beta. intros e c3. apply parse_post_from. transitivity c1; [by apply outer_stream|done].
    + destruct Hr as (n2 & Hri2 & Hinc & _). split; [transitivity c1; [by apply outer_stream|done]|].
      split; [done|]. split; [done|]. intros _. by exists raws, hdr1, l1, n2.
  - destruct Hr as (Ho & hdr1 & l1 & Hri1 & Hcat & Hcur & Hinc & Hw).
    split; [by apply outer_stream|]. split; [by eapply RI_front|]. split; [apply Hri1|].
    intros _. by exists raws, hdr1, l1, n.
Qed.
End Parse.
