(* ===== verification/WsRound.v ===== *)
(** * WsRound

    A round of reading ([processWebsocketFrame]): the read loop with its buffer
    growth, the parse loop, the end of the round; and the life of a connection
    as the events the event loop sees ([EventLoop.Loop]).  Whatever pieces the
    kernel hands the bytes over in, every round ends, and the frames delivered
    are the whole frames of the bytes received. *)

From S2P Require Import Prelude GoStd Sock WsState WsWrite WsRead WsPlain WsSafe WsWire WsStream.
From S2P Require Import WsParse.

Section Round.
Context `{WsLib} `{!WsLaws} {App : Type} (cfg : Config) (cb : Callback App) `{!CallbackOk cb}.
Notation Conn := (Conn App).
Notation go A := (M Conn A).
Abbreviation RI := (RI cfg).
Abbreviation sane := (sane cfg).
Abbreviation roomy := (roomy cfg).

(** All the bytes of the peer, read and unread. *)
Definition stream (c : Conn) : bytes := received c ++ incoming (world c).

Lemma same_stream_eq (c c' : Conn) : same_stream c c' -> stream c' = stream c.
Proof. intros [Hr Hw]. unfold stream. rewrite Hr. injection Hw as -> _. done. Qed.

Lemma step_rstep (c c' : Conn) : step c c' -> rstep c c'.
Proof. by intros []. Qed.

(** ** The read buffer between two reads *)

Lemma state_ok_more (c c' : Conn) n n' hdr :
  state_ok c n hdr -> parser_part c' = parser_part c -> rr c' - rr c <= n' - n -> state_ok c' n' hdr.
Proof.
  intros Hst [= E1 E2 E3] Hn. destruct Hst as [Hc|hdr Hc []|hdr Hc Hh].
  - apply st_start. unfold cur. by rewrite E3.
  - apply st_half; [unfold cur; by rewrite E3|]. split; rewrite ?E1, ?E2; try done. lia.
  - apply st_payload; [unfold cur; by rewrite E3|]. by rewrite E2.
Qed.

(** The bytes a read has brought. *)
Definition filled (buf data : bytes) (w' : World) (c : Conn) : Conn :=
  let c := set_received (received c ++ data) (set_world w' c) in
  set_rw (rw c + zlen data) (set_rbuf (Some (upto (rw c) buf ++ data ++ from (rw c + zlen data) buf)) c).

Lemma RI_read raws hdr l n (c : Conn) buf data w' :
  RI raws hdr l n c -> rbuf c = Some buf -> incoming (world c) = data ++ incoming w' ->
  zlen data <= n - rw c -> bytes_ok data ->
  RI raws hdr (l ++ data) n (filled buf data w' c) /\ stream (filled buf data w' c) = stream c.
Proof.
  intros Hri Hbuf Hin Hd Hok. pose proof (ri_has _ _ _ _ _ Hri) as (b & Hb & Hr & Hw & Hn & Hs).
  rewrite Hbuf in Hb. injection Hb as <-.
  pose proof (zlen_nonneg data). assert (stream (filled buf data w' c) = stream c) as Hstr.
  { unfold stream. cbn. by rewrite Hin, app_assoc. }
  destruct (slice_store (rr c) (rw c) buf data) as [Hs1 Hs2]; [lia|lia|].
  split; [|done]. split.
  - eexists. cbn. split; [done|]. split; [lia|]. split; [lia|]. rewrite Hs1, Hs2. by rewrite Hs.
  - apply Hri.
  - cbn. rewrite (ri_received _ _ _ _ _ Hri). by rewrite <- !app_assoc.
  - apply Hri.
  - eapply state_ok_more; [apply Hri|done|]. cbn. lia.
  - fold (stream (filled buf data w' c)). rewrite Hstr. apply Hri.
  - cbn. apply bytes_ok_app. split; [apply Hri|done].
  - exact (ri_len _ _ _ _ _ Hri).
  - exact (ri_write _ _ _ _ _ Hri).
Qed.

Lemma wp_growReadBuffer raws hdr l n (c : Conn) :
  RI raws hdr l n c -> n < batchReadBufferSize ->
  wp growReadBuffer (fun _ c' => outer c' = outer c /\
    exists n', RI raws hdr l n' c' /\ n < n' /\ rw c' = rw c) c.
Proof.
  intros Hri Hn. pose proof (ri_has _ _ _ _ _ Hri) as Hhas. unfold growReadBuffer. wp_steps.
  eapply wp_deref; [done|]. intros buf Hb Hnb Hs. wp_steps.
  pose proof Hhas as (_ & _ & Hr & Hw & _ & _). apply wp_reslice; [lia|lia|]. wp_steps.
  split; [done|]. pose proof (pool_slice_len batchReadBufferSize ltac:(done)) as Hp.
  set (pool := pool_slice batchReadBufferSize) in *.
  destruct (slice_copy (rr c) (rw c) buf pool) as [H1 H2]; [lia..|].
  exists (zlen pool). split; [|by split; [lia|]].
  eapply RI_move; try done.
  - exists (copy_front pool (slice 0 (rw c) buf)). cbn. split; [done|]. split; [lia|]. split; [lia|].
    split; [done|]. by rewrite H1.
  - pose proof (ri_size _ _ _ _ _ Hri). lia.
  - eapply state_ok_more; [apply Hri|done|]. cbn. lia.
  - exact (ri_len _ _ _ _ _ Hri).
Qed.

(** The measure of the read loop: reads that are left, bytes to come, bytes in
    the parser, and a full buffer. *)
Definition todo (c : Conn) (hdr l : bytes) (n : Z) : Z :=
  2 * Z.of_nat (reads_left (world c)) + zlen (incoming (world c)) + zlen (hdr ++ l) +
  (if rw c =? n then 1 else 0).

Lemma todo_pos c hdr l n : 0 <= todo c hdr l n.
Proof.
  unfold todo. pose proof (zlen_nonneg (incoming (world c))). pose proof (zlen_nonneg (hdr ++ l)).
  destruct (rw c =? n); lia.
Qed.

(** One parsing step from a full buffer makes progress. *)
Lemma wp_full_buffer_step raws hdr l n (c : Conn) :
  RI raws hdr l n c -> rw c = n ->
  wp (full_buffer_step cfg cb) (fun e c' => same_stream c c' /\ front c' /\ Winv c' /\
    (e = None -> exists raws' hdr' l' n', RI raws' hdr' l' n' c' /\ todo c' hdr' l' n' < todo c hdr l n)) c.
Proof.
  intros Hri Hfull. unfold full_buffer_step.
  assert (forall hdr' l' n' (c' : Conn), same_stream c c' ->
    zlen (hdr' ++ l') < zlen (hdr ++ l) \/ (zlen (hdr' ++ l') = zlen (hdr ++ l) /\ rw c' < n') ->
    todo c' hdr' l' n' < todo c hdr l n) as Hless.
  { intros hdr' l' n' c' [_ Hs] Hor. injection Hs as S1 S2. unfold todo. rewrite S1, S2, Hfull, Z.eqb_refl.
    destruct (Z.eqb_spec (rw c') n'); lia. }
  wp_steps. eapply wp_mono; [by eapply wp_readHeader|]. cbv beta.
  intros [[|] [e|]] c1 Hr; cbn [snd]; wp_steps.
  1, 3: by destruct (RI_outer_error _ _ _ _ _ _ _ Hri Hr) as (? & ? & ?).
  - destruct Hr as (Ho & hdr1 & l1 & Hri1 & Hcat & Hcur & Hw & Hl).
    eapply wp_mono; [by eapply wp_readPayloadAndCallback|]. cbv beta.
    intros [ok e] c2 (Hs & Hf & W2 & Hr).
    assert (same_stream c c2) as Hs2 by (transitivity c1; [by apply outer_stream|done]).
    destruct e as [e|]; cbn [snd]; wp_steps; [done|].
    split; [done|]. split; [done|]. split; [done|]. intros _. destruct ok.
    + destruct Hr as (raw & l2 & n2 & Hri2 & Hl2 & _). exists (raws ++ [raw]), [], l2, n2.
      split; [done|]. apply Hless; [done|]. left. rewrite <- Hcat, !zlen_app, zlen_nil.
      unfold whole_header in Hw. pose proof (rest_size_bound (at_ hdr1 1)). lia.
    + destruct Hr as (n2 & Hri2 & Hinc & Hw2). exists raws, hdr1, l1, n2. split; [done|].
      apply Hless; [done|]. right. by rewrite Hcat.
  - destruct Hr as (Ho & hdr1 & l1 & Hri1 & Hcat & Hcur & Hinc & Hw).
    unfold readPayloadAndCallback, getCurState. wp_steps. fold (cur c1).
    replace (cur c1 =? frameStatePayload) with false by lia. cbn. wp_steps.
    split; [by apply outer_stream|]. split; [by eapply RI_front|]. split; [apply Hri1|].
    intros _. exists raws, hdr1, l1, n. split; [done|]. apply Hless; [by apply outer_stream|].
    right. by rewrite Hcat.
Qed.

(** ** The read loop *)

Lemma RI_world raws hdr l n (c : Conn) w' :
  RI raws hdr l n c -> incoming w' = incoming (world c) -> RI raws hdr l n (set_world w' c).
Proof.
  intros Hri Hin. split; try exact (ri_len _ _ _ _ _ Hri); try apply Hri.
  - eapply state_ok_more; [apply Hri|done|]. cbn. lia.
  - cbn. rewrite Hin. apply Hri.
Qed.

Lemma wp_socketRead n0 (c : Conn) :
  0 <= n0 ->
  wp (socketRead n0) (fun r c1 => exists w', 
    match r with
    | (data, None) => c1 = set_received (received c ++ data) (set_world w' c) /\
        incoming (world c) = data ++ incoming w' /\ zlen data <= n0 /\ bytes_ok data /\
        ((n0 = 0 /\ w' = world c) \/ (reads_left w' < reads_left (world c))%nat)
    | (_, Some e) => c1 = set_world w' c /\ incoming w' = incoming (world c) /\
        (reads_left w' <= reads_left (world c))%nat /\
        (e = EINTR -> (reads_left w' < reads_left (world c))%nat)
    end) c.
Proof.
  intros Hn. unfold socketRead. destruct (Z.eqb_spec n0 0) as [->|Hz].
  - wp_steps. exists (world c). rewrite app_nil_r. split; [by destruct c|].
    split; [done|]. split; [done|]. split; [constructor|]. by left.
  - wp_steps. unfold wp, outside. pose proof (sys_read_spec (fd c) n0 (world c) ltac:(lia)) as Hs.
    destruct (sys_read (fd c) n0 (world c)) as [[data|e] w']; cbn in *; exists w'.
    + destruct Hs as (? & ? & ? & ?). split; [done|]. split; [done|]. split; [done|]. split; [done|]. by right.
    + destruct e; (split; [done|]); (split; [by destruct Hs|]);
        (split; [destruct Hs; lia|]); intros ?; (done || by destruct Hs).
Qed.

(** Reading: the stream stays what it is, and fewer reads are left. *)
Definition progress (c c' : Conn) : Prop :=
  stream c' = stream c /\ (reads_left (world c') <= reads_left (world c))%nat.

#[export] Instance progress_preorder : PreOrder progress.
Proof. split; [by intros c|]. intros c1 c2 c3 [] []. split; [congruence|lia]. Qed.

Lemma same_progress (c c' : Conn) : same_stream c c' -> progress c c'.
Proof.
  intros Hs. split; [by apply same_stream_eq|]. destruct Hs as [_ Hw]. injection Hw as _ ->. done.
Qed.

(** How a loop of reads may end. *)
Definition round_post (c : Conn) (e : option wserror) (c' : Conn) : Prop :=
  progress c c' /\ front c' /\ Winv c' /\
  (e = None -> exists raws hdr l n, RI raws hdr l n c').

Lemma round_post_from (c c1 : Conn) e (c' : Conn) :
  progress c c1 -> round_post c1 e c' -> round_post c e c'.
Proof. intros Hs (Hs1 & Hrest). split; [by transitivity c1|done]. Qed.

Lemma round_post_error raws hdr l n (c c1 : Conn) (e : wserror) c' :
  RI raws hdr l n c1 -> progress c c1 -> rstep c1 c' -> Winv c' -> round_post c (Some e) c'.
Proof.
  intros Hri Hs Hst W. split; [transitivity c1; [done|by apply same_progress, rstep_stream]|].
  split; [by eapply rstep_front, RI_front|]. done.
Qed.

Lemma wp_unbind {B D} (m : go B) (k : B -> go D) Q (c : Conn) :
  wp (m ≫= k) Q c -> wp m (fun b => wp (k b) Q) c.
Proof. unfold wp, mbind, M_bind. by destruct (m c) as [[b c']|]. Qed.

(** The tail of the loop body, once the bytes are in the buffer; [n0] was the
    room, [m] the number of bytes. *)
Lemma wp_after_read k (c0 : Conn) raws hdr l n n0 m (c : Conn) :
  (forall raws hdr l n (c : Conn), RI raws hdr l n c -> todo c hdr l n < Z.of_nat k ->
     wp (read_loop cfg cb k) (round_post c) c) ->
  RI raws hdr l n c -> progress c0 c -> todo c hdr l n <= Z.of_nat k ->
  rw c = n - n0 + m ->
  wp (buf ← deref_rbuf;
      w ← gets rw;
      (if (w =? zlen buf) && (zlen buf <? batchReadBufferSize) then growReadBuffer else mret tt) ;;
      room ← writeCap;
      if room =? 0 then
        e ← full_buffer_step cfg cb;
        match e with Some e => mret (Some e) | None => read_loop cfg cb k end
      else if m <? n0 then mret None
      else read_loop cfg cb k) (round_post c0) c.
Proof.
  intros IH Hri Hs Hk Hrw. wp_steps. eapply wp_deref; [apply Hri|]. intros buf Hb Hnb _. wp_steps.
  rewrite Hnb. eapply (wp_mono _ (fun _ c1 => exists n1, RI raws hdr l n1 c1 /\ outer c1 = outer c /\
    rw c1 = rw c /\ (n1 = n \/ (rw c = n /\ n < n1)))).
  { branch Hg; [|wp_steps; exists n; auto]. apply andb_true_iff in Hg as [Hg1 Hg2].
    eapply wp_mono; [eapply wp_growReadBuffer; [done|lia]|]. cbv beta. intros _ c1 (Ho & n1 & ? & ? & ?).
    exists n1. split; [done|]. split; [done|]. split; [done|]. right. lia. }
  cbv beta. intros _ c1 (n1 & Hri1 & Ho1 & Hw1 & Hn1). wp_steps.
  assert (progress c0 c1) as Hs1.
  { transitivity c; [done|]. by apply same_progress, outer_stream. }
  assert (todo c1 hdr l n1 <= todo c hdr l n /\
          (rw c1 <> n1 -> rw c = n -> todo c1 hdr l n1 < todo c hdr l n)) as [Ht1 Ht2].
  { injection Ho1 as _ _ E3 _ _. unfold todo. rewrite E3, Hw1.
    destruct (Z.eqb_spec (rw c) n), (Z.eqb_spec (rw c) n1); lia. }
  pose proof (ri_has _ _ _ _ _ Hri1) as Hhas1. eapply wp_writeCap; [done|]. wp_steps.
  pose proof Hhas1 as (_ & _ & _ & Hle & _ & _).
  destruct (Z.eqb_spec (n1 - rw c1) 0) as [Hz|Hz].
  - wp_steps. eapply wp_mono; [eapply wp_full_buffer_step; [done|lia]|]. cbv beta.
    intros [e|] c2 (Hs2 & Hf2 & W2 & Hr2).
    + wp_steps. split; [transitivity c1; [done|by apply same_progress]|done].
    + destruct (Hr2 eq_refl) as (raws2 & hdr2 & l2 & n2 & Hri2 & Hlt).
      assert (progress c0 c2) as Hs02 by (transitivity c1; [done|by apply same_progress]).
      eapply wp_mono; [eapply IH; [done|lia]|]. cbv beta. intros e c3. by apply round_post_from.
  - branch Hm.
    + wp_steps. split; [done|]. split; [by eapply RI_front|]. split; [apply Hri1|].
      intros _. by exists raws, hdr, l, n1.
    + assert (rw c = n /\ n < n1) as [Hf _] by (destruct Hn1 as [->|]; lia).
      eapply wp_mono; [eapply IH; [done|]|cbv beta; intros e c3; by apply round_post_from].
      lia.
Qed.

Lemma wp_read_loop k : forall raws hdr l n (c : Conn),
  RI raws hdr l n c -> todo c hdr l n < Z.of_nat k -> wp (read_loop cfg cb k) (round_post c) c.
Proof.
  induction k as [|k IH]; intros raws hdr l n c Hri Hk; [pose proof (todo_pos c hdr l n); lia|].
  cbn [read_loop]. wp_steps. pose proof (ri_has _ _ _ _ _ Hri) as Hhas.
  eapply wp_writeCap; [done|]. wp_steps. pose proof Hhas as (buf & Hbuf & Hr & Hle & Hnb & Hsl).
  eapply wp_mono; [apply wp_socketRead; lia|]. cbv beta. intros [data [e|]] c1 (w' & Hc1).
  - destruct Hc1 as (-> & Hin & Hleft & Hless). pose proof (RI_world _ _ _ _ _ _ Hri Hin) as Hri1.
    assert (progress c (set_world w' c)) as Hs1
      by (split; [unfold stream; cbn; by rewrite Hin|exact Hleft]).
    destruct e as [| |name]; wp_steps.
    + split; [done|]. split; [by eapply RI_front|]. split; [apply Hri1|]. intros _. by exists raws, hdr, l, n.
    + eapply wp_mono; [eapply IH; [done|]|cbv beta; intros e c3; by apply round_post_from].
      specialize (Hless eq_refl). unfold todo in *. cbn. rewrite Hin. lia.
    + by eapply round_post_error; [exact Hri1| | |apply Hri1].
  - destruct Hc1 as (-> & Hin & Hd & Hok & Hless).
    destruct (RI_read _ _ _ _ _ buf data w' Hri Hbuf Hin Hd Hok) as [Hri2 Hs2].
    assert (reads_left w' <= reads_left (world c))%nat as Hleft by (destruct Hless as [[_ ->]|]; lia).
    wp_steps. branch Heof.
    + apply andb_true_iff in Heof as [Hz _]. apply Z.eqb_eq, zlen_zero in Hz as ->.
      rewrite app_nil_r. assert (RI raws hdr l n (set_world w' c)) as Hri1 by (by apply RI_world).
      assert (set_received (received c) (set_world w' c) = set_world w' c) as -> by (by destruct c).
      assert (progress c (set_world w' c)) as Hs1 by (split; [unfold stream; cbn; by rewrite Hin|cbn; lia]).
      wp_steps. eapply wp_mono; [by eapply quietly_closeWithLock; [|apply Hri1]|]. cbv beta. intros _ c2 (W2 & R2).
      wp_steps. eapply wp_mono; [by eapply quietly_once|]. cbv beta. intros _ c3 (W3 & R3). wp_steps.
      eapply round_post_error; [exact Hri1|done|by transitivity c2|done].
    + wp_steps. unfold deref_rbuf at 1. wp_steps. cbn [rbuf set_received set_world]. rewrite Hbuf.
      eapply wp_of_option; [done|]. wp_steps.
      apply wp_unbind. eapply (wp_after_read k c raws hdr (l ++ data) n); [exact IH|exact Hri2|by split| |cbn; lia].
      unfold todo in *. cbn. rewrite Hin, !zlen_app in *.
      destruct Hless as [[Hn0 ->]|Hless].
      * assert (data = []) as -> by (apply zlen_zero; pose proof (zlen_nonneg data); lia).
        rewrite zlen_nil in *. replace (rw c =? n) with true in Hk by lia.
        destruct (rw c + 0 =? n); lia.
      * destruct (rw c + zlen data =? n), (rw c =? n); lia.
Qed.

(** ** Between rounds *)

(** A connection without a buffer gets one when it reads again. *)
Definition buffered (c : Conn) : Conn :=
  match rbuf c with
  | Some _ => c
  | None => set_rbuf (Some (pool_slice MaxFrameHeaderSize)) c
  end.

Definition resting (raws : list bytes) (hdr l : bytes) (c : Conn) : Prop :=
  (rbuf c = None -> rr c = 0 /\ rw c = 0) /\ exists n, RI raws hdr l n (buffered c).

Lemma state_ok_fresh (c c' : Conn) n n' hdr :
  state_ok c n hdr -> parser_part c' = parser_part c -> rr c' = 0 -> MaxFrameHeaderSize <= n' ->
  state_ok c' n' hdr.
Proof.
  intros Hst [= E1 E2 E3] Hr Hn. pose proof MaxFrameHeaderSize_enough.
  destruct Hst as [Hc|hdr Hc []|hdr Hc Hh].
  - apply st_start. unfold cur. by rewrite E3.
  - apply st_half; [unfold cur; by rewrite E3|]. split; rewrite ?E1, ?E2; try done.
    pose proof (rest_size_bound (at_ hdr 1)). lia.
  - apply st_payload; [unfold cur; by rewrite E3|]. by rewrite E2.
Qed.

(** An empty buffer of any sufficient size is as good as another. *)
Lemma RI_fresh raws hdr n (c c' : Conn) buf :
  RI raws hdr [] n c -> outer c' = outer c -> parser_part c' = parser_part c ->
  rbuf c' = Some buf -> rr c' = 0 -> rw c' = 0 -> MaxFrameHeaderSize <= zlen buf ->
  RI raws hdr [] (zlen buf) c'.
Proof.
  intros Hri Ho Hp Hb Hr Hw Hn. pose proof MaxFrameHeaderSize_enough.
  eapply RI_move; try done.
  - exists buf. rewrite Hr, Hw. split; [done|]. split; [lia|]. split; [lia|]. done.
  - eapply state_ok_fresh; [apply Hri|done|done|done].
  - injection Hp as _ -> _. exact (ri_len _ _ _ _ _ Hri).
Qed.

Lemma wp_open_buffer raws hdr l (c : Conn) :
  resting raws hdr l c ->
  wp (match rbuf c with
      | None => n ← readBufferSize cfg; modify (set_rbuf (Some (pool_slice n)))
      | Some _ => mret tt
      end) (fun _ c' => outer c' = outer c /\ exists n, RI raws hdr l n c') c.
Proof.
  intros [Hnone [n Hri]]. unfold buffered in Hri. destruct (rbuf c) as [buf|] eqn:Hb.
  - wp_steps. split; [done|]. by exists n.
  - destruct (Hnone eq_refl) as [Hr Hw]. unfold readBufferSize. wp_steps. split; [done|].
    pose proof (Has_len _ _ _ (ri_has _ _ _ _ _ Hri)) as Hl. cbn in Hl. rewrite Hr, Hw in Hl.
    apply zlen_zero in Hl as ->. pose proof MaxFrameHeaderSize_enough.
    destruct (ri_len _ _ _ _ _ Hri) as [_ Hwin]. cbn [rh set_rbuf] in Hwin.
    pose proof (pool_slice_len (bufferSize cfg (PayloadLen (rh c)))) as Hp. specialize (Hp ltac:(lia)).
    eexists. eapply RI_fresh; [exact Hri|done|done|done|done|done|lia].
Qed.

Lemma RI_rstep raws hdr l n (c c' : Conn) :
  RI raws hdr l n c -> rstep c c' -> Winv c' -> RI raws hdr l n c'.
Proof.
  intros Hri [Hrd _] W. injection Hrd as E1 E2 E3 E4 E5 E6 E7 E8 E9. 
  split; rewrite ?E5, ?E7, ?E8, ?E9; try exact (ri_len _ _ _ _ _ Hri); try apply Hri; [| |done].
  - destruct (ri_has _ _ _ _ _ Hri) as (buf & ? & ? & ? & ? & ?). exists buf. by rewrite E1, E2, E3.
  - pose proof (ri_state _ _ _ _ _ Hri) as Hst. destruct Hst as [Hc|hdr Hc []|hdr Hc Hh].
    + apply st_start. unfold cur. by rewrite E6.
    + apply st_half; [unfold cur; by rewrite E6|]. split; rewrite ?E2, ?E4, ?E5; done.
    + apply st_payload; [unfold cur; by rewrite E6|]. by rewrite E5.
Qed.

(** Handing an empty buffer back. *)
Lemma resting_release raws hdr l n (c : Conn) :
  RI raws hdr l n c -> rr c = rw c -> resting raws hdr l (set_rbuf None (set_rw 0 (set_rr 0 c))).
Proof.
  intros Hri Hrw. split; [done|]. pose proof (Has_len _ _ _ (ri_has _ _ _ _ _ Hri)) as Hl.
  assert (l = []) as -> by (apply zlen_zero; lia). pose proof MaxFrameHeaderSize_enough.
  pose proof (pool_slice_len MaxFrameHeaderSize) as Hp. specialize (Hp ltac:(lia)).
  eexists. by eapply RI_fresh; [exact Hri|..].
Qed.

Lemma resting_keep raws hdr l n (c : Conn) : RI raws hdr l n c -> resting raws hdr l c.
Proof.
  intros Hri. destruct (ri_has _ _ _ _ _ Hri) as (buf & Hb & _). split; [by rewrite Hb|].
  exists n. unfold buffered. by rewrite Hb.
Qed.

(** ** A whole round *)

Lemma quietly_writeAndMaybe err : quietly (writeAndMaybeOnClose cfg cb err).
Proof.
  unfold writeAndMaybeOnClose. apply quietly_bind; [|intros e; apply quietly_bind; [|intros []]].
  - destruct (as_StatusCode err); [apply quietly_WriteTimeout; done|apply quietly_ret].
  - apply quietly_once; done.
  - apply quietly_ret.
Qed.

(** The connection is at rest, with nothing but the beginning of a frame. *)
Definition at_rest (c : Conn) : Prop :=
  exists raws hdr l, resting raws hdr l c /\ incomplete (hdr ++ l).

Definition after_round (c : Conn) (e : option wserror) (c' : Conn) : Prop :=
  progress c c' /\ front c' /\ Winv c' /\ (e = None -> at_rest c') /\ (e <> None -> rbuf c' = None /\ rr c' = 0 /\ rw c' = 0).

Lemma wp_end_round e (c : Conn) :
  front c -> Winv c ->
  (e = None -> exists raws hdr l n, RI raws hdr l n c /\ incomplete (hdr ++ l)) ->
  wp (end_round cfg cb e) (fun _ c' => after_round c e c') c.
Proof.
  intros Hf W Hri. unfold end_round. wp_steps. eapply wp_mono; [by apply wp_corkEnd|]. cbv beta.
  intros _ c1 (W1 & S1 & _). apply step_rstep in S1. wp_steps.
  assert (forall b : bool, let c2 := if b then set_rbuf None (set_rw 0 (set_rr 0 c1)) else c1 in
    progress c c2 /\ front c2 /\ Winv c2) as Hall.
  { intros b. cbv zeta. assert (progress c c1) as Hp by (by apply same_progress, rstep_stream).
    assert (front c1) as Hf1 by (by eapply rstep_front). by destruct b. }
  split; [apply Hall|]. split; [apply Hall|]. split; [apply Hall|]. split; [|by destruct e].
  intros ->. destruct (Hri eq_refl) as (raws & hdr & l & n & Hc & Hinc). exists raws, hdr, l.
  split; [|done]. pose proof (RI_rstep _ _ _ _ _ _ Hc S1 W1) as Hc1. cbn [orb].
  destruct (ri_has _ _ _ _ _ Hc1) as (buf & Hb & _). rewrite Hb.
  destruct (Z.eqb_spec (rr c1) (rw c1)); [by eapply resting_release|by eapply resting_keep].
Qed.

(** Turns that suffice for everything the socket may still deliver. *)
Definition budget (c : Conn) : Z := 2 * Z.of_nat (reads_left (world c)) + zlen (stream c) + 2.

Lemma progress_budget (c c' : Conn) : progress c c' -> budget c' <= budget c.
Proof. intros [Hs Hr]. unfold budget. rewrite Hs. lia. Qed.

Lemma todo_budget raws hdr l n (c : Conn) : RI raws hdr l n c -> todo c hdr l n < budget c.
Proof.
  intros Hri. unfold todo, budget, stream. rewrite (ri_received _ _ _ _ _ Hri), !zlen_app.
  pose proof (zlen_nonneg (concat raws)). destruct (rw c =? n); lia.
Qed.

Lemma wp_processWebsocketFrame fuel raws hdr l (c : Conn) :
  resting raws hdr l c -> budget c <= Z.of_nat fuel ->
  wp (processWebsocketFrame cfg cb fuel) (fun e c' => after_round c e c') c.
Proof.
  intros Hrest Hfuel. unfold processWebsocketFrame. wp_steps.
  eapply wp_mono; [by apply wp_open_buffer|]. cbv beta. intros _ c1 (Ho1 & n & Hri1).
  assert (progress c c1) as P1 by (by apply same_progress, outer_stream).
  pose proof (todo_budget _ _ _ _ _ Hri1). pose proof (progress_budget _ _ P1).
  wp_steps. eapply wp_mono; [eapply wp_read_loop; [exact Hri1|lia]|]. cbv beta.
  intros e1 c2 (P2 & F2 & W2 & R2). wp_steps.
  eapply (wp_mono _ (fun e c3 => progress c c3 /\ front c3 /\ Winv c3 /\
    (e = None -> exists raws hdr l n, RI raws hdr l n c3 /\ incomplete (hdr ++ l)))).
  { destruct e1 as [e1|].
    - wp_steps. split; [by transitivity c1|done].
    - destruct (R2 eq_refl) as (raws2 & hdr2 & l2 & n2 & Hri2). unfold parse_fuel. wp_steps.
      pose proof (Has_len _ _ _ (ri_has _ _ _ _ _ Hri2)) as Hl2. pose proof (zlen_nonneg l2).
      eapply wp_mono; [eapply wp_parse_loop; [done|exact Hri2|]|].
      + unfold pending. destruct hdr2; lia.
      + cbv beta. intros e c3 (S3 & ? & ? & ?). split; [|done].
        transitivity c1; [done|]. transitivity c2; [done|by apply same_progress]. }
  cbv beta. intros e c3 (P3 & F3 & W3 & R3). wp_steps.
  eapply wp_mono; [by apply wp_end_round|]. cbv beta. intros _ c4 (P4 & F4 & W4 & R4 & B4). wp_steps.
  destruct e as [e|]; wp_steps.
  - eapply wp_mono; [by apply quietly_writeAndMaybe|]. cbv beta. intros e5 c5 (W5 & R5). wp_steps.
    split; [|split; [by apply (rstep_front c4)|split; [done|split; [done|]]]].
    + transitivity c3; [done|]. transitivity c4; [done|by apply same_progress, rstep_stream].
    + intros _. destruct R5 as [R5 _]. injection R5 as -> -> -> _ _ _ _ _ _. by apply B4.
  - split; [by transitivity c3|done].
Qed.
End Round.
