(* ===== verification/WsEvents.v ===== *)
(** * WsEvents

    The life of a websocket connection as the events that the event loop gets
    for it.  For every sequence of events and every way the kernel cuts the
    byte stream: each callback of the poller returns; the frames delivered are
    the first whole frames of what was received, each once and in order; and a
    connection that is still open has nothing whole left. *)

From S2P Require Import Prelude GoStd Sock WsState WsWrite WsRead WsPlain WsSafe WsWire WsStream.
From S2P Require Import WsParse WsRound.

Section Events.
Context `{WsLib} `{!WsLaws} {App : Type} (cfg : Config) (cb : Callback App) `{!CallbackOk cb}.
Notation Conn := (Conn App).
Notation go A := (M Conn A).
Abbreviation RI := (RI cfg).
Abbreviation sane := (sane cfg).
Abbreviation resting := (resting cfg).
Abbreviation at_rest := (at_rest cfg).

(** What holds between two events. *)
Record alive (c0 c : Conn) : Prop := {
  al_progress : progress c0 c;
  al_front : front c;
  al_write : Winv c;
  al_rest : closed c = false -> at_rest c;
}.

Lemma resting_rstep raws hdr l (c c' : Conn) :
  resting raws hdr l c -> rstep c c' -> Winv c' -> resting raws hdr l c'.
Proof.
  intros [Hnone [n Hri]] [Hrd Hcl] W. pose proof Hrd as Hrd'.
  injection Hrd' as E1 E2 E3 E4 E5 E6 E7 E8 E9. split; [by rewrite E1, E2, E3|]. exists n.
  eapply RI_rstep; [exact Hri| |by unfold buffered; destruct (rbuf c')].
  unfold buffered. rewrite E1. destruct (rbuf c); [by split|]. split; [|done].
  unfold read_part in *. cbn. congruence.
Qed.

Lemma alive_rstep (c0 c c' : Conn) : alive c0 c -> rstep c c' -> Winv c' -> alive c0 c'.
Proof.
  intros [P F W R] Hs W'. split; [|by eapply rstep_front|done|].
  - transitivity c; [done|by apply same_progress, rstep_stream].
  - intros Hc. destruct (closed c) eqn:E; [by rewrite (proj2 Hs E) in Hc|].
    destruct (R eq_refl) as (raws & hdr & l & Hr & Hi). exists raws, hdr, l. split; [|done].
    by eapply resting_rstep.
Qed.

Lemma wp_Conn_Close (c0 c : Conn) :
  progress c0 c -> front c -> Winv c -> wp (Conn_Close cb) (fun _ c' => alive c0 c') c.
Proof.
  intros P F W. unfold Conn_Close, closeWithLock, isClosed. wp_steps. destruct (closed c) eqn:Hcl.
  { wp_steps. split; try done. by rewrite Hcl. }
  wp_steps. eapply wp_mono; [by apply wp_closeWithoutLockOnClose, Winv_close|]. cbv beta.
  intros _ c1 (W1 & S1 & C1). apply step_rstep in S1. wp_steps. rewrite C1.
  eapply wp_mono; [by eapply quietly_once|]. cbv beta. intros _ c2 (W2 & R2).
  assert (rstep c c2) as R by (by transitivity c1). split; [|by eapply rstep_front|done|].
  - transitivity c; [done|by apply same_progress, rstep_stream].
  - by rewrite (proj2 R2 C1).
Qed.

Lemma wp_on_poll fuel ev (c0 c : Conn) :
  alive c0 c -> budget c0 <= Z.of_nat fuel -> wp (on_poll cfg cb fuel ev) (fun _ c' => alive c0 c') c.
Proof.
  intros Hc Hfuel. unfold on_poll, isClosed, needFlush. wp_steps. destruct (closed c) eqn:Hcl; [by wp_steps|].
  destruct ev as [again|isRead isWrite].
  - destruct again; [by wp_steps|]. apply wp_Conn_Close; apply Hc.
  - destruct (al_rest _ _ Hc Hcl) as (raws & hdr & l & Hrest & Hinc).
    wp_steps. eapply (wp_mono _ (fun _ c1 => rstep c c1 /\ Winv c1)).
    { destruct (isWrite && _); [|wp_steps; split; [done|apply Hc]]. unfold flush.
      eapply wp_mono; [eapply calm_flushLocked; [done|apply Hc]|]. cbv beta.
      intros _ c1 [W1 S1]. split; [by apply step_rstep|done]. }
    cbv beta. intros _ c1 [R1 W1]. pose proof (alive_rstep _ _ _ Hc R1 W1) as Hc1.
    wp_steps. destruct isRead; [|by wp_steps]. wp_steps.
    pose proof (resting_rstep _ _ _ _ _ Hrest R1 W1) as Hrest1.
    pose proof (progress_budget _ _ (al_progress _ _ Hc1)).
    eapply wp_mono; [eapply wp_processWebsocketFrame; [done|exact Hrest1|lia]|]. cbv beta.
    intros e c2 (P2 & F2 & W2 & R2 & _).
    assert (progress c0 c2) as P02 by (transitivity c1; [apply Hc1|done]).
    destruct e as [e|]; [by apply wp_Conn_Close|]. wp_steps. split; auto.
Qed.

Lemma wp_run_events fuel evs (c0 : Conn) : budget c0 <= Z.of_nat fuel ->
  forall c, alive c0 c -> wp (run_events cfg cb fuel evs) (fun _ c' => alive c0 c') c.
Proof.
  intros Hfuel. induction evs as [|ev evs IH]; intros c Hc; cbn [run_events]; wp_steps; [done|].
  eapply wp_mono; [by apply wp_on_poll|]. cbv beta. intros _ c1 Hc1. by apply IH.
Qed.

(** ** A new connection *)

Lemma alive_new fd client w (a : App) :
  sane (incoming w) -> alive (newConn fd client w a) (newConn fd client w a).
Proof.
  intros Hsane. set (c := newConn fd client w a).
  pose proof (pool_slice_len MaxFrameHeaderSize) as Hp. pose proof MaxFrameHeaderSize_enough.
  specialize (Hp ltac:(lia)).
  assert (cur c = frameStateHeaderStart) as Hcur by (unfold c, cur; cbn; by destruct client).
  split; [done|by exists [], []|by left|]. intros _. exists [], [], []. split.
  - split; [done|]. exists (zlen (pool_slice MaxFrameHeaderSize)). split; try done.
    + exists (pool_slice MaxFrameHeaderSize). cbn. split; [done|]. split; [lia|]. split; [lia|]. done.
    + by apply st_start.
    + constructor.
    + apply (proj1 (proj2 Hsane)). cbn. lia.
    + by left.
  - apply incomplete_header. by intros Hl.
Qed.

(** The frames at the front of a stream are determined by it. *)
Lemma frame_front raw1 raw2 f1 f2 r1 r2 :
  raw1 ++ r1 = raw2 ++ r2 -> frame_of raw1 f1 -> frame_of raw2 f2 -> raw1 = raw2 /\ r1 = r2.
Proof.
  intros E (h1 & -> & Hh1 & Hl1) (h2 & -> & Hh2 & Hl2). rewrite <- !app_assoc in E.
  destruct (whole_header_unique _ _ _ _ E (ho_whole _ _ Hh1) (ho_whole _ _ Hh2)) as [<- E'].
  apply app_inj_1 in E' as [-> ->]; [done|]. unfold zlen in *. lia.
Qed.

Lemma frames_unique raws1 : forall raws2 fs1 fs2 r1 r2,
  concat raws1 ++ r1 = concat raws2 ++ r2 -> Forall2 frame_of raws1 fs1 -> Forall2 frame_of raws2 fs2 ->
  incomplete r1 -> incomplete r2 -> raws1 = raws2 /\ r1 = r2.
Proof.
  induction raws1 as [|raw1 raws1 IH]; intros [|raw2 raws2] fs1 fs2 r1 r2 E F1 F2 I1 I2; cbn in E.
  - done.
  - inversion F2; subst. exfalso. rewrite <- app_assoc in *. by eapply I1.
  - inversion F1; subst. exfalso. rewrite <- app_assoc in *. eapply I2; [symmetry; reflexivity|done].
  - inversion F1; subst. inversion F2; subst. rewrite <- !app_assoc in E.
    eapply frame_front in E as [-> E]; [|done|done]. by eapply IH in E as [-> ->].
Qed.

Lemma all_delivered (c0 c : Conn) raws fs rest :
  alive c0 c -> stream c0 = concat raws ++ rest -> Forall2 frame_of raws fs -> incomplete rest ->
  closed c = false -> incoming (world c) = [] -> Forall2 frame_of raws (delivered c).
Proof.
  intros [P _ _ Hal] Hstream Hframes Hrest Hcl Hin.
  destruct (Hal Hcl) as (raws2 & hdr & l & [_ [n Hri]] & Hinc).
  destruct P as [P _]. unfold stream at 1 in P. rewrite Hin, app_nil_r, Hstream in P.
  assert (received c = concat raws2 ++ hdr ++ l /\ Forall2 frame_of raws2 (delivered c)) as [Hr2 Hf2]
    by (unfold buffered in Hri; destruct (rbuf c); split; apply Hri).
  rewrite Hr2 in P. by eapply frames_unique in P as [<- _].
Qed.

(** What a live connection has delivered. *)
Lemma alive_delivered fd client w (a : App) (c' : Conn) : alive (newConn fd client w a) c' ->
  received c' ++ incoming (world c') = incoming w /\
  exists raws rest, received c' = concat raws ++ rest /\ Forall2 frame_of raws (delivered c') /\
    (closed c' = false -> incomplete rest).
Proof.
  intros [P (raws & rest & Hr & Hf) _ Hrest]. split; [exact (proj1 P)|].
  destruct (closed c') eqn:Hcl; [by exists raws, rest|].
  destruct (Hrest eq_refl) as (raws2 & hdr & l & [_ [n Hri]] & Hinc). exists raws2, (hdr ++ l).
  unfold buffered in Hri. destruct (rbuf c'); (split; [apply Hri|]); (split; [apply Hri|done]).
Qed.

(** C1: if no frame header of the peer's stream declares a negative length or
    one too large for the product in [float32] that sizes the read buffer
    ([sane]; with the default multiple: from 0 to below 2^59, [sane_default]),
    then, whatever events the poller reports and however the kernel cuts the
    bytes, every callback of the event loop returns without a panic; no byte of
    the stream is lost; the frames handed to [processCallback] are the first
    whole frames of the bytes received, each once, in order, with its payload;
    and while the connection is open, what is left over is no whole frame.
    (A header with a negative length panics the loop:
    [WsFindings.negative_length_panics].) *)
Theorem events_deliver_frames fd client w (a : App) evs fuel
    (Hsane : sane (incoming w)) (Hfuel : budget (newConn fd client w a) <= Z.of_nat fuel) :
  wp (run_events cfg cb fuel evs) (fun _ c' =>
    received c' ++ incoming (world c') = incoming w /\
    exists raws rest, received c' = concat raws ++ rest /\ Forall2 frame_of raws (delivered c') /\
      (closed c' = false -> incomplete rest)) (newConn fd client w a).
Proof.
  eapply wp_mono; [by eapply wp_run_events, alive_new|]. cbv beta. intros _ c'. apply alive_delivered.
Qed.

(** C22: nothing is withheld: when every length the peer's frames declare fits a
    read buffer ([sane]), once the socket has been read dry and the
    connection is still open, every whole frame of the peer's stream has been
    delivered. *)
Theorem whole_frames_all_delivered fd client w (a : App) evs fuel raws fs rest
    (Hsane : sane (incoming w)) (Hfuel : budget (newConn fd client w a) <= Z.of_nat fuel)
    (Hstream : incoming w = concat raws ++ rest) (Hframes : Forall2 frame_of raws fs)
    (Hrest : incomplete rest) :
  wp (run_events cfg cb fuel evs) (fun _ c' =>
    closed c' = false -> incoming (world c') = [] -> Forall2 frame_of raws (delivered c'))
    (newConn fd client w a).
Proof.
  eapply wp_mono; [by eapply wp_run_events, alive_new|]. cbv beta. intros _ c' Hal.
  by eapply all_delivered.
Qed.
End Events.

#[global] Arguments al_progress {_ _ _ _} _ _ _.
#[global] Arguments al_front {_ _ _ _} _ _ _.
#[global] Arguments al_write {_ _ _ _} _ _ _.
#[global] Arguments al_rest {_ _ _ _} _ _ _.

(** ** Evaluated *)

Lemma be16_bytes x y : 0 <= x < 256 -> 0 <= y < 256 -> 0 <= be16 x y < 2 ^ 59.
Proof. intros Hx Hy. rewrite be16_val by done. lia. Qed.

Lemma at_member (l : bytes) i : 0 <= i < zlen l -> at_ l i ∈ l.
Proof.
  intros Hi. unfold at_, zlen in *. destruct (lookup_lt_is_Some_2 l (Z.to_nat i)) as [x Hx]; [lia|].
  rewrite Hx. by eapply list_elem_of_lookup_2.
Qed.

(** Streams whose headers have no 64-bit length, read with the default multiple. *)
Lemma sane_short `{WsLib} `{!WsLaws} cfg (stream : bytes) :
  windowsMultipleTimesPayloadSize cfg = two32 ->
  zlen stream < 2 ^ 62 -> bytes_ok stream -> Forall (fun b => len7 b <> 127) stream -> sane cfg stream.
Proof.
  intros Hm Hz Hb H127. apply sane_default; [done|done|]. intros raws hdr rest fs E _ Hw.
  pose proof (rest_size_bound (at_ hdr 1)). unfold whole_header in Hw.
  assert (forall i, 0 <= i < zlen hdr -> at_ hdr i ∈ stream) as Hin.
  { intros i Hi. rewrite E. apply elem_of_app. right. apply elem_of_app. left. by apply at_member. }
  unfold bytes_ok in Hb. rewrite Forall_forall in Hb, H127. unfold declared, rest_size in *.
  pose proof (H127 _ (Hin 1 ltac:(lia))). pose proof (len7_bound (at_ hdr 1)).
  destruct (Z.eqb_spec (len7 (at_ hdr 1)) 126); [|destruct (Z.eqb_spec (len7 (at_ hdr 1)) 127); [done|lia]].
  apply be16_bytes; apply Hb, Hin; destruct (masked _); lia.
Qed.

(** "Hello" in three pieces, an empty ping, and half of a header. *)
Definition hello_world : plain_world :=
  mkWorld [[129]; [5; 72; 101]; [108; 108; 111; 137]; [0; 130]] [100].
Definition hello_events : list poll_event :=
  [PollReady true false; PollReady true true; PollReady true false; PollReady true false; PollReady true false].
Definition hello_conn : Conn (list ws_event) := newConn 7 false hello_world [].

Lemma hello_sane : sane plain_config (incoming (hello_world : @World plain_lib)).
Proof.
  apply sane_short; [done|done|bytes|].
  apply (bool_decide_unpack (Forall (fun b => len7 b <> 127) _)). by vm_compute.
Qed.

Lemma events_deliver_frames_witness :
  (from_option (fun r => (f_Payload <$> delivered (snd r), app (snd r), closed (snd r))) ([], [], true)
     (run_events plain_config recorder 100 hello_events hello_conn) =
   ([[72; 101; 108; 108; 111]; []], [EvMessage Text [72; 101; 108; 108; 111]; EvMessage Ping []], false)) /\
  wp (run_events plain_config recorder 100 hello_events) (fun _ c' =>
    received c' ++ incoming (world c') = incoming (hello_world : @World plain_lib) /\
    exists raws rest, received c' = concat raws ++ rest /\ Forall2 frame_of raws (delivered c') /\
      (closed c' = false -> incomplete rest)) hello_conn.
Proof.
  split; [vm_compute; reflexivity|].
  apply (events_deliver_frames (H := plain_lib) plain_config recorder 7 false hello_world []);
    [exact hello_sane|by vm_compute].
Defined.

Lemma whole_frames_all_delivered_witness :
  wp (run_events plain_config recorder 100 hello_events) (fun _ c' =>
    closed c' = false -> incoming (world c') = [] ->
    Forall2 frame_of [[129; 5; 72; 101; 108; 108; 111]; [137; 0]] (delivered c')) hello_conn.
Proof.
  apply (whole_frames_all_delivered (H := plain_lib) plain_config recorder 7 false hello_world []
    hello_events 100 [[129; 5; 72; 101; 108; 108; 111]; [137; 0]]
    [mkFrame2 (mkHeader 5 1 0 false 129) [72; 101; 108; 108; 111]; mkFrame2 (mkHeader 0 9 0 false 137) []] [130]).
  - exact hello_sane.
  - by vm_compute.
  - reflexivity.
  - constructor; [exists [129; 5]|constructor; [exists [137; 0]|constructor]]; by repeat split.
  - apply incomplete_header. by intros Hl.
Defined.
