(* ===== verification/WsTrace.v ===== *)
(** * WsTrace

    What the user of a websocket connection gets to see: every operation
    relates the callbacks made before and after it.  The relation is a
    parameter, so that one walk over the code gives several facts:
    [OnClose] is called once, and only when the connection closes; writing
    makes no callback unless it closes. *)

From S2P Require Import Prelude GoStd Sock WsState WsWrite WsRead.

Create HintDb within discriminated.

Section Trace.
Context `{WsLib} {App : Type} (cfg : Config) (cb : Callback App).
Notation Conn := (Conn App).
Notation go A := (M Conn A).

Definition core (c : Conn) := (closed c, app c, onCloseOnce c, fd c).

(** Every run of [m] that returns is a step of [R]. *)
Definition within {A} (R : Conn -> Conn -> Prop) (m : go A) : Prop :=
  forall c a c', m c = Some (a, c') -> R c c'.

(** ** Operations that leave the core alone *)

Lemma keeps_outside {A} (f : World -> A * World) : keeps core (outside f).
Proof. intros c a c'. unfold outside. destruct (f (world c)). by intros [= _ <-]. Qed.

Lemma keeps_reslice (l : bytes) a b : keeps core (reslice l a b).
Proof. unfold reslice. destruct (_ && _); [apply keeps_ret|apply keeps_panic]. Qed.

#[local] Hint Resolve keeps_outside keeps_reslice : keeps.

Lemma core_append_new k : forall data old, keeps core (append_new k data old).
Proof. induction k as [|k IH]; intros data old; cbn [append_new]; keeps. Qed.
#[local] Hint Resolve core_append_new : keeps.

Lemma core_append data old : keeps core (appendToWbufList data old).
Proof. unfold appendToWbufList. keeps. Qed.
#[local] Hint Resolve core_append : keeps.

Lemma core_send p : keeps core (send p).
Proof. unfold send. keeps. Qed.
#[local] Hint Resolve core_send : keeps.
Lemma core_socketWrite p : keeps core (socketWrite p).
Proof. unfold socketWrite. keeps. Qed.
#[local] Hint Resolve core_socketWrite : keeps.
Lemma core_writeToSocket p : keeps core (writeToSocket p).
Proof. unfold writeToSocket. keeps. Qed.
#[local] Hint Resolve core_writeToSocket : keeps.
Lemma core_compact n : keeps core (compactWbufList n).
Proof. unfold compactWbufList. keeps. Qed.
#[local] Hint Resolve core_compact : keeps.
Lemma core_addWrite : keeps core addWrite.
Proof. unfold addWrite. keeps. Qed.
#[local] Hint Resolve core_addWrite : keeps.
Lemma core_wait : keeps core (wait_writable cfg).
Proof. unfold wait_writable, delRead. keeps. Qed.
#[local] Hint Resolve core_wait : keeps.
Lemma core_partial_append data n : keeps core (handlePartialWrite_append cfg data n).
Proof. unfold handlePartialWrite_append. keeps. Qed.
#[local] Hint Resolve core_partial_append : keeps.
Lemma core_partial_slot s b n : keeps core (handlePartialWrite_slot cfg s b n).
Proof. unfold handlePartialWrite_slot. keeps. Qed.
#[local] Hint Resolve core_partial_slot : keeps.
Lemma core_setCorking v : keeps core (setCorking v).
Proof. unfold setCorking. keeps. Qed.
#[local] Hint Resolve core_setCorking : keeps.
Lemma core_corkStart n : keeps core (corkStartLocked n).
Proof. unfold corkStartLocked. keeps. Qed.
#[local] Hint Resolve core_corkStart : keeps.
Lemma core_maybeCork : keeps core maybeCork.
Proof. unfold maybeCork, isCorking, isClient. keeps. Qed.
#[local] Hint Resolve core_maybeCork : keeps.
Lemma core_set_last b : keeps core (set_last_buf b).
Proof. unfold set_last_buf. keeps. Qed.
#[local] Hint Resolve core_set_last : keeps.
Lemma core_grow b n : keeps core (growCork b n).
Proof. unfold growCork. keeps. Qed.
#[local] Hint Resolve core_grow : keeps.
Lemma core_spill b hdr p : keeps core (corkSpill b hdr p).
Proof. unfold corkSpill, socketWritev3, writevIovec. keeps. Qed.
#[local] Hint Resolve core_spill : keeps.
Lemma core_corkWrite op p : keeps core (corkWrite op p).
Proof. unfold corkWrite, last_buf. keeps. Qed.
#[local] Hint Resolve core_corkWrite : keeps.
Lemma core_write_rest all n e : keeps core (write_rest all n e).
Proof. unfold write_rest. keeps. Qed.
#[local] Hint Resolve core_write_rest : keeps.

(** ** Operations as steps of a relation *)

Section Relation.
Context (R : Conn -> Conn -> Prop) `{!PreOrder R}
  (R_core : forall c c', core c' = core c -> R c c')
  (R_closeNoLock : forall err, within R (closeNoLock cb err)).

Lemma within_keeps {A} (m : go A) : keeps core m -> within R m.
Proof. intros Hm c a c' E. by eapply R_core, Hm. Qed.
Lemma within_ret {A} (a : A) : within R (mret a).
Proof. by intros c b c' [= _ <-]. Qed.
Lemma within_bind {A B} (m : go A) (k : A -> go B) :
  within R m -> (forall a, within R (k a)) -> within R (m ≫= k).
Proof.
  intros Hm Hk c b c' E. unfold mbind, M_bind in E. destruct (m c) as [[a c1]|] eqn:E1; [|done].
  transitivity c1; [by eapply Hm|by eapply Hk].
Qed.
Lemma within_check {E} (m k : go (option E)) : within R m -> within R k -> within R (check m k).
Proof. intros Hm Hk. apply within_bind; [done|]. intros [e|]; [apply within_ret|done]. Qed.

(** Follow the program; what keeps the core is closed by the hints above. *)
Ltac within_step :=
  lazymatch goal with
  | |- within _ (mbind _ _) => apply within_bind; [|intros ?]
  | |- within _ (check _ _) => apply within_check
  | |- within _ (match ?x with _ => _ end) => destruct x
  | |- within _ (let '(_, _) := ?x in _) => destruct x
  | |- within _ _ => first [solve [auto with within] | apply within_keeps; solve [keeps]]
  end.
Ltac within := repeat (cbv beta zeta; within_step).

Lemma within_write_loop k : forall done total, within R (write_loop cfg cb k done total).
Proof. induction k as [|k IH]; intros done total; cbn [write_loop]; within. Qed.
#[local] Hint Resolve within_write_loop : within.

Lemma within_write data : within R (write cfg cb data).
Proof. unfold write. within. Qed.
#[local] Hint Resolve within_write : within.
Lemma within_connWrite data : within R (connWrite cfg cb data).
Proof. unfold connWrite, isClosed. within. Qed.
#[local] Hint Resolve within_connWrite : within.
Lemma within_flushLocked : within R (flushLocked cfg cb).
Proof. unfold flushLocked. within. Qed.
#[local] Hint Resolve within_flushLocked : within.
Lemma within_corkEnd : within R (corkEnd cfg cb).
Proof. unfold corkEnd, isCorking. within. Qed.
#[local] Hint Resolve within_corkEnd : within.
Lemma within_WriteFrame p fin rsv1 isMask op mv : within R (WriteFrame cfg cb p fin rsv1 isMask op mv).
Proof. unfold WriteFrame. within. Qed.
#[local] Hint Resolve within_WriteFrame : within.
Lemma within_WriteMessage_locked op p rsv1 client mv :
  within R (WriteMessage_locked cfg cb op p rsv1 client mv).
Proof. unfold WriteMessage_locked, isCorking, socketWritev, writevIovec. within. Qed.
#[local] Hint Resolve within_WriteMessage_locked : within.
Lemma within_WriteMessage op p : within R (WriteMessage cfg cb op p).
Proof. unfold WriteMessage, isClosed, isClient, encoode. within. Qed.
#[local] Hint Resolve within_WriteMessage : within.
Lemma within_WriteTimeout op p : within R (WriteTimeout cfg cb op p).
Proof. apply within_WriteMessage. Qed.
#[local] Hint Resolve within_WriteTimeout : within.

(** Reading also runs the callbacks. *)
Section Reading.
Context (R_once : forall err, within R (once_OnClose cb err))
  (R_closeWithLock : forall err, within R (closeWithLock cb err))
  (R_message : forall op p, within R (OnMessage cb op p)).

Lemma within_writeErr code e : within R (writeErrAndOnClose cfg cb code e).
Proof. unfold writeErrAndOnClose. within. Qed.
#[local] Hint Resolve within_writeErr : within.
Lemma within_writeAndMaybe e : within R (writeAndMaybeOnClose cfg cb e).
Proof. unfold writeAndMaybeOnClose. within. Qed.
#[local] Hint Resolve within_writeAndMaybe : within.
Lemma within_addTask f : within R f -> within R (addTask f).
Proof. intros Hf. unfold addTask, isClosed. within. Qed.
#[local] Hint Resolve within_addTask : within.
Lemma within_data op p rsv1 nm k : within R (processCallbackData cfg cb op p rsv1 nm k).
Proof. unfold processCallbackData, decode. within. Qed.
#[local] Hint Resolve within_data : within.
Lemma within_done op rsv1 p : within R (fragment_done cfg cb op rsv1 p).
Proof. unfold fragment_done, decode. within. Qed.
#[local] Hint Resolve within_done : within.
Lemma within_continuation h f k nm : within R (on_continuation cfg cb h f k nm).
Proof. unfold on_continuation. within. Qed.
#[local] Hint Resolve within_continuation : within.
Lemma within_on_data f rsv1 k nm : within R (on_data cfg cb f rsv1 k nm).
Proof. unfold on_data, isClosed. within. Qed.
#[local] Hint Resolve within_on_data : within.
Lemma within_on_control f k nm : within R (on_control cfg cb f k nm).
Proof. unfold on_control, on_close. within. Qed.
#[local] Hint Resolve within_on_control : within.
Lemma within_processCallback f : within R (processCallback cfg cb f).
Proof. unfold processCallback. within. Qed.
#[local] Hint Resolve within_processCallback : within.

#[local] Hint Resolve keeps_index : keeps.
Lemma core_leftMove : keeps core leftMove.
Proof. unfold leftMove, deref_rbuf. keeps. Qed.
#[local] Hint Resolve core_leftMove : keeps.
Lemma core_writeCap : keeps core writeCap.
Proof. unfold writeCap, deref_rbuf. keeps. Qed.
#[local] Hint Resolve core_writeCap : keeps.
Lemma core_readHeader : keeps core (readHeader cfg).
Proof. unfold readHeader, readHeader_start, readHeader_rest, getCurState, setCurState, deref_rbuf. keeps. Qed.
#[local] Hint Resolve core_readHeader : keeps.
Lemma core_readPayload b : keeps core (readPayload cfg b).
Proof. unfold readPayload, readPayload_room, deref_rbuf. keeps. Qed.
#[local] Hint Resolve core_readPayload : keeps.
Lemma core_socketRead n : keeps core (socketRead n).
Proof. unfold socketRead. keeps. Qed.
#[local] Hint Resolve core_socketRead : keeps.

Lemma within_readPayloadAndCallback : within R (readPayloadAndCallback cfg cb).
Proof. unfold readPayloadAndCallback, getCurState, setCurState. within. Qed.
#[local] Hint Resolve within_readPayloadAndCallback : within.
Lemma within_parse_loop k : within R (parse_loop cfg cb k).
Proof. induction k as [|k IH]; cbn [parse_loop]; within. Qed.
#[local] Hint Resolve within_parse_loop : within.
Lemma within_full_step : within R (full_buffer_step cfg cb).
Proof. unfold full_buffer_step. within. Qed.
#[local] Hint Resolve within_full_step : within.
Lemma within_read_loop k : within R (read_loop cfg cb k).
Proof. induction k as [|k IH]; cbn [read_loop]; unfold growReadBuffer, deref_rbuf; within. Qed.
#[local] Hint Resolve within_read_loop : within.
Lemma within_end_round e : within R (end_round cfg cb e).
Proof.
  unfold end_round. apply within_bind; [within|intros _].
  apply within_keeps, keeps_modify. intros c. by destruct (_ || _).
Qed.
#[local] Hint Resolve within_end_round : within.
Lemma within_round k : within R (processWebsocketFrame cfg cb k).
Proof. unfold processWebsocketFrame, readBufferSize, parse_fuel. within. Qed.
#[local] Hint Resolve within_round : within.
Lemma within_on_poll k ev : within R (on_poll cfg cb k ev).
Proof. unfold on_poll, isClosed, needFlush, flush, Conn_Close. within. Qed.
#[local] Hint Resolve within_on_poll : within.
Lemma within_run_events k evs : within R (run_events cfg cb k evs).
Proof. induction evs as [|ev evs IH]; cbn [run_events]; within. Qed.
End Reading.
End Relation.
End Trace.
