(* ===== verification/WsCallbacks.v ===== *)
(** * WsCallbacks

    What a recorded user of a websocket connection sees: [OnClose] once and
    exactly when the connection closes, a fragmented message as one message
    whatever control frames came in between, and for a frame that violates a
    clause of the protocol the code looks at, the close code 1002 and the
    reason. *)

From S2P Require Import Prelude GoStd Sock WsState WsWrite WsRead WsPlain WsSafe WsWire WsStream.
From S2P Require Import WsParse WsRound WsEvents WsTrace.

Definition is_close (e : ws_event) : bool := match e with EvClose _ => true | _ => false end.
Definition closes (l : list ws_event) : nat := length (filter is_close l).

Lemma closes_snoc l e : closes (l ++ [e]) = (closes l + if is_close e then 1 else 0)%nat.
Proof. unfold closes. rewrite filter_app, length_app. by destruct e. Qed.

Section Recorded.
Context `{WsLib} `{!WsLaws} (cfg : Config).
Notation Conn := (Conn (list ws_event)).
Notation go A := (M Conn A).

(** ** OnClose *)

Definition once_ok (c : Conn) : Prop :=
  closes (app c) = (if onCloseOnce c then 1 else 0)%nat /\ (closed c = true -> onCloseOnce c = true).

Definition keeps_once (c c' : Conn) : Prop := once_ok c -> once_ok c'.

#[local] Instance keeps_once_preorder : PreOrder keeps_once.
Proof. split; [by intros c Hc|]. intros c1 c2 c3 H1 H2 Hc. by apply H2, H1. Qed.

Lemma core_once (c c' : Conn) : core c' = core c -> keeps_once c c'.
Proof. intros [= E1 E2 E3 _] [H1 H2]. split; by rewrite ?E1, ?E2, ?E3. Qed.

Definition noted (err : option wserror) (c : Conn) : Conn :=
  if onCloseOnce c then c else set_app (app c ++ [EvClose err]) (set_onCloseOnce true c).

Lemma once_eq err (c : Conn) : once_OnClose recorder err c = Some (tt, noted err c).
Proof. unfold once_OnClose, noted, gets, mbind, M_bind. by destruct (onCloseOnce c). Qed.

(** Closing sets [closed] and reports, in this order. *)
Lemma once_ok_close err (c c1 : Conn) :
  once_ok c -> app c1 = app c -> onCloseOnce c1 = onCloseOnce c -> once_ok (noted err c1).
Proof.
  intros [H1 H2] Ea Eo. unfold noted, once_ok. rewrite Eo. destruct (onCloseOnce c) eqn:E.
  - by rewrite Eo, Ea.
  - split; [|done]. change (closes (app c1 ++ [EvClose err]) = 1%nat). by rewrite closes_snoc, Ea, H1.
Qed.

Lemma noted_eq err (c : Conn) : noted err c = c \/ 
  noted err c = set_app (app c ++ [EvClose err]) (set_onCloseOnce true c).
Proof. unfold noted. destruct (onCloseOnce c); auto. Qed.

Lemma closed_noted err (c : Conn) : closed (noted err c) = closed c.
Proof. unfold noted. by destruct (onCloseOnce c). Qed.

(** The state in which [OnClose] is called by a close. *)
Definition shut (c : Conn) : Conn := set_closed true (set_fd (-1) (set_world (el_close (fd c) (world c)) c)).

Lemma closeNoLock_eq err (c : Conn) :
  closeNoLock recorder err c =
  Some (tt, if closed c then c else noted ((fun _ => EOF) <$> err) (shut c)).
Proof.
  unfold closeNoLock, closeWithoutLockOnClose, isClosed, del, outside, gets, modify, mbind, M_bind.
  destruct (closed c) eqn:E; [done|]. rewrite once_eq. by destruct err.
Qed.

Lemma closeWithLock_eq err (c : Conn) :
  closeWithLock recorder err c =
  Some (tt, if closed c then c else noted (Some (default EOF err)) (shut c)).
Proof.
  unfold closeWithLock, closeWithoutLockOnClose, isClosed, del, outside, gets, modify, mbind, M_bind.
  destruct (closed c) eqn:E; [done|]. rewrite E.
  change (once_OnClose recorder (match err with Some e => Some e | None => Some EOF end) (shut c) =
    Some (tt, noted (Some (default EOF err)) (shut c))). rewrite once_eq. by destruct err.
Qed.

Lemma shut_once err (c : Conn) : keeps_once c (noted err (shut c)).
Proof. intros Hc. by apply (once_ok_close err c). Qed.

Lemma recorded_once k evs : within keeps_once (run_events cfg recorder k evs).
Proof.
  apply within_run_events; [apply _|apply core_once|..].
  - intros err c a c'. rewrite closeNoLock_eq. intros [= _ <-]. destruct (closed c); [done|apply shut_once].
  - intros err c a c'. rewrite once_eq. intros [= _ <-] Hc. by apply (once_ok_close err c).
  - intros err c a c'. rewrite closeWithLock_eq. intros [= _ <-]. destruct (closed c); [done|apply shut_once].
  - intros op p c a c' [= _ <-] [H1 H2]. split; [|done].
    change (closes (app c ++ [EvMessage op p]) = (if onCloseOnce c then 1 else 0)%nat).
    by rewrite closes_snoc, H1, Nat.add_0_r.
Qed.

(** C23: the user is told once that the connection is over: after any events, in
    any order and with any cut of the bytes of a [sane] stream, [OnClose] has been
    called at most once, and exactly once if the connection is closed. *)
Theorem OnClose_exactly_once fd client w evs fuel
    (Hsane : sane cfg (incoming w)) (Hfuel : budget (newConn fd client w ([] : list ws_event)) <= Z.of_nat fuel) :
  wp (run_events cfg recorder fuel evs) (fun _ c' =>
    (closes (app c') <= 1)%nat /\ (closed c' = true -> closes (app c') = 1%nat)) (newConn fd client w []).
Proof.
  eapply wp_mono.
  - eapply (wp_post _ _ (fun _ c' => keeps_once (newConn fd client w []) c')); [by eapply wp_run_events, alive_new|].
    intros [] c' E. exact (recorded_once _ _ _ _ _ E).
  - cbv beta. intros _ c' [_ Hj]. destruct Hj as [H1 H2]; [by split|]. rewrite H1.
    destruct (onCloseOnce c'); split; [lia|done|lia|]. intros Hc. by specialize (H2 Hc).
Qed.

(** ** Writing makes no callback unless it closes *)

Definition mute (c c' : Conn) : Prop := closed c' = false -> core c' = core c.

#[local] Instance mute_preorder : PreOrder mute.
Proof.
  split; [by intros c|]. intros c1 c2 c3 H1 H2 Hc. pose proof (H2 Hc) as E. rewrite E. apply H1.
  by injection E as <- _ _.
Qed.

Lemma mute_WriteTimeout op p : within mute (WriteTimeout cfg recorder op p).
Proof.
  apply within_WriteTimeout; [apply _|by intros c c' E _|].
  intros err c a c'. rewrite closeNoLock_eq. intros [= _ <-]. destruct (closed c) eqn:E; [done|].
  intros Hc. by rewrite closed_noted in Hc.
Qed.

(** ** Fragmented messages *)

Definition unmasked (f : Frame2) : bytes :=
  if Mask (f_Header f) then mask (f_Payload f) (MaskKey (f_Header f)) else f_Payload f.
Definition clean (f : Frame2) : Prop :=
  GetRsv1 (f_Header f) = false /\ GetRsv2 (f_Header f) = false /\ GetRsv3 (f_Header f) = false.

(** A frame as [readPayloadAndCallback] hands it over: its header is [c.rh]. *)
Definition feed_frame (f : Frame2) : go (option wserror) :=
  modify (set_rh (f_Header f)) ;; processCallback cfg recorder f.

Fixpoint feed_frames (fs : list Frame2) : go (option wserror) :=
  match fs with
  | [] => mret None
  | f :: fs => try feed_frame f; feed_frames fs
  end.

(** What a ping or a pong shows the user. *)
Definition control_events (f : Frame2) : list ws_event :=
  if Opcode (f_Header f) =? Ping then [EvMessage Ping (if replyPing cfg then unmasked f else [])]
  else if ignorePong cfg then [] else [EvMessage Pong []].

(** The rest of a fragmented message: its payload, and the events of the
    control frames in between. *)
Inductive fragments : list Frame2 -> bytes -> list ws_event -> Prop :=
  | fr_last f : clean f -> Opcode (f_Header f) = Continuation -> GetFin (f_Header f) = true ->
      fragments [f] (unmasked f) []
  | fr_more f fs p evs : clean f -> Opcode (f_Header f) = Continuation -> GetFin (f_Header f) = false ->
      fragments fs p evs -> fragments (f :: fs) (unmasked f ++ p) evs
  | fr_control f fs p evs : clean f -> Opcode (f_Header f) = Ping \/ Opcode (f_Header f) = Pong ->
      GetFin (f_Header f) = true -> PayloadLen (f_Header f) <= maxControlFrameSize ->
      fragments fs p evs -> fragments (f :: fs) p (control_events f ++ evs).

(** The result of a frame for a user who is still connected. *)
Definition seen (c : Conn) (evs : list ws_event) (frag : option bytes * option FrameHeader)
    (e : option wserror) (c' : Conn) : Prop :=
  Winv c' /\ (closed c = true -> closed c' = true) /\
  (e = None -> closed c' = false -> app c' = app c ++ evs /\ frag_part c' = frag).

Lemma wp_reply op p (c : Conn) :
  Winv c -> wp (WriteTimeout cfg recorder op p) (fun _ c' => Winv c' /\ step c c' /\ mute c c') c.
Proof.
  intros W. eapply wp_mono.
  - eapply (wp_post _ _ (fun _ c' => mute c c')); [by apply wp_WriteMessage|]. intros e c' E. exact (mute_WriteTimeout _ _ _ _ _ E).
  - cbv beta. tauto.
Qed.

Lemma wp_task_message op p evs frag (c0 c : Conn) :
  Winv c -> (closed c0 = true -> closed c = true) ->
  (closed c = false -> app c = app c0 ++ evs /\ frag_part c = frag) ->
  wp (addTask (OnMessage recorder op p) ;; mret None) (seen c0 (evs ++ [EvMessage op p]) frag) c.
Proof.
  intros W Hcl Hc. unfold addTask, isClosed. wp_steps. destruct (closed c) eqn:E.
  - wp_steps. split; [done|]. split; [by rewrite E|]. by rewrite E.
  - destruct (Hc eq_refl) as [Ha Hf]. apply wp_modify. wp_steps. split; [exact W|].
    split; [cbn; by rewrite E|]. intros _ _. split; [|exact Hf]. cbn. by rewrite Ha, app_assoc.
Qed.

Lemma wp_control f (c : Conn) :
  clean f -> Opcode (f_Header f) = Ping \/ Opcode (f_Header f) = Pong ->
  GetFin (f_Header f) = true -> PayloadLen (f_Header f) <= maxControlFrameSize ->
  Winv c -> wp (feed_frame f) (seen c (control_events f) (frag_part c)) c.
Proof.
  intros (C1 & C2 & C3) Hop Hfin Hlen W. unfold feed_frame. wp_steps.
  set (c1 := set_rh (f_Header f) c). assert (Winv c1) as W1 by exact W.
  assert (wp (on_control cfg recorder f (MaskKey (f_Header f)) (Mask (f_Header f)))
    (seen c (control_events f) (frag_part c)) c1) as Hctl.
  { unfold on_control. fold (unmasked f). replace (_ >? maxControlFrameSize) with false by lia.
    rewrite Hfin. cbn [negb]. unfold control_events.
    destruct Hop as [-> | ->]; cbn [Z.eqb Pos.eqb Ping Pong Close andb].
    - destruct (replyPing cfg).
      + wp_steps. eapply wp_mono; [by apply wp_reply|]. cbv beta. intros [e|] c2 (W2 & [S1 S2 S3] & M2).
        * wp_steps. eapply wp_mono; [by eapply quietly_once|]. cbv beta. intros _ c3 (W3 & R3). wp_steps. split; [done|]. split; [|done].
          intros Hc. apply R3. by apply S3.
        * apply (wp_task_message _ _ [] _ c c2); [done|exact S3|].
          intros Hc. pose proof (M2 Hc) as Hcore. injection Hcore as E1 E2 E3 _.
          split; [by rewrite app_nil_r|exact S2].
      + apply (wp_task_message _ _ [] _ c c1); [done|done|]. intros Hc. by rewrite app_nil_r.
    - destruct (ignorePong cfg).
      + wp_steps. split; [done|]. split; [done|]. intros _ _. by rewrite app_nil_r.
      + apply (wp_task_message _ _ [] _ c c1); [done|done|]. intros Hc. by rewrite app_nil_r. }
  unfold processCallback. wp_steps. rewrite C1, C2, C3. cbn [andb orb]. wp_steps.
  change (rh c1) with (f_Header f).
  replace ((Opcode (f_Header f) =? Text) || (Opcode (f_Header f) =? Binary)) with false
    by (destruct Hop as [-> | ->]; done).
  replace ((Opcode (f_Header f) =? Close) || (Opcode (f_Header f) =? Ping) || (Opcode (f_Header f) =? Pong))
    with true by (destruct Hop as [-> | ->]; done).
  assert (IsControl (Opcode (f_Header f)) = true) as -> by (rewrite IsControl_spec; by destruct Hop as [-> | ->]).
  by destruct (fragmentFrameHeader c1).
Qed.

(** A continuation frame inside a fragmented message goes to [on_continuation]. *)
Lemma feed_continuation f h (c : Conn) Q :
  clean f -> Opcode (f_Header f) = Continuation -> fragmentFrameHeader c = Some h ->
  wp (on_continuation cfg recorder h f (MaskKey (f_Header f)) (Mask (f_Header f))) Q (set_rh (f_Header f) c) ->
  wp (feed_frame f) Q c.
Proof.
  intros (C1 & C2 & C3) Hop Hh HQ. unfold feed_frame. wp_steps. unfold processCallback. wp_steps.
  rewrite C1, C2, C3. cbn [andb orb]. wp_steps. cbn [fragmentFrameHeader set_rh rh]. rewrite Hh, Hop.
  by rewrite IsControl_spec.
Qed.

Lemma wp_more f h acc (c : Conn) :
  clean f -> Opcode (f_Header f) = Continuation -> GetFin (f_Header f) = false ->
  Winv c -> frag_part c = (Some acc, Some h) ->
  wp (feed_frame f) (seen c [] (Some (acc ++ unmasked f), Some h)) c.
Proof.
  intros Hcl Hop Hfin W [= Ha Hh]. eapply feed_continuation; [done..|]. unfold on_continuation.
  fold (unmasked f). rewrite Hfin. wp_steps. split; [exact W|]. split; [done|]. intros _ _.
  split; [by rewrite app_nil_r|]. unfold frag_part. cbn. by rewrite Ha, Hh.
Qed.

Definition text_ok (op : Z) (p : bytes) : Prop := (op =? Text) && negb (utf8Check cfg p) = false.

Lemma wp_last f h acc (c : Conn) :
  clean f -> Opcode (f_Header f) = Continuation -> GetFin (f_Header f) = true ->
  Winv c -> frag_part c = (Some acc, Some h) -> GetRsv1 h = false -> text_ok (Opcode h) (acc ++ unmasked f) ->
  wp (feed_frame f) (seen c [EvMessage (Opcode h) (acc ++ unmasked f)] (None, None)) c.
Proof.
  intros Hcl Hop Hfin W [= Ha Hh] Hr Hok. eapply feed_continuation; [done..|]. unfold on_continuation.
  fold (unmasked f). rewrite Hfin, Hr. wp_steps. cbn [fragmentFramePayload set_rh set_fragmentFramePayload
    set_fragmentFrameHeader]. rewrite Ha. cbn [default from_option id].
  unfold fragment_done. cbn [andb]. unfold addTask, isClosed. wp_steps.
  cbn [closed set_rh set_fragmentFramePayload set_fragmentFrameHeader]. destruct (closed c) eqn:E.
  - wp_steps. split; [exact W|]. cbn. by rewrite E.
  - wp_steps. rewrite Hok. apply wp_modify. wp_steps. split; [exact W|]. split; [cbn; by rewrite E|]. done.
Qed.

Lemma wp_feed_any fs : forall c : Conn, Winv c ->
  wp (feed_frames fs) (fun _ c' => Winv c' /\ (closed c = true -> closed c' = true)) c.
Proof.
  induction fs as [|f fs IH]; intros c W; cbn [feed_frames]; [by wp_steps|].
  unfold feed_frame. wp_steps. eapply wp_mono; [by eapply quietly_processCallback|]. cbv beta.
  intros [e|] c1 (W1 & R1); [split; [done|apply R1]|].
  eapply wp_mono; [by apply IH|]. cbv beta. intros e c2 (W2 & C2). split; [done|]. intros Hc. by apply C2, R1.
Qed.

Lemma wp_feed_cons f fs evs1 evs2 frag1 frag2 (c : Conn) :
  wp (feed_frame f) (seen c evs1 frag1) c ->
  (forall c1, Winv c1 -> frag_part c1 = frag1 -> wp (feed_frames fs) (seen c1 evs2 frag2) c1) ->
  wp (feed_frames (f :: fs)) (seen c (evs1 ++ evs2) frag2) c.
Proof.
  intros Hf Hfs. cbn [feed_frames]. wp_steps. eapply wp_mono; [exact Hf|]. cbv beta.
  intros [e|] c1 (W1 & C1 & H1); [done|]. destruct (closed c1) eqn:E.
  - eapply wp_mono; [by apply wp_feed_any|]. cbv beta. intros e c2 (W2 & C2). split; [done|].
    split; [auto|]. intros _. by rewrite C2.
  - destruct (H1 eq_refl eq_refl) as [Ha Hfr]. eapply wp_mono; [by apply Hfs|]. cbv beta.
    intros e c2 (W2 & C2 & H2). split; [done|]. split; [by intros Hc; specialize (C1 Hc)|]. intros He Hc.
    destruct (H2 He Hc) as [Ha2 Hf2]. by rewrite Ha2, Ha, <- app_assoc.
Qed.

Lemma wp_feed_frames fs p evs : fragments fs p evs -> forall h acc (c : Conn),
  Winv c -> frag_part c = (Some acc, Some h) -> GetRsv1 h = false -> text_ok (Opcode h) (acc ++ p) ->
  wp (feed_frames fs) (seen c (evs ++ [EvMessage (Opcode h) (acc ++ p)]) (None, None)) c.
Proof.
  induction 1 as [f Hcl Hop Hfin|f fs p evs Hcl Hop Hfin _ IH|f fs p evs Hcl Hop Hfin Hlen _ IH];
    intros h acc c W Hfr Hr Hok.
  - apply (wp_feed_cons f [] [EvMessage (Opcode h) (acc ++ unmasked f)] [] (None, None)); [by apply wp_last|].
    intros c1 W1 Hf1. cbn [feed_frames]. wp_steps. split; [done|]. split; [done|]. intros _ _.
    by rewrite app_nil_r.
  - rewrite <- (app_nil_l (evs ++ _)). eapply wp_feed_cons; [by eapply wp_more|].
    intros c1 W1 Hf1. rewrite app_assoc in *. by apply IH.
  - rewrite <- app_assoc. eapply wp_feed_cons; [by apply wp_control|].
    intros c1 W1 Hf1. rewrite Hfr in Hf1. by apply IH.
Qed.

(** C21: a message in fragments, with any pings and pongs in between, reaches
    the user as one message: the opcode of the first fragment, the unmasked
    payloads joined in order; the control frames are reported where they came
    and disturb nothing, and nothing of the message is left in the connection. *)
Theorem fragments_reassembled f0 fs p evs (c : Conn)
    (W : Winv c) (Hnone : frag_part c = (None, None)) (Hclean : clean f0)
    (Hop : Opcode (f_Header f0) = Text \/ Opcode (f_Header f0) = Binary)
    (Hfin : GetFin (f_Header f0) = false) (Hrest : fragments fs p evs)
    (Htext : text_ok (Opcode (f_Header f0)) (unmasked f0 ++ p)) :
  wp (feed_frames (f0 :: fs)) (fun e c' => e = None -> closed c' = false ->
    app c' = app c ++ evs ++ [EvMessage (Opcode (f_Header f0)) (unmasked f0 ++ p)] /\
    fragmentFramePayload c' = None /\ fragmentFrameHeader c' = None) c.
Proof.
  injection Hnone as Hp Hh. eapply wp_mono.
  - apply (wp_feed_cons f0 fs [] (evs ++ [EvMessage (Opcode (f_Header f0)) (unmasked f0 ++ p)])
      (Some (unmasked f0), Some (f_Header f0)) (None, None)).
    + pose proof Hclean as (C1 & C2 & C3). unfold feed_frame. wp_steps. unfold processCallback. wp_steps.
      rewrite C1, C2, C3. cbn [andb orb]. wp_steps. cbn [fragmentFrameHeader set_rh rh]. rewrite Hh.
      replace ((Opcode (f_Header f0) =? Text) || (Opcode (f_Header f0) =? Binary)) with true
        by (by destruct Hop as [-> | ->]).
      unfold on_data. fold (unmasked f0). rewrite Hfin. wp_steps.
      split; [exact W|]. split; [done|]. intros _ _. split; [by rewrite app_nil_r|].
      unfold frag_part. cbn. by rewrite Hp.
    + intros c1 W1 Hf1. by apply wp_feed_frames; [| | |apply Hclean|].
  - cbv beta. intros e c' (_ & _ & Hc) He Hcl. destruct (Hc He Hcl) as [Ha [= Hf1 Hf2]]. by rewrite Ha.
Qed.

(** ** Violations of the protocol *)

(** RFC 6455, clause by clause (and RFC 7692, 6, on the compression bit). *)
Inductive clause : Type :=
  | Masking             (* 5.1: a client masks its frames, a server does not *)
  | Reserved_bits       (* 5.2: RSV1 to RSV3 are 0 unless an extension gives them a meaning *)
  | Reserved_opcode     (* 5.2: the opcodes are 0 to 2 and 8 to 10 *)
  | Control_length      (* 5.5: a control frame has at most 125 bytes *)
  | Control_fragmented  (* 5.5: a control frame is not fragmented *)
  | Interleaved         (* 5.4: between the fragments of a message only control frames *)
  | Orphan              (* 5.4: a continuation continues something *)
  | Close_length        (* 5.5.1: the body of a Close is empty or begins with two bytes *)
  | Close_reason        (* 5.5.1: and goes on in UTF-8 *)
  | Close_code.         (* 7.4: and those are a status code that may be sent *)

(** 7.4.1 with the codes that were registered since, and 7.4.2. *)
Definition sendable (code : Z) : Prop :=
  code ∈ [1000; 1001; 1002; 1003; 1007; 1008; 1009; 1010; 1011; 1012; 1013; 1014] \/ 3000 <= code < 5000.

(** What a frame violates, for the end that reads it: whether that is the
    client, and the header of the message in fragments that is under way. *)
Inductive violates (client : bool) (frag : option FrameHeader) (f : Frame2) : clause -> Prop :=
  | v_masking : Mask (f_Header f) = client -> violates client frag f Masking
  | v_rsv1 : GetRsv1 (f_Header f) = true ->
      (pd_Decompression cfg = false \/ Opcode (f_Header f) ∉ [1; 2] \/ frag <> None) -> violates client frag f Reserved_bits
  | v_rsv23 : GetRsv2 (f_Header f) || GetRsv3 (f_Header f) = true -> violates client frag f Reserved_bits
  | v_opcode : Opcode (f_Header f) ∉ [0; 1; 2; 8; 9; 10] -> violates client frag f Reserved_opcode
  | v_length : 8 <= Opcode (f_Header f) -> 125 < PayloadLen (f_Header f) -> violates client frag f Control_length
  | v_fin : 8 <= Opcode (f_Header f) -> GetFin (f_Header f) = false -> violates client frag f Control_fragmented
  | v_interleaved : frag <> None -> Opcode (f_Header f) < 8 -> Opcode (f_Header f) <> 0 -> violates client frag f Interleaved
  | v_orphan : frag = None -> Opcode (f_Header f) = 0 -> violates client frag f Orphan
  | v_close_length : Opcode (f_Header f) = 8 -> zlen (unmasked f) = 1 -> violates client frag f Close_length
  | v_close_reason : Opcode (f_Header f) = 8 -> 2 <= zlen (unmasked f) ->
      utf8_Valid (from 2 (unmasked f)) = false -> violates client frag f Close_reason
  | v_close_code : Opcode (f_Header f) = 8 -> 2 <= zlen (unmasked f) ->
      ~ sendable (be16 (at_ (unmasked f) 0) (at_ (unmasked f) 1)) -> violates client frag f Close_code.

(** What the code looks at: not at masking; at UTF-8 if the application asked for
    it; and while a message in fragments is under way and compressed messages
    are taken, not at RSV1.  [WsFindings] has a frame of each kind that passes. *)
Definition checked (frag : option FrameHeader) (f : Frame2) (cl : clause) : Prop :=
  match cl with
  | Masking => False
  | Reserved_bits => pd_Decompression cfg = false \/ frag = None \/ GetRsv2 (f_Header f) || GetRsv3 (f_Header f) = true
  | Close_reason => utf8Check cfg (from 2 (unmasked f)) = false
  | _ => True
  end.

(** What [OnClose] is told of it. *)
Definition reason (f : Frame2) (cl : clause) : wserror :=
  match cl with
  | Masking => EOF (* never told *)
  | Reserved_bits => rsv_error f
  | Reserved_opcode | Orphan => ErrOpcode
  | Control_length => ErrMaxControlFrameSize
  | Control_fragmented => ErrNOTBeFragmented
  | Interleaved => ErrFrameOpcode
  | Close_length => ErrClosePayloadTooSmall
  | Close_reason => ErrTextNotUTF8
  | Close_code => ErrCloseValue
  end.

Definition close_check (p : bytes) : option wserror :=
  if zlen p =? 0 then None
  else if zlen p =? 1 then Some ErrClosePayloadTooSmall
  else if negb (utf8Check cfg (from 2 p)) then Some ErrTextNotUTF8
  else if validCode (be16 (at_ p 0) (at_ p 1)) then None
  else Some ErrCloseValue.

Definition control_check (f : Frame2) : option wserror :=
  let h := f_Header f in
  let op := Opcode h in
  if negb ((op =? Close) || (op =? Ping) || (op =? Pong)) then Some ErrOpcode
  else if PayloadLen h >? 125 then Some ErrMaxControlFrameSize
  else if negb (GetFin h) then Some ErrNOTBeFragmented
  else if op =? Close then close_check (unmasked f)
  else None.

(** The checks in the order of the code. *)
Definition first_check (frag : option FrameHeader) (f : Frame2) : option wserror :=
  let h := f_Header f in
  let op := Opcode h in
  let message := match frag with Some g => Opcode g | None => op end in
  let compressed := pd_Decompression cfg && ((message =? Text) || (message =? Binary)) in
  if (GetRsv1 h && negb compressed) || GetRsv2 h || GetRsv3 h then Some (rsv_error f)
  else if op >=? 8 then control_check f
  else
    match frag with
    | Some _ => if op =? Continuation then None else Some ErrFrameOpcode
    | None => if (op =? Text) || (op =? Binary) then None else Some ErrOpcode
    end.

(** They find what is checked, and nothing but violations. *)
Lemma sendable_code code : sendable code <-> validCode code = true.
Proof.
  unfold sendable, validCode. rewrite !elem_of_cons, elem_of_nil. repeat case_match; lia.
Qed.

Lemma first_check_complete client frag f cl :
  violates client frag f cl -> checked frag f cl -> is_Some (first_check frag f).
Proof.
  intros Hv Hc. destruct (first_check frag f) eqn:E; [done|exfalso]. revert E.
  pose proof (sendable_code (be16 (at_ (unmasked f) 0) (at_ (unmasked f) 1))) as Hs.
  unfold first_check, control_check, close_check, Text, Binary, Continuation, Close, Ping, Pong. cbv zeta.
  destruct Hv; cbn [checked] in Hc; rewrite ?not_elem_of_cons in *;
    destruct (GetRsv1 (f_Header f)), (GetRsv2 (f_Header f)), (GetRsv3 (f_Header f)), (pd_Decompression cfg);
    cbn [andb orb negb] in *; try done; repeat case_match; try done; intros _;
    rewrite ?negb_false_iff in *; intuition (congruence || lia).
Qed.

Lemma close_check_sound client frag f err :
  (forall p, utf8_Valid p = true -> utf8Check cfg p = true) -> Opcode (f_Header f) = 8 ->
  close_check (unmasked f) = Some err -> exists cl, violates client frag f cl /\ cl <> Masking /\ err = reason f cl.
Proof.
  intros Hutf Hop. unfold close_check. pose proof (zlen_nonneg (unmasked f)).
  destruct (Z.eqb_spec (zlen (unmasked f)) 0); [done|]. destruct (Z.eqb_spec (zlen (unmasked f)) 1).
  { intros [= <-]. exists Close_length. by split; [constructor|]. }
  destruct (utf8Check cfg _) eqn:Hu; cbn [negb].
  - destruct (validCode _) eqn:Hc; [done|]. intros [= <-]. exists Close_code. split; [|done].
    constructor; [done|lia|]. rewrite sendable_code. congruence.
  - intros [= <-]. exists Close_reason. split; [|done]. constructor; [done|lia|].
    destruct (utf8_Valid _) eqn:E; [|done]. by rewrite Hutf in Hu.
Qed.

Lemma control_check_sound client frag f err :
  (forall p, utf8_Valid p = true -> utf8Check cfg p = true) -> 8 <= Opcode (f_Header f) ->
  control_check f = Some err -> exists cl, violates client frag f cl /\ cl <> Masking /\ err = reason f cl.
Proof.
  intros Hutf Hop. unfold control_check, Close, Ping, Pong. cbv zeta. case_match eqn:E1.
  { intros [= <-]. exists Reserved_opcode. split; [|done]. constructor. rewrite !not_elem_of_cons.
    split_and!; try lia. apply not_elem_of_nil. }
  case_match eqn:E2; [intros [= <-]; exists Control_length; split; [constructor; lia|done]|].
  destruct (GetFin _) eqn:E3; cbn [negb]; [|intros [= <-]; exists Control_fragmented; by split; [constructor|]].
  case_match; [|done]. apply close_check_sound; [done|lia].
Qed.

Lemma first_check_sound client frag f err :
  (forall p, utf8_Valid p = true -> utf8Check cfg p = true) ->
  first_check frag f = Some err -> exists cl, violates client frag f cl /\ cl <> Masking /\ err = reason f cl.
Proof.
  intros Hutf. unfold first_check, Text, Binary, Continuation. cbv zeta. case_match eqn:E1.
  { intros [= <-]. exists Reserved_bits. split; [|done].
    destruct (GetRsv2 (f_Header f) || GetRsv3 (f_Header f)) eqn:E2; [by apply v_rsv23|].
    rewrite <- orb_assoc, E2, orb_false_r in E1. apply andb_true_iff in E1 as [E1 E3].
    apply v_rsv1; [done|]. destruct (pd_Decompression cfg); [right|by left].
    destruct frag; [by right|left]. rewrite !not_elem_of_cons. split_and!; try lia. apply not_elem_of_nil. }
  destruct (Z.geb_spec (Opcode (f_Header f)) 8); [by apply control_check_sound|].
  destruct frag; case_match eqn:E2; try done; intros [= <-].
  - exists Interleaved. split; [by constructor; [|lia|lia]|done].
  - destruct (Z.eq_dec (Opcode (f_Header f)) 0); [exists Orphan; by split; [constructor|]|].
    exists Reserved_opcode. split; [|done]. constructor. rewrite !not_elem_of_cons.
    split_and!; try lia. apply not_elem_of_nil.
Qed.

(** The Close frame with the code is behind what was written before, and the
    user is told the reason; or it could not be written. *)
Definition refused (code : Z) (err : wserror) (c c' : Conn) : Prop :=
  (exists fr, message_frame Close (toBytes code) fr /\
     sent c' ++ waiting c' = (sent c ++ waiting c) ++ fr /\
     app c' = app c ++ [EvClose (Some err)] /\ onCloseOnce c' = true /\ closed c' = false) \/
  (exists e c1, WriteTimeout cfg recorder Close (toBytes code) c = Some (Some e, c1)).

Lemma wp_refuse code err (c : Conn) :
  Winv c -> closed c = false -> onCloseOnce c = false -> cork1 c ->
  wp (writeErrAndOnClose cfg recorder code err) (fun r c' => r <> None /\ refused code err c c') c.
Proof.
  intros W Hcl Ho Hk. unfold writeErrAndOnClose. wp_steps. eapply wp_mono.
  - eapply (wp_post _ _ (fun e1 c1 => WriteTimeout cfg recorder Close (toBytes code) c = Some (e1, c1) /\ mute c c1));
      [by apply (wp_WriteMessage_any cfg recorder Close)|].
    intros e1 c1 E. split; [exact E|]. exact (mute_WriteTimeout _ _ _ _ _ E).
  - cbv beta. intros e1 c1 [(W1 & S1 & H1) [E1 M1]]. wp_steps. eapply wp_intro; [apply once_eq|]. wp_steps.
    split; [done|]. destruct e1 as [e|]; [right; by exists e, c1|]. left.
    destruct H1 as (fr & Hfr & [R1 _ R3 _]); [done|by rewrite andb_false_r|done|].
    rewrite Hcl in R1. pose proof (M1 R1) as Hcore. injection Hcore as C1 C2 C3 _.
    exists fr. unfold noted. rewrite C3, Ho. split; [done|]. rewrite <- app_assoc.
    split; [exact R3|]. split; [|done]. cbn. by rewrite C2.
Qed.

Lemma wp_refuse_then code err (r : wserror) (c : Conn) :
  Winv c -> closed c = false -> onCloseOnce c = false -> cork1 c ->
  wp (writeErrAndOnClose cfg recorder code err ;; mret (Some r))
     (fun e c' => e <> None /\ refused code err c c') c.
Proof.
  intros W Hcl Ho Hk. wp_steps. eapply wp_mono; [by apply wp_refuse|]. cbv beta. intros e c' [_ Hr]. wp_steps. by split.
Qed.

Lemma wp_refuse_close p err (c : Conn) :
  Winv c -> closed c = false -> onCloseOnce c = false -> cork1 c -> close_check p = Some err ->
  wp (on_close cfg recorder p) (fun e c' => e <> None /\ refused ProtocolError err c c') c.
Proof.
  intros W Hcl Ho Hk. unfold close_check, on_close. pose proof (zlen_nonneg p).
  destruct (Z.eqb_spec (zlen p) 0); [done|]. destruct (Z.eqb_spec (zlen p) 1).
  - replace (zlen p <? 2) with true by lia. intros [= <-]. by apply wp_refuse.
  - replace (zlen p <? 2) with false by lia.
    destruct (negb _); [intros [= <-]; by apply wp_refuse|].
    destruct (validCode _); [done|]. intros [= <-]. by apply wp_refuse.
Qed.

Lemma wp_refuse_control f err (c : Conn) :
  Winv c -> closed c = false -> onCloseOnce c = false -> cork1 c -> control_check f = Some err ->
  wp (if (Opcode (f_Header f) =? Close) || (Opcode (f_Header f) =? Ping) || (Opcode (f_Header f) =? Pong)
      then on_control cfg recorder f (MaskKey (f_Header f)) (Mask (f_Header f))
      else writeErrAndOnClose cfg recorder ProtocolError ErrOpcode ;; mret (Some ErrOpcode))
    (fun e c' => e <> None /\ refused ProtocolError err c c') c.
Proof.
  intros W Hcl Ho Hk. unfold control_check. cbv zeta.
  destruct ((Opcode (f_Header f) =? Close) || (Opcode (f_Header f) =? Ping) || (Opcode (f_Header f) =? Pong));
    cbn [negb].
  2: { intros [= <-]. by apply wp_refuse_then. }
  unfold on_control. fold (unmasked f). change maxControlFrameSize with 125.
  destruct (_ >? 125); [intros [= <-]; by apply wp_refuse_then|].
  destruct (GetFin _); cbn [negb]; [|intros [= <-]; by apply wp_refuse_then].
  destruct (_ =? Close); [|done]. by apply wp_refuse_close.
Qed.

Lemma wp_first_check f err (c : Conn) :
  Winv c -> closed c = false -> onCloseOnce c = false -> cork1 c -> rh c = f_Header f ->
  first_check (fragmentFrameHeader c) f = Some err ->
  wp (processCallback cfg recorder f) (fun e c' => e <> None /\ refused ProtocolError err c c') c.
Proof.
  intros W Hopen Honce Hcork Hrh Hv. unfold first_check in Hv. unfold processCallback. cbv zeta in *. wp_steps.
  assert (forall op, failRsv1 cfg op = negb (pd_Decompression cfg && ((op =? Text) || (op =? Binary)))) as Hfail.
  { intros op. unfold failRsv1. destruct (pd_Decompression cfg); [|done]. cbn [negb andb].
    by rewrite negb_orb. }
  rewrite Hfail. revert Hv. destruct (_ || GetRsv2 _ || GetRsv3 _).
  { intros [= <-]. by apply wp_refuse. }
  intros Hv. wp_steps. revert Hv. rewrite IsControl_spec, Hrh.
  destruct (Z.geb_spec (Opcode (f_Header f)) 8).
  - replace ((Opcode (f_Header f) =? Text) || (Opcode (f_Header f) =? Binary)) with false
      by (unfold Text, Binary; lia).
    assert (control_check f = Some err ->
      wp (if (Opcode (f_Header f) =? Close) || (Opcode (f_Header f) =? Ping) || (Opcode (f_Header f) =? Pong)
          then on_control cfg recorder f (MaskKey (f_Header f)) (Mask (f_Header f))
          else writeErrAndOnClose cfg recorder ProtocolError ErrOpcode ;; mret (Some ErrOpcode))
        (fun e c' => e <> None /\ refused ProtocolError err c c') c) as Hctl by (by apply wp_refuse_control).
    intros Hv. by destruct (fragmentFrameHeader c); apply Hctl.
  - replace ((Opcode (f_Header f) =? Close) || (Opcode (f_Header f) =? Ping) || (Opcode (f_Header f) =? Pong))
      with false by (unfold Close, Ping, Pong; lia).
    destruct (fragmentFrameHeader c) as [h|]; cbn [negb].
    + destruct (Opcode (f_Header f) =? Continuation); [done|]. intros [= <-]. by apply wp_refuse_then.
    + destruct (_ || _); [done|]. intros [= <-]. by apply wp_refuse_then.
Qed.

(** C28: a frame that violates the protocol is refused, for every clause of RFC
    6455 that shows in a frame and that the code looks at ([checked] names the
    three it does not always look at: masking, RSV1 inside a message in
    fragments, UTF-8 when the check is off): on an open connection whose user
    has not been told of its end and whose corked replies, if any, are in one
    buffer ([cork1]), the handler returns an error, a Close frame
    with code 1002 and its text is behind what was sent and what waits, and
    [OnClose] is told the reason, which is that of a clause the frame violates;
    unless writing the Close frame fails. *)
Theorem violations_refused f cl (c : Conn) (client := has_flag flagClient (packed c))
    (W : Winv c) (Hopen : closed c = false) (Honce : onCloseOnce c = false) (Hcork : cork1 c)
    (Hrh : rh c = f_Header f) (Hutf : forall p, utf8_Valid p = true -> utf8Check cfg p = true)
    (Hv : violates client (fragmentFrameHeader c) f cl) (Hc : checked (fragmentFrameHeader c) f cl) :
  wp (processCallback cfg recorder f) (fun e c' => e <> None /\
    exists cl', violates client (fragmentFrameHeader c) f cl' /\ cl' <> Masking /\
      refused ProtocolError (reason f cl') c c') c.
Proof.
  destruct (first_check_complete _ _ _ _ Hv Hc) as [err Herr].
  destruct (first_check_sound client _ _ _ Hutf Herr) as (cl' & Hv' & Hm & ->).
  eapply wp_mono; [by apply wp_first_check|]. cbv beta. intros e c' [He Hr]. split; [done|]. by exists cl'.
Qed.
End Recorded.

(** ** Evaluated *)

(** A Close frame with code 1000, then the end of the stream's events. *)
Definition bye_world : plain_world := mkWorld [[136; 2; 3; 232]] [100].
Definition bye_conn : Conn (list ws_event) := newConn 7 false bye_world [].

Lemma OnClose_exactly_once_witness :
  (from_option (fun r => (app (snd r), closed (snd r))) ([], false)
     (run_events plain_config recorder 100 hello_events bye_conn) =
   ([EvClose (Some (ErrClose 1000 ""))], true)) /\
  wp (run_events plain_config recorder 100 hello_events) (fun _ c' =>
    (closes (app c') <= 1)%nat /\ (closed c' = true -> closes (app c') = 1%nat)) bye_conn.
Proof.
  split; [vm_compute; reflexivity|].
  apply (OnClose_exactly_once (H := plain_lib) plain_config 7 false bye_world hello_events 100);
    [|by vm_compute].
  apply sane_short; [done|done|bytes|].
  apply (bool_decide_unpack (Forall (fun b => len7 b <> 127) _)). by vm_compute.
Defined.

(** "Hi" in two masked fragments with a ping in between. *)
Definition frag_first : Frame2 := mkFrame2 (mkHeader 1 Text 5 true 1) [77].
Definition frag_ping : Frame2 := mkFrame2 (mkHeader 2 Ping 0 false 137) [1; 2].
Definition frag_last : Frame2 := mkFrame2 (mkHeader 1 Continuation 0 true 128) [105].
Definition frag_conn : Conn (list ws_event) := newConn 7 false (mkWorld [] [100]) [].

Lemma frag_rest : fragments (H := plain_lib) plain_config [frag_ping; frag_last] [105] [EvMessage Ping [1; 2]].
Proof.
  apply (fr_control plain_config frag_ping [frag_last] [105] []); [done|by left|done|done|].
  change [105] with (unmasked frag_last). by apply fr_last.
Qed.

Lemma fragments_reassembled_witness :
  wp (feed_frames plain_config [frag_first; frag_ping; frag_last]) (fun e c' => e = None -> closed c' = false ->
    app c' = [EvMessage Ping [1; 2]; EvMessage Text [72; 105]] /\
    fragmentFramePayload c' = None /\ fragmentFrameHeader c' = None) frag_conn /\
  option_map fst (feed_frames plain_config [frag_first; frag_ping; frag_last] frag_conn) = Some None.
Proof.
  split; [|vm_compute; reflexivity].
  apply (fragments_reassembled (H := plain_lib) plain_config frag_first [frag_ping; frag_last] [105]
    [EvMessage Ping [1; 2]] frag_conn); [by left|done|done|by left|done|exact frag_rest|done].
Defined.

(** A text frame in the middle of a fragmented message. *)
Definition amid_conn : Conn (list ws_event) :=
  set_rh (mkHeader 0 Text 0 false 129) (set_fragmentFrameHeader (Some (mkHeader 1 Text 0 false 1)) frag_conn).
Definition amid_frame : Frame2 := mkFrame2 (mkHeader 0 Text 0 false 129) [].

Lemma violations_refused_witness :
  wp (processCallback plain_config recorder amid_frame)
    (fun e c' => e <> None /\ exists cl', violates (H := plain_lib) plain_config false (fragmentFrameHeader amid_conn) amid_frame cl' /\
      cl' <> Masking /\ refused plain_config ProtocolError (reason amid_frame cl') amid_conn c') amid_conn.
Proof.
  apply (violations_refused (H := plain_lib) plain_config amid_frame Interleaved amid_conn).
  - by left.
  - done.
  - done.
  - unfold cork1. cbn. lia.
  - done.
  - done.
  - by apply v_interleaved.
  - done.
Defined.
