(* ===== verification/WsChannel.v ===== *)
(** * WsChannel

    Two connections back to back: the bytes one end's socket took are the
    stream of the other end.  Together they are a reliable channel of messages:
    what [WriteMessage] accepted arrives as one frame per message, in order,
    with its opcode and its payload, whatever the sockets and the events do. *)

From S2P Require Import Prelude GoStd Sock WsState WsWrite WsRead WsPlain WsSafe WsWire WsStream.
From S2P Require Import WsParse WsRound WsEvents WsCallbacks.

(** ** The header the code writes is the header the code reads *)

Lemma be64_put32 a b :
  0 <= a < 2 ^ 32 -> 0 <= b < 2 ^ 32 -> be64 (put32 a ++ put32 b) = a * 2 ^ 32 + b.
Proof.
  intros Ha Hb. change (be64 (put32 a ++ put32 b)) with
    (be32 (u8 (a >> 24)) (u8 (a >> 16)) (u8 (a >> 8)) (u8 a) << 32 .|
     be32 (u8 (b >> 24)) (u8 (b >> 16)) (u8 (b >> 8)) (u8 b)).
  rewrite !be32_put by done. by apply lor_shiftl_add.
Qed.

Lemma be64_put64 x : 0 <= x < 2 ^ 63 -> i64 (be64 (put64 (u64 x))) = x.
Proof.
  intros Hx. unfold put64, u64. rewrite (Z.mod_small x) by lia.
  rewrite be64_put32 by (unfold u32; apply Z.mod_pos_bound; lia).
  assert (u32 (x >> 32) * 2 ^ 32 + u32 x = x) as ->.
  { unfold u32. rewrite shr_div by lia. rewrite (Z.mod_small (x / 2 ^ 32)) by zarith.
    pose proof (Z.div_mod x (2 ^ 32)). lia. }
  unfold i64, swrap. rewrite Z.mod_small; lia.
Qed.

(** A short length leaves the mask bit alone. *)
Lemma low_mask n : 0 <= n < 128 -> masked n = false /\ len7 n = n.
Proof.
  intros Hn. unfold masked, len7. split.
  - apply negb_false_iff, Z.eqb_eq. apply Z.bits_inj'. intros k Hk.
    rewrite Z.land_spec, Z.bits_0, Z.shiftl_1_l, Z.pow2_bits_eqb by lia.
    destruct (Z.eqb_spec 7 k) as [<-|]; [|apply andb_false_r].
    rewrite andb_true_r, <- (Z.mod_small n (2 ^ 7)) by lia. by apply Z.mod_pow2_bits_high.
  - change 0x7F with (Z.ones 7). rewrite Z.land_ones by lia. apply Z.mod_small. lia.
Qed.

Section Header.
Context `{WsLib}.

(** The message frames of the fast paths. *)
Definition plain_header (op n : Z) : FrameHeader := mkHeader n op 0 false (0x80 .| op).

Lemma wsHeader_frame op (p : bytes) :
  0 <= op < 16 -> zlen p < 2 ^ 63 ->
  frame_of (wsHeader op (zlen p) ++ p) (mkFrame2 (plain_header op (zlen p)) p).
Proof.
  intros Hop Hp. pose proof (zlen_nonneg p). exists (wsHeader op (zlen p)). split; [done|].
  assert (op .& 0x0F = op) as Hlow by (change 0x0F with (Z.ones 4); rewrite Z.land_ones by lia; apply Z.mod_small; lia).
  assert ((0x80 .| op) .& 0xF = op) as Hhead by (rewrite Z.land_lor_distr_l, Hlow; apply Z.lor_0_l).
  assert (forall hdr, whole_header hdr -> at_ hdr 0 = 0x80 .| op -> masked (at_ hdr 1) = false ->
    declared hdr = zlen p -> header_of hdr (plain_header op (zlen p)) /\ zlen p = declared hdr) as Hfin.
  { intros hdr Hw Hb0 Hm Hd. split; [|done]. split; cbn; rewrite ?Hb0, ?Hm; done. }
  unfold wsHeader. rewrite Hlow. cbn [f_Header f_Payload].
  destruct (Z.leb_spec (zlen p) 125) as [H1|H1]; [|destruct (Z.leb_spec (zlen p) 65535) as [H2|H2]].
  - assert (u8 (zlen p) = zlen p) as -> by (apply Z.mod_small; lia).
    destruct (low_mask (zlen p)) as [Hm Hl7]; [lia|].
    apply Hfin; [|done|done|].
    + unfold whole_header, rest_size. change (at_ [0x80 .| op; zlen p] 1) with (zlen p). rewrite Hm, Hl7.
      replace (zlen p =? 126) with false by lia. by replace (zlen p =? 127) with false by lia.
    + unfold declared. change (at_ [0x80 .| op; zlen p] 1) with (zlen p). rewrite Hl7.
      replace (zlen p =? 126) with false by lia. by replace (zlen p =? 127) with false by lia.
  - apply Hfin; [done..|]. change (be16 (u8 (zlen p >> 8)) (u8 (zlen p)) = zlen p). apply be16_put. lia.
  - apply Hfin; [done..|]. change (i64 (be64 (put64 (u64 (zlen p)))) = zlen p). by apply be64_put64.
Qed.

(** A stream of whole frames declares nothing it does not hold. *)
Lemma sane_frames cfg raws fs :
  Forall2 frame_of raws fs -> zlen (concat raws) < 2 ^ 62 ->
  (forall n, 0 <= n < 128 \/ 0 <= n <= zlen (concat raws) -> roomy cfg n) -> sane cfg (concat raws).
Proof.
  intros Hfs Hz Hroom. split; [done|]. split; [by auto|]. intros raws' hdr rest fs' E Hfs' Hw. apply Hroom. right.
  clear Hroom Hz. revert raws fs Hfs E.
  induction Hfs' as [|raw' f' raws' fs' Hf' _ IH]; intros raws fs Hfs E.
  - destruct Hfs as [|raw f raws fs (h & -> & Hh & Hl) Hfs].
    { cbn [concat app] in E. apply (f_equal zlen) in E. rewrite !zlen_app, !zlen_nil in E. unfold whole_header in Hw.
      pose proof (rest_size_bound (at_ hdr 1)). pose proof (zlen_nonneg rest). lia. }
    cbn in E. cbn [concat]. rewrite <- !app_assoc in E.
    destruct (whole_header_unique _ _ _ _ E (ho_whole _ _ Hh) Hw) as [<- _].
    rewrite !zlen_app. pose proof (zlen_nonneg h). pose proof (zlen_nonneg (f_Payload f)).
    pose proof (zlen_nonneg (concat raws)). lia.
  - cbn in E. rewrite <- app_assoc in E. destruct Hfs as [|raw f raws fs Hf Hfs].
    { exfalso. destruct Hf' as (h & -> & Hh & _). pose proof (ho_whole _ _ Hh) as Hw'. unfold whole_header in Hw'.
      cbn [concat] in E. apply (f_equal zlen) in E. rewrite zlen_nil, !zlen_app in E.
      pose proof (rest_size_bound (at_ h 1)). pose proof (zlen_nonneg (f_Payload f')).
      pose proof (zlen_nonneg (concat raws')). pose proof (zlen_nonneg hdr). pose proof (zlen_nonneg rest). lia. }
    cbn in E. destruct (frame_front _ _ _ _ _ _ E Hf Hf') as [-> E'].
    cbn [concat]. rewrite zlen_app. pose proof (zlen_nonneg raw').
    specialize (IH _ _ Hfs E'). lia.
Qed.
End Header.

(** ** The channel *)

Section Channel.
Context `{WsLib} `{!WsLaws}.

(** The frame [f] is the message: whole, with nothing compressed. *)
Definition carries (m : Z * bytes) (f : Frame2) : Prop :=
  Opcode (f_Header f) = fst m /\ GetFin (f_Header f) = true /\ clean f /\ unmasked f = snd m.

(** [frame.WriteFrame] writes a frame of RFC 6455 that carries the payload,
    masked or not. *)
Definition frame_law : Prop := forall payload isMask op maskValue,
  0 <= op < 16 -> zlen payload < 2 ^ 62 ->
  exists f, frame_of (frame_bytes payload true false isMask op maskValue) f /\ carries (op, payload) f.

Lemma plain_flags op k : 0 <= op < 16 -> 4 <= k -> (0x80 .| op) .& 2 ^ k = 0x80 .& 2 ^ k.
Proof.
  intros Hop Hk. rewrite Z.land_lor_distr_l. assert (op .& 2 ^ k = 0) as ->; [|by rewrite Z.lor_0_r].
  apply Z.bits_inj'. intros i Hi. rewrite Z.land_spec, Z.bits_0, Z.pow2_bits_eqb by lia.
  destruct (Z.eqb_spec k i) as [<-|]; [|apply andb_false_r]. rewrite andb_true_r.
  rewrite <- (Z.mod_small op (2 ^ 4)) by lia. apply Z.mod_pow2_bits_high. lia.
Qed.

(** A first byte with FIN, no reserved bits and the opcode. *)
Lemma carries_intro op h p q :
  0 <= op < 16 -> Opcode h = op -> Head h = 0x80 .| op -> (if Mask h then mask p (MaskKey h) else p) = q ->
  carries (op, q) (mkFrame2 h p).
Proof.
  intros Hop Ho Hh Hq. unfold carries, clean. rewrite GetFin_spec, GetRsv1_spec, GetRsv2_spec, GetRsv3_spec.
  cbn [f_Header]. rewrite Hh. change 0x40 with (2 ^ 6). change 0x20 with (2 ^ 5). change 0x10 with (2 ^ 4).
  rewrite !plain_flags by lia. assert ((0x80 .| op) .& 0x80 = 0x80) as ->
    by exact (plain_flags op 7 Hop ltac:(lia)). done.
Qed.

Lemma wsHeader_carries op p : 0 <= op < 16 -> carries (op, p) (mkFrame2 (plain_header op (zlen p)) p).
Proof. intros Hop. by apply carries_intro. Qed.

(** What a frame carries is in its bytes. *)
Lemma carries_raw raw f f' m : frame_of raw f -> frame_of raw f' -> carries m f -> carries m f'.
Proof.
  intros (h & -> & [A1 A2 A3 A4 A5 A6] & Hl) (h' & E & [B1 B2 B3 B4 B5 B6] & Hl') (C1 & C2 & (C3 & C4 & C5) & C6).
  destruct (whole_header_unique _ _ _ _ E) as [<- Ep]; [done..|].
  assert (Head (f_Header f') = Head (f_Header f)) as Ehd by congruence.
  assert (Mask (f_Header f') = Mask (f_Header f)) as Em by congruence.
  split; [congruence|]. rewrite GetFin_spec in *. unfold clean in *.
  rewrite GetRsv1_spec, GetRsv2_spec, GetRsv3_spec in *. rewrite Ehd. split; [done|]. split; [done|].
  rewrite <- C6. unfold unmasked. rewrite Em, <- Ep. destruct (Mask (f_Header f)) eqn:E2; [|done].
  f_equal. rewrite A6, B6 by congruence. done.
Qed.

Lemma message_frame_carries op data fr :
  frame_law -> 0 <= op < 16 -> zlen data < 2 ^ 62 -> message_frame op data fr ->
  exists f, frame_of fr f /\ carries (op, data) f.
Proof.
  intros Hlaw Hop Hz [-> |(isMask & mv & ->)]; [|by apply Hlaw].
  assert (u8 op = op) as -> by (apply Z.mod_small; lia).
  eexists. split; [apply wsHeader_frame; lia|by apply wsHeader_carries].
Qed.

Lemma messages_carried ms frs :
  frame_law -> Forall (fun m => 0 <= fst m < 16 /\ zlen (snd m) < 2 ^ 62) ms ->
  Forall2 (fun m => message_frame (fst m) (snd m)) ms frs ->
  exists fs, Forall2 frame_of frs fs /\ Forall2 carries ms fs.
Proof.
  intros Hlaw Hms. induction 1 as [|m fr ms frs Hm _ IH]; [by exists []|].
  apply Forall_cons in Hms as [[Hop Hz] Hms]. destruct (IH Hms) as (fs & Hf & Hc).
  destruct (message_frame_carries _ _ _ Hlaw Hop Hz Hm) as (f & Hf1 & Hc1). destruct m.
  exists (f :: fs). split; by constructor.
Qed.

Lemma carried_delivered ms frs fs fs' :
  Forall2 carries ms fs -> Forall2 frame_of frs fs -> Forall2 frame_of frs fs' -> Forall2 carries ms fs'.
Proof.
  intros Hc. revert frs fs'. induction Hc as [|m f ms fs Hm _ IH]; intros frs fs' H1 H2.
  - inversion H1; subst. inversion H2. constructor.
  - inversion H1; subst. inversion H2; subst. constructor; [eauto using carries_raw|eauto].
Qed.

Context {App1 App2 : Type} (cfg1 cfg2 : Config) (cb1 : Callback App1) (cb2 : Callback App2)
  `{!CallbackOk cb1} `{!CallbackOk cb2}.

(** C4: what one end writes the other end reads.  One end, client or server,
    writes any messages, in batches or not, on a socket that takes what it
    likes; if every call reported success and the socket has taken all, then
    the other end, whose read buffer can be sized for these lengths ([roomy];
    with the default multiple any length below 2^59), fed that byte stream in any
    pieces at any events, has
    delivered, once it has read it and is still open, exactly one final frame
    per message, in order, with its opcode and its payload. *)
Theorem messages_arrive ops fd1 client1 w1 (a1 : App1)
    (Hlaw : frame_law) (Hpd : pd_Compression cfg1 = false)
    (Hms : Forall (fun m => 0 <= fst m < 16 /\ zlen (snd m) < 2 ^ 62) (messages ops)) :
  wp (run_ops cfg1 cb1 ops) (fun e c1 =>
    e = None -> closed c1 = false -> waiting c1 = [] ->
    forall fd2 client2 w2 (a2 : App2) evs fuel,
      incoming w2 = sent c1 -> zlen (sent c1) < 2 ^ 62 ->
      (forall n, 0 <= n < 128 \/ 0 <= n <= zlen (sent c1) -> roomy cfg2 n) ->
      budget (newConn fd2 client2 w2 a2) <= Z.of_nat fuel ->
      wp (run_events cfg2 cb2 fuel evs) (fun _ c2 =>
        closed c2 = false -> incoming (world c2) = [] -> Forall2 carries (messages ops) (delivered c2))
        (newConn fd2 client2 w2 a2)) (newConn fd1 client1 w1 a1).
Proof.
  eapply wp_mono; [apply wp_run_ops; [done|done|constructor|intros _; cbn; lia]|].
  cbv beta. intros e c1 Hw He Hcl Hwait fd2 client2 w2 a2 evs fuel Hin Hz Hroom Hfuel.
  destruct (Hw He Hcl) as (frs & Hfrs & Hwire). rewrite Hwait, app_nil_r in Hwire. cbn in Hwire.
  destruct (messages_carried _ _ Hlaw Hms Hfrs) as (fs & Hf & Hc). rewrite Hwire in Hin, Hz, Hroom.
  eapply wp_mono; [eapply wp_run_events, alive_new; [done..|]|].
  - rewrite Hin. by eapply sane_frames.
  - cbv beta. intros _ c2 Hal Hcl2 Hin2. eapply carried_delivered; [exact Hc|exact Hf|].
    eapply (all_delivered _ _ _ frs fs []); [exact Hal| |done| |done|done].
    + unfold stream. cbn. by rewrite Hin, app_nil_r.
    + apply incomplete_header. by intros Hl.
Qed.
End Channel.

(** ** The concrete world frames as the law says *)

Definition key_of (mv : Z) : Z := be32 (u8 (mv >> 24)) (u8 (mv >> 16)) (u8 (mv >> 8)) (u8 mv).

Lemma key_of_mod mv : key_of mv = mv mod 2 ^ 32.
Proof.
  unfold key_of. rewrite be32_val by apply u8_byte. rewrite !shr_div by lia. unfold u8. zarith.
Qed.

Lemma key_byte mv j : 0 <= j < 4 -> (key_of mv >> (8 * j)) .& 255 = (mv >> (8 * j)) .& 255.
Proof.
  intros Hj. rewrite key_of_mod. apply Z.bits_inj'. intros i Hi. rewrite !Z.land_spec, !Z.shiftr_spec by lia.
  change 255 with (Z.ones 8). destruct (Z.ltb_spec i 8) as [Hlt|Hge].
  - by rewrite Z.mod_pow2_bits_low by lia.
  - by rewrite Z.ones_spec_high, !andb_false_r by lia.
Qed.

Lemma mask_twice mv b : forall i, 0 <= i -> mask_from i (mask_from i b mv) (key_of mv) = b.
Proof.
  induction b as [|x b IH]; intros i Hi; cbn [mask_from]; [done|].
  rewrite key_byte by (apply Z.mod_pos_bound; lia). rewrite IH by lia. f_equal.
  by rewrite Z.lxor_assoc, Z.lxor_nilpotent, Z.lxor_0_r.
Qed.

Lemma zlen_mask b mv : forall i, zlen (mask_from i b mv) = zlen b.
Proof.
  unfold zlen. induction b as [|x b IH]; intros i; cbn [mask_from length]; [done|]. specialize (IH (i + 1)). lia.
Qed.

(** The second byte of a masked header. *)
Lemma mask_bit n : 0 <= n < 128 -> masked (n .| 0x80) = true /\ len7 (n .| 0x80) = n.
Proof.
  intros Hn. unfold masked, len7. split.
  - apply negb_true_iff, Z.eqb_neq. intros E. apply (f_equal (fun x => Z.testbit x 7)) in E.
    rewrite Z.land_spec, Z.lor_spec in E. change (Z.testbit 128 7) with true in E.
    change (Z.testbit (1 << 7) 7) with true in E. by rewrite orb_true_r in E.
  - rewrite Z.land_lor_distr_l. change (0x80 .& 0x7F) with 0. rewrite Z.lor_0_r.
    change 0x7F with (Z.ones 7). rewrite Z.land_ones by lia. apply Z.mod_small. lia.
Qed.

(** A masked header: the plain one with the mask bit and the key. *)
Lemma masked_header (b0 b1 : Z) (ext : bytes) n mv op :
  0 <= b1 < 128 -> zlen ext = rest_size b1 -> declared ([b0; b1] ++ ext) = n -> b0 .& 0xF = op ->
  header_of ([b0; b1 .| 0x80] ++ ext ++ [u8 mv; u8 (mv >> 8); u8 (mv >> 16); u8 (mv >> 24)])
            (mkHeader n op (key_of mv) true b0) /\
  declared ([b0; b1 .| 0x80] ++ ext ++ [u8 mv; u8 (mv >> 8); u8 (mv >> 16); u8 (mv >> 24)]) = n.
Proof.
  intros Hb1 Hext Hd Hop. destruct (mask_bit b1 Hb1) as [Hm Hl].
  set (key := [u8 mv; u8 (mv >> 8); u8 (mv >> 16); u8 (mv >> 24)]).
  unfold rest_size in Hext. 
  destruct (low_mask b1 Hb1) as [Hm0 Hl0]. rewrite Hm0, Hl0 in Hext.
  assert (forall h, whole_header h -> at_ h 0 = b0 -> at_ h 1 = b1 .| 0x80 -> declared h = n ->
    from (zlen h - 4) h = key -> header_of h (mkHeader n op (key_of mv) true b0) /\ declared h = n) as Hfin.
  { intros h Hw E0 E1 Hn Hk. split; [|done]. split; cbn; rewrite ?E0, ?E1, ?Hk; done. }
  destruct (Z.eqb_spec b1 126) as [->|]; [|destruct (Z.eqb_spec b1 127) as [->|]].
  - destruct ext as [|x [|y [|]]]; try (unfold zlen in Hext; cbn in Hext; lia). by apply Hfin.
  - do 8 (destruct ext as [|? ext]; [unfold zlen in Hext; cbn in Hext; lia|]).
    destruct ext as [|? ext]; [by apply Hfin|unfold zlen in Hext; cbn in Hext; lia].
  - destruct ext as [|? ext]; [|unfold zlen in Hext; cbn in Hext; lia].
    apply Hfin; try done.
    + unfold whole_header, rest_size. change (at_ _ 1) with (b1 .| 0x80). rewrite Hm, Hl.
      replace (b1 =? 126) with false by lia. by replace (b1 =? 127) with false by lia.
    + unfold declared in *. change (at_ _ 1) with (b1 .| 0x80). change (at_ _ 1) with b1 in Hd.
      rewrite Hl. rewrite Hl0 in Hd.
      replace (b1 =? 126) with false in * by lia. by replace (b1 =? 127) with false in * by lia.
Qed.

(** [wsHeader] splits into its two first bytes and the rest of the length. *)
Lemma wsHeader_split op n : 0 <= op < 16 -> 0 <= n < 2 ^ 63 ->
  exists b1 ext, wsHeader op n = [0x80 .| op; b1] ++ ext /\ 0 <= b1 < 128 /\ zlen ext = rest_size b1 /\
    declared ([0x80 .| op; b1] ++ ext) = n.
Proof.
  intros Hop Hn. assert (op .& 0x0F = op) as Hlow
    by (change 0x0F with (Z.ones 4); rewrite Z.land_ones by lia; apply Z.mod_small; lia).
  unfold wsHeader. rewrite Hlow.
  destruct (Z.leb_spec n 125) as [H1|H1]; [|destruct (Z.leb_spec n 65535) as [H2|H2]].
  - assert (u8 n = n) as -> by (apply Z.mod_small; lia). destruct (low_mask n) as [Hm Hl]; [lia|].
    exists n, []. split; [done|]. split; [lia|]. unfold declared, rest_size.
    change (at_ _ 1) with n. rewrite Hm, Hl. replace (n =? 126) with false by lia.
    by replace (n =? 127) with false by lia.
  - exists 126, [u8 (n >> 8); u8 n]. split; [done|]. split; [lia|]. split; [done|].
    change (be16 (u8 (n >> 8)) (u8 n) = n). apply be16_put. lia.
  - exists 127, (put64 (u64 n)). split; [done|]. split; [lia|]. split; [done|].
    change (i64 (be64 (put64 (u64 n))) = n). by apply be64_put64.
Qed.

Lemma plain_frame_law : frame_law (H := plain_lib).
Proof.
  intros p isMask op mv Hop Hp. pose proof (zlen_nonneg p) as Hnn.
  assert (op .& 0x0F = op) as Hlow
    by (change 0x0F with (Z.ones 4); rewrite Z.land_ones by lia; apply Z.mod_small; lia).
  assert ((0x80 .| op) .& 0xF = op) as Hhead by (rewrite Z.land_lor_distr_l, Hlow; apply Z.lor_0_l).
  cbn [frame_bytes plain_lib]. unfold plain_frame. change (0x80 .| 0) with 0x80.
  destruct (wsHeader_split op (zlen p) Hop ltac:(lia)) as (b1 & ext & Hw & Hb1 & Hext & Hd).
  rewrite Hlow. destruct isMask.
  - rewrite Hw. change (from 1 ([0x80 .| op; b1] ++ ext)) with (b1 :: ext). change (at_ (b1 :: ext) 0) with b1.
    change (from 1 (b1 :: ext)) with ext.
    destruct (masked_header (0x80 .| op) b1 ext (zlen p) mv op Hb1 Hext Hd Hhead) as [Hh Hdecl].
    exists (mkFrame2 (mkHeader (zlen p) op (key_of mv) true (0x80 .| op)) (mask_from 0 p mv)). split.
    + eexists. split; [|split; [exact Hh|]]; cbn [f_Payload].
      * by rewrite <- !app_assoc.
      * by rewrite zlen_mask, Hdecl.
    + apply carries_intro; [done|done|done|]. cbn [Mask MaskKey mask plain_lib]. apply mask_twice. lia.
  - exists (mkFrame2 (plain_header op (zlen p)) p). split; [|by apply wsHeader_carries].
    assert (0x80 .| op :: from 1 (wsHeader op (zlen p)) ++ p = wsHeader op (zlen p) ++ p) as ->
      by (by rewrite Hw).
    apply wsHeader_frame; lia.
Qed.

(** Messages over a slow socket, read in two pieces at the other end. *)
Definition sender_ops : list wire_op := [OpMessage Text [104; 105]; OpMessage Binary [1]; OpFlush; OpFlush].
Definition sender_world : plain_world := mkWorld [] [3; 0; 100; 100].

Lemma messages_arrive_witness :
  wp (run_ops plain_config recorder sender_ops) (fun e c1 =>
    e = None -> closed c1 = false -> waiting c1 = [] ->
    forall fd2 client2 w2 (a2 : list ws_event) evs fuel,
      incoming w2 = sent c1 -> zlen (sent c1) < 2 ^ 62 ->
      (forall n, 0 <= n < 128 \/ 0 <= n <= zlen (sent c1) -> roomy plain_config n) ->
      budget (newConn fd2 client2 w2 a2) <= Z.of_nat fuel ->
      wp (run_events plain_config recorder fuel evs) (fun _ c2 =>
        closed c2 = false -> incoming (world c2) = [] -> Forall2 carries (messages sender_ops) (delivered c2))
        (newConn fd2 client2 w2 a2)) (newConn 7 false sender_world ([] : list ws_event)) /\
  from_option (fun r => (fst r, sent (snd r), waiting (snd r), closed (snd r))) (None, [], [0], true)
    (run_ops plain_config recorder sender_ops (newConn 7 false sender_world [])) =
  (None, [129; 2; 104; 105; 130; 1; 1], [], false).
Proof.
  split; [|vm_compute; reflexivity].
  apply (messages_arrive (H := plain_lib) plain_config plain_config recorder recorder sender_ops 7 false sender_world []).
  - exact plain_frame_law.
  - reflexivity.
  - by repeat constructor.
Defined.
