(* ===== verification/WsFindings.v ===== *)
(** * WsFindings

    Behaviours of the websocket code that its comments or the protocol do not
    lead one to expect, each evaluated on a concrete input. *)

From S2P Require Import Prelude GoStd Sock WsState WsWrite WsRead WsPlain WsSafe WsWire WsStream.
From S2P Require Import WsParse WsRound WsEvents WsCallbacks.

(** The events a run shows, whether the connection is closed, what was sent. *)
Definition outcome (cfg : Config) (l : list bytes) : option (list ws_event * bool * bytes) :=
  (fun r => (app (snd r), closed (snd r), sent (snd r))) <$>
    run_events cfg recorder 100 hello_events (newConn 7 false (mkWorld l [100; 100]) []).

(** A Close frame without a code is answered and reported, but the connection
    stays open, and a later message is still delivered. *)
Example empty_close_stays_open :
  outcome plain_config [[136; 0]; [129; 1; 72]] =
  Some ([EvClose (Some (ErrClose NormalClosure "")); EvMessage Text [72]], false,
        [136; 15; 3; 232] ++ bytes_of_string "NormalClosure").
Proof. vm_compute. reflexivity. Qed.

(** The reason of a Close frame loses its first byte. *)
Example reason_loses_a_byte :
  bytesToCloseErrMsg (put16 1000 ++ bytes_of_string "bye") = ErrClose 1000 "ye".
Proof. vm_compute. reflexivity. Qed.

(** A 64-bit length with the top bit set is a negative [int64] and panics. *)
Example negative_length_panics :
  outcome plain_config [[130; 127; 255; 0; 0; 0; 0; 0; 0; 0; 1]] = None.
Proof. vm_compute. reflexivity. Qed.

Definition limited_config : Config :=
  mkConfig true false (fun _ => true) two32 2 false true false false.

(** A message over the limit closes the connection without the close frame:
    [errors.As] asks for a pointer to a [StatusCode] and the error holds a
    value. *)
Example too_big_sends_no_close :
  outcome limited_config [[130; 3; 1; 2; 3]] =
  Some ([EvClose (Some (Wrapped "read header err: " (ErrStatusCode TooBigMessage)))], true, []).
Proof. vm_compute. reflexivity. Qed.

Definition utf8_config : Config :=
  mkConfig true false (fun _ => false) two32 0 false true false false.

(** A text that is not UTF-8: the user is told [io.EOF] for a single frame and
    the reason for a message in fragments. *)
Example not_utf8_reason_depends :
  outcome utf8_config [[129; 1; 255]] = Some ([EvClose (Some EOF)], true, []) /\
  outcome utf8_config [[1; 1; 255]; [128; 1; 255]] = Some ([EvClose (Some ErrTextNotUTF8)], true, []).
Proof. split; vm_compute; reflexivity. Qed.

(** What the code does not look at.  A server takes frames without a mask. *)
Example unmasked_accepted :
  violates plain_config false None (mkFrame2 (mkHeader 129 Text 1 false 0) [72]) Masking /\
  outcome plain_config [[129; 1; 72]] = Some ([EvMessage Text [72]], false, []).
Proof. split; [by constructor|]. vm_compute. reflexivity. Qed.

Definition deflate_config : Config :=
  mkConfig true false (fun _ => true) two32 0 false true false true.

(** With decompression, RSV1 passes on a ping and on a continuation inside a
    message in fragments. *)
Example rsv1_accepted_inside :
  outcome deflate_config [[193; 0]; [201; 0]] =
    Some ([EvMessage Text []; EvClose (Some (rsv_error (mkFrame2 (mkHeader 201 Ping 0 false 0) [])))], true,
          [136; 15; 3; 234] ++ bytes_of_string "ProtocolError") /\
  outcome deflate_config [[65; 0]; [201; 0]; [192; 1; 72]] =
    Some ([EvMessage Ping []; EvMessage Text [72]], false, [138; 0]).
Proof. split; vm_compute; reflexivity. Qed.

(** Without the UTF-8 check, which is off by default, the reason of a Close may be
    anything. *)
Example reason_not_looked_at :
  outcome plain_config [[136; 3; 3; 232; 255]] =
  Some ([EvClose (Some (ErrClose 1000 ""))], true, [136; 3; 3; 232; 255]).
Proof. vm_compute. reflexivity. Qed.

(** A ping and a frame with a wrong opcode: alone, each is answered.  In one read
    the answers are corked, the connection is closed before the cork ends, and
    neither the pong nor the Close frame is sent. *)
Example corked_refusal_lost :
  outcome plain_config [[137; 0]; [131; 0]] =
    Some ([EvMessage Ping []; EvClose (Some ErrOpcode)], true,
          [138; 0; 136; 15; 3; 234] ++ bytes_of_string "ProtocolError") /\
  outcome plain_config [[137; 0; 131; 0]] =
    Some ([EvMessage Ping []; EvClose (Some ErrOpcode)], true, []).
Proof. split; vm_compute; reflexivity. Qed.
