(* ===== verification/WsHandshake.v ===== *)
(** * WsHandshake

    The HTTP part of a websocket: what the TCP server reads and answers
    ([websocket/server_tcp.go]), what the server on [net/http] checks and answers
    ([server_handshake.go], [upgrade.go]), what the client asks and checks
    ([client.go], [utils.go]).  SHA-1 and base64 of Go's library come first. *)

From S2P Require Import Prelude GoStd.

(** ** SHA-1 *)

Definition rotl32 (n x : Z) : Z := u32 (x << n) .| (x >> (32 - n)).
Definition add32 (x y : Z) : Z := u32 (x + y).
Definition not32 (x : Z) : Z := Z.lxor x 0xffffffff.

(** The function and the constant of round [t]. *)
Definition sha1_f (t b c d : Z) : Z :=
  if t <? 20 then (b .& c) .| (not32 b .& d)
  else if t <? 40 then Z.lxor (Z.lxor b c) d
  else if t <? 60 then (b .& c) .| (b .& d) .| (c .& d)
  else Z.lxor (Z.lxor b c) d.
Definition sha1_k (t : Z) : Z :=
  if t <? 20 then 0x5a827999 else if t <? 40 then 0x6ed9eba1
  else if t <? 60 then 0x8f1bbcdc else 0xca62c1d6.

Record sha1_words : Type := Words { wa : Z; wb : Z; wc : Z; wd : Z; we : Z }.

Definition sha1_init : sha1_words :=
  Words 0x67452301 0xefcdab89 0x98badcfe 0x10325476 0xc3d2e1f0.

(** The last sixteen words of the message schedule slide along: the next one
    comes from those 3, 8, 14 and 16 places back. *)
Fixpoint sha1_rounds (n : nat) (t : Z) (w : list Z) (s : sha1_words) : sha1_words :=
  match n with
  | O => s
  | S n =>
      let temp := add32 (add32 (add32 (add32 (rotl32 5 (wa s)) (sha1_f t (wb s) (wc s) (wd s)))
                    (we s)) (at_ w 0)) (sha1_k t) in
      let next := rotl32 1 (Z.lxor (Z.lxor (at_ w 13) (at_ w 8)) (Z.lxor (at_ w 2) (at_ w 0))) in
      sha1_rounds n (t + 1) (from 1 w ++ [next])
        (Words temp (wa s) (rotl32 30 (wb s)) (wc s) (wd s))
  end.

Fixpoint words32 (n : nat) (l : bytes) : list Z :=
  match n with
  | O => []
  | S n => be32 (at_ l 0) (at_ l 1) (at_ l 2) (at_ l 3) :: words32 n (from 4 l)
  end.

Definition sha1_block (s : sha1_words) (b : bytes) : sha1_words :=
  let r := sha1_rounds 80 0 (words32 16 b) s in
  Words (add32 (wa s) (wa r)) (add32 (wb s) (wb r)) (add32 (wc s) (wc r))
    (add32 (wd s) (wd r)) (add32 (we s) (we r)).

Fixpoint sha1_blocks (n : nat) (s : sha1_words) (l : bytes) : sha1_words :=
  match n with
  | O => s
  | S n => sha1_blocks n (sha1_block s (upto 64 l)) (from 64 l)
  end.

(** The message, a bit 1, zeros, and its length in bits. *)
Definition sha1_pad (m : bytes) : bytes :=
  m ++ [0x80] ++ replicate (Z.to_nat ((55 - zlen m) mod 64)) 0 ++ put64 (u64 (8 * zlen m)).

Definition sha1_Sum (m : bytes) : bytes :=
  let p := sha1_pad m in
  let s := sha1_blocks (length p / 64) sha1_init p in
  put32 (wa s) ++ put32 (wb s) ++ put32 (wc s) ++ put32 (wd s) ++ put32 (we s).

Definition hex_digit (c : Z) : Z := if c <? 58 then c - 48 else c - 87.
Fixpoint of_hex_aux (n : nat) (l : bytes) : bytes :=
  match n with
  | O => []
  | S n => (hex_digit (at_ l 0) * 16 + hex_digit (at_ l 1)) :: of_hex_aux n (from 2 l)
  end.
Definition of_hex (s : string) : bytes :=
  let l := bytes_of_string s in of_hex_aux (length l / 2) l.

Example sha1_empty : sha1_Sum [] = of_hex "da39a3ee5e6b4b0d3255bfef95601890afd80709".
Proof. by vm_compute. Qed.
Example sha1_abc : sha1_Sum (bytes_of_string "abc") = of_hex "a9993e364706816aba3e25717850c26c9cd0d89d".
Proof. by vm_compute. Qed.
Example sha1_two_blocks :
  sha1_Sum (bytes_of_string "abcdbcdecdefdefgefghfghighijhijkijkljklmklmnlmnomnopnopq") =
  of_hex "84983e441c3bd26ebaae4aa1f95129e5e54670f1".
Proof. by vm_compute. Qed.

Lemma sha1_Sum_len m : zlen (sha1_Sum m) = 20.
Proof. done. Qed.
Lemma sha1_Sum_bytes m : bytes_ok (sha1_Sum m).
Proof. unfold sha1_Sum. repeat apply bytes_ok_app_2; apply put32_ok. Qed.

(** The padded message is a whole number of blocks. *)
Lemma sha1_pad_blocks m : zlen (sha1_pad m) mod 64 = 0.
Proof.
  unfold sha1_pad. rewrite !zlen_app. unfold zlen. rewrite length_replicate.
  change (length [0x80]) with 1%nat. change (length (put64 _)) with 8%nat.
  assert (0 <= (55 - Z.of_nat (length m)) mod 64 < 64) by (apply Z.mod_pos_bound; lia).
  rewrite Z2Nat.id by lia. zarith.
Qed.

(** ** Base64 *)

Definition b64_char (x : Z) : Z :=
  if x <? 26 then 65 + x else if x <? 52 then 71 + x
  else if x <? 62 then x - 4 else if x =? 62 then 43 else 47.

(** [base64.StdEncoding.Encode]: three bytes become four characters. *)
Fixpoint b64_encode (l : bytes) : bytes :=
  match l with
  | [] => []
  | [a] => [b64_char (a >> 2); b64_char ((a .& 3) << 4); 61; 61]
  | [a; b] => [b64_char (a >> 2); b64_char ((a .& 3) << 4 .| b >> 4); b64_char ((b .& 15) << 2); 61]
  | a :: b :: c :: l =>
      b64_char (a >> 2) :: b64_char ((a .& 3) << 4 .| b >> 4) ::
      b64_char ((b .& 15) << 2 .| c >> 6) :: b64_char (c .& 63) :: b64_encode l
  end.

Example b64_vectors :
  (fun s => string_of_bytes (b64_encode (bytes_of_string s))) <$> ["f"; "fo"; "foo"; "foob"; "fooba"; "foobar"] =
  ["Zg=="; "Zm8="; "Zm9v"; "Zm9vYg=="; "Zm9vYmE="; "Zm9vYmFy"].
Proof. by vm_compute. Qed.

(** Every character is printable and none of them ends a line. *)
Definition b64_ok (c : Z) : Prop := 43 <= c <= 122.

Lemma b64_char_ok x : 0 <= x < 64 -> b64_ok (b64_char x).
Proof.
  intros H. unfold b64_ok, b64_char.
  repeat match goal with |- context [if ?b then _ else _] => destruct b eqn:? end; lia.
Qed.

(** Bits kept by a mask, and bits moved up beside them. *)
Lemma b64_low x n : 0 <= n -> 0 <= x -> 0 <= x .& (2 ^ n - 1) < 2 ^ n.
Proof.
  intros Hn Hx.
  replace (2 ^ n - 1) with (Z.ones n) by (rewrite Z.ones_equiv; lia).
  rewrite Z.land_ones by lia. apply Z.mod_pos_bound. lia.
Qed.
Lemma b64_join x y : 0 <= x < 64 -> 0 <= y < 64 -> 0 <= x .| y < 64.
Proof.
  intros Hx Hy. split; [apply Z.lor_nonneg; lia|].
  destruct (Z.eq_dec (x .| y) 0) as [->|Hz]; [lia|].
  assert (0 <= x .| y) by (apply Z.lor_nonneg; lia).
  apply Z.log2_lt_pow2 with (b := 6); [lia|]. rewrite Z.log2_lor by lia.
  apply Z.max_lub_lt.
  - destruct (Z.eq_dec x 0) as [->|]; [done|]. apply Z.log2_lt_pow2; lia.
  - destruct (Z.eq_dec y 0) as [->|]; [done|]. apply Z.log2_lt_pow2; lia.
Qed.

Lemma b64_encode_len n l : (length l <= n)%nat -> zlen (b64_encode l) = 4 * ((zlen l + 2) / 3).
Proof.
  revert l. induction n as [|n IH]; intros [|a [|b [|c l]]] Hl; try done; [cbn in Hl; lia|].
  cbn [b64_encode]. rewrite !zlen_cons, (IH l) by (cbn in Hl; lia).
  replace (1 + (1 + (1 + zlen l)) + 2) with (zlen l + 2 + 1 * 3) by lia. rewrite Z.div_add by lia. lia.
Qed.

Lemma b64_encode_ok n l : (length l <= n)%nat -> bytes_ok l -> Forall b64_ok (b64_encode l).
Proof.
  assert (forall a, is_byte a -> 0 <= a >> 2 < 64 /\ 0 <= (a .& 3) << 4 < 64 /\ 0 <= a >> 4 < 16 /\
    0 <= (a .& 15) << 2 < 64 /\ 0 <= a >> 6 < 4 /\ 0 <= a .& 63 < 64) as Hb.
  { intros a [H0 H1]. assert (0 <= a .& 3 < 4) by exact (b64_low a 2 ltac:(lia) H0).
    assert (0 <= a .& 15 < 16) by exact (b64_low a 4 ltac:(lia) H0).
    assert (0 <= a .& 63 < 64) by exact (b64_low a 6 ltac:(lia) H0).
    rewrite !Z.shiftl_mul_pow2, !shr_div by lia. change (2 ^ 2) with 4. change (2 ^ 4) with 16. change (2 ^ 6) with 64.
    split_and!; try lia; try (apply Z.div_pos; lia); apply Z.div_lt_upper_bound; lia. }
  assert (b64_ok 61) by (unfold b64_ok; lia).
  revert l. induction n as [|n IH]; intros [|a [|b [|c l]]] Hl Hok; try (by constructor); try (exfalso; cbn in Hl; lia).
  all: repeat (apply Forall_cons in Hok as [? Hok]).
  all: repeat match goal with H : is_byte ?x |- _ => apply Hb in H as (? & ? & ? & ? & ? & ?) end.
  all: cbn [b64_encode]; repeat (apply Forall_cons; split);
    try (apply b64_char_ok; first [assumption|apply b64_join; first [assumption|lia]]); try done.
  apply IH; [cbn in Hl; lia|done].
Qed.

Notation str := bytes_of_string.

(** ** Functions of Go's library *)

Definition CRLF : bytes := [13; 10].

(** [bytes.Index(l, "\r\n")], [-1] when absent. *)
Fixpoint IndexCRLF_from (i : Z) (l : bytes) : Z :=
  match l with
  | [] => -1
  | c :: l' =>
      match l' with
      | d :: _ => if (c =? 13) && (d =? 10) then i else IndexCRLF_from (i + 1) l'
      | [] => -1
      end
  end.
Definition IndexCRLF (l : bytes) : Z := IndexCRLF_from 0 l.

(** [bytes.Contains(l, sub)]. *)
Fixpoint Contains (sub l : bytes) : bool :=
  match strip_prefix sub l with
  | Some _ => true
  | None => match l with [] => false | _ :: l' => Contains sub l' end
  end.

(** [copy(dst[n:], src)] into an array of [size] bytes that holds [n] bytes. *)
Definition copy_into (size : Z) (got src : bytes) : bytes := got ++ upto (size - zlen got) src.

(** [http.Header]: the values of each canonical key, in the order they were
    added. *)
Notation Header := (gmap string (list string)).
Definition Header_Get (h : Header) (key : string) : string :=
  default "" (head (default [] (h !! key))).
Definition Header_Add (key value : string) (h : Header) : Header :=
  <[key := default [] (h !! key) ++ [value]]> h.

(** [strings.EqualFold] with a second string of ASCII characters: the letters
    k and s have one more form each, U+212A and U+017F. *)
Definition to_lower (c : Z) : Z := if (65 <=? c) && (c <=? 90) then c + (97 - 65) else c.
Fixpoint fold_runes (l : bytes) : bytes :=
  match l with
  | 226 :: 132 :: 170 :: l => 107 :: fold_runes l
  | 197 :: 191 :: l => 115 :: fold_runes l
  | c :: l => to_lower c :: fold_runes l
  | [] => []
  end.
Definition EqualFold (s t : string) : bool :=
  bool_decide (fold_runes (bytes_of_string s) = to_lower <$> bytes_of_string t).

(** ** [server_tcp.go]: the request *)

Record handshakeRequest : Type := mkReq {
  hr_method : bytes;
  hr_path : bytes;
  hr_proto : bytes;
  hr_key : bytes;
  hr_version : bytes;
  hr_upgrade : bytes;
  hr_conn : bytes;
  hr_host : bytes;
  hr_protocol : bytes;
  hr_isUpgrade : bool;
}.
Definition set_line (m p v : bytes) (r : handshakeRequest) : handshakeRequest :=
  mkReq m p v (hr_key r) (hr_version r) (hr_upgrade r) (hr_conn r) (hr_host r) (hr_protocol r) (hr_isUpgrade r).
Definition set_key (x : bytes) (r : handshakeRequest) : handshakeRequest :=
  mkReq (hr_method r) (hr_path r) (hr_proto r) x (hr_version r) (hr_upgrade r) (hr_conn r) (hr_host r) (hr_protocol r) (hr_isUpgrade r).
Definition set_version (x : bytes) (r : handshakeRequest) : handshakeRequest :=
  mkReq (hr_method r) (hr_path r) (hr_proto r) (hr_key r) x (hr_upgrade r) (hr_conn r) (hr_host r) (hr_protocol r) (hr_isUpgrade r).
Definition set_upgrade (x : bytes) (r : handshakeRequest) : handshakeRequest :=
  mkReq (hr_method r) (hr_path r) (hr_proto r) (hr_key r) (hr_version r) x (hr_conn r) (hr_host r) (hr_protocol r) (hr_isUpgrade r).
Definition set_conn (x : bytes) (r : handshakeRequest) : handshakeRequest :=
  mkReq (hr_method r) (hr_path r) (hr_proto r) (hr_key r) (hr_version r) (hr_upgrade r) x (hr_host r) (hr_protocol r) (hr_isUpgrade r).
Definition set_host (x : bytes) (r : handshakeRequest) : handshakeRequest :=
  mkReq (hr_method r) (hr_path r) (hr_proto r) (hr_key r) (hr_version r) (hr_upgrade r) (hr_conn r) x (hr_protocol r) (hr_isUpgrade r).
Definition set_protocol (x : bytes) (r : handshakeRequest) : handshakeRequest :=
  mkReq (hr_method r) (hr_path r) (hr_proto r) (hr_key r) (hr_version r) (hr_upgrade r) (hr_conn r) (hr_host r) x (hr_isUpgrade r).
Definition set_isUpgrade (x : bool) (r : handshakeRequest) : handshakeRequest :=
  mkReq (hr_method r) (hr_path r) (hr_proto r) (hr_key r) (hr_version r) (hr_upgrade r) (hr_conn r) (hr_host r) (hr_protocol r) x.
Definition emptyRequest : handshakeRequest := mkReq [] [] [] [] [] [] [] [] [] false.

(** The loop over [i] takes both arguments apart; they have the same length. *)
Fixpoint fold_loop (a b : bytes) : bool :=
  match a, b with
  | ca :: a, cb :: b => if to_lower ca =? to_lower cb then fold_loop a b else false
  | _, _ => true
  end.
Definition equalFoldASCII (a b : bytes) : bool :=
  if negb (zlen a =? zlen b) then false else fold_loop a b.

Section Parse.
Context {S : Type}.
Notation go A := (M S A).

Fixpoint contains_loop (fuel : nat) (i : Z) (a b : bytes) : go bool :=
  match fuel with
  | O => panic
  | Datatypes.S fuel =>
      if i + zlen b <=? zlen a then
        w ← reslice a i (i + zlen b);
        if equalFoldASCII w b then mret true else contains_loop fuel (i + 1) a b
      else mret false
  end.
Definition containsFoldASCII (a b : bytes) : go bool :=
  if zlen b =? 0 then mret true
  else if zlen a <? zlen b then mret false
  else contains_loop (Datatypes.S (length a)) 0 a b.

Definition is_ows (c : Z) : bool := (c =? 32) || (c =? 9).
Fixpoint trim_left (b : bytes) : bytes :=
  match b with c :: b' => if is_ows c then trim_left b' else b | [] => [] end.
Fixpoint trim_right (fuel : nat) (b : bytes) : bytes :=
  match fuel with
  | O => b
  | Datatypes.S fuel =>
      if (0 <? zlen b) && is_ows (at_ b (zlen b - 1)) then trim_right fuel (upto (zlen b - 1) b) else b
  end.
Definition trimOWS (b : bytes) : bytes := let b := trim_left b in trim_right (length b) b.

Definition errBadLine : error := errorsNew "fio: bad request line".

(** The request line, without its end. *)
Definition parse_line (line : bytes) (r : handshakeRequest) : go (handshakeRequest + error) :=
  let sp1 := IndexByte line 32 in
  if sp1 <=? 0 then mret (inr errBadLine)
  else
    rest ← reslice line (sp1 + 1) (zlen line);
    let sp2 := IndexByte rest 32 in
    if sp2 <=? 0 then mret (inr errBadLine)
    else
      m ← reslice line 0 sp1;
      p ← reslice rest 0 sp2;
      v ← reslice rest (sp2 + 1) (zlen rest);
      mret (inl (set_line m p v r)).

(** The [switch] over the header names. *)
Definition take_header (name val : bytes) (r : handshakeRequest) : go handshakeRequest :=
  if equalFoldASCII name (str "sec-websocket-key") then mret (set_key val r)
  else if equalFoldASCII name (str "sec-websocket-version") then mret (set_version val r)
  else if equalFoldASCII name (str "upgrade") then mret (set_upgrade val r)
  else if equalFoldASCII name (str "connection") then mret (set_conn val r)
  else if equalFoldASCII name (str "host") then mret (set_host val r)
  else if equalFoldASCII name (str "sec-websocket-protocol") then
    let i := IndexByte val 44 in
    v ← (if 0 <=? i then reslice val 0 i else mret val);
    mret (set_protocol (trimOWS v) r)
  else mret r.

Fixpoint headers_loop (fuel : nat) (b : bytes) (r : handshakeRequest) : go handshakeRequest :=
  match fuel with
  | O => panic
  | Datatypes.S fuel =>
      if zlen b =? 0 then mret r
      else
        let i := IndexCRLF b in
        '(ln, b) ← (if 0 <=? i then
                      ln ← reslice b 0 i; b' ← reslice b (i + 2) (zlen b); mret (ln, b')
                    else mret (b, []));
        if zlen ln =? 0 then mret r
        else
          let colon := IndexByte ln 58 in
          if colon <=? 0 then headers_loop fuel b r
          else
            name ← reslice ln 0 colon;
            v ← reslice ln (colon + 1) (zlen ln);
            r ← take_header name (trimOWS v) r;
            headers_loop fuel b r
  end.

Definition errBadVersion : error := errorsNew "fio: unsupported websocket version".

Definition parseHandshake (b : bytes) : go (handshakeRequest + error) :=
  let i := IndexCRLF b in
  if i <? 0 then mret (inr errBadLine)
  else
    line ← reslice b 0 i;
    l ← parse_line line emptyRequest;
    match l with
    | inr e => mret (inr e)
    | inl r =>
        r ← headers_loop (Datatypes.S (length b)) b r;
        c ← containsFoldASCII (hr_conn r) (str "upgrade");
        let r := set_isUpgrade (equalFoldASCII (hr_upgrade r) (str "websocket") && c) r in
        if hr_isUpgrade r && ((zlen (hr_key r) =? 0) || negb (bool_decide (hr_version r = str "13")))
        then mret (inr errBadVersion)
        else mret (inl r)
    end.
End Parse.

(** ** [server_tcp.go]: the answers *)

Definition upgradeGUID : string := "258EAFA5-E914-47DA-95CA-C5AB0DC85B11".

Definition statusLine101 : bytes :=
  str "HTTP/1.1 101 Switching Protocols" ++ CRLF ++ str "Upgrade: websocket" ++ CRLF ++
  str "Connection: Upgrade" ++ CRLF ++ str "Sec-WebSocket-Accept: ".

Definition buildUpgradeResponse (req : handshakeRequest) : bytes :=
  let buf := copy_into 256 (copy_into 256 [] (hr_key req)) (str upgradeGUID) in
  let accept := b64_encode (sha1_Sum buf) in
  let out := statusLine101 ++ accept ++ CRLF in
  let out := if 0 <? zlen (hr_protocol req)
             then out ++ str "Sec-WebSocket-Protocol: " ++ hr_protocol req ++ CRLF else out in
  out ++ CRLF.

Definition httpStatusText (code : Z) : string :=
  if code =? 400 then "Bad Request" else if code =? 404 then "Not Found" else fmt_d code.

(** The block [writeHTTPError] writes. *)
Definition httpError (code : Z) (msg : string) : bytes :=
  let body := str msg ++ [10] in
  str "HTTP/1.1 " ++ str (fmt_d code) ++ str " " ++ str (httpStatusText code) ++ CRLF ++
  str "Content-Length: " ++ str (fmt_d (zlen body)) ++ CRLF ++
  str "Connection: close" ++ CRLF ++ CRLF ++ body.

(** ** [utils.go] *)

Definition secWebSocketAcceptVal (val : string) : string :=
  string_of_bytes (b64_encode (sha1_Sum (str val ++ str upgradeGUID))).

(** The key of sixteen random bytes. *)
Definition secWebSocketAccept (key : bytes) : string := string_of_bytes (b64_encode key).

(** ** [server_handshake.go] *)

(** [http.Request], as far as the server looks at it. *)
Record http_Request : Type := mkHttpRequest {
  q_Method : string;
  q_ProtoMajor : Z;
  q_ProtoMinor : Z;
  q_Host : string;
  q_Header : Header;
}.
Definition ProtoAtLeast (r : http_Request) (major minor : Z) : bool :=
  (major <? q_ProtoMajor r) || (q_ProtoMajor r =? major) && (minor <=? q_ProtoMinor r).

(** [deflate.PermessageDeflateConf] of [wsutil]. *)
Record PermessageDeflateConf : Type := mkPd {
  Enable : bool;
  Decompression : bool;
  Compression : bool;
  ServerContextTakeover : bool;
  ClientContextTakeover : bool;
  ServerMaxWindowBits : Z;
  ClientMaxWindowBits : Z;
}.
Definition noDeflate : PermessageDeflateConf := mkPd false false false false false 0 0.

Definition ErrWrongStatusCode : error := errorsNew "Wrong status code".
Definition ErrUpgradeFieldValue : error := errorsNew "The value of the upgrade field is not 'websocket'".
Definition ErrConnectionFieldValue : error := errorsNew "The value of the connection field is not 'upgrade'".
Definition ErrSecWebSocketAccept : error := errorsNew "The value of Sec-WebSocketAaccept field is invalid".
Definition ErrHostCannotBeEmpty : error := errorsNew "Host cannot be empty".
Definition ErrSecWebSocketKey : error := errorsNew "The value of SEC websocket key field is wrong".
Definition ErrSecWebSocketVersion : error :=
  errorsNew "The value of SEC websocket version field is wrong, not 13".
Definition ErrHTTPProtocolNotSupported : error := errorsNew "HTTP protocol not supported".
Definition ErrOnlyGETSupported : error := errorsNew "error:Only get methods are supported".
Definition ErrNotFoundHijacker : error := errorsNew "not found Hijacker".
Definition ErrEventLoopEmpty : error :=
  errorsNew "event loop is empty, Need to call WithServerMultiEventLoop or WithClientMultiEventLoop for configuration".
Definition ErrEventLoopNotStart : error := errorsNew "event loop not start".

Definition checkRequest (r : http_Request) : Z * option error :=
  if negb (bool_decide (q_Method r = "GET")) then
    (405, Some (errorfSuffix ErrOnlyGETSupported (" :" +:+ q_Method r)))
  else if negb (ProtoAtLeast r 1 1) then (505, Some ErrHTTPProtocolNotSupported)
  else if bool_decide (q_Host r = "") then (400, Some ErrHostCannotBeEmpty)
  else if negb (EqualFold (Header_Get (q_Header r) "Upgrade") "websocket") then (400, Some ErrUpgradeFieldValue)
  else if negb (EqualFold (Header_Get (q_Header r) "Connection") "Upgrade") then (400, Some ErrConnectionFieldValue)
  else if zlen (str (Header_Get (q_Header r) "Sec-Websocket-Key")) =? 0 then (400, Some ErrSecWebSocketKey)
  else if negb (bool_decide (Header_Get (q_Header r) "Sec-Websocket-Version" = "13"))
  then (426, Some ErrSecWebSocketVersion)
  else (0, None).

(** [strings.Split(s, ",")]. *)
Fixpoint split_comma (cur l : bytes) : list bytes :=
  match l with
  | [] => [cur]
  | c :: l => if c =? 44 then cur :: split_comma [] l else split_comma (cur ++ [c]) l
  end.

(** The two nested loops: the first name the client offers that the server
    knows. *)
Fixpoint subProtocol_loop (offered : list string) (known : list string) : option string :=
  match offered with
  | [] => None
  | p :: offered =>
      let p := TrimSpace p in
      if existsb (fun q => bool_decide (p = q)) known then Some p else subProtocol_loop offered known
  end.

Definition subProtocol (s : string) (subProtocols : list string) : string :=
  if bool_decide (s = "") then ""
  else
    let offered := string_of_bytes <$> split_comma [] (str s) in
    if 0 <? zlen subProtocols then default s (subProtocol_loop offered subProtocols) else s.

(** The response is written to an [io.Writer], whose [Write] returns a count
    and an error. *)
Section Respond.
Context {W : Type} (Write : bytes -> M W (Z * option error)).
Context (GenSecWebSocketExtensions : PermessageDeflateConf -> string).

Definition put (b : bytes) : M W (option error) := '(_, e) ← Write b; mret e.

Definition writeHeaderVal (val : bytes) : M W (option error) :=
  check (put val) (check (put CRLF) (mret None)).

Definition prepareWriteResponse (r : http_Request) (subProtocols : list string)
    (pd : PermessageDeflateConf) : M W (option error) :=
  check (put statusLine101) (
  let v := secWebSocketAcceptVal (Header_Get (q_Header r) "Sec-Websocket-Key") in
  check (writeHeaderVal (str v)) (
  check (if Decompression pd then
           check (put (str "Sec-WebSocket-Extensions: "))
             (check (put (str (GenSecWebSocketExtensions pd))) (put CRLF))
         else mret None) (
  let v := subProtocol (Header_Get (q_Header r) "Sec-Websocket-Protocol") subProtocols in
  check (if 0 <? zlen (str v) then
           check (put (str "Sec-WebSocket-Protocol: ")) (writeHeaderVal (str v))
         else mret None) (
  put CRLF)))).
End Respond.

(** [upgrade.go]: what of the extension both sides want. *)
Definition resetPermessageDeflate (pd conf : PermessageDeflateConf) : PermessageDeflateConf :=
  mkPd (Enable pd) (Enable pd && Decompression conf) (Enable pd && Compression conf)
    (Enable pd && ServerContextTakeover pd && ServerContextTakeover conf)
    (Enable pd && ClientContextTakeover pd && ClientContextTakeover conf)
    (ServerMaxWindowBits pd) (ClientMaxWindowBits pd).

(** ** [client.go] *)

(** The options of the client that the handshake reads, and the URL it was
    given; the header is the user's map, which the handshake writes to. *)
Record DialOption : Type := mkDial {
  d_Scheme : string;
  d_Header : Header;
  d_pd : PermessageDeflateConf;
}.
Definition set_Scheme (v : string) (d : DialOption) : DialOption := mkDial v (d_Header d) (d_pd d).
Definition add_header (k v : string) (d : DialOption) : DialOption :=
  mkDial (d_Scheme d) (Header_Add k v (d_Header d)) (d_pd d).

Section Client.
Context (GenSecWebSocketExtensions : PermessageDeflateConf -> string).
(** [http.NewRequest("GET", d.u.String(), nil)] may refuse the URL. *)
Context (NewRequest : string -> option error).

(** The request is known by its header; [key] is what [rng.Read] delivers. *)
Definition client_handshake (key : bytes) : M DialOption ((Header * string) + error) :=
  d ← get;
  if negb (bool_decide (d_Scheme d = "wss")) && negb (bool_decide (d_Scheme d = "ws")) then
    mret (inr (errorsNew ("Unknown scheme, only supports ws:// or wss://: got " +:+ d_Scheme d)))
  else
    modify (set_Scheme (if bool_decide (d_Scheme d = "wss") then "https" else "http")) ;;
    d ← get;
    match NewRequest (d_Scheme d) with
    | Some e => mret (inr e)
    | None =>
        modify (add_header "Upgrade" "websocket") ;;
        modify (add_header "Connection" "Upgrade") ;;
        let secWebSocket := secWebSocketAccept key in
        modify (add_header "Sec-Websocket-Key" secWebSocket) ;;
        modify (add_header "Sec-Websocket-Version" "13") ;;
        (if Decompression (d_pd d) && Compression (d_pd d) then
           modify (add_header "Sec-Websocket-Extensions" (GenSecWebSocketExtensions (d_pd d)))
         else mret tt) ;;
        h ← gets d_Header;
        mret (inl (h, secWebSocket))
    end.

Record http_Response : Type := mkResponse { StatusCode : Z; rsp_Header : Header }.

Definition validateRsp (rsp : http_Response) (secWebSocket : string) : option error :=
  if negb (StatusCode rsp =? 101) then
    Some (errorfSuffix ErrWrongStatusCode (" " +:+ fmt_d (StatusCode rsp)))
  else if negb (EqualFold (Header_Get (rsp_Header rsp) "Upgrade") "websocket") then Some ErrUpgradeFieldValue
  else if negb (EqualFold (Header_Get (rsp_Header rsp) "Connection") "Upgrade") then Some ErrConnectionFieldValue
  else if negb (EqualFold (Header_Get (rsp_Header rsp) "Sec-Websocket-Accept") (secWebSocketAcceptVal secWebSocket))
  then Some ErrSecWebSocketAccept
  else None.
End Client.

(** The example of RFC 6455, 1.3. *)
Example accept_rfc6455 : secWebSocketAcceptVal "dGhlIHNhbXBsZSBub25jZQ==" = "s3pPLMBiTxaQ9kYGzzhZRbK+xOo=".
Proof. by vm_compute. Qed.
