(* ===== verification/WsAgree.v ===== *)
(** * WsAgree

    The parser of the TCP server is the reference reader of a request, and a
    client and a server of the library agree: on the request, on the answer and
    on the accept value, over TCP and on [net/http]. *)

From S2P Require Import Prelude GoStd WsHandshake.

(** A byte that does not occur in a constant. *)
Ltac not_in := match goal with |- ?x ∉ ?l => apply (bool_decide_eq_true_1 (x ∉ l)); by vm_compute end.

(** ** Lines *)

(** The pieces between line ends; what follows the last one counts when it is
    not empty.  [cur] is the line so far. *)
Fixpoint split_lines (cur l : bytes) : list bytes :=
  match l with
  | [] => if bool_decide (cur = []) then [] else [cur]
  | c :: l' =>
      match l' with
      | d :: l'' => if (c =? 13) && (d =? 10) then cur :: split_lines [] l'' else split_lines (cur ++ [c]) l'
      | [] => [cur ++ [c]]
      end
  end.

(** The lines of a head: those before the first empty one. *)
Fixpoint until_empty (ls : list bytes) : list bytes :=
  match ls with
  | [] => []
  | l :: ls => if bool_decide (l = []) then [] else l :: until_empty ls
  end.
Definition head_lines (b : bytes) : list bytes := until_empty (split_lines [] b).

(** A field: a name, a colon, a value between optional white space. *)
Definition field_of (ln : bytes) : option (bytes * bytes) :=
  let colon := IndexByte ln 58 in
  if colon <=? 0 then None else Some (upto colon ln, trimOWS (from (colon + 1) ln)).

Definition head_fields (b : bytes) : list (bytes * bytes) := omap field_of (head_lines b).

(** The last value of a field, compared without case. *)
Definition last_value (name : string) (fs : list (bytes * bytes)) (d : bytes) : bytes :=
  fold_left (fun v f => if equalFoldASCII f.1 (str name) then f.2 else v) fs d.

(** The first line at the first two spaces. *)
Definition request_line (line : bytes) : option (bytes * bytes * bytes) :=
  let sp1 := IndexByte line 32 in
  let rest := from (sp1 + 1) line in
  let sp2 := IndexByte rest 32 in
  if (sp1 <=? 0) || (sp2 <=? 0) then None else Some (upto sp1 line, upto sp2 rest, from (sp2 + 1) rest).

Definition first_protocol (v : bytes) : bytes :=
  trimOWS (if 0 <=? IndexByte v 44 then upto (IndexByte v 44) v else v).

(** Some place where [b] stands in [a], up to case. *)
Definition occurs (a b : bytes) : Prop :=
  exists i, 0 <= i /\ i + zlen b <= zlen a /\ equalFoldASCII (slice i (i + zlen b) a) b = true.
#[export] Instance occurs_dec a b : Decision (occurs a b).
Proof.
  refine (cast_if (decide (Exists (fun n : nat => Z.of_nat n + zlen b <= zlen a /\
    equalFoldASCII (slice (Z.of_nat n) (Z.of_nat n + zlen b) a) b = true) (seq 0 (S (length a)))))).
  - apply Exists_exists in e as (n & _ & H1 & H2). exists (Z.of_nat n). split; [lia|done].
  - abstract (intros (i & H0 & H1 & H2); apply n, Exists_exists; exists (Z.to_nat i); rewrite Z2Nat.id by lia;
      split; [|done]; apply elem_of_seq; pose proof (zlen_nonneg b); unfold zlen in *; lia).
Defined.

(** ** The reference *)

(** What a request means: no loop, no buffer. *)
Definition read_request (b : bytes) : handshakeRequest + error :=
  match (if IndexCRLF b <? 0 then None else request_line (upto (IndexCRLF b) b)) with
  | None => inr errBadLine
  | Some (m, p, v) =>
      let value name := last_value name (head_fields b) [] in
      let upgrade := equalFoldASCII (value "upgrade") (str "websocket") &&
                     bool_decide (occurs (value "connection") (str "upgrade")) in
      let protocol := last_value "sec-websocket-protocol" (prod_map id first_protocol <$> head_fields b) [] in
      if upgrade && ((zlen (value "sec-websocket-key") =? 0) ||
                     negb (bool_decide (value "sec-websocket-version" = str "13")))
      then inr errBadVersion
      else inl (mkReq m p v (value "sec-websocket-key") (value "sec-websocket-version") (value "upgrade")
                  (value "connection") (value "host") protocol upgrade)
  end.

(** ** Names *)

Lemma fold_loop_eq a b : zlen a = zlen b -> fold_loop a b = true <-> to_lower <$> a = to_lower <$> b.
Proof.
  revert b. induction a as [|x a IH]; intros [|y b] Hl; cbn.
  - done.
  - rewrite zlen_nil, zlen_cons in Hl. pose proof (zlen_nonneg b). lia.
  - rewrite zlen_nil, zlen_cons in Hl. pose proof (zlen_nonneg a). lia.
  - rewrite !zlen_cons in Hl. destruct (Z.eqb_spec (to_lower x) (to_lower y)) as [E|E].
    + rewrite IH by lia. rewrite E. split; [by intros ->|by intros [= ->]].
    + split; [done|]. by intros [= ? ?].
Qed.

Lemma equalFoldASCII_spec a b : equalFoldASCII a b = true <-> to_lower <$> a = to_lower <$> b.
Proof.
  unfold equalFoldASCII. destruct (Z.eqb_spec (zlen a) (zlen b)) as [E|E]; cbn; [by apply fold_loop_eq|].
  split; [done|]. intros H%(f_equal length). rewrite !length_fmap in H. unfold zlen in E. lia.
Qed.

Lemma equalFoldASCII_other n a b : to_lower <$> str a <> to_lower <$> str b ->
  equalFoldASCII n (str a) = true -> equalFoldASCII n (str b) = false.
Proof.
  intros Hne Ha%equalFoldASCII_spec. apply not_true_is_false. intros Hb%equalFoldASCII_spec. congruence.
Qed.

(** ** Searching *)

Section Parsing.
Context {S : Type}.
Implicit Types s : S.

Lemma contains_loop_spec a b fuel : forall i s, 0 <= i -> 0 < zlen b -> zlen a - i < Z.of_nat fuel -> i <= zlen a ->
  exists r, contains_loop fuel i a b s = Some (r, s) /\
    (r = true <-> exists j, i <= j /\ j + zlen b <= zlen a /\ equalFoldASCII (slice j (j + zlen b) a) b = true).
Proof.
  induction fuel as [|fuel IH]; intros i s Hi H0 Hf Ha; [lia|]. cbn [contains_loop].
  destruct (Z.leb_spec (i + zlen b) (zlen a)) as [Hl|Hl].
  - unfold mbind, M_bind. rewrite reslice_ok by lia.
    destruct (equalFoldASCII _ _) eqn:E.
    { exists true. split; [done|]. split; [|done]. intros _. by exists i. }
    destruct (IH (i + 1) s) as (r & Hr & Hs); [lia..|]. exists r. split; [done|]. rewrite Hs.
    split; intros (j & Hj & H1 & H2); exists j; (split; [|done]); [lia|].
    destruct (decide (i = j)) as [->|]; [congruence|lia].
  - exists false. split; [done|]. split; [done|]. intros (j & Hj & H1 & _). lia.
Qed.

Lemma containsFoldASCII_spec a b s : containsFoldASCII a b s = Some (bool_decide (occurs a b), s).
Proof.
  unfold containsFoldASCII. pose proof (zlen_nonneg a). destruct (Z.eqb_spec (zlen b) 0) as [Hb|Hb].
  { apply zlen_zero in Hb as ->. rewrite bool_decide_true; [done|]. exists 0. split; [done|].
    change (zlen []) with 0. split; [lia|]. apply equalFoldASCII_spec. by rewrite slice_upto_from. }
  destruct (Z.ltb_spec (zlen a) (zlen b)) as [Hl|Hl].
  { rewrite bool_decide_false; [done|]. intros (i & H0 & H1 & _). lia. }
  destruct (contains_loop_spec a b (Datatypes.S (length a)) 0 s) as (r & -> & Hr);
    [lia|pose proof (zlen_nonneg b); lia|unfold zlen; lia|lia|].
  do 2 f_equal. destruct r; symmetry; [apply bool_decide_eq_true|apply bool_decide_eq_false].
  - by apply Hr.
  - intros Ho. by apply Hr in Ho.
Qed.

(** Where a line ends. *)
Lemma split_lines_cons cur c d l : split_lines cur (c :: d :: l) =
  if (c =? 13) && (d =? 10) then cur :: split_lines [] l else split_lines (cur ++ [c]) (d :: l).
Proof. done. Qed.
Lemma IndexCRLF_from_cons i c d l : IndexCRLF_from i (c :: d :: l) =
  if (c =? 13) && (d =? 10) then i else IndexCRLF_from (i + 1) (d :: l).
Proof. done. Qed.

Lemma IndexCRLF_from_spec l : forall i,
  (IndexCRLF_from i l = -1 /\ forall cur, split_lines cur l = if bool_decide (cur ++ l = []) then [] else [cur ++ l]) \/
  (exists a b, l = a ++ CRLF ++ b /\ IndexCRLF_from i l = i + zlen a /\
     forall cur, split_lines cur l = (cur ++ a) :: split_lines [] b).
Proof.
  induction l as [|c l IH]; intros i.
  { left. split; [done|]. intros cur. cbn. by rewrite app_nil_r. }
  destruct l as [|d l].
  { left. split; [done|]. intros cur. cbn. rewrite bool_decide_false; [done|]. by destruct cur. }
  rewrite IndexCRLF_from_cons. setoid_rewrite split_lines_cons. destruct ((c =? 13) && (d =? 10)) eqn:E.
  - right. exists [], l. assert (c = 13 /\ d = 10) as [-> ->] by lia.
    split; [done|]. split; [change (zlen []) with 0; lia|]. intros cur. by rewrite app_nil_r.
  - destruct (IH (i + 1)) as [[H1 H2]|(a & b & H1 & H2 & H3)].
    + left. split; [exact H1|]. intros cur. rewrite H2. by rewrite <- app_assoc.
    + right. exists (c :: a), b. split; [by rewrite H1|]. split; [rewrite zlen_cons, <- Z.add_assoc in *; lia|].
      intros cur. rewrite H3. by rewrite <- app_assoc.
Qed.

Lemma IndexCRLF_cases l :
  (IndexCRLF l = -1 /\ split_lines [] l = if bool_decide (l = []) then [] else [l]) \/
  (exists a b, l = a ++ CRLF ++ b /\ IndexCRLF l = zlen a /\ split_lines [] l = a :: split_lines [] b).
Proof.
  destruct (IndexCRLF_from_spec l 0) as [[H1 H2]|(a & b & H1 & H2 & H3)].
  - left. split; [done|]. by rewrite H2.
  - right. exists a, b. split; [done|]. split; [done|]. by rewrite H3.
Qed.

(** ** The loop over the headers *)

Lemma IndexByte_range l c : IndexByte l c = -1 \/ 0 <= IndexByte l c < zlen l.
Proof.
  unfold IndexByte. destruct (IndexByte_from_spec l c 0) as [[-> _]|(a & b & -> & _ & ->)]; [by left|right].
  pose proof (zlen_nonneg a). pose proof (zlen_nonneg b). rewrite zlen_app, zlen_cons. lia.
Qed.

(** [take_header] without its effects. *)
Definition header_step (r : handshakeRequest) (f : bytes * bytes) : handshakeRequest :=
  let '(name, val) := f in
  if equalFoldASCII name (str "sec-websocket-key") then set_key val r
  else if equalFoldASCII name (str "sec-websocket-version") then set_version val r
  else if equalFoldASCII name (str "upgrade") then set_upgrade val r
  else if equalFoldASCII name (str "connection") then set_conn val r
  else if equalFoldASCII name (str "host") then set_host val r
  else if equalFoldASCII name (str "sec-websocket-protocol") then set_protocol (first_protocol val) r
  else r.

Lemma slice_0 {A} k (l : list A) : slice 0 k l = upto k l.
Proof. by rewrite slice_upto_from, from_0, Z.sub_0_r. Qed.
Lemma slice_to_end {A} k (l : list A) : 0 <= k <= zlen l -> slice k (zlen l) l = from k l.
Proof. intros. rewrite slice_upto_from. apply upto_all. rewrite zlen_from by lia. pose proof (zlen_nonneg l). lia. Qed.

Lemma take_header_step name val r s : take_header name val r s = Some (header_step r (name, val), s).
Proof.
  unfold take_header, header_step. do 5 (destruct (equalFoldASCII name _); [done|]).
  destruct (equalFoldASCII name _); [|done]. unfold first_protocol. destruct (Z.leb_spec 0 (IndexByte val 44)) as [Hi|Hi]; [|done].
  unfold mbind, M_bind. destruct (IndexByte_range val 44); [lia|].
  rewrite reslice_ok by lia. by rewrite slice_0.
Qed.

Lemma headers_loop_fold fuel : forall b r s, zlen b < Z.of_nat fuel ->
  headers_loop fuel b r s = Some (fold_left header_step (head_fields b) r, s).
Proof.
  induction fuel as [|fuel IH]; intros b r s Hf; [pose proof (zlen_nonneg b); lia|]. cbn [headers_loop].
  destruct (Z.eqb_spec (zlen b) 0) as [->%zlen_zero|Hb]; [done|].
  assert (forall ln b' r0, zlen b' < Z.of_nat fuel ->
    (if zlen ln =? 0 then mret r0 else
     let colon := IndexByte ln 58 in
     if colon <=? 0 then headers_loop fuel b' r0 else
       name ← reslice ln 0 colon; v ← reslice ln (colon + 1) (zlen ln);
       r1 ← take_header name (trimOWS v) r0; headers_loop fuel b' r1) s =
    Some (fold_left header_step (omap field_of (until_empty (ln :: split_lines [] b'))) r0, s)) as Hrest.
  { intros ln b' r0 Hb'. cbn [until_empty]. destruct (Z.eqb_spec (zlen ln) 0) as [->%zlen_zero|Hl]; [done|].
    rewrite bool_decide_false by (intros ->; by apply Hl). cbn. unfold field_of at 1.
    destruct (Z.leb_spec (IndexByte ln 58) 0) as [Hc|Hc]; [by apply IH|].
    unfold mbind, M_bind. destruct (IndexByte_range ln 58); [lia|].
    rewrite !reslice_ok by lia. rewrite take_header_step, IH, slice_0, slice_to_end by lia. done. }
  unfold head_fields, head_lines.
  destruct (IndexCRLF_cases b) as [[-> ->]|(a & b' & E & -> & ->)]; cbn [Z.leb Z.compare].
  - rewrite bool_decide_false by (intros ->; done). apply (Hrest b []). pose proof (zlen_nonneg b).
    change (zlen []) with 0. lia.
  - pose proof (zlen_nonneg a). pose proof (zlen_nonneg b').
    assert (zlen b = zlen a + 2 + zlen b') as Hz by (rewrite E, !zlen_app; change (zlen CRLF) with 2; lia).
    replace (0 <=? zlen a) with true by lia. unfold mbind at 1, M_bind at 1.
    unfold mbind at 1, M_bind at 1. rewrite reslice_ok by lia.
    unfold mbind at 1, M_bind at 1. rewrite reslice_ok by lia. cbn [mret M_ret].
    rewrite slice_0, slice_to_end by lia.
    assert (upto (zlen a) b = a) as -> by (rewrite E; apply upto_app_length).
    assert (from (zlen a + 2) b = b') as ->.
    { rewrite E, app_assoc. replace (zlen a + 2) with (zlen (a ++ CRLF)) by (rewrite zlen_app; done).
      apply from_app_length. }
    apply Hrest. lia.
Qed.

(** ** Fields of the result *)

Lemma header_step_line fs : forall r, let r' := fold_left header_step fs r in
  hr_method r' = hr_method r /\ hr_path r' = hr_path r /\ hr_proto r' = hr_proto r /\ hr_isUpgrade r' = hr_isUpgrade r.
Proof.
  induction fs as [|[n v] fs IH]; intros r; [done|]. cbn [fold_left].
  destruct (IH (header_step r (n, v))) as (-> & -> & -> & ->). unfold header_step. by repeat case_match.
Qed.

Lemma header_step_values fs : forall r, let r' := fold_left header_step fs r in
  hr_key r' = last_value "sec-websocket-key" fs (hr_key r) /\
  hr_version r' = last_value "sec-websocket-version" fs (hr_version r) /\
  hr_upgrade r' = last_value "upgrade" fs (hr_upgrade r) /\
  hr_conn r' = last_value "connection" fs (hr_conn r) /\
  hr_host r' = last_value "host" fs (hr_host r) /\
  hr_protocol r' = last_value "sec-websocket-protocol" (prod_map id first_protocol <$> fs) (hr_protocol r).
Proof.
  induction fs as [|[n v] fs IH]; intros r; [done|]. cbn [fold_left].
  destruct (IH (header_step r (n, v))) as (-> & -> & -> & -> & -> & ->).
  unfold last_value. cbn [fmap list_fmap fold_left fst snd prod_map id]. unfold header_step.
  split_and!; f_equal; repeat case_match; try done; exfalso;
    match goal with
    | H1 : equalFoldASCII n (str ?a) = true, H2 : equalFoldASCII n (str ?b) = true |- _ =>
        rewrite (equalFoldASCII_other n a b) in H2; [done|vm_compute; congruence|done]
    end.
Qed.

(** The parser computes the reference, whatever the bytes. *)
Lemma parseHandshake_reads b s : parseHandshake b s = Some (read_request b, s).
Proof.
  unfold parseHandshake, read_request. destruct (Z.ltb_spec (IndexCRLF b) 0) as [Hi|Hi]; [done|].
  destruct (IndexCRLF_cases b) as [[H _]|(a & b' & E & H & _)]; [lia|].
  assert (IndexCRLF b <= zlen b) as Hle.
  { rewrite H, E, zlen_app. pose proof (zlen_nonneg (CRLF ++ b')). lia. }
  unfold mbind at 1, M_bind at 1. rewrite reslice_ok by lia. rewrite slice_0.
  generalize (upto (IndexCRLF b) b) as line. intros line. unfold mbind at 1, M_bind at 1, parse_line, request_line.
  destruct (IndexByte_range line 32) as [->|H1]; [done|].
  destruct (Z.leb_spec (IndexByte line 32) 0) as [H2|H2]; [done|].
  unfold mbind at 1, M_bind at 1. rewrite reslice_ok, slice_to_end by lia. cbn [orb].
  generalize (from (IndexByte line 32 + 1) line) as rest. intros rest.
  destruct (IndexByte_range rest 32) as [->|H3]; [done|].
  destruct (Z.leb_spec (IndexByte rest 32) 0) as [H4|H4]; [done|].
  unfold mbind, M_bind. rewrite !reslice_ok by lia. rewrite !slice_0, slice_to_end by lia. cbn [mret M_ret].
  rewrite headers_loop_fold by (unfold zlen; lia). rewrite containsFoldASCII_spec.
  set (r0 := set_line _ _ _ _). pose proof (header_step_line (head_fields b) r0) as (E1 & E2 & E3 & _).
  pose proof (header_step_values (head_fields b) r0) as (E4 & E5 & E6 & E7 & E8 & E9).
  cbn [r0 set_line hr_method hr_path hr_proto hr_key hr_version hr_upgrade hr_conn hr_host hr_protocol] in *.
  set (r := fold_left _ _ _) in *. cbn [set_isUpgrade hr_isUpgrade hr_key hr_version].
  rewrite E4, E5, E6, E7. destruct (_ && _ && _); [done|]. unfold set_isUpgrade. by rewrite E1, E2, E3, E4, E5, E6, E7, E8, E9.
Qed.
End Parsing.

(** ** Writing a head *)

Definition render_field (f : bytes * bytes) : bytes := f.1 ++ str ": " ++ f.2.
Definition render_head (first : bytes) (fs : list (bytes * bytes)) : bytes :=
  concat ((fun l => l ++ CRLF) <$> (first :: (render_field <$> fs))) ++ CRLF.

(** A line that is one, a field that is one. *)
Definition line_ok (l : bytes) : Prop := l <> [] /\ (13 ∉ l).
Definition trimmed (v : bytes) : Prop := trimOWS (32 :: v) = v.
Definition field_ok (f : bytes * bytes) : Prop :=
  f.1 <> [] /\ (58 ∉ f.1) /\ (13 ∉ f.1) /\ (13 ∉ f.2) /\ trimmed f.2.

Lemma split_lines_one l b : forall cur, 13 ∉ l -> split_lines cur (l ++ CRLF ++ b) = (cur ++ l) :: split_lines [] b.
Proof.
  induction l as [|c l IH]; intros cur Hl; [by rewrite app_nil_r|].
  assert (c <> 13) as Hc by set_solver.
  transitivity (split_lines (cur ++ [c]) (l ++ CRLF ++ b)).
  - destruct l as [|d l]; cbn [app CRLF]; (rewrite split_lines_cons; by replace (c =? 13) with false by lia).
  - rewrite IH by set_solver. by rewrite <- app_assoc.
Qed.

Lemma head_lines_render ls b : Forall line_ok ls ->
  head_lines (concat ((fun l => l ++ CRLF) <$> ls) ++ CRLF ++ b) = ls.
Proof.
  unfold head_lines. induction 1 as [|l ls [Hl Hn] _ IH]; [done|]. cbn [fmap list_fmap concat].
  rewrite <- !app_assoc, split_lines_one by done. cbn [app until_empty]. by rewrite bool_decide_false, IH.
Qed.

Lemma render_field_line f : field_ok f -> line_ok (render_field f).
Proof.
  destruct f as [n v]. intros (Hn & _ & H1 & H2 & _). unfold render_field. split.
  - intros E. cbn in E. by destruct n.
  - cbn [fst snd]. assert (13 ∉ str ": ") by not_in. set_solver.
Qed.

Lemma field_of_render f : field_ok f -> field_of (render_field f) = Some f.
Proof.
  destruct f as [n v]. intros (Hn & Hc & _ & _ & Ht). unfold field_of, render_field. cbn [fst snd] in *.
  change (str ": ") with [58; 32]. cbn [app]. rewrite IndexByte_app by done.
  assert (0 < zlen n) by (destruct n; [done|rewrite zlen_cons; pose proof (zlen_nonneg n); lia]).
  replace (zlen n <=? 0) with false by lia. rewrite upto_app_length. do 2 f_equal.
  replace (n ++ 58 :: 32 :: v) with ((n ++ [58]) ++ 32 :: v) by by rewrite <- app_assoc.
  replace (zlen n + 1) with (zlen (n ++ [58])) by by rewrite zlen_app.
  by rewrite from_app_length.
Qed.

(** What was written is what is read, whatever follows the head.  The first
    line is no field unless it has a colon. *)
Lemma head_fields_render first fs b : line_ok first -> field_of first = None -> Forall field_ok fs ->
  head_fields (render_head first fs ++ b) = fs.
Proof.
  intros Hf Hno Hfs. unfold head_fields, render_head. rewrite <- app_assoc, head_lines_render.
  - cbn. rewrite Hno. induction Hfs as [|f fs Hok _ IH]; [done|]. cbn. by rewrite field_of_render, IH.
  - constructor; [done|]. apply Forall_fmap. eapply Forall_impl; [done|]. apply render_field_line.
Qed.

(** ** What the client reads *)

(** [http.CanonicalHeaderKey]. *)
Definition to_upper (c : Z) : Z := if (97 <=? c) && (c <=? 122) then c - (97 - 65) else c.
Fixpoint canonical (up : bool) (l : bytes) : bytes :=
  match l with
  | [] => []
  | c :: l => (if up then to_upper c else to_lower c) :: canonical (c =? 45) l
  end.
Definition CanonicalHeaderKey (n : bytes) : string := string_of_bytes (canonical true n).

(** The code of a status line: three digits behind the first space. *)
Definition status_code (line : bytes) : option Z :=
  let rest := from (IndexByte line 32 + 1) line in
  ParseUint (string_of_bytes (if 0 <=? IndexByte rest 32 then upto (IndexByte rest 32) rest else rest)) 16.

Definition add_field (h : Header) (f : bytes * bytes) : Header :=
  Header_Add (CanonicalHeaderKey f.1) (string_of_bytes f.2) h.

(** [http.ReadResponse], for a head whose lines end in CRLF. *)
Definition ReadResponse (b : bytes) : option http_Response :=
  match head_lines b with
  | [] => None
  | l :: ls => code ← status_code l; Some (mkResponse code (fold_left add_field (omap field_of ls) ∅))
  end.

(** The bytes [http.Request.Write] sends carry the values of a key: there is a
    field for each of them, in order, and no other field of that name. *)
Definition values_of (key : string) (fs : list (bytes * bytes)) : list bytes :=
  snd <$> filter (fun f => equalFoldASCII f.1 (str key) = true) fs.
Definition handshake_keys : list string :=
  ["Upgrade"; "Connection"; "Sec-Websocket-Key"; "Sec-Websocket-Version"].
Definition carries (fs : list (bytes * bytes)) (h : Header) : Prop :=
  Forall (fun key => values_of key fs = str <$> default [] (h !! key)) handshake_keys.

(** ** Values *)

Lemma values_of_fold a b fs : to_lower <$> str a = to_lower <$> str b -> values_of a fs = values_of b fs.
Proof.
  intros E. unfold values_of. f_equal. apply list_filter_iff. intros f. by rewrite !equalFoldASCII_spec, E.
Qed.

Lemma last_value_last name fs : forall d, last_value name fs d = default d (last (values_of name fs)).
Proof.
  induction fs as [|f fs IH] using rev_ind; intros d; [done|]. unfold last_value in *. rewrite fold_left_app. cbn.
  unfold values_of in *. rewrite filter_app, fmap_app, filter_cons. destruct (decide _) as [->|H].
  - cbn. by rewrite last_snoc.
  - apply not_true_is_false in H as ->. cbn. by rewrite app_nil_r.
Qed.

(** Names do not depend on the values beside them. *)
Lemma values_of_map g name fs : values_of name (prod_map id g <$> fs) = g <$> values_of name fs.
Proof.
  unfold values_of. induction fs as [|[n v] fs IH]; [done|]. cbn [fmap list_fmap prod_map id fst snd].
  rewrite !filter_cons. cbn [fst]. destruct (decide _); cbn; by rewrite IH.
Qed.

Lemma values_of_Forall (P : bytes -> Prop) name fs : Forall (fun f => P f.2) fs -> Forall P (values_of name fs).
Proof. intros H. unfold values_of. apply Forall_fmap, Forall_forall. intros f Hf%list_elem_of_filter.
  rewrite Forall_forall in H. apply H, Hf. Qed.

Lemma fold_runes_ascii l : Forall (fun c => 0 <= c < 128) l -> fold_runes l = to_lower <$> l.
Proof.
  induction 1 as [|c l Hc _ IH]; [done|]. cbn [fmap list_fmap]. rewrite <- IH.
  destruct c as [|p|p]; [done| |lia]. assert (Z.pos p <> 226 /\ Z.pos p <> 197) by lia.
  do 8 (destruct p as [p|p|]; try done; try lia).
Qed.

Lemma EqualFold_same s : Forall (fun c => 0 <= c < 128) (str s) -> EqualFold s s = true.
Proof. intros H. unfold EqualFold. rewrite fold_runes_ascii by done. by apply bool_decide_eq_true. Qed.

(** ** The accept value *)

Lemma accept_chars l : Forall b64_ok (b64_encode (sha1_Sum l)).
Proof. eapply b64_encode_ok; [reflexivity|]. apply sha1_Sum_bytes. Qed.

Lemma b64_ok_bytes l : Forall b64_ok l -> bytes_ok l.
Proof. intros H. eapply Forall_impl; [exact H|]. unfold b64_ok, is_byte. lia. Qed.

Lemma b64_ok_value l : Forall b64_ok l -> (13 ∉ l) /\ trimmed l.
Proof.
  intros H. assert (forall c, c ∈ l -> 43 <= c <= 122) as Hc by by apply Forall_forall.
  split; [intros Hi%Hc; lia|]. unfold trimmed, trimOWS. cbn [trim_left].
  assert (trim_left l = l) as ->.
  { destruct l as [|c l']; [done|]. cbn [trim_left]. assert (43 <= c <= 122) by (apply Hc; set_solver).
    unfold is_ows. by replace ((c =? 32) || (c =? 9)) with false by lia. }
  change (is_ows 32) with true. cbn match. destruct (length l) as [|n] eqn:E; [done|]. cbn [trim_right].
  destruct (Z.ltb_spec 0 (zlen l)) as [Hl|]; [|done]. cbn [andb].
  assert (43 <= at_ l (zlen l - 1) <= 122).
  { unfold at_. destruct (l !! Z.to_nat (zlen l - 1)) as [c|] eqn:Ec; cbn.
    - apply Hc. by eapply list_elem_of_lookup_2.
    - apply lookup_ge_None in Ec. unfold zlen in *. lia. }
  unfold is_ows. by replace ((_ =? 32) || (_ =? 9)) with false by lia.
Qed.

Lemma copy_into_fits size got src : zlen got + zlen src <= size -> copy_into size got src = got ++ src.
Proof. intros. unfold copy_into. by rewrite upto_all by lia. Qed.

Lemma response_accept req : zlen (hr_key req) <= 220 ->
  copy_into 256 (copy_into 256 [] (hr_key req)) (str upgradeGUID) = hr_key req ++ str upgradeGUID.
Proof.
  intros H. rewrite (copy_into_fits 256 []) by (change (zlen []) with 0; lia). apply copy_into_fits. cbn [app].
  change (zlen (str upgradeGUID)) with 36. lia.
Qed.

(** ** The response *)

Definition accept_fields (accept : bytes) : list (bytes * bytes) :=
  [(str "Upgrade", str "websocket"); (str "Connection", str "Upgrade"); (str "Sec-WebSocket-Accept", accept)].
Definition status101 : bytes := str "HTTP/1.1 101 Switching Protocols".
Definition accept_value (key : bytes) : bytes := b64_encode (sha1_Sum (key ++ str upgradeGUID)).

Definition first_is (k v : string) (h : Header) : Prop := exists vs, h !! k = Some (v :: vs).

Lemma add_field_first k v f h : first_is k v h -> first_is k v (add_field h f).
Proof.
  intros [vs E]. unfold first_is, add_field, Header_Add.
  destruct (decide (CanonicalHeaderKey f.1 = k)) as [->|H].
  - rewrite E, lookup_insert_eq. by eexists.
  - rewrite lookup_insert_ne by done. by eexists.
Qed.
Lemma add_fields_first k v fs h : first_is k v h -> first_is k v (fold_left add_field fs h).
Proof. revert h. induction fs as [|f fs IH]; intros h H; [done|]. cbn. by apply IH, add_field_first. Qed.
Lemma first_is_Get k v h : first_is k v h -> Header_Get h k = v.
Proof. intros [vs E]. unfold Header_Get. by rewrite E. Qed.

Lemma ReadResponse_head first fs b code : line_ok first -> status_code first = Some code -> Forall field_ok fs ->
  ReadResponse (render_head first fs ++ b) = Some (mkResponse code (fold_left add_field fs ∅)).
Proof.
  intros Hl Hc Hf. unfold ReadResponse, render_head. rewrite <- app_assoc, head_lines_render.
  - rewrite Hc. cbn. do 3 f_equal. induction Hf as [|f fs Hok _ IH]; [done|]. cbn. by rewrite field_of_render, IH.
  - constructor; [done|]. apply Forall_fmap. eapply Forall_impl; [exact Hf|]. apply render_field_line.
Qed.

Lemma value_const (l : bytes) : bool_decide (13 ∉ l) = true -> bool_decide (trimmed l) = true -> (13 ∉ l) /\ trimmed l.
Proof. by intros ?%bool_decide_eq_true ?%bool_decide_eq_true. Qed.

Lemma field_ok_const n v : bool_decide (n <> []) && bool_decide (58 ∉ n) && bool_decide (13 ∉ n) = true ->
  (13 ∉ v) /\ trimmed v -> field_ok (n, v).
Proof.
  intros [[H1%bool_decide_eq_true H2%bool_decide_eq_true]%andb_true_iff H3%bool_decide_eq_true]%andb_true_iff [H4 H5].
  by split_and!.
Qed.

(** A response with the right accept value is one the client takes, whatever
    fields follow. *)
Lemma response_valid sec fs : Forall field_ok fs -> exists rsp,
  ReadResponse (render_head status101 (accept_fields (accept_value (str sec)) ++ fs)) = Some rsp /\
  rsp_Header rsp = fold_left add_field fs (fold_left add_field (accept_fields (accept_value (str sec))) ∅) /\
  validateRsp rsp sec = None.
Proof.
  intros Hf. pose proof (accept_chars (str sec ++ str upgradeGUID)) as Ha.
  eexists. split.
  - rewrite <- (app_nil_r (render_head _ _)). apply ReadResponse_head.
    + split; [done|]. not_in.
    + by vm_compute.
    + apply Forall_app. split; [|done]. unfold accept_fields.
      do 2 (apply Forall_cons_2; [apply field_ok_const; [by vm_compute|by apply value_const]|]).
      apply Forall_cons_2; [|apply Forall_nil_2]. apply field_ok_const; [by vm_compute|]. by apply b64_ok_value.
  - rewrite fold_left_app. split; [done|].
    assert (forall k v, first_is k v (fold_left add_field (accept_fields (accept_value (str sec))) ∅) ->
      Header_Get (fold_left add_field fs (fold_left add_field (accept_fields (accept_value (str sec))) ∅)) k = v) as HG
      by (intros; by apply first_is_Get, add_fields_first).
    unfold validateRsp. cbn [StatusCode rsp_Header]. change (negb (101 =? 101)) with false. cbn match.
    rewrite (HG "Upgrade" "websocket"), (HG "Connection" "Upgrade"),
      (HG "Sec-Websocket-Accept" (secWebSocketAcceptVal sec)) by (by eexists).
    rewrite (EqualFold_same (secWebSocketAcceptVal sec)); [by vm_compute|].
    unfold secWebSocketAcceptVal. rewrite bytes_of_string_of_bytes by by apply b64_ok_bytes.
    eapply Forall_impl; [exact Ha|]. unfold b64_ok. lia.
Qed.

(** ** The request of the client *)

Section Request.
Context (Gen : PermessageDeflateConf -> string) (NewRequest : string -> option error).

Definition handshake_values (sec : string) : list (string * string) :=
  [("Upgrade", "websocket"); ("Connection", "Upgrade"); ("Sec-Websocket-Key", sec); ("Sec-Websocket-Version", "13")].

(** A scheme of websocket and a URL that [net/http] takes. *)
Definition dialable (d : DialOption) : Prop :=
  (d_Scheme d = "ws" \/ d_Scheme d = "wss") /\ forall s, NewRequest s = None.

(** The handshake adds its values behind those the user has put there. *)
Lemma client_handshake_header key d : dialable d -> exists h d',
  client_handshake Gen NewRequest key d = Some (inl (h, secWebSocketAccept key), d') /\ d_Header d' = h /\
  Forall (fun kv => h !! kv.1 = Some (default [] (d_Header d !! kv.1) ++ [kv.2])) (handshake_values (secWebSocketAccept key)) /\
  forall k, k ∉ "Sec-Websocket-Extensions" :: (handshake_values "").*1 -> h !! k = d_Header d !! k.
Proof.
  intros [Hs Hn]. unfold client_handshake, mbind, M_bind, get, modify, gets.
  assert (negb (bool_decide (d_Scheme d = "wss")) && negb (bool_decide (d_Scheme d = "ws")) = false) as ->
    by (destruct Hs as [-> | ->]; done).
  cbn [set_Scheme d_Header d_pd d_Scheme]. rewrite Hn.
  destruct (Decompression (d_pd d) && Compression (d_pd d)); cbn; do 2 eexists; (split; [done|]; split; [done|]).
  all: unfold Header_Add; split;
    [repeat apply Forall_cons_2; try apply Forall_nil_2; cbn [fst snd];
       repeat (rewrite lookup_insert_ne by done); rewrite lookup_insert_eq;
       repeat (rewrite lookup_insert_ne by done); done|].
  all: intros k Hk; cbn in Hk; repeat (rewrite lookup_insert_ne by set_solver); done.
Qed.
End Request.

(** ** The server of [server_tcp.go] *)

Lemma IndexCRLF_line l b : forall i, (13 ∉ l) -> IndexCRLF_from i (l ++ CRLF ++ b) = i + zlen l.
Proof.
  induction l as [|c l IH]; intros i Hl; [change (zlen []) with 0; rewrite Z.add_0_r; done|]. assert (c <> 13) as Hc by set_solver.
  transitivity (IndexCRLF_from (i + 1) (l ++ CRLF ++ b)).
  - destruct l as [|d l]; cbn [app CRLF]; (rewrite IndexCRLF_from_cons; by replace (c =? 13) with false by lia).
  - rewrite IH by set_solver. rewrite zlen_cons. lia.
Qed.

(** The request line of the client. *)
Definition get_line (path : bytes) : bytes := str "GET " ++ path ++ str " HTTP/1.1".
Definition path_ok (path : bytes) : Prop := path <> [] /\ (32 ∉ path) /\ (13 ∉ path).

Lemma get_line_ok path : path_ok path -> line_ok (get_line path).
Proof.
  intros (_ & _ & H). split; [done|]. unfold get_line.
  assert (13 ∉ str "GET ") by not_in.
  assert (13 ∉ str " HTTP/1.1") by not_in.
  rewrite !elem_of_app. tauto.
Qed.

Lemma get_line_split path : path_ok path ->
  request_line (get_line path) = Some (str "GET", path, str "HTTP/1.1").
Proof.
  intros (Hn & Hs & _). unfold request_line, get_line.
  change (str "GET " ++ path ++ str " HTTP/1.1") with (str "GET" ++ 32 :: (path ++ 32 :: str "HTTP/1.1")).
  rewrite IndexByte_app by not_in.
  change (zlen (str "GET")) with 3.
  change (from (3 + 1) (str "GET" ++ 32 :: (path ++ 32 :: str "HTTP/1.1"))) with (path ++ 32 :: str "HTTP/1.1").
  rewrite IndexByte_app by done. assert (0 < zlen path).
  { destruct path; [done|]. rewrite zlen_cons. pose proof (zlen_nonneg path). lia. }
  replace (zlen path <=? 0) with false by lia. cbn [orb Z.leb Z.compare]. rewrite upto_app_length.
  replace (path ++ 32 :: str "HTTP/1.1") with ((path ++ [32]) ++ str "HTTP/1.1") by by rewrite <- app_assoc.
  replace (zlen path + 1) with (zlen (path ++ [32])) by by rewrite zlen_app.
  by rewrite from_app_length.
Qed.

(** A request line is never taken for one of the headers: a name in it would
    have a space. *)
Lemma get_line_no_header path name fs : (32 ∉ to_lower <$> str name) ->
  values_of name (option_list (field_of (get_line path)) ++ fs) = values_of name fs.
Proof.
  intros Hn. unfold field_of. destruct (Z.leb_spec (IndexByte (get_line path) 58) 0) as [H|H]; [done|].
  cbn [option_list option_rect app]. unfold values_of. rewrite filter_cons. cbn [fst]. destruct (decide _) as [E|_]; [|done].
  exfalso. apply equalFoldASCII_spec in E. apply Hn. rewrite <- E. apply list_elem_of_fmap.
  exists 32. split; [done|].
  destruct (IndexByte_from_spec (get_line path) 58 0) as [[Hm _]|(a & b & Ea & _ & Ei)]; [unfold IndexByte in H; lia|].
  unfold IndexByte. rewrite Ei, Z.add_0_l, Ea, upto_app_length. unfold get_line in Ea.
  change (str "GET " ++ path ++ str " HTTP/1.1") with (71 :: 69 :: 84 :: 32 :: (path ++ str " HTTP/1.1")) in Ea.
  do 4 (destruct a as [|? a]; [by inversion Ea|]; cbn in Ea; injection Ea; clear Ea; intros Ea ?).
  set_solver.
Qed.

Lemma request_fields path fs b : path_ok path -> Forall field_ok fs ->
  head_fields (render_head (get_line path) fs ++ b) = option_list (field_of (get_line path)) ++ fs.
Proof.
  intros Hp Hf. unfold head_fields, render_head. rewrite <- app_assoc, head_lines_render.
  - assert (omap field_of (render_field <$> fs) = fs) as E.
    { induction Hf as [|f fs Hok _ IH]; [done|]. cbn. by rewrite field_of_render, IH. }
    generalize (get_line path) as line. intros line. cbn. destruct (field_of line); cbn; [f_equal|]; exact E.
  - constructor; [by apply get_line_ok|]. apply Forall_fmap. eapply Forall_impl; [exact Hf|]. apply render_field_line.
Qed.

(** What the server makes of a head with the line of the client: of each of
    its headers the last value. *)
Definition tcp_request (path : bytes) (fs : list (bytes * bytes)) : bytes := render_head (get_line path) fs.
Definition last_of (name : string) (fs : list (bytes * bytes)) : bytes := default [] (last (values_of name fs)).

Lemma read_client_request path fs b : path_ok path -> Forall field_ok fs ->
  last_of "upgrade" fs = str "websocket" -> last_of "connection" fs = str "Upgrade" ->
  last_of "sec-websocket-key" fs <> [] -> last_of "sec-websocket-version" fs = str "13" ->
  read_request (tcp_request path fs ++ b) =
    inl (mkReq (str "GET") path (str "HTTP/1.1") (last_of "sec-websocket-key" fs) (str "13") (str "websocket")
           (str "Upgrade") (last_of "host" fs) (first_protocol (last_of "sec-websocket-protocol" fs)) true).
Proof.
  intros Hp Hf Hu Hc Hk Hv. unfold read_request, tcp_request. rewrite request_fields by done.
  assert (IndexCRLF (render_head (get_line path) fs ++ b) = zlen (get_line path) /\
    upto (zlen (get_line path)) (render_head (get_line path) fs ++ b) = get_line path) as [-> ->].
  { unfold render_head. cbn [fmap list_fmap concat]. rewrite <- !app_assoc. split.
    - unfold IndexCRLF. rewrite IndexCRLF_line by apply (get_line_ok path Hp). lia.
    - apply upto_app_length. }
  destruct (Z.ltb_spec (zlen (get_line path)) 0); [pose proof (zlen_nonneg (get_line path)); lia|].
  rewrite get_line_split by done. set (fs' := option_list _ ++ fs).
  assert (forall name, (32 ∉ to_lower <$> str name) -> last_value name fs' [] = last_of name fs) as HV.
  { intros name Hn. unfold fs', last_of. by rewrite last_value_last, get_line_no_header. }
  assert (last_value "sec-websocket-protocol" (prod_map id first_protocol <$> fs') [] =
    first_protocol (last_of "sec-websocket-protocol" fs)) as ->.
  { rewrite last_value_last, values_of_map. unfold fs', last_of. rewrite get_line_no_header.
    - rewrite fmap_last. by destruct (last _).
    - not_in. }
  rewrite !HV by not_in.
  rewrite Hu, Hc, Hv. change (equalFoldASCII (str "websocket") (str "websocket")) with true.
  rewrite (bool_decide_true (occurs _ _)).
  2:{ exists 0. split; [done|]. split; [done|]. by vm_compute. }
  cbn [andb]. rewrite bool_decide_true by done. cbn [negb]. rewrite orb_false_r.
  destruct (Z.eqb_spec (zlen (last_of "sec-websocket-key" fs)) 0) as [E%zlen_zero|_]; done.
Qed.

(** The protocol the server answers is a part of a value of the request. *)
Lemma trim_left_sub b : trim_left b ⊆ b.
Proof. induction b as [|c b IH]; [done|]. cbn. destruct (is_ows c); [set_solver|done]. Qed.
Lemma trim_right_sub n b : trim_right n b ⊆ b.
Proof.
  revert b. induction n as [|n IH]; intros b; [done|]. cbn. destruct (_ && _); [|done].
  etransitivity; [apply IH|]. apply subseteq_take.
Qed.
Lemma first_protocol_sub v : first_protocol v ⊆ v.
Proof.
  unfold first_protocol, trimOWS. etransitivity; [apply trim_right_sub|]. etransitivity; [apply trim_left_sub|].
  destruct (0 <=? _); [apply subseteq_take|done].
Qed.

(** What has been trimmed does not change when it is trimmed again. *)
Lemma trim_left_head b : match trim_left b with c :: _ => is_ows c = false | [] => True end.
Proof. induction b as [|c b IH]; [done|]. cbn. by destruct (is_ows c) eqn:E. Qed.

Lemma trim_right_prefix n b : exists k, trim_right n b = take k b.
Proof.
  revert b. induction n as [|n IH]; intros b; [exists (length b); by rewrite firstn_all|]. cbn.
  destruct (_ && _); [|exists (length b); by rewrite firstn_all].
  destruct (IH (upto (zlen b - 1) b)) as [k ->]. unfold upto. rewrite take_take. by eexists.
Qed.

Lemma trim_right_last n b : (length b <= n)%nat ->
  (0 <? zlen (trim_right n b)) && is_ows (at_ (trim_right n b) (zlen (trim_right n b) - 1)) = false.
Proof.
  revert b. induction n as [|n IH]; intros b Hl; cbn [trim_right].
  { destruct b; [done|cbn in Hl; lia]. }
  destruct ((0 <? zlen b) && is_ows (at_ b (zlen b - 1))) eqn:E; [|exact E]. apply IH. unfold upto. rewrite length_take. unfold zlen in *.
  destruct b; [done|]. cbn [length] in *. lia.
Qed.

Lemma trimOWS_trimmed b : trimmed (trimOWS b).
Proof.
  unfold trimmed. set (v := trimOWS b).
  assert (trim_left v = v /\ (0 <? zlen v) && is_ows (at_ v (zlen v - 1)) = false) as [Hl Hr].
  { unfold v, trimOWS. split; [|apply trim_right_last; lia].
    destruct (trim_right_prefix (length (trim_left b)) (trim_left b)) as [k ->].
    pose proof (trim_left_head b) as H. destruct (trim_left b) as [|c l]; [by destruct k|].
    destruct k as [|k]; [done|]. cbn. by rewrite H. }
  unfold trimOWS at 1. cbn [trim_left]. change (is_ows 32) with true. cbn match. rewrite Hl.
  destruct (length v); [done|]. cbn [trim_right]. by rewrite Hr.
Qed.

(** The response of this server, as a head. *)
Lemma buildUpgradeResponse_head req : zlen (hr_key req) <= 220 ->
  buildUpgradeResponse req = render_head status101 (accept_fields (accept_value (hr_key req)) ++
    (if 0 <? zlen (hr_protocol req) then [(str "Sec-WebSocket-Protocol", hr_protocol req)] else [])).
Proof.
  intros H. unfold buildUpgradeResponse. rewrite response_accept by done. unfold accept_value.
  generalize (b64_encode (sha1_Sum (hr_key req ++ str upgradeGUID))) as accept. intros accept.
  unfold render_head, accept_fields, statusLine101, status101. destruct (0 <? zlen (hr_protocol req)).
  all: cbn [app fmap list_fmap concat render_field fst snd]; rewrite <- !app_assoc; cbn [app]; reflexivity.
Qed.

(** The field the client reads for the protocol [p]. *)
Definition answered (p : bytes) : option (list string) :=
  if bool_decide (p = []) then None else Some [string_of_bytes p].

Lemma answered_read accept p :
  fold_left add_field (if 0 <? zlen p then [(str "Sec-WebSocket-Protocol", p)] else [])
    (fold_left add_field (accept_fields accept) ∅) !! "Sec-Websocket-Protocol" = answered p.
Proof.
  assert (forall h : Header, h !! "Sec-Websocket-Protocol" = None ->
    fold_left add_field (if 0 <? zlen p then [(str "Sec-WebSocket-Protocol", p)] else []) h !! "Sec-Websocket-Protocol"
    = answered p) as H.
  { intros h E. unfold answered. destruct p as [|c p]; [exact E|]. cbn [bool_decide].
    rewrite bool_decide_false by done. replace (0 <? zlen (c :: p)) with true
      by (rewrite zlen_cons; pose proof (zlen_nonneg p); lia).
    cbn [fold_left]. unfold add_field, Header_Add. cbn [fst snd].
    change (CanonicalHeaderKey (str "Sec-WebSocket-Protocol")) with "Sec-Websocket-Protocol".
    by rewrite E, lookup_insert_eq. }
  apply H. unfold accept_fields. cbn [fold_left]. unfold add_field, Header_Add. cbn [fst snd].
  by repeat (rewrite lookup_insert_ne by (by vm_compute)).
Qed.

Section Agree.
Context {S : Type} (Gen : PermessageDeflateConf -> string) (NewRequest : string -> option error).
Implicit Types s : S.


(** ** The server on [net/http] *)

(** [bytes.Buffer.Write]. *)
Definition buf_Write (b : bytes) : M bytes (Z * option error) := fun w => Some ((zlen b, None), w ++ b).

(** The fields this server writes behind the accept value. *)
Definition more_fields (r : http_Request) (protos : list string) (pd : PermessageDeflateConf) : list (bytes * bytes) :=
  let v := str (subProtocol (Header_Get (q_Header r) "Sec-Websocket-Protocol") protos) in
  (if Decompression pd then [(str "Sec-WebSocket-Extensions", str (Gen pd))] else []) ++
  (if 0 <? zlen v then [(str "Sec-WebSocket-Protocol", v)] else []).

Lemma prepareWriteResponse_writes r protos pd w :
  let sec := Header_Get (q_Header r) "Sec-Websocket-Key" in
  prepareWriteResponse buf_Write Gen r protos pd w =
    Some (None, w ++ render_head status101 (accept_fields (accept_value (str sec)) ++ more_fields r protos pd)).
Proof.
  cbn zeta. unfold prepareWriteResponse, more_fields.
  assert (str (secWebSocketAcceptVal (Header_Get (q_Header r) "Sec-Websocket-Key")) =
    accept_value (str (Header_Get (q_Header r) "Sec-Websocket-Key"))) as ->.
  { apply bytes_of_string_of_bytes, b64_ok_bytes, accept_chars. }
  generalize (accept_value (str (Header_Get (q_Header r) "Sec-Websocket-Key"))) as accept. intros accept.
  unfold writeHeaderVal, put, buf_Write, check, mbind, M_bind, render_head, accept_fields, statusLine101, status101.
  destruct (Decompression pd), (0 <? zlen _).
  all: cbn [mret M_ret app fmap list_fmap concat render_field fst snd]; rewrite <- !app_assoc; reflexivity.
Qed.

(** The same client and the server on [net/http] agree, when the user has
    put none of the handshake's own headers into the map: the request is
    accepted, whatever extension and protocol the server picks, and the client
    accepts the response. *)
Theorem http_server_accepts_client key d :
  dialable NewRequest d -> bytes_ok key -> zlen key = 16 ->
  Forall (fun k => d_Header d !! k = None) handshake_keys ->
  exists h d', client_handshake Gen NewRequest key d = Some (inl (h, secWebSocketAccept key), d') /\
    forall r protos pd w, q_Method r = "GET" -> ProtoAtLeast r 1 1 = true -> q_Host r <> "" -> q_Header r = h ->
      Forall field_ok (more_fields r protos pd) ->
      checkRequest r = (0, None) /\
      exists out rsp, prepareWriteResponse buf_Write Gen r protos pd w = Some (None, w ++ out) /\
        ReadResponse out = Some rsp /\ validateRsp rsp (secWebSocketAccept key) = None.
Proof.
  intros Hd Hkey Hlen Hno. destruct (client_handshake_header Gen NewRequest key d Hd) as (h & d' & Hh & _ & Hv & _).
  exists h, d'. split; [done|]. intros r protos pd w Hm Hpr Hho Hq Hf.
  unfold handshake_keys in Hno. unfold handshake_values in Hv. rewrite !Forall_cons in Hno. rewrite !Forall_cons in Hv.
  destruct Hno as (N1 & N2 & N3 & N4 & _), Hv as (V1 & V2 & V3 & V4 & _). cbn [fst snd] in *.
  rewrite N1 in V1. rewrite N2 in V2. rewrite N3 in V3. rewrite N4 in V4.
  assert (forall k v, h !! k = Some (default [] None ++ [v]) -> Header_Get (q_Header r) k = v) as HG
    by (intros k v E; rewrite Hq; unfold Header_Get; by rewrite E).
  assert (str (secWebSocketAccept key) = b64_encode key) as Ek.
  { unfold secWebSocketAccept. apply bytes_of_string_of_bytes, b64_ok_bytes. by eapply b64_encode_ok. }
  split.
  - unfold checkRequest. rewrite (HG _ _ V1), (HG _ _ V2), (HG _ _ V3), (HG _ _ V4), Hm, Hpr, Ek.
    rewrite (bool_decide_false (q_Host r = "")) by done.
    rewrite (b64_encode_len (length key)), Hlen by lia. done.
  - rewrite prepareWriteResponse_writes, (HG _ _ V3).
    destruct (response_valid (secWebSocketAccept key) (more_fields r protos pd) Hf) as (rsp & Hr & _ & Hok).
    eexists _, rsp. done.
Qed.
End Agree.

(** ** Evaluated *)

(** A request as a browser sends it, and what the server of [server_tcp.go]
    answers. *)
Definition sample_key : bytes := str "the sample nonce".
Definition sample_fields : list (bytes * bytes) :=
  [(str "Host", str "example.com:9001"); (str "UPGRADE", str "websocket"); (str "Connection", str "Upgrade");
   (str "Sec-WebSocket-Key", str "dGhlIHNhbXBsZSBub25jZQ=="); (str "Sec-WebSocket-Version", str "13");
   (str "Sec-WebSocket-Protocol", str "chat, superchat")].
Definition no_gen (_ : PermessageDeflateConf) : string := "".
Definition any_url (_ : string) : option error := None.
Definition sample_dial : DialOption := mkDial "ws" ∅ noDeflate.

Definition sample_header : Header :=
  match client_handshake no_gen any_url sample_key sample_dial with Some (inl (h, _), _) => h | _ => ∅ end.


Definition sample_request (h : Header) : http_Request := mkHttpRequest "GET" 1 1 "example.com" h.

Lemma http_server_accepts_client_witness :
  exists h d', client_handshake no_gen any_url sample_key sample_dial = Some (inl (h, secWebSocketAccept sample_key), d') /\
    checkRequest (sample_request h) = (0, None).
Proof.
  assert (dialable any_url sample_dial) as Hd by (split; [by left|done]).
  destruct (http_server_accepts_client no_gen any_url sample_key sample_dial Hd ltac:(bytes) eq_refl
    ltac:(repeat apply Forall_cons_2; try apply Forall_nil_2; by vm_compute)) as (h & d' & Hh & Hc).
  exists h, d'. split; [done|]. apply (Hc (sample_request h) [] noDeflate []); try done.
  assert (h = sample_header) as -> by (unfold sample_header; by rewrite Hh).
  by vm_compute.
Defined.
