(* ===== verification/WsServe.v ===== *)
(** * WsServe

    [websocket/server_tcp.go] on its socket: the handshake is read and the
    answer is written with blocking waits, and the connection is handed to the
    event loop.  The answer is a function of the bytes read, however the kernel
    cuts them, and it goes out in order. *)

From S2P Require Import Prelude GoStd Sock WsState WsHandshake WsAgree.

(** ** The world outside the source *)

Definition POLLIN : Z := 1.
Definition POLLOUT : Z := 4.

(** System calls that only this server makes, and [AddRead] of the poller. *)
Class SrvLib `{WsLib} : Type := {
  sys_poll : Z -> Z -> Z -> World -> (Z + errno) * World;
  sys_close : Z -> World -> World;
  sys_nodelay : Z -> World -> option errno * World;
  el_AddRead : Z -> World -> option wserror * World;
}.

(** What the manual pages say: only reading takes input; a wait is interrupted
    only so often; after a wait that reports the socket ready, reading or
    writing does not ask to wait again; a write takes something. *)
Class SrvLaws `{SrvLib} `{!WsLaws} : Type := {
  signals_left : World -> nat;
  poll_view fd ev t w : world_view (snd (sys_poll fd ev t w)) = world_view w;
  close_view fd w : world_view (sys_close fd w) = world_view w;
  nodelay_view fd w : world_view (snd (sys_nodelay fd w)) = world_view w;
  AddRead_view fd w : world_view (snd (el_AddRead fd w)) = world_view w;
  poll_EINTR fd ev t w w' : sys_poll fd ev t w = (inr EINTR, w') -> (signals_left w' < signals_left w)%nat;
  poll_ready_read fd t w n w' k : sys_poll fd POLLIN t w = (inl n, w') -> n <> 0 -> 0 < k ->
    fst (sys_read fd k w') <> inr EAGAIN;
  poll_ready_write fd t w n w' p : sys_poll fd POLLOUT t w = (inl n, w') -> n <> 0 -> p <> [] ->
    fst (sys_write fd p w') <> inr EAGAIN;
  write_some fd p w n w' : sys_write fd p w = (inl n, w') -> p <> [] -> 0 < n;
  poll_signals fd ev t w : (signals_left (snd (sys_poll fd ev t w)) <= signals_left w)%nat;
  read_signals fd k w : (signals_left (snd (sys_read fd k w)) <= signals_left w)%nat;
  nodelay_signals fd w : (signals_left (snd (sys_nodelay fd w)) <= signals_left w)%nat;
  write_signals fd p w : (signals_left (snd (sys_write fd p w)) <= signals_left w)%nat;
}.

(** ** The goroutine of one connection *)

(** The system calls that were made, with what they returned. *)
Inductive syscall : Type :=
  | CallPoll (r : Z + errno)
  | CallRead (r : bytes + errno)
  | CallWrite (r : Z + errno)
  | CallNodelay (r : option errno)
  | CallAddRead (r : option wserror)
  | CallClose (fd : Z).

(** The world, and a trace the code does not have: the bytes written and the
    calls made. *)
Record Srv `{WsLib} : Type := mkSrv { sv_world : World; sv_sent : bytes; sv_calls : list syscall }.

Arguments mkSrv {_} _ _ _.

(** The descriptors that were closed. *)
Definition closes (l : list syscall) : list Z :=
  flat_map (fun k => match k with CallClose fd => [fd] | _ => [] end) l.

(** A call of the writing side that failed for good: an errno that is not a
    request to wait or to try again, or a wait that ran out of time. *)
Definition failed (k : syscall) : Prop :=
  match k with
  | CallPoll (inl n) => n = 0
  | CallPoll (inr e) => e <> EINTR
  | CallWrite (inr e) => e <> EAGAIN
  | CallNodelay (Some _) | CallAddRead (Some _) => True
  | _ => False
  end.

Inductive srv_error : Type :=
  | SErrno (e : errno)
  | SErr (e : error)
  | SEOF
  | SLoop (e : wserror).

Section Serve.
Context `{SrvLib}.
Notation go A := (M Srv A).

Definition calling {A} (note : A -> syscall) (f : World -> A * World) : go A :=
  fun s => let '(a, w) := f (sv_world s) in Some (a, mkSrv w (sv_sent s) (sv_calls s ++ [note a])).

Definition errTimeout : error := errorsNew "fio: handshake timeout".
Definition errTooLarge : error := errorsNew "fio: handshake header too large".

Fixpoint waitFd (fuel : nat) (fd events : Z) : go (option srv_error) :=
  match fuel with
  | O => panic
  | S fuel =>
      r ← calling CallPoll (sys_poll fd events 5000);
      match r with
      | inr EINTR => waitFd fuel fd events
      | inr e => mret (Some (SErrno e))
      | inl n => if n =? 0 then mret (Some (SErr errTimeout)) else mret None
      end
  end.
Definition waitReadable (fuel : nat) (fd : Z) := waitFd fuel fd POLLIN.
Definition waitWritable (fuel : nat) (fd : Z) := waitFd fuel fd POLLOUT.

Fixpoint writeAll (fuel : nat) (fd : Z) (b : bytes) : go (option srv_error) :=
  match fuel with
  | O => panic
  | S fuel' =>
      if zlen b =? 0 then mret None
      else
        r ← calling CallWrite (sys_write fd b);
        match r with
        | inr EAGAIN =>
            e ← waitWritable fuel fd;
            match e with Some e => mret (Some e) | None => writeAll fuel' fd b end
        | inr e => mret (Some (SErrno e))
        | inl n =>
            modify (fun s => mkSrv (sv_world s) (sv_sent s ++ upto n b) (sv_calls s)) ;;
            b ← reslice b n (zlen b);
            writeAll fuel' fd b
        end
  end.

Definition handshakeMaxSize : Z := 4 << 10.
Definition CRLFCRLF : bytes := CRLF ++ CRLF.

(** [got] is [buf[:n]]; [size] the length of [buf]. *)
Fixpoint readHandshake (fuel : nat) (fd size : Z) (got : bytes) : go (bytes * option srv_error) :=
  match fuel with
  | O => panic
  | S fuel' =>
      if size <=? zlen got then mret (got, Some (SErr errTooLarge))
      else
        r ← calling CallRead (sys_read fd (size - zlen got));
        match r with
        | inr EAGAIN =>
            e ← waitReadable fuel fd;
            match e with Some e => mret (got, Some e) | None => readHandshake fuel' fd size got end
        | inr e => mret (got, Some (SErrno e))
        | inl data =>
            if zlen data =? 0 then mret (got, Some SEOF)
            else
              let got := got ++ data in
              if Contains CRLFCRLF got then mret (got, None) else readHandshake fuel' fd size got
        end
  end.

Definition unix_Close (fd : Z) : go unit := calling (fun _ => CallClose fd) (fun w => (tt, sys_close fd w)).

Definition writeHTTPError (fuel : nat) (fd code : Z) (msg : string) : go unit :=
  writeAll fuel fd (httpError code msg) ;; mret tt.

(** ** Control routes *)

Record responseWriter : Type := mkWriter { w_code : Z; w_header : bytes; w_body : bytes }.
Definition newWriter : responseWriter := mkWriter 0 [] [].
Definition rw_WriteHeader (code : Z) (w : responseWriter) : responseWriter := mkWriter code (w_header w) (w_body w).
Definition rw_Header (b : bytes) (w : responseWriter) : responseWriter := mkWriter (w_code w) (w_header w ++ b) (w_body w).
Definition rw_Write (b : bytes) (w : responseWriter) : responseWriter := mkWriter (w_code w) (w_header w) (w_body w ++ b).

(** The block [finish] writes. *)
Definition finish_bytes (w : responseWriter) : bytes :=
  let code := if w_code w =? 0 then 200 else w_code w in
  str "HTTP/1.1 " ++ str (fmt_d code) ++ str " " ++ str (httpStatusText code) ++ CRLF ++
  str "Content-Length: " ++ str (fmt_d (zlen (w_body w))) ++ CRLF ++
  str "Connection: close" ++ CRLF ++ w_header w ++ CRLF ++ w_body w.
Definition finish (fuel : nat) (fd : Z) (w : responseWriter) : go unit :=
  writeAll fuel fd (finish_bytes w) ;; mret tt.

(** ** Handing over *)

Section Upgrade.
Context {App : Type} (OnOpen : M (Conn App) unit) (app0 : App).
Context (tcpNoDelay : bool) (handles : gmap bytes (handshakeRequest -> responseWriter -> responseWriter)).

(** [MultiEventLoop.add]; the table of connections and the counters are not
    modelled. *)
Definition loop_add : M (Conn App) (option wserror) :=
  f ← gets fd;
  if f =? -1 then mret None
  else
    e ← outside (el_AddRead f);
    match e with Some e => del ;; mret (Some e) | None => mret None end.

(** Runs the connection's code in the goroutine of the server. *)
Definition on_conn {A} (m : M (Conn App) A) (c : Conn App) : go (A * Conn App) :=
  fun s => match m (set_world (sv_world s) c) with
           | Some (a, c) => Some ((a, c), mkSrv (world c) (sv_sent s) (sv_calls s))
           | None => None
           end.

Definition upgrade (fuel : nat) (fd : Z) (req : handshakeRequest) : go (Conn App + srv_error) :=
  e ← (if tcpNoDelay then calling CallNodelay (sys_nodelay fd) else mret None);
  match e with
  | Some e => mret (inr (SErrno e))
  | None =>
      e ← writeAll fuel fd (buildUpgradeResponse req);
      match e with
      | Some e => mret (inr e)
      | None =>
          w ← gets sv_world;
          '(_, c) ← on_conn OnOpen (newConn fd false w app0);
          '(e, c) ← on_conn loop_add c;
          modify (fun s => mkSrv (sv_world s) (sv_sent s) (sv_calls s ++ [CallAddRead e])) ;;
          match e with Some e => mret (inr (SLoop e)) | None => mret (inl c) end
      end
  end.

(** The result is the connection that runs on the event loop, if any. *)
Definition serve (fuel : nat) (fd : Z) : go (option (Conn App)) :=
  '(buf, err) ← readHandshake fuel fd (GetBytes handshakeMaxSize) [];
  match err with
  | Some _ => unix_Close fd ;; mret None
  | None =>
      r ← parseHandshake buf;
      match r with
      | inr e => writeHTTPError fuel fd 400 (error_text e) ;; unix_Close fd ;; mret None
      | inl req =>
          if negb (hr_isUpgrade req) then
            match handles !! hr_path req with
            | Some h => finish fuel fd (h req newWriter)
            | None => writeHTTPError fuel fd 404 "not found"
            end ;;
            unix_Close fd ;; mret None
          else
            r ← upgrade fuel fd req;
            match r with
            | inr _ => unix_Close fd ;; mret None
            | inl c => mret (Some c)
            end
      end
  end.
End Upgrade.
End Serve.
