(* ===== verification/WsServed.v ===== *)
(** * WsServed

    Every connection of the TCP server is answered once, whatever the kernel
    does; then a concrete kernel, a run on it, and runs on which the handshake
    does something its comments or RFC 6455 do not lead one to expect. *)

From S2P Require Import Prelude Sock GoStd WsState WsWrite WsRead WsPlain.
From S2P Require Import WsSafe WsWire WsStream WsParse WsRound WsEvents WsHandshake WsAgree.
From S2P Require Import WsServe.

Section Served.
Context `{SrvLib} `{!WsLaws} `{!SrvLaws}.

Definition ready_in (fd : Z) (w : World) : Prop := forall k, 0 < k -> fst (sys_read fd k w) <> inr EAGAIN.
Definition ready_out (fd : Z) (w : World) : Prop := forall p, p <> [] -> fst (sys_write fd p w) <> inr EAGAIN.

(** Only calls that close nothing were made in between. *)
Definition later (s s' : Srv) : Prop := exists l, sv_calls s' = sv_calls s ++ l /\ closes l = [].

#[local] Instance later_preorder : PreOrder later.
Proof.
  split; [by intros s; exists []; rewrite app_nil_r|].
  intros s1 s2 s3 (l1 & E1 & C1) (l2 & E2 & C2). exists (l1 ++ l2). split; [by rewrite E2, E1, app_assoc|].
  unfold closes in *. by rewrite flat_map_app, C1, C2.
Qed.

Lemma later_call w b k s : closes [k] = [] -> later s (mkSrv w b (sv_calls s ++ [k])).
Proof. by exists [k]. Qed.

Lemma later_closes s s' : later s s' -> closes (sv_calls s') = closes (sv_calls s).
Proof. intros (l & E & C). unfold closes in *. by rewrite E, flat_map_app, C, app_nil_r. Qed.

(** One of the calls failed for good. *)
Definition gave_up (s : Srv) : Prop := Exists failed (sv_calls s).

Lemma gave_up_later s s' : later s s' -> gave_up s -> gave_up s'.
Proof. intros (l & E & _) H'. unfold gave_up. rewrite E. apply Exists_app. by left. Qed.

Lemma gave_up_call w b k s : failed k -> gave_up (mkSrv w b (sv_calls s ++ [k])).
Proof. intros Hk. apply Exists_app. right. by constructor. Qed.

Lemma wp_calling {A} (note : A -> syscall) (f : World -> A * World) (Q : A -> Srv -> Prop) s :
  (forall a w, f (sv_world s) = (a, w) -> Q a (mkSrv w (sv_sent s) (sv_calls s ++ [note a]))) ->
  wp (calling note f) Q s.
Proof. unfold wp, calling. destruct (f (sv_world s)) as [a w]. by auto. Qed.

(** Nothing is read or written, and no signal comes back. *)
Definition waited (s s' : Srv) : Prop :=
  world_view (sv_world s') = world_view (sv_world s) /\ sv_sent s' = sv_sent s /\
  (signals_left (sv_world s') <= signals_left (sv_world s))%nat.

Lemma view_incoming w w' : world_view w' = world_view w -> incoming w' = incoming w /\ reads_left w' = reads_left w.
Proof. intros E. by injection E as E1 E2. Qed.

Lemma wp_waitFd fuel fd ev : forall s, (signals_left (sv_world s) < fuel)%nat ->
  wp (waitFd fuel fd ev) (fun r s' => waited s s' /\ later s s' /\ (r <> None -> gave_up s') /\
    (r = None -> (ev = POLLIN -> ready_in fd (sv_world s')) /\ (ev = POLLOUT -> ready_out fd (sv_world s')))) s.
Proof.
  induction fuel as [|fuel IH]; intros s Hf; [lia|]. cbn [waitFd]. apply wp_bind, wp_calling. intros r w' E.
  pose proof (poll_view fd ev 5000 (sv_world s)) as Hv. pose proof (poll_signals fd ev 5000 (sv_world s)) as Hs.
  rewrite E in Hv, Hs. cbn [snd] in Hv, Hs. set (s1 := mkSrv w' (sv_sent s) _).
  assert (waited s s1) as W by (by split_and!). assert (later s s1) as L by by apply later_call.
  destruct r as [n|[| |nm]].
  - destruct (Z.eqb_spec n 0) as [->|Hn]; apply wp_ret; (split; [done|]); (split; [done|]).
    { split; [intros _; by apply gave_up_call|done]. }
    split; [done|]. intros _. split; intros ->; [intros k Hk; by eapply poll_ready_read|intros p Hp; by eapply poll_ready_write].
  - apply wp_ret. split_and!; [exact W|exact L|intros _; by apply gave_up_call|done].
  - pose proof (poll_EINTR _ _ _ _ _ E). eapply wp_mono; [apply IH; cbn; lia|]. cbv beta.
    intros r s' ((V & S & G) & L' & F & Hr). destruct W as (V1 & S1 & G1).
    split; [split_and!; [congruence|congruence|lia]|]. split; [by transitivity s1|done].
  - apply wp_ret. split_and!; [exact W|exact L|intros _; by apply gave_up_call|done].
Qed.

Definition attempts (ready : Prop) (n : nat) (s : Srv) (fuel : nat) : Prop :=
  (signals_left (sv_world s) + 2 * n + 1 < fuel)%nat \/
  ready /\ (signals_left (sv_world s) + 2 * n < fuel)%nat.

(** Everything is written, in order, or an error says that it was not. *)
Lemma wp_writeAll fuel fd : forall b s, attempts (ready_out fd (sv_world s)) (length b) s fuel ->
  wp (writeAll fuel fd b) (fun r s' => world_view (sv_world s') = world_view (sv_world s) /\
    (signals_left (sv_world s') <= signals_left (sv_world s))%nat /\ later s s' /\ (r <> None -> gave_up s') /\
    exists k, sv_sent s' = sv_sent s ++ take k b /\ (r = None -> sv_sent s' = sv_sent s ++ b)) s.
Proof.
  induction fuel as [|fuel IH]; intros b s Hf; [by destruct Hf as [?|[_ ?]]; lia|]. cbn [writeAll].
  destruct (Z.eqb_spec (zlen b) 0) as [->%zlen_zero|Hb].
  { apply wp_ret. split_and!; [done..|]. exists 0%nat. cbn. rewrite app_nil_r. by split. }
  assert (b <> []) as Hne by (intros ->; by apply Hb).
  apply wp_bind, wp_calling. intros r w' E.
  pose proof (sys_write_view fd b (sv_world s)) as Hv. pose proof (write_signals fd b (sv_world s)) as Hs.
  rewrite E in Hv, Hs. cbn [snd] in Hv, Hs.
  assert (later s (mkSrv w' (sv_sent s) (sv_calls s ++ [CallWrite r]))) as L by by apply later_call.
  assert (forall e, r = inr e -> e <> EAGAIN -> wp (mret (Some (SErrno e))) (fun r s' =>
    world_view (sv_world s') = world_view (sv_world s) /\
    (signals_left (sv_world s') <= signals_left (sv_world s))%nat /\ later s s' /\ (r <> None -> gave_up s') /\
    exists k, sv_sent s' = sv_sent s ++ take k b /\ (r = None -> sv_sent s' = sv_sent s ++ b))
    (mkSrv w' (sv_sent s) (sv_calls s ++ [CallWrite r]))) as Hfail.
  { intros e -> He. apply wp_ret. split_and!; [done|done|done|intros _; by apply gave_up_call|].
    exists 0%nat. cbn. rewrite app_nil_r. by split. }
  destruct r as [n|[| |nm]].
  - pose proof (sys_write_spec _ _ _ _ _ E). pose proof (write_some _ _ _ _ _ E Hne).
    apply wp_bind, wp_modify, wp_bind. unfold wp at 1. rewrite reslice_ok by lia. rewrite slice_to_end by lia.
    eapply wp_mono; [apply IH; left; cbn; unfold from; rewrite length_drop; unfold zlen in *; destruct Hf as [?|[_ ?]]; lia|].
    cbv beta. intros r s' (V & G & L' & F & k & Hk & Hr). cbn [sv_world sv_sent] in *.
    split_and!; [congruence|lia|by etransitivity; [exact L|exact L']|done|].
    exists (Z.to_nat n + k)%nat. rewrite Hk. split.
    + rewrite <- app_assoc. f_equal. unfold upto, from. rewrite <- (take_drop (Z.to_nat n) b) at 3.
      rewrite take_app_ge by (rewrite length_take; unfold zlen in *; lia).
      rewrite length_take. do 2 f_equal. unfold zlen in *. lia.
    + intros Hn. rewrite <- Hk, Hr by done. by rewrite <- app_assoc, upto_from.
  - destruct Hf as [Hf|[Hr _]]; [|by apply (f_equal fst) in E; apply Hr in E].
    apply wp_bind. eapply wp_mono; [apply wp_waitFd; cbn; lia|]. cbv beta. intros r s1 ((V & S & G) & L1 & F & Hr). cbn in V, S, G.
    destruct r as [e|].
    { apply wp_ret. split_and!; [congruence|lia|by etransitivity|by auto|]. exists 0%nat. cbn. rewrite app_nil_r. by split. }
    eapply wp_mono; [apply IH; right; split; [by apply Hr|lia]|]. cbv beta.
    intros r s' (V' & G' & L' & F' & k & Hk & Hrn).
    split_and!; [congruence|lia|etransitivity; [exact L|by etransitivity]|done|]. exists k. by rewrite <- S.
  - by apply Hfail.
  - by apply Hfail.
Qed.

(** The head is whole, or an error says why it is not. *)
Definition head_read (got : bytes) (s : Srv) (r : bytes * option srv_error) (s' : Srv) : Prop :=
  sv_sent s' = sv_sent s /\ later s s' /\
  (signals_left (sv_world s') <= signals_left (sv_world s))%nat /\
  (reads_left (sv_world s') <= reads_left (sv_world s))%nat /\
  exists data, fst r = got ++ data /\ incoming (sv_world s) = data ++ incoming (sv_world s') /\
    Contains CRLFCRLF (fst r) = bool_decide (snd r = None).

Lemma wp_readHandshake fuel fd size : forall got s, attempts (ready_in fd (sv_world s)) (reads_left (sv_world s)) s fuel ->
  Contains CRLFCRLF got = false -> wp (readHandshake fuel fd size got) (head_read got s) s.
Proof.
  induction fuel as [|fuel IH]; intros got s Hf Hgot; [by destruct Hf as [?|[_ ?]]; lia|]. cbn [readHandshake].
  assert (forall e s', sv_sent s' = sv_sent s -> later s s' -> (signals_left (sv_world s') <= signals_left (sv_world s))%nat ->
    (reads_left (sv_world s') <= reads_left (sv_world s))%nat -> incoming (sv_world s') = incoming (sv_world s) ->
    wp (mret (got, Some e)) (head_read got s) s') as Hstop.
  { intros e s' D1 D2 D3 D4 D5. apply wp_ret. split_and!; [done..|]. exists []. rewrite app_nil_r. by rewrite D5. }
  destruct (Z.leb_spec size (zlen got)) as [Hl|Hl]; [by apply Hstop|].
  apply wp_bind, wp_calling. intros r w' E.
  pose proof (sys_read_spec fd (size - zlen got) (sv_world s) ltac:(lia)) as Hr.
  pose proof (read_signals fd (size - zlen got) (sv_world s)) as Hs. rewrite E in Hr, Hs. cbn [snd] in Hs.
  assert (later s (mkSrv w' (sv_sent s) (sv_calls s ++ [CallRead r]))) as L by by apply later_call.
  destruct r as [data|[| |nm]].
  - destruct Hr as (Hin & _ & _ & Hlt). destruct (Z.eqb_spec (zlen data) 0) as [->%zlen_zero|Hd].
    { apply Hstop; cbn; [done|done|lia|lia|done]. }
    cbv zeta. destruct (Contains CRLFCRLF (got ++ data)) eqn:Ec.
    + apply wp_ret. split_and!; cbn; [done|done|lia|lia|]. by exists data.
    + eapply wp_mono; [apply IH; [left; cbn; destruct Hf as [?|[_ ?]]; lia|done]|]. cbv beta.
      intros r s' (S & L' & G & R & d & D1 & D2 & D3). cbn in S, G, R, D2.
      split_and!; [done|by etransitivity; [exact L|exact L']|lia|lia|]. exists (data ++ d).
      rewrite D1, Hin, D2, <- !app_assoc. split_and!; [done|done|]. rewrite <- app_assoc, <- D1 in *. exact D3.
  - destruct Hr as [Hin Hle]. destruct Hf as [Hf|[Hr _]]; [|by apply (f_equal fst) in E; apply Hr in E; [|lia]].
    apply wp_bind. eapply wp_mono; [apply wp_waitFd; cbn; lia|]. cbv beta. intros r s1 ((V & S & G) & L1 & _ & Hr). cbn in V, S, G.
    apply view_incoming in V as [V1 V2]. destruct r as [e|].
    { apply Hstop; [done|by etransitivity|lia|lia|congruence]. }
    eapply wp_mono; [apply IH; [right; split; [by apply Hr|lia]|done]|]. cbv beta.
    intros r s' (S' & L' & G' & R' & d & D1 & D2 & D3).
    split_and!; [congruence|etransitivity; [exact L|by etransitivity]|lia|lia|]. exists d.
    split_and!; [done|congruence|done].
  - apply Hstop; cbn; [done|done|lia|lia|by destruct Hr].
  - apply Hstop; cbn; [done|done|lia|lia|by destruct Hr].
Qed.

(** ** The whole connection *)

Section Whole.
Context {App : Type} (cfg : Config) (cb : Callback App) `{!CallbackOk cb}.
Context (OnOpen : M (Conn App) unit) (OnOpen_calm : calm OnOpen) (app0 : App).
Context (tcpNoDelay : bool) (handles : gmap bytes (handshakeRequest -> responseWriter -> responseWriter)).

(** The answer to a head. *)
Definition answer (data : bytes) : bytes :=
  match read_request data with
  | inr e => httpError 400 (error_text e)
  | inl req =>
      if hr_isUpgrade req then buildUpgradeResponse req
      else match handles !! hr_path req with
           | Some h => finish_bytes (h req newWriter)
           | None => httpError 404 "not found"
           end
  end.

(** What the event loop will do with a connection whose peer still sends
    [rest]. *)
Definition serves_frames (rest : bytes) (c : Conn App) : Prop :=
  sane cfg rest -> forall evs fuel, 2 * Z.of_nat (reads_left (world c)) + zlen rest + 2 <= Z.of_nat fuel ->
  wp (run_events cfg cb fuel evs) (fun _ c' => received c' ++ incoming (world c') = rest /\
    exists raws tail, received c' = concat raws ++ tail /\ Forall2 frame_of raws (delivered c') /\
      (closed c' = false -> incomplete tail)) c.

Lemma alive_serves fd w c : (sane cfg (incoming w) -> alive cfg (newConn fd false w app0) c) -> reads_left (world c) = reads_left w ->
  serves_frames (incoming w) c.
Proof.
  intros Hal Hrl Hsane evs fuel Hfuel. specialize (Hal Hsane).
  eapply wp_mono; [eapply (wp_run_events cfg cb); [|exact Hal]|].
  - unfold budget. cbn. rewrite <- Hrl. exact Hfuel.
  - cbv beta. intros _ c' [P (raws & tail & Hr & Hf) _ Hrest]. split; [exact (proj1 P)|].
    destruct (closed c') eqn:Hcl; [by exists raws, tail|].
    destruct (Hrest eq_refl) as (raws2 & hdr & l & [_ [n Hri]] & Hinc). exists raws2, (hdr ++ l).
    unfold buffered in Hri. destruct (rbuf c'); (split; [apply Hri|]); (split; [apply Hri|done]).
Qed.

Lemma wp_hand_over {A} (m : M (Conn App) A) c (Q : A * Conn App -> Srv -> Prop) s :
  wp m (fun a c' => Q (a, c') (mkSrv (world c') (sv_sent s) (sv_calls s))) (set_world (sv_world s) c) -> wp (on_conn m c) Q s.
Proof. unfold wp, on_conn. by destruct (m _) as [[a c']|]. Qed.

Lemma step_view (c c' : Conn App) : step c c' -> world_view (world c') = world_view (world c).
Proof. intros [E _ _]. by apply (f_equal snd) in E. Qed.

(** The connection is registered, or its error has closed it. *)
Lemma wp_loop_add (c : Conn App) : Winv c ->
  wp loop_add (fun e c' => world_view (world c') = world_view (world c) /\ (e = None -> Winv c' /\ step c c')) c.
Proof.
  intros W. unfold loop_add. wp_steps. destruct (fd c =? -1); wp_steps; [done|].
  apply wp_outside; [apply AddRead_view|]. intros [e|] w2 S; wp_steps.
  - unfold del. wp_steps. apply wp_outside; [intros; apply el_close_view|]. intros [] w3 S'. wp_steps.
    apply step_view in S, S'. split; [congruence|done].
  - split; [by apply step_view in S|]. intros _. split; [done|exact S].
Qed.

Lemma wp_upgrade fuel fd req s : attempts False (length (buildUpgradeResponse req)) s fuel ->
  wp (upgrade OnOpen app0 tcpNoDelay fuel fd req) (fun r s' =>
    world_view (sv_world s') = world_view (sv_world s) /\ later s s' /\
    exists k, sv_sent s' = sv_sent s ++ take k (buildUpgradeResponse req) /\
      match r with
      | inr _ => gave_up s'
      | inl c => sv_sent s' = sv_sent s ++ buildUpgradeResponse req /\
                 serves_frames (incoming (sv_world s)) c
      end) s.
Proof.
  intros Hf. unfold upgrade. apply wp_bind.
  assert (wp (if tcpNoDelay then calling CallNodelay (sys_nodelay fd) else mret None) (fun e s1 =>
    world_view (sv_world s1) = world_view (sv_world s) /\ sv_sent s1 = sv_sent s /\ later s s1 /\
    (e <> None -> gave_up s1) /\ (signals_left (sv_world s1) <= signals_left (sv_world s))%nat) s) as Hnd.
  { destruct tcpNoDelay; [|by apply wp_ret]. apply wp_calling. intros e w E. cbn [sv_world sv_sent].
    pose proof (nodelay_view fd (sv_world s)) as V. pose proof (nodelay_signals fd (sv_world s)) as G. rewrite E in V, G.
    split_and!; [exact V|done|by apply later_call|intros He; apply gave_up_call; by destruct e|exact G]. }
  eapply wp_mono; [exact Hnd|]. cbv beta. intros e s1 (V1 & S1 & L1 & F1 & G1).
  destruct e as [e|].
  { apply wp_ret. split_and!; [done|done|]. exists 0%nat. cbn. rewrite app_nil_r, S1. split; [done|by apply F1]. }
  apply wp_bind. eapply wp_mono; [apply wp_writeAll; left; destruct Hf as [?|[[] _]]; lia|].
  cbv beta. intros e s2 (V2 & _ & L2 & F2 & k & Hk & Hall). rewrite S1 in Hk, Hall.
  assert (later s s2) as L by by transitivity s1.
  destruct e as [e|]; [apply wp_ret; split_and!; [congruence|done|exists k; split; [done|by apply F2]]|].
  specialize (Hall eq_refl). apply wp_bind, wp_gets, wp_bind, wp_hand_over.
  set (c0 := newConn fd false (sv_world s2) app0). change (set_world (sv_world s2) c0) with c0.
  eapply wp_mono; [apply OnOpen_calm; by left|]. cbv beta. intros [] c1 (W1 & St1).
  apply wp_bind, wp_hand_over. replace (set_world _ c1) with c1 by by destruct c1.
  eapply wp_mono; [by apply wp_loop_add|]. cbv beta. intros e c2 (V3 & Hok). apply wp_bind, wp_modify. cbn [sv_sent sv_world sv_calls].
  pose proof (step_view _ _ St1) as V4. change (world c0) with (sv_world s2) in V4.
  assert (world_view (world c2) = world_view (sv_world s)) as V by congruence.
  assert (forall x y, later s (mkSrv x y (sv_calls s2 ++ [CallAddRead e]))) as L'
    by (intros x y; transitivity s2; [done|by apply later_call]).
  destruct e as [e|]; apply wp_ret; (split; [exact V|]); (split; [apply L'|]);
    exists (length (buildUpgradeResponse req)); cbn [sv_sent]; rewrite firstn_all; (split; [exact Hall|]);
    [by apply gave_up_call|]. split; [exact Hall|].
  destruct (Hok eq_refl) as [W2 St2]. apply view_incoming in V as [Vi Vr].
  assert (world_view (sv_world s2) = world_view (sv_world s)) as [Ei Er]%view_incoming by congruence.
  rewrite <- Ei. apply (alive_serves fd); [|congruence]. intros Hs.
  eapply alive_rstep; [by apply alive_new| |done]. apply step_rstep. by transitivity c1.
Qed.

(** What the goroutine leaves behind. *)
Definition served (w : World) (fd : Z) (r : option (Conn App)) (s' : Srv) : Prop :=
  exists data, incoming w = data ++ incoming (sv_world s') /\
    (if Contains CRLFCRLF data
     then sv_sent s' = answer data \/ gave_up s' /\ exists k, sv_sent s' = take k (answer data)
     else sv_sent s' = []) /\
    match r with
    | None => closes (sv_calls s') = [fd]
    | Some c => closes (sv_calls s') = [] /\ Contains CRLFCRLF data = true /\
        (exists req, read_request data = inl req /\ hr_isUpgrade req = true) /\
        sv_sent s' = answer data /\ serves_frames (incoming (sv_world s')) c
    end.

Lemma wp_unix_Close fd w data s s2 : later (mkSrv w [] []) s2 -> incoming w = data ++ incoming (sv_world s2) ->
  (if Contains CRLFCRLF data
   then sv_sent s2 = answer data \/ gave_up s2 /\ exists k, sv_sent s2 = take k (answer data)
   else sv_sent s2 = []) -> s = s2 ->
  wp (unix_Close fd ;; mret None) (served w fd) s.
Proof.
  intros L Hin Hs ->. apply wp_bind. unfold unix_Close. apply wp_calling. intros [] w' [= <-]. apply wp_ret.
  exists data. cbn [sv_world sv_sent sv_calls]. pose proof (close_view fd (sv_world s2)) as [V _]%view_incoming.
  split; [by rewrite V|]. split.
  - destruct (Contains CRLFCRLF data); [|done]. destruct Hs as [Hs|[Hg Hs]]; [by left|right]. split; [|done].
    unfold gave_up. cbn [sv_calls]. apply Exists_app. by left.
  - apply later_closes in L. cbn in L. unfold closes in *. rewrite flat_map_app, L. done.
Qed.

End Whole.
End Served.

(** The kernel of [WsPlain], where a write takes at least one byte. *)
Definition desk_write (p : bytes) (w : plain_world) : (Z + errno) * plain_world :=
  match pw_room w with
  | [] => (inr EAGAIN, w)
  | n :: l => (inl (Z.min (zlen p) (Z.max 1 n)), mkWorld (pw_in w) l)
  end.

#[export] Instance ws_event_eq_dec : EqDecision ws_event.
Proof. assert (EqDecision wserror) by solve_decision. solve_decision. Defined.

#[export] Instance desk_lib : WsLib := {|
  World := plain_world;
  GetBytes := @GetBytes plain_lib;
  MaxFrameHeaderSize := 14;
  int_out_of_range _ := - 2 ^ 63;
  GetFin := @GetFin plain_lib;
  GetRsv1 := @GetRsv1 plain_lib;
  GetRsv2 := @GetRsv2 plain_lib;
  GetRsv3 := @GetRsv3 plain_lib;
  IsControl op := op >=? 8;
  mask := @mask plain_lib;
  frame_bytes := plain_frame;
  sys_read _ := plain_read;
  sys_write _ := desk_write;
  el_AddWrite _ w := (None, w);
  el_Del _ w := (None, w);
  el_ResetRead _ w := (None, w);
  el_close _ w := w;
  Compress b w := (inl b, w);
  Decompress b _ w := (inl b, w);
  rand_Uint32 w := (0x01020304, w);
|}.

#[export] Instance desk_laws : WsLaws.
Proof.
  refine {| incoming := plain_incoming : World -> bytes; reads_left := plain_left : World -> nat |};
    try done.
  - exact (@GetBytes_enough plain_lib plain_laws).
  - intros fd. exact plain_read_spec.
  - intros fd p w n w'. cbn. unfold desk_write. destruct (pw_room w) as [|k l]; [done|].
    intros [= <- _]. pose proof (zlen_nonneg p). lia.
  - intros fd p w. cbn. unfold desk_write. by destruct (pw_room w).
Defined.

(** [poll(2)]: ready, or the time is over. *)
Definition desk_poll (events : Z) (w : plain_world) : (Z + errno) * plain_world :=
  (inl (if events =? POLLIN then zlen (pw_in w) else zlen (pw_room w)), w).

#[export] Instance desk_srv : SrvLib := {|
  sys_poll _ ev _ w := desk_poll ev w;
  sys_close _ w := w;
  sys_nodelay _ w := (None, w);
  el_AddRead _ w := (None, w);
|}.

#[export] Instance desk_srv_laws : SrvLaws.
Proof.
  refine {| signals_left _ := 0%nat |}; try done.
  - intros fd t w n w' k [= <- <-] Hn Hk. cbn in *. unfold plain_read. destruct (pw_in w) as [|d l]; [done|].
    by destruct (zlen d <=? k).
  - intros fd t w n w' p [= <- <-] Hn Hp. cbn in *. unfold desk_write. by destruct (pw_room w).
  - intros fd p w n w'. cbn. unfold desk_write. destruct (pw_room w) as [|k l]; [done|]. intros [= <- _] Hp.
    destruct p; [done|]. rewrite zlen_cons. pose proof (zlen_nonneg p). lia.
Defined.

(** ** A connection *)

Definition desk_open : M (Conn (list ws_event)) unit := mret tt.

Lemma desk_open_calm : calm desk_open.
Proof. intros c Hc. by apply wp_ret. Qed.

Definition sample_bytes : bytes := tcp_request (str "/chat") sample_fields.

(** The request in two pieces, then "Hello" in a masked frame; the socket takes
    five bytes, asks to wait, and takes the rest. *)
Definition desk_world : plain_world :=
  mkWorld [upto 30 sample_bytes; from 30 sample_bytes; [129; 133; 55; 250; 33; 61]; [127; 159; 77; 81; 88]] [5; 1000].

Definition desk_serve (w : plain_world) : option (option (Conn (list ws_event)) * Srv) :=
  serve desk_open [] true ∅ 2000 7 (mkSrv w [] []).

(** For every prefix of a given input. *)
Lemma forall_prefix (P : bytes -> bool) (input : bytes) :
  forallb (fun k => P (take k input)) (seq 0 (S (length input))) = true ->
  forall data rest, input = data ++ rest -> P data = true.
Proof.
  intros Hall data rest ->. rewrite forallb_forall in Hall. specialize (Hall (length data)).
  rewrite take_app_length in Hall. apply Hall. apply in_seq. rewrite length_app. lia.
Qed.


(** ** Where the handshake is loose, or too strict *)

(** The handshake adds its values to the user's map, so the second dial with
    the same map sends two keys.  The server on [net/http] answers the first
    one, the client looks for the second. *)
Definition key1 : bytes := replicate 16 1.
Definition key2 : bytes := replicate 16 2.
Definition dial_response (key : bytes) (d : DialOption) : option (option error * DialOption) :=
  match client_handshake no_gen any_url key d with
  | Some (inl (h, sec), d') =>
      match prepareWriteResponse buf_Write no_gen (sample_request h) [] noDeflate [] with
      | Some (_, out) => rsp ← ReadResponse out; Some (validateRsp rsp sec, set_Scheme "ws" d')
      | None => None
      end
  | _ => None
  end.
Definition error_eqb (a b : option error) : bool :=
  match a, b with Some a, Some b => bool_decide (error_text a = error_text b) | None, None => true | _, _ => false end.

Theorem second_dial_refused :
  match dial_response key1 sample_dial with
  | Some (e1, d) =>
      match dial_response key2 d with
      | Some (e2, _) => error_eqb e1 None && error_eqb e2 (Some ErrSecWebSocketAccept)
      | None => false
      end
  | None => false
  end = true.
Proof. vm_compute. reflexivity. Qed.

(** A list of options in Connection, as browsers send it, is refused by the
    server on [net/http]; RFC 6455 asks for the option upgrade among them. *)
Theorem connection_list_refused :
  checkRequest (mkHttpRequest "GET" 1 1 "h" (Header_Add "Connection" "keep-alive, Upgrade"
    (Header_Add "Upgrade" "websocket" (Header_Add "Sec-Websocket-Key" "dGhlIHNhbXBsZSBub25jZQ=="
      (Header_Add "Sec-Websocket-Version" "13" ∅))))) = (400, Some ErrConnectionFieldValue).
Proof. by vm_compute. Qed.

(** The accept value is compared without case. *)
Theorem accept_without_case :
  validateRsp (mkResponse 101 (Header_Add "Upgrade" "websocket" (Header_Add "Connection" "Upgrade"
    (Header_Add "Sec-Websocket-Accept" "S3PPLMBITXAQ9KYGZZHZRBK+XOO=" ∅)))) "dGhlIHNhbXBsZSBub25jZQ==" = None.
Proof. by vm_compute. Qed.

(** When no offered protocol is known, the whole list is echoed. *)
Theorem unknown_protocols_echoed : subProtocol "chat, soap" ["mqtt"] = "chat, soap".
Proof. by vm_compute. Qed.

(** A key of more than 220 bytes pushes the GUID out of the array, so the accept
    value is wrong; nothing asks that a key has sixteen bytes. *)
Theorem long_key_wrong_accept :
  let req := set_key (replicate 230 65) emptyRequest in
  buildUpgradeResponse req <>
    render_head status101 (accept_fields (accept_value (hr_key req))).
Proof.
  cbn zeta. intros E. apply (f_equal (fun l => bool_decide (l = render_head status101
    (accept_fields (accept_value (replicate 230 65)))))) in E. revert E. by vm_compute.
Qed.

(** The small server asks for no method and no version, and takes the option of
    Connection for a part of a word. *)
Definition odd_bytes : bytes :=
  render_head (str "POST / HTTP/1.0")
    [(str "Upgrade", str "websocket"); (str "Connection", str "not-upgradeable");
     (str "Sec-WebSocket-Key", str "k"); (str "Sec-WebSocket-Version", str "13")].
Theorem odd_request_upgraded :
  match read_request odd_bytes with
  | inl req => hr_isUpgrade req && bool_decide (hr_method req = str "POST")
  | inr _ => false
  end = true.
Proof. by vm_compute. Qed.

(** A frame that arrives in the same read as the end of the head is lost: the
    connection starts with an empty buffer.  The client keeps such bytes. *)
Definition together_world : plain_world :=
  mkWorld [sample_bytes ++ [129; 133; 55; 250; 33; 61; 127; 159; 77; 81; 88]] [1000].
Theorem bytes_behind_head_lost :
  match desk_serve together_world with
  | Some (Some c, _) =>
      match run_events plain_config recorder 200 [PollReady true false] c with
      | Some (_, c') => (zlen (app c') =? 0) && negb (closed c') && (zlen (pw_in (world c' : plain_world)) =? 0)
      | None => false
      end
  | _ => false
  end = true.
Proof. vm_compute. reflexivity. Qed.
