(* ===== verification/WsOptions.v ===== *)
(** * WsOptions

    The settings of a websocket connection: [websocket/config.go] with the
    options of [common_options.go], [server_options.go] and
    [client_options.go], and the ways to give a callback in [callback.go].
    Whatever options are given, with callbacks that are not nil and multiples
    that are numbers, the configuration that comes out is well formed. *)

From Stdlib Require Import SpecFloat.
From S2P Require Import Prelude GoStd Sock WsHandshake.
From S2P Require WsState WsPlain WsSafe.

(** ** [callback.go] *)

Section Options.
Context {W : WsState.WsLib} {App : Type}.
Notation Conn := (WsState.Conn App).
Notation wserror := WsState.wserror.

Definition OnOpenFunc : Type := M Conn unit.
Definition OnMessageFunc : Type := Z -> bytes -> M Conn unit.
Definition OnCloseFunc : Type := option wserror -> M Conn unit.

(** The implementations of the interface [Callback]; a function value may be
    [nil], and a user may write one of his own. *)
Inductive callback : Type :=
  | DefCallback
  | CbOnMessage (f : OnMessageFunc)
  | CbOnClose (f : OnCloseFunc)
  | funcToCallback (open : option OnOpenFunc) (msg : option OnMessageFunc) (close : option OnCloseFunc)
  | UserCallback (open : OnOpenFunc) (msg : OnMessageFunc) (close : OnCloseFunc)
  | NilCallback.

Definition cb_OnOpen (cb : callback) : OnOpenFunc :=
  match cb with
  | DefCallback | CbOnMessage _ | CbOnClose _ => mret tt
  | funcToCallback open _ _ => default (mret tt) open
  | UserCallback open _ _ => open
  | NilCallback => panic
  end.
Definition cb_OnMessage (cb : callback) : OnMessageFunc :=
  match cb with
  | DefCallback | CbOnClose _ => fun _ _ => mret tt
  | CbOnMessage f => f
  | funcToCallback _ msg _ => default (fun _ _ => mret tt) msg
  | UserCallback _ msg _ => msg
  | NilCallback => fun _ _ => panic
  end.
Definition cb_OnClose (cb : callback) : OnCloseFunc :=
  match cb with
  | DefCallback | CbOnMessage _ => fun _ => mret tt
  | CbOnClose f => f
  | funcToCallback _ _ close => default (fun _ => mret tt) close
  | UserCallback _ _ close => close
  | NilCallback => fun _ => panic
  end.

(** The callback a connection runs with. *)
Definition run_callback (cb : callback) : WsState.Callback App :=
  {| WsState.OnMessage := cb_OnMessage cb; WsState.OnClose := cb_OnClose cb |}.

(** ** [config.go] *)

(** Durations are nanoseconds; [multiEventLoop] is a pointer; a [float32] is a
    number of IEEE 754. *)
Record Config : Type := mkConfig {
  cf_cb : callback;
  cf_pd : PermessageDeflateConf;
  cf_tcpNoDelay : bool;
  cf_replyPing : bool;
  cf_ignorePong : bool;
  cf_disableBufioClearHack : bool;
  cf_utf8Check : bytes -> bool;
  cf_readTimeout : Z;
  cf_windowsMultiple : spec_float;
  cf_maxDelayWriteNum : Z;
  cf_delayWriteInitBufferSize : Z;
  cf_maxDelayWriteDuration : Z;
  cf_subProtocols : list string;
  cf_multiEventLoop : option positive;
  cf_runInGoTask : string;
  cf_readMaxMessage : Z;
  cf_flowBackPressureRemoveRead : bool;
  cf_zeroCopyPayload : bool;
}.
Definition set_cb (v : callback) (c : Config) : Config := mkConfig v (cf_pd c) (cf_tcpNoDelay c)
   (cf_replyPing c) (cf_ignorePong c) (cf_disableBufioClearHack c) (cf_utf8Check c) (cf_readTimeout c)
   (cf_windowsMultiple c) (cf_maxDelayWriteNum c) (cf_delayWriteInitBufferSize c) (cf_maxDelayWriteDuration
   c) (cf_subProtocols c) (cf_multiEventLoop c) (cf_runInGoTask c) (cf_readMaxMessage c)
   (cf_flowBackPressureRemoveRead c) (cf_zeroCopyPayload c).
Definition set_pd (v : PermessageDeflateConf) (c : Config) : Config := mkConfig (cf_cb c) v (cf_tcpNoDelay
   c) (cf_replyPing c) (cf_ignorePong c) (cf_disableBufioClearHack c) (cf_utf8Check c) (cf_readTimeout c)
   (cf_windowsMultiple c) (cf_maxDelayWriteNum c) (cf_delayWriteInitBufferSize c) (cf_maxDelayWriteDuration
   c) (cf_subProtocols c) (cf_multiEventLoop c) (cf_runInGoTask c) (cf_readMaxMessage c)
   (cf_flowBackPressureRemoveRead c) (cf_zeroCopyPayload c).
Definition set_tcpNoDelay (v : bool) (c : Config) : Config := mkConfig (cf_cb c) (cf_pd c) v (cf_replyPing
   c) (cf_ignorePong c) (cf_disableBufioClearHack c) (cf_utf8Check c) (cf_readTimeout c)
   (cf_windowsMultiple c) (cf_maxDelayWriteNum c) (cf_delayWriteInitBufferSize c) (cf_maxDelayWriteDuration
   c) (cf_subProtocols c) (cf_multiEventLoop c) (cf_runInGoTask c) (cf_readMaxMessage c)
   (cf_flowBackPressureRemoveRead c) (cf_zeroCopyPayload c).
Definition set_replyPing (v : bool) (c : Config) : Config := mkConfig (cf_cb c) (cf_pd c) (cf_tcpNoDelay c)
   v (cf_ignorePong c) (cf_disableBufioClearHack c) (cf_utf8Check c) (cf_readTimeout c) (cf_windowsMultiple
   c) (cf_maxDelayWriteNum c) (cf_delayWriteInitBufferSize c) (cf_maxDelayWriteDuration c) (cf_subProtocols
   c) (cf_multiEventLoop c) (cf_runInGoTask c) (cf_readMaxMessage c) (cf_flowBackPressureRemoveRead c)
   (cf_zeroCopyPayload c).
Definition set_ignorePong (v : bool) (c : Config) : Config := mkConfig (cf_cb c) (cf_pd c) (cf_tcpNoDelay
   c) (cf_replyPing c) v (cf_disableBufioClearHack c) (cf_utf8Check c) (cf_readTimeout c)
   (cf_windowsMultiple c) (cf_maxDelayWriteNum c) (cf_delayWriteInitBufferSize c) (cf_maxDelayWriteDuration
   c) (cf_subProtocols c) (cf_multiEventLoop c) (cf_runInGoTask c) (cf_readMaxMessage c)
   (cf_flowBackPressureRemoveRead c) (cf_zeroCopyPayload c).
Definition set_disableBufioClearHack (v : bool) (c : Config) : Config := mkConfig (cf_cb c) (cf_pd c)
   (cf_tcpNoDelay c) (cf_replyPing c) (cf_ignorePong c) v (cf_utf8Check c) (cf_readTimeout c)
   (cf_windowsMultiple c) (cf_maxDelayWriteNum c) (cf_delayWriteInitBufferSize c) (cf_maxDelayWriteDuration
   c) (cf_subProtocols c) (cf_multiEventLoop c) (cf_runInGoTask c) (cf_readMaxMessage c)
   (cf_flowBackPressureRemoveRead c) (cf_zeroCopyPayload c).
Definition set_utf8Check (v : bytes -> bool) (c : Config) : Config := mkConfig (cf_cb c) (cf_pd c)
   (cf_tcpNoDelay c) (cf_replyPing c) (cf_ignorePong c) (cf_disableBufioClearHack c) v (cf_readTimeout c)
   (cf_windowsMultiple c) (cf_maxDelayWriteNum c) (cf_delayWriteInitBufferSize c) (cf_maxDelayWriteDuration
   c) (cf_subProtocols c) (cf_multiEventLoop c) (cf_runInGoTask c) (cf_readMaxMessage c)
   (cf_flowBackPressureRemoveRead c) (cf_zeroCopyPayload c).
Definition set_readTimeout (v : Z) (c : Config) : Config := mkConfig (cf_cb c) (cf_pd c) (cf_tcpNoDelay c)
   (cf_replyPing c) (cf_ignorePong c) (cf_disableBufioClearHack c) (cf_utf8Check c) v (cf_windowsMultiple
   c) (cf_maxDelayWriteNum c) (cf_delayWriteInitBufferSize c) (cf_maxDelayWriteDuration c) (cf_subProtocols
   c) (cf_multiEventLoop c) (cf_runInGoTask c) (cf_readMaxMessage c) (cf_flowBackPressureRemoveRead c)
   (cf_zeroCopyPayload c).
Definition set_windowsMultiple (v : spec_float) (c : Config) : Config := mkConfig (cf_cb c) (cf_pd c)
   (cf_tcpNoDelay c) (cf_replyPing c) (cf_ignorePong c) (cf_disableBufioClearHack c) (cf_utf8Check c)
   (cf_readTimeout c) v (cf_maxDelayWriteNum c) (cf_delayWriteInitBufferSize c) (cf_maxDelayWriteDuration
   c) (cf_subProtocols c) (cf_multiEventLoop c) (cf_runInGoTask c) (cf_readMaxMessage c)
   (cf_flowBackPressureRemoveRead c) (cf_zeroCopyPayload c).
Definition set_maxDelayWriteNum (v : Z) (c : Config) : Config := mkConfig (cf_cb c) (cf_pd c)
   (cf_tcpNoDelay c) (cf_replyPing c) (cf_ignorePong c) (cf_disableBufioClearHack c) (cf_utf8Check c)
   (cf_readTimeout c) (cf_windowsMultiple c) v (cf_delayWriteInitBufferSize c) (cf_maxDelayWriteDuration c)
   (cf_subProtocols c) (cf_multiEventLoop c) (cf_runInGoTask c) (cf_readMaxMessage c)
   (cf_flowBackPressureRemoveRead c) (cf_zeroCopyPayload c).
Definition set_delayWriteInitBufferSize (v : Z) (c : Config) : Config := mkConfig (cf_cb c) (cf_pd c)
   (cf_tcpNoDelay c) (cf_replyPing c) (cf_ignorePong c) (cf_disableBufioClearHack c) (cf_utf8Check c)
   (cf_readTimeout c) (cf_windowsMultiple c) (cf_maxDelayWriteNum c) v (cf_maxDelayWriteDuration c)
   (cf_subProtocols c) (cf_multiEventLoop c) (cf_runInGoTask c) (cf_readMaxMessage c)
   (cf_flowBackPressureRemoveRead c) (cf_zeroCopyPayload c).
Definition set_maxDelayWriteDuration (v : Z) (c : Config) : Config := mkConfig (cf_cb c) (cf_pd c)
   (cf_tcpNoDelay c) (cf_replyPing c) (cf_ignorePong c) (cf_disableBufioClearHack c) (cf_utf8Check c)
   (cf_readTimeout c) (cf_windowsMultiple c) (cf_maxDelayWriteNum c) (cf_delayWriteInitBufferSize c) v
   (cf_subProtocols c) (cf_multiEventLoop c) (cf_runInGoTask c) (cf_readMaxMessage c)
   (cf_flowBackPressureRemoveRead c) (cf_zeroCopyPayload c).
Definition set_subProtocols (v : list string) (c : Config) : Config := mkConfig (cf_cb c) (cf_pd c)
   (cf_tcpNoDelay c) (cf_replyPing c) (cf_ignorePong c) (cf_disableBufioClearHack c) (cf_utf8Check c)
   (cf_readTimeout c) (cf_windowsMultiple c) (cf_maxDelayWriteNum c) (cf_delayWriteInitBufferSize c)
   (cf_maxDelayWriteDuration c) v (cf_multiEventLoop c) (cf_runInGoTask c) (cf_readMaxMessage c)
   (cf_flowBackPressureRemoveRead c) (cf_zeroCopyPayload c).
Definition set_multiEventLoop (v : option positive) (c : Config) : Config := mkConfig (cf_cb c) (cf_pd c)
   (cf_tcpNoDelay c) (cf_replyPing c) (cf_ignorePong c) (cf_disableBufioClearHack c) (cf_utf8Check c)
   (cf_readTimeout c) (cf_windowsMultiple c) (cf_maxDelayWriteNum c) (cf_delayWriteInitBufferSize c)
   (cf_maxDelayWriteDuration c) (cf_subProtocols c) v (cf_runInGoTask c) (cf_readMaxMessage c)
   (cf_flowBackPressureRemoveRead c) (cf_zeroCopyPayload c).
Definition set_runInGoTask (v : string) (c : Config) : Config := mkConfig (cf_cb c) (cf_pd c)
   (cf_tcpNoDelay c) (cf_replyPing c) (cf_ignorePong c) (cf_disableBufioClearHack c) (cf_utf8Check c)
   (cf_readTimeout c) (cf_windowsMultiple c) (cf_maxDelayWriteNum c) (cf_delayWriteInitBufferSize c)
   (cf_maxDelayWriteDuration c) (cf_subProtocols c) (cf_multiEventLoop c) v (cf_readMaxMessage c)
   (cf_flowBackPressureRemoveRead c) (cf_zeroCopyPayload c).
Definition set_readMaxMessage (v : Z) (c : Config) : Config := mkConfig (cf_cb c) (cf_pd c) (cf_tcpNoDelay
   c) (cf_replyPing c) (cf_ignorePong c) (cf_disableBufioClearHack c) (cf_utf8Check c) (cf_readTimeout c)
   (cf_windowsMultiple c) (cf_maxDelayWriteNum c) (cf_delayWriteInitBufferSize c) (cf_maxDelayWriteDuration
   c) (cf_subProtocols c) (cf_multiEventLoop c) (cf_runInGoTask c) v (cf_flowBackPressureRemoveRead c)
   (cf_zeroCopyPayload c).
Definition set_flowBackPressureRemoveRead (v : bool) (c : Config) : Config := mkConfig (cf_cb c) (cf_pd c)
   (cf_tcpNoDelay c) (cf_replyPing c) (cf_ignorePong c) (cf_disableBufioClearHack c) (cf_utf8Check c)
   (cf_readTimeout c) (cf_windowsMultiple c) (cf_maxDelayWriteNum c) (cf_delayWriteInitBufferSize c)
   (cf_maxDelayWriteDuration c) (cf_subProtocols c) (cf_multiEventLoop c) (cf_runInGoTask c)
   (cf_readMaxMessage c) v (cf_zeroCopyPayload c).
Definition set_zeroCopyPayload (v : bool) (c : Config) : Config := mkConfig (cf_cb c) (cf_pd c)
   (cf_tcpNoDelay c) (cf_replyPing c) (cf_ignorePong c) (cf_disableBufioClearHack c) (cf_utf8Check c)
   (cf_readTimeout c) (cf_windowsMultiple c) (cf_maxDelayWriteNum c) (cf_delayWriteInitBufferSize c)
   (cf_maxDelayWriteDuration c) (cf_subProtocols c) (cf_multiEventLoop c) (cf_runInGoTask c)
   (cf_readMaxMessage c) (cf_flowBackPressureRemoveRead c) v.

Definition Millisecond : Z := 1000000.

(** The zero value, and what [defaultSetting] makes of it. *)
Definition zeroConfig : Config :=
  mkConfig NilCallback noDeflate false false false false (fun _ => true) 0 (S754_zero false) 0 0 0 [] None "" 0 false false.

Definition defaultSetting (c : Config) : Config :=
  set_runInGoTask "elastic" (set_utf8Check (fun _ => true) (set_tcpNoDelay true
    (set_maxDelayWriteDuration (10 * Millisecond) (set_delayWriteInitBufferSize (8 * 1024)
      (set_windowsMultiple two32 (set_maxDelayWriteNum 10 (set_cb DefCallback c))))))).

(** The groups of event loops that run; [Start] does its work once
    ([WsLoops.Start] is its flag). *)
Definition Running : Type := gset positive.
Definition Start (m : positive) (running : Running) : Running := {[ m ]} ∪ running.

(** [dflt] is what [getDefaultMultiEventLoop] has made; [None]: a call through a
    nil pointer. *)
Definition defaultSettingAfter (dflt : positive) (c : Config) (running : Running) : option (Config * Running) :=
  let c := match cf_multiEventLoop c with None => set_multiEventLoop (Some dflt) c | Some _ => c end in
  (fun m => (c, Start m running)) <$> cf_multiEventLoop c.

(** ** Options *)

(** [ConnOption] is a [Config]; [DialOptions] has more fields. *)
Definition ServerOption : Type := Config -> Config.

Record DialOptions : Type := mkDialOptions {
  do_Header : option Header;
  do_tlsConfig : option positive;
  do_dialTimeout : Z;
  do_bindClientHttpHeader : option positive;
  do_config : Config;
}.
Definition ClientOption : Type := DialOptions -> DialOptions.
Definition on_config (f : Config -> Config) : ClientOption :=
  fun o => mkDialOptions (do_Header o) (do_tlsConfig o) (do_dialTimeout o) (do_bindClientHttpHeader o) (f (do_config o)).

(** Settings of the extension. *)
Definition on_pd (f : PermessageDeflateConf -> PermessageDeflateConf) (c : Config) : Config := set_pd (f (cf_pd c)) c.
Definition pd_Decompression (p : PermessageDeflateConf) : PermessageDeflateConf :=
  mkPd (Enable p) true (Compression p) (ServerContextTakeover p) (ClientContextTakeover p) (ServerMaxWindowBits p) (ClientMaxWindowBits p).
Definition pd_Compression (p : PermessageDeflateConf) : PermessageDeflateConf :=
  mkPd (Enable p) (Decompression p) true (ServerContextTakeover p) (ClientContextTakeover p) (ServerMaxWindowBits p) (ClientMaxWindowBits p).
Definition pd_ServerContextTakeover (p : PermessageDeflateConf) : PermessageDeflateConf :=
  mkPd (Enable p) (Decompression p) (Compression p) true (ClientContextTakeover p) (ServerMaxWindowBits p) (ClientMaxWindowBits p).
Definition pd_ClientContextTakeover (p : PermessageDeflateConf) : PermessageDeflateConf :=
  mkPd (Enable p) (Decompression p) (Compression p) (ServerContextTakeover p) true (ServerMaxWindowBits p) (ClientMaxWindowBits p).
Definition pd_ServerMaxWindowBits (n : Z) (p : PermessageDeflateConf) : PermessageDeflateConf :=
  mkPd (Enable p) (Decompression p) (Compression p) (ServerContextTakeover p) (ClientContextTakeover p) n (ClientMaxWindowBits p).
Definition pd_ClientMaxWindowBits (n : Z) (p : PermessageDeflateConf) : PermessageDeflateConf :=
  mkPd (Enable p) (Decompression p) (Compression p) (ServerContextTakeover p) (ClientContextTakeover p) (ServerMaxWindowBits p) n.

(** [if mt < 1.0 { mt = 1.0 }]. *)
Definition at_least_one (mt : spec_float) : spec_float := if SFltb mt one32 then one32 else mt.
Definition set_bits (f : Z -> PermessageDeflateConf -> PermessageDeflateConf) (bits : Z) (c : Config) : Config :=
  if (bits <? 8) || (bits >? 15) then c else on_pd (f bits) c.
Definition set_task (name : string) (c : Config) : Config :=
  if 0 <? zlen (str name) then set_runInGoTask name c else c.

Definition WithServerCallbackFunc (open : option OnOpenFunc) (m : option OnMessageFunc) (c : option OnCloseFunc) : ServerOption :=
  set_cb (funcToCallback open m c).
Definition WithClientCallbackFunc (open : option OnOpenFunc) (m : option OnMessageFunc) (c : option OnCloseFunc) : ClientOption :=
  on_config (set_cb (funcToCallback open m c)).
Definition WithServerCallback (cb : callback) : ServerOption := set_cb cb.
Definition WithClientCallback (cb : callback) : ClientOption := on_config (set_cb cb).
Definition WithServerTCPDelay : ServerOption := set_tcpNoDelay false.
Definition WithClientTCPDelay : ClientOption := on_config (set_tcpNoDelay false).
Definition WithServerEnableUTF8Check : ServerOption := set_utf8Check utf8_Valid.
Definition WithClientEnableUTF8Check : ClientOption := on_config (set_utf8Check utf8_Valid).
Definition WithServerOnMessageFunc (f : OnMessageFunc) : ServerOption := set_cb (CbOnMessage f).
Definition WithClientOnMessageFunc (f : OnMessageFunc) : ClientOption := on_config (set_cb (CbOnMessage f)).
Definition WithServerReplyPing : ServerOption := set_replyPing true.
Definition WithClientReplyPing : ClientOption := on_config (set_replyPing true).
Definition WithServerIgnorePong : ServerOption := set_ignorePong true.
Definition WithClientIgnorePong : ClientOption := on_config (set_ignorePong true).
Definition WithServerWindowsMultipleTimesPayloadSize (mt : spec_float) : ServerOption :=
  set_windowsMultiple (at_least_one mt).
Definition WithClientWindowsMultipleTimesPayloadSize (mt : spec_float) : ClientOption :=
  on_config (set_windowsMultiple (at_least_one mt)).
Definition WithServerDecompression : ServerOption := on_pd pd_Decompression.
Definition WithClientDecompression : ClientOption := on_config (on_pd pd_Decompression).
Definition WithServerDisableBufioClearHack : ServerOption := set_disableBufioClearHack true.
Definition WithClientDisableBufioClearHack : ClientOption := on_config (set_disableBufioClearHack true).
Definition WithServerMaxDelayWriteDuration (d : Z) : ServerOption := set_maxDelayWriteDuration d.
Definition WithClientMaxDelayWriteDuration (d : Z) : ClientOption := on_config (set_maxDelayWriteDuration d).
Definition WithServerMaxDelayWriteNum (n : Z) : ServerOption := set_maxDelayWriteNum n.
Definition WithClientMaxDelayWriteNum (n : Z) : ClientOption := on_config (set_maxDelayWriteNum n).
Definition WithServerDelayWriteInitBufferSize (n : Z) : ServerOption := set_delayWriteInitBufferSize n.
Definition WithClientDelayWriteInitBufferSize (n : Z) : ClientOption :=
  on_config (set_delayWriteInitBufferSize n).
Definition WithServerReadTimeout (t : Z) : ServerOption := set_readTimeout t.
Definition WithClientReadTimeout (t : Z) : ClientOption := on_config (set_readTimeout t).
Definition WithServerOnCloseFunc (f : OnCloseFunc) : ServerOption := set_cb (CbOnClose f).
Definition WithClientOnCloseFunc (f : OnCloseFunc) : ClientOption := on_config (set_cb (CbOnClose f)).
Definition WithServerCallbackInEventLoop : ServerOption := set_runInGoTask "io".
Definition WithClientCallbackInEventLoop : ClientOption := on_config (set_runInGoTask "io").
Definition WithServerOneByOneMode : ServerOption := set_runInGoTask "onebyone".
Definition WithClientOneByOneMode : ClientOption := on_config (set_runInGoTask "onebyone").
Definition WithServerElasticMode : ServerOption := set_runInGoTask "elastic".
Definition WithClientElasticMode : ClientOption := on_config (set_runInGoTask "elastic").
Definition WithServerCustomTaskMode (taskName : string) : ServerOption := set_task taskName.
Definition WithClientCustomTaskMode (taskName : string) : ClientOption := on_config (set_task taskName).
Definition WithServerMultiEventLoop (m : option positive) : ServerOption := set_multiEventLoop m.
Definition WithClientMultiEventLoop (m : option positive) : ClientOption := on_config (set_multiEventLoop m).
Definition WithServerDecompressAndCompress : ServerOption :=
  fun c => on_pd pd_Decompression (on_pd pd_Compression c).
Definition WithClientDecompressAndCompress : ClientOption :=
  on_config (fun c => on_pd pd_Decompression (on_pd pd_Compression c)).
Definition WithServerReadMaxMessage (size : Z) : ServerOption := set_readMaxMessage size.
Definition WithClientReadMaxMessage (size : Z) : ClientOption := on_config (set_readMaxMessage size).
Definition WithServerContextTakeover : ServerOption := on_pd pd_ServerContextTakeover.
Definition WithClientContextTakeover : ClientOption := on_config (on_pd pd_ClientContextTakeover).
Definition WithServerMaxWindowBits (bits : Z) : ServerOption := set_bits pd_ServerMaxWindowBits bits.
Definition WithClientMaxWindowsBits (bits : Z) : ClientOption :=
  on_config (set_bits pd_ClientMaxWindowBits bits).
Definition WithFlowBackPressureRemoveRead : ServerOption := set_flowBackPressureRemoveRead true.
Definition WithClientFlowBackPressureRemoveRead : ClientOption :=
  on_config (set_flowBackPressureRemoveRead true).
Definition WithServerZeroCopyPayload : ServerOption := set_zeroCopyPayload true.
Definition WithServerSubprotocols (subprotocols : list string) : ServerOption :=
  set_subProtocols subprotocols.
Definition WithClientCompression : ClientOption := on_config (on_pd pd_Compression).

(** Options of the client alone. *)
Definition WithClientTLSConfig (tls : option positive) : ClientOption :=
  fun o => mkDialOptions (do_Header o) tls (do_dialTimeout o) (do_bindClientHttpHeader o) (do_config o).
Definition WithClientHTTPHeader (h : option Header) : ClientOption :=
  fun o => mkDialOptions h (do_tlsConfig o) (do_dialTimeout o) (do_bindClientHttpHeader o) (do_config o).
Definition WithClientDialTimeout (t : Z) : ClientOption :=
  fun o => mkDialOptions (do_Header o) (do_tlsConfig o) t (do_bindClientHttpHeader o) (do_config o).
Definition WithClientBindHTTPHeader (h : option positive) : ClientOption :=
  fun o => mkDialOptions (do_Header o) (do_tlsConfig o) (do_dialTimeout o) h (do_config o).

(** The options the package offers, given a callback and not a nil interface, and
    a multiple that is a number. *)
Inductive server_option : ServerOption -> Prop :=
  | is_WithServerCallbackFunc (open : option OnOpenFunc) (m : option OnMessageFunc) (c : option OnCloseFunc) : server_option (WithServerCallbackFunc open m c)
  | is_WithServerCallback (cb : callback) : cb <> NilCallback -> server_option (WithServerCallback cb)
  | is_WithServerTCPDelay : server_option WithServerTCPDelay
  | is_WithServerEnableUTF8Check : server_option WithServerEnableUTF8Check
  | is_WithServerOnMessageFunc (f : OnMessageFunc) : server_option (WithServerOnMessageFunc f)
  | is_WithServerReplyPing : server_option WithServerReplyPing
  | is_WithServerIgnorePong : server_option WithServerIgnorePong
  | is_WithServerWindowsMultipleTimesPayloadSize (mt : spec_float) : mt <> S754_nan -> server_option (WithServerWindowsMultipleTimesPayloadSize mt)
  | is_WithServerDecompression : server_option WithServerDecompression
  | is_WithServerDisableBufioClearHack : server_option WithServerDisableBufioClearHack
  | is_WithServerMaxDelayWriteDuration (d : Z) : server_option (WithServerMaxDelayWriteDuration d)
  | is_WithServerMaxDelayWriteNum (n : Z) : server_option (WithServerMaxDelayWriteNum n)
  | is_WithServerDelayWriteInitBufferSize (n : Z) : server_option (WithServerDelayWriteInitBufferSize n)
  | is_WithServerReadTimeout (t : Z) : server_option (WithServerReadTimeout t)
  | is_WithServerOnCloseFunc (f : OnCloseFunc) : server_option (WithServerOnCloseFunc f)
  | is_WithServerCallbackInEventLoop : server_option WithServerCallbackInEventLoop
  | is_WithServerOneByOneMode : server_option WithServerOneByOneMode
  | is_WithServerElasticMode : server_option WithServerElasticMode
  | is_WithServerCustomTaskMode (taskName : string) : server_option (WithServerCustomTaskMode taskName)
  | is_WithServerMultiEventLoop (m : option positive) : server_option (WithServerMultiEventLoop m)
  | is_WithServerDecompressAndCompress : server_option WithServerDecompressAndCompress
  | is_WithServerReadMaxMessage (size : Z) : server_option (WithServerReadMaxMessage size)
  | is_WithServerContextTakeover : server_option WithServerContextTakeover
  | is_WithServerMaxWindowBits (bits : Z) : server_option (WithServerMaxWindowBits bits)
  | is_WithFlowBackPressureRemoveRead : server_option WithFlowBackPressureRemoveRead
  | is_WithServerZeroCopyPayload : server_option WithServerZeroCopyPayload
  | is_WithServerSubprotocols (subprotocols : list string) : server_option (WithServerSubprotocols subprotocols).
Inductive client_option : ClientOption -> Prop :=
  | is_WithClientCallbackFunc (open : option OnOpenFunc) (m : option OnMessageFunc) (c : option OnCloseFunc) : client_option (WithClientCallbackFunc open m c)
  | is_WithClientCallback (cb : callback) : cb <> NilCallback -> client_option (WithClientCallback cb)
  | is_WithClientTCPDelay : client_option WithClientTCPDelay
  | is_WithClientEnableUTF8Check : client_option WithClientEnableUTF8Check
  | is_WithClientOnMessageFunc (f : OnMessageFunc) : client_option (WithClientOnMessageFunc f)
  | is_WithClientReplyPing : client_option WithClientReplyPing
  | is_WithClientIgnorePong : client_option WithClientIgnorePong
  | is_WithClientWindowsMultipleTimesPayloadSize (mt : spec_float) : mt <> S754_nan -> client_option (WithClientWindowsMultipleTimesPayloadSize mt)
  | is_WithClientDecompression : client_option WithClientDecompression
  | is_WithClientDisableBufioClearHack : client_option WithClientDisableBufioClearHack
  | is_WithClientMaxDelayWriteDuration (d : Z) : client_option (WithClientMaxDelayWriteDuration d)
  | is_WithClientMaxDelayWriteNum (n : Z) : client_option (WithClientMaxDelayWriteNum n)
  | is_WithClientDelayWriteInitBufferSize (n : Z) : client_option (WithClientDelayWriteInitBufferSize n)
  | is_WithClientReadTimeout (t : Z) : client_option (WithClientReadTimeout t)
  | is_WithClientOnCloseFunc (f : OnCloseFunc) : client_option (WithClientOnCloseFunc f)
  | is_WithClientCallbackInEventLoop : client_option WithClientCallbackInEventLoop
  | is_WithClientOneByOneMode : client_option WithClientOneByOneMode
  | is_WithClientElasticMode : client_option WithClientElasticMode
  | is_WithClientCustomTaskMode (taskName : string) : client_option (WithClientCustomTaskMode taskName)
  | is_WithClientMultiEventLoop (m : option positive) : client_option (WithClientMultiEventLoop m)
  | is_WithClientDecompressAndCompress : client_option WithClientDecompressAndCompress
  | is_WithClientReadMaxMessage (size : Z) : client_option (WithClientReadMaxMessage size)
  | is_WithClientContextTakeover : client_option WithClientContextTakeover
  | is_WithClientMaxWindowsBits (bits : Z) : client_option (WithClientMaxWindowsBits bits)
  | is_WithClientFlowBackPressureRemoveRead : client_option WithClientFlowBackPressureRemoveRead
  | is_WithClientCompression : client_option WithClientCompression
  | is_WithClientTLSConfig (tls : option positive) : client_option (WithClientTLSConfig tls)
  | is_WithClientHTTPHeader (h : option Header) : client_option (WithClientHTTPHeader h)
  | is_WithClientDialTimeout (t : Z) : client_option (WithClientDialTimeout t)
  | is_WithClientBindHTTPHeader (h : option positive) : client_option (WithClientBindHTTPHeader h).

(** ** What the constructors do with them *)

Definition NewUpgrade (dflt : positive) (opts : list ServerOption) (running : Running) : option (Config * Running) :=
  defaultSettingAfter dflt (fold_left (fun c o => o c) opts (defaultSetting zeroConfig)) running.

Definition defaultTimeout : Z := 30 * 60 * 1000 * Millisecond.
Definition ClientOptionToConf (dflt : positive) (opts : list ClientOption) (running : Running)
    : option (DialOptions * Running) :=
  let dial := mkDialOptions None None defaultTimeout None (defaultSetting zeroConfig) in
  let d := fold_left (fun d o => o d) opts dial in
  (fun cr => (on_config (fun _ => fst cr) d, snd cr)) <$> defaultSettingAfter dflt (do_config d) running.

(** ** What every configuration satisfies *)

Definition bits_ok (n : Z) : Prop := n = 0 \/ 8 <= n <= 15.

(** There is a callback and a way to run it, the multiple is a number that is at
    least one, window bits are those of DEFLATE or not set. *)
Record config_ok (c : Config) : Prop := {
  ok_cb : cf_cb c <> NilCallback;
  ok_multiple : SFleb one32 (cf_windowsMultiple c) = true;
  ok_server_bits : bits_ok (ServerMaxWindowBits (cf_pd c));
  ok_client_bits : bits_ok (ClientMaxWindowBits (cf_pd c));
  ok_task : cf_runInGoTask c <> "";
}.

Lemma default_config_ok : config_ok (defaultSetting zeroConfig).
Proof. split; [done|by vm_compute|by left|by left|done]. Qed.

Lemma not_below m e mt : mt <> S754_nan ->
  SFltb mt (S754_finite false m e) = false -> SFleb (S754_finite false m e) mt = true.
Proof.
  intros Hn. unfold SFltb, SFleb, SFcompare. destruct mt as [[]|[]| |[] m' e']; try done.
  rewrite (Z.compare_antisym e'). destruct (e' ?= e); try done. cbn [CompOpp].
  change (Pos.compare_cont Eq m' m) with (m' ?= m)%positive. change (Pos.compare_cont Eq m m') with (m ?= m')%positive.
  rewrite (Pos.compare_antisym m'). by destruct (m' ?= m)%positive.
Qed.

Lemma at_least_one_ok mt : mt <> S754_nan -> SFleb one32 (at_least_one mt) = true.
Proof.
  intros Hn. unfold at_least_one. destruct (SFltb mt one32) eqn:E; [by vm_compute|]. revert E. by apply not_below.
Qed.

Lemma set_bits_ok f bits c :
  (forall p, bits_ok bits -> bits_ok (ServerMaxWindowBits p) -> bits_ok (ClientMaxWindowBits p) ->
     bits_ok (ServerMaxWindowBits (f bits p)) /\ bits_ok (ClientMaxWindowBits (f bits p))) ->
  config_ok c -> config_ok (set_bits f bits c).
Proof.
  intros Hf [H0 H1 H2 H3 H4]. unfold set_bits. destruct ((bits <? 8) || (bits >? 15)) eqn:E; [done|].
  destruct (Hf (cf_pd c)) as [F1 F2]; [right; lia|done|done|]. by split.
Qed.

Lemma server_option_ok o c : server_option o -> config_ok c -> config_ok (o c).
Proof.
  intros Ho Hc. destruct Ho; try (by destruct Hc; split).
  - destruct Hc. split; try done. by apply at_least_one_ok.
  - unfold WithServerCustomTaskMode, set_task. destruct (Z.ltb_spec 0 (zlen (str taskName))) as [Hl|]; [|done].
    destruct Hc. split; try done. cbn. by intros ->.
  - apply set_bits_ok; [|done]. by intros p ? ? ?.
Qed.

Lemma client_option_ok o d : client_option o -> config_ok (do_config d) -> config_ok (do_config (o d)).
Proof.
  intros Ho Hc. destruct Ho; try (by destruct Hc; split).
  - destruct Hc. split; try done. by apply at_least_one_ok.
  - unfold WithClientCustomTaskMode, on_config, set_task. cbn [do_config].
    destruct (Z.ltb_spec 0 (zlen (str taskName))) as [Hl|]; [|done].
    destruct Hc. split; try done. cbn. by intros ->.
  - apply set_bits_ok; [|done]. by intros p ? ? ?.
Qed.

(** A group of loops that runs, among those that ran before. *)
Definition on_running_loops (c : Config) (running running' : Running) : Prop :=
  running ⊆ running' /\ exists m, cf_multiEventLoop c = Some m /\ m ∈ running'.

Lemma defaultSettingAfter_ok dflt c running : config_ok c ->
  exists c' running', defaultSettingAfter dflt c running = Some (c', running') /\
    config_ok c' /\ on_running_loops c' running running'.
Proof.
  intros [H0 H1 H2 H3 H4]. unfold defaultSettingAfter, on_running_loops, Start.
  destruct (cf_multiEventLoop c) as [m|] eqn:E; [rewrite E|]; eexists _, _; (split; [done|]);
    (split; [by split|]); (split; [set_solver|]); [exists m|exists dflt]; (split; [done|set_solver]).
Qed.


(** A multiple that is not a number passes the guard. *)
Theorem nan_multiple_accepted : at_least_one S754_nan = S754_nan.
Proof. by vm_compute. Qed.
End Options.

(** Options that are taken, and options that are out of range. *)
Definition sample_options : list (ServerOption (W := WsPlain.plain_lib) (App := unit)) :=
  [WithServerReplyPing; WithServerMaxWindowBits 12; WithServerMaxWindowBits 40;
   WithServerCustomTaskMode ""; WithServerWindowsMultipleTimesPayloadSize (float32 0)].


(** Callbacks that the theorems on connections take: those made of functions
    that keep the contract. *)
Section Calm.
Context `{WsState.WsLib} `{!WsState.WsLaws} {App : Type}.

Definition callback_calm (cb : callback (App := App)) : Prop :=
  cb <> NilCallback /\
  match cb with
  | CbOnMessage f => forall op p, WsSafe.calm (f op p)
  | CbOnClose f => forall e, WsSafe.calm (f e)
  | funcToCallback _ m c =>
      (forall f op p, m = Some f -> WsSafe.calm (f op p)) /\ (forall f e, c = Some f -> WsSafe.calm (f e))
  | UserCallback _ m c => (forall op p, WsSafe.calm (m op p)) /\ (forall e, WsSafe.calm (c e))
  | _ => True
  end.

Lemma run_callback_ok cb : callback_calm cb -> WsSafe.CallbackOk (run_callback cb).
Proof.
  intros [Hn Hf]. split.
  - intros op p. change (WsSafe.calm (cb_OnMessage cb op p)).
    destruct cb as [|f|f|open [m|] c|open m c|]; cbn; try apply WsSafe.calm_mret;
      [exact (Hf op p)|exact (proj1 Hf m op p eq_refl)|exact (proj1 Hf op p)|done].
  - intros e. change (WsSafe.calm (cb_OnClose cb e)).
    destruct cb as [|f|f|open m [c|]|open m c|]; cbn; try apply WsSafe.calm_mret;
      [exact (Hf e)|exact (proj2 Hf c e eq_refl)|exact (proj2 Hf e)|done].
Qed.
End Calm.
