(* ===== verification/WsLoops.v ===== *)
(** * WsLoops

    The event loops of [websocket] and the pool of parsers: the options and
    their defaults in [multi_event_loops.go] and [multi_event_loops_option.go],
    the set-up of the pool in [task_parse.go], and the registration of
    connections.  The goroutines that are started run [WsRead.on_poll] and
    [TaskParse]. *)

From S2P Require Import Prelude GoStd Sock.

(** ** Options *)

Record taskConfig : Type := mkTaskConfig { tc_initCount : Z; tc_min : Z; tc_max : Z }.

Record multiEventLoopOption : Type := mkLoopOption {
  numLoops : Z;
  configTask : taskConfig;
  level : Z;
  maxEventNum : Z;
  parseInWorkerPool : bool;
  parseGoroutines : Z;
  parsePinned : bool;
  parseWorkersPerShard : Z;
  parseInEventLoop : bool;
  gosched : bool;
  batchSize : Z;
  evflag : Z;
}.
Definition set_numLoops (v : Z) (o : multiEventLoopOption) : multiEventLoopOption := mkLoopOption v
   (configTask o) (level o) (maxEventNum o) (parseInWorkerPool o) (parseGoroutines o) (parsePinned o)
   (parseWorkersPerShard o) (parseInEventLoop o) (gosched o) (batchSize o) (evflag o).
Definition set_configTask (v : taskConfig) (o : multiEventLoopOption) : multiEventLoopOption :=
   mkLoopOption (numLoops o) v (level o) (maxEventNum o) (parseInWorkerPool o) (parseGoroutines o)
   (parsePinned o) (parseWorkersPerShard o) (parseInEventLoop o) (gosched o) (batchSize o) (evflag o).
Definition set_level (v : Z) (o : multiEventLoopOption) : multiEventLoopOption := mkLoopOption (numLoops o)
   (configTask o) v (maxEventNum o) (parseInWorkerPool o) (parseGoroutines o) (parsePinned o)
   (parseWorkersPerShard o) (parseInEventLoop o) (gosched o) (batchSize o) (evflag o).
Definition set_maxEventNum (v : Z) (o : multiEventLoopOption) : multiEventLoopOption := mkLoopOption
   (numLoops o) (configTask o) (level o) v (parseInWorkerPool o) (parseGoroutines o) (parsePinned o)
   (parseWorkersPerShard o) (parseInEventLoop o) (gosched o) (batchSize o) (evflag o).
Definition set_parseInWorkerPool (v : bool) (o : multiEventLoopOption) : multiEventLoopOption :=
   mkLoopOption (numLoops o) (configTask o) (level o) (maxEventNum o) v (parseGoroutines o) (parsePinned o)
   (parseWorkersPerShard o) (parseInEventLoop o) (gosched o) (batchSize o) (evflag o).
Definition set_parseGoroutines (v : Z) (o : multiEventLoopOption) : multiEventLoopOption := mkLoopOption
   (numLoops o) (configTask o) (level o) (maxEventNum o) (parseInWorkerPool o) v (parsePinned o)
   (parseWorkersPerShard o) (parseInEventLoop o) (gosched o) (batchSize o) (evflag o).
Definition set_parsePinned (v : bool) (o : multiEventLoopOption) : multiEventLoopOption := mkLoopOption
   (numLoops o) (configTask o) (level o) (maxEventNum o) (parseInWorkerPool o) (parseGoroutines o) v
   (parseWorkersPerShard o) (parseInEventLoop o) (gosched o) (batchSize o) (evflag o).
Definition set_parseWorkersPerShard (v : Z) (o : multiEventLoopOption) : multiEventLoopOption :=
   mkLoopOption (numLoops o) (configTask o) (level o) (maxEventNum o) (parseInWorkerPool o)
   (parseGoroutines o) (parsePinned o) v (parseInEventLoop o) (gosched o) (batchSize o) (evflag o).
Definition set_parseInEventLoop (v : bool) (o : multiEventLoopOption) : multiEventLoopOption :=
   mkLoopOption (numLoops o) (configTask o) (level o) (maxEventNum o) (parseInWorkerPool o)
   (parseGoroutines o) (parsePinned o) (parseWorkersPerShard o) v (gosched o) (batchSize o) (evflag o).
Definition set_gosched (v : bool) (o : multiEventLoopOption) : multiEventLoopOption := mkLoopOption
   (numLoops o) (configTask o) (level o) (maxEventNum o) (parseInWorkerPool o) (parseGoroutines o)
   (parsePinned o) (parseWorkersPerShard o) (parseInEventLoop o) v (batchSize o) (evflag o).
Definition set_batchSize (v : Z) (o : multiEventLoopOption) : multiEventLoopOption := mkLoopOption
   (numLoops o) (configTask o) (level o) (maxEventNum o) (parseInWorkerPool o) (parseGoroutines o)
   (parsePinned o) (parseWorkersPerShard o) (parseInEventLoop o) (gosched o) v (evflag o).
Definition set_evflag (v : Z) (o : multiEventLoopOption) : multiEventLoopOption := mkLoopOption (numLoops
   o) (configTask o) (level o) (maxEventNum o) (parseInWorkerPool o) (parseGoroutines o) (parsePinned o)
   (parseWorkersPerShard o) (parseInEventLoop o) (gosched o) (batchSize o) v.

Definition emptyOption : multiEventLoopOption :=
  mkLoopOption 0 (mkTaskConfig 0 0 0) 0 0 false 0 false 0 false false 0 0.

Definition EVENT_EPOLL : Z := 1.
(** [slog.LevelError] and [slog.LevelInfo] of Go's library. *)
Definition LevelError : Z := 8.
Definition LevelInfo : Z := 0.

Definition defMaxEventNum : Z := 256.
Definition defTaskMin : Z := 50.
Definition defTaskMax : Z := 30000.
Definition defTaskInitCount : Z := 8.
Definition cpusPerEventLoop : Z := 4.

Definition EvOption : Type := multiEventLoopOption -> multiEventLoopOption.

Definition WithEventLoops (num : Z) : EvOption := set_numLoops num.
Definition WithParseInWorkerPool : EvOption := set_parseInWorkerPool true.
Definition WithParseGoroutines (n : Z) : EvOption := set_parseGoroutines n.
Definition WithParseWorkersPerShard (n : Z) : EvOption := set_parseWorkersPerShard n.
Definition WithBusinessGoNum (initCount min max : Z) : EvOption :=
  let initCount := if initCount <=? 0 then defTaskInitCount else initCount in
  let min := if min <=? 0 then defTaskMin else min in
  let max := if max <=? 0 then defTaskMax else max in
  set_configTask (mkTaskConfig initCount min max).
Definition WithLogLevel (l : Z) : EvOption := set_level l.
Definition WithMaxEventNum (num : Z) : EvOption := set_maxEventNum num.
Definition WithParseInEventLoop : EvOption := set_parseInEventLoop true.
Definition WithGosched : EvOption := set_gosched true.
Definition WithParseBatchSize (n : Z) : EvOption := set_batchSize n.
Definition WithParsePinned : EvOption := set_parsePinned true.

Section Loops.
(** [runtime.NumCPU()], and a poller: [core.Create] and [AddRead]. *)
Context (NumCPU : Z) {Poller : Type} (Create : Z -> Poller + error).
Context (Poller_AddRead : Z -> Poller -> option error * Poller).
(** The table [core.SafeConns] of the poller's package. *)
Context {Ptr Conns : Type} (Conns_Init : Conns) (Conns_Add : Z -> Ptr -> Conns -> Conns) (Conns_Del : Z -> Conns -> Conns).

Definition defaultNumLoops : Z := Z.max (Z.quot NumCPU cpusPerEventLoop) 1.
Definition defNumLoops : Z := defaultNumLoops.

(** [int(float64(NumCPU)*5/3 + 0.5)]; the sum is never within a rounding error
    of an integer. *)
Definition defaultParseGoroutines (loops : Z) : Z := Z.max ((10 * NumCPU + 3) / 6) 1.

Definition share (v dflt loops : Z) : Z := if v =? 0 then dflt else Z.max (Z.quot v loops) 1.

Definition initDefaultSetting (o : multiEventLoopOption) : multiEventLoopOption :=
  let o := if level o =? 0 then set_level LevelError o else o in
  let o := if numLoops o =? 0 then set_numLoops (Z.max defNumLoops 1) o else o in
  let o := if maxEventNum o =? 0 then set_maxEventNum defMaxEventNum o else o in
  let t := configTask o in
  let o := set_configTask (mkTaskConfig (share (tc_initCount t) defTaskInitCount (numLoops o))
             (share (tc_min t) defTaskMin (numLoops o)) (share (tc_max t) defTaskMax (numLoops o))) o in
  let o := if evflag o =? 0 then set_evflag EVENT_EPOLL o else o in
  if negb (parseInEventLoop o) then set_parseInWorkerPool true o else o.

(** ** The pool of parsers *)

Record taskParse : Type := mkTaskParse {
  shards : nat;
  fds : list Z;
  tasks : list Z;
  blocked : list Z;
  countTasks : bool;
  pinned : bool;
  workersPerShard : Z;
}.

Definition newTaskParseWorkers (n : Z) (pinned : bool) (workers : Z) : taskParse :=
  let n := if n <=? 0 then NumCPU else n in
  let workers := if 1 <? workers then 1 else workers in
  let workers := if workers <=? 0 then 1 else workers in
  let k := Z.to_nat n in
  mkTaskParse k (replicate k 0) (replicate k 0) (replicate k 0) false pinned workers.
Definition newTaskParsePinned (n : Z) (pinned : bool) : taskParse := newTaskParseWorkers n pinned 1.
Definition newTaskParse (n : Z) : taskParse := newTaskParsePinned n false.

(** [atomic.AddInt64(&l[i], d)] with the bounds check of the index. *)
Definition add_at {S} (l : list Z) (i d : Z) : M S (list Z) :=
  if (0 <=? i) && (i <? zlen l) then mret (<[Z.to_nat i := i64 (at_ l i + d)]> l) else panic.

(** Go's [%] has the sign of the dividend, and panics on zero. *)
Definition gomod {S} (a b : Z) : M S Z := if b =? 0 then panic else mret (Z.rem a b).

Definition addFD {S} (t : taskParse) (fd : Z) : M S taskParse :=
  i ← gomod fd (Z.of_nat (shards t));
  l ← add_at (fds t) i 1;
  mret (mkTaskParse (shards t) l (tasks t) (blocked t) (countTasks t) (pinned t) (workersPerShard t)).

(** ** The loops *)

Record MultiEventLoop : Type := mkLoops {
  ml_option : multiEventLoopOption;
  ml_loops : list Poller;
  ml_parseLoop : option taskParse;
  ml_conns : Conns;
  ml_curConn : Z;
  ml_started : bool;
}.

(** The loop that creates the event loops. *)
Fixpoint create_loops (n : nat) (setSize : Z) : list Poller + error :=
  match n with
  | O => inl []
  | S n =>
      match Create setSize with
      | inr e => inr e
      | inl p => match create_loops n setSize with inl l => inl (p :: l) | inr e => inr e end
      end
  end.

Definition NewMultiEventLoop (opts : list EvOption) : M unit (MultiEventLoop + error) :=
  let m := initDefaultSetting emptyOption in
  let m := fold_left (fun m o => o m) opts m in
  let m := initDefaultSetting m in
  let pool := if parseInWorkerPool m then
                let pg := if parseGoroutines m <=? 0 then defaultParseGoroutines (numLoops m) else parseGoroutines m in
                Some (newTaskParseWorkers pg (parsePinned m) (parseWorkersPerShard m))
              else None in
  if numLoops m <? 0 then panic
  else match create_loops (Z.to_nat (numLoops m)) (maxEventNum m) with
       | inr e => mret (inr e)
       | inl l => mret (inl (mkLoops m l pool Conns_Init 0 false))
       end.

Notation go A := (M MultiEventLoop A).

Definition Start : go unit :=
  modify (fun m => mkLoops (ml_option m) (ml_loops m) (ml_parseLoop m) (ml_conns m) (ml_curConn m) true).
Definition isStart : go bool := gets ml_started.

(** The index of the loop that has a descriptor. *)
Definition getEventLoop (fd : Z) : go Z :=
  l ← gets ml_loops;
  i ← gomod fd (zlen l);
  if (0 <=? i) && (i <? zlen l) then mret i else panic.

(** [EventLoop.del]; the descriptor is closed by the caller's kernel. *)
Definition loop_del (fd : Z) : go unit :=
  modify (fun m => mkLoops (ml_option m) (ml_loops m) (ml_parseLoop m) (Conns_Del fd (ml_conns m))
                     (i64 (ml_curConn m - 1)) (ml_started m)).

Definition add (fd : Z) (c : Ptr) : go (option error) :=
  if fd =? -1 then mret None
  else
    l ← gets ml_loops;
    index ← gomod fd (zlen l);
    pl ← gets ml_parseLoop;
    match pl with
    | Some t =>
        t ← addFD t fd;
        modify (fun m => mkLoops (ml_option m) (ml_loops m) (Some t) (ml_conns m) (ml_curConn m) (ml_started m))
    | None => mret tt
    end ;;
    modify (fun m => mkLoops (ml_option m) (ml_loops m) (ml_parseLoop m) (Conns_Add fd c (ml_conns m))
                       (ml_curConn m) (ml_started m)) ;;
    p ← (if 0 <=? index then of_option (l !! Z.to_nat index) else panic);
    let '(e, p) := Poller_AddRead fd p in
    modify (fun m => mkLoops (ml_option m) (<[Z.to_nat index := p]> (ml_loops m)) (ml_parseLoop m) (ml_conns m)
                       (ml_curConn m) (ml_started m)) ;;
    match e with
    | Some e => loop_del fd ;; mret (Some e)
    | None =>
        modify (fun m => mkLoops (ml_option m) (ml_loops m) (ml_parseLoop m) (ml_conns m)
                           (i64 (ml_curConn m + 1)) (ml_started m)) ;;
        mret None
    end.

(** Registering one connection after another. *)
Fixpoint add_all (l : list (Z * Ptr)) : go (list (option error)) :=
  match l with
  | [] => mret []
  | (fd, c) :: l => e ← add fd c; es ← add_all l; mret (e :: es)
  end.

(** ** Indices are in range *)

(** The options of the package, with a number of loops that is one. *)
Inductive loop_option : EvOption -> Prop :=
  | lo_EventLoops n : 0 <= n -> loop_option (WithEventLoops n)
  | lo_ParseInWorkerPool : loop_option WithParseInWorkerPool
  | lo_ParseGoroutines n : loop_option (WithParseGoroutines n)
  | lo_ParseWorkersPerShard n : loop_option (WithParseWorkersPerShard n)
  | lo_BusinessGoNum a b c : loop_option (WithBusinessGoNum a b c)
  | lo_LogLevel l : loop_option (WithLogLevel l)
  | lo_MaxEventNum n : loop_option (WithMaxEventNum n)
  | lo_ParseInEventLoop : loop_option WithParseInEventLoop
  | lo_Gosched : loop_option WithGosched
  | lo_ParseBatchSize n : loop_option (WithParseBatchSize n)
  | lo_ParsePinned : loop_option WithParsePinned.

Record pool_ok (t : taskParse) : Prop := {
  po_shards : (1 <= shards t)%nat;
  po_fds : length (fds t) = shards t;
  po_tasks : length (tasks t) = shards t;
  po_blocked : length (blocked t) = shards t;
  po_workers : workersPerShard t = 1;
}.
Record loops_ok (m : MultiEventLoop) : Prop := {
  lo_loops : (1 <= length (ml_loops m))%nat;
  lo_pool : forall t, ml_parseLoop m = Some t -> pool_ok t;
}.

Lemma newTaskParseWorkers_ok n p w : 1 <= NumCPU -> pool_ok (newTaskParseWorkers n p w).
Proof.
  intros Hn. unfold newTaskParseWorkers. split; cbn; rewrite ?length_replicate; try done.
  - destruct (Z.leb_spec n 0); lia.
  - destruct (Z.ltb_spec 1 w); [done|]. destruct (Z.leb_spec w 0); [done|lia].
Qed.

Lemma create_loops_length n k l : create_loops n k = inl l -> length l = n.
Proof.
  revert l. induction n as [|n IH]; intros l H; cbn in H; [by injection H as <-|].
  destruct (Create k); [|done]. destruct (create_loops n k); [|done]. injection H as <-. cbn. by rewrite (IH _ eq_refl).
Qed.

(** The number of loops and the switch of the pool, through the set-up. *)
Lemma init_numLoops o : 0 <= numLoops o -> 1 <= numLoops (initDefaultSetting o).
Proof.
  intros H. unfold initDefaultSetting. destruct (level o =? 0), (numLoops o =? 0) eqn:E; cbn; rewrite ?E; cbn;
    repeat case_match; cbn in *; lia.
Qed.
Lemma init_pool o : parseInWorkerPool o = true -> parseInWorkerPool (initDefaultSetting o) = true.
Proof. intros H. unfold initDefaultSetting. repeat case_match; cbn in *; done. Qed.

Lemma options_setup opts o : Forall loop_option opts -> 0 <= numLoops o -> parseInWorkerPool o = true ->
  let o' := fold_left (fun m f => f m) opts o in 0 <= numLoops o' /\ parseInWorkerPool o' = true.
Proof.
  intros Hopts. revert o. induction Hopts as [|f opts Hf _ IH]; intros o H1 H2; [done|]. cbn. apply IH.
  - by destruct Hf.
  - by destruct Hf.
Qed.

(** What [NewMultiEventLoop] returns: loops, and a pool whatever the options. *)
Lemma NewMultiEventLoop_ok opts : 1 <= NumCPU -> Forall loop_option opts ->
  exists r, NewMultiEventLoop opts tt = Some (r, tt) /\
    forall m, r = inl m -> loops_ok m /\ is_Some (ml_parseLoop m).
Proof.
  intros Hcpu Hopts. unfold NewMultiEventLoop.
  destruct (options_setup opts (initDefaultSetting emptyOption) Hopts) as [H1 H2];
    [pose proof (init_numLoops emptyOption ltac:(done)); lia|done|].
  set (o := fold_left (fun m f => f m) opts (initDefaultSetting emptyOption)) in *. pose proof (init_numLoops o H1) as H3. rewrite (init_pool o H2).
  destruct (Z.ltb_spec (numLoops (initDefaultSetting o)) 0); [lia|].
  destruct (create_loops _ _) as [l|e] eqn:E; eexists; (split; [done|]); [|done]. intros m [= <-]. split; [|by eexists].
  apply create_loops_length in E. split; cbn; [rewrite E; lia|]. intros t [= <-]. by apply newTaskParseWorkers_ok.
Qed.

Lemma addFD_ok t fd m : pool_ok t -> 0 <= fd -> exists t', addFD t fd (m : MultiEventLoop) = Some (t', m) /\ pool_ok t'.
Proof.
  intros [H1 H2 H3 H4 H5] Hfd. unfold addFD, gomod, mbind, M_bind. destruct (Z.eqb_spec (Z.of_nat (shards t)) 0); [lia|].
  cbn [mret M_ret]. assert (0 <= Z.rem fd (Z.of_nat (shards t)) < Z.of_nat (shards t)) by (apply Z.rem_bound_pos; lia).
  unfold add_at, zlen. rewrite H2.
  replace ((0 <=? _) && (_ <? _)) with true by lia. eexists. split; [done|]. split; cbn; rewrite ?length_insert; done.
Qed.

Lemma add_ok fd c m : loops_ok m -> -1 <= fd -> wp (add fd c) (fun _ m' => loops_ok m') m.
Proof.
  intros [H1 H2] Hfd. unfold add. destruct (Z.eqb_spec fd (-1)); [apply wp_ret; by split|].
  apply wp_bind, wp_gets, wp_bind. unfold gomod at 1.
  destruct (Z.eqb_spec (zlen (ml_loops m)) 0); [unfold zlen in *; lia|]. apply wp_ret.
  assert (0 <= Z.rem fd (zlen (ml_loops m)) < zlen (ml_loops m)) as Hi by (apply Z.rem_bound_pos; unfold zlen in *; lia).
  apply wp_bind, wp_gets, wp_bind.
  apply (wp_mono _ (fun _ m1 => loops_ok m1 /\ ml_loops m1 = ml_loops m)).
  - destruct (ml_parseLoop m) as [t|] eqn:Et; [|apply wp_ret; split; [by split; rewrite ?Et|done]].
    destruct (addFD_ok t fd m) as (t' & Ht & Hok); [by apply H2|lia|].
    apply wp_bind. eapply wp_intro; [exact Ht|]. apply wp_modify. split; [|done]. split; cbn; [done|]. by intros ? [= <-].
  - intros _ m1 [[G1 G2] El]. apply wp_bind, wp_modify, wp_bind. cbn [ml_loops].
    replace (0 <=? Z.rem fd (zlen (ml_loops m))) with true by lia.
    destruct (lookup_lt_is_Some_2 (ml_loops m) (Z.to_nat (Z.rem fd (zlen (ml_loops m))))) as [p Hp]; [unfold zlen in *; lia|].
    eapply wp_of_option; [exact Hp|]. destruct (Poller_AddRead fd p) as [e p'].
    apply wp_bind, wp_modify. destruct e as [e|].
    + apply wp_bind. unfold loop_del. apply wp_modify, wp_ret. split; cbn; [by rewrite length_insert|done].
    + apply wp_bind, wp_modify, wp_ret. split; cbn; [by rewrite length_insert|done].
Qed.

(** For every processor count and every use of the options, the set-up of
    the event loops returns; and what it returns keeps its types while
    connections are registered: there is a loop and a shard for every
    descriptor, the counters have a place for every shard, and no index is out
    of range. *)
Theorem loops_never_out_of_range opts conns : 1 <= NumCPU -> Forall loop_option opts ->
  Forall (fun fc => -1 <= fst fc) conns ->
  exists r, NewMultiEventLoop opts tt = Some (r, tt) /\
    forall m, r = inl m -> exists es m', add_all conns m = Some (es, m') /\ loops_ok m' /\ length es = length conns /\
      forall fd, 0 <= fd -> exists i, getEventLoop fd m' = Some (i, m') /\ 0 <= i < zlen (ml_loops m').
Proof.
  intros Hcpu Hopts Hc. destruct (NewMultiEventLoop_ok opts Hcpu Hopts) as (r & Hr & Hok).
  exists r. split; [exact Hr|]. intros m Hm. apply Hok in Hm as [Hm _]. clear Hr Hok.
  assert (wp (add_all conns) (fun es m' => loops_ok m' /\ length es = length conns) m) as Hw.
  { revert m Hm. induction Hc as [|[fd c] conns Hfd _ IH]; intros m Hm; cbn [add_all]; [by apply wp_ret|].
    apply wp_bind. eapply wp_mono; [by apply add_ok|]. cbv beta. intros e m1 H1.
    apply wp_bind. eapply wp_mono; [by apply IH|]. cbv beta. intros es m2 [H2 H3]. apply wp_ret. cbn. by rewrite H3. }
  unfold wp in Hw. destruct (add_all conns m) as [[es m']|]; [|done]. destruct Hw as [Hl He]. exists es, m'.
  split_and!; [done|done|done|]. intros fd Hfd. destruct Hl as [H1 _]. unfold getEventLoop, mbind, M_bind, gets, gomod.
  destruct (Z.eqb_spec (zlen (ml_loops m')) 0); [unfold zlen in *; lia|]. cbn [mret M_ret].
  assert (0 <= Z.rem fd (zlen (ml_loops m')) < zlen (ml_loops m')) as Hi by (apply Z.rem_bound_pos; unfold zlen in *; lia).
  replace ((0 <=? _) && (_ <? _)) with true by lia. by eexists.
Qed.

(** ** Options that do nothing *)

(** The first pass over the defaults switches the pool on before any option is
    seen, so nothing switches it off. *)
Theorem parse_pool_always_on opts m : 1 <= NumCPU -> Forall loop_option opts ->
  NewMultiEventLoop (opts ++ [WithParseInEventLoop]) tt = Some (inl m, tt) -> is_Some (ml_parseLoop m).
Proof.
  intros Hcpu Hopts H. destruct (NewMultiEventLoop_ok (opts ++ [WithParseInEventLoop]) Hcpu) as (r & Hr & Hok).
  { apply Forall_app. split; [done|]. apply Forall_cons_2; [constructor|apply Forall_nil_2]. }
  rewrite H in Hr. injection Hr as <-. by apply Hok.
Qed.

(** The number of workers is one, whatever is asked for. *)
Theorem workers_always_one n p w : workersPerShard (newTaskParseWorkers n p w) = 1.
Proof. cbn. destruct (Z.ltb_spec 1 w); [done|]. destruct (Z.leb_spec w 0); [done|lia]. Qed.

(** [LevelInfo] is the zero that the defaults take for no level. *)
Theorem info_level_lost o : level (initDefaultSetting (WithLogLevel LevelInfo o)) = LevelError.
Proof. unfold initDefaultSetting, WithLogLevel. cbn. repeat case_match; done. Qed.
End Loops.

(** The defaults run through the second pass as if a user had given them: with
    eight loops the least number of goroutines of a loop is 6, not 50. *)
Theorem defaults_divided :
  tc_min (configTask (initDefaultSetting 32 emptyOption)) = 50 /\
  tc_min (configTask (initDefaultSetting 32 (initDefaultSetting 32 emptyOption))) = 6.
Proof. done. Qed.

(** A connection whose registration fails is counted off without having been
    counted. *)
Theorem count_below_zero :
  match NewMultiEventLoop 4 (fun _ => inl tt) (tt : unit) [] tt with
  | Some (inl m, _) =>
      match add (fun _ p => (Some (errorsNew "EPERM"), p)) (fun _ (_ : unit) c => c) (fun _ c => c) 7 tt m with
      | Some (_, m') => ml_curConn m'
      | None => 0
      end
  | _ => 0
  end = -1.
Proof. by vm_compute. Qed.

Lemma loops_never_out_of_range_witness :
  exists r, NewMultiEventLoop 4 (fun _ => inl tt) (tt : unit)
      [WithEventLoops 3; WithParseGoroutines 2; WithParseInEventLoop] tt = Some (r, tt) /\
    forall m, r = inl m -> exists es m',
      add_all (fun _ p => (None, p)) (fun _ (_ : unit) c => c) (fun _ c => c) [(5, tt); (-1, tt); (1000, tt)] m = Some (es, m') /\
      loops_ok m' /\ length es = 3%nat /\
      forall fd, 0 <= fd -> exists i, getEventLoop fd m' = Some (i, m') /\ 0 <= i < zlen (ml_loops m').
Proof.
  apply (loops_never_out_of_range 4 (fun _ => inl tt) (fun _ p => (None, p)) tt (fun _ _ c => c) (fun _ c => c)
    [WithEventLoops 3; WithParseGoroutines 2; WithParseInEventLoop] [(5, tt); (-1, tt); (1000, tt)]); [lia| |].
  - repeat apply Forall_cons_2; try apply Forall_nil_2; constructor; lia.
  - repeat apply Forall_cons_2; try apply Forall_nil_2; cbn; lia.
Defined.
