(* ===== verification/WsPool.v ===== *)
(** * WsPool

    A connection behind the parse pool ([event_loop.go], [task_parse.go]): the
    event loop only queues what the poller reports and a worker reads, parses,
    calls back and writes.  A task may be worked on after its connection was
    closed. *)

From S2P Require Import Prelude GoStd Sock WsState WsWrite WsRead WsPlain WsSafe WsWire WsStream.
From S2P Require Import WsParse WsRound WsEvents WsTrace.

Section Pool.
Context `{WsLib} {App : Type} (cfg : Config) (cb : Callback App).
Notation Conn := (Conn App).
Notation go A := (M Conn A).

(** [parseTask]: the connection is the one at hand. *)
Record parseTask : Type := mkTask { isRead : bool; isWrite : bool }.

Definition processOne (fuel : nat) (pt : parseTask) : go unit :=
  let writing := need ← needFlush; if isWrite pt && need then flush cfg cb else mret tt in
  if isRead pt then
    err ← processWebsocketFrame cfg cb fuel;
    match err with Some _ => Conn_Close cb | None => writing end
  else writing.

(** The callback that [Loop] gives to [Poll], with a parse pool: the tasks it
    queues.  A closed connection is no longer in [safeConns]. *)
Definition on_poll_send (ev : poll_event) : go (list parseTask) :=
  gone ← isClosed;
  match ev with
  | PollError again =>
      if again then mret []
      else (if gone : bool then mret tt else Conn_Close cb) ;; mret []
  | PollReady r w => if gone : bool then mret [] else mret [mkTask r w]
  end.

(** The event loop polls or the worker takes the next task. *)
Inductive pool_event : Type := Polled (ev : poll_event) | Work.

Fixpoint run_pool (fuel : nat) (evs : list pool_event) (queue : list parseTask) : go unit :=
  match evs with
  | [] => mret tt
  | Polled ev :: evs => new ← on_poll_send ev; run_pool fuel evs (queue ++ new)
  | Work :: evs =>
      match queue with
      | [] => run_pool fuel evs []
      | pt :: queue => processOne fuel pt ;; run_pool fuel evs queue
      end
  end.

(** ** A closed connection has no descriptor *)

Definition fd_gone (c c' : Conn) : Prop :=
  (closed c = true -> fd c < 0) -> closed c' = true -> fd c' < 0.
#[local] Instance fd_gone_preorder : PreOrder fd_gone.
Proof. split; [by intros c Hc|]. intros c1 c2 c3 H1 H2 Hc. by apply H2, H1. Qed.

Lemma core_fd (c c' : Conn) : core c' = core c -> fd_gone c c'.
Proof. intros [= E1 _ _ E2]. unfold fd_gone. by rewrite E1, E2. Qed.

(** The user's callbacks close connections by the methods of [Conn]. *)
Class CallbackFd : Prop := {
  cbf_message op p : within fd_gone (OnMessage cb op p);
  cbf_close err : within fd_gone (OnClose cb err);
}.

Section Closing.
Context `{!CallbackFd}.

Lemma fd_once err : within fd_gone (once_OnClose cb err).
Proof.
  intros c a c'. unfold once_OnClose, gets, mbind, M_bind. destruct (onCloseOnce c); [by intros [= _ <-]|].
  cbn. intros E%cbf_close. exact E.
Qed.
Lemma fd_closeInner err b : within fd_gone (closeWithoutLockOnClose cb err b).
Proof.
  intros c a c'. unfold closeWithoutLockOnClose, isClosed, del, outside, gets, modify, mbind, M_bind.
  destruct (closed c) eqn:Hc; [by intros [= _ <-]|]. intros E _.
  assert (fd_gone (set_closed true (set_fd (-1) (set_world (el_close (fd c) (world c)) c))) c') as Hg.
  { destruct b; [by eapply fd_once|]. by injection E as _ <-. }
  apply Hg. by intros _.
Qed.
Lemma fd_closeNoLock err : within fd_gone (closeNoLock cb err).
Proof. apply fd_closeInner. Qed.
Lemma fd_closeWithLock err : within fd_gone (closeWithLock cb err).
Proof.
  unfold closeWithLock. apply within_bind; [apply _|apply within_keeps; [exact core_fd|apply keeps_gets]|intros cl].
  destruct cl; [apply within_ret, _|]. apply within_bind; [apply _|apply fd_closeInner|intros _].
  apply within_bind; [apply _|apply within_keeps; [exact core_fd|apply keeps_gets]|intros []]; [apply fd_once|apply within_ret, _].
Qed.

Lemma fd_processOne fuel pt : within fd_gone (processOne fuel pt).
Proof.
  assert (within fd_gone (need ← needFlush; if isWrite pt && need then flush cfg cb else mret tt)) as Hw.
  { apply within_bind; [apply _|apply within_keeps; [exact core_fd|apply keeps_gets]|intros need].
    destruct (isWrite pt && need); [|apply within_ret, _].
    apply within_flushLocked; [apply _|exact core_fd|exact fd_closeNoLock]. }
  unfold processOne. destruct (isRead pt); [|exact Hw]. apply within_bind; [apply _| |intros [e|]; [apply fd_closeWithLock|exact Hw]].
  apply within_round; [apply _|exact core_fd|exact fd_closeNoLock|exact fd_once|exact fd_closeWithLock|exact cbf_message].
Qed.
End Closing.
End Pool.

(** ** Tasks *)

Section Worked.
Context `{WsLib} `{!WsLaws} {App : Type} (cfg : Config) (cb : Callback App) `{!CallbackOk cb} `{!CallbackFd cb}.
Notation Conn := (Conn App).
Notation go A := (M Conn A).
Abbreviation sane := (sane cfg).
Abbreviation resting := (resting cfg).
Abbreviation at_rest := (at_rest cfg).
Abbreviation alive := (alive cfg).
Abbreviation after_round := (after_round cfg).
(** [read] of a negative descriptor fails with [EBADF]. *)
Context (read_bad_fd : forall fd n w, fd < 0 -> 0 < n -> exists name, sys_read fd n w = (inr (Eother name), w)).

(** What holds between two tasks. *)
Record pooled (c0 c : Conn) : Prop := {
  po_alive : alive c0 c;
  po_closed : closed c = true -> fd c < 0 /\ ((rbuf c = None /\ rr c = 0 /\ rw c = 0) \/ at_rest c);
}.

(** An empty buffer, and reading into it. *)
Lemma wp_socketRead_bad n (c : Conn) Q : fd c < 0 -> 0 < n -> (forall name, Q ([], Some (Eother name)) c) ->
  wp (socketRead n) Q c.
Proof.
  intros Hf Hn HQ. unfold socketRead. destruct (Z.eqb_spec n 0); [lia|]. wp_steps. unfold wp at 1, outside.
  destruct (read_bad_fd (fd c) n (world c) Hf Hn) as [name ->]. wp_steps.
  assert (set_world (world c) c = c) as -> by by destruct c. apply HQ.
Qed.

Lemma wp_read_bad k n (c : Conn) : Has c [] n -> rw c = 0 -> 0 < n -> fd c < 0 ->
  wp (read_loop cfg cb (S k)) (fun e c' => e <> None /\ c' = c) c.
Proof.
  intros Hh Hw Hn Hf. cbn [read_loop]. wp_steps. eapply wp_writeCap; [done|]. wp_steps.
  apply wp_socketRead_bad; [done|lia|]. intros name. by wp_steps.
Qed.

(** What a stale task may change: the empty read buffer. *)
Definition but_buffer (c c' : Conn) : Prop :=
  c' = set_rbuf (rbuf c') c.

Lemma wp_read_bad_any k buf (c : Conn) : rbuf c = Some buf -> rr c = 0 -> rw c = 0 -> fd c < 0 ->
  wp (read_loop cfg cb (S (S k))) (fun e c' => e <> None /\ but_buffer c c') c.
Proof.
  intros Hb Hr Hw Hf. assert (Has c [] (zlen buf)) as Hh.
  { exists buf. rewrite Hr, Hw. pose proof (zlen_nonneg buf). split; [done|]. split; [lia|]. split; [lia|]. done. }
  destruct (decide (0 < zlen buf)) as [Hn|Hn].
  { eapply wp_mono; [by eapply wp_read_bad|]. intros e c' [He ->]. split; [done|]. unfold but_buffer. by destruct c. }
  assert (zlen buf = 0) as Hz by (pose proof (zlen_nonneg buf); lia). apply zlen_zero in Hz as ->.
  remember (S k) as k1. cbn [read_loop]. wp_steps. eapply wp_writeCap; [done|]. wp_steps. rewrite Hw. cbn.
  change (zlen [] - 0) with 0. unfold socketRead at 1. rewrite Z.eqb_refl. wp_steps. change (zlen [] =? 0) with true.
  change (0 >? 0) with false. cbn [andb]. wp_steps. eapply wp_deref; [exact Hh|]. intros b Hb' _ _.
  rewrite Hb in Hb'. injection Hb' as <-. wp_steps. rewrite Hw.
  set (c1 := set_rw _ _). assert (c1 = set_rw (rw c) c) as Hc1.
  { unfold c1. destruct c. cbn in *. by subst. }
  assert (c1 = c) as -> by (rewrite Hc1; by destruct c).
  eapply wp_deref; [exact Hh|]. intros b Hb' Hz _. wp_steps. rewrite Hw, Hz. cbn [andb].
  change ((0 =? zlen []) && (zlen [] <? batchReadBufferSize)) with true. unfold growReadBuffer. wp_steps.
  eapply wp_deref; [exact Hh|]. intros b2 _ Hz2 _. wp_steps. rewrite Hw. pose proof (zlen_nonneg b2). apply wp_reslice; [lia|lia|]. wp_steps.
  assert (0 < zlen (pool_slice batchReadBufferSize)) as Hp.
  { eapply Z.lt_le_trans; [|by apply pool_slice_len]. done. }
  set (nb := copy_front _ _). assert (zlen nb = zlen (pool_slice batchReadBufferSize)) as Hnb.
  { apply (fun H => proj1 (copy_front_eq _ _ H)). rewrite zlen_slice by lia. lia. }
  assert (Has (set_rbuf (Some nb) c) [] (zlen nb)) as Hh2.
  { exists nb. cbn. rewrite Hr, Hw. split; [done|]. split; [lia|]. split; [lia|]. done. }
  eapply wp_writeCap; [exact Hh2|]. wp_steps. cbn [rw set_rbuf]. rewrite Hw.
  destruct (Z.eqb_spec (zlen nb - 0) 0); [lia|]. subst k1.
  eapply wp_mono; [eapply wp_read_bad; [exact Hh2|done|lia|done]|]. intros e c' [He ->]. done.
Qed.

(** A round on a closed connection without a buffer ends at the first read. *)
Lemma wp_stale_round fuel (c : Conn) : front c -> Winv c -> rbuf c = None -> rr c = 0 -> rw c = 0 -> fd c < 0 ->
  (2 <= fuel)%nat -> wp (processWebsocketFrame cfg cb fuel) (fun e c' => after_round c e c') c.
Proof.
  intros F W Hb Hr Hw Hf Hfuel. destruct fuel as [|[|k]]; [lia|lia|]. unfold processWebsocketFrame, readBufferSize.
  wp_steps. rewrite Hb. wp_steps. set (c1 := set_rbuf _ c).
  eapply wp_mono; [by eapply (wp_read_bad_any k _ c1)|]. cbv beta. intros e c2 [He E2].
  assert (c2 = set_rbuf (rbuf c2) c) as E. { unfold but_buffer in E2. rewrite E2 at 1. unfold c1. by destruct c. } clear E2.
  destruct e as [e|]; [clear He|done]. wp_steps.
  assert (progress c c2 /\ front c2 /\ Winv c2) as (P2 & F2 & W2) by (rewrite E; by destruct c).
  eapply wp_mono; [by apply (wp_end_round cfg cb (Some e))|]. cbv beta. intros _ c3 (P3 & F3 & W3 & _ & B3). wp_steps.
  eapply wp_mono; [by apply quietly_writeAndMaybe|]. cbv beta. intros e5 c5 [W5 R5]. wp_steps.
  split; [|split; [by apply (rstep_front c3)|split; [done|split; [done|]]]].
  - transitivity c2; [done|]. transitivity c3; [done|by apply same_progress, rstep_stream].
  - intros _. destruct R5 as [R5 _]. injection R5 as -> -> -> _ _ _ _ _ _. by apply B3.
Qed.

Lemma pooled_round fuel (c0 c : Conn) : pooled c0 c -> budget c0 <= Z.of_nat fuel ->
  wp (processWebsocketFrame cfg cb fuel) (fun e c' => after_round c e c') c.
Proof.
  intros [Hc Hclosed] Hfuel. pose proof (progress_budget _ _ (al_progress _ _ Hc)) as Hb.
  destruct (closed c) eqn:Hcl.
  - destruct (Hclosed eq_refl) as [Hf [(Hb1 & Hr & Hw)|(raws & hdr & l & Hrest & _)]].
    + apply wp_stale_round; try done; try apply Hc. unfold budget in Hfuel. pose proof (zlen_nonneg (stream c0)). lia.
    + eapply wp_processWebsocketFrame; [done|exact Hrest|lia].
  - destruct (al_rest _ _ Hc Hcl) as (raws & hdr & l & Hrest & _).
    eapply wp_processWebsocketFrame; [done|exact Hrest|lia].
Qed.

(** Between tasks the buffer is at rest, or has been given back. *)
Definition quiet_buffer (c : Conn) : Prop := (rbuf c = None /\ rr c = 0 /\ rw c = 0) \/ at_rest c.

Lemma quiet_rstep (c c' : Conn) : rstep c c' -> Winv c' -> quiet_buffer c -> quiet_buffer c'.
Proof.
  intros R W [Hb|(raws & hdr & l & Hrest & Hinc)].
  - left. destruct R as [R _]. by injection R as -> -> -> _ _ _ _ _ _.
  - right. exists raws, hdr, l. split; [|done]. by eapply resting_rstep.
Qed.

Lemma wp_Conn_Close_quiet (c0 c : Conn) : progress c0 c -> front c -> Winv c -> quiet_buffer c ->
  wp (Conn_Close cb) (fun _ c' => alive c0 c' /\ quiet_buffer c') c.
Proof.
  intros P F W Q. unfold Conn_Close, closeWithLock, isClosed. wp_steps. destruct (closed c) eqn:Hcl.
  { wp_steps. split; [|done]. split; try done. by rewrite Hcl. }
  wp_steps. eapply wp_mono; [by apply wp_closeWithoutLockOnClose, Winv_close|]. cbv beta.
  intros _ c1 (W1 & S1 & C1). apply step_rstep in S1. wp_steps. rewrite C1.
  eapply wp_mono; [by eapply quietly_once|]. cbv beta. intros _ c2 (W2 & R2).
  assert (rstep c c2) as R by (by transitivity c1). split; [|by eapply quiet_rstep].
  split; [|by eapply rstep_front|done|].
  - transitivity c; [done|by apply same_progress, rstep_stream].
  - by rewrite (proj2 R2 C1).
Qed.

Lemma wp_writing b (c0 c : Conn) : alive c0 c -> quiet_buffer c -> 
  wp (need ← needFlush; if b && need then flush cfg cb else mret tt) (fun _ c' => alive c0 c' /\ quiet_buffer c') c.
Proof.
  intros Hc Hq. unfold needFlush. wp_steps. destruct (b && _); [|by wp_steps]. unfold flush.
  eapply wp_mono; [eapply calm_flushLocked; [done|apply Hc]|]. cbv beta. intros _ c1 [W1 S1].
  apply step_rstep in S1. split; [by eapply alive_rstep|by eapply quiet_rstep].
Qed.

Lemma pooled_quiet (c0 c : Conn) : pooled c0 c -> quiet_buffer c.
Proof.
  intros [Hc Hcl]. destruct (closed c) eqn:E; [by apply Hcl|]. right. by apply (al_rest _ _ Hc).
Qed.

Lemma wp_processOne fuel pt (c0 c : Conn) : pooled c0 c -> budget c0 <= Z.of_nat fuel ->
  wp (processOne cfg cb fuel pt) (fun _ c' => pooled c0 c') c.
Proof.
  intros Hc Hfuel. pose proof (po_alive _ _ Hc) as Ha. pose proof (pooled_quiet _ _ Hc) as Hq.
  eapply wp_mono; [eapply (wp_post _ _ (fun _ c' => fd_gone c c'))|].
  - eapply (wp_mono _ (fun _ c' => alive c0 c' /\ quiet_buffer c')); [|by intros ??; exact id].
    unfold processOne. destruct (isRead pt); [|by apply wp_writing]. wp_steps.
    eapply wp_mono; [by eapply pooled_round|]. cbv beta. intros e c1 (P1 & F1 & W1 & R1 & B1).
    assert (progress c0 c1) as P01 by (transitivity c; [apply Ha|done]).
    destruct e as [e|]; [apply wp_Conn_Close_quiet; try done; left; by apply B1|].
    specialize (R1 eq_refl). apply wp_writing; [by split|by right].
  - intros [] c' E. by eapply fd_processOne.
  - cbv beta. intros _ c' [[A Q] G]. split; [done|]. intros Hcl. split; [|done].
    apply G; [|done]. intros Hcl0. by apply (po_closed _ _ Hc).
Qed.

Lemma wp_on_poll_send ev (c0 c : Conn) : pooled c0 c -> wp (on_poll_send cb ev) (fun _ c' => pooled c0 c') c.
Proof.
  intros Hc. unfold on_poll_send, isClosed. wp_steps. destruct ev as [[]|r w]; [by wp_steps| |by destruct (closed c); wp_steps].
  destruct (closed c) eqn:Hcl; [by wp_steps|]. pose proof (po_alive _ _ Hc) as Ha. wp_steps.
  eapply wp_mono; [eapply (wp_post _ _ (fun _ c' => fd_gone c c'))|].
  - apply (wp_Conn_Close_quiet c0); try apply Ha. by eapply pooled_quiet.
  - intros [] c' E. by eapply fd_closeWithLock.
  - cbv beta. intros _ c' [[A Q] G]. wp_steps. split; [done|]. intros Hcl'. split; [|done].
    apply G; [|done]. by rewrite Hcl.
Qed.

Lemma wp_run_pool fuel evs (c0 : Conn) : budget c0 <= Z.of_nat fuel ->
  forall queue c, pooled c0 c -> wp (run_pool cfg cb fuel evs queue) (fun _ c' => pooled c0 c') c.
Proof.
  intros Hfuel. induction evs as [|[ev|] evs IH]; intros queue c Hc; cbn [run_pool]; [by wp_steps| |].
  - wp_steps. eapply wp_mono; [by apply wp_on_poll_send|]. cbv beta. intros new c1 Hc1. by apply IH.
  - destruct queue as [|pt queue]; [by apply IH|]. wp_steps.
    eapply wp_mono; [by apply wp_processOne|]. cbv beta. intros _ c1 Hc1. by apply IH.
Qed.

(** C2: The parse pool keeps the promise of the event loop.  If no frame header
    of the peer's stream declares a negative length or one too large for its
    read buffer ([sane]), and [read] of a negative descriptor fails with
    [EBADF], then, however polling and
    the worker's tasks alternate, including tasks that are worked on after the
    connection was closed, every task returns without a panic, no byte of the
    stream is lost, the frames handed to [processCallback] are the first whole
    frames of the bytes received, each once, in order, with its payload, and a
    connection that is still open has nothing whole left in its buffer. *)
Theorem pool_delivers_frames fd client w (a : App) evs fuel
    (Hsane : sane (incoming w)) (Hfuel : budget (newConn fd client w a) <= Z.of_nat fuel) :
  wp (run_pool cfg cb fuel evs []) (fun _ c' =>
    received c' ++ incoming (world c') = incoming w /\
    exists raws rest, received c' = concat raws ++ rest /\ Forall2 frame_of raws (delivered c') /\
      (closed c' = false -> incomplete rest)) (newConn fd client w a).
Proof.
  eapply wp_mono; [eapply wp_run_pool; [exact Hfuel|]|].
  - split; [by apply alive_new|done].
  - cbv beta. intros _ c' Hc. eapply alive_delivered, po_alive, Hc.
Qed.
End Worked.

(** ** A run *)

#[export] Instance recorder_fd `{WsLib} : CallbackFd recorder.
Proof. split; [intros op p|intros err]; intros c a c' [= _ <-] Hc; exact Hc. Qed.

Lemma plain_bad_fd fd n (w : @World plain_lib) : fd < 0 -> 0 < n -> exists name, sys_read fd n w = (inr (Eother name), w).
Proof. intros Hf _. exists "EBADF". cbn. destruct (Z.ltb_spec fd 0); [done|lia]. Qed.

(** Two tasks are queued before the first is worked on; the peer sends a
    message, a close frame and then a byte too many. *)
Definition pool_world : plain_world := mkWorld [[129; 5; 72; 101]; [108; 108; 111; 136; 0; 130]; []] [100; 100].
Definition pool_events : list pool_event :=
  [Polled (PollReady true false); Work; Polled (PollReady true false); Polled (PollReady true true); Work; Work].

Lemma pool_sane : sane plain_config (incoming (pool_world : @World plain_lib)).
Proof.
  apply sane_short; [done|done|bytes|].
  apply (bool_decide_unpack (Forall (fun b => len7 b <> 127) _)). by vm_compute.
Qed.

Lemma pool_delivers_frames_witness :
  (from_option (fun r => (f_Payload <$> delivered (snd r), closed (snd r), fd (snd r))) ([], false, 0)
     (run_pool plain_config recorder 100 pool_events [] (newConn 7 false pool_world [])) =
   ([[72; 101; 108; 108; 111]; []], true, -1)) /\
  wp (run_pool plain_config recorder 100 pool_events []) (fun _ c' =>
    received c' ++ incoming (world c') = incoming (pool_world : @World plain_lib) /\
    exists raws rest, received c' = concat raws ++ rest /\ Forall2 frame_of raws (delivered c') /\
      (closed c' = false -> incomplete rest)) (newConn 7 false pool_world ([] : list ws_event)).
Proof.
  split; [vm_compute; reflexivity|].
  apply (pool_delivers_frames (H := plain_lib) plain_config recorder plain_bad_fd 7 false pool_world []);
    [exact pool_sane|by vm_compute].
Defined.

(** ** A stale task asks for the buffer of the frame that was refused

    With a limit of 1000 bytes per message a header that declares 2^40 bytes
    closes the connection.  The declared length stays behind, so a task that
    was queued before the close starts with a read buffer of twice that size,
    for a descriptor that is already gone. *)
Definition limited_config : Config := {|
  replyPing := true;
  ignorePong := false;
  utf8Check _ := true;
  windowsMultipleTimesPayloadSize := two32;
  readMaxMessage := 1000;
  flowBackPressureRemoveRead := false;
  zeroCopyPayload := true;
  pd_Compression := false;
  pd_Decompression := false;
|}.
Definition huge_conn : Conn (list ws_event) := newConn 7 false (mkWorld [[130; 127; 0; 0; 1; 0; 0; 0; 0; 0]] [100; 100]) [].


(** The state after the first task, and the buffer the next one asks for. *)
Theorem stale_task_allocates :
  (fun r => let c := snd r in (closed c, fd c, rbuf c, fst <$> readBufferSize limited_config c))
    <$> processOne limited_config recorder 100 (mkTask true false) huge_conn =
  Some (true, -1, None, Some (2 * 2 ^ 40 + 14)).
Proof. vm_compute. reflexivity. Qed.
