(* ===== verification/TaskRing.v ===== *)
(** * TaskRing

    [websocket/task_ring.go]: the bounded queue between the event loops and the
    parsers, with any number of producers and consumers.  A call of [push] or
    [pop] is a program counter with the local variables that are live there,
    and one step is one access to shared memory: the steps of the threads
    interleave as they like.  Positions are [uint64]; atomic operations are
    sequentially consistent, as the memory model of Go has it. *)

From S2P Require Import Prelude.

Section Ring.
Context {T : Type} (zero : T).

Record ringCell : Type := mkCell { seq : Z; task : T }.
Record taskRing : Type := mkRing { cells : list ringCell; mask : Z; limit : Z; head : Z; tail : Z }.

Definition set_head (v : Z) (r : taskRing) : taskRing := mkRing (cells r) (mask r) (limit r) v (tail r).
Definition set_tail (v : Z) (r : taskRing) : taskRing := mkRing (cells r) (mask r) (limit r) (head r) v.

(** [&r.cells[p&r.mask]], with the bounds check. *)
Definition slot (r : taskRing) (p : Z) : nat := Z.to_nat (p .& mask r).
Definition cell_at (r : taskRing) (p : Z) : option ringCell := cells r !! slot r p.
Definition set_cell (p : Z) (c : ringCell) (r : taskRing) : taskRing :=
  mkRing (<[slot r p := c]> (cells r)) (mask r) (limit r) (head r) (tail r).

(** [for size < limit { size <<= 1 }]. *)
Fixpoint ring_size (fuel : nat) (size limit : Z) : Z :=
  match fuel with
  | O => size
  | S fuel => if size <? limit then ring_size fuel (size << 1) limit else size
  end.

Definition newTaskRing (limit : Z) : taskRing :=
  let limit := Z.max limit 1 in
  let size := ring_size 62 2 limit in
  mkRing ((fun i : nat => mkCell (Z.of_nat i) zero) <$> List.seq 0 (Z.to_nat size)) (size - 1) limit 0 0.

(** ** [push] *)

Inductive push_pc : Type :=
  | PTail
  | PHead (t : Z)
  | PSeq (t : Z)
  | PCas (t : Z)
  | PWrite (t : Z)
  | PPub (t : Z)
  | PRet (ok : bool).

Definition push_step (x : T) (pc : push_pc) (r : taskRing) : option (push_pc * taskRing) :=
  match pc with
  | PTail => Some (PHead (tail r), r)
  | PHead t =>
      if head r >? t then Some (PTail, r)
      else if u64 (t - head r) >=? limit r then Some (PRet false, r)
      else Some (PSeq t, r)
  | PSeq t =>
      c ← cell_at r t;
      Some (if negb (seq c =? t) then if seq c <? t then PRet false else PTail else PCas t, r)
  | PCas t => Some (if tail r =? t then (PWrite t, set_tail (u64 (t + 1)) r) else (PTail, r))
  | PWrite t => c ← cell_at r t; Some (PPub t, set_cell t (mkCell (seq c) x) r)
  | PPub t => c ← cell_at r t; Some (PRet true, set_cell t (mkCell (u64 (t + 1)) (task c)) r)
  | PRet _ => None
  end.

(** ** [pop] *)

Inductive pop_pc : Type :=
  | CHead
  | CSeq (h : Z)
  | CCas (h : Z)
  | CRead (h : Z)
  | CClear (h : Z) (x : T)
  | CBack (h : Z) (x : T)
  | CRet (r : option T).

Definition pop_step (pc : pop_pc) (r : taskRing) : option (pop_pc * taskRing) :=
  match pc with
  | CHead => Some (CSeq (head r), r)
  | CSeq h =>
      c ← cell_at r h;
      Some (if negb (seq c =? u64 (h + 1)) then if seq c =? h then CRet None else CHead else CCas h, r)
  | CCas h => Some (if head r =? h then (CRead h, set_head (u64 (h + 1)) r) else (CHead, r))
  | CRead h => c ← cell_at r h; Some (CClear h (task c), r)
  | CClear h x => c ← cell_at r h; Some (CBack h x, set_cell h (mkCell (seq c) zero) r)
  | CBack h x => c ← cell_at r h; Some (CRet (Some x), set_cell h (mkCell (u64 (h + mask r + 1)) (task c)) r)
  | CRet _ => None
  end.

(** ** [len] *)

Inductive len_pc : Type :=
  | LTail
  | LHead (t : Z)
  | LRet (n : Z).

Definition len_step (pc : len_pc) (r : taskRing) : option len_pc :=
  match pc with
  | LTail => Some (LHead (tail r))
  | LHead t => Some (LRet (if head r >? t then 0 else i64 (u64 (t - head r))))
  | LRet _ => None
  end.

(** ** Threads that share a ring *)

(** [log] is a record the code does not have: the tasks in the order in which
    their positions were claimed. *)
Record sys : Type := mkSys {
  ring : taskRing;
  pushers : gmap nat (T * push_pc);
  poppers : gmap nat pop_pc;
  log : list T;
}.

(** The position whose cell a thread may write to. *)
Definition writes (pc : push_pc) : option Z := match pc with PWrite t | PPub t => Some t | _ => None end.
Definition reads_at (pc : pop_pc) : option Z :=
  match pc with CRead h | CClear h _ | CBack h _ => Some h | _ => None end.

(** The compare-and-swap of [tail] is the moment a task is queued. *)
Definition push_log (pc pc' : push_pc) (x : T) (l : list T) : list T :=
  match pc, pc' with PCas _, PWrite _ => l ++ [x] | _, _ => l end.

Inductive sys_step : sys -> sys -> Prop :=
  | step_start_push tid x c : pushers c !! tid = None ->
      sys_step c (mkSys (ring c) (<[tid := (x, PTail)]> (pushers c)) (poppers c) (log c))
  | step_push tid x pc pc' r' c : pushers c !! tid = Some (x, pc) -> push_step x pc (ring c) = Some (pc', r') ->
      sys_step c (mkSys r' (<[tid := (x, pc')]> (pushers c)) (poppers c) (push_log pc pc' x (log c)))
  | step_end_push tid x b c : pushers c !! tid = Some (x, PRet b) ->
      sys_step c (mkSys (ring c) (delete tid (pushers c)) (poppers c) (log c))
  | step_start_pop tid c : poppers c !! tid = None ->
      sys_step c (mkSys (ring c) (pushers c) (<[tid := CHead]> (poppers c)) (log c))
  | step_pop tid pc pc' r' c : poppers c !! tid = Some pc -> pop_step pc (ring c) = Some (pc', r') ->
      sys_step c (mkSys r' (pushers c) (<[tid := pc']> (poppers c)) (log c))
  | step_end_pop tid o c : poppers c !! tid = Some (CRet o) ->
      sys_step c (mkSys (ring c) (pushers c) (delete tid (poppers c)) (log c)).

Definition start (lim : Z) : sys := mkSys (newTaskRing lim) ∅ ∅ [].

(** ** Cells *)

Definition size (r : taskRing) : Z := zlen (cells r).

Record sized (r : taskRing) : Prop := {
  sz_pow : exists k, 1 <= k /\ size r = 2 ^ k;
  sz_mask : mask r = size r - 1;
  sz_limit : 1 <= limit r <= size r;
}.

(** The cell of a position; [default] is never used. *)
Definition cell (r : taskRing) (p : Z) : ringCell := default (mkCell 0 zero) (cell_at r p).

Lemma sized_two r : sized r -> 2 <= size r.
Proof. intros [(k & Hk & ->) _ _]. change 2 with (2 ^ 1) at 1. apply Z.pow_le_mono_r; lia. Qed.

Lemma slot_mod r p : sized r -> slot r p = Z.to_nat (p mod size r).
Proof.
  intros [(k & Hk & Hs) Hm _]. unfold slot. rewrite Hm, Hs. f_equal.
  replace (2 ^ k - 1) with (Z.ones k) by (rewrite Z.ones_equiv; lia). apply Z.land_ones. lia.
Qed.

Lemma slot_lt r p : sized r -> (slot r p < length (cells r))%nat.
Proof.
  intros Hs. pose proof (sized_two r Hs). rewrite slot_mod by done.
  assert (0 <= p mod size r < size r) by (apply Z.mod_pos_bound; lia). unfold size, zlen in *. lia.
Qed.

Lemma cell_at_cell r p : sized r -> cell_at r p = Some (cell r p).
Proof.
  intros Hs. unfold cell, cell_at. destruct (lookup_lt_is_Some_2 (cells r) (slot r p)) as [c ->]; [by apply slot_lt|done].
Qed.

Lemma sized_set_cell r p c : sized r -> sized (set_cell p c r).
Proof. intros [H1 H2 H3]. split; unfold size, zlen, set_cell in *; cbn; rewrite length_insert; done. Qed.
Lemma size_set_cell r p c : size (set_cell p c r) = size r.
Proof. unfold size, zlen. cbn. by rewrite length_insert. Qed.

(** Two positions share a cell when they are congruent. *)
Definition same_cell (r : taskRing) (p q : Z) : Prop := p mod size r = q mod size r.
#[export] Instance same_cell_dec r p q : Decision (same_cell r p q).
Proof. unfold same_cell. apply _. Defined.

Lemma cell_set_cell r p q c : sized r ->
  cell (set_cell p c r) q = if decide (same_cell r p q) then c else cell r q.
Proof.
  intros Hs. unfold cell, cell_at. change (slot (set_cell p c r) q) with (slot r q). cbn [set_cell cells].
  pose proof (sized_two r Hs). destruct (decide (same_cell r p q)) as [E|E].
  - assert (slot r q = slot r p) as -> by (rewrite !slot_mod by done; by rewrite E).
    by rewrite list_lookup_insert_eq by by apply slot_lt.
  - rewrite list_lookup_insert_ne; [done|]. rewrite !slot_mod by done. intros En. apply E. unfold same_cell.
    assert (0 <= p mod size r < size r) by (apply Z.mod_pos_bound; lia).
    assert (0 <= q mod size r < size r) by (apply Z.mod_pos_bound; lia). lia.
Qed.

Lemma cell_set_head r p v : cell (set_head v r) p = cell r p.
Proof. done. Qed.
Lemma cell_set_tail r p v : cell (set_tail v r) p = cell r p.
Proof. done. Qed.

(** Positions less than a round apart have cells of their own. *)
Lemma same_cell_near r p q : 0 < size r -> same_cell r p q -> Z.abs (p - q) < size r -> p = q.
Proof.
  intros Hs E Hlt. unfold same_cell in E.
  pose proof (Z.div_mod p (size r) ltac:(lia)). pose proof (Z.div_mod q (size r) ltac:(lia)).
  assert (p / size r = q / size r) by nia. congruence.
Qed.
Lemma same_cell_round r p : 0 < size r -> same_cell r (p - size r) p.
Proof. intros H. unfold same_cell. by rewrite <- (Z.mod_add p (-1) (size r)) by lia; f_equal; lia. Qed.

(** The new ring. *)
Lemma ring_size_pow fuel : forall s lim, (exists k, 1 <= k /\ s = 2 ^ k) -> exists k, 1 <= k /\ ring_size fuel s lim = 2 ^ k.
Proof.
  induction fuel as [|fuel IH]; intros s lim (k & Hk & ->); [by exists k|]. cbn [ring_size].
  destruct (2 ^ k <? lim); [|by exists k]. apply IH. exists (k + 1). split; [lia|].
  rewrite Z.shiftl_mul_pow2, Z.pow_add_r by lia. lia.
Qed.
Lemma ring_size_enough fuel : forall s lim, 0 < s -> lim <= s * 2 ^ Z.of_nat fuel -> lim <= ring_size fuel s lim.
Proof.
  induction fuel as [|fuel IH]; intros s lim Hs Hl; cbn [ring_size]; [change (2 ^ Z.of_nat 0) with 1 in Hl; lia|].
  destruct (Z.ltb_spec s lim) as [H|H]; [|done]. apply IH; [rewrite Z.shiftl_mul_pow2; lia|].
  rewrite Z.shiftl_mul_pow2 by lia. change (2 ^ 1) with 2. rewrite Nat2Z.inj_succ, Z.pow_succ_r in Hl by lia. lia.
Qed.

Lemma newTaskRing_sized lim : lim <= 2 ^ 62 -> sized (newTaskRing lim).
Proof.
  intros Hl. destruct (ring_size_pow 62 2 (Z.max lim 1)) as (k & Hk & E); [by exists 1|].
  pose proof (ring_size_enough 62 2 (Z.max lim 1) ltac:(lia)) as He.
  specialize (He ltac:(change (2 * 2 ^ Z.of_nat 62) with (2 * 2 ^ 62); lia)).
  assert (size (newTaskRing lim) = ring_size 62 2 (Z.max lim 1)) as Es.
  { unfold size, zlen, newTaskRing. cbn [cells]. rewrite length_fmap, length_seq, Z2Nat.id; [done|].
    rewrite E. apply Z.pow_nonneg. lia. }
  split; [exists k; by rewrite Es|by rewrite Es|rewrite Es; cbn [limit newTaskRing]; lia].
Qed.

Lemma newTaskRing_cell lim p : lim <= 2 ^ 62 -> cell (newTaskRing lim) p = mkCell (p mod size (newTaskRing lim)) zero.
Proof.
  intros Hl. pose proof (newTaskRing_sized lim Hl) as Hs. pose proof (cell_at_cell _ p Hs) as Hc.
  pose proof (slot_lt _ p Hs) as Hlt. rewrite slot_mod in Hlt by done. unfold cell_at in Hc. rewrite slot_mod in Hc by done.
  pose proof (sized_two _ Hs). assert (0 <= p mod size (newTaskRing lim) < size (newTaskRing lim)) by (apply Z.mod_pos_bound; lia).
  set (cl := cell (newTaskRing lim) p) in *. clearbody cl. set (m := p mod size (newTaskRing lim)) in *. clearbody m.
  unfold newTaskRing in Hc, Hlt. cbn [cells] in Hc, Hlt. rewrite list_lookup_fmap in Hc. rewrite length_fmap, length_seq in Hlt.
  rewrite lookup_seq_lt in Hc by done. cbn in Hc. injection Hc as <-. f_equal. lia.
Qed.
End Ring.
