(* ===== verification/TaskRingSafe.v ===== *)
(** * TaskRingSafe

    The ring of [TaskRing] under any interleaving: every position is written by
    one producer and read by one consumer, cells are handed back before they
    are used again, and nothing is out of range.  The facts a thread relies on
    are stated for its program counter, and the steps of the other threads
    keep them. *)

From S2P Require Import Prelude TaskRing.

Section Safe.
Context {T : Type} (zero : T).
Abbreviation ringCell := (@ringCell T).
Abbreviation taskRing := (@taskRing T).
Abbreviation sys := (@sys T).
Abbreviation cell := (cell zero).

(** The task that was queued at a position. *)
Definition at_log (l : list T) (p : Z) : option T := l !! Z.to_nat p.

(** A position that is queued is being written or holds its task; one that has
    been taken is being read or has been handed back for the next round. *)
Definition pos_ok (r : taskRing) (l : list T) (p : Z) : Prop :=
  if p <? head r then seq (cell r p) = p + 1 \/ seq (cell r p) = p + size r
  else seq (cell r p) = p \/ seq (cell r p) = p + 1 /\ at_log l p = Some (task (cell r p)).

Definition push_ok (r : taskRing) (l : list T) (x : T) (pc : push_pc) : Prop :=
  match pc with
  | PTail | PRet _ => True
  | PHead t => t <= tail r
  | PSeq t => t <= tail r /\ (tail r = t -> t - head r < limit r)
  | PCas t => t <= tail r /\ (tail r = t -> t - head r < limit r /\ seq (cell r t) = t)
  | PWrite t => head r <= t < tail r /\ at_log l t = Some x /\ seq (cell r t) = t
  | PPub t => head r <= t < tail r /\ at_log l t = Some x /\ seq (cell r t) = t /\ task (cell r t) = x
  end.

Definition pop_ok (r : taskRing) (l : list T) (pc : pop_pc) : Prop :=
  match pc with
  | CHead | CRet _ => True
  | CSeq h => h <= head r
  | CCas h => h <= head r /\ (head r = h -> h < tail r /\ seq (cell r h) = h + 1)
  | CRead h => tail r - size r <= h < head r /\ seq (cell r h) = h + 1 /\ at_log l h = Some (task (cell r h))
  | CClear h x | CBack h x => tail r - size r <= h < head r /\ seq (cell r h) = h + 1 /\ at_log l h = Some x
  end.

(** The counters, and the positions whose cells are in use. *)
Record ring_ok (r : taskRing) (l : list T) : Prop := {
  ro_sized : sized r;
  ro_tail : tail r = zlen l;
  ro_head : 0 <= head r <= tail r;
  ro_limit : tail r - head r <= limit r;
  ro_pos : forall p, tail r - size r <= p < tail r -> pos_ok r l p;
}.

(** The cell each thread may write to, and the cell each thread is emptying. *)
Definition writer (c : sys) (tid : nat) : option Z := '(_, pc) ← pushers c !! tid; writes pc.
Definition reader (c : sys) (tid : nat) : option Z := pc ← poppers c !! tid; reads_at pc.

(** No two threads use the same cell, and a cell that is in use has a thread. *)
Record owners_ok (r : taskRing) (W R : nat -> option Z) : Prop := {
  ow_writer : forall t1 t2 p, W t1 = Some p -> W t2 = Some p -> t1 = t2;
  ow_reader : forall t1 t2 p, R t1 = Some p -> R t2 = Some p -> t1 = t2;
  ow_written : forall p, head r <= p < tail r -> seq (cell r p) = p -> exists tid, W tid = Some p;
  ow_read : forall p, tail r - size r <= p < head r -> seq (cell r p) = p + 1 -> exists tid, R tid = Some p;
}.

Record sys_ok (c : sys) : Prop := {
  so_ring : ring_ok (ring c) (log c);
  so_push : forall tid x pc, pushers c !! tid = Some (x, pc) -> push_ok (ring c) (log c) x pc;
  so_pop : forall tid pc, poppers c !! tid = Some pc -> pop_ok (ring c) (log c) pc;
  so_own : owners_ok (ring c) (writer c) (reader c);
}.

(** Positions stay below 2^64. *)
Definition in_range (c : sys) : Prop := zlen (log c) + size (ring c) < 2 ^ 64.

(** ** A position is claimed *)

Lemma at_log_snoc l x p y : at_log l p = Some y -> at_log (l ++ [x]) p = Some y.
Proof. apply lookup_app_l_Some. Qed.
Lemma at_log_end l x : at_log (l ++ [x]) (zlen l) = Some x.
Proof. unfold at_log, zlen. rewrite Nat2Z.id. by apply list_lookup_middle. Qed.

Section Claim.
Context (r : taskRing) (l : list T) (x : T).
Context (Hr : ring_ok r l) (Hroom : tail r - head r < limit r) (Hfree : seq (cell r (tail r)) = tail r).
Let r' := set_tail (tail r + 1) r.
Let l' := l ++ [x].

Lemma claim_not_read h : tail r - size r <= h -> seq (cell r h) = h + 1 -> tail r - size r < h.
Proof.
  intros Hh Hs. destruct (decide (h = tail r - size r)) as [->|]; [|lia]. exfalso.
  pose proof (sized_two r (ro_sized _ _ Hr)). assert (cell r (tail r - size r) = cell r (tail r)) as E.
  { unfold cell, cell_at. rewrite !slot_mod by apply Hr. by rewrite (same_cell_round r (tail r)) by lia. }
  rewrite E, Hfree in Hs. lia.
Qed.

Lemma claim_push y pc : push_ok r l y pc -> push_ok r' l' y pc.
Proof.
  destruct pc; unfold push_ok; cbn [r' set_tail tail head limit]; try done; try lia.
  - intros (H1 & H2%(at_log_snoc _ x) & H3). split; [lia|done].
  - intros (H1 & H2%(at_log_snoc _ x) & H3). split; [lia|done].
Qed.

Lemma claim_pop pc : pop_ok r l pc -> pop_ok r' l' pc.
Proof.
  destruct pc; unfold pop_ok; cbn [r' set_tail tail head]; try done.
  - intros [H1 H2]. split; [lia|]. intros E. destruct (H2 E). split; [lia|done].
  - intros (H1 & H2 & H3%(at_log_snoc _ x)). pose proof (claim_not_read h ltac:(lia) H2).
    change (size r') with (size r). split; [lia|done].
  - intros (H1 & H2 & H3%(at_log_snoc _ x)). pose proof (claim_not_read h ltac:(lia) H2).
    change (size r') with (size r). split; [lia|done].
  - intros (H1 & H2 & H3%(at_log_snoc _ x)). pose proof (claim_not_read h ltac:(lia) H2).
    change (size r') with (size r). split; [lia|done].
Qed.

Lemma claim_ring : ring_ok r' l'.
Proof.
  destruct Hr as [H1 H2 H3 H4 H5]. split.
  - by destruct H1.
  - unfold r', l'. cbn. rewrite zlen_app. change (zlen [x]) with 1. lia.
  - cbn. lia.
  - cbn. lia.
  - cbn. change (size r') with (size r). intros p Hp. unfold pos_ok. cbn [r' set_tail head].
    change (size r') with (size r). change (cell r' p) with (cell r p).
    destruct (decide (p = tail r)) as [->|].
    + destruct (Z.ltb_spec (tail r) (head r)); [lia|]. by left.
    + specialize (H5 p ltac:(lia)). unfold pos_ok in H5. destruct (p <? head r); [done|].
      destruct H5 as [H5|[H5 H6%(at_log_snoc _ x)]]; [by left|by right].
Qed.
End Claim.

(** ** A task is taken *)

Section Take.
Context (r : taskRing) (l : list T) (Hr : ring_ok r l) (Hlt : head r < tail r) (Hpub : seq (cell r (head r)) = head r + 1).
Let r' := set_head (head r + 1) r.

Lemma take_push y pc : push_ok r l y pc -> push_ok r' l y pc.
Proof.
  destruct pc; unfold push_ok; cbn [r' set_head tail head limit]; try done; try lia.
  - intros [H1 H2]. split; [done|]. intros E. destruct (H2 E). split; [lia|done].
  - intros (H1 & H2 & H3). change (cell r' t) with (cell r t). split; [|done].
    destruct (decide (t = head r)) as [->|]; lia.
  - intros (H1 & H2 & H3 & H4). change (cell r' t) with (cell r t). split; [|done].
    destruct (decide (t = head r)) as [->|]; lia.
Qed.

Lemma take_pop pc : pop_ok r l pc -> pop_ok r' l pc.
Proof.
  destruct pc; unfold pop_ok; cbn [r' set_head tail head]; change (size r') with (size r); try done; try lia.
  all: intros (H1 & H2 & H3); (split; [lia|done]).
Qed.

Lemma take_ring : ring_ok r' l.
Proof.
  destruct Hr as [H1 H2 H3 H4 H5]. split; cbn; [by destruct H1|done|lia|lia|].
  change (size r') with (size r). intros p Hp. specialize (H5 p Hp). unfold pos_ok in *. cbn [r' set_head head].
  change (size r') with (size r). change (cell r' p) with (cell r p).
  destruct (Z.ltb_spec p (head r)), (Z.ltb_spec p (head r + 1)); try lia; try done.
  left. by replace p with (head r) by lia.
Qed.
End Take.

(** ** A thread works on its cell *)

Section Touch.
Context (r : taskRing) (l : list T) (Hr : ring_ok r l) (p : Z) (c' : ringCell).
Context (Hwin : tail r - size r <= p < tail r).
Context (Hown : (head r <= p /\ seq (cell r p) = p) \/ (p < head r /\ seq (cell r p) = p + 1)).
Let r' := set_cell p c' r.

Lemma touch_other q : tail r - size r <= q < tail r -> q <> p -> cell r' q = cell r q.
Proof.
  intros Hq Hne. unfold r'. rewrite cell_set_cell by apply Hr. destruct (decide _) as [E|]; [|done].
  exfalso. apply Hne. symmetry. pose proof (sized_two r (ro_sized _ _ Hr)).
  apply (same_cell_near r); [lia|done|lia].
Qed.
Lemma touch_same : cell r' p = c'.
Proof. unfold r'. rewrite cell_set_cell by apply Hr. by rewrite decide_True. Qed.

Lemma touch_next : seq (cell r (tail r)) = tail r -> cell r' (tail r) = cell r (tail r).
Proof.
  intros Hs. unfold r'. rewrite cell_set_cell by apply Hr. destruct (decide _) as [E|]; [|done]. exfalso.
  pose proof (sized_two r (ro_sized _ _ Hr)).
  assert (p = tail r - size r) as Ep.
  { apply (same_cell_near r); [lia| |lia]. unfold same_cell in *. rewrite E. symmetry. apply same_cell_round. lia. }
  assert (cell r p = cell r (tail r)) as Ec by (unfold cell, cell_at; rewrite !slot_mod by apply Hr; by rewrite E).
  rewrite Ec, Hs in Hown. lia.
Qed.
Lemma touch_front : head r < tail r -> seq (cell r (head r)) = head r + 1 -> cell r' (head r) = cell r (head r).
Proof.
  intros Hlt Hs. pose proof (ro_limit _ _ Hr). pose proof (sz_limit _ (ro_sized _ _ Hr)).
  apply touch_other; [lia|]. intros <-. lia.
Qed.

Lemma touch_push y pc : writes pc <> Some p -> push_ok r l y pc -> push_ok r' l y pc.
Proof.
  intros Hne. pose proof (ro_limit _ _ Hr) as Hlim. pose proof (sz_limit _ (ro_sized _ _ Hr)) as Hsz. pose proof (ro_head _ _ Hr) as Hhd.
  destruct pc; unfold push_ok; cbn [r' set_cell tail head limit]; try done.
  - intros [H1 H2]. split; [done|]. intros E. destruct (H2 E) as [H3 H4]. split; [done|]. subst t. fold r'.
    by rewrite touch_next.
  - intros (H1 & H2 & H3). fold r'. rewrite touch_other; [done|lia|]. intros ->. by apply Hne.
  - intros (H1 & H2 & H3 & H4). fold r'. rewrite touch_other; [done|lia|]. intros ->. by apply Hne.
Qed.

Lemma touch_pop pc : reads_at pc <> Some p -> pop_ok r l pc -> pop_ok r' l pc.
Proof.
  intros Hne. pose proof (ro_head _ _ Hr) as Hhd. assert (size r' = size r) as Es by apply size_set_cell.
  destruct pc; unfold pop_ok; cbn [r' set_cell tail head]; fold r'; rewrite ?Es; try done.
  - intros [H1 H2]. split; [done|]. intros E. destruct (H2 E) as [H3 H4]. split; [done|]. subst h. by rewrite touch_front.
  - intros (H1 & H2 & H3). rewrite touch_other; [done|lia|]. intros ->. by apply Hne.
  - intros (H1 & H2 & H3). rewrite touch_other; [done|lia|]. intros ->. by apply Hne.
  - intros (H1 & H2 & H3). rewrite touch_other; [done|lia|]. intros ->. by apply Hne.
Qed.

Lemma touch_ring : pos_ok r' l p -> ring_ok r' l.
Proof.
  intros Hp. destruct Hr as [H1 H2 H3 H4 H5]. split; cbn; try done; [by apply sized_set_cell|].
  assert (size r' = size r) as Es by apply size_set_cell. fold r'. rewrite Es. intros q Hq.
  destruct (decide (q = p)) as [->|Hne]; [done|]. specialize (H5 q Hq). unfold pos_ok in *.
  rewrite touch_other, Es by done. exact H5.
Qed.
End Touch.

(** ** What a position's counter says *)

Section Seen.
Context (r : taskRing) (l : list T) (Hr : ring_ok r l).

Lemma seq_after p : tail r - size r <= p < tail r -> p <= seq (cell r p) <= p + size r.
Proof.
  intros Hp. pose proof (ro_pos _ _ Hr p Hp) as Ho. pose proof (sized_two r (ro_sized _ _ Hr)).
  unfold pos_ok in Ho. destruct (p <? head r); intuition lia.
Qed.

Lemma cell_round p k : cell r (p + k * size r) = cell r p.
Proof.
  pose proof (sized_two r (ro_sized _ _ Hr)). unfold cell, cell_at. rewrite !slot_mod by apply Hr.
  by rewrite Z.mod_add by lia.
Qed.

(** A stale position has been used again. *)
Lemma seq_stale p : p < tail r - size r -> p + size r <= seq (cell r p).
Proof.
  intros Hp. pose proof (sized_two r (ro_sized _ _ Hr)) as Hs. set (d := tail r - 1 - p).
  pose proof (Z.div_mod d (size r) ltac:(lia)) as Hd. pose proof (Z.mod_pos_bound d (size r) ltac:(lia)) as Hm.
  assert (1 <= d / size r) as Hq by (apply Z.div_le_lower_bound; lia).
  rewrite <- (cell_round p (d / size r)). pose proof (seq_after (p + d / size r * size r) ltac:(lia)). nia.
Qed.

(** The cell of the next position is still in use, or is free. *)
Lemma seq_tail : head r <= tail r - size r \/ seq (cell r (tail r)) = tail r \/
  seq (cell r (tail r)) = tail r - size r + 1.
Proof.
  pose proof (sized_two r (ro_sized _ _ Hr)) as Hs. replace (cell r (tail r)) with (cell r (tail r - size r)).
  2:{ rewrite <- (cell_round (tail r) (-1)). done. }
  destruct (decide (head r <= tail r - size r)); [by left|right].
  pose proof (ro_pos _ _ Hr (tail r - size r) ltac:(lia)) as Ho. unfold pos_ok in Ho.
  destruct (Z.ltb_spec (tail r - size r) (head r)); lia.
Qed.
End Seen.

(** ** Who owns a cell *)

Section Owners.
Context (r : taskRing) (W R : nat -> option Z).

Lemma owners_ext (W' R' : nat -> option Z) : (forall t, W' t = W t) -> (forall t, R' t = R t) -> owners_ok r W R -> owners_ok r W' R'.
Proof.
  intros HW HR [H1 H2 H3 H4]. split.
  - intros t1 t2 p. rewrite !HW. apply H1.
  - intros t1 t2 p. rewrite !HR. apply H2.
  - intros p Hp Hs. destruct (H3 p Hp Hs) as [t Ht]. exists t. by rewrite HW.
  - intros p Hp Hs. destruct (H4 p Hp Hs) as [t Ht]. exists t. by rewrite HR.
Qed.

Lemma owners_claim (W' : nat -> option Z) tid : owners_ok r W R -> (forall t p, W t = Some p -> p < tail r) -> W tid = None ->
  (forall t, W' t = if decide (t = tid) then Some (tail r) else W t) ->
  owners_ok (set_tail (tail r + 1) r) W' R.
Proof.
  intros [H1 H2 H3 H4] Hlt Hn HW. split; cbn [set_tail head tail].
  - intros t1 t2 p. rewrite !HW. repeat case_decide; subst; try done.
    + intros [= <-] Hp%Hlt. lia.
    + intros Hp%Hlt [= <-]. lia.
    + apply H1.
  - done.
  - intros p Hp Hs. destruct (decide (p = tail r)) as [->|Hne]; [exists tid; by rewrite HW, decide_True|].
    destruct (H3 p ltac:(lia) Hs) as [t Ht]. exists t. rewrite HW, decide_False; [done|]. congruence.
  - intros p Hp Hs. apply H4; [|done]. change (size (set_tail (tail r + 1) r)) with (size r) in Hp. lia.
Qed.

Lemma owners_take (R' : nat -> option Z) tid : owners_ok r W R -> (forall t p, R t = Some p -> p < head r) -> R tid = None ->
  (forall t, R' t = if decide (t = tid) then Some (head r) else R t) ->
  owners_ok (set_head (head r + 1) r) W R'.
Proof.
  intros [H1 H2 H3 H4] Hlt Hn HW. split; cbn [set_head head tail].
  - done.
  - intros t1 t2 p. rewrite !HW. repeat case_decide; subst; try done.
    + intros [= <-] Hp%Hlt. lia.
    + intros Hp%Hlt [= <-]. lia.
    + apply H2.
  - intros p Hp Hs. apply H3; [lia|done].
  - intros p Hp Hs. destruct (decide (p = head r)) as [->|Hne]; [exists tid; by rewrite HW, decide_True|].
    change (size (set_head (head r + 1) r)) with (size r) in Hp.
    destruct (H4 p ltac:(lia) Hs) as [t Ht]. exists t. rewrite HW, decide_False; [done|]. congruence.
Qed.

(** The owner of a cell changes it, and may give it up. *)
Lemma owners_touch (W' R' : nat -> option Z) p c' l : ring_ok r l -> tail r - size r <= p < tail r -> owners_ok r W R ->
  (forall t q, W' t = Some q -> W t = Some q) -> (forall t q, R' t = Some q -> R t = Some q) ->
  (forall t q, W t = Some q -> q <> p -> W' t = Some q) -> (forall t q, R t = Some q -> q <> p -> R' t = Some q) ->
  (head r <= p -> seq c' = p -> exists t, W' t = Some p) -> (p < head r -> seq c' = p + 1 -> exists t, R' t = Some p) ->
  owners_ok (set_cell p c' r) W' R'.
Proof.
  intros Hr Hp [H1 H2 H3 H4] HW HR HW' HR' Hw Hrd.
  pose proof (sz_limit _ (ro_sized _ _ Hr)). pose proof (ro_limit _ _ Hr). pose proof (ro_head _ _ Hr).
  split; cbn [set_cell head tail]; rewrite ?size_set_cell.
  - intros t1 t2 q A%HW B%HW. by apply (H1 t1 t2 q).
  - intros t1 t2 q A%HR B%HR. by apply (H2 t1 t2 q).
  - intros q Hq Hs. destruct (decide (q = p)) as [->|Hne].
    + rewrite (touch_same r l) in Hs by done. apply Hw; [lia|done].
    + rewrite (touch_other r l) in Hs by (done || lia). destruct (H3 q Hq Hs) as [t Ht]. exists t. by apply HW'.
  - intros q Hq Hs. destruct (decide (q = p)) as [->|Hne].
    + rewrite (touch_same r l) in Hs by done. apply Hrd; [lia|done].
    + rewrite (touch_other r l) in Hs by (done || lia). destruct (H4 q Hq Hs) as [t Ht]. exists t. by apply HR'.
Qed.
End Owners.
End Safe.

Section Steps.
Context {T : Type} (zero : T).
Abbreviation taskRing := (@taskRing T).
Abbreviation sys := (@sys T).
Abbreviation cell := (cell zero).
Abbreviation sys_ok := (sys_ok zero).
Abbreviation push_ok := (push_ok zero).
Abbreviation pop_ok := (pop_ok zero).

Lemma writer_push r r' P Q Q' l l' tid x pc t :
  writer (mkSys r (<[tid := (x, pc)]> P) Q l) t = if decide (t = tid) then writes pc else writer (mkSys (T := T) r' P Q' l') t.
Proof. unfold writer. cbn. case_decide; subst; [by rewrite lookup_insert_eq|by rewrite lookup_insert_ne]. Qed.
Lemma reader_pop r r' P P' Q l l' tid pc t :
  reader (mkSys r P (<[tid := pc]> Q) l) t = if decide (t = tid) then reads_at pc else reader (mkSys (T := T) r' P' Q l') t.
Proof. unfold reader. cbn. case_decide; subst; [by rewrite lookup_insert_eq|by rewrite lookup_insert_ne]. Qed.

Section State.
Context (c : sys) (Hc : sys_ok c).
Let r := ring c.

Lemma writer_cell t p : writer c t = Some p -> head r <= p < tail r /\ seq (cell r p) = p.
Proof.
  unfold writer. intros H. destruct (pushers c !! t) as [[x pc]|] eqn:E; [|done]. cbn in H.
  apply (so_push _ _ Hc) in E. destruct pc; try done; injection H as ->; unfold push_ok in E; split; apply E.
Qed.
Lemma reader_cell t p : reader c t = Some p -> tail r - size r <= p < head r /\ seq (cell r p) = p + 1.
Proof.
  unfold reader. intros H. destruct (poppers c !! t) as [pc|] eqn:E; [|done]. cbn in H.
  apply (so_pop _ _ Hc) in E. destruct pc; try done; injection H as ->; unfold pop_ok in E; split; apply E.
Qed.

Lemma quiet_push tid x pc : push_ok r (log c) x pc -> writes pc = writer c tid ->
  sys_ok (mkSys r (<[tid := (x, pc)]> (pushers c)) (poppers c) (log c)).
Proof.
  intros Hp Hw. destruct Hc as [H1 H2 H3 H4]. split; cbn; try done.
  - intros t y pc'. destruct (decide (t = tid)) as [->|]; [rewrite lookup_insert_eq; by intros [= <- <-]|].
    rewrite lookup_insert_ne by done. apply H2.
  - eapply owners_ext; [|done|exact H4]. intros t. rewrite (writer_push _ r _ _ (poppers c) _ (log c)).
    case_decide; subst; [done|by destruct c].
Qed.
Lemma quiet_pop tid pc : pop_ok r (log c) pc -> reads_at pc = reader c tid ->
  sys_ok (mkSys r (pushers c) (<[tid := pc]> (poppers c)) (log c)).
Proof.
  intros Hp Hw. destruct Hc as [H1 H2 H3 H4]. split; cbn; try done.
  - intros t pc'. destruct (decide (t = tid)) as [->|]; [rewrite lookup_insert_eq; by intros [= <-]|].
    rewrite lookup_insert_ne by done. apply H3.
  - eapply owners_ext; [done| |exact H4]. intros t. rewrite (reader_pop _ r _ (pushers c) _ _ (log c)).
    case_decide; subst; [done|by destruct c].
Qed.

Lemma gone_push tid : writer c tid = None ->
  sys_ok (mkSys r (delete tid (pushers c)) (poppers c) (log c)).
Proof.
  intros Hw. destruct Hc as [H1 H2 H3 H4]. split; cbn; try done.
  - intros t y pc'. destruct (decide (t = tid)) as [->|]; [by rewrite lookup_delete_eq|].
    rewrite lookup_delete_ne by done. apply H2.
  - eapply owners_ext; [|done|exact H4]. intros t. destruct (decide (t = tid)) as [->|].
    + unfold writer in *. cbn. by rewrite lookup_delete_eq, Hw.
    + unfold writer. cbn. by rewrite lookup_delete_ne.
Qed.
Lemma gone_pop tid : reader c tid = None ->
  sys_ok (mkSys r (pushers c) (delete tid (poppers c)) (log c)).
Proof.
  intros Hw. destruct Hc as [H1 H2 H3 H4]. split; cbn; try done.
  - intros t pc'. destruct (decide (t = tid)) as [->|]; [by rewrite lookup_delete_eq|].
    rewrite lookup_delete_ne by done. apply H3.
  - eapply owners_ext; [done| |exact H4]. intros t. destruct (decide (t = tid)) as [->|].
    + unfold reader in *. cbn. by rewrite lookup_delete_eq, Hw.
    + unfold reader. cbn. by rewrite lookup_delete_ne.
Qed.

(** A producer claims the next position. *)
Lemma sys_claim tid x : writer c tid = None -> tail r - head r < limit r -> seq (cell r (tail r)) = tail r ->
  sys_ok (mkSys (set_tail (tail r + 1) r) (<[tid := (x, PWrite (tail r))]> (pushers c)) (poppers c) (log c ++ [x])).
Proof.
  intros Hw Hroom Hfree. pose proof writer_cell as Hwc. destruct Hc as [H1 H2 H3 H4]. pose proof (ro_head _ _ _ H1).
  split; cbn.
  - by apply claim_ring.
  - intros t y pc. destruct (decide (t = tid)) as [->|].
    + rewrite lookup_insert_eq. intros [= <- <-]. cbn. subst r. split_and!; [lia|lia| |done].
      rewrite (ro_tail _ _ _ H1). apply at_log_end.
    + rewrite lookup_insert_ne by done. intros E%H2. by apply claim_push.
  - intros t pc E%H3. by apply claim_pop.
  - eapply owners_claim with (W := writer c) (tid := tid); [exact H4| |done|].
    + intros t p E%Hwc. lia.
    + intros t. rewrite (writer_push _ r _ _ (poppers c) _ (log c)). case_decide; [done|by destruct c].
Qed.

(** A consumer takes the front. *)
Lemma sys_take tid : reader c tid = None -> head r < tail r -> seq (cell r (head r)) = head r + 1 ->
  sys_ok (mkSys (set_head (head r + 1) r) (pushers c) (<[tid := CRead (head r)]> (poppers c)) (log c)).
Proof.
  intros Hw Hlt Hpub. pose proof reader_cell as Hrc. destruct Hc as [H1 H2 H3 H4].
  pose proof (ro_pos _ _ _ H1 (head r)) as Hpos. pose proof (sz_limit _ (ro_sized _ _ _ H1)) as Hsz.
  pose proof (ro_limit _ _ _ H1) as Hlim. fold r in Hsz, Hlim, Hpos. specialize (Hpos ltac:(lia)).
  unfold pos_ok in Hpos. destruct (Z.ltb_spec (head r) (head r)); [lia|].
  split; cbn.
  - by apply take_ring.
  - intros t y pc E%H2. by apply take_push.
  - intros t pc. destruct (decide (t = tid)) as [->|].
    + rewrite lookup_insert_eq. intros [= <-]. unfold pop_ok. cbn. change (size (set_head (head r + 1) r)) with (size r).
      split; [lia|]. split; [exact Hpub|]. destruct Hpos as [Hpos|[_ Hpos]]; [lia|exact Hpos].
    + rewrite lookup_insert_ne by done. intros E%H3. by apply take_pop.
  - eapply owners_take with (R := reader c) (tid := tid); [exact H4| |done|].
    + intros t p E%Hrc. lia.
    + intros t. rewrite (reader_pop _ r _ (pushers c) _ _ (log c)). case_decide; [done|by destruct c].
Qed.

(** A producer works on the cell it claimed. *)
Lemma sys_touch_push tid x pc p c' : writer c tid = Some p -> pos_ok zero (set_cell p c' r) (log c) p ->
  push_ok (set_cell p c' r) (log c) x pc -> (writes pc = Some p \/ writes pc = None /\ seq c' <> p) ->
  sys_ok (mkSys (set_cell p c' r) (<[tid := (x, pc)]> (pushers c)) (poppers c) (log c)).
Proof.
  intros Hw Hpos Hpush Hpc. destruct (writer_cell tid p Hw) as [Hin Hseq]. pose proof reader_cell as Hrc.
  assert (forall t, writer (mkSys (set_cell p c' r) (<[tid := (x, pc)]> (pushers c)) (poppers c) (log c)) t =
    if decide (t = tid) then writes pc else writer c t) as HW.
  { intros t. rewrite (writer_push _ r _ _ (poppers c) _ (log c)). by destruct c. }
  destruct Hc as [H1 H2 H3 H4].
  pose proof (ro_limit _ _ _ H1) as Hlim. pose proof (sz_limit _ (ro_sized _ _ _ H1)) as Hsz. fold r in Hlim, Hsz.
  assert (tail r - size r <= p < tail r) as Hwin by lia.
  assert (head r <= p /\ seq (cell r p) = p \/ p < head r /\ seq (cell r p) = p + 1) as Hown by (left; split; [lia|done]).
  split; cbn [ring log pushers poppers].
  - by apply touch_ring.
  - intros t y pc'. destruct (decide (t = tid)) as [->|Hne]; [rewrite lookup_insert_eq; by intros [= <- <-]|].
    rewrite lookup_insert_ne by done. intros E. apply touch_push; try done; [|by apply (H2 t)].
    intros Ep. apply Hne. apply (ow_writer _ _ _ _ H4 t tid p); [|done]. unfold writer. by rewrite E.
  - intros t pc' E. apply touch_pop; try done; [|by apply (H3 t)].
    intros Ep. destruct (Hrc t p) as [? _]; [unfold reader; by rewrite E|lia].
  - eapply owners_touch; [exact H1|done|exact H4| | | | | |].
    + intros t q. rewrite HW. case_decide; [subst|done]. destruct Hpc as [->|[-> _]]; [|done]. congruence.
    + done.
    + intros t q Eq Hne. rewrite HW. case_decide; [subst; congruence|done].
    + done.
    + intros _ Es. exists tid. rewrite HW, decide_True by done. by destruct Hpc as [|[]].
    + intros. lia.
Qed.

(** A consumer empties the cell it took. *)
Lemma sys_touch_pop tid pc p c' : reader c tid = Some p -> pos_ok zero (set_cell p c' r) (log c) p ->
  pop_ok (set_cell p c' r) (log c) pc -> (reads_at pc = Some p \/ reads_at pc = None /\ seq c' <> p + 1) ->
  sys_ok (mkSys (set_cell p c' r) (pushers c) (<[tid := pc]> (poppers c)) (log c)).
Proof.
  intros Hw Hpos Hpop Hpc. destruct (reader_cell tid p Hw) as [Hin Hseq]. pose proof writer_cell as Hrc.
  assert (forall t, reader (mkSys (set_cell p c' r) (pushers c) (<[tid := pc]> (poppers c)) (log c)) t =
    if decide (t = tid) then reads_at pc else reader c t) as HW.
  { intros t. rewrite (reader_pop _ r _ (pushers c) _ _ (log c)). by destruct c. }
  destruct Hc as [H1 H2 H3 H4]. pose proof (ro_head _ _ _ H1) as Hhd. fold r in Hhd.
  assert (tail r - size r <= p < tail r) as Hwin by lia.
  assert (head r <= p /\ seq (cell r p) = p \/ p < head r /\ seq (cell r p) = p + 1) as Hown by (right; split; [lia|done]).
  split; cbn [ring log pushers poppers].
  - by apply touch_ring.
  - intros t y pc' E. apply touch_push; try done; [|by apply (H2 t)].
    intros Ep. destruct (Hrc t p) as [? _]; [unfold writer; by rewrite E|lia].
  - intros t pc'. destruct (decide (t = tid)) as [->|Hne]; [rewrite lookup_insert_eq; by intros [= <-]|].
    rewrite lookup_insert_ne by done. intros E. apply touch_pop; try done; [|by apply (H3 t)].
    intros Ep. apply Hne. apply (ow_reader _ _ _ _ H4 t tid p); [|done]. unfold reader. by rewrite E.
  - eapply owners_touch; [exact H1|done|exact H4| | | | | |].
    + done.
    + intros t q. rewrite HW. case_decide; [subst|done]. destruct Hpc as [->|[-> _]]; [|done]. congruence.
    + done.
    + intros t q Eq Hne. rewrite HW. case_decide; [subst; congruence|done].
    + intros. lia.
    + intros _ Es. exists tid. rewrite HW, decide_True by done. by destruct Hpc as [|[]].
Qed.
End State.

(** ** The steps *)

Lemma u64_pos z : 0 <= z < 2 ^ 64 -> u64 z = z.
Proof. apply Z.mod_small. Qed.

Lemma writer_at c tid x pc : pushers c !! tid = Some (x, pc) -> writer (T := T) c tid = writes pc.
Proof. intros E. unfold writer. by rewrite E. Qed.
Lemma reader_at c tid pc : poppers c !! tid = Some pc -> reader (T := T) c tid = reads_at pc.
Proof. intros E. unfold reader. by rewrite E. Qed.

Lemma push_step_ok c tid x pc pc' r' : sys_ok c -> in_range c -> pushers c !! tid = Some (x, pc) ->
  push_step x pc (ring c) = Some (pc', r') ->
  sys_ok (mkSys r' (<[tid := (x, pc')]> (pushers c)) (poppers c) (push_log pc pc' x (log c))).
Proof.
  intros Hc Hrange E Hs. pose proof (so_ring _ _ Hc) as Hr. pose proof (so_push _ _ Hc _ _ _ E) as Hp.
  pose proof (writer_at c tid x pc E) as Hw. unfold in_range in Hrange. rewrite <- (ro_tail _ _ _ Hr) in Hrange.
  pose proof (ro_head _ _ _ Hr) as Hhd. pose proof (sized_two _ (ro_sized _ _ _ Hr)) as Hsz.
  destruct pc; cbn [push_step] in Hs.
  - injection Hs as <- <-. apply quiet_push; [done|cbn; lia|by rewrite Hw].
  - cbn in Hp. destruct (head (ring c) >? t) eqn:E1; [injection Hs as <- <-; by apply quiet_push|].
    rewrite u64_pos in Hs by lia.
    destruct (t - head (ring c) >=? limit (ring c)) eqn:E2; injection Hs as <- <-; apply quiet_push; cbn; try done; lia.
  - rewrite (cell_at_cell zero) in Hs by apply Hr. cbn in Hs. destruct Hp as [Hp1 Hp2].
    destruct (Z.eqb_spec (seq (cell (ring c) t)) t) as [E1|E1]; cbn in Hs.
    + injection Hs as <- <-. apply quiet_push; cbn; [done| |by rewrite Hw]. split; [done|]. intros E2. split; [by apply Hp2|done].
    + destruct (seq (cell (ring c) t) <? t); injection Hs as <- <-; by apply quiet_push.
  - destruct Hp as [Hp1 Hp2]. destruct (Z.eqb_spec (tail (ring c)) t) as [E1|E1]; injection Hs as <- <-.
    + destruct (Hp2 E1) as [Hp3 Hp4]. subst t. rewrite u64_pos by lia. by apply sys_claim.
    + by apply quiet_push.
  - rewrite (cell_at_cell zero) in Hs by apply Hr. cbn in Hs. injection Hs as <- <-. destruct Hp as (Hp1 & Hp2 & Hp3).
    apply sys_touch_push; [done|done| | |by left].
    + unfold pos_ok. rewrite (touch_same zero (ring c) (log c)) by done. cbn [set_cell head].
      destruct (Z.ltb_spec t (head (ring c))); [lia|by left].
    + unfold TaskRingSafe.push_ok. by rewrite (touch_same zero (ring c) (log c)) by done.
  - rewrite (cell_at_cell zero) in Hs by apply Hr. cbn in Hs. injection Hs as <- <-. destruct Hp as (Hp1 & Hp2 & Hp3 & Hp4).
    apply sys_touch_push; [done|done| |done|].
    + unfold pos_ok. rewrite (touch_same zero (ring c) (log c)) by done. cbn [set_cell head seq task].
      destruct (Z.ltb_spec t (head (ring c))); [lia|]. right. rewrite u64_pos by lia. split; [done|]. by rewrite Hp4.
    + right. split; [done|]. cbn. rewrite u64_pos by lia. lia.
  - done.
Qed.

Lemma pop_step_ok c tid pc pc' r' : sys_ok c -> in_range c -> poppers c !! tid = Some pc ->
  pop_step zero pc (ring c) = Some (pc', r') ->
  sys_ok (mkSys r' (pushers c) (<[tid := pc']> (poppers c)) (log c)).
Proof.
  intros Hc Hrange E Hs. pose proof (so_ring _ _ Hc) as Hr. pose proof (so_pop _ _ Hc _ _ E) as Hp.
  pose proof (reader_at c tid pc E) as Hw. unfold in_range in Hrange. rewrite <- (ro_tail _ _ _ Hr) in Hrange.
  pose proof (ro_head _ _ _ Hr) as Hhd. pose proof (sized_two _ (ro_sized _ _ _ Hr)) as Hsz.
  pose proof (sz_mask _ (ro_sized _ _ _ Hr)) as Hmask.
  destruct pc; cbn [pop_step] in Hs.
  - injection Hs as <- <-. apply quiet_pop; [done|cbn; lia|by rewrite Hw].
  - rewrite (cell_at_cell zero) in Hs by apply Hr. cbn in Hs, Hp.
    destruct (Z.eqb_spec (seq (cell (ring c) h)) (u64 (h + 1))) as [E1|E1]; cbn in Hs.
    + injection Hs as <- <-. apply quiet_pop; cbn; [done| |by rewrite Hw]. split; [done|]. intros E2. subst h.
      rewrite u64_pos in E1 by lia. split; [|done].
      destruct (decide (head (ring c) = tail (ring c))) as [E3|]; [|lia]. rewrite E3 in E1.
      pose proof (seq_tail zero (ring c) (log c) Hr). lia.
    + destruct (seq (cell (ring c) h) =? h); injection Hs as <- <-; by apply quiet_pop.
  - destruct Hp as [Hp1 Hp2]. destruct (Z.eqb_spec (head (ring c)) h) as [E1|E1]; injection Hs as <- <-.
    + destruct (Hp2 E1) as [Hp3 Hp4]. subst h. rewrite u64_pos by lia. by apply sys_take.
    + by apply quiet_pop.
  - rewrite (cell_at_cell zero) in Hs by apply Hr. cbn in Hs. injection Hs as <- <-. by apply quiet_pop.
  - rewrite (cell_at_cell zero) in Hs by apply Hr. cbn in Hs. injection Hs as <- <-. destruct Hp as (Hp1 & Hp2 & Hp3).
    apply sys_touch_pop; [done|done| | |by left].
    + unfold pos_ok. rewrite (touch_same zero (ring c) (log c)) by done. cbn [set_cell head seq].
      destruct (Z.ltb_spec h (head (ring c))); [by left|lia].
    + unfold TaskRingSafe.pop_ok. rewrite (touch_same zero (ring c) (log c)) by done. by rewrite size_set_cell.
  - rewrite (cell_at_cell zero) in Hs by apply Hr. cbn in Hs. injection Hs as <- <-. destruct Hp as (Hp1 & Hp2 & Hp3).
    assert (h + mask (ring c) + 1 = h + size (ring c)) as Ehm by lia.
    apply sys_touch_pop; [done|done| |done|].
    + unfold pos_ok. rewrite (touch_same zero (ring c) (log c)) by done. cbn [set_cell head seq]. rewrite size_set_cell.
      destruct (Z.ltb_spec h (head (ring c))); [|lia]. right.
      rewrite Ehm, u64_pos; lia.
    + right. split; [done|]. cbn. rewrite Ehm, u64_pos; lia.
  - done.
Qed.
End Steps.
