(* ===== verification/TaskQueue.v ===== *)
(** * TaskQueue

    What the ring of [TaskRing] promises to the event loops and the parsers: an
    atomic bounded queue.  A call is asked, takes effect at one moment and is
    answered; the ring refines this whatever the interleaving of its steps.
    Further, no two calls touch a cell at the same time, calls return, and what
    a stalled consumer does to the others. *)

From S2P Require Import Prelude TaskRing TaskRingSafe.

(** ** The specification *)

Section Queue.
Context {T : Type}.

Inductive pushing : Type := Asked | Queued | Answered (ok : bool).
Inductive popping : Type := Wanting | Took (x : T) | Given (o : option T).

Record queue : Type := mkQueue {
  items : list T;
  bound : Z;
  pushes : gmap nat (T * pushing);
  pops : gmap nat popping;
}.

(** A push is refused when the queue is full, or while a call of [pop] that took
    a task has not returned; a pop finds nothing when the queue is empty, or
    while the call of [push] that queued the front has not returned. *)
Definition may_refuse (q : queue) : Prop :=
  bound q <= zlen (items q) \/ exists tid x, pops q !! tid = Some (Took x).
Definition may_be_empty (q : queue) : Prop :=
  items q = [] \/ exists tid x, items q !! 0%nat = Some x /\ pushes q !! tid = Some (x, Queued).

Definition set_push (tid : nat) (x : T) (s : pushing) (q : queue) : queue :=
  mkQueue (items q) (bound q) (<[tid := (x, s)]> (pushes q)) (pops q).
Definition set_pop (tid : nat) (s : popping) (q : queue) : queue :=
  mkQueue (items q) (bound q) (pushes q) (<[tid := s]> (pops q)).
Definition set_items (l : list T) (q : queue) : queue := mkQueue l (bound q) (pushes q) (pops q).

Inductive queue_step (q : queue) : queue -> Prop :=
  | q_inside : queue_step q q
  | q_call_push tid x : pushes q !! tid = None -> queue_step q (set_push tid x Asked q)
  | q_enqueue tid x : pushes q !! tid = Some (x, Asked) -> zlen (items q) < bound q ->
      queue_step q (set_push tid x Queued (set_items (items q ++ [x]) q))
  | q_refuse tid x : pushes q !! tid = Some (x, Asked) -> may_refuse q ->
      queue_step q (set_push tid x (Answered false) q)
  | q_accept tid x : pushes q !! tid = Some (x, Queued) -> queue_step q (set_push tid x (Answered true) q)
  | q_end_push tid x b : pushes q !! tid = Some (x, Answered b) ->
      queue_step q (mkQueue (items q) (bound q) (delete tid (pushes q)) (pops q))
  | q_call_pop tid : pops q !! tid = None -> queue_step q (set_pop tid Wanting q)
  | q_dequeue tid x rest : pops q !! tid = Some Wanting -> items q = x :: rest ->
      queue_step q (set_pop tid (Took x) (set_items rest q))
  | q_empty tid : pops q !! tid = Some Wanting -> may_be_empty q -> queue_step q (set_pop tid (Given None) q)
  | q_give tid x : pops q !! tid = Some (Took x) -> queue_step q (set_pop tid (Given (Some x)) q)
  | q_end_pop tid o : pops q !! tid = Some (Given o) ->
      queue_step q (mkQueue (items q) (bound q) (pushes q) (delete tid (pops q))).

Definition empty_queue (bound : Z) : queue := mkQueue [] bound ∅ ∅.

(** ** The ring as a queue *)

Definition push_view (pc : push_pc) : pushing :=
  match pc with
  | PWrite _ | PPub _ => Queued
  | PRet b => Answered b
  | _ => Asked
  end.
Definition pop_view (l : list T) (pc : pop_pc) : popping :=
  match pc with
  | CRead h => from_option Took Wanting (at_log l h)
  | CClear _ x | CBack _ x => Took x
  | CRet o => Given o
  | _ => Wanting
  end.
Definition view (c : sys) : queue :=
  mkQueue (drop (Z.to_nat (TaskRing.head (ring c))) (log c)) (limit (ring c))
    ((fun '(x, pc) => (x, push_view pc)) <$> pushers c) (pop_view (log c) <$> poppers c).
End Queue.

(** The step that is taken, and what its view is. *)
Ltac moves_to q' := match goal with |- queue_step _ ?q => replace q with q' end.

Section Refines.
Context {T : Type} (zero : T).
Abbreviation sys := (@sys T).
Abbreviation cell := (cell zero).
Abbreviation sys_ok := (sys_ok zero).

(** A view whose threads did not move. *)
Lemma pops_snoc (c : sys) x : sys_ok c -> pop_view (log c ++ [x]) <$> poppers c = pop_view (log c) <$> poppers c.
Proof.
  intros Hc. apply map_eq. intros t. rewrite !lookup_fmap. destruct (poppers c !! t) as [pc|] eqn:E; [|done]. cbn. f_equal.
  destruct pc; try done. apply (so_pop _ _ Hc) in E. destruct E as (_ & _ & E). cbn.
  by rewrite (at_log_snoc _ _ _ _ E), E.
Qed.

Lemma set_push_view (c : sys) tid x pc : 
  view (mkSys (ring c) (<[tid := (x, pc)]> (pushers c)) (poppers c) (log c)) = set_push tid x (push_view pc) (view c).
Proof. unfold view, set_push. cbn. by rewrite fmap_insert. Qed.
Lemma set_pop_view (c : sys) tid pc : 
  view (mkSys (ring c) (pushers c) (<[tid := pc]> (poppers c)) (log c)) = set_pop tid (pop_view (log c) pc) (view c).
Proof. unfold view, set_pop. cbn. by rewrite fmap_insert. Qed.

(** Setting what is already there. *)
Lemma same_push (c : sys) tid x pc pc' : pushers c !! tid = Some (x, pc) -> push_view pc' = push_view pc ->
  set_push tid x (push_view pc') (view c) = view c.
Proof.
  intros E Ev. unfold set_push, view. cbn. f_equal. rewrite insert_id; [done|]. by rewrite lookup_fmap, E, Ev.
Qed.
Lemma same_pop (c : sys) tid pc pc' : poppers c !! tid = Some pc -> pop_view (log c) pc' = pop_view (log c) pc ->
  set_pop tid (pop_view (log c) pc') (view c) = view c.
Proof.
  intros E Ev. unfold set_pop, view. cbn. f_equal. rewrite insert_id; [done|]. by rewrite lookup_fmap, E, Ev.
Qed.

(** The view does not look into the cells. *)
Lemma view_cell (c : sys) p c' P Q :
  view (mkSys (set_cell p c' (ring c)) P Q (log c)) = view (mkSys (ring c) P Q (log c)).
Proof. done. Qed.

Lemma zlen_items (c : sys) : sys_ok c -> zlen (items (view c)) = tail (ring c) - TaskRing.head (ring c).
Proof.
  intros Hc. pose proof (so_ring _ _ Hc) as Hr. pose proof (ro_tail _ _ _ Hr). pose proof (ro_head _ _ _ Hr).
  cbn. unfold zlen in *. rewrite length_drop. lia.
Qed.

(** ** When a call is refused *)

Lemma refused_in_progress (c : sys) t : sys_ok c -> t <= tail (ring c) -> seq (cell (ring c) t) < t -> may_refuse (view c).
Proof.
  intros Hc Ht Hs. pose proof (so_ring _ _ Hc) as Hr. pose proof (sized_two _ (ro_sized _ _ _ Hr)).
  pose proof (sz_limit _ (ro_sized _ _ _ Hr)). pose proof (ro_head _ _ _ Hr).
  destruct (decide (t < tail (ring c) - size (ring c))) as [Hlt|].
  { pose proof (seq_stale zero _ _ Hr t Hlt). lia. }
  destruct (decide (t = tail (ring c))) as [->|].
  2:{ pose proof (seq_after zero _ _ Hr t ltac:(lia)). lia. }
  unfold may_refuse. rewrite zlen_items by done. destruct (seq_tail zero _ _ Hr) as [|[|E]]; [left; cbn; lia|lia|].
  destruct (decide (TaskRing.head (ring c) <= tail (ring c) - size (ring c))); [left; cbn; lia|].
  destruct (ow_read _ _ _ _ (so_own _ _ Hc) (tail (ring c) - size (ring c))) as [tid Et]; [lia| |].
  { rewrite <- E. f_equal. rewrite <- (cell_round zero _ _ Hr (tail (ring c)) (-1)). done. }
  right. unfold reader in Et. destruct (poppers c !! tid) as [pc|] eqn:Ep; [|done]. cbn in Et.
  pose proof (so_pop _ _ Hc _ _ Ep) as Ho. cbn. setoid_rewrite lookup_fmap. exists tid.
  destruct pc; try done; rewrite Ep; cbn; [|by eexists|by eexists].
  destruct Ho as (_ & _ & ->). by eexists.
Qed.

Lemma empty_in_progress (c : sys) h : sys_ok c -> h <= TaskRing.head (ring c) -> seq (cell (ring c) h) = h -> may_be_empty (view c).
Proof.
  intros Hc Ht Hs. pose proof (so_ring _ _ Hc) as Hr. pose proof (sized_two _ (ro_sized _ _ _ Hr)).
  pose proof (sz_limit _ (ro_sized _ _ _ Hr)). pose proof (ro_head _ _ _ Hr). pose proof (ro_limit _ _ _ Hr).
  destruct (decide (h < tail (ring c) - size (ring c))) as [Hlt|].
  { pose proof (seq_stale zero _ _ Hr h Hlt). lia. }
  destruct (decide (h < TaskRing.head (ring c))) as [Hlt|].
  { pose proof (ro_pos _ _ _ Hr h ltac:(lia)) as Ho. unfold pos_ok in Ho. destruct (Z.ltb_spec h (TaskRing.head (ring c))); lia. }
  assert (h = TaskRing.head (ring c)) as -> by lia.
  pose proof (zlen_items c Hc) as Hz. unfold may_be_empty.
  destruct (decide (TaskRing.head (ring c) = tail (ring c))) as [E|].
  { left. destruct (items (view c)); [done|]. rewrite zlen_cons in Hz. pose proof (zlen_nonneg l). lia. }
  right. destruct (ow_written _ _ _ _ (so_own _ _ Hc) (TaskRing.head (ring c))) as [tid Et]; [lia|done|].
  unfold writer in Et. destruct (pushers c !! tid) as [[x pc]|] eqn:Ep; [|done]. cbn in Et.
  pose proof (so_push _ _ Hc _ _ _ Ep) as Ho. exists tid, x.
  assert (at_log (log c) (TaskRing.head (ring c)) = Some x) as El by (destruct pc; try done; injection Et as ->; apply Ho).
  split.
  - cbn. rewrite <- El. unfold at_log. by rewrite lookup_drop, Nat.add_0_r.
  - cbn. rewrite lookup_fmap, Ep. by destruct pc.
Qed.

(** ** Steps *)

Lemma push_refines (c : sys) tid x pc pc' r' : sys_ok c -> in_range c -> pushers c !! tid = Some (x, pc) ->
  push_step x pc (ring c) = Some (pc', r') ->
  queue_step (view c) (view (mkSys r' (<[tid := (x, pc')]> (pushers c)) (poppers c) (push_log pc pc' x (log c)))).
Proof.
  intros Hc Hrange E Hs. pose proof (so_ring _ _ Hc) as Hr. pose proof (so_push _ _ Hc _ _ _ E) as Hp.
  pose proof (ro_head _ _ _ Hr) as Hhd. pose proof (ro_tail _ _ _ Hr) as Htl. pose proof (zlen_items c Hc) as Hz.
  unfold in_range in Hrange. pose proof (sized_two _ (ro_sized _ _ _ Hr)) as Hsz.
  assert (pushes (view c) !! tid = Some (x, push_view pc)) as Ev by (cbn; by rewrite lookup_fmap, E).
  destruct pc; cbn [push_step] in Hs.
  - injection Hs as <- <-. cbn [push_log]. rewrite set_push_view, (same_push c tid x PTail) by done. constructor.
  - cbn in Hp. destruct (TaskRing.head (ring c) >? t) eqn:E1.
    { injection Hs as <- <-. cbn [push_log]. rewrite set_push_view, (same_push c tid x (PHead t)) by done. constructor. }
    rewrite u64_pos in Hs by lia.
    destruct (t - TaskRing.head (ring c) >=? limit (ring c)) eqn:E2; injection Hs as <- <-; cbn [push_log]; rewrite set_push_view.
    + apply q_refuse; [done|]. left. rewrite Hz. cbn. lia.
    + rewrite (same_push c tid x (PHead t)) by done. constructor.
  - rewrite (cell_at_cell zero) in Hs by apply Hr. cbn in Hs. destruct Hp as [Hp1 Hp2].
    destruct (Z.eqb_spec (seq (cell (ring c) t)) t) as [E1|E1]; cbn in Hs.
    + injection Hs as <- <-. cbn [push_log]. rewrite set_push_view, (same_push c tid x (PSeq t)) by done. constructor.
    + destruct (Z.ltb_spec (seq (cell (ring c) t)) t) as [E2|E2]; injection Hs as <- <-; cbn [push_log]; rewrite set_push_view.
      * apply q_refuse; [done|]. by apply (refused_in_progress c t).
      * rewrite (same_push c tid x (PSeq t)) by done. constructor.
  - destruct Hp as [Hp1 Hp2]. destruct (Z.eqb_spec (tail (ring c)) t) as [E1|E1]; injection Hs as <- <-; cbn [push_log].
    + destruct (Hp2 E1) as [Hp3 Hp4]. moves_to (set_push tid x Queued (set_items (items (view c) ++ [x]) (view c))).
      { apply q_enqueue; [done|]. rewrite Hz. cbn. lia. }
      unfold view, set_push, set_items. cbn. rewrite fmap_insert, (pops_snoc c x Hc). f_equal.
      rewrite drop_app_le; [done|]. unfold zlen in *. lia.
    + rewrite set_push_view, (same_push c tid x (PCas t)) by done. constructor.
  - rewrite (cell_at_cell zero) in Hs by apply Hr. cbn in Hs. injection Hs as <- <-. cbn [push_log].
    rewrite view_cell, set_push_view, (same_push c tid x (PWrite t)) by done. constructor.
  - rewrite (cell_at_cell zero) in Hs by apply Hr. cbn in Hs. injection Hs as <- <-. cbn [push_log].
    rewrite view_cell, set_push_view. by apply q_accept.
  - done.
Qed.

Lemma pop_refines (c : sys) tid pc pc' r' : sys_ok c -> in_range c -> poppers c !! tid = Some pc ->
  pop_step zero pc (ring c) = Some (pc', r') ->
  queue_step (view c) (view (mkSys r' (pushers c) (<[tid := pc']> (poppers c)) (log c))).
Proof.
  intros Hc Hrange E Hs. pose proof (so_ring _ _ Hc) as Hr. pose proof (so_pop _ _ Hc _ _ E) as Hp.
  pose proof (ro_head _ _ _ Hr) as Hhd. pose proof (ro_tail _ _ _ Hr) as Htl.
  unfold in_range in Hrange. pose proof (sized_two _ (ro_sized _ _ _ Hr)) as Hsz.
  pose proof (sz_limit _ (ro_sized _ _ _ Hr)) as Hlm. pose proof (ro_limit _ _ _ Hr) as Hlim.
  assert (pops (view c) !! tid = Some (pop_view (log c) pc)) as Ev by (cbn; by rewrite lookup_fmap, E).
  destruct pc; cbn [pop_step] in Hs.
  - injection Hs as <- <-. rewrite set_pop_view, (same_pop c tid CHead) by done. constructor.
  - rewrite (cell_at_cell zero) in Hs by apply Hr. cbn in Hs.
    destruct (negb (seq (cell (ring c) h) =? u64 (h + 1))); [|injection Hs as <- <-; rewrite set_pop_view, (same_pop c tid (CSeq h)) by done; constructor].
    destruct (Z.eqb_spec (seq (cell (ring c) h)) h) as [E1|E1]; injection Hs as <- <-; rewrite set_pop_view.
    + apply q_empty; [done|]. by apply (empty_in_progress c h).
    + rewrite (same_pop c tid (CSeq h)) by done. constructor.
  - destruct Hp as [Hp1 Hp2]. destruct (Z.eqb_spec (TaskRing.head (ring c)) h) as [E1|E1]; injection Hs as <- <-.
    + destruct (Hp2 E1) as [Hp3 Hp4]. subst h. pose proof (ro_pos _ _ _ Hr (TaskRing.head (ring c)) ltac:(lia)) as Ho.
      unfold pos_ok in Ho. destruct (Z.ltb_spec (TaskRing.head (ring c)) (TaskRing.head (ring c))); [lia|].
      destruct Ho as [Ho|[_ Ho]]; [lia|]. set (x := task _) in Ho.
      pose proof (drop_S (log c) x (Z.to_nat (TaskRing.head (ring c))) Ho) as Hd.
      moves_to (set_pop tid (Took x) (set_items (drop (S (Z.to_nat (TaskRing.head (ring c)))) (log c)) (view c))).
      { apply q_dequeue; [done|]. exact Hd. }
      unfold view, set_pop, set_items. cbn. rewrite fmap_insert. cbn. rewrite Ho, u64_pos by lia. cbn. do 2 f_equal. lia.
    + rewrite set_pop_view, (same_pop c tid (CCas h)) by done. constructor.
  - rewrite (cell_at_cell zero) in Hs by apply Hr. cbn in Hs. injection Hs as <- <-. destruct Hp as (_ & _ & Hp).
    rewrite set_pop_view, (same_pop c tid (CRead h)); [constructor|done|]. cbn. by rewrite Hp.
  - rewrite (cell_at_cell zero) in Hs by apply Hr. cbn in Hs. injection Hs as <- <-.
    rewrite view_cell, set_pop_view, (same_pop c tid (CClear h x)) by done. constructor.
  - rewrite (cell_at_cell zero) in Hs by apply Hr. cbn in Hs. injection Hs as <- <-.
    rewrite view_cell, set_pop_view. by apply q_give.
  - done.
Qed.

Lemma step_refines (c c' : sys) : sys_ok c -> in_range c -> sys_step zero c c' -> sys_ok c' /\ queue_step (view c) (view c').
Proof.
  intros Hc Hrange Hs. destruct Hs as [tid x c E|tid x pc pc' r' c E Hs|tid x b c E|tid c E|tid pc pc' r' c E Hs|tid o c E].
  - split; [apply quiet_push; [done..|unfold writer; by rewrite E]|]. rewrite set_push_view. apply q_call_push.
    cbn. by rewrite lookup_fmap, E.
  - split; [by eapply push_step_ok|by eapply push_refines].
  - split; [apply gone_push; [done|by rewrite (writer_at c tid x (PRet b))]|].
    moves_to (mkQueue (items (view c)) (bound (view c)) (delete tid (pushes (view c))) (pops (view c))).
    { apply (q_end_push _ tid x b). cbn. by rewrite lookup_fmap, E. }
    unfold view. cbn. by rewrite fmap_delete.
  - split; [apply quiet_pop; [done..|unfold reader; by rewrite E]|]. rewrite set_pop_view. apply q_call_pop.
    cbn. by rewrite lookup_fmap, E.
  - split; [by eapply pop_step_ok|by eapply pop_refines].
  - split; [apply gone_pop; [done|by rewrite (reader_at c tid (CRet o))]|].
    moves_to (mkQueue (items (view c)) (bound (view c)) (pushes (view c)) (delete tid (pops (view c)))).
    { apply (q_end_pop _ tid o). cbn. by rewrite lookup_fmap, E. }
    unfold view. cbn. by rewrite fmap_delete.
Qed.

(** The log grows and the ring keeps its size. *)
Lemma step_log (c c' : sys) : sys_step zero c c' -> zlen (log c) + size (ring c) <= zlen (log c') + size (ring c').
Proof.
  intros Hs. destruct Hs as [tid x c E|tid x pc pc' r' c E Hs|tid x b c E|tid c E|tid pc pc' r' c E Hs|tid o c E]; cbn; try lia.
  - assert (zlen (log c) <= zlen (push_log pc pc' x (log c))).
    { destruct pc, pc'; cbn; try lia. rewrite zlen_app. pose proof (zlen_nonneg [x]). lia. }
    assert (size r' = size (ring c)) as ->; [|lia].
    destruct pc; cbn in Hs; try (destruct (cell_at _ _); [|done]; cbn in Hs); repeat case_match; try done;
      injection Hs as <- <-; try done; apply size_set_cell.
  - assert (size r' = size (ring c)) as ->; [|lia].
    destruct pc; cbn in Hs; try (destruct (cell_at _ _); [|done]; cbn in Hs); repeat case_match; try done;
      injection Hs as <- <-; try done; apply size_set_cell.
Qed.

Lemma first_round s p : 0 < s -> - s <= p < 0 -> p mod s = p + s.
Proof. intros Hs Hp. rewrite <- (Z.mod_add p 1 s) by lia. rewrite Z.mod_small; lia. Qed.

Lemma start_ok lim : lim <= 2 ^ 62 -> sys_ok (start zero lim).
Proof.
  intros Hl. pose proof (newTaskRing_sized zero lim Hl) as Hs. pose proof (sized_two _ Hs) as H2.
  split; cbn [start ring log]; try done; split; try done; cbn [newTaskRing TaskRing.head TaskRing.tail]; try lia.
  - pose proof (sz_limit _ Hs) as Hlim. cbn [newTaskRing limit] in *. lia.
  - intros p Hp. change (-size (newTaskRing zero lim) <= p < 0) in Hp. unfold pos_ok. cbn [newTaskRing TaskRing.head].
    destruct (Z.ltb_spec p 0); [|lia]. right. fold (newTaskRing zero lim). rewrite newTaskRing_cell by done.
    cbn [seq]. by apply first_round; lia.
  - intros p Hp. change (-size (newTaskRing zero lim) <= p < 0) in Hp. fold (newTaskRing zero lim).
    rewrite newTaskRing_cell by done. cbn [seq]. rewrite first_round by lia. lia.
Qed.

Lemma reach_ok lim (c : sys) : lim <= 2 ^ 62 -> rtc (sys_step zero) (start zero lim) c -> in_range c ->
  sys_ok c /\ rtc queue_step (empty_queue (Z.max lim 1)) (view c).
Proof.
  intros Hl Hrun. revert c Hrun.
  refine (rtc_ind_r (fun c => in_range c -> sys_ok c /\ rtc queue_step _ (view c)) _ _ _); [intros Hrange|intros c c' Hrun Hs IH Hrange].
  { split; [by apply start_ok|]. unfold view, start, empty_queue. cbn. rewrite !fmap_empty. constructor. }
  destruct IH as [Hc Hq]. { unfold in_range in *. pose proof (step_log c c' Hs). lia. }
  destruct (step_refines c c' Hc) as [Hc' Hq']; [|done|].
  { unfold in_range in *. pose proof (step_log c c' Hs). lia. }
  split; [done|]. by eapply rtc_r.
Qed.

(** ** Running a schedule *)

(** Who moves: a call begins, takes a step or is over. *)
Inductive move : Type := MPush (tid : nat) (x : T) | MPop (tid : nat) | MOn (tid : nat) | MOver (tid : nat).

Definition exec (m : move) (c : sys) : option sys :=
  match m with
  | MPush tid x => if decide (pushers c !! tid = None) then Some (mkSys (ring c) (<[tid := (x, PTail)]> (pushers c)) (poppers c) (log c)) else None
  | MPop tid => if decide (poppers c !! tid = None) then Some (mkSys (ring c) (pushers c) (<[tid := CHead]> (poppers c)) (log c)) else None
  | MOn tid =>
      match pushers c !! tid with
      | Some (x, pc) => '(pc', r') ← push_step x pc (ring c);
          Some (mkSys r' (<[tid := (x, pc')]> (pushers c)) (poppers c) (push_log pc pc' x (log c)))
      | None => pc ← poppers c !! tid; '(pc', r') ← pop_step zero pc (ring c);
          Some (mkSys r' (pushers c) (<[tid := pc']> (poppers c)) (log c))
      end
  | MOver tid =>
      match pushers c !! tid with
      | Some (_, PRet _) => Some (mkSys (ring c) (delete tid (pushers c)) (poppers c) (log c))
      | _ => match poppers c !! tid with
             | Some (CRet _) => Some (mkSys (ring c) (pushers c) (delete tid (poppers c)) (log c))
             | _ => None
             end
      end
  end.
Fixpoint execs (ms : list move) (c : sys) : option sys :=
  match ms with [] => Some c | m :: ms => c ← exec m c; execs ms c end.

Lemma exec_sound m (c c' : sys) : exec m c = Some c' -> sys_step zero c c'.
Proof.
  destruct m as [tid x|tid|tid|tid]; cbn.
  - case_decide; [|done]. intros [= <-]. by constructor.
  - case_decide; [|done]. intros [= <-]. by constructor.
  - destruct (pushers c !! tid) as [[x pc]|] eqn:E.
    + destruct (push_step x pc (ring c)) as [[pc' r']|] eqn:Es; [|done]. intros [= <-]. by eapply step_push.
    + destruct (poppers c !! tid) as [pc|] eqn:Ep; [|done]. cbn.
      destruct (pop_step zero pc (ring c)) as [[pc' r']|] eqn:Es; [|done]. intros [= <-]. by eapply step_pop.
  - destruct (pushers c !! tid) as [[x []]|] eqn:E; try (destruct (poppers c !! tid) as [[]|] eqn:Ep);
      try done; intros [= <-]; try (by eapply step_end_push); by eapply step_end_pop.
Qed.
Lemma execs_sound ms : forall c c' : sys, execs ms c = Some c' -> rtc (sys_step zero) c c'.
Proof.
  induction ms as [|m ms IH]; intros c c'; cbn; [by intros [= <-]; constructor|].
  destruct (exec m c) as [c1|] eqn:E; [|done]. cbn. intros Hr%IH. eapply rtc_l; [by eapply exec_sound|done].
Qed.

(** ** A call that runs alone *)

Fixpoint push_alone (fuel : nat) (x : T) (pc : push_pc) (r : taskRing) : option (bool * taskRing) :=
  match pc, fuel with
  | PRet b, _ => Some (b, r)
  | _, O => None
  | _, S fuel => '(pc', r') ← push_step x pc r; push_alone fuel x pc' r'
  end.
Fixpoint pop_alone (fuel : nat) (pc : pop_pc) (r : taskRing) : option (option T * taskRing) :=
  match pc, fuel with
  | CRet o, _ => Some (o, r)
  | _, O => None
  | _, S fuel => '(pc', r') ← pop_step zero pc r; pop_alone fuel pc' r'
  end.

Lemma push_on fuel x pc r : (forall b, pc <> PRet b) ->
  push_alone (S fuel) x pc r = match push_step x pc r with Some (pc', r') => push_alone fuel x pc' r' | None => None end.
Proof. intros E. destruct pc; cbn [push_alone]; [..|by destruct (E ok)]; by destruct (push_step _ _ _) as [[]|]. Qed.
Lemma pop_on fuel pc r : (forall o, pc <> CRet o) ->
  pop_alone (S fuel) pc r = match pop_step zero pc r with Some (pc', r') => pop_alone fuel pc' r' | None => None end.
Proof. intros E. destruct pc; cbn [pop_alone]; [..|by destruct (E r0)]; by destruct (pop_step _ _ _) as [[]|]. Qed.
Lemma sized_set_tail v (r : @taskRing T) : sized r -> sized (set_tail v r).
Proof. by intros []. Qed.
Lemma sized_set_head v (r : @taskRing T) : sized r -> sized (set_head v r).
Proof. by intros []. Qed.
Lemma push_ret fuel x b r : push_alone fuel x (PRet b) r = Some (b, r).
Proof. by destruct fuel. Qed.
Lemma pop_ret fuel o r : pop_alone fuel (CRet o) r = Some (o, r).
Proof. by destruct fuel. Qed.

Section Alone.
Context (c : sys) (Hc : sys_ok c) (Hrange : in_range c).
Let r := ring c.

(** The next position is free. *)
Definition has_room : Prop := tail r - TaskRing.head r < limit r /\ seq (cell r (tail r)) = tail r.
#[local] Instance has_room_dec : Decision has_room.
Proof. unfold has_room. apply _. Defined.

Lemma push_alone_6 x : exists r', push_alone 6 x PTail r = Some (bool_decide has_room, r').
Proof.
  pose proof (so_ring _ _ Hc) as Hr. fold r in Hr. pose proof (ro_head _ _ _ Hr). pose proof (ro_tail _ _ _ Hr).
  pose proof (sized_two _ (ro_sized _ _ _ Hr)). pose proof (ro_sized _ _ _ Hr) as Hz. unfold in_range in Hrange. fold r in Hrange.
  assert (push_step x (PHead (tail r)) r =
    Some (if tail r - TaskRing.head r >=? limit r then PRet false else PSeq (tail r), r)) as Eh.
  { cbn [push_step]. destruct (TaskRing.head r >? tail r) eqn:E1; [lia|]. rewrite u64_pos by lia. by case_match. }
  rewrite push_on by done. cbn [push_step]. rewrite push_on by done. rewrite Eh.
  destruct (tail r - TaskRing.head r >=? limit r) eqn:E2.
  { rewrite push_ret, bool_decide_eq_false_2; [by eexists|]. intros [? _]. lia. }
  rewrite push_on by done. cbn [push_step]. rewrite (cell_at_cell zero) by done. cbn [option_bind mbind].
  destruct (Z.eqb_spec (seq (cell r (tail r))) (tail r)) as [E|E]; cbn [negb].
  - rewrite push_on by done. cbn [push_step]. rewrite Z.eqb_refl. cbn [option_bind mbind].
    assert (sized (set_tail (u64 (tail r + 1)) r)) as Hz' by by apply sized_set_tail.
    rewrite push_on by done. cbn [push_step]. rewrite (cell_at_cell zero) by exact Hz'. cbn [option_bind mbind].
    rewrite push_on by done. cbn [push_step]. rewrite (cell_at_cell zero) by (apply sized_set_cell; exact Hz'). cbn [option_bind mbind].
    rewrite push_ret, bool_decide_eq_true_2; [by eexists|]. split; [lia|done].
  - pose proof (seq_tail zero _ _ Hr). pose proof (sz_limit _ Hz). destruct (Z.ltb_spec (seq (cell r (tail r))) (tail r)); [|lia].
    rewrite push_ret, bool_decide_eq_false_2; [by eexists|]. by intros [_ ?].
Qed.

(** What a call of [pop] finds when nobody else moves. *)
Lemma pop_alone_6 : (forall tid, reader c tid = None) -> exists o r', pop_alone 6 CHead r = Some (o, r') /\
  (o = items (view c) !! 0%nat \/ o = None /\ may_be_empty (view c)).
Proof.
  intros Hidle.   pose proof (so_ring _ _ Hc) as Hr. fold r in Hr. pose proof (ro_head _ _ _ Hr). pose proof (ro_tail _ _ _ Hr).
  pose proof (sized_two _ (ro_sized _ _ _ Hr)). pose proof (ro_sized _ _ _ Hr) as Hz. unfold in_range in Hrange. fold r in Hrange.
  pose proof (ro_limit _ _ _ Hr). pose proof (sz_limit _ Hz).
  rewrite pop_on by done. cbn [pop_step]. rewrite pop_on by done. cbn [pop_step]. rewrite (cell_at_cell zero) by done. cbn [option_bind mbind].
  rewrite u64_pos by lia. destruct (Z.eqb_spec (seq (cell r (TaskRing.head r))) (TaskRing.head r + 1)) as [E|E]; cbn [negb].
  - assert (TaskRing.head r < tail r) as Hlt.
    { destruct (decide (TaskRing.head r = tail r)) as [Eh|]; [|lia]. rewrite Eh in E. pose proof (seq_tail zero _ _ Hr). lia. }
    pose proof (ro_pos _ _ _ Hr (TaskRing.head r) ltac:(lia)) as Ho. unfold pos_ok in Ho.
    destruct (Z.ltb_spec (TaskRing.head r) (TaskRing.head r)); [lia|]. destruct Ho as [Ho|[_ Ho]]; [lia|].
    rewrite pop_on by done. cbn [pop_step]. rewrite Z.eqb_refl. cbn [option_bind mbind].
    assert (sized (set_head (u64 (TaskRing.head r + 1)) r)) as Hz' by by apply sized_set_head.
    rewrite pop_on by done. cbn [pop_step]. rewrite (cell_at_cell zero) by exact Hz'. cbn [option_bind mbind].
    rewrite pop_on by done. cbn [pop_step]. rewrite (cell_at_cell zero) by exact Hz'. cbn [option_bind mbind].
    rewrite pop_on by done. cbn [pop_step]. rewrite (cell_at_cell zero) by (apply sized_set_cell; exact Hz'). cbn [option_bind mbind].
    rewrite pop_ret. cbn [view items]. rewrite lookup_drop, Nat.add_0_r. fold r. unfold at_log in Ho. rewrite Ho. eexists _, _. by split; [|left].
  - destruct (Z.eqb_spec (seq (cell r (TaskRing.head r))) (TaskRing.head r)) as [E1|E1].
    { rewrite pop_ret. eexists _, _. split; [done|right]. split; [done|]. by apply (empty_in_progress c (TaskRing.head r)). }
    exfalso. destruct (decide (TaskRing.head r = tail r)) as [Eh|].
    + destruct (ow_read _ _ _ _ (so_own _ _ Hc) (tail r - size r)) as [tid Et]; [fold r; lia| |by rewrite Hidle in Et].
      fold r. pose proof (cell_round zero _ _ Hr (tail r) (-1)) as Ec. change (tail r + -1 * size r) with (tail r - size r) in Ec.
      rewrite Ec. pose proof (seq_tail zero _ _ Hr) as Ht. rewrite Eh in E, E1. lia.
    + pose proof (ro_pos _ _ _ Hr (TaskRing.head r) ltac:(lia)) as Ho. unfold pos_ok in Ho.
      destruct (Z.ltb_spec (TaskRing.head r) (TaskRing.head r)); lia.
Qed.
End Alone.
End Refines.

Section Promises.
Context {T : Type} (zero : T).

(** C6: Whatever the interleaving of any number of [push] and [pop] calls, the
    ring built by [newTaskRing limit] behaves as an atomic FIFO queue that
    holds at most [max limit 1] tasks: every task that a call reports as queued
    enters once, the tasks leave in the order in which they entered and each is
    returned by the one call that took it, a push is refused only when the
    queue is full or a taking call has not returned, and a pop reports nothing
    only when the queue is empty or its front is still being written. *)
Theorem ring_is_a_queue (lim : Z) (c : sys) : lim <= 2 ^ 62 -> rtc (sys_step zero) (start zero lim) c -> in_range c ->
  rtc queue_step (empty_queue (Z.max lim 1)) (view c) /\ zlen (items (view c)) <= Z.max lim 1.
Proof.
  intros Hl Hrun Hrange. destruct (reach_ok zero lim c Hl Hrun Hrange) as [Hc Hq]. split; [done|].
  rewrite (zlen_items zero) by done. pose proof (ro_limit _ _ _ (so_ring _ _ Hc)) as H.
  replace (Z.max lim 1) with (limit (ring c)); [done|]. change (limit (ring c)) with (bound (view c)).
  clear - Hq. change (Z.max lim 1) with (bound (@empty_queue T (Z.max lim 1))). induction Hq as [|x y z Hs Hq IH]; [done|].
  rewrite IH. by destruct Hs.
Qed.

(** The cell a call is working on. *)
Definition touches (c : sys) (push : bool) (tid : nat) : option Z := if push then writer (T := T) c tid else reader c tid.

(** C20: No step of a call indexes outside the cells, and a call that has
    claimed a position has the cell of that position to itself: two different
    calls in progress never work on the same cell, though the task of a cell is
    read and written without synchronisation. *)
Theorem ring_cells_not_shared (lim : Z) (c : sys) : lim <= 2 ^ 62 -> rtc (sys_step zero) (start zero lim) c -> in_range c ->
  (forall tid x pc, pushers c !! tid = Some (x, pc) -> (forall b, pc <> PRet b) -> is_Some (push_step x pc (ring c))) /\
  (forall tid pc, poppers c !! tid = Some pc -> (forall o, pc <> CRet o) -> is_Some (pop_step zero pc (ring c))) /\
  (forall k1 t1 p1 k2 t2 p2, touches c k1 t1 = Some p1 -> touches c k2 t2 = Some p2 -> (k1, t1) <> (k2, t2) ->
    slot (ring c) p1 <> slot (ring c) p2).
Proof.
  intros Hl Hrun Hrange. destruct (reach_ok zero lim c Hl Hrun Hrange) as [Hc _]. pose proof (so_ring _ _ Hc) as Hr.
  pose proof (ro_sized _ _ _ Hr) as Hz. split_and!.
  - intros tid x pc _ Hne. destruct pc; cbn; rewrite ?(cell_at_cell zero) by done; cbn; repeat case_match; try done.
    by destruct (Hne ok).
  - intros tid pc _ Hne. destruct pc; cbn; rewrite ?(cell_at_cell zero) by done; cbn; repeat case_match; try done.
    by destruct (Hne r).
  - intros k1 t1 p1 k2 t2 p2 H1 H2 Hne Es.
    assert (same_cell (ring c) p1 p2) as Ec.
    { rewrite !slot_mod in Es by done. pose proof (sized_two _ Hz).
      pose proof (Z.mod_pos_bound p1 (size (ring c))). pose proof (Z.mod_pos_bound p2 (size (ring c))). unfold same_cell. lia. }
    assert (forall k t p, touches c k t = Some p -> if k then head (ring c) <= p < tail (ring c) else tail (ring c) - size (ring c) <= p < head (ring c)) as Hin.
    { intros [] t p E; [by apply (writer_cell zero c Hc t)|by apply (reader_cell zero c Hc t)]. }
    pose proof (Hin _ _ _ H1) as I1. pose proof (Hin _ _ _ H2) as I2. clear Hin.
    pose proof (ro_limit _ _ _ Hr). pose proof (sz_limit _ Hz). pose proof (ro_head _ _ _ Hr). pose proof (sized_two _ Hz).
    assert (p1 = p2) as -> by (apply (same_cell_near (ring c)); [lia|done|destruct k1, k2; lia]).
    apply Hne. destruct k1, k2; try lia; f_equal; [by apply (ow_writer _ _ _ _ (so_own _ _ Hc) t1 t2 p2)|by apply (ow_reader _ _ _ _ (so_own _ _ Hc) t1 t2 p2)].
Qed.

(** C30: A call that nobody interrupts returns, whatever the calls in progress
    have left behind: [push] in six steps, queueing its task exactly when the
    next position is free, and [pop], when no other [pop] is in progress (each
    shard has one worker), in six steps with the front of the queue, or nothing
    when the queue is empty or its front is still being written. *)
Theorem ring_calls_return (lim : Z) (c : sys) (x : T) : lim <= 2 ^ 62 -> rtc (sys_step zero) (start zero lim) c -> in_range c ->
  (exists b r', push_alone 6 x PTail (ring c) = Some (b, r') /\
    (b = true <-> tail (ring c) - head (ring c) < limit (ring c) /\ seq (cell zero (ring c) (tail (ring c))) = tail (ring c))) /\
  ((forall tid, reader c tid = None) -> exists o r', pop_alone zero 6 CHead (ring c) = Some (o, r') /\
    (o = items (view c) !! 0%nat \/ o = None /\ may_be_empty (view c))).
Proof.
  intros Hl Hrun Hrange. destruct (reach_ok zero lim c Hl Hrun Hrange) as [Hc _]. split.
  - destruct (push_alone_6 zero c Hc Hrange x) as [r' E]. eexists _, r'. split; [exact E|]. apply bool_decide_eq_true.
  - by apply pop_alone_6.
Qed.

(** A consumer that has taken the last task but not handed its cell back keeps
    every other consumer in the loop of [pop] once the ring has gone round:
    the counter of the cell is neither [head] nor [head+1].  The comment on
    that branch says another consumer has taken the position. *)
Lemma pop_spins_on fuel (r : taskRing) : sized r -> seq (cell zero r (head r)) <> u64 (head r + 1) ->
  seq (cell zero r (head r)) <> head r ->
  pop_alone zero fuel CHead r = None /\ pop_alone zero fuel (CSeq (head r)) r = None.
Proof.
  intros Hz H1 H2. induction fuel as [|fuel [IH1 IH2]]; [done|]. split.
  - rewrite pop_on by done. exact IH2.
  - rewrite pop_on by done. cbn [pop_step]. rewrite (cell_at_cell zero) by done. cbn [option_bind mbind].
    destruct (Z.eqb_spec (seq (cell zero r (head r))) (u64 (head r + 1))); [done|].
    destruct (Z.eqb_spec (seq (cell zero r (head r))) (head r)); [done|]. exact IH1.
Qed.
End Promises.

(** ** Schedules *)

(** Two producers and a consumer that meet: the consumer comes while the first
    task is claimed but not written. *)
Definition meeting : list (@move Z) :=
  [MPush 1 7; MPush 2 8; MPop 3; MOn 1; MOn 1; MOn 1; MOn 1; MOn 3; MOn 3; MOver 3; MOn 2; MOn 2; MOn 2; MOn 2;
   MOn 2; MOn 2; MOver 2; MOn 1; MOn 1; MOver 1; MPop 4; MOn 4; MOn 4; MOn 4].
Definition met : sys := default (start 0 2) (execs 0 meeting (start 0 2)).

Lemma met_reached : rtc (sys_step 0) (start 0 2) met.
Proof.
  apply (execs_sound 0 meeting). unfold met. destruct (execs 0 meeting (start 0 2)) as [c|] eqn:E; [done|].
  vm_compute in E. discriminate E.
Qed.
Lemma met_in_range : in_range met.
Proof. vm_compute. reflexivity. Qed.

Lemma ring_is_a_queue_witness :
  2 <= 2 ^ 62 /\ items (view met) = [8] /\ pops (view met) !! 4%nat = Some (Took 7) /\
  rtc queue_step (empty_queue (Z.max 2 1)) (view met).
Proof.
  split_and!; [lia|vm_compute; reflexivity|vm_compute; reflexivity|].
  apply (ring_is_a_queue 0 2 met); [lia|exact met_reached|exact met_in_range].
Defined.

Lemma ring_cells_not_shared_witness :
  touches met false 4 = Some 0 /\ is_Some (pop_step 0 (CRead 0) (ring met)).
Proof.
  split; [vm_compute; reflexivity|].
  apply (proj1 (proj2 (ring_cells_not_shared 0 2 met ltac:(lia) met_reached met_in_range)) 4%nat (CRead 0)).
  - vm_compute. reflexivity.
  - intros o. discriminate.
Defined.

(** The cell of the next position is still being emptied: a push is refused. *)
Lemma ring_calls_return_witness : exists b r', push_alone 6 9 PTail (ring met) = Some (b, r') /\ b = false.
Proof.
  destruct (proj1 (ring_calls_return 0 2 met 9 ltac:(lia) met_reached met_in_range)) as (b & r' & E & Hb).
  exists b, r'. split; [exact E|]. destruct b; [|reflexivity].
  destruct (proj1 Hb eq_refl) as [_ Es]. vm_compute in Es. discriminate Es.
Defined.

(** The second task is taken and returned while the first is being emptied; a
    third consumer then never finds out that the queue is empty. *)
Definition stalled : list (@move Z) := meeting ++ [MPop 5; MOn 5; MOn 5; MOn 5; MOn 5; MOn 5; MOn 5; MOver 5].
Definition stalled_sys : sys := default (start 0 2) (execs 0 stalled (start 0 2)).

Theorem pop_spins : rtc (sys_step 0) (start 0 2) stalled_sys /\ items (view stalled_sys) = [] /\
  forall fuel, pop_alone 0 fuel CHead (ring stalled_sys) = None.
Proof.
  split_and!.
  - apply (execs_sound 0 stalled). unfold stalled_sys. destruct (execs 0 stalled (start 0 2)) as [c|] eqn:E; [done|].
    vm_compute in E. discriminate E.
  - vm_compute. reflexivity.
  - assert (ring stalled_sys = mkRing [mkCell 1 7; mkCell 3 0] 1 2 2 2) as -> by (vm_compute; reflexivity).
    intros fuel. apply pop_spins_on; [|discriminate|discriminate].
    split; [by exists 1|reflexivity|]. cbn. unfold size, zlen. cbn. lia.
Qed.
