(* ===== verification/TaskNode.v ===== *)
(** * TaskNode

    A shard of the parse pool ([task_parse.go]): senders that push and wake,
    and the one worker that [newTaskParseWorkers] starts, which pops, processes
    and sleeps.  The steps of the threads interleave; the ring is the one of
    [TaskRing], and [notify] has room for one signal. *)

From S2P Require Import Prelude TaskRing TaskRingSafe TaskQueue.

Section Node.
Context {T : Type} (zero : T).
Abbreviation sys := (@sys T).

(** [send]: the call of [push] runs as a thread of the ring. *)
Inductive send_pc : Type :=
  | SPush (again : bool)
  | SBlocked
  | SYield
  | SWaiting
  | SWake
  | SDone.

(** [run]: the call of [pop] runs as thread 0. *)
Inductive run_pc : Type :=
  | WPop
  | WLen (x : T) (pc : len_pc)
  | WIdle (x : T)
  | WWakeNext (x : T)
  | WProcess (x : T)
  | WAdd
  | WCheck (pc : len_pc)
  | WBack
  | WRecv
  | WDec.

(** [processed] records what was given to [processOne]. *)
Record taskParseNode : Type := mkNode {
  threads : sys;
  waiting : Z;
  notify : bool;
  blocked : Z;
  senders : gmap nat (T * send_pc);
  worker : run_pc;
  processed : list T;
}.

Definition set_threads (s : sys) (n : taskParseNode) : taskParseNode :=
  mkNode s (waiting n) (notify n) (blocked n) (senders n) (worker n) (processed n).
Definition set_waiting (v : Z) (n : taskParseNode) : taskParseNode :=
  mkNode (threads n) v (notify n) (blocked n) (senders n) (worker n) (processed n).
Definition set_notify (v : bool) (n : taskParseNode) : taskParseNode :=
  mkNode (threads n) (waiting n) v (blocked n) (senders n) (worker n) (processed n).
Definition set_blocked (v : Z) (n : taskParseNode) : taskParseNode :=
  mkNode (threads n) (waiting n) (notify n) v (senders n) (worker n) (processed n).
Definition set_sender (tid : nat) (s : T * send_pc) (n : taskParseNode) : taskParseNode :=
  mkNode (threads n) (waiting n) (notify n) (blocked n) (<[tid := s]> (senders n)) (worker n) (processed n).
Definition set_worker (pc : run_pc) (n : taskParseNode) : taskParseNode :=
  mkNode (threads n) (waiting n) (notify n) (blocked n) (senders n) pc (processed n).
Definition set_processed (l : list T) (n : taskParseNode) : taskParseNode :=
  mkNode (threads n) (waiting n) (notify n) (blocked n) (senders n) (worker n) l.

(** [wake]: a signal that finds the channel full is dropped. *)
Definition wake (n : taskParseNode) : taskParseNode := set_notify true n.

(** One step of the sender [tid]. *)
Definition send_step (tid : nat) (n : taskParseNode) : option taskParseNode :=
  '(x, pc) ← senders n !! tid;
  match pc with
  | SPush again =>
      match pushers (threads n) !! tid with
      | Some (_, PRet ok) => s ← exec zero (MOver tid) (threads n);
          Some (set_threads s (set_sender tid (x, if ok then SWaiting else if again then SYield else SBlocked) n))
      | Some _ => s ← exec zero (MOn tid) (threads n); Some (set_threads s n)
      | None => None
      end
  | SBlocked => s ← exec zero (MPush tid x) (threads n);
      Some (set_threads s (set_blocked (blocked n + 1) (set_sender tid (x, SPush true) n)))
  | SYield => s ← exec zero (MPush tid x) (threads n); Some (set_threads s (set_sender tid (x, SPush true) n))
  | SWaiting => Some (set_sender tid (x, if waiting n >? 0 then SWake else SDone) n)
  | SWake => Some (wake (set_sender tid (x, SDone) n))
  | SDone => None
  end.

(** Back to the top of the inner loop of [run]. *)
Definition pop_again (n : taskParseNode) : option taskParseNode :=
  s ← exec zero (MPop 0) (threads n); Some (set_threads s (set_worker WPop n)).

(** One step of the worker; [notifyIfIdle] is [WIdle] and [WWakeNext]. *)
Definition run_step (n : taskParseNode) : option taskParseNode :=
  let r := ring (threads n) in
  match worker n with
  | WPop =>
      match poppers (threads n) !! 0%nat with
      | Some (CRet o) => s ← exec zero (MOver 0) (threads n);
          Some (set_threads s (set_worker (match o with Some x => WLen x LTail | None => WAdd end) n))
      | Some _ => s ← exec zero (MOn 0) (threads n); Some (set_threads s n)
      | None => None
      end
  | WLen x (LRet k) => Some (set_worker (if k >? 0 then WIdle x else WProcess x) n)
  | WLen x pc => pc' ← len_step pc r; Some (set_worker (WLen x pc') n)
  | WIdle x => Some (set_worker (if waiting n >? 0 then WWakeNext x else WProcess x) n)
  | WWakeNext x => Some (wake (set_worker (WProcess x) n))
  | WProcess x => pop_again (set_processed (processed n ++ [x]) n)
  | WAdd => Some (set_waiting (waiting n + 1) (set_worker (WCheck LTail) n))
  | WCheck (LRet k) => Some (set_worker (if k >? 0 then WBack else WRecv) n)
  | WCheck pc => pc' ← len_step pc r; Some (set_worker (WCheck pc') n)
  | WBack => pop_again (set_waiting (waiting n - 1) n)
  | WRecv => if notify n then Some (set_notify false (set_worker WDec n)) else None
  | WDec => pop_again (set_waiting (waiting n - 1) n)
  end.

Inductive node_step : taskParseNode -> taskParseNode -> Prop :=
  | node_send tid x n s : tid <> 0%nat -> senders n !! tid = None -> exec zero (MPush tid x) (threads n) = Some s ->
      node_step n (set_threads s (set_sender tid (x, SPush false) n))
  | node_sender tid n n' : send_step tid n = Some n' -> node_step n n'
  | node_sent tid x n : senders n !! tid = Some (x, SDone) ->
      node_step n (mkNode (threads n) (waiting n) (notify n) (blocked n) (delete tid (senders n)) (worker n) (processed n))
  | node_worker n n' : run_step n = Some n' -> node_step n n'.

(** [start]: the worker begins to pop. *)
Definition new_node (lim : Z) : taskParseNode :=
  mkNode (mkSys (newTaskRing zero lim) ∅ {[0%nat := CHead]} []) 0 false 0 ∅ WPop [].

(** ** The invariant *)

(** A sender that has queued its task and not yet decided about waking. *)
Definition queued_pc (pc : push_pc) : bool := match pc with PWrite _ | PPub _ | PRet true => true | _ => false end.
Definition pending (n : taskParseNode) : Prop :=
  exists tid x pc, senders n !! tid = Some (x, pc) /\
    match pc with
    | SPush _ => exists y ppc, pushers (threads n) !! tid = Some (y, ppc) /\ queued_pc ppc = true
    | SWaiting | SWake => True
    | _ => False
    end.

Definition will_wake (n : taskParseNode) : Prop := notify n = true \/ pending n.

Definition asleep (pc : run_pc) : bool := match pc with WCheck _ | WBack | WRecv | WDec => true | _ => false end.

Definition idle_ok (n : taskParseNode) : Prop :=
  let r := ring (threads n) in
  match worker n with
  | WCheck (LHead t) => tail r = t \/ will_wake n
  | WCheck (LRet k) => k <= 0 -> head r = tail r \/ will_wake n
  | WRecv => head r = tail r \/ will_wake n
  | _ => True
  end.

(** What the worker has taken and not yet processed. *)
Definition hand (l : list T) (o : option pop_pc) : list T :=
  match pop_view l <$> o with Some (Took x) | Some (Given (Some x)) => [x] | _ => [] end.
Definition in_hand (n : taskParseNode) : list T :=
  match worker n with
  | WPop => hand (log (threads n)) (poppers (threads n) !! 0%nat)
  | WLen x _ | WIdle x | WWakeNext x | WProcess x => [x]
  | _ => []
  end.

Record node_ok (n : taskParseNode) : Prop := {
  no_sys : sys_ok zero (threads n);
  no_limit : limit (ring (threads n)) <= 2 ^ 62;
  no_zero : senders n !! 0%nat = None;
  no_waiting : waiting n = if asleep (worker n) then 1 else 0;
  no_poppers : forall tid, is_Some (poppers (threads n) !! tid) -> tid = 0%nat /\ worker n = WPop;
  no_pushers : pushers (threads n) !! 0%nat = None;
  no_idle : idle_ok n;
  no_order : processed n ++ in_hand n ++ items (view (threads n)) = log (threads n);
}.
End Node.
