(* ===== verification/TaskShard.v ===== *)
(** * TaskShard

    The worker of a shard and its senders under any interleaving: no wakeup is
    lost, and what is processed is what was queued, once and in order. *)

From S2P Require Import Prelude TaskRing TaskRingSafe TaskQueue TaskNode.

Section Awake.
Context {T : Type} (zero : T).
Abbreviation sys := (@sys T).
Abbreviation taskParseNode := (@taskParseNode T).
Abbreviation sys_ok := (sys_ok zero).
Abbreviation node_ok := (node_ok zero).

(** ** Steps of the ring *)

Lemma exec_ok m (c c' : sys) : sys_ok c -> in_range c -> exec zero m c = Some c' -> sys_ok c'.
Proof. intros Hc Hr E%exec_sound. by destruct (step_refines zero c c' Hc Hr E). Qed.

Lemma exec_push tid x (c c' : sys) : exec zero (MPush tid x) c = Some c' ->
  pushers c !! tid = None /\ c' = mkSys (ring c) (<[tid := (x, PTail)]> (pushers c)) (poppers c) (log c).
Proof. cbn. case_decide; [|done]. by intros [= <-]. Qed.
Lemma exec_pop tid (c c' : sys) : exec zero (MPop tid) c = Some c' ->
  poppers c !! tid = None /\ c' = mkSys (ring c) (pushers c) (<[tid := CHead]> (poppers c)) (log c).
Proof. cbn. case_decide; [|done]. by intros [= <-]. Qed.
Lemma exec_push_on tid x pc (c c' : sys) : pushers c !! tid = Some (x, pc) -> exec zero (MOn tid) c = Some c' ->
  exists pc' r', push_step x pc (ring c) = Some (pc', r') /\
    c' = mkSys r' (<[tid := (x, pc')]> (pushers c)) (poppers c) (push_log pc pc' x (log c)).
Proof.
  intros E. cbn. rewrite E. destruct (push_step x pc (ring c)) as [[pc' r']|] eqn:Es; [|done]. intros [= <-]. by exists pc', r'.
Qed.
Lemma exec_push_over tid x b (c c' : sys) : pushers c !! tid = Some (x, PRet b) -> exec zero (MOver tid) c = Some c' ->
  c' = mkSys (ring c) (delete tid (pushers c)) (poppers c) (log c).
Proof. intros E. cbn. rewrite E. by intros [= <-]. Qed.
Lemma exec_pop_on tid pc (c c' : sys) : pushers c !! tid = None -> poppers c !! tid = Some pc -> exec zero (MOn tid) c = Some c' ->
  exists pc' r', pop_step zero pc (ring c) = Some (pc', r') /\
    c' = mkSys r' (pushers c) (<[tid := pc']> (poppers c)) (log c).
Proof.
  intros En E. cbn. rewrite En, E. cbn. destruct (pop_step zero pc (ring c)) as [[pc' r']|] eqn:Es; [|done].
  intros [= <-]. by exists pc', r'.
Qed.
Lemma exec_pop_over tid o (c c' : sys) : pushers c !! tid = None -> poppers c !! tid = Some (CRet o) ->
  exec zero (MOver tid) c = Some c' -> c' = mkSys (ring c) (pushers c) (delete tid (poppers c)) (log c).
Proof. intros En E. cbn. rewrite En, E. by intros [= <-]. Qed.

(** What a step of [push] does to the counters. *)
Lemma push_step_counters x pc pc' (r r' : @taskRing T) : push_step x pc r = Some (pc', r') ->
  head r' = head r /\ limit r' = limit r /\ (tail r' = tail r \/ queued_pc pc' = true) /\
  (queued_pc pc = true -> queued_pc pc' = true).
Proof.
  intros Hs. destruct pc; cbn in Hs; try (destruct (cell_at _ _); [|done]; cbn in Hs); repeat case_match; try done;
    injection Hs as <- <-; cbn; auto.
Qed.
Lemma pop_step_limit pc pc' (r r' : @taskRing T) : pop_step zero pc r = Some (pc', r') -> limit r' = limit r.
Proof.
  intros Hs. destruct pc; cbn in Hs; try (destruct (cell_at _ _); [|done]; cbn in Hs); repeat case_match; try done;
    injection Hs as <- <-; done.
Qed.

(** ** The order of the tasks *)

Lemma hand_snoc (c : sys) x tid : sys_ok c -> hand (log c ++ [x]) (poppers c !! tid) = hand (log c) (poppers c !! tid).
Proof.
  intros Hc. pose proof (pops_snoc zero c x Hc) as E. apply (f_equal (lookup tid)) in E. rewrite !lookup_fmap in E.
  unfold hand. by rewrite E.
Qed.

Lemma push_order (c : sys) x pc pc' r' tid : sys_ok c -> push_step x pc (ring c) = Some (pc', r') ->
  exists l, drop (Z.to_nat (head r')) (push_log pc pc' x (log c)) = items (view c) ++ l /\
    push_log pc pc' x (log c) = log c ++ l /\
    hand (push_log pc pc' x (log c)) (poppers c !! tid) = hand (log c) (poppers c !! tid).
Proof.
  intros Hc Hs. destruct (push_step_counters _ _ _ _ _ Hs) as (-> & _).
  assert (push_log pc pc' x (log c) = log c \/ push_log pc pc' x (log c) = log c ++ [x]) as [->| ->] by (destruct pc, pc'; auto).
  - exists []. by rewrite !app_nil_r.
  - exists [x]. split; [|by rewrite hand_snoc]. cbn. apply drop_app_le.
    pose proof (so_ring _ _ Hc) as Hr. pose proof (ro_head _ _ _ Hr). pose proof (ro_tail _ _ _ Hr). unfold zlen in *. lia.
Qed.

Lemma pop_order (c : sys) pc pc' r' : sys_ok c -> in_range c -> poppers c !! 0%nat = Some pc ->
  pop_step zero pc (ring c) = Some (pc', r') ->
  hand (log c) (Some pc') ++ drop (Z.to_nat (head r')) (log c) = hand (log c) (Some pc) ++ items (view c).
Proof.
  intros Hc Hrange E Hs. pose proof (so_ring _ _ Hc) as Hr. pose proof (so_pop _ _ Hc _ _ E) as Hp.
  pose proof (ro_head _ _ _ Hr) as Hhd. pose proof (ro_tail _ _ _ Hr) as Htl. unfold in_range in Hrange.
  pose proof (sized_two _ (ro_sized _ _ _ Hr)) as Hsz. pose proof (sz_limit _ (ro_sized _ _ _ Hr)) as Hlm.
  pose proof (ro_limit _ _ _ Hr) as Hlim. unfold hand. cbn. destruct pc; cbn [pop_step] in Hs.
  - by injection Hs as <- <-.
  - rewrite (cell_at_cell zero) in Hs by apply Hr. cbn in Hs.
    destruct (negb _); [destruct (_ =? h)|]; injection Hs as <- <-; done.
  - destruct Hp as [Hp1 Hp2]. destruct (Z.eqb_spec (head (ring c)) h) as [E1|E1]; injection Hs as <- <-; [|done].
    destruct (Hp2 E1) as [Hp3 Hp4]. subst h. pose proof (ro_pos _ _ _ Hr (head (ring c)) ltac:(lia)) as Ho.
    unfold pos_ok in Ho. destruct (Z.ltb_spec (head (ring c)) (head (ring c))); [lia|].
    destruct Ho as [Ho|[_ Ho]]; [lia|]. cbn. rewrite Ho. cbn. rewrite u64_pos by lia.
    replace (Z.to_nat (head (ring c) + 1)) with (S (Z.to_nat (head (ring c)))) by lia. symmetry. by apply drop_S.
  - rewrite (cell_at_cell zero) in Hs by apply Hr. cbn in Hs. injection Hs as <- <-. destruct Hp as (_ & _ & Hp). cbn. by rewrite Hp.
  - rewrite (cell_at_cell zero) in Hs by apply Hr. cbn in Hs. by injection Hs as <- <-.
  - rewrite (cell_at_cell zero) in Hs by apply Hr. cbn in Hs. by injection Hs as <- <-.
  - done.
Qed.

Lemma i64_pos z : 0 <= z < 2 ^ 63 -> i64 z = z.
Proof. intros Hz. unfold i64, swrap. rewrite Z.mod_small; lia. Qed.

(** ** The senders *)

Lemma idle_keep (n n' : taskParseNode) : worker n' = worker n ->
  head (ring (threads n')) = head (ring (threads n)) ->
  (tail (ring (threads n')) = tail (ring (threads n)) \/ will_wake n') -> (will_wake n -> will_wake n') ->
  idle_ok n -> idle_ok n'.
Proof.
  unfold idle_ok. intros -> -> Ht Hw. destruct (worker n) as [| | | | | |[| |]| | |]; try done.
  - intros [H|H]; [|by right; apply Hw]. destruct Ht as [->|Ht]; [by left|by right].
  - intros H Hn. destruct (H Hn) as [H'|H']; [|by right; apply Hw]. destruct Ht as [->|Ht]; [by left|by right].
  - intros [H|H]; [|by right; apply Hw]. destruct Ht as [->|Ht]; [by left|by right].
Qed.

(** A pending sender stays pending while another one moves. *)
Lemma pending_other (n n' : taskParseNode) tid : (forall t, t <> tid -> senders n' !! t = senders n !! t) ->
  (forall t, t <> tid -> pushers (threads n') !! t = pushers (threads n) !! t) -> notify n' = notify n ->
  (forall x pc, senders n !! tid = Some (x, pc) -> pending (mkNode (threads n) 0 false 0 {[tid := (x, pc)]} WPop []) -> will_wake n') ->
  will_wake n -> will_wake n'.
Proof.
  intros Hs Hp Hn Hme [Hw|(t & x & pc & E & Hpc)]; [left; congruence|].
  destruct (decide (t = tid)) as [->|Hne].
  - apply (Hme x pc E). exists tid, x, pc. split; [apply lookup_singleton_eq|done].
  - right. exists t, x, pc. rewrite Hs by done. split; [done|]. destruct pc; try done.
    destruct Hpc as (y & ppc & Ey & Hq). exists y, ppc. by rewrite Hp.
Qed.
Lemma pending_me (s : sys) w b k tid x pc wk l : pending (mkNode s w b k {[tid := (x, pc)]} wk l) ->
  match pc with
  | SPush _ => exists y ppc, pushers s !! tid = Some (y, ppc) /\ queued_pc ppc = true
  | SWaiting | SWake => True
  | _ => False
  end.
Proof.
  intros (t & y & pc' & E & Hpc). cbn in E. apply lookup_singleton_Some in E as [<- [= <- <-]]. exact Hpc.
Qed.

(** What every step of a sender leaves alone. *)
Record beside (n n' : taskParseNode) : Prop := {
  be_worker : worker n' = worker n;
  be_waiting : waiting n' = waiting n;
  be_processed : processed n' = processed n;
  be_poppers : poppers (threads n') = poppers (threads n);
  be_head : head (ring (threads n')) = head (ring (threads n));
  be_limit : limit (ring (threads n')) = limit (ring (threads n));
  be_log : exists l, items (view (threads n')) = items (view (threads n)) ++ l /\
    log (threads n') = log (threads n) ++ l /\
    hand (log (threads n')) (poppers (threads n) !! 0%nat) = hand (log (threads n)) (poppers (threads n) !! 0%nat);
}.

Lemma beside_ok (n n' : taskParseNode) : node_ok n -> beside n n' -> sys_ok (threads n') -> senders n' !! 0%nat = None ->
  pushers (threads n') !! 0%nat = None ->
  (tail (ring (threads n')) = tail (ring (threads n)) \/ will_wake n') -> (will_wake n -> will_wake n') -> node_ok n'.
Proof.
  intros [A1 A2 A3 A4 A5 A6 A7 A8] [B1 B2 B3 B4 B5 B6 (l & B7 & B8 & B9)] Hs H0 H1 Ht Hw. split; try done.
  - by rewrite B6.
  - by rewrite B1, B2.
  - intros tid. rewrite B4, B1. apply A5.
  - by apply (idle_keep n).
  - rewrite B3, B7, B8, <- A8, <- !app_assoc. f_equal. f_equal. unfold in_hand. rewrite B1, B4.
    by destruct (worker n).
Qed.

(** A step that does not touch the ring. *)
Lemma beside_same (n n' : taskParseNode) : worker n' = worker n -> waiting n' = waiting n -> processed n' = processed n ->
  poppers (threads n') = poppers (threads n) -> ring (threads n') = ring (threads n) -> log (threads n') = log (threads n) ->
  beside n n'.
Proof.
  intros Hw Hn Hd Hp Hr Hl. split; try done; [by rewrite Hr..|]. exists []. cbn. by rewrite Hr, Hl, !app_nil_r.
Qed.

Lemma sender_pushing tid x again y pc (n : taskParseNode) s : node_ok n -> in_range (threads n) ->
  senders n !! tid = Some (x, SPush again) -> pushers (threads n) !! tid = Some (y, pc) ->
  exec zero (MOn tid) (threads n) = Some s -> node_ok (set_threads s n).
Proof.
  intros Hn Hr E Ep Hs. assert (tid <> 0%nat) as H0 by (intros ->; by rewrite (no_zero _ _ Hn) in E).
  pose proof (no_sys _ _ Hn) as Hc. pose proof (exec_ok _ _ _ Hc Hr Hs) as Hc'.
  destruct (exec_push_on _ _ _ _ _ Ep Hs) as (pc' & r' & Hst & ->).
  destruct (push_step_counters _ _ _ _ _ Hst) as (Hh & Hl & Ht & Hq).
  destruct (push_order (threads n) y pc pc' r' 0%nat Hc Hst) as (l & L1 & L2 & L3).
  assert (queued_pc pc' = true -> will_wake (set_threads (mkSys r' (<[tid := (y, pc')]> (pushers (threads n)))
    (poppers (threads n)) (push_log pc pc' y (log (threads n)))) n)) as Hww.
  { intros Hq'. right. exists tid, x, (SPush again). split; [done|]. exists y, pc'. cbn. by rewrite lookup_insert_eq. }
  eapply beside_ok; [done| |done|apply Hn| | |].
  - split; cbn; try done. by exists l.
  - cbn. rewrite lookup_insert_ne by done. apply Hn.
  - destruct Ht as [Ht|Ht]; [by left|right; by apply Hww].
  - apply (pending_other _ _ tid); try done.
    + intros t Hne. cbn. by rewrite lookup_insert_ne.
    + intros x2 pc2 E2 Hm%pending_me. rewrite E in E2. injection E2 as <- <-. destruct Hm as (y2 & ppc & Ey & Hq').
      apply Hww, Hq. rewrite Ep in Ey. by injection Ey as _ ->.
Qed.

Lemma sender_pushed tid x again y b (n : taskParseNode) s : node_ok n -> in_range (threads n) ->
  senders n !! tid = Some (x, SPush again) -> pushers (threads n) !! tid = Some (y, PRet b) ->
  exec zero (MOver tid) (threads n) = Some s ->
  node_ok (set_threads s (set_sender tid (x, if b then SWaiting else if again then SYield else SBlocked) n)).
Proof.
  intros Hn Hr E Ep Hs. assert (tid <> 0%nat) as H0 by (intros ->; by rewrite (no_zero _ _ Hn) in E).
  pose proof (exec_ok _ _ _ (no_sys _ _ Hn) Hr Hs) as Hc'. apply (exec_push_over _ _ _ _ _ Ep) in Hs as ->.
  eapply beside_ok; [done|by apply beside_same|done| | |by left|].
  - cbn. rewrite lookup_insert_ne by done. apply Hn.
  - cbn. rewrite lookup_delete_ne by done. apply Hn.
  - apply (pending_other _ _ tid); try done.
    + intros t Hne. cbn. by rewrite lookup_insert_ne.
    + intros t Hne. cbn. by rewrite lookup_delete_ne.
    + intros x2 pc2 E2 Hm%pending_me. rewrite E in E2. injection E2 as <- <-. destruct Hm as (y2 & ppc & Ey & Hq').
      rewrite Ep in Ey. injection Ey as _ <-. destruct b; [|done]. right.
      exists tid, x, SWaiting. cbn. by rewrite lookup_insert_eq.
Qed.

Lemma sender_retries tid x pc k (n : taskParseNode) s : node_ok n -> in_range (threads n) ->
  senders n !! tid = Some (x, pc) -> pc = SBlocked \/ pc = SYield ->
  exec zero (MPush tid x) (threads n) = Some s ->
  node_ok (set_threads s (set_blocked k (set_sender tid (x, SPush true) n))).
Proof.
  intros Hn Hr E Epc Hs. assert (tid <> 0%nat) as H0 by (intros ->; by rewrite (no_zero _ _ Hn) in E).
  pose proof (exec_ok _ _ _ (no_sys _ _ Hn) Hr Hs) as Hc'. apply exec_push in Hs as [Ep ->].
  eapply beside_ok; [done|by apply beside_same|done| | |by left|].
  - cbn. rewrite lookup_insert_ne by done. apply Hn.
  - cbn. rewrite lookup_insert_ne by done. apply Hn.
  - apply (pending_other _ _ tid); try done.
    + intros t Hne. cbn. by rewrite lookup_insert_ne.
    + intros t Hne. cbn. by rewrite lookup_insert_ne.
    + intros x2 pc2 E2 Hm%pending_me. rewrite E in E2. injection E2 as <- <-. by destruct Epc as [-> | ->].
Qed.

Lemma sender_ok tid (n n' : taskParseNode) : node_ok n -> in_range (threads n) ->
  send_step zero tid n = Some n' -> node_ok n'.
Proof.
  intros Hn Hr Hs. unfold send_step in Hs. destruct (senders n !! tid) as [[x pc]|] eqn:E; [|done]. cbn [mbind option_bind] in Hs.
  assert (tid <> 0%nat) as H0 by (intros ->; by rewrite (no_zero _ _ Hn) in E).
  assert (forall pc', senders (set_sender tid (x, pc') n) !! 0%nat = None) as Hz.
  { intros pc'. cbn. rewrite lookup_insert_ne by done. apply Hn. }
  assert (forall t pc', t <> tid -> senders (set_sender tid (x, pc') n) !! t = senders n !! t) as Ho.
  { intros t pc' Hne. cbn. by rewrite lookup_insert_ne. }
  destruct pc as [again| | | | |]; [| | | | |done].
  - destruct (pushers (threads n) !! tid) as [[y ppc]|] eqn:Ep; [|done].
    destruct ppc as [|t|t|t|t|t|b]; try (destruct (exec zero _ _) as [s|] eqn:Es; [|done]; injection Hs as <-);
      [by eapply sender_pushing..|by eapply sender_pushed].
  - destruct (exec zero _ _) as [s|] eqn:Es; [|done]. injection Hs as <-. eapply sender_retries; eauto.
  - destruct (exec zero _ _) as [s|] eqn:Es; [|done]. injection Hs as <-.
    pose proof (sender_retries tid x SYield (blocked n) n s Hn Hr E (or_intror eq_refl) Es) as Hk. by destruct n.
  - injection Hs as <-. destruct (waiting n >? 0) eqn:Hw.
    + eapply beside_ok; [done|by apply beside_same|apply Hn|apply Hz|apply Hn|by left|].
      apply (pending_other _ _ tid); try done; [by intros t; apply Ho|]. intros _ _ _ _. right.
      exists tid, x, SWake. cbn. by rewrite lookup_insert_eq.
    + destruct Hn as [A1 A2 A3 A4 A5 A6 A7 A8]. split; try done.
      unfold idle_ok in *. cbn. rewrite A4 in Hw. by destruct (worker n) as [| | | | | |[]| | |].
  - injection Hs as <-. eapply beside_ok; [done|by apply beside_same|apply Hn|apply Hz|apply Hn|by left|].
    intros _. by left.
Qed.

(** ** The worker *)

Lemma idle_poppers (n : taskParseNode) : node_ok n -> worker n <> WPop -> forall tid, poppers (threads n) !! tid = None.
Proof.
  intros Hn Hw tid. destruct (poppers (threads n) !! tid) eqn:E; [|done].
  by destruct (no_poppers _ _ Hn tid) as [_ ?]; [rewrite E|].
Qed.

(** The worker changes only its own counter. *)
Lemma worker_moves (n : taskParseNode) w b pc l : node_ok n -> worker n <> WPop -> pc <> WPop ->
  let n' := mkNode (threads n) w b (blocked n) (senders n) pc l in
  w = (if asleep pc then 1 else 0) -> idle_ok n' -> l ++ in_hand n' = processed n ++ in_hand n -> node_ok n'.
Proof.
  intros Hn Hw Hpc n' Hwait Hidle Hl. split; try done; try apply Hn.
  - intros tid Hs. cbn in Hs. by rewrite (idle_poppers n Hn Hw) in Hs; destruct Hs.
  - cbn. rewrite app_assoc, Hl, <- app_assoc. apply Hn.
Qed.

(** Popping begins again. *)
Lemma worker_pops (n n' : taskParseNode) w l : node_ok n -> in_range (threads n) -> worker n <> WPop -> w = 0 ->
  l = processed n ++ in_hand n -> pop_again zero (set_waiting w (set_processed l n)) = Some n' -> node_ok n'.
Proof.
  intros Hn Hr Hw -> -> Hs. unfold pop_again in Hs. destruct (exec zero (MPop 0) _) as [s|] eqn:Es; [|done].
  injection Hs as <-. pose proof (exec_ok _ _ _ (no_sys _ _ Hn) Hr Es) as Hc'. apply exec_pop in Es as [E ->]. cbn in Hc', E |- *.
  split; cbn; try done; try apply Hn.
  - intros tid Hs. destruct (decide (tid = 0%nat)) as [->|Hne]; [done|]. cbn in Hs.
    rewrite lookup_insert_ne in Hs by done. by rewrite (idle_poppers n Hn Hw) in Hs; destruct Hs.
  - rewrite lookup_insert_eq. cbn. rewrite <- app_assoc. apply (no_order _ _ Hn).
Qed.

Lemma len_done (n : taskParseNode) pc pc' : len_step pc (ring (threads n)) = Some pc' ->
  (pc = LTail /\ pc' = LHead (tail (ring (threads n)))) \/
  exists t, pc = LHead t /\ pc' = LRet (if head (ring (threads n)) >? t then 0 else i64 (u64 (t - head (ring (threads n))))).
Proof. destruct pc as [|t|k]; cbn; [intros [= <-]; by left|intros [= <-]; right; by exists t|done]. Qed.

Lemma len_empty (n : taskParseNode) t : node_ok n -> in_range (threads n) -> tail (ring (threads n)) = t ->
  (if head (ring (threads n)) >? t then 0 else i64 (u64 (t - head (ring (threads n))))) <= 0 ->
  head (ring (threads n)) = tail (ring (threads n)).
Proof.
  intros Hn Hr <- Hk. pose proof (so_ring _ _ (no_sys _ _ Hn)) as Hri. pose proof (ro_head _ _ _ Hri).
  pose proof (ro_limit _ _ _ Hri). pose proof (no_limit _ _ Hn). pose proof (ro_tail _ _ _ Hri).
  destruct (head (ring (threads n)) >? tail (ring (threads n))) eqn:E; [lia|].
  rewrite u64_pos, i64_pos in Hk by lia. lia.
Qed.

Lemma worker_popping (n n' : taskParseNode) : node_ok n -> in_range (threads n) -> worker n = WPop ->
  run_step zero n = Some n' -> node_ok n'.
Proof.
  intros Hn Hr Hw Hs. unfold run_step in Hs. rewrite Hw in Hs. pose proof (no_order _ _ Hn) as Ho.
  destruct (poppers (threads n) !! 0%nat) as [pc|] eqn:E; [|done].
  unfold in_hand in Ho. rewrite Hw, E in Ho.
  assert ((exists o, pc = CRet o) \/ ~ exists o, pc = CRet o) as [[o ->]|Hnr]
    by (destruct pc; try (right; by intros [? ?]); left; by eexists).
  - destruct (exec zero (MOver 0) _) as [s|] eqn:Es; [|done]. injection Hs as <-.
    pose proof (exec_ok _ _ _ (no_sys _ _ Hn) Hr Es) as Hc'.
    apply (exec_pop_over _ o) in Es as ->; [|apply Hn|done].
    split; cbn; try done; try apply Hn.
    + rewrite (no_waiting _ _ Hn), Hw. by destruct o.
    + intros tid Hs. cbn in Hs. destruct (decide (tid = 0%nat)) as [->|Hne].
      * rewrite lookup_delete_eq in Hs. by destruct Hs.
      * rewrite lookup_delete_ne in Hs by done. by destruct (no_poppers _ _ Hn tid Hs).
    + by destruct o.
    + by destruct o.
  - destruct (exec zero (MOn 0) (threads n)) as [s|] eqn:Es; [|destruct pc; try done; by destruct Hnr; eexists].
    assert (n' = set_threads s n) as ->. { destruct pc; try (by injection Hs as <-). by destruct Hnr; eexists. }
    pose proof (exec_ok _ _ _ (no_sys _ _ Hn) Hr Es) as Hc'.
    apply (exec_pop_on _ pc) in Es as (pc' & r' & Hst & ->); [|apply Hn|done].
    split; cbn; try done; try apply Hn.
    + rewrite (pop_step_limit _ _ _ _ Hst). apply Hn.
    + intros tid Hs'. cbn in Hs'. destruct (decide (tid = 0%nat)) as [->|Hne]; [by rewrite Hw|].
      rewrite lookup_insert_ne in Hs' by done. by apply (no_poppers _ _ Hn).
    + unfold idle_ok. cbn. by rewrite Hw.
    + unfold in_hand. cbn. rewrite Hw, lookup_insert_eq.
      rewrite (pop_order _ _ _ _ (no_sys _ _ Hn) Hr E Hst). exact Ho.
Qed.

Lemma pop_again_eta (n : taskParseNode) : pop_again zero n = pop_again zero (set_waiting (waiting n) (set_processed (processed n) n)).
Proof. by destruct n. Qed.

Lemma worker_ok (n n' : taskParseNode) : node_ok n -> in_range (threads n) -> run_step zero n = Some n' -> node_ok n'.
Proof.
  intros Hn Hr Hs. pose proof (no_waiting _ _ Hn) as Hwait. pose proof (no_idle _ _ Hn) as Hidle.
  destruct (worker n) as [|x pc|x|x|x| |pc| | |] eqn:Hw; [by eapply worker_popping|..]; unfold run_step in Hs; rewrite Hw in Hs;
    assert (worker n <> WPop) as Hnp by (by rewrite Hw); unfold idle_ok in Hidle; rewrite Hw in Hidle; cbn in Hwait.
  - assert (exists pc2, n' = set_worker pc2 n /\ (pc2 = WIdle x \/ pc2 = WProcess x \/ exists k, pc2 = WLen x k)) as (pc2 & -> & Hpc).
    { destruct pc as [|t|k]; cbn in Hs; injection Hs as <-; eexists; (split; [done|]); [right; right..|]; try by eexists.
      destruct (k >? 0); auto. }
    apply (worker_moves n); try done; destruct Hpc as [->|[->|[k ->]]]; try done; unfold in_hand; cbn; by rewrite ?Hw.
  - injection Hs as <-. rewrite Hwait. cbn. apply (worker_moves n); try done. unfold in_hand. cbn. by rewrite ?Hw.
  - injection Hs as <-. apply (worker_moves n); try done. unfold in_hand. cbn. by rewrite ?Hw.
  - rewrite pop_again_eta in Hs. eapply worker_pops; [done|done|done|exact Hwait| |exact Hs]. unfold in_hand. by rewrite Hw.
  - injection Hs as <-. apply (worker_moves n); try done; [by rewrite Hwait|]. unfold in_hand. cbn. by rewrite ?Hw.
  - destruct pc as [|t|k]; cbn in Hs; injection Hs as <-.
    + apply (worker_moves n); try done; [by left|]. unfold in_hand. cbn. by rewrite ?Hw.
    + apply (worker_moves n); try done; [|unfold in_hand; cbn; by rewrite ?Hw]. unfold idle_ok. cbn.
      intros Hk. destruct Hidle as [Hidle|Hidle]; [left|by right]. by eapply len_empty.
    + assert (in_hand n = []) as Eh by (unfold in_hand; by rewrite Hw).
      destruct (k >? 0) eqn:Hk; (apply (worker_moves n); try done; rewrite ?Eh; try done). unfold idle_ok. cbn. apply Hidle. lia.
  - eapply worker_pops; [done|done|done| | |exact Hs]; [lia|]. unfold in_hand. by rewrite Hw, app_nil_r.
  - destruct (notify n); [|done]. injection Hs as <-. apply (worker_moves n); try done. unfold in_hand. cbn. by rewrite ?Hw.
  - eapply worker_pops; [done|done|done| | |exact Hs]; [lia|]. unfold in_hand. by rewrite Hw, app_nil_r.
Qed.

(** ** Every step *)

Lemma node_step_ok (n n' : taskParseNode) : node_ok n -> in_range (threads n) -> node_step zero n n' -> node_ok n'.
Proof.
  intros Hn Hr Hs. destruct Hs as [tid x n s H0 E Es|tid n n' Hs|tid x n E|n n' Hs].
  - pose proof (exec_ok _ _ _ (no_sys _ _ Hn) Hr Es) as Hc'. apply exec_push in Es as [Ep ->].
    eapply beside_ok; [done|by apply beside_same|done| | |by left|].
    + cbn. rewrite lookup_insert_ne by done. apply Hn.
    + cbn. rewrite lookup_insert_ne by done. apply Hn.
    + apply (pending_other _ _ tid); try done.
      * intros t Hne. cbn. by rewrite lookup_insert_ne.
      * intros t Hne. cbn. by rewrite lookup_insert_ne.
      * intros x2 pc2 E2. by rewrite E in E2.
  - by eapply sender_ok.
  - assert (tid <> 0%nat) as H0 by (intros ->; by rewrite (no_zero _ _ Hn) in E).
    eapply beside_ok; [done|by apply beside_same|apply Hn| |apply Hn|by left|].
    + cbn. rewrite lookup_delete_ne by done. apply Hn.
    + apply (pending_other _ _ tid); try done.
      * intros t Hne. cbn. by rewrite lookup_delete_ne.
      * intros x2 pc2 E2 Hm%pending_me. rewrite E in E2. by injection E2 as <- <-.
  - by eapply worker_ok.
Qed.

Lemma new_node_ok lim : lim <= 2 ^ 62 -> node_ok (new_node zero lim).
Proof.
  intros Hl. split; try done.
  - pose proof (quiet_pop zero _ (start_ok zero lim Hl) 0%nat CHead) as Hq. cbn in Hq. by apply Hq.
  - cbn. lia.
  - intros tid Hs. cbn in Hs. destruct (decide (tid = 0%nat)) as [->|Hne]; [done|].
    rewrite lookup_singleton_ne in Hs by done. by destruct Hs.
Qed.

Lemma node_step_log (n n' : taskParseNode) : node_step zero n n' -> in_range (threads n') -> in_range (threads n).
Proof.
  intros Hs. assert (threads n' = threads n \/ sys_step zero (threads n) (threads n')) as [->|Ht]; [|done|].
  2:{ unfold in_range. pose proof (step_log zero _ _ Ht). lia. }
  assert (forall m s, exec zero m (threads n) = Some s -> threads n' = s -> sys_step zero (threads n) (threads n')) as He.
  { intros m s E%exec_sound <-. exact E. }
  destruct Hs as [tid x n s H0 E Es|tid n n' Hs|tid x n E|n n' Hs]; [right; by eapply He| |by left|].
  - unfold send_step in Hs. destruct (senders n !! tid) as [[x pc]|]; [|done]. cbn [mbind option_bind] in Hs.
    destruct pc; try done; repeat case_match; try done;
      try (destruct (exec zero _ _) eqn:Es; [|done]; injection Hs as <-; right; by eapply He); injection Hs as <-; by left.
  - unfold run_step, pop_again in Hs. repeat case_match; try done;
      try (destruct (exec zero _ _) eqn:Es; [|done]; injection Hs as <-; right; by eapply He);
      cbn in Hs; injection Hs as <-; by left.
Qed.

Lemma node_reach_ok lim (n : taskParseNode) : lim <= 2 ^ 62 -> rtc (node_step zero) (new_node zero lim) n ->
  in_range (threads n) -> node_ok n.
Proof.
  intros Hl Hrun. revert n Hrun.
  refine (rtc_ind_r (fun n => in_range (threads n) -> node_ok n) _ _ _); [intros _; by apply new_node_ok|].
  intros n n' Hrun Hs IH Hr. pose proof (node_step_log n n' Hs Hr). eapply node_step_ok; eauto.
Qed.
End Awake.

Section Shard.
Context {T : Type} (zero : T).
Abbreviation taskParseNode := (@taskParseNode T).

(** The sender [tid] takes [k] steps on its own. *)
Fixpoint sends (k : nat) (tid : nat) (n : taskParseNode) : option taskParseNode :=
  match k with O => Some n | S k => n' ← send_step zero tid n; sends k tid n' end.

Lemma sends_wake tid x (n : taskParseNode) : senders n !! tid = Some (x, SWake) ->
  exists n', sends 1 tid n = Some n' /\ notify n' = true.
Proof. intros E. eexists. cbn [sends]. unfold send_step. rewrite E. by cbn. Qed.
Lemma sends_on k tid (n n1 : taskParseNode) (P : taskParseNode -> Prop) : send_step zero tid n = Some n1 ->
  (exists n', sends k tid n1 = Some n' /\ P n') -> exists n', sends (S k) tid n = Some n' /\ P n'.
Proof. intros E. cbn [sends]. by rewrite E. Qed.

Lemma sends_waiting tid x (n : taskParseNode) : senders n !! tid = Some (x, SWaiting) -> waiting n = 1 ->
  exists n', sends 2 tid n = Some n' /\ notify n' = true.
Proof.
  intros E Hw. eapply (sends_on 1). { unfold send_step. rewrite E. cbn [mbind option_bind]. by rewrite Hw. }
  apply (sends_wake tid x). cbn. by rewrite lookup_insert_eq.
Qed.

Lemma sends_pushed tid x y again (n : taskParseNode) : senders n !! tid = Some (x, SPush again) ->
  pushers (threads n) !! tid = Some (y, PRet true) -> waiting n = 1 ->
  exists n', sends 3 tid n = Some n' /\ notify n' = true.
Proof.
  intros E Ep Hw. eapply (sends_on 2).
  { unfold send_step. rewrite E. cbn [mbind option_bind]. rewrite Ep. cbn [exec]. by rewrite Ep. }
  apply (sends_waiting tid x); [|done]. cbn. by rewrite lookup_insert_eq.
Qed.

Lemma sends_pub tid x y again t (n : taskParseNode) : sized (ring (threads n)) -> senders n !! tid = Some (x, SPush again) ->
  pushers (threads n) !! tid = Some (y, PPub t) -> waiting n = 1 ->
  exists n', sends 4 tid n = Some n' /\ notify n' = true.
Proof.
  intros Hz E Ep Hw. eapply (sends_on 3).
  { unfold send_step. rewrite E. cbn [mbind option_bind]. rewrite Ep. cbn [exec]. rewrite Ep. cbn [push_step].
    rewrite (cell_at_cell zero) by done. done. }
  apply (sends_pushed tid x y again); [done| |done]. cbn. by rewrite lookup_insert_eq.
Qed.

Lemma sends_write tid x y again t (n : taskParseNode) : sized (ring (threads n)) -> senders n !! tid = Some (x, SPush again) ->
  pushers (threads n) !! tid = Some (y, PWrite t) -> waiting n = 1 ->
  exists n', sends 5 tid n = Some n' /\ notify n' = true.
Proof.
  intros Hz E Ep Hw. eapply (sends_on 4).
  { unfold send_step. rewrite E. cbn [mbind option_bind]. rewrite Ep. cbn [exec]. rewrite Ep. cbn [push_step].
    rewrite (cell_at_cell zero) by done. done. }
  apply (sends_pub tid x y again t); [by apply sized_set_cell|done| |done]. cbn. by rewrite lookup_insert_eq.
Qed.

Lemma pending_wakes (n : taskParseNode) : sized (ring (threads n)) -> waiting n = 1 -> pending n ->
  exists tid k n', (k <= 5)%nat /\ sends k tid n = Some n' /\ notify n' = true.
Proof.
  intros Hz Hw (tid & x & pc & E & Hpc). exists tid. destruct pc as [again| | | | |]; try done.
  - destruct Hpc as (y & [| | | |t|t|[]] & Ep & Hq); try done.
    + exists 5%nat. destruct (sends_write tid x y again t n Hz E Ep Hw) as (n' & ? & ?). exists n'. split; [lia|done].
    + exists 4%nat. destruct (sends_pub tid x y again t n Hz E Ep Hw) as (n' & ? & ?). exists n'. split; [lia|done].
    + exists 3%nat. destruct (sends_pushed tid x y again n E Ep Hw) as (n' & ? & ?). exists n'. split; [lia|done].
  - exists 2%nat. destruct (sends_waiting tid x n E Hw) as (n' & ? & ?). exists n'. split; [lia|done].
  - exists 1%nat. destruct (sends_wake tid x n E) as (n' & ? & ?). exists n'. split; [lia|done].
Qed.

(** C7: No wakeup is lost: whatever the interleaving of any number of senders
    with the worker, when the worker blocks on [notify] without a signal in it
    and a task is queued, some sender is still in [send] and at most five steps
    of it, taken by it alone, post the signal; a worker that blocks
    while nobody is sending has an empty queue. *)
Theorem no_lost_wakeup (lim : Z) (n : taskParseNode) : lim <= 2 ^ 62 -> rtc (node_step zero) (new_node zero lim) n ->
  in_range (threads n) -> worker n = WRecv -> notify n = false ->
  (items (view (threads n)) <> [] ->
    exists tid k n', (k <= 5)%nat /\ sends k tid n = Some n' /\ notify n' = true) /\
  (senders n = ∅ -> items (view (threads n)) = []).
Proof.
  intros Hl Hrun Hr Hw Hno. pose proof (node_reach_ok zero lim n Hl Hrun Hr) as Hn.
  pose proof (so_ring _ _ (no_sys _ _ Hn)) as Hri. pose proof (no_waiting _ _ Hn) as Hwait. rewrite Hw in Hwait.
  pose proof (no_idle _ _ Hn) as Hidle. unfold idle_ok in Hidle. rewrite Hw in Hidle.
  assert (head (ring (threads n)) = tail (ring (threads n)) -> items (view (threads n)) = []) as He.
  { intros E. apply zlen_zero. rewrite (zlen_items zero) by apply Hn. lia. }
  split.
  - intros Hne. destruct Hidle as [E|[Hn'|Hp]]; [by destruct Hne; apply He|congruence|].
    apply pending_wakes; [apply Hri|exact Hwait|exact Hp].
  - intros E. destruct Hidle as [Eh|[Hn'|(tid & x & pc & Es & _)]]; [by apply He|congruence|]. by rewrite E in Es.
Qed.

(** C19: A shard processes what it is sent: at every moment of every
    interleaving, the tasks given to [processOne], the one the worker holds and
    those still queued are together exactly the tasks that were queued, each
    once and in the order in which they were queued. *)
Theorem shard_processes_in_order (lim : Z) (n : taskParseNode) : lim <= 2 ^ 62 ->
  rtc (node_step zero) (new_node zero lim) n -> in_range (threads n) ->
  processed n ++ in_hand n ++ items (view (threads n)) = log (threads n) /\
  (length (in_hand n) <= 1)%nat /\ zlen (items (view (threads n))) <= limit (ring (threads n)).
Proof.
  intros Hl Hrun Hr. pose proof (node_reach_ok zero lim n Hl Hrun Hr) as Hn. split; [apply Hn|]. split.
  - unfold in_hand, hand. repeat case_match; cbn; lia.
  - rewrite (zlen_items zero) by apply Hn. apply (so_ring _ _ (no_sys _ _ Hn)).
Qed.

(** ** Schedules *)

Inductive turn : Type := TSend (tid : nat) (x : T) | TOn (tid : nat) | TSent (tid : nat) | TWork.
Definition take_turn (t : turn) (n : taskParseNode) : option taskParseNode :=
  match t with
  | TSend tid x =>
      if decide (tid <> 0%nat /\ senders n !! tid = None)
      then s ← exec zero (MPush tid x) (threads n); Some (set_threads s (set_sender tid (x, SPush false) n))
      else None
  | TOn tid => send_step zero tid n
  | TSent tid =>
      match senders n !! tid with
      | Some (_, SDone) => Some (mkNode (threads n) (waiting n) (notify n) (blocked n) (delete tid (senders n)) (worker n) (processed n))
      | _ => None
      end
  | TWork => run_step zero n
  end.
Fixpoint take_turns (ts : list turn) (n : taskParseNode) : option taskParseNode :=
  match ts with [] => Some n | t :: ts => n' ← take_turn t n; take_turns ts n' end.

Lemma take_turn_sound t (n n' : taskParseNode) : take_turn t n = Some n' -> node_step zero n n'.
Proof.
  destruct t as [tid x|tid|tid|]; cbn [take_turn].
  - case_decide as Hd; [|done]. destruct Hd as [H1 H2]. destruct (exec _ _ _) as [s|] eqn:E; [|done].
    intros [= <-]. by apply node_send.
  - by apply node_sender.
  - destruct (senders n !! tid) as [[x []]|] eqn:E; try done. intros [= <-]. by eapply node_sent.
  - by apply node_worker.
Qed.
Lemma take_turns_sound ts : forall n n' : taskParseNode, take_turns ts n = Some n' -> rtc (node_step zero) n n'.
Proof.
  induction ts as [|t ts IH]; intros n n'; cbn [take_turns]; [by intros [= <-]; constructor|].
  destruct (take_turn t n) as [n1|] eqn:E; [|done]. cbn [mbind option_bind]. intros Hr%IH.
  eapply rtc_l; [by eapply take_turn_sound|done].
Qed.
End Shard.

(** The worker finds the queue empty, goes to sleep, and a task is queued
    between its last look and the receive. *)
Definition late_task : list turn :=
  [TWork; TWork; TWork; TWork; TWork; TWork; TSend 1 7; TOn 1; TOn 1; TOn 1; TOn 1; TOn 1; TWork].
Definition late_node : @taskParseNode Z := default (new_node 0 2) (take_turns 0 late_task (new_node 0 2)).

Lemma late_reached : rtc (node_step 0) (new_node 0 2) late_node.
Proof.
  apply (take_turns_sound 0 late_task). unfold late_node.
  destruct (take_turns 0 late_task (new_node 0 2)) as [n|] eqn:E; [done|]. vm_compute in E. discriminate E.
Qed.

Lemma no_lost_wakeup_witness : items (view (threads late_node)) = [7] /\
  exists tid k n', (k <= 5)%nat /\ sends 0 k tid late_node = Some n' /\ notify n' = true.
Proof.
  split; [vm_compute; reflexivity|].
  apply (no_lost_wakeup 0 2 late_node).
  - lia.
  - exact late_reached.
  - vm_compute. reflexivity.
  - vm_compute. reflexivity.
  - vm_compute. reflexivity.
  - vm_compute. discriminate.
Defined.

(** The same with the task taken and processed. *)
Definition served_task : list turn := late_task ++ [TOn 1; TOn 1; TOn 1; TOn 1; TSent 1; TWork; TWork; TWork; TWork;
  TWork; TWork; TWork; TWork; TWork; TWork; TWork; TWork; TWork].
Definition served_node : @taskParseNode Z := default (new_node 0 2) (take_turns 0 served_task (new_node 0 2)).
Lemma served_reached : rtc (node_step 0) (new_node 0 2) served_node.
Proof.
  apply (take_turns_sound 0 served_task). unfold served_node.
  destruct (take_turns 0 served_task (new_node 0 2)) as [n|] eqn:E; [done|]. vm_compute in E. discriminate E.
Qed.

Lemma shard_processes_in_order_witness : processed served_node = [7] /\
  processed served_node ++ in_hand served_node ++ items (view (threads served_node)) = log (threads served_node).
Proof.
  split; [vm_compute; reflexivity|].
  apply (shard_processes_in_order 0 2 served_node); [lia|exact served_reached|vm_compute; reflexivity].
Defined.
