(* ===== verification/H1Request.v ===== *)
(** * H1Request

    [http/request.go] and [http/parser.go]: a request is assembled from the
    callbacks of [httparser].  That package is not under [src/]: it is the class
    [HttpParser], whose [Execute] reads a buffer and makes a list of callbacks
    (they return nothing, so what they do has no influence on it).  Strings are
    byte strings. *)

From S2P Require Import Prelude GoStd.

(** ** [httparser] and the iteration of Go maps *)

(** The callbacks with what they read: [p.Major], [p.Minor] and
    [p.Method.String()] in [HeadersComplete], [hp.Upgrade] in
    [MessageComplete].  The offsets the code ignores are left out. *)
Inductive hp_event : Type :=
  | EvURL (buf : bytes)
  | EvHeaderField (buf : bytes)
  | EvHeaderValue (buf : bytes)
  | EvHeadersComplete (major minor : Z) (method : bytes)
  | EvBody (buf : bytes)
  | EvMessageComplete (upgraded : bool) (offset : Z).

Record executed {Hp HpError : Type} : Type := mkExecuted {
  ex_events : list hp_event;
  ex_n : Z;
  ex_err : option HpError;
  ex_hp : Hp;
}.
Arguments executed : clear implicits.

Class HttpParser : Type := {
  Hp : Type;
  HpError : Type;
  (** [httparser.New(httparser.REQUEST)] *)
  httparser_New : Hp;
  set_MaxHeaderSize : Z -> Hp -> Hp;
  hp_Reset : Hp -> Hp;
  hp_Execute : Hp -> bytes -> executed Hp HpError;
}.

(** [range m] visits the entries of a map in an order of its own each time. *)
Class GoMap : Type := {
  Order : Type;
  next_order : Order -> Order;
  range : forall {V}, Order -> gmap bytes V -> list (bytes * V);
}.
Class GoMapLaws `{GoMap} : Prop :=
  range_perm : forall {V} (o : Order) (m : gmap bytes V), range o m ≡ₚ map_to_list m.

Definition str (s : string) : bytes := bytes_of_string s.

(** ** Requests *)

Record Request : Type := mkRequest {
  Method : bytes;
  Target : bytes;
  Proto : bytes;
  Header : gmap bytes bytes;
  Body : bytes;
  ContentLength : Z;
}.
Definition set_Method (v : bytes) (r : Request) : Request :=
  mkRequest v (Target r) (Proto r) (Header r) (Body r) (ContentLength r).
Definition set_Target (v : bytes) (r : Request) : Request :=
  mkRequest (Method r) v (Proto r) (Header r) (Body r) (ContentLength r).
Definition set_Proto (v : bytes) (r : Request) : Request :=
  mkRequest (Method r) (Target r) v (Header r) (Body r) (ContentLength r).
Definition set_Header (v : gmap bytes bytes) (r : Request) : Request :=
  mkRequest (Method r) (Target r) (Proto r) v (Body r) (ContentLength r).
Definition set_Body (v : bytes) (r : Request) : Request :=
  mkRequest (Method r) (Target r) (Proto r) (Header r) v (ContentLength r).
Definition set_ContentLength (v : Z) (r : Request) : Request :=
  mkRequest (Method r) (Target r) (Proto r) (Header r) (Body r) v.

Definition lower (c : Z) : Z := if (65 <=? c) && (c <=? 90) then c + (97 - 65) else c.

Definition equalFold (a b : bytes) : bool :=
  if negb (zlen a =? zlen b) then false
  else forallb (fun xy => lower (fst xy) =? lower (snd xy)) (zip a b).

(** The search of [Request.Get], in the order [range] visits the headers. *)
Definition find_header (name : bytes) (l : list (bytes * bytes)) : option bytes :=
  first_some (fun kv => if equalFold (fst kv) name then Some (snd kv) else None) l.

Definition Get `{GoMap} (o : Order) (r : Request) (name : bytes) : option bytes :=
  find_header name (range o (Header r)).

Record requestBuilder : Type := mkBuilder { req : Request; curField : bytes }.

Definition newRequestBuilder : requestBuilder := mkBuilder (mkRequest [] [] [] ∅ [] (-1)) [].

Definition builder_reset (b : requestBuilder) : requestBuilder := mkBuilder (mkRequest [] [] [] ∅ [] (-1)) [].

(** ** The parser *)

Inductive herror {HpError : Type} : Type :=
  | ErrHeaderTooLarge
  | ErrBadMessage
  | ErrParse (e : HpError)   (** [errors.Join(ErrBadMessage, e)] *)
  | errNoUpgrade.
Arguments herror : clear implicits.

Record Parser `{HttpParser} : Type := mkParser {
  hp : Hp;
  builder : requestBuilder;
  is_done : bool;
  endOffset : Z;
  upgrade : bool;
  maxHeaderSize : Z;
}.

Definition DefaultMaxHeaderSize : Z := 8 * 1024.

Section Parser.
Context `{HttpParser} `{GoMap}.

Definition set_hp (v : Hp) (p : Parser) : Parser :=
  mkParser _ v (builder p) (is_done p) (endOffset p) (upgrade p) (maxHeaderSize p).
Definition set_builder (v : requestBuilder) (p : Parser) : Parser :=
  mkParser _ (hp p) v (is_done p) (endOffset p) (upgrade p) (maxHeaderSize p).
Definition on_req (f : Request -> Request) (p : Parser) : Parser :=
  set_builder (mkBuilder (f (req (builder p))) (curField (builder p))) p.

Definition NewParser (maxHeaderSize : Z) : Parser :=
  let max := if maxHeaderSize <=? 0 then DefaultMaxHeaderSize else maxHeaderSize in
  mkParser _ (set_MaxHeaderSize max httparser_New) newRequestBuilder false 0 false max.

(** The callbacks of [requestBuilder.setting]; [o] is the order of a [Get]. *)
Definition callback (o : Order) (e : hp_event) (p : Parser) : Parser :=
  if is_done p then p
  else
    let b := builder p in
    match e with
    | EvURL buf => on_req (fun r => set_Target (Target r ++ buf) r) p
    | EvHeaderField buf => set_builder (mkBuilder (req b) buf) p
    | EvHeaderValue buf =>
        let name := curField b in
        if zlen name =? 0 then p
        else
          let v := match Header (req b) !! name with
                   | Some last => last ++ str ", " ++ buf
                   | None => buf
                   end in
          on_req (fun r => set_Header (<[name := v]> (Header r)) r) p
    | EvHeadersComplete major minor method =>
        let proto := str "HTTP/" ++ str (fmt_d major) ++ str "." ++ str (fmt_d minor) in
        let p := on_req (fun r => set_Method method (set_Proto proto r)) p in
        match Get o (req (builder p)) (str "Content-Length") with
        | None => p
        | Some cl =>
            match ParseInt (string_of_bytes cl) with
            | Some n => on_req (set_ContentLength n) p
            | None => p
            end
        end
    | EvBody buf => on_req (fun r => set_Body (Body r ++ buf) r) p
    | EvMessageComplete upgraded offset =>
        mkParser _ (hp p) b true offset (upgraded || upgrade p) (maxHeaderSize p)
    end.

Fixpoint callbacks (o : Order) (es : list hp_event) (p : Parser) : Parser :=
  match es with
  | [] => p
  | e :: es => callbacks (next_order o) es (callback o e p)
  end.

Definition Parse (o : Order) (buf : bytes) (p : Parser) : (Z * option (herror HpError)) * Parser :=
  if is_done p then ((0, Some ErrBadMessage), p)
  else
    let x := hp_Execute (hp p) buf in
    let p := callbacks o (ex_events x) (set_hp (ex_hp x) p) in
    match ex_err x with
    | Some e => ((ex_n x, Some (ErrParse e)), p)
    | None => if negb (is_done p) then ((ex_n x, None), p) else ((endOffset p + 1, None), p)
    end.

Definition Done (p : Parser) : bool := is_done p.
Definition Upgrade (p : Parser) : bool := upgrade p.
Definition Parser_Request (p : Parser) : option Request :=
  if negb (is_done p) then None else Some (req (builder p)).

Definition Reset (p : Parser) : Parser :=
  mkParser _ (set_MaxHeaderSize (maxHeaderSize p) (hp_Reset (hp p))) (builder_reset (builder p))
    false 0 false (maxHeaderSize p).
End Parser.
