(* ===== verification/H1Parse.v ===== *)
(** * H1Parse

    What [http.Parser] makes of a byte stream, for every way of cutting it: the
    laws of [httparser] that the package relies on, and the request that a
    message stands for. *)

From S2P Require Import Prelude GoStd H1Request.

(** ** Events *)

Definition completes (e : hp_event) : bool :=
  match e with EvMessageComplete _ _ => true | _ => false end.
Definition no_complete (l : list hp_event) : Prop := Forall (fun e => completes e = false) l.

(** URL and body may come in pieces; [merge] joins neighbours. *)
Definition merge1 (e : hp_event) (l : list hp_event) : list hp_event :=
  match e, l with
  | EvURL a, EvURL b :: l => EvURL (a ++ b) :: l
  | EvBody a, EvBody b :: l => EvBody (a ++ b) :: l
  | _, _ => e :: l
  end.
Definition merge (l : list hp_event) : list hp_event := foldr merge1 [] l.

(** The offset counted from [k] bytes earlier. *)
Definition shift1 (k : Z) (e : hp_event) : hp_event :=
  match e with EvMessageComplete u off => EvMessageComplete u (k + off) | _ => e end.
Definition shift (k : Z) (l : list hp_event) : list hp_event := shift1 k <$> l.

(** ** The laws of [httparser]

    A byte-driven machine: bytes it has not consumed have no effect
    ([hp_resume]); the end of a message is decided by its own bytes
    ([hp_boundary]) and what follows is parsed from scratch ([hp_next]). *)

(** A parser as [NewParser] makes it. *)
Definition fresh `{HttpParser} (k : Z) : Hp := set_MaxHeaderSize k httparser_New.

(** The offset of a [MessageComplete] is inside the buffer. *)
Class HttpOffsets `{HttpParser} : Prop :=
  hp_offset : forall p buf u off, EvMessageComplete u off ∈ ex_events (hp_Execute p buf) -> 0 <= off < zlen buf.

Class HttpParserLaws `{HttpParser} : Prop := {
  hp_offsets :: HttpOffsets;
  hp_Reset_fresh k p : set_MaxHeaderSize k (hp_Reset p) = fresh k;
  hp_resume p a b :
    let x := hp_Execute p a in
    ex_err x = None -> no_complete (ex_events x) ->
    0 <= ex_n x <= zlen a /\
    let y := hp_Execute (ex_hp x) b in let z := hp_Execute p (upto (ex_n x) a ++ b) in
    ex_err z = ex_err y /\ merge (ex_events z) = merge (ex_events x ++ shift (ex_n x) (ex_events y));
  hp_boundary p a l1 u off l2 :
    let x := hp_Execute p a in
    ex_err x = None -> ex_events x = l1 ++ EvMessageComplete u off :: l2 -> no_complete l1 ->
    let y := hp_Execute p (upto (off + 1) a) in
    ex_err y = None /\ ex_events y = l1 ++ [EvMessageComplete u off];
  hp_next k a l u b :
    let x := hp_Execute (fresh k) a in
    ex_err x = None -> ex_events x = l ++ [EvMessageComplete u (zlen a - 1)] -> no_complete l ->
    let z := hp_Execute (fresh k) (a ++ b) in
    ex_err z = ex_err (hp_Execute (fresh k) b) /\ exists l2, ex_events z = ex_events x ++ l2;
}.

(** ** Callbacks in any order of the maps *)

Section Runs.
Context `{HttpParser} `{GoMap}.

Inductive runs : list hp_event -> Parser -> Parser -> Prop :=
  | runs_nil p : runs [] p p
  | runs_cons o e es p p' : runs es (callback o e p) p' -> runs (e :: es) p p'.

Lemma callbacks_runs es : forall o p, runs es p (callbacks o es p).
Proof. induction es as [|e es IH]; intros o p; econstructor; apply IH. Qed.

Lemma runs_app es1 es2 p p1 p2 : runs es1 p p1 -> runs es2 p1 p2 -> runs (es1 ++ es2) p p2.
Proof. induction 1; cbn; [done|]. intros ?. econstructor. eauto. Qed.

(** A finished parser ignores the callbacks. *)
Lemma callbacks_done es : forall o p, is_done p = true -> callbacks o es p = p.
Proof.
  induction es as [|e es IH]; intros o p Hd; [done|]. cbn. unfold callback. rewrite Hd. by apply IH.
Qed.

Lemma callbacks_app es1 es2 : forall o p,
  exists o', callbacks o (es1 ++ es2) p = callbacks o' es2 (callbacks o es1 p).
Proof. induction es1 as [|e es1 IH]; intros o p; [by exists o|]. apply IH. Qed.

Lemma callback_hp o e v p : callback o e (set_hp v p) = set_hp v (callback o e p).
Proof.
  destruct p as [h b d eo up m]. unfold callback. cbn. destruct d; [done|]. destruct e; cbn; try done.
  - by destruct (zlen _ =? 0).
  - unfold Get. destruct (find_header _ _) as [cl|]; [|done]. by destruct (ParseInt _).
Qed.

Lemma callbacks_hp es v : forall o p, callbacks o es (set_hp v p) = set_hp v (callbacks o es p).
Proof. induction es as [|e es IH]; intros o p; [done|]. cbn. by rewrite callback_hp, IH. Qed.

Lemma callback_max o e p : maxHeaderSize (callback o e p) = maxHeaderSize p.
Proof.
  unfold callback. destruct (is_done p); [done|]. destruct e; cbn; try done.
  - by destruct (zlen _ =? 0).
  - destruct (Get _ _ _) as [cl|]; [|done]. by destruct (ParseInt _).
Qed.

Lemma callbacks_max es : forall o p, maxHeaderSize (callbacks o es p) = maxHeaderSize p.
Proof. induction es as [|e es IH]; intros o p; [done|]. cbn. by rewrite IH, callback_max. Qed.

(** The end of the message that [Parse] reports is in the buffer. *)
Lemma callbacks_offset es : forall o p,
  is_done p = false -> is_done (callbacks o es p) = true ->
  exists u, EvMessageComplete u (endOffset (callbacks o es p)) ∈ es.
Proof.
  induction es as [|e es IH]; intros o p Hd Hd'; cbn [callbacks] in *; [congruence|].
  destruct (is_done (callback o e p)) eqn:Hc.
  - rewrite callbacks_done by done. unfold callback in *. rewrite Hd in *. destruct e; cbn in *; try congruence.
    + destruct (zlen _ =? 0); cbn in *; congruence.
    + destruct (Get _ _ _) as [cl|]; [destruct (ParseInt _)|]; cbn in *; congruence.
    + exists upgraded. set_solver.
  - destruct (IH _ _ Hc Hd') as [u Hu]. exists u. set_solver.
Qed.

Lemma Parse_bounds `{!HttpOffsets} o a p :
  let '(r, p') := Parse o a p in snd r = None -> Done p' = true -> 0 < fst r <= zlen a.
Proof.
  unfold Parse, Done. destruct (is_done p) eqn:Hd; [done|]. set (x := hp_Execute (hp p) a).
  set (p' := callbacks _ _ _). destruct (ex_err x); [done|]. destruct (is_done p') eqn:Hd'; cbn; [|congruence].
  intros _ _. destruct (callbacks_offset (ex_events x) o (set_hp (ex_hp x) p) Hd Hd') as [u Hu].
  apply hp_offset in Hu. fold p' in Hu. lia.
Qed.

(** What callbacks other than [MessageComplete] leave alone. *)
Definition rest_of (p : Parser) := (hp p, is_done p, endOffset p, upgrade p, maxHeaderSize p).

Lemma callback_rest o e p : completes e = false -> rest_of (callback o e p) = rest_of p.
Proof.
  intros He. unfold callback. destruct (is_done p) eqn:Hd; [done|]. destruct e; try done; cbn.
  - by destruct (zlen _ =? 0).
  - destruct (Get _ _ _) as [cl|]; [|done]. by destruct (ParseInt _).
Qed.

Lemma callbacks_rest es : forall o p, no_complete es -> rest_of (callbacks o es p) = rest_of p.
Proof.
  induction es as [|e es IH]; intros o p He; [done|]. apply Forall_cons in He as [He Hes].
  cbn. by rewrite IH, callback_rest.
Qed.

Lemma runs_hp es v p p' : runs es p p' -> runs es (set_hp v p) (set_hp v p').
Proof. induction 1; econstructor; [by rewrite callback_hp]. Qed.

(** ** Merging changes nothing *)

Lemma callback_URL o1 o2 a b p :
  callback o2 (EvURL b) (callback o1 (EvURL a) p) = callback o1 (EvURL (a ++ b)) p.
Proof.
  unfold callback. destruct (is_done p) eqn:Hd; rewrite ?Hd; [done|]. cbn. rewrite Hd. unfold on_req, set_Target.
  cbn. by rewrite app_assoc.
Qed.
Lemma callback_Body o1 o2 a b p :
  callback o2 (EvBody b) (callback o1 (EvBody a) p) = callback o1 (EvBody (a ++ b)) p.
Proof.
  unfold callback. destruct (is_done p) eqn:Hd; rewrite ?Hd; [done|]. cbn. rewrite Hd. unfold on_req, set_Body.
  cbn. by rewrite app_assoc.
Qed.

Lemma runs_inv e es p p' : runs (e :: es) p p' <-> exists o, runs es (callback o e p) p'.
Proof. split; [inversion 1; eauto|intros [o ?]; by econstructor]. Qed.

Lemma runs_merge1 e l p p' : runs (merge1 e l) p p' <-> runs (e :: l) p p'.
Proof.
  destruct e, l as [|[] l]; try done; cbn [merge1]; rewrite (runs_inv (_ (_ ++ _))); setoid_rewrite runs_inv;
    setoid_rewrite runs_inv; (split; [intros [o R]; exists o, o|intros (o1 & o2 & R); exists o1]).
  - by rewrite callback_URL.
  - by rewrite callback_URL in R.
  - by rewrite callback_Body.
  - by rewrite callback_Body in R.
Qed.

Lemma runs_merge l : forall p p', runs (merge l) p p' <-> runs l p p'.
Proof.
  induction l as [|e l IH]; intros p p'; [done|]. cbn [merge foldr]. fold (merge l).
  rewrite runs_merge1, !runs_inv. by setoid_rewrite IH.
Qed.

Lemma runs_merge_eq l1 l2 p p' : merge l1 = merge l2 -> runs l1 p p' <-> runs l2 p p'.
Proof. intros E. by rewrite <- runs_merge, E, runs_merge. Qed.
End Runs.

(** ** Lists of events *)

Lemma no_complete_app l1 l2 : no_complete (l1 ++ l2) <-> no_complete l1 /\ no_complete l2.
Proof. apply Forall_app. Qed.

Lemma shift_no_complete k l : no_complete l -> shift k l = l.
Proof.
  induction 1 as [|e l He _ IH]; [done|]. unfold shift in *. cbn. rewrite IH. by destruct e.
Qed.

Lemma shift_shift a b l : shift a (shift b l) = shift (a + b) l.
Proof.
  unfold shift. rewrite <- list_fmap_compose. apply list_fmap_ext. intros _ e _. destruct e; cbn; try done.
  by rewrite Z.add_assoc.
Qed.

Lemma merge_app_r l l1 l2 : merge l1 = merge l2 -> merge (l ++ l1) = merge (l ++ l2).
Proof. intros E. unfold merge in *. by rewrite !foldr_app, E. Qed.

Lemma merge_shift k l : merge (shift k l) = shift k (merge l).
Proof.
  induction l as [|e l IH]; [done|].
  change (merge1 (shift1 k e) (merge (shift k l)) = shift k (merge1 e (merge l))). rewrite IH.
  destruct e, (merge l) as [|[] l']; done.
Qed.

Lemma merge_snoc l u off : merge (l ++ [EvMessageComplete u off]) = merge l ++ [EvMessageComplete u off].
Proof.
  induction l as [|e l IH]; [done|]. cbn. fold (merge (l ++ [EvMessageComplete u off])) (merge l). rewrite IH.
  destruct e, (merge l) as [|[] l']; done.
Qed.

Lemma merge_ends l e :
  completes e = false -> exists l' e', merge (l ++ [e]) = l' ++ [e'] /\ completes e' = false.
Proof.
  intros He. induction l as [|x l (l' & e' & E & He')]; [by exists [], e; destruct e|].
  cbn. fold (merge (l ++ [e])). rewrite E. destruct l' as [|y l'].
  - destruct x, e'; try done; cbn; first [by eexists [], _|by eexists [_], _].
  - assert (exists l0, merge1 x (y :: l' ++ [e']) = l0 ++ [e']) as [l0 ?]; [|by exists l0, e'].
    destruct x, y; cbn; first [by exists (x :: y :: l')|by eexists (_ :: _ :: l')|by eexists (_ :: l')].
Qed.

(** The end of a message is seen through [merge]. *)
Lemma merge_last l l' u off :
  merge l = l' ++ [EvMessageComplete u off] ->
  exists l0, l = l0 ++ [EvMessageComplete u off] /\ merge l0 = l'.
Proof.
  destruct l as [|e l _] using rev_ind; intros E; [by destruct l'|].
  destruct (completes e) eqn:He.
  - destruct e; try done. rewrite merge_snoc in E. apply app_inj_tail in E as [E1 E2].
    exists l. split; [by rewrite E2|done].
  - destruct (merge_ends l e He) as (l1 & e1 & E1 & He1). rewrite E1 in E.
    by apply app_inj_tail in E as [_ ->].
Qed.

Lemma no_complete_merge l : no_complete (merge l) <-> no_complete l.
Proof.
  unfold no_complete. induction l as [|e l IH]; [done|]. cbn. fold (merge l).
  rewrite (Forall_cons _ e l), <- IH.
  destruct e, (merge l) as [|[] l']; cbn; rewrite ?Forall_cons; cbn; tauto.
Qed.

(** The first [MessageComplete] of a list. *)
Lemma first_complete l :
  no_complete l \/ exists l1 u off l2, l = l1 ++ EvMessageComplete u off :: l2 /\ no_complete l1.
Proof.
  induction l as [|e l [Hl|(l1 & u & off & l2 & -> & Hl)]]; [left; constructor| |].
  - destruct (completes e) eqn:He; [|left; by constructor]. destruct e; try done.
    right. eexists [], _, _, _. split; [done|constructor].
  - destruct (completes e) eqn:He.
    + destruct e; try done. right. eexists [], _, _, _. split; [done|constructor].
    + right. exists (e :: l1), u, off, l2. split; [done|by constructor].
Qed.

(** ** Requests as the meaning of messages *)

Section Messages.
Context `{HttpParser} `{GoMap}.

(** What [NewParser] and [Reset] make. *)
Definition start (k : Z) : Parser := mkParser _ (fresh k) newRequestBuilder false 0 false k.

(** The message [m], parsed in one piece from the start, is the request [r];
    [u] tells whether it asks for an upgrade. *)
Definition parses (k : Z) (m : bytes) (r : Request) (u : bool) : Prop :=
  let x := hp_Execute (fresh k) m in
  ex_err x = None /\
  exists l p, ex_events x = l ++ [EvMessageComplete u (zlen m - 1)] /\ no_complete l /\
              runs l (start k) p /\ req (builder p) = r.

(** [p] has read [part], the beginning of a message: in front of any bytes it
    does what a fresh parser does on [part] followed by them. *)
Definition reading (k : Z) (p : Parser) (part : bytes) : Prop :=
  exists evs, no_complete evs /\ runs evs (start k) (set_hp (fresh k) p) /\
    forall b, let x := hp_Execute (fresh k) (part ++ b) in let y := hp_Execute (hp p) b in
      ex_err x = ex_err y /\ merge (ex_events x) = merge (evs ++ shift (zlen part) (ex_events y)).

Lemma runs_rest es p p' : runs es p p' -> no_complete es -> rest_of p' = rest_of p.
Proof.
  induction 1 as [|o e es p p' _ IH]; intros He; [done|]. apply Forall_cons in He as [He Hes].
  by rewrite (IH Hes), callback_rest.
Qed.

Lemma reading_rest k p part :
  reading k p part -> is_done p = false /\ endOffset p = 0 /\ upgrade p = false /\ maxHeaderSize p = k.
Proof. intros (evs & He & Hr & _). by apply runs_rest in Hr as [= -> -> -> ->]. Qed.

Lemma reading_start k : reading k (start k) [].
Proof.
  exists []. split; [constructor|]. split; [constructor|]. intros b. cbn. split; [done|].
  unfold shift. f_equal. symmetry. rewrite <- (list_fmap_id (ex_events _)) at 2.
  apply list_fmap_ext. intros _ [] _; cbn; by rewrite ?Z.add_0_l.
Qed.

Lemma NewParser_start max : exists k, NewParser max = start k.
Proof. by eexists. Qed.

Context `{!HttpParserLaws}.

Lemma Reset_start p : Reset p = start (maxHeaderSize p).
Proof. unfold Reset, start. by rewrite hp_Reset_fresh. Qed.

(** The callbacks run on the builder, whatever the parser below is. *)
Lemma runs_callbacks o es p k v :
  runs es (set_hp (fresh k) p) (set_hp (fresh k) (callbacks o es (set_hp v p))).
Proof.
  pose proof (callbacks_runs es o (set_hp (fresh k) p)) as R. rewrite callbacks_hp in *.
  by destruct (callbacks o es p).
Qed.

Lemma reading_more k p part o a :
  let x := hp_Execute (hp p) a in
  reading k p part -> ex_err x = None -> no_complete (ex_events x) ->
  0 <= ex_n x <= zlen a /\
  reading k (callbacks o (ex_events x) (set_hp (ex_hp x) p)) (part ++ upto (ex_n x) a).
Proof.
  intros x (evs & He & Hr & Hb) Hx Hn. destruct (hp_resume (hp p) a [] Hx Hn) as [Hz _]. fold x in Hz.
  split; [done|].
  exists (evs ++ ex_events x). split; [by apply no_complete_app|]. split.
  { eapply runs_app; [done|]. apply runs_callbacks. }
  intros b. cbn. rewrite callbacks_hp. destruct (hp_resume (hp p) a b Hx Hn) as [_ [He1 He2]].
  destruct (Hb (upto (ex_n x) a ++ b)) as [He3 He4]. rewrite <- app_assoc. split; [by rewrite He3|].
  rewrite He4, <- app_assoc. apply merge_app_r. rewrite !merge_shift. fold x in He2. rewrite He2.
  rewrite <- merge_shift. unfold shift at 1. rewrite fmap_app. fold (shift (zlen part) (ex_events x)).
  rewrite (shift_no_complete _ _ Hn). apply merge_app_r. change (fmap (shift1 (zlen part))) with (shift (zlen part)).
  rewrite shift_shift, zlen_app, zlen_upto by lia. by replace (Z.min (ex_n x) (zlen a)) with (ex_n x) by lia.
Qed.

Lemma reading_completes k p part o a l1 u off l2 :
  let x := hp_Execute (hp p) a in
  reading k p part -> ex_err x = None ->
  ex_events x = l1 ++ EvMessageComplete u off :: l2 -> no_complete l1 ->
  let p' := callbacks o (ex_events x) (set_hp (ex_hp x) p) in
  0 <= off < zlen a /\ is_done p' = true /\ endOffset p' = off /\ maxHeaderSize p' = k /\
  parses k (part ++ upto (off + 1) a) (req (builder p')) (upgrade p').
Proof.
  intros x Hread Hx Hev Hn p'. assert (0 <= off < zlen a) as Hoff.
  { apply (hp_offset (hp p) a u off). fold x. rewrite Hev. set_solver. }
  split; [done|]. destruct (hp_boundary (hp p) a l1 u off l2 Hx Hev Hn) as [Hy1 Hy2].
  destruct (reading_rest _ _ _ Hread) as (R1 & R2 & R3 & R4).
  set (p1 := callbacks o l1 (set_hp (ex_hp x) p)).
  assert (p' = mkParser _ (hp p1) (builder p1) true off (u || upgrade p1) (maxHeaderSize p1)) as Hp'.
  { unfold p'. rewrite Hev. destruct (callbacks_app l1 (EvMessageComplete u off :: l2) o (set_hp (ex_hp x) p))
      as [o' ->]. fold p1. cbn [callbacks]. pose proof (callbacks_rest l1 o (set_hp (ex_hp x) p) Hn) as E.
    fold p1 in E. injection E as E1 E2 E3 E4 E5. unfold callback. cbn in E2. rewrite E2, R1. by apply callbacks_done. }
  pose proof (callbacks_rest l1 o (set_hp (ex_hp x) p) Hn) as [= E1 E2 E3 E4 E5].
  fold p1 in E1, E2, E3, E4, E5. cbn in E1, E2, E3, E4, E5.
  rewrite Hp'. cbn. rewrite E4, E5, R3, R4, orb_false_r. do 3 (split; [done|]).
  destruct Hread as (evs & He & Hr & Hb). destruct (Hb (upto (off + 1) a)) as [He1 He2].
  split; [by rewrite He1|]. rewrite Hy2 in He2. unfold shift in He2. rewrite fmap_app, app_assoc in He2. cbn in He2.
  fold (shift (zlen part) l1) in He2. rewrite (shift_no_complete _ _ Hn), merge_snoc in He2.
  apply merge_last in He2 as (l & -> & Hl). exists l, (set_hp (fresh k) p1).
  split; [|split; [|split]].
  - do 3 f_equal.
    rewrite zlen_app, zlen_upto by lia. lia.
  - apply no_complete_merge. rewrite Hl. apply no_complete_merge. by apply no_complete_app.
  - apply (runs_merge_eq _ _ _ _ Hl). eapply runs_app; [done|]. apply runs_callbacks.
  - done.
Qed.

(** One call of [Parse]. *)
Lemma Parse_spec k p part o a :
  reading k p part ->
  let '(r, p') := Parse o a p in
  snd r = None ->
  (Done p' = false /\ 0 <= fst r <= zlen a /\ reading k p' (part ++ upto (fst r) a)) \/
  (Done p' = true /\ 0 < fst r <= zlen a /\ maxHeaderSize p' = k /\
   parses k (part ++ upto (fst r) a) (req (builder p')) (upgrade p')).
Proof.
  intros Hread. unfold Parse, Done. destruct (reading_rest _ _ _ Hread) as (-> & _).
  set (x := hp_Execute (hp p) a). destruct (ex_err x) eqn:Hx; [done|].
  destruct (first_complete (ex_events x)) as [Hn|(l1 & u & off & l2 & Hev & Hn)].
  - destruct (reading_more k p part o a Hread Hx Hn) as [Hz Hr]. fold x in Hz, Hr.
    rewrite (proj1 (reading_rest _ _ _ Hr)). left. split; [|done]. by apply (reading_rest _ _ _ Hr).
  - destruct (reading_completes k p part o a _ _ _ _ Hread Hx Hev Hn) as (Hoff & Hd & He & Hm & Hp).
    fold x in Hd, He, Hm, Hp. rewrite Hd. cbn. rewrite He. right. split; [done|]. split; [lia|]. done.
Qed.
(** ** Streams of messages *)

Lemma parses_next k m r u b :
  parses k m r u ->
  ex_err (hp_Execute (fresh k) (m ++ b)) = ex_err (hp_Execute (fresh k) b) /\
  exists l l2, ex_events (hp_Execute (fresh k) (m ++ b)) = l ++ EvMessageComplete u (zlen m - 1) :: l2 /\
               no_complete l.
Proof.
  intros (Hx & l & p & Hev & Hn & _). destruct (hp_next k m l u b Hx Hev Hn) as [He [l2 Hl]].
  split; [done|]. exists l, l2. split; [|done]. by rewrite Hl, Hev, <- app_assoc.
Qed.

(** No message is the beginning of another one. *)
Lemma parses_prefix_free k m r u b r' u' : parses k m r u -> parses k (m ++ b) r' u' -> b = [].
Proof.
  intros Hm (_ & l' & p' & Hev' & Hn' & _). destruct (parses_next k m r u b Hm) as (_ & l & l2 & Hev & Hn).
  rewrite Hev in Hev'. destruct l2 as [|e l2 _] using rev_ind.
  - apply app_inj_tail in Hev' as [_ [= _ Ho]]. rewrite zlen_app in Ho.
    apply zlen_zero. pose proof (zlen_nonneg b). lia.
  - rewrite app_comm_cons, app_assoc in Hev'. apply app_inj_tail in Hev' as [<- _].
    apply no_complete_app in Hn' as [_ Hn']. by apply Forall_cons in Hn' as [? _].
Qed.

Lemma parses_same k m1 r1 u1 b1 m2 r2 u2 b2 :
  parses k m1 r1 u1 -> parses k m2 r2 u2 -> m1 ++ b1 = m2 ++ b2 -> m1 = m2 /\ b1 = b2.
Proof.
  intros P1 P2 E. apply app_eq_inv in E as [(d & -> & ->)|(d & -> & ->)].
  - apply (parses_prefix_free k m2 r2 u2) in P1 as ->; [|done]. by rewrite app_nil_r.
  - apply (parses_prefix_free k m1 r1 u1) in P2 as ->; [|done]. by rewrite app_nil_r.
Qed.

(** The bytes [t] begin a message and are not a whole one. *)
Definition partial (k : Z) (t : bytes) : Prop :=
  let x := hp_Execute (fresh k) t in ex_err x = None /\ no_complete (ex_events x).

(** The bytes that are there contain the rest of the message: [Parse] ends it. *)
Lemma Parse_completes k p part o a m r u b :
  reading k p part -> part ++ a = m ++ b -> parses k m r u -> ex_err (hp_Execute (fresh k) b) = None ->
  let '(res, p') := Parse o a p in
  snd res = None /\ Done p' = true /\ 0 < fst res <= zlen a /\ maxHeaderSize p' = k /\
  m = part ++ upto (fst res) a /\ b = from (fst res) a /\ parses k m (req (builder p')) (upgrade p').
Proof.
  intros Hread Hm Hp Hb. destruct (parses_next k m r u b Hp) as (He & l & l2 & Hev & Hn). rewrite Hb, <- Hm in He.
  pose proof Hread as (evs & Hne & _ & Hall). destruct (Hall a) as [He' Hmerge]. rewrite He in He'.
  pose proof (Parse_spec k p part o a Hread) as Hspec. unfold Parse, Done in *.
  destruct (reading_rest _ _ _ Hread) as (E & _). rewrite E in *. clear E. rewrite <- He' in *.
  rewrite <- Hm in Hev.
  destruct (first_complete (ex_events (hp_Execute (hp p) a))) as [Hno|(l1 & u1 & off & l3 & Hev1 & Hn1)].
  { exfalso. assert (no_complete (ex_events (hp_Execute (fresh k) (part ++ a)))) as Hno2.
    { apply no_complete_merge. rewrite Hmerge. apply no_complete_merge. apply no_complete_app. split; [done|].
      by rewrite shift_no_complete. }
    rewrite Hev in Hno2. apply no_complete_app in Hno2 as [_ Hno2]. by apply Forall_cons in Hno2 as [? _]. }
  destruct (reading_completes k p part o a _ _ _ _ Hread (eq_sym He') Hev1 Hn1) as (Hoff & Hd & Heo & Hmx & Hpp).
  rewrite Hd in *. cbn in *. split; [done|]. split; [done|]. rewrite Heo. split; [lia|]. split; [done|].
  destruct (parses_same k m r u b _ _ _ (from (off + 1) a) Hp Hpp) as [-> ->]; [|done].
  by rewrite <- app_assoc, upto_from.
Qed.

Lemma Parse_waits k p part o a :
  reading k p part -> partial k (part ++ a) ->
  let '(res, p') := Parse o a p in
  snd res = None /\ Done p' = false /\ 0 <= fst res <= zlen a /\ reading k p' (part ++ upto (fst res) a).
Proof.
  intros Hread [Hx Hn]. pose proof Hread as (evs & Hne & _ & Hall). destruct (Hall a) as [He' Hmerge].
  rewrite Hx in He'. pose proof (Parse_spec k p part o a Hread) as Hspec. unfold Parse, Done in *.
  destruct (reading_rest _ _ _ Hread) as (E & _). rewrite E in *. clear E. rewrite <- He' in *.
  apply no_complete_merge in Hn. rewrite Hmerge in Hn. apply no_complete_merge, no_complete_app in Hn as [_ Hn].
  assert (no_complete (ex_events (hp_Execute (hp p) a))) as Hn1.
  { unfold no_complete, shift in *. rewrite Forall_fmap in Hn. eapply Forall_impl; [exact Hn|].
    intros [] ?; done. }
  destruct (reading_more k p part o a Hread (eq_sym He') Hn1) as [Hz Hr].
  pose proof (proj1 (reading_rest _ _ _ Hr)) as Hd. rewrite Hd. by do 2 (split; [done|]).
Qed.
Lemma parses_upgrade k m r u r' u' : parses k m r u -> parses k m r' u' -> u = u'.
Proof.
  intros (_ & l & p & Hev & _) (_ & l' & p' & Hev' & _). rewrite Hev in Hev'.
  by apply app_inj_tail in Hev' as [_ [= ->]].
Qed.

(** A parser in the middle of a message has not read a whole one. *)
Lemma reading_not_whole k p m r u b : reading k p (m ++ b) -> parses k m r u -> False.
Proof.
  intros (evs & Hne & _ & Hall) Hp. destruct (parses_next k m r u b Hp) as (_ & l & l2 & Hev & _).
  destruct (Hall []) as [_ Hm]. rewrite app_nil_r, Hev in Hm.
  assert (no_complete (ex_events (hp_Execute (hp p) []))) as Hn.
  { destruct (first_complete (ex_events (hp_Execute (hp p) []))) as [?|(l1 & u1 & off & l3 & E & _)]; [done|].
    assert (0 <= off < zlen (@nil Z)) as Ho by (apply (hp_offset (hp p) [] u1); rewrite E; set_solver).
    change (zlen (@nil Z)) with 0 in Ho. lia. }
  assert (no_complete (l ++ EvMessageComplete u (zlen m - 1) :: l2)) as Hbad.
  { apply no_complete_merge. rewrite Hm. apply no_complete_merge, no_complete_app. by rewrite shift_no_complete. }
  apply no_complete_app in Hbad as [_ Hbad]. by apply Forall_cons in Hbad as [? _].
Qed.

(** Messages followed by the beginning of one are parsed without an error. *)
Lemma stream_no_error k ms tail :
  Forall (fun m => exists r u, parses k m r u) ms -> partial k tail ->
  ex_err (hp_Execute (fresh k) (concat ms ++ tail)) = None.
Proof.
  intros Hms [Ht _]. induction Hms as [|m ms (r & u & Hm) _ IH]; [done|]. cbn [concat].
  rewrite <- app_assoc. by rewrite (proj1 (parses_next _ _ _ _ _ Hm)).
Qed.
End Messages.
