(* ===== verification/H1Writer.v ===== *)
(** * H1Writer

    The response side of [http/server.go], with [http/status.go]: the
    [ResponseWriter] writes through the connection of the [engine].  Its state is
    in the [connState] that the protocol hangs on the connection. *)

From S2P Require Import Prelude GoStd EngConn H1Request.

(** ** [http/status.go] *)

Definition statusText : list (Z * string) :=
  [(100, "Continue"); (101, "Switching Protocols"); (102, "Processing"); (103, "Early Hints");
   (200, "OK"); (201, "Created"); (202, "Accepted"); (203, "Non-Authoritative Information");
   (204, "No Content"); (205, "Reset Content"); (206, "Partial Content"); (207, "Multi-Status");
   (208, "Already Reported"); (226, "IM Used"); (300, "Multiple Choices");
   (301, "Moved Permanently"); (302, "Found"); (303, "See Other"); (304, "Not Modified");
   (305, "Use Proxy"); (307, "Temporary Redirect"); (308, "Permanent Redirect");
   (400, "Bad Request"); (401, "Unauthorized"); (402, "Payment Required"); (403, "Forbidden");
   (404, "Not Found"); (405, "Method Not Allowed"); (406, "Not Acceptable");
   (407, "Proxy Authentication Required"); (408, "Request Timeout"); (409, "Conflict");
   (410, "Gone"); (411, "Length Required"); (412, "Precondition Failed");
   (413, "Content Too Large"); (414, "URI Too Long"); (415, "Unsupported Media Type");
   (416, "Range Not Satisfiable"); (417, "Expectation Failed"); (418, "I'm a teapot");
   (421, "Misdirected Request"); (422, "Unprocessable Content"); (423, "Locked");
   (424, "Failed Dependency"); (425, "Too Early"); (426, "Upgrade Required");
   (428, "Precondition Required"); (429, "Too Many Requests");
   (431, "Request Header Fields Too Large"); (451, "Unavailable For Legal Reasons");
   (500, "Internal Server Error"); (501, "Not Implemented"); (502, "Bad Gateway");
   (503, "Service Unavailable"); (504, "Gateway Timeout"); (505, "HTTP Version Not Supported");
   (506, "Variant Also Negotiates"); (507, "Insufficient Storage"); (508, "Loop Detected");
   (510, "Not Extended"); (511, "Network Authentication Required")].

Definition StatusText (code : Z) : string :=
  match (list_to_map statusText : gmap Z string) !! code with
  | Some s => s
  | None => "Status " +:+ fmt_d code
  end.

(** ** The state *)

(** [conn] is the connection itself; of the scratch buffer [buf] only the
    capacity outlives a call. *)
Record ResponseWriter : Type := mkWriter {
  header : option (gmap bytes (list bytes));
  statusCode : Z;
  wroteHeader : bool;
  headerSent : bool;
  keepAlive : bool;
  chunked : bool;
  finished : bool;
}.

Definition set_header (v : option (gmap bytes (list bytes))) (w : ResponseWriter) : ResponseWriter :=
  mkWriter v (statusCode w) (wroteHeader w) (headerSent w) (keepAlive w) (chunked w) (finished w).
Definition set_status (v : Z) (wrote : bool) (w : ResponseWriter) : ResponseWriter :=
  mkWriter (header w) v wrote (headerSent w) (keepAlive w) (chunked w) (finished w).
Definition set_headerSent (v : bool) (w : ResponseWriter) : ResponseWriter :=
  mkWriter (header w) (statusCode w) (wroteHeader w) v (keepAlive w) (chunked w) (finished w).
Definition set_chunked (v : bool) (w : ResponseWriter) : ResponseWriter :=
  mkWriter (header w) (statusCode w) (wroteHeader w) (headerSent w) (keepAlive w) v (finished w).
Definition set_finished (v : bool) (w : ResponseWriter) : ResponseWriter :=
  mkWriter (header w) (statusCode w) (wroteHeader w) (headerSent w) (keepAlive w) (chunked w) v.

(** [&ResponseWriter{}] *)
Definition newWriter : ResponseWriter := mkWriter None 0 false false false false false.

Record connState `{HttpParser} : Type := mkState {
  parser : Parser;
  st_w : option ResponseWriter;
}.

(** What the protocol keeps per connection: the [connState] in the user data,
    if there is one, the state of the order of map iterations, and the state of
    the application. *)
Record Http `{HttpParser} `{GoMap} {U : Type} : Type := mkHttp {
  hs_state : option connState;
  hs_order : Order;
  hs_user : U;
}.
Arguments Http {_ _} U.

(** ** Helpers *)

Definition crlf : bytes := [13; 10].

(** [hasHeaderName]; [strings.EqualFold] with a name of ASCII letters other
    than k and s is [equalFold]. *)
Definition hasHeaderName (header : gmap bytes (list bytes)) (want : bytes) : bool :=
  match header !! want with Some _ => true | None =>
    existsb (fun kv => (zlen (fst kv) =? zlen want) && equalFold (fst kv) want) (map_to_list header)
  end.

Definition hasContentLength (header : gmap bytes (list bytes)) : bool :=
  hasHeaderName header (str "Content-Length").

Definition bodylessStatus (code : Z) : bool :=
  ((code >=? 100) && (code <? 200)) || (code =? 204) || (code =? 304).

(** The header lines, in the order of the iteration. *)
Definition header_lines (l : list (bytes * list bytes)) : bytes :=
  concat ((fun kv => concat ((fun v => fst kv ++ str ": " ++ v ++ crlf) <$> snd kv)) <$> l).

Section Writer.
Context `{EngLib} `{HttpParser} `{GoMap} {U : Type}.
Notation EConn := (EngConn.Conn (Http U)).
Notation go A := (M EConn A).
Context (run_hook : HookId -> bytes -> go (option eerror)).

Definition set_hs (st : option connState) (c : EConn) : EConn :=
  set_hstate (mkHttp _ _ _ st (hs_order (hstate c)) (hs_user (hstate c))) c.

(** A method on [st.w]: a nil pointer panics. *)
Definition writer : go ResponseWriter :=
  h ← gets hstate; of_option (hs_state h ≫= st_w).
Definition set_writer (w : ResponseWriter) (c : EConn) : EConn :=
  set_hs ((fun st => mkState _ (parser st) (Some w)) <$> hs_state (hstate c)) c.
Definition on_writer (f : ResponseWriter -> ResponseWriter) : go unit :=
  w ← writer; modify (set_writer (f w)).

(** A new order for each iteration. *)
Definition new_order : go Order :=
  h ← gets hstate;
  modify (set_hstate (mkHttp _ _ _ (hs_state h) (next_order (hs_order h)) (hs_user h))) ;;
  mret (hs_order h).

Definition reset : go unit :=
  on_writer (fun w => mkWriter ((fun _ => ∅) <$> header w) 0 false false true false false).

(** [w.Header()[name] = values] *)
Definition SetHeader (name : bytes) (values : list bytes) : go unit :=
  on_writer (fun w => set_header (Some (<[name := values]> (default ∅ (header w)))) w).

Definition WriteHeader (code : Z) : go unit :=
  on_writer (fun w => if wroteHeader w then w else set_status code true w).

Definition WriteRaw (b : bytes) : go (option eerror) := EngConn.Write run_hook b.

Definition writeChunk (body : bytes) : go (option eerror) :=
  try EngConn.Write run_hook (str (fmt_x (zlen body)) ++ crlf);
  try EngConn.Write run_hook body;
  EngConn.Write run_hook crlf.

Definition flushHeader : go (option eerror) :=
  w ← writer;
  if headerSent w then mret None
  else
    let code := if statusCode w =? 0 then 200 else statusCode w in
    let hdr := default ∅ (header w) in
    let need := negb (hasContentLength hdr) && negb (bodylessStatus code) in
    on_writer (set_status code (wroteHeader w)) ;;
    (if need then on_writer (set_chunked true) else mret tt) ;;
    o ← new_order;
    on_writer (set_headerSent true) ;;
    EngConn.Write run_hook
      (str "HTTP/1.1 " ++ str (fmt_d code) ++ str " " ++ str (StatusText code) ++ crlf ++
       (if need then str "Transfer-Encoding: chunked" ++ crlf else []) ++
       header_lines (range o hdr) ++ crlf).

Definition Write (body : bytes) : go (Z * option eerror) :=
  w ← writer;
  (if negb (wroteHeader w) then WriteHeader 200 else mret tt) ;;
  e ← flushHeader;
  match e with
  | Some e => mret (0, Some e)
  | None =>
      if zlen body =? 0 then mret (0, None)
      else
        w ← writer;
        if chunked w then
          e ← writeChunk body;
          match e with Some e => mret (0, Some e) | None => mret (zlen body, None) end
        else e ← EngConn.Write run_hook body; mret (zlen body, e)
  end.

Definition finish : go (option eerror) :=
  w ← writer;
  if negb (chunked w) || finished w then mret None
  else
    on_writer (set_finished true) ;;
    EngConn.Write run_hook (str "0" ++ crlf ++ crlf).
End Writer.
