(* ===== verification/H1Reply.v ===== *)
(** * H1Reply

    What the [ResponseWriter] puts on the wire, as long as the connection is open
    and has no write hook.  [answers] is a response as a value: the bytes written
    and the final state of the writer. *)

From S2P Require Import Prelude GoStd Sock EngConn EngLoop H1Request H1Writer.

(** ** The writer without the connection *)

Definition sent_status (w : ResponseWriter) : Z := if statusCode w =? 0 then 200 else statusCode w.
Definition needs_chunks (w : ResponseWriter) : bool :=
  negb (hasContentLength (default ∅ (header w))) && negb (bodylessStatus (sent_status w)).

(** The bytes of the header, when the map is visited as [l]. *)
Definition head_bytes (w : ResponseWriter) (l : list (bytes * list bytes)) : bytes :=
  str "HTTP/1.1 " ++ str (fmt_d (sent_status w)) ++ str " " ++ str (StatusText (sent_status w)) ++ crlf ++
  (if needs_chunks w then str "Transfer-Encoding: chunked" ++ crlf else []) ++ header_lines l ++ crlf.

Definition sent_writer (w : ResponseWriter) : ResponseWriter :=
  set_headerSent true
    ((if needs_chunks w then set_chunked true else id) (set_status (sent_status w) (wroteHeader w) w)).

(** A header goes out: the new state and the bytes. *)
Definition flushes (w w' : ResponseWriter) (out : bytes) : Prop :=
  if headerSent w then w' = w /\ out = []
  else w' = sent_writer w /\
       exists l, l ≡ₚ map_to_list (default ∅ (header w)) /\ out = head_bytes w l.

Definition chunk (body : bytes) : bytes := str (fmt_x (zlen body)) ++ crlf ++ body ++ crlf.
Definition last_chunk : bytes := str "0" ++ crlf ++ crlf.

Definition body_bytes (w : ResponseWriter) (body : bytes) : bytes :=
  if zlen body =? 0 then [] else if chunked w then chunk body else body.

Definition finishes (w w' : ResponseWriter) (out : bytes) : Prop :=
  if negb (chunked w) || finished w then w' = w /\ out = []
  else w' = set_finished true w /\ out = last_chunk.

Definition with_200 (w : ResponseWriter) : ResponseWriter := if wroteHeader w then w else set_status 200 true w.

Section Reply.
Context `{EngLib} `{!EngLaws} `{HttpParser} `{GoMap} `{!GoMapLaws} {U : Type}.
Notation EConn := (EngConn.Conn (Http U)).
Notation go A := (M EConn A).
Context (run_hook : HookId -> bytes -> go (option eerror)).
Notation any_state := (fun _ : Http U => True).
Notation Einv := (Einv any_state).
Context `{!HookOk run_hook any_state}
  (hook_keeps : forall h data, keeps hstate (run_hook h data)).

Definition has (P : Parser) (w : ResponseWriter) (c : EConn) : Prop :=
  hs_state (hstate c) = Some (mkState _ P (Some w)).

Definition plain_open (c : EConn) : Prop := closed c = false /\ writeHookFn c = None.

(** A run of the writer; [ok] tells that it gave no error. *)
Record writes (P : Parser) (W : ResponseWriter) (out : bytes) (ok : Prop) (c c' : EConn) : Prop := {
  wr_inv : Einv c';
  wr_step : estep c c';
  wr_some : exists w', has P w' c';
  wr_has : ok -> has P W c';
  wr_user : hs_user (hstate c') = hs_user (hstate c);
  wr_out : plain_open c -> ok /\ plain_open c' /\ written c' = written c ++ out;
}.

Lemma writes_refl P w (c : EConn) : Einv c -> has P w c -> writes P w [] True c c.
Proof. intros Hc Hh. split; [done|done|by exists w|done|done|]. intros ?. by rewrite app_nil_r. Qed.

Lemma writes_trans {P w1 out1} {ok1 : Prop} {w2 out2} {ok2 : Prop} {c c1 c2 : EConn} :
  writes P w1 out1 ok1 c c1 -> writes P w2 out2 ok2 c1 c2 -> writes P w2 (out1 ++ out2) ok2 c c2.
Proof.
  intros [A1 A2 A3 A4 A5 A6] [B1 B2 B3 B4 B5 B6]. split; [done|by transitivity c1|done|done|congruence|].
  intros Ho. destruct (A6 Ho) as (_ & Ho1 & E1). destruct (B6 Ho1) as (K & Ho2 & E2).
  do 2 (split; [done|]). by rewrite E2, E1, app_assoc.
Qed.

(** After an error nothing is promised. *)
Lemma writes_error P w1 out1 (ok1 : Prop) w2 out2 (ok2 : Prop) (c c1 : EConn) :
  writes P w1 out1 ok1 c c1 -> ~ ok1 -> (ok2 -> False) -> writes P w2 out2 ok2 c c1.
Proof. intros [A1 A2 A3 A4 A5 A6] Hn Hn2. split; [done..|tauto|done|]. intros Ho. by destruct (A6 Ho) as (? & _). Qed.

Lemma writes_ok P w out (ok ok' : Prop) (c c' : EConn) : (ok <-> ok') -> writes P w out ok c c' -> writes P w out ok' c c'.
Proof. intros Hok [A1 A2 A3 A4 A5 A6]. split; [done..|tauto|done|]. rewrite <- Hok. done. Qed.

(** ** The primitives *)

Lemma set_hs_inv st (c : EConn) : Einv c -> Einv (set_hs st c) /\ estep c (set_hs st c).
Proof. intros [[] ?]. split; [|by split]. split; [by split|done]. Qed.

Lemma wp_writer P w Q (c : EConn) : has P w c -> Q w c -> wp writer Q c.
Proof. intros Hh HQ. unfold writer. wp_steps. rewrite Hh. by apply wp_ret. Qed.

Lemma wp_on_writer P w f (c : EConn) :
  Einv c -> has P w c -> wp (on_writer f) (fun _ c' => writes P (f w) [] True c c') c.
Proof.
  intros Hc Hh. unfold on_writer. wp_steps. eapply wp_writer; [done|]. wp_steps.
  destruct (set_hs_inv ((fun st => mkState _ (parser st) (Some (f w))) <$> hs_state (hstate c)) c Hc) as [I1 S1].
  assert (has P (f w) (set_writer (f w) c)) as Hh1 by (unfold has, set_writer; cbn; by rewrite Hh).
  split; [done|done|by exists (f w)|done|done|]. intros ?. by rewrite app_nil_r.
Qed.

Lemma wp_new_order P w (c : EConn) :
  Einv c -> has P w c -> wp new_order (fun _ c' => writes P w [] True c c') c.
Proof.
  intros Hc Hh. unfold new_order. wp_steps. destruct Hc as [[] ?].
  split; [split; [by split|done]|by split|by exists w|done|done|].
  intros ?. by rewrite app_nil_r.
Qed.

Lemma h1_wp_send P w data (c : EConn) :
  Einv c -> has P w c -> wp (EngConn.Write run_hook data) (fun e c' => writes P w data (e = None) c c') c.
Proof.
  intros Hc Hh. eapply wp_mono; [by apply (wp_Write run_hook any_state)|]. cbn.
  intros e c1 (I1 & S1 & E1 & W1). assert (has P w c1) by (unfold has; by rewrite E1).
  split; [done|done|by exists w|done|by rewrite E1|]. intros [Ho Hk]. by destruct (W1 Ho Hk) as (? & ? & ? & ?).
Qed.

(** ** The methods *)

(** A call that may fail, then the rest: [try m; k]. *)
Lemma wp_try P W1 out1 W2 out2 (m k : go (option eerror)) (c : EConn) :
  wp m (fun e c1 => writes P W1 out1 (e = None) c c1) c ->
  (forall c1, Einv c1 -> has P W1 c1 -> wp k (fun e c2 => writes P W2 out2 (e = None) c1 c2) c1) ->
  wp (check m k) (fun e c2 => writes P W2 (out1 ++ out2) (e = None) c c2) c.
Proof.
  intros Hm Hk. apply wp_check. eapply wp_mono; [exact Hm|]. cbn. intros [e|] c1 Hw.
  - eapply writes_error; [exact Hw|done|done].
  - eapply wp_mono; [apply Hk; [by eapply wr_inv|by eapply wr_has]|]. cbn. intros e c2 Hw2. exact (writes_trans Hw Hw2).
Qed.

Lemma wp_WriteHeader P w code (c : EConn) :
  Einv c -> has P w c ->
  wp (WriteHeader code) (fun _ c' => writes P (if wroteHeader w then w else set_status code true w) [] True c c') c.
Proof. intros Hc Hh. by apply (wp_on_writer P w). Qed.

Lemma wp_writeChunk P w body (c : EConn) :
  Einv c -> has P w c ->
  wp (writeChunk run_hook body) (fun e c' => writes P w (chunk body) (e = None) c c') c.
Proof.
  intros Hc Hh. unfold writeChunk, chunk. rewrite app_assoc.
  apply (wp_try P w _ w); [by apply h1_wp_send|]. intros c1 I1 H1'.
  apply (wp_try P w _ w); [by apply h1_wp_send|]. intros c2 I2 H2'. by apply h1_wp_send.
Qed.

Lemma wp_finish P w (c : EConn) :
  Einv c -> has P w c ->
  wp (finish run_hook) (fun e c' => exists w' out, finishes w w' out /\ writes P w' out (e = None) c c') c.
Proof.
  intros Hc Hh. unfold finish, finishes. wp_steps. eapply wp_writer; [done|].
  destruct (negb (chunked w) || finished w).
  - wp_steps. exists w, []. split; [done|]. by eapply writes_ok, writes_refl.
  - wp_steps. eapply wp_mono; [by eapply wp_on_writer|]. cbn. intros _ c1 W1.
    eapply wp_mono; [eapply (h1_wp_send P (set_finished true w)); [by eapply wr_inv|by eapply wr_has]|]. cbn.
    intros e c2 W2. exists (set_finished true w), last_chunk. split; [done|exact (writes_trans W1 W2)].
Qed.

Lemma wp_flushHeader P w (c : EConn) :
  Einv c -> has P w c ->
  wp (flushHeader run_hook) (fun e c' => exists w' out, flushes w w' out /\ writes P w' out (e = None) c c') c.
Proof.
  intros Hc Hh. unfold flushHeader, flushes. wp_steps. eapply wp_writer; [done|].
  destruct (headerSent w).
  { wp_steps. exists w, []. split; [done|]. by eapply writes_ok, writes_refl. }
  fold (sent_status w) (needs_chunks w). wp_steps. eapply wp_mono; [by eapply wp_on_writer|].
  cbv beta. intros _ c1 W1. set (w1 := set_status _ _ w) in *. apply wp_bind.
  eapply (wp_mono _ (fun _ c' => writes P ((if needs_chunks w then set_chunked true else id) w1) [] True c c')).
  { destruct (needs_chunks w); [|by wp_steps].
    eapply wp_mono; [eapply wp_on_writer; [by eapply wr_inv|by eapply wr_has]|]. cbv beta. intros _ c2 W2.
    exact (writes_trans W1 W2). }
  cbv beta. intros _ c2 W2. set (w2 := (if needs_chunks w then _ else _) w1) in *. wp_steps.
  eapply wp_mono; [apply (wp_new_order P w2); [by eapply wr_inv|by eapply wr_has]|]. cbv beta. intros o c3 W3.
  wp_steps. eapply wp_mono; [eapply wp_on_writer; [by eapply wr_inv|by eapply wr_has]|]. cbv beta. intros _ c4 W4.
  eapply wp_mono; [eapply h1_wp_send; [by eapply wr_inv|by eapply wr_has]|]. cbv beta. intros e c5 W5.
  exists (sent_writer w), (head_bytes w (range o (default ∅ (header w)))). split; [split; [done|]|].
  - eexists. split; [apply range_perm|done].
  - pose proof (writes_trans W2 W3) as W6.
    pose proof (writes_trans W6 W4) as W7.
    exact (writes_trans W7 W5).
Qed.

Lemma wp_Write_body P w body (c : EConn) :
  Einv c -> has P w c ->
  wp (Write run_hook body) (fun r c' => exists w' out,
    flushes (with_200 w) w' out /\ writes P w' (out ++ body_bytes w' body) (snd r = None) c c') c.
Proof.
  intros Hc Hh. unfold Write. wp_steps. eapply wp_writer; [done|]. apply wp_bind.
  eapply (wp_mono _ (fun _ c' => writes P (with_200 w) [] True c c')).
  { unfold with_200. destruct (wroteHeader w) eqn:Hw; cbn.
    - wp_steps. by apply writes_refl.
    - eapply wp_mono; [by eapply wp_WriteHeader|]. cbv beta. rewrite Hw. done. }
  cbv beta. intros _ c1 W1. wp_steps.
  eapply wp_mono; [eapply wp_flushHeader; [by eapply wr_inv|by eapply wr_has]|]. cbv beta.
  intros e c2 (w' & out & Hf & W2). pose proof (writes_trans W1 W2) as W3. cbn in W3.
  destruct e as [e|].
  { wp_steps. exists w', out. split; [done|]. eapply writes_error; [exact W3|done|done]. }
  unfold body_bytes. destruct (zlen body =? 0) eqn:Hz.
  { wp_steps. exists w', out. split; [done|]. rewrite app_nil_r. by eapply writes_ok; [|exact W3]. }
  pose proof (wr_inv _ _ _ _ _ _ W3) as I3. pose proof (wr_has _ _ _ _ _ _ W3 eq_refl) as Hw3.
  wp_steps. eapply wp_writer; [done|]. destruct (chunked w') eqn:Hch.
  - wp_steps. eapply wp_mono; [by eapply wp_writeChunk|]. cbv beta. intros e c3 W4.
    pose proof (writes_trans W3 W4) as W5.
    destruct e as [e|]; wp_steps; exists w', out; rewrite Hch; (split; [done|]); by eapply writes_ok; [|exact W5].
  - wp_steps. eapply wp_mono; [by eapply h1_wp_send|]. cbv beta. intros e c3 W4. wp_steps.
    exists w', out. rewrite Hch. split; [done|]. by eapply writes_ok; [|exact (writes_trans W3 W4)].
Qed.
End Reply.
