(* ===== verification/H1Server.v ===== *)
(** * H1Server

    The protocol of [http/server.go]: [ConnHandler] reads requests from the
    bytes of the [engine], hands them to the handler of the application, ends
    the responses and decides about the connection. *)

From S2P Require Import Prelude GoStd Sock EngConn H1Request H1Writer.

Definition containsFold (s sub : bytes) : bool :=
  if zlen sub =? 0 then true
  else if zlen s <? zlen sub then false
  else existsb (fun i => equalFold (slice i (i + zlen sub) s) sub) (seqZ 0 (zlen s - zlen sub + 1)).

Definition is_1_1 (r : Request) : bool := bool_decide (Proto r = str "HTTP/1.1").

Definition wantClose `{GoMap} (o : Order) (r : Request) : bool :=
  match Get o r (str "Connection") with
  | None => negb (is_1_1 r)
  | Some conn =>
      let hasClose := containsFold conn (str "close") in
      let hasKeepAlive := containsFold conn (str "keep-alive") in
      if hasClose then true
      else if hasKeepAlive && negb (is_1_1 r) then false
      else negb (is_1_1 r)
  end.

(** [handler] and [onUpgrade] of [ConnHandler], with the error values of the
    package as values of the interface [error]. *)
Record ConnHandler `{EngLib} `{HttpParser} `{GoMap} {U : Type} : Type := mkConnHandler {
  ServeHTTP : Request -> M (EngConn.Conn (Http U)) unit;
  onUpgrade : option (Request -> M (EngConn.Conn (Http U)) unit);
  ch_maxHeaderSize : Z;
  ch_error : herror HpError -> ProtoError;
}.
Arguments ConnHandler {_ _ _} U.

Section Server.
Context `{EngLib} `{HttpParser} `{GoMap} {U : Type}.
Notation EConn := (EngConn.Conn (Http U)).
Notation go A := (M EConn A).
Context (run_hook : HookId -> bytes -> go (option eerror)) (ch : ConnHandler U).

Definition newState : connState := mkState _ (NewParser (ch_maxHeaderSize ch)) None.

Definition ConnHandler_OnOpen : go unit :=
  h ← gets hstate;
  match hs_state h with
  | None => modify (set_hs (Some newState))
  | Some _ => mret tt
  end.

Definition state : go unit := ConnHandler_OnOpen.

Definition ConnHandler_OnClose (err : option eerror) : go unit := mret tt.

(** [c.Close]: of the protocol, closing calls [OnClose] only. *)
Definition Conn_Close : go (option eerror) :=
  EngConn.Close (Some (mkHandler _ (mret tt) (fun _ => panic) ConnHandler_OnClose)).

(** A call on [st.parser]. *)
Definition on_parser {A} (f : Parser -> A * Parser) : go A :=
  h ← gets hstate;
  st ← of_option (hs_state h);
  let '(a, p) := f (parser st) in
  modify (set_hs (Some (mkState _ p (st_w st)))) ;;
  mret a.

Definition the_parser : go Parser := on_parser (fun p => (p, p)).

(** [if st.w == nil { st.w = &ResponseWriter{} }; st.w.reset(c)] *)
Definition ready_writer : go unit :=
  h ← gets hstate;
  st ← of_option (hs_state h);
  (match st_w st with
   | None => modify (set_hs (Some (mkState _ (parser st) (Some newWriter))))
   | Some _ => mret tt
   end) ;;
  reset.

Definition writeError (code : Z) : go unit :=
  ready_writer ;;
  WriteHeader code ;;
  WriteRaw run_hook
    (str "HTTP/1.1 " ++ str (fmt_d code) ++ str " " ++ str (StatusText code) ++ crlf ++
     str "Content-Length: 0" ++ crlf ++ str "Connection: close" ++ crlf ++ crlf) ;;
  Conn_Close ;;
  mret tt.

(** A response: the handler, then what it left undone. *)
Definition respond (r : Request) : go (option eerror) :=
  ready_writer ;;
  ServeHTTP ch r ;;
  try flushHeader run_hook;
  finish run_hook.

Definition error (e : herror HpError) : option eerror := Some (EngConn.Proto (ch_error ch e)).

(** A round of [OnData] after [Done]; [next] is the rest of the loop. *)
Definition on_request (next : go (Z * option eerror)) (buf : bytes) (consumed : Z) : go (Z * option eerror) :=
  p ← the_parser;
  r ← of_option (Parser_Request p);
  if Upgrade p then
    match onUpgrade ch with
    | Some f => f r ;; mret (consumed, None)
    | None => writeError 400 ;; mret (consumed, error errNoUpgrade)
    end
  else
    e ← respond r;
    match e with
    | Some e => mret (consumed, Some e)
    | None =>
        p ← the_parser;
        o ← new_order;
        if wantClose o (req (builder p)) then Conn_Close ;; mret (zlen buf, None)
        else on_parser (fun p => (tt, Reset p)) ;; next
    end.

(** The loop of [OnData]; every round takes at least one byte, so the length of
    the buffer plus one is enough fuel. *)
Fixpoint OnData_loop (fuel : nat) (buf : bytes) (consumed : Z) : go (Z * option eerror) :=
  match fuel with
  | O => panic
  | S fuel =>
      if negb (consumed <? zlen buf) then mret (consumed, None)
      else
        rest ← reslice buf consumed (zlen buf);
        o ← new_order;
        r ← on_parser (Parse o rest);
        match snd r with
        | Some e => writeError 400 ;; mret (zlen buf, error e)
        | None =>
            let consumed := consumed + fst r in
            p ← the_parser;
            if negb (Done p) then mret (consumed, None)
            else on_request (OnData_loop fuel buf consumed) buf consumed
        end
  end.

Definition ConnHandler_OnData (buf : bytes) : go (Z * option eerror) :=
  state ;;
  OnData_loop (S (length buf)) buf 0.

Definition http : EngConn.Handler (Http U) :=
  mkHandler _ ConnHandler_OnOpen ConnHandler_OnData ConnHandler_OnClose.

(** The connection that [OnData] closes is the one of this protocol. *)
Lemma Close_http : EngConn.Close (Some http) = Conn_Close.
Proof. done. Qed.
End Server.

Definition NewConnHandler `{EngLib} `{HttpParser} `{GoMap} {U}
    (h : Request -> M (EngConn.Conn (Http U)) unit) (maxHeaderSize : Z) (e : herror HpError -> ProtoError) :
    ConnHandler U :=
  mkConnHandler _ _ _ _ h None maxHeaderSize e.

Definition OnUpgrade `{EngLib} `{HttpParser} `{GoMap} {U}
    (fn : Request -> M (EngConn.Conn (Http U)) unit) (ch : ConnHandler U) : ConnHandler U :=
  mkConnHandler _ _ _ _ (ServeHTTP ch) (Some fn) (ch_maxHeaderSize ch) (ch_error ch).
