(* ===== verification/H1Serve.v ===== *)
(** * H1Serve

    The HTTP/1 server keeps the contract of a protocol of the [engine], and the
    bytes it has taken are whole messages, each one answered, then the beginning
    of a message.  The application is known by its contract, [ServeOk]. *)

From S2P Require Import Prelude GoStd Sock EngConn EngLoop EngEvents EngServe.
From S2P Require Import H1Request H1Parse H1Writer H1Reply H1Server.

(** A writer as [reset] leaves it. *)
Definition blank_writer (w : ResponseWriter) : Prop :=
  default ∅ (header w) = ∅ /\ w = mkWriter (header w) 0 false false true false false.

Section Contract.
Context `{EngLib} `{!EngLaws} `{HttpParser} `{GoMap} {U : Type}.
Notation EConn := (EngConn.Conn (Http U)).
Notation Einv := (Einv (fun _ : Http U => True)).
Context (ch : ConnHandler U).
(** [served u r w out w' u']: the handler, in state [u] and with the writer [w],
    answers [r] by writing [out]. *)
Context (served : U -> Request -> ResponseWriter -> bytes -> ResponseWriter -> U -> Prop).

Class ServeOk : Prop := {
  serve_ok r P w (c : EConn) : Einv c -> has P w c ->
    wp (ServeHTTP ch r) (fun _ c' => Einv c' /\ estep c c' /\ (exists P' w', has P' w' c') /\
      (plain_open c -> closed c' = false -> plain_open c' /\
       exists w' out, has P w' c' /\ written c' = written c ++ out /\
                      served (hs_user (hstate c)) r w out w' (hs_user (hstate c')))) c;
  upgrade_ok f r (c : EConn) : onUpgrade ch = Some f -> Einv c -> is_Some (hs_state (hstate c)) ->
    wp (f r) (fun _ c' => Einv c' /\ estep c c' /\
      (plain_open c -> closed c' = false ->
       exists st st' out, hs_state (hstate c) = Some st /\ hs_state (hstate c') = Some st' /\
         parser st' = parser st /\ written c' = written c ++ out)) c;
}.

(** A whole response: what the handler writes, the header if it is still
    missing, the last chunk. *)
Definition answers (u : U) (r : Request) (out : bytes) (u' : U) : Prop :=
  exists w0 w1 w2 w3 out1 out2 out3,
    blank_writer w0 /\ served u r w0 out1 w1 u' /\ flushes w1 w2 out2 /\ finishes w2 w3 out3 /\
    out = out1 ++ out2 ++ out3.

(** Requests in order, each with its message and its response. *)
Inductive exchanges (k : Z) (u : U) : list (bytes * Request * bytes) -> U -> Prop :=
  | exchanges_nil : exchanges k u [] u
  | exchanges_snoc xs u1 m r out u2 o :
      exchanges k u xs u1 -> parses k m r false -> wantClose o r = false -> answers u1 r out u2 ->
      exchanges k u (xs ++ [(m, r, out)]) u2.

Definition messages (xs : list (bytes * Request * bytes)) : bytes := concat ((fun x => fst (fst x)) <$> xs).
Definition replies (xs : list (bytes * Request * bytes)) : bytes := concat (snd <$> xs).

Lemma messages_snoc xs m r out : messages (xs ++ [(m, r, out)]) = messages xs ++ m.
Proof. unfold messages. rewrite fmap_app, concat_app. cbn. by rewrite app_nil_r. Qed.
Lemma replies_snoc xs m r out : replies (xs ++ [(m, r, out)]) = replies xs ++ out.
Proof. unfold replies. rewrite fmap_app, concat_app. cbn. by rewrite app_nil_r. Qed.

(** The state of the protocol after it has taken [taken] and written [given]:
    between two reads, or given up to an upgrade. *)
Definition serving (k : Z) (u0 : U) (h : Http U) (taken given : bytes) (hook : option HookId) : Prop :=
  exists xs P w, hs_state h = Some (mkState _ P w) /\
    ((hook = None /\ exists part, reading k P part /\ exchanges k u0 xs (hs_user h) /\
        taken = messages xs ++ part /\ given = replies xs) \/
     (is_done P = true /\ exists u m r more, exchanges k u0 xs u /\ parses k m r true /\
        taken = messages xs ++ m /\ given = replies xs ++ more)).
End Contract.

Section Serve.
Context `{EngLib} `{!EngLaws} `{HttpParser} `{!HttpParserLaws} `{GoMap} `{!GoMapLaws} {U : Type}.
Notation EConn := (EngConn.Conn (Http U)).
Notation go A := (M EConn A).
Notation any_state := (fun _ : Http U => True).
Notation Einv := (Einv any_state).
Context (run_hook : HookId -> bytes -> go (option eerror)) (ch : ConnHandler U).
Context (served : U -> Request -> ResponseWriter -> bytes -> ResponseWriter -> U -> Prop).
Context `{!HookOk run_hook any_state}
  (hook_keeps : forall h data, keeps hstate (run_hook h data)) `{!ServeOk ch served}.
Notation has := (has (U := U)).

(** ** The pieces of [OnData] *)

Lemma set_http_inv h (c : EConn) : Einv c -> Einv (set_hstate h c) /\ estep c (set_hstate h c).
Proof. intros [[] ?]. split; [|by split]. split; [by split|done]. Qed.

#[export] Instance closing_ok :
  CloseOk (Some (mkHandler (Http U) (mret tt) (fun _ => panic) ConnHandler_OnClose)) any_state.
Proof. intros err c Hc. by apply wp_ret. Qed.

Lemma h1_wp_Conn_Close (c : EConn) :
  Einv c -> wp Conn_Close (fun _ c' => Einv c' /\ estep c c' /\ closed c' = true) c.
Proof.
  intros Hc. unfold Conn_Close, Close. wp_steps. eapply wp_mono; [by apply (wp_closeWith _ any_state)|].
  cbn. intros _ c' ?. by wp_steps.
Qed.

(** The state from which a response starts. *)
Lemma wp_ready_writer st (c : EConn) :
  Einv c -> hs_state (hstate c) = Some st ->
  wp ready_writer (fun _ c' => exists w, blank_writer w /\ writes (parser st) w [] True c c') c.
Proof.
  intros Hc Hst. unfold ready_writer. wp_steps. rewrite Hst. cbn [of_option]. wp_step. apply wp_bind.
  eapply (wp_mono _ (fun _ c1 => exists w1, writes (parser st) w1 [] True c c1)).
  { destruct (st_w st) as [w|] eqn:Hw; wp_steps.
    - exists w. apply writes_refl; [done|]. unfold has. rewrite Hst.
      by destruct st; cbn in *; subst.
    - exists newWriter.
      destruct (set_hs_inv (Some (mkState _ (parser st) (Some newWriter))) c Hc) as [I1 S1].
      split; [done|done|by eexists|done|done|]. intros [? ?]. rewrite app_nil_r. by repeat split. }
  cbv beta. intros _ c1 [w1 W1]. unfold reset.
  eapply wp_mono; [eapply wp_on_writer; [by eapply wr_inv|by eapply wr_has]|]. cbv beta. intros _ c2 W2.
  eexists. split; [|exact (writes_trans W1 W2)]. unfold blank_writer. cbn. by destruct (header w1).
Qed.

Lemma wp_writeError st code (c : EConn) :
  Einv c -> hs_state (hstate c) = Some st ->
  wp (writeError run_hook code) (fun _ c' => Einv c' /\ estep c c' /\ closed c' = true) c.
Proof.
  intros Hc Hst. unfold writeError. wp_steps. eapply wp_mono; [by eapply wp_ready_writer|].
  cbv beta. intros _ c1 (w & _ & W1). wp_steps.
  eapply wp_mono; [eapply wp_WriteHeader; [by eapply wr_inv|by eapply wr_has]|]. cbv beta. intros _ c2 W2.
  unfold WriteRaw. wp_steps. eapply wp_mono; [eapply (h1_wp_send run_hook hook_keeps); [by eapply wr_inv|by eapply wr_has]|].
  cbv beta. intros e c3 W3. wp_steps. pose proof (writes_trans (writes_trans W1 W2) W3) as W4.
  eapply wp_mono; [apply h1_wp_Conn_Close; by eapply wr_inv|]. cbv beta. intros _ c4 (I4 & S4 & C4). wp_steps.
  split; [done|]. split; [|done]. transitivity c3; [by eapply wr_step|done].
Qed.

Lemma wp_respond st r (c : EConn) :
  Einv c -> hs_state (hstate c) = Some st ->
  wp (respond run_hook ch r) (fun e c' => Einv c' /\ estep c c' /\ (exists P' w', has P' w' c') /\
    (plain_open c -> closed c' = false -> e = None /\ plain_open c' /\
     exists w' out, has (parser st) w' c' /\ written c' = written c ++ out /\
       answers served (hs_user (hstate c)) r out (hs_user (hstate c')))) c.
Proof.
  intros Hc Hst. unfold respond. wp_steps. eapply wp_mono; [by eapply wp_ready_writer|].
  cbv beta. intros _ c1 (w0 & Hw0 & W1). wp_steps.
  eapply wp_mono; [eapply (serve_ok ch served); [by eapply wr_inv|by eapply wr_has]|].
  cbv beta. intros _ c2 (I2 & S2 & (P2 & w2 & H2') & G2). wp_steps.
  eapply wp_mono; [by apply (wp_flushHeader run_hook hook_keeps)|]. cbv beta.
  intros e c3 (w3 & out3 & Hf & W3).
  assert (plain_open c -> closed c2 = false -> plain_open c2 /\ P2 = parser st /\ exists out2,
    written c2 = written c ++ out2 /\ served (hs_user (hstate c)) r w0 out2 w2 (hs_user (hstate c2))) as G.
  { intros Ho Ho2. destruct (wr_out _ _ _ _ _ _ W1 Ho) as (_ & Ho1 & E1). rewrite app_nil_r in E1.
    destruct (G2 Ho1 Ho2) as (Hp2 & w' & out2 & Hh & E2 & Hs). split; [done|].
    unfold H1Reply.has in Hh, H2'. rewrite Hh in H2'. injection H2' as <- <-. split; [done|]. exists out2.
    rewrite E2, E1. split; [done|]. by rewrite <- (wr_user _ _ _ _ _ _ W1). }
  assert (estep c c3) as S3.
  { transitivity c1; [by eapply wr_step|]. transitivity c2; [done|by eapply wr_step]. }
  assert (closed c3 = false -> closed c2 = false) as Hback.
  { intros Ho3. pose proof (es_closed _ _ (wr_step _ _ _ _ _ _ W3)). destruct (closed c2); [|done].
    symmetry. rewrite <- Ho3. auto. }
  destruct e as [e|].
  { split; [by eapply wr_inv|]. split; [done|].
    split; [destruct (wr_some _ _ _ _ _ _ W3); eauto|]. intros Ho Ho3.
    destruct (G Ho (Hback Ho3)) as (Hp2 & _). by destruct (wr_out _ _ _ _ _ _ W3 Hp2). }
  eapply wp_mono; [eapply (wp_finish run_hook hook_keeps); [by eapply wr_inv|by eapply wr_has]|]. cbv beta.
  intros e c4 (w4 & out4 & Hfin & W4). pose proof (writes_trans W3 W4) as W5.
  split; [by eapply wr_inv|]. split; [transitivity c3; [done|by eapply wr_step]|].
  split; [destruct (wr_some _ _ _ _ _ _ W4); eauto|]. intros Ho Ho4.
  assert (closed c3 = false) as Ho3.
  { pose proof (es_closed _ _ (wr_step _ _ _ _ _ _ W4)). destruct (closed c3); [|done].
    symmetry. rewrite <- Ho4. auto. }
  destruct (G Ho (Hback Ho3)) as (Hp2 & -> & out2 & E2 & Hs).
  destruct (wr_out _ _ _ _ _ _ W5 Hp2) as (-> & Hp4 & E4). split; [done|]. split; [done|].
  exists w4, (out2 ++ out3 ++ out4). split; [by apply (wr_has _ _ _ _ _ _ W5)|].
  split; [by rewrite E4, E2, <- app_assoc|]. exists w0, w2, w3, w4, out2, out3, out4.
  rewrite (wr_user _ _ _ _ _ _ W5). by split_and!.
Qed.
(** The calls on the parser. *)
Lemma wp_new_order' st (c : EConn) Q :
  Einv c -> hs_state (hstate c) = Some st ->
  (forall o h, Einv (set_hstate h c) -> estep c (set_hstate h c) -> hs_state h = Some st ->
     hs_user h = hs_user (hstate c) -> Q o (set_hstate h c)) ->
  wp new_order Q c.
Proof.
  intros Hc Hst HQ. unfold new_order. wp_steps.
  destruct (set_http_inv (mkHttp _ _ _ (hs_state (hstate c)) (next_order (hs_order (hstate c))) (hs_user (hstate c))) c Hc).
  by apply HQ.
Qed.

Lemma wp_on_parser {A} st (f : Parser -> A * Parser) (c : EConn) Q :
  Einv c -> hs_state (hstate c) = Some st ->
  (forall h, Einv (set_hstate h c) -> estep c (set_hstate h c) ->
     hs_state h = Some (mkState _ (snd (f (parser st))) (st_w st)) ->
     hs_user h = hs_user (hstate c) -> Q (fst (f (parser st))) (set_hstate h c)) ->
  wp (on_parser f) Q c.
Proof.
  intros Hc Hst HQ. unfold on_parser. wp_steps. rewrite Hst. cbn [of_option]. wp_step.
  destruct (f (parser st)) as [a p]. wp_steps. unfold set_hs.
  destruct (set_http_inv (mkHttp _ _ _ (Some (mkState _ p (st_w st))) (hs_order (hstate c)) (hs_user (hstate c))) c Hc).
  by apply HQ.
Qed.

(** ** The loop *)

Definition max_header : Z := maxHeaderSize (NewParser (ch_maxHeaderSize ch)).
Notation k := max_header.
Context (u0 : U).
Notation rel_at c taken := (serving served k u0 (hstate c) taken (written c) (writeHookFn c)).

(** [serving] along one call of [Parse]. *)
Lemma serving_parse st o a n p' h taken given hook :
  serving served k u0 h taken given hook -> hs_state h = Some st -> Parse o a (parser st) = ((n, None), p') ->
  exists xs part, hook = None /\ exchanges served k u0 xs (hs_user h) /\ given = replies xs /\
    taken = messages xs ++ part /\ 0 <= n /\
    ((Done p' = false /\ reading k p' (part ++ upto n a)) \/
     (Done p' = true /\ maxHeaderSize p' = k /\ parses k (part ++ upto n a) (req (builder p')) (upgrade p'))).
Proof.
  intros (xs & P & w & Hst & [(-> & part & Hr & Hx & -> & ->)|(Hd & _)]) Hst' HP; rewrite Hst in Hst';
    injection Hst' as <-; cbn in HP.
  - exists xs, part. do 4 (split; [done|]). pose proof (Parse_spec k P part o a Hr) as Hs. rewrite HP in Hs.
    destruct (Hs eq_refl) as [(? & [? _] & ?)|(? & [? _] & ? & ?)]; cbn in *; (split; [lia|]); auto.
  - unfold Parse in HP. by rewrite Hd in HP.
Qed.

Lemma serving_waits st o a n p' h h' taken given hook :
  serving served k u0 h taken given hook -> hs_state h = Some st -> Parse o a (parser st) = ((n, None), p') ->
  Done p' = false -> hs_state h' = Some (mkState _ p' (st_w st)) -> hs_user h' = hs_user h ->
  serving served k u0 h' (taken ++ upto n a) given hook.
Proof.
  intros Hs Hst HP Hd Hst' Hu.
  destruct (serving_parse _ _ _ _ _ _ _ _ _ Hs Hst HP) as (xs & part & -> & Hx & -> & -> & Hn & [[_ Hr]|[? _]]); [|congruence].
  exists xs, p', (st_w st). split; [done|]. left. split; [done|]. exists (part ++ upto n a). rewrite Hu.
  do 2 (split; [done|]). by rewrite app_assoc.
Qed.

Lemma serving_answered st o a n p' o' out h h' w taken given hook :
  serving served k u0 h taken given hook -> hs_state h = Some st -> Parse o a (parser st) = ((n, None), p') ->
  Done p' = true -> upgrade p' = false -> wantClose o' (req (builder p')) = false ->
  answers served (hs_user h) (req (builder p')) out (hs_user h') ->
  hs_state h' = Some (mkState _ (Reset p') w) ->
  serving served k u0 h' (taken ++ upto n a) (given ++ out) None.
Proof.
  intros Hs Hst HP Hd Hup Hwc Ha Hst'.
  destruct (serving_parse _ _ _ _ _ _ _ _ _ Hs Hst HP) as (xs & part & -> & Hx & -> & -> & Hn & [[? _]|(_ & Hm & Hp)]);
    [congruence|]. rewrite Hup in Hp.
  exists (xs ++ [(part ++ upto n a, req (builder p'), out)]), (Reset p'), w. split; [done|]. left. split; [done|].
  exists []. split; [rewrite Reset_start, Hm; apply reading_start|]. split; [by econstructor|].
  rewrite messages_snoc, replies_snoc. by rewrite app_nil_r, app_assoc.
Qed.

Lemma serving_upgraded st st' o a n p' more h h' taken given hook hook' :
  serving served k u0 h taken given hook -> hs_state h = Some st -> Parse o a (parser st) = ((n, None), p') ->
  Done p' = true -> upgrade p' = true -> hs_state h' = Some st' -> parser st' = p' ->
  serving served k u0 h' (taken ++ upto n a) (given ++ more) hook'.
Proof.
  intros Hs Hst HP Hd Hup Hst' <-.
  destruct (serving_parse _ _ _ _ _ _ _ _ _ Hs Hst HP) as (xs & part & -> & Hx & -> & -> & Hn & [[? _]|(_ & Hm & Hp)]);
    [congruence|]. rewrite Hup in Hp.
  exists xs, (parser st'), (st_w st'). split; [by destruct st'|]. right. split; [done|].
  exists (hs_user h), (part ++ upto n a), (req (builder (parser st'))), more. by rewrite app_assoc.
Qed.

(** The result of [OnData] after the first [n] bytes of [buf]; [taken] was
    taken before. *)
Definition data_post (c : EConn) (taken buf : bytes) (n : Z) (res : Z * option eerror) (c' : EConn) : Prop :=
  Einv c' /\ estep c c' /\
  (closed c = false -> rel_at c (taken ++ upto n buf) -> closed c' = false -> snd res = None ->
   rel_at c' (taken ++ upto (fst res) buf)).

(** When the connection is closed or there is an error nothing is promised. *)
Lemma data_post_stop c taken buf n res c' :
  Einv c' -> estep c c' -> closed c' = true \/ snd res <> None -> data_post c taken buf n res c'.
Proof. intros I S Hor. split; [done|]. split; [done|]. intros _ _ ? ?. destruct Hor; congruence. Qed.

Lemma upto_from_app a n (buf : bytes) :
  0 <= a <= zlen buf -> 0 <= n -> upto a buf ++ upto n (from a buf) = upto (a + n) buf.
Proof.
  intros Ha Hn. rewrite <- (upto_from a (upto (a + n) buf)). unfold upto, from, zlen in *.
  rewrite take_take, skipn_firstn_comm. f_equal; f_equal; lia.
Qed.

(** A whole request is there: from [c0] the call of [Parse] led to [c]. *)
Lemma wp_on_request next buf taken consumed n o st p' (c0 c : EConn) h :
  hs_state (hstate c0) = Some st -> Parse o (from consumed buf) (parser st) = ((n, None), p') ->
  Done p' = true -> 0 <= consumed <= zlen buf -> 0 < n ->
  c = set_hstate h c0 -> Einv c -> estep c0 c -> hs_state h = Some (mkState _ p' (st_w st)) ->
  hs_user h = hs_user (hstate c0) ->
  (forall c', Einv c' -> is_Some (hs_state (hstate c')) -> wp next (data_post c' taken buf (consumed + n)) c') ->
  wp (on_request run_hook ch next buf (consumed + n)) (data_post c0 taken buf consumed) c.
Proof.
  intros Hst HP Hd Hcons Hn Hc I0 S0 Hh Hu Hnext. unfold on_request, the_parser. subst c. wp_steps.
  eapply wp_on_parser; [done..|]. cbn [fst snd parser st_w hstate set_hstate]. intros h1 I1 S1 Hst1 Hu1.
  unfold Parser_Request. unfold Done in Hd. rewrite Hd. cbn [negb of_option]. wp_steps.
  pose proof (transitivity S0 S1) as S01. set (c1 := set_hstate h1 _) in *.
  assert (rel_at c0 (taken ++ upto consumed buf) -> closed c0 = false -> plain_open c1) as Hplain.
  { intros (xs & P & w & HP1 & [[Hk _]|[Hd' _]]) Ho; [done|]. rewrite Hst in HP1. injection HP1 as ->.
    unfold Parse in HP. cbn in HP. by rewrite Hd' in HP. }
  unfold Upgrade. destruct (upgrade p') eqn:Hup.
  - destruct (onUpgrade ch) as [f|] eqn:Hf.
    + wp_steps. eapply wp_mono; [eapply (upgrade_ok ch served); [done|done|by exists (mkState _ p' (st_w st))]|]. cbv beta.
      intros _ c2 (I2 & S2 & G). wp_steps. split; [done|]. split; [by transitivity c1|]. cbn [fst snd].
      intros Ho Hr Ho2 _. destruct (G (Hplain Hr Ho) Ho2) as (st1 & st2 & out & E1 & E2 & Ep & ->).
      change (hs_state h1 = Some st1) in E1. rewrite Hst1 in E1. injection E1 as <-. rewrite <- upto_from_app, app_assoc by lia.
      by eapply serving_upgraded.
    + wp_steps. eapply wp_mono; [by eapply wp_writeError|]. cbv beta. intros _ c2 (I2 & S2 & C2). wp_steps.
      apply data_post_stop; [done|by transitivity c1|by left].
  - wp_steps. eapply wp_mono; [by eapply wp_respond|]. cbv beta. intros e c2 (I2 & S2 & (P2 & w2 & H2') & G).
    pose proof (transitivity S01 S2) as S02. destruct e as [e|].
    { wp_steps. apply data_post_stop; [done|done|by right]. }
    wp_steps. eapply wp_on_parser; [done..|]. cbn [fst snd parser st_w]. intros h3 I3 S3 Hst3 Hu3. wp_steps.
    eapply wp_new_order'; [done..|]. cbn [hstate set_hstate]. intros o' h4 I4 S4 Hst4 Hu4.
    pose proof (transitivity S02 (transitivity S3 S4)) as S04. set (c4 := set_hstate h4 _) in *.
    destruct (wantClose o' (req (builder P2))) eqn:Hwc.
    { wp_steps. eapply wp_mono; [by apply h1_wp_Conn_Close|]. cbv beta. intros _ c5 (I5 & S5 & C5). wp_steps.
      apply data_post_stop; [done|by transitivity c4|by left]. }
    wp_steps. eapply wp_on_parser; [done..|]. cbn [fst snd parser st_w]. intros h5 I5 S5 Hst5 Hu5.
    pose proof (transitivity S04 S5) as S05. set (c5 := set_hstate h5 _) in *.
    eapply wp_mono; [apply Hnext; [done|by eexists]|]. cbv beta. intros res c6 (I6 & S6 & R6).
    split; [done|]. split; [by transitivity c5|]. intros Ho Hr Ho6 Hres.
    assert (closed c2 = false) as Ho2.
    { destruct (closed c2) eqn:E; [|done]. rewrite <- Ho6. symmetry. apply S6, S5, S4, S3. done. }
    destruct (G (Hplain Hr Ho) Ho2) as (_ & [_ Hk2] & w' & out & Hh2 & Hw & Ha).
    unfold H1Reply.has in H2', Hh2. rewrite H2' in Hh2. injection Hh2 as -> ->. apply R6; [done| |done|done].
    change (written c5) with (written c2). change (writeHookFn c5) with (writeHookFn c2). rewrite Hk2, Hw.
    rewrite <- upto_from_app, app_assoc by lia. eapply serving_answered; [done|done|done|done|done|done| |done].
    change (hs_user h5 = hs_user h4) in Hu5. change (answers served (hs_user (hstate c0)) (req (builder p')) out (hs_user h5)).
    by rewrite Hu5, Hu4, Hu3, <- Hu, <- Hu1.
Qed.

(** A round of the loop up to the result of [Parse]. *)
Lemma wp_round fuel buf consumed st (c : EConn) Q :
  Einv c -> hs_state (hstate c) = Some st -> 0 <= consumed < zlen buf ->
  (forall o h n err p', Parse o (from consumed buf) (parser st) = ((n, err), p') ->
     Einv (set_hstate h c) -> estep c (set_hstate h c) -> hs_state h = Some (mkState _ p' (st_w st)) ->
     hs_user h = hs_user (hstate c) ->
     wp (match err with
         | Some e => writeError run_hook 400 ;; mret (zlen buf, error ch e)
         | None =>
             if negb (Done p') then mret (consumed + n, None)
             else on_request run_hook ch (OnData_loop run_hook ch fuel buf (consumed + n)) buf (consumed + n)
         end) Q (set_hstate h c)) ->
  wp (OnData_loop run_hook ch (S fuel) buf consumed) Q c.
Proof.
  intros Hc Hst Hn HQ. cbn [OnData_loop]. replace (consumed <? zlen buf) with true by lia. cbn [negb].
  wp_steps. apply wp_reslice; [lia|lia|]. replace (slice consumed (zlen buf) buf) with (from consumed buf)
    by (rewrite slice_upto_from, upto_all; [done|rewrite zlen_from; lia]).
  wp_steps. eapply wp_new_order'; [done..|]. intros o h1 I1 S1 Hst1 Hu1. wp_steps.
  eapply wp_on_parser; [done..|]. cbn [hstate set_hstate]. intros h2 I2 S2 Hst2 Hu2.
  destruct (Parse o (from consumed buf) (parser st)) as [[n err] p'] eqn:HP. cbn [fst snd hstate set_hstate] in *.
  destruct err as [e|].
  - apply (HQ o h2 n (Some e) p' HP I2 (transitivity S1 S2) Hst2). congruence.
  - wp_steps. eapply wp_on_parser; [done..|]. intros h3 I3 S3 Hst3 Hu3. cbn [fst snd parser st_w hstate set_hstate] in *.
    apply (HQ o h3 n None p' HP I3 (transitivity S1 (transitivity S2 S3)) Hst3). congruence.
Qed.

Lemma wp_OnData_loop buf taken fuel : forall consumed (c : EConn),
  Einv c -> is_Some (hs_state (hstate c)) -> 0 <= consumed <= zlen buf ->
  (Z.to_nat (zlen buf - consumed) < fuel)%nat ->
  wp (OnData_loop run_hook ch fuel buf consumed) (data_post c taken buf consumed) c.
Proof.
  induction fuel as [|fuel IH]; intros consumed c Hc [st Hst] Hn Hf; [lia|].
  destruct (Z.lt_ge_cases consumed (zlen buf)) as [Hlt|Hge].
  2: { cbn [OnData_loop]. replace (consumed <? zlen buf) with false by lia. by wp_steps. }
  apply (wp_round _ _ _ st); [done|done|lia|]. intros o h n err p' HP I1 S1 Hst1 Hu.
  destruct err as [e|].
  { wp_steps. eapply wp_mono; [by eapply wp_writeError|]. cbv beta. intros _ c3 (I3 & S3 & C3). wp_steps.
    apply data_post_stop; [done|by etransitivity|by left]. }
  pose proof (Parse_bounds o (from consumed buf) (parser st)) as Hbound. rewrite HP in Hbound.
  specialize (Hbound eq_refl). cbn [fst] in Hbound. rewrite zlen_from in Hbound by lia.
  destruct (Done p') eqn:Hd; cbn [negb].
  - eapply (wp_on_request _ _ _ _ _ o st p' c _ h); try done; [lia|].
    intros c' I' Hst'. apply IH; [done|done|lia|lia].
  - wp_steps. split; [done|]. split; [done|]. intros Ho Hr Ho3 _. cbn [fst].
    destruct (serving_parse _ _ _ _ _ _ _ _ _ Hr Hst HP) as (_ & _ & _ & _ & _ & _ & Hn0 & _).
    rewrite <- upto_from_app, app_assoc by lia. by eapply (serving_waits st o _ _ p' (hstate c)).
Qed.

(** ** The contract of the engine *)

Lemma wp_state (c : EConn) :
  Einv c -> wp (state ch) (fun _ c1 => Einv c1 /\ estep c c1 /\ is_Some (hs_state (hstate c1)) /\
    (is_Some (hs_state (hstate c)) -> c1 = c) /\
    (hs_state (hstate c) = None -> c1 = set_hs (Some (newState ch)) c)) c.
Proof.
  intros Hc. unfold state, ConnHandler_OnOpen. wp_steps.
  destruct (hs_state (hstate c)) as [st|] eqn:Hst; wp_steps.
  - split; [done|]. split; [done|]. rewrite Hst. split; [by eexists|done].
  - destruct (set_hs_inv (Some (newState ch)) c Hc) as [I1 S1]. split; [done|]. split; [done|].
    split; [by eexists|]. split; [intros [? ?]; congruence|done].
Qed.

#[export] Instance http_ok o :
  HandlerOk (Some (http run_hook ch)) any_state (mkHttp _ _ _ None o u0) (serving served k u0).
Proof.
  split.
  - intros err c Hc. by apply wp_ret.
  - intros c Hc. cbn. eapply wp_mono; [by apply wp_state|]. cbv beta. intros _ c1 (I1 & S1 & _ & _ & E1).
    split; [done|]. split; [done|]. intros _ Hh Hcs Hwr Hk. rewrite Hh in E1. rewrite (E1 eq_refl).
    intros _. cbn. rewrite Hcs, Hwr, Hk, Hh. exists [], (NewParser (ch_maxHeaderSize ch)), None.
    split; [done|]. left. split; [done|]. exists [].
    split; [apply reading_start|]. split; [constructor|done].
  - intros buf c Hc Hb. cbn. unfold ConnHandler_OnData. wp_steps. eapply wp_mono; [by apply wp_state|].
    cbv beta. intros _ c1 (I1 & S1 & Hst1 & E1 & _). pose proof (zlen_nonneg buf).
    eapply wp_mono; [apply (wp_OnData_loop buf (consumed c)); [done|done|lia|unfold zlen; lia]|]. cbv beta.
    intros res c2 (I2 & S2 & R2). split; [done|]. split; [by transitivity c1|].
    intros Ho Hr Ho2 Hres. specialize (Hr Ho).
    assert (c1 = c) as -> by (apply E1; destruct Hr as (? & ? & ? & -> & _); by eexists).
    apply R2; [done| |done|done]. by rewrite upto_neg, app_nil_r.
Qed.
End Serve.
