(* ===== verification/H1Pipeline.v ===== *)
(** * H1Pipeline

    Applications that answer with the methods of the [ResponseWriter]: the
    response as a value, its bytes on the wire, and a client that reads the body
    back from the chunks.  Pipelining: one call of [OnData] answers every request
    that the buffer contains, and keeps the beginning of the next one. *)

From S2P Require Import Prelude Sock GoStd EngConn EngLoop H1Request H1Parse H1Writer.
From S2P Require Import H1Reply H1Server H1Serve.

(** ** The response as a value *)

Inductive rw_op : Type :=
  | OpSetHeader (name : bytes) (values : list bytes)
  | OpWriteHeader (code : Z)
  | OpWrite (body : bytes).

Record response : Type := mkResponse {
  rs_code : Z;
  rs_header : gmap bytes (list bytes);
  rs_writes : list bytes;
}.

Definition writes_of (ops : list rw_op) : list bytes :=
  omap (fun op => match op with OpWrite ((_ :: _) as b) => Some b | _ => None end) ops.

(** The status is the first one that was set, the header is the one at the first
    write. *)
Fixpoint response_of (ops : list rw_op) (hdr : gmap bytes (list bytes)) (code : option Z) : response :=
  match ops with
  | [] => mkResponse (default 200 code) hdr []
  | OpSetHeader name values :: ops => response_of ops (<[name := values]> hdr) code
  | OpWriteHeader c :: ops =>
      response_of ops hdr (Some (default (if c =? 0 then 200 else c) code))
  | OpWrite _ :: _ => mkResponse (default 200 code) hdr (writes_of ops)
  end.

Definition rs_chunked (rs : response) : bool :=
  negb (hasContentLength (rs_header rs)) && negb (bodylessStatus (rs_code rs)).

Definition rs_head (rs : response) (l : list (bytes * list bytes)) : bytes :=
  str "HTTP/1.1 " ++ str (fmt_d (rs_code rs)) ++ str " " ++ str (StatusText (rs_code rs)) ++ crlf ++
  (if rs_chunked rs then str "Transfer-Encoding: chunked" ++ crlf else []) ++ header_lines l ++ crlf.

Definition rs_body (rs : response) : bytes :=
  if rs_chunked rs then concat (chunk <$> rs_writes rs) ++ last_chunk else concat (rs_writes rs).

(** ** Runs of the writer *)

Inductive ops_run : list rw_op -> ResponseWriter -> bytes -> ResponseWriter -> Prop :=
  | run_nil w : ops_run [] w [] w
  | run_set name values ops w out w' :
      ops_run ops (set_header (Some (<[name := values]> (default ∅ (header w)))) w) out w' ->
      ops_run (OpSetHeader name values :: ops) w out w'
  | run_code code ops w out w' :
      ops_run ops (if wroteHeader w then w else set_status code true w) out w' ->
      ops_run (OpWriteHeader code :: ops) w out w'
  | run_write body ops w w1 out1 out w' :
      flushes (with_200 w) w1 out1 -> ops_run ops w1 out w' ->
      ops_run (OpWrite body :: ops) w (out1 ++ body_bytes w1 body ++ out) w'.

Definition framing (w : ResponseWriter) : bytes -> bytes := if chunked w then chunk else id.

Lemma writes_of_cons body ops :
  writes_of (OpWrite body :: ops) = (if zlen body =? 0 then [] else [body]) ++ writes_of ops.
Proof.
  destruct body as [|x body]; [done|]. rewrite zlen_cons. pose proof (zlen_nonneg body).
  destruct (Z.eqb_spec (1 + zlen body) 0); [lia|done].
Qed.

Lemma body_bytes_cons w body ops :
  body_bytes w body ++ concat (framing w <$> writes_of ops) = concat (framing w <$> writes_of (OpWrite body :: ops)).
Proof.
  rewrite writes_of_cons. unfold body_bytes, framing. destruct (zlen body =? 0); [done|].
  by destruct (chunked w).
Qed.

(** After the header only the body is written. *)
Lemma ops_run_sent ops w out w' :
  ops_run ops w out w' -> headerSent w = true -> wroteHeader w = true ->
  out = concat (framing w <$> writes_of ops) /\
  headerSent w' = true /\ chunked w' = chunked w /\ finished w' = finished w.
Proof.
  induction 1 as [w|name values ops w out w' _ IH|code ops w out w' _ IH|body ops w w1 out1 out w' Hf _ IH];
    intros Hs Hw.
  - done.
  - by apply IH.
  - rewrite Hw in IH. by apply IH.
  - unfold flushes, with_200 in Hf. rewrite Hw, Hs in Hf. destruct Hf as [-> ->].
    destruct (IH Hs Hw) as (-> & ?). split; [|done]. apply body_bytes_cons.
Qed.

(** What the status will be. *)
Definition status_of (w : ResponseWriter) : option Z :=
  if wroteHeader w then Some (sent_status w) else None.

(** A writer before its first byte. *)
Definition pending (w : ResponseWriter) : Prop :=
  headerSent w = false /\ chunked w = false /\ finished w = false /\ (wroteHeader w = false -> statusCode w = 0).

Lemma pending_with_200 w :
  pending w -> pending (with_200 w) /\ header (with_200 w) = header w /\ wroteHeader (with_200 w) = true /\
  sent_status (with_200 w) = default 200 (status_of w).
Proof.
  intros (? & ? & ? & ?). unfold with_200, pending, status_of. destruct (wroteHeader w) eqn:Hw; split_and!; try done;
    congruence.
Qed.

Lemma sent_writer_fields w :
  pending w -> headerSent (sent_writer w) = true /\ wroteHeader (sent_writer w) = wroteHeader w /\
  finished (sent_writer w) = false /\ chunked (sent_writer w) = needs_chunks w.
Proof. intros (? & ? & ? & ?). unfold sent_writer. by destruct (needs_chunks w); split_and!. Qed.

(** From the header on. *)
Lemma sent_response w l ops out w' w3 out3 :
  pending w -> wroteHeader w = true \/ ops = [] -> ops_run ops (sent_writer w) out w' -> finishes w' w3 out3 ->
  let rs := mkResponse (sent_status w) (default ∅ (header w)) (writes_of ops) in
  head_bytes w l ++ out ++ out3 = rs_head rs l ++ rs_body rs.
Proof.
  intros Hp Hor Hrun Hfin rs. destruct (sent_writer_fields w Hp) as (E1 & E2 & E3 & E4).
  assert (out = concat (framing (sent_writer w) <$> writes_of ops) /\ headerSent w' = true /\
    chunked w' = chunked (sent_writer w) /\ finished w' = finished (sent_writer w)) as (-> & _ & F2 & F3).
  { destruct Hor as [Hw| ->]; [apply (ops_run_sent _ _ _ _ Hrun); congruence|]. by inversion Hrun. }
  unfold finishes in Hfin. rewrite F2, F3, E3, E4, orb_false_r in Hfin.
  change (head_bytes w l) with (rs_head rs l). f_equal. unfold rs_body, framing. rewrite E4.
  change (rs_chunked rs) with (needs_chunks w). destruct (needs_chunks w); destruct Hfin as [_ ->]; [done|].
  by rewrite app_nil_r, list_fmap_id.
Qed.

(** A whole response is the response value on the wire. *)
Lemma ops_run_response ops w out1 w1 w2 out2 w3 out3 :
  pending w -> ops_run ops w out1 w1 -> flushes w1 w2 out2 -> finishes w2 w3 out3 ->
  let rs := response_of ops (default ∅ (header w)) (status_of w) in
  exists l, l ≡ₚ map_to_list (rs_header rs) /\ out1 ++ out2 ++ out3 = rs_head rs l ++ rs_body rs.
Proof.
  intros Hp Hrun Hfl Hfin. revert Hp.
  induction Hrun as [w|name values ops w out w' _ IH|code ops w out w' _ IH|body ops w w1 out1 out w' Hf Hrun _];
    intros Hp.
  - unfold flushes in Hfl. rewrite (proj1 Hp) in Hfl. destruct Hfl as (-> & l & Hl & ->).
    exists l. assert (default 200 (status_of w) = sent_status w) as Hcode.
    { unfold status_of. destruct (wroteHeader w) eqn:Hw; [done|]. destruct Hp as (_ & _ & _ & H0).
      unfold sent_status. by rewrite H0. }
    cbn [response_of]. rewrite Hcode. split; [done|].
    apply (sent_response w l [] [] (sent_writer w) w3); [done|by right|constructor|done].
  - by apply (IH Hfl).
  - destruct (IH Hfl) as (l & Hl & E).
    { destruct Hp as (? & ? & ? & ?). unfold pending.
      destruct (wroteHeader w) eqn:Hw; split_and!; try done; congruence. }
    exists l. cbn [response_of]. unfold status_of in *. destruct (wroteHeader w) eqn:Hw; [by rewrite Hw in *|done].
  - destruct (pending_with_200 w Hp) as (Hp2 & Hh & Hw2 & Hcode). unfold flushes in Hf.
    rewrite (proj1 Hp2) in Hf. destruct Hf as (-> & l & Hl & ->). exists l. cbn [response_of].
    rewrite <- Hcode, <- Hh. split; [done|]. destruct (sent_writer_fields _ Hp2) as (E1 & E2 & _ & _).
    assert (ops_run (OpWrite body :: ops) (sent_writer (with_200 w))
              ([] ++ body_bytes (sent_writer (with_200 w)) body ++ out) w') as Hrun'.
    { econstructor; [|done]. set (w1 := sent_writer _) in *. unfold flushes.
      assert (with_200 w1 = w1) as -> by (unfold with_200 at 1; by rewrite E2, Hw2). by rewrite E1. }
    destruct (ops_run_sent _ _ _ _ Hrun' E1 ltac:(congruence)) as (_ & F1 & _).
    unfold flushes in Hfl. rewrite F1 in Hfl. destruct Hfl as [-> ->]. rewrite <- app_assoc. cbn [app] in *.
    apply (sent_response _ l (OpWrite body :: ops) _ w' w3); by auto.
Qed.

(** ** A client: reading chunks *)

Definition hex_val (c : Z) : Z := if c <? 58 then c - 48 else if c <? 71 then c - 55 else c - 87.
Definition is_hex (c : Z) : bool :=
  ((48 <=? c) && (c <=? 57)) || ((65 <=? c) && (c <=? 70)) || ((97 <=? c) && (c <=? 102)).
Definition hex_number (l : bytes) : option Z :=
  if (zlen l =? 0) || negb (forallb is_hex l) then None
  else Some (fold_left (fun a c => a * 16 + hex_val c) l 0).

(** RFC 9112, 7.1, without extensions and trailers: the body and what follows. *)
Fixpoint dechunk (fuel : nat) (l : bytes) : option (bytes * bytes) :=
  match fuel with
  | O => None
  | S fuel =>
      let i := IndexByte l 13 in
      n ← hex_number (upto i l);
      l ← strip_prefix crlf (from i l);
      if n =? 0 then rest ← strip_prefix crlf l; Some ([], rest)
      else
        tail ← strip_prefix crlf (from n l);
        r ← dechunk fuel tail;
        Some (upto n l ++ fst r, snd r)
  end.

Lemma fmt_x_digits n : str (fmt_x n) = digits 16 16 n [].
Proof.
  unfold str, fmt_x. rewrite bytes_of_string_of_bytes; [done|]. apply digits_all; [|constructor].
  intros y. unfold is_byte, digit_char. assert (0 <= y mod 16 < 16) by (apply Z.mod_pos_bound; lia).
  branch Hb; lia.
Qed.

Lemma fmt_x_hex n : Forall (fun c => is_hex c = true) (str (fmt_x n)).
Proof.
  rewrite fmt_x_digits. apply digits_all; [|constructor]. intros y. unfold is_hex, digit_char.
  assert (0 <= y mod 16 < 16) by (apply Z.mod_pos_bound; lia). branch Hb; lia.
Qed.

Lemma hex_number_fmt_x n : 0 <= n < 16 ^ 16 -> hex_number (str (fmt_x n)) = Some n.
Proof.
  intros Hn. unfold hex_number. assert (forallb is_hex (str (fmt_x n)) = true) as ->.
  { apply forallb_forall. intros c Hc. apply list_elem_of_In in Hc.
    by eapply (proj1 (Forall_forall _ _) (fmt_x_hex n)). }
  rewrite fmt_x_digits. pose proof (digits_nonempty 16 16 n [] ltac:(lia)) as Hne. cbn [length] in Hne.
  unfold zlen. replace (Z.of_nat _ =? 0) with false by lia. cbn [orb negb].
  rewrite (digits_fold 16 hex_val); [done|lia| |exact Hn|lia].
  intros d Hd. unfold hex_val, digit_char. destruct (Z.ltb_spec d 10).
  - replace (48 + d <? 58) with true by lia. lia.
  - replace (87 + d <? 58) with false by lia. replace (87 + d <? 71) with false by lia. lia.
Qed.

Lemma fmt_x_no_cr n : 13 ∉ str (fmt_x n).
Proof. intros H. by apply (proj1 (Forall_forall _ _) (fmt_x_hex n)) in H. Qed.

Lemma strip_prefix_app p l : strip_prefix p (p ++ l) = Some l.
Proof. induction p as [|x p IH]; [done|]. cbn. by rewrite Z.eqb_refl. Qed.

Lemma from_app_eq n (l1 l2 : bytes) : zlen l1 = n -> from n (l1 ++ l2) = l2.
Proof. intros <-. apply from_app_length. Qed.
Lemma upto_app_eq n (l1 l2 : bytes) : zlen l1 = n -> upto n (l1 ++ l2) = l1.
Proof. intros <-. apply upto_app_length. Qed.

(** The size line. *)
Lemma dechunk_line fuel n l :
  0 <= n < 16 ^ 16 ->
  dechunk (S fuel) (str (fmt_x n) ++ crlf ++ l) =
    if n =? 0 then rest ← strip_prefix crlf l; Some ([], rest)
    else tail ← strip_prefix crlf (from n l); r ← dechunk fuel tail; Some (upto n l ++ fst r, snd r).
Proof.
  intros Hn. cbn [dechunk].
  assert (IndexByte (str (fmt_x n) ++ crlf ++ l) 13 = zlen (str (fmt_x n))) as ->
    by (apply (IndexByte_app _ (10 :: l)), fmt_x_no_cr).
  rewrite upto_app_length, from_app_length.
  rewrite hex_number_fmt_x by done. cbn [mbind option_bind]. by rewrite strip_prefix_app.
Qed.

(** Chunks are read back, whatever follows. *)
Lemma dechunk_chunks ws rest :
  Forall (fun b => 0 < zlen b < 16 ^ 16) ws ->
  dechunk (S (length ws)) (concat (chunk <$> ws) ++ last_chunk ++ rest) = Some (concat ws, rest).
Proof.
  induction 1 as [|b ws Hb _ IH].
  - change (concat (chunk <$> []) ++ last_chunk ++ rest) with (str (fmt_x 0) ++ crlf ++ crlf ++ rest).
    rewrite dechunk_line by lia. cbn [Z.eqb]. by rewrite strip_prefix_app.
  - cbn [fmap list_fmap concat]. unfold chunk at 1. rewrite <- !app_assoc. rewrite dechunk_line by lia.
    replace (zlen b =? 0) with false by lia. rewrite from_app_length, upto_app_length, strip_prefix_app.
    cbn [mbind option_bind length]. by rewrite IH.
Qed.

(** ** The application *)

Section Handler.
Context `{EngLib} `{!EngLaws} `{HttpParser} `{GoMap} `{!GoMapLaws} {U : Type}.
Notation EConn := (EngConn.Conn (Http U)).
Notation go A := (M EConn A).
Notation any_state := (fun _ : Http U => True).
Notation Einv := (Einv any_state).
Context (run_hook : HookId -> bytes -> go (option eerror)).
Context `{!HookOk run_hook any_state}
  (hook_keeps : forall h data, keeps hstate (run_hook h data)).

Definition run_op (op : rw_op) : go unit :=
  match op with
  | OpSetHeader name values => SetHeader name values
  | OpWriteHeader code => WriteHeader code
  | OpWrite body => Write run_hook body ;; mret tt
  end.

Fixpoint run_ops (ops : list rw_op) : go unit :=
  match ops with [] => mret tt | op :: ops => run_op op ;; run_ops ops end.

(** It looks at the request and at its own state, and ignores write errors. *)
Definition ops_handler (f : U -> Request -> list rw_op * U) (r : Request) : go unit :=
  h ← gets hstate;
  modify (set_hstate (mkHttp _ _ _ (hs_state h) (hs_order h) (snd (f (hs_user h) r)))) ;;
  run_ops (fst (f (hs_user h) r)).

Definition served_ops (f : U -> Request -> list rw_op * U)
    (u : U) (r : Request) (w : ResponseWriter) (out : bytes) (w' : ResponseWriter) (u' : U) : Prop :=
  u' = snd (f u r) /\ ops_run (fst (f u r)) w out w'.

(** The writer's state is determined while the connection is open. *)
Lemma writes_next P W out (ok : Prop) (c c1 : EConn) :
  writes P W out ok c c1 -> ok -> has P W c1.
Proof. intros Hw. apply Hw. Qed.

Lemma h1_wp_run_op P w op (c : EConn) :
  Einv c -> has P w c ->
  wp (run_op op) (fun _ c' => exists w' out (ok : Prop), writes P w' out ok c c' /\
    (forall ops out2 w2, ops_run ops w' out2 w2 -> ops_run (op :: ops) w (out ++ out2) w2)) c.
Proof.
  intros Hc Hh. destruct op as [name values|code|body]; cbn [run_op].
  - unfold SetHeader. eapply wp_mono; [by apply (wp_on_writer P w)|]. cbv beta. intros _ c1 W1.
    eexists _, _, True. split; [exact W1|]. intros ops out2 w2 Hr. by constructor.
  - eapply wp_mono; [by apply (wp_WriteHeader P w)|]. cbv beta. intros _ c1 W1.
    eexists _, _, True. split; [exact W1|]. intros ops out2 w2 Hr. by constructor.
  - wp_steps. eapply wp_mono; [by apply (wp_Write_body run_hook hook_keeps P w)|]. cbv beta.
    intros res c1 (w' & out & Hf & W1). wp_steps. eexists _, _, _. split; [exact W1|].
    intros ops out2 w2 Hr. rewrite <- app_assoc. by econstructor.
Qed.

Lemma h1_wp_run_ops P ops : forall w (c : EConn),
  Einv c -> has P w c ->
  wp (run_ops ops) (fun _ c' => Einv c' /\ estep c c' /\ hs_user (hstate c') = hs_user (hstate c) /\
    exists w', has P w' c' /\
      (plain_open c -> plain_open c' /\ exists out, written c' = written c ++ out /\ ops_run ops w out w')) c.
Proof.
  induction ops as [|op ops IH]; intros w c Hc Hh; cbn [run_ops].
  { wp_steps. do 3 (split; [done|]). exists w. split; [done|]. intros ?. split; [done|]. exists [].
    rewrite app_nil_r. split; [done|constructor]. }
  wp_steps. eapply wp_mono; [by apply (h1_wp_run_op P w)|]. cbv beta.
  intros _ c1 (w1 & out1 & ok & W1 & Hrun). destruct (wr_some _ _ _ _ _ _ W1) as [w1' Hh1].
  eapply wp_mono; [apply (IH w1'); [by eapply wr_inv|done]|]. cbv beta.
  intros _ c2 (I2 & S2 & U2 & w2 & Hh2 & G2). split; [done|].
  split; [transitivity c1; [by eapply wr_step|done]|].
  split; [by rewrite U2; apply (wr_user _ _ _ _ _ _ W1)|]. exists w2. split; [done|]. intros Ho.
  destruct (wr_out _ _ _ _ _ _ W1 Ho) as (Hok & Ho1 & E1). destruct (G2 Ho1) as (Ho2 & out2 & E2 & R2).
  split; [done|]. exists (out1 ++ out2). split; [by rewrite E2, E1, app_assoc|].
  apply Hrun. pose proof (wr_has _ _ _ _ _ _ W1 Hok) as Hh1'. unfold has in Hh1, Hh1'. congruence.
Qed.

Lemma wp_ops_handler f r P w (c : EConn) :
  Einv c -> has P w c ->
  wp (ops_handler f r) (fun _ c' => Einv c' /\ estep c c' /\
    exists w', has P w' c' /\
      (plain_open c -> plain_open c' /\
       exists out, written c' = written c ++ out /\
                   served_ops f (hs_user (hstate c)) r w out w' (hs_user (hstate c')))) c.
Proof.
  intros Hc Hh. unfold ops_handler. wp_steps. set (c1 := set_hstate _ c).
  destruct (set_http_inv (mkHttp _ _ _ (hs_state (hstate c)) (hs_order (hstate c))
    (snd (f (hs_user (hstate c)) r))) c Hc) as [I1 S1].
  eapply wp_mono; [apply (h1_wp_run_ops P _ w); [done|exact Hh]|]. cbv beta.
  intros _ c2 (I2 & S2 & U2 & w2 & Hh2 & G2). split; [done|]. split; [by transitivity c1|].
  exists w2. split; [done|]. intros Ho. destruct (G2 Ho) as (Ho2 & out & E2 & R2). split; [done|].
  exists out. split; [done|]. split; [exact U2|done].
Qed.

#[export] Instance ops_ok f max e :
  ServeOk (NewConnHandler (ops_handler f) max e) (served_ops f).
Proof.
  split; [|done]. intros r P w c Hc Hh. cbn. eapply wp_mono; [by apply wp_ops_handler|]. cbv beta.
  intros _ c1 (I1 & S1 & w1 & Hh1 & G). split; [done|]. split; [done|]. split; [by eexists _, _|].
  intros Ho _. destruct (G Ho) as (Ho1 & out & E & R). split; [done|]. by exists w1, out.
Qed.

Lemma response_writes ops : forall hdr code,
  Forall (fun b => 0 < zlen b) (rs_writes (response_of ops hdr code)).
Proof.
  assert (forall l, Forall (fun b => 0 < zlen b) (writes_of l)) as Hw.
  { induction l as [|op l IH]; [constructor|]. destruct op as [| |body]; [done..|]. rewrite writes_of_cons.
    pose proof (zlen_nonneg body). destruct (Z.eqb_spec (zlen body) 0); [done|]. constructor; [lia|done]. }
  induction ops as [|[name values|code'|body] ops IH]; intros hdr code; cbn [response_of]; [constructor|auto..].
  apply Hw.
Qed.

(** A response leaves the connection open. *)
Lemma wp_respond_ops f max e r st (c : EConn) :
  Einv c -> plain_open c -> hs_state (hstate c) = Some st ->
  wp (respond run_hook (NewConnHandler (ops_handler f) max e) r)
     (fun err c' => err = None /\ plain_open c' /\ Einv c' /\
        exists w out, has (parser st) w c' /\ written c' = written c ++ out /\
          answers (served_ops f) (hs_user (hstate c)) r out (hs_user (hstate c'))) c.
Proof.
  intros Hc Ho Hst. unfold respond. wp_steps. eapply wp_mono; [by eapply wp_ready_writer|].
  cbv beta. intros _ c1 (w0 & Hw0 & W1). destruct (wr_out _ _ _ _ _ _ W1 Ho) as (_ & Ho1 & E1).
  wp_steps. eapply wp_mono; [eapply wp_ops_handler; [by eapply wr_inv|by eapply wr_has]|]. cbv beta.
  intros _ c2 (I2 & _ & w2 & Hh2 & G2). destruct (G2 Ho1) as (Ho2 & out2 & E2 & R2).
  rewrite (wr_user _ _ _ _ _ _ W1) in R2. wp_steps.
  eapply wp_mono; [by apply (wp_flushHeader run_hook hook_keeps (parser st) w2)|]. cbv beta.
  intros e3 c3 (w3 & out3 & F3 & W3). destruct (wr_out _ _ _ _ _ _ W3 Ho2) as (-> & Ho3 & E3).
  eapply wp_mono; [eapply (wp_finish run_hook hook_keeps); [by eapply wr_inv|by eapply wr_has]|].
  cbv beta. intros e4 c4 (w4 & out4 & F4 & W4). destruct (wr_out _ _ _ _ _ _ W4 Ho3) as (-> & Ho4 & E4).
  split; [done|]. split; [done|]. split; [by eapply wr_inv|]. exists w4, (out2 ++ out3 ++ out4).
  split; [by eapply wr_has|]. split; [rewrite E4, E3, E2, E1, app_nil_r; by rewrite <- !app_assoc|].
  exists w0, w2, w3, w4, out2, out3, out4. split; [done|].
  rewrite (wr_user _ _ _ _ _ _ W4), (wr_user _ _ _ _ _ _ W3). by split_and!.
Qed.

Lemma answers_response f u r out u' :
  answers (served_ops f) u r out u' ->
  let rs := response_of (fst (f u r)) ∅ None in
  exists l, l ≡ₚ map_to_list (rs_header rs) /\ out = rs_head rs l ++ rs_body rs.
Proof.
  intros (w0 & w1 & w2 & w3 & out1 & out2 & out3 & [Hw0 Hw0'] & [_ Hrun] & Hfl & Hfin & ->).
  assert (pending w0) as Hp by (by rewrite Hw0').
  destruct (ops_run_response _ w0 out1 w1 w2 out2 w3 out3 Hp Hrun Hfl Hfin) as (l & Hl & E).
  assert (status_of w0 = None) as Hs0 by (by rewrite Hw0'). rewrite Hw0, Hs0 in Hl, E. by exists l.
Qed.

End Handler.

(** A message that neither asks for an upgrade nor ends the connection. *)
Definition keep_alive `{HttpParser} `{GoMap} (k : Z) (m : bytes) : Prop :=
  exists r, parses k m r false /\ forall o r', parses k m r' false -> wantClose o r' = false.

Section Pipeline.
Context `{EngLib} `{!EngLaws} `{HttpParser} `{!HttpParserLaws} `{GoMap} `{!GoMapLaws} {U : Type}.
Notation EConn := (EngConn.Conn (Http U)).
Notation go A := (M EConn A).
Notation any_state := (fun _ : Http U => True).
Notation Einv := (Einv any_state).
Context (run_hook : HookId -> bytes -> go (option eerror)).
Context `{!HookOk run_hook any_state}
  (hook_keeps : forall h data, keeps hstate (run_hook h data)).
Context (f : U -> Request -> list rw_op * U) (max : Z) (e : herror HpError -> ProtoError).
Notation ch := (NewConnHandler (ops_handler run_hook f) max e).
Notation k := (max_header ch).
Notation exchanges := (exchanges (served_ops f) k).

(** The requests [ms], answered from the state [u]; [w0] was written before. *)
Definition answered (u : U) (w0 : bytes) (ms : list bytes) (c : EConn) : Prop :=
  exists xs, fmap (fun x => fst (fst x)) xs = ms /\ exchanges u xs (hs_user (hstate c)) /\
             written c = w0 ++ replies xs.

(** Between two requests: [part] of the next one was taken. *)
Definition between (c : EConn) (part : bytes) : Prop :=
  Einv c /\ plain_open c /\ exists st, hs_state (hstate c) = Some st /\ reading k (parser st) part.

Lemma wp_one_request next buf consumed u w0 ms0 m st o n p' (c0 c : EConn) h Q :
  hs_state (hstate c0) = Some st -> c = set_hstate h c0 -> Einv c -> plain_open c0 ->
  hs_state h = Some (mkState _ p' (st_w st)) -> hs_user h = hs_user (hstate c0) ->
  Parse o (from consumed buf) (parser st) = ((n, None), p') -> Done p' = true -> maxHeaderSize p' = k ->
  parses k m (req (builder p')) (upgrade p') -> keep_alive k m -> answered u w0 ms0 c0 ->
  (forall c', between c' [] -> answered u w0 (ms0 ++ [m]) c' -> wp next Q c') ->
  wp (on_request run_hook ch next buf (consumed + n)) Q c.
Proof.
  intros Hst Hc I0 Ho0 Hh Hu HP Hd Hk Hp (r & Hr & Hkeep) (xs & Hxs & Hx & Hw) Hnext.
  assert (upgrade p' = false) as Hup by (by eapply parses_upgrade). rewrite Hup in Hp. subst c.
  unfold on_request, the_parser. wp_steps.
  eapply wp_on_parser; [done..|]. cbn [fst snd parser st_w hstate set_hstate]. intros h1 I1 S1 Hst1 Hu1.
  unfold Parser_Request. unfold Done in Hd. rewrite Hd. cbn [negb of_option]. wp_steps.
  unfold Upgrade. rewrite Hup. set (c1 := set_hstate h1 _) in *. wp_steps.
  eapply wp_mono; [by apply (wp_respond_ops run_hook hook_keeps f max e _ (mkState _ p' (st_w st)))|].
  cbv beta. intros err c2 (-> & Ho2 & I2 & w & out & Hh2 & Hw2 & Ha). wp_steps.
  eapply wp_on_parser; [done..|]. cbn [fst snd parser st_w]. intros h3 I3 S3 Hst3 Hu3. wp_steps.
  eapply wp_new_order'; [done..|]. cbn [hstate set_hstate]. intros o' h4 I4 S4 Hst4 Hu4.
  rewrite (Hkeep o' _ Hp). wp_steps.
  eapply wp_on_parser; [done..|]. cbn [fst snd parser st_w]. intros h5 I5 S5 Hst5 Hu5.
  set (c5 := set_hstate h5 _) in *. apply Hnext.
  - split; [done|]. split; [done|]. eexists. split; [exact Hst5|]. cbn. rewrite Reset_start, Hk.
    apply reading_start.
  - exists (xs ++ [(m, req (builder p'), out)]). split; [by rewrite fmap_app, Hxs|].
    assert (hs_user h5 = hs_user (hstate c2)) as E5 by (cbn in Hu4, Hu5; by rewrite Hu5, Hu4, Hu3).
    split.
    + cbn. rewrite E5. eapply (exchanges_snoc _ _ _ _ _ _ _ _ _ o'); [exact Hx|exact Hp|by apply Hkeep|].
      by rewrite <- Hu, <- Hu1.
    + change (written c5) with (written c2). rewrite Hw2, replies_snoc, app_assoc. by rewrite <- Hw.
Qed.

Lemma wp_pipeline buf tail ms : forall fuel consumed u w0 ms0 part (c : EConn),
  between c part -> answered u w0 ms0 c -> 0 <= consumed <= zlen buf ->
  (Z.to_nat (zlen buf - consumed) < fuel)%nat ->
  part ++ from consumed buf = concat ms ++ tail -> Forall (keep_alive k) ms -> partial k tail ->
  wp (OnData_loop run_hook ch fuel buf consumed)
     (fun res c' => snd res = None /\ 0 <= fst res <= zlen buf /\ answered u w0 (ms0 ++ ms) c' /\
        exists part', between c' part' /\ part' ++ from (fst res) buf = tail) c.
Proof.
  induction ms as [|m ms IH]; intros fuel consumed u w0 ms0 part c (Hc & Ho & st & Hst & Hread) Ha Hn Hf Hbuf Hms Ht;
    (destruct fuel as [|fuel]; [lia|]); destruct (Z.lt_ge_cases consumed (zlen buf)) as [Hlt|Hge].
  - apply (wp_round run_hook ch _ _ _ st); [done|done|lia|]. intros o h n err p' HP I1 _ Hst1 Hu.
    pose proof (Parse_waits k (parser st) part o (from consumed buf) Hread) as Hw. rewrite Hbuf, HP in Hw.
    destruct (Hw Ht) as (E & Hd & Hz & Hr). cbn in E, Hz, Hr. subst err. rewrite zlen_from in Hz by lia.
    rewrite Hd. cbn [negb]. wp_steps. cbn [fst snd]. split; [done|]. split; [lia|]. split.
    { destruct Ha as (xs & Hxs & Hx & Hw0). exists xs. rewrite app_nil_r. by rewrite <- Hu in Hx. }
    exists (part ++ upto n (from consumed buf)). split; [by split; [|split; [|eexists]]|].
    rewrite <- app_assoc, <- from_from, upto_from by lia. exact Hbuf.
  - cbn [OnData_loop]. replace (consumed <? zlen buf) with false by lia. wp_steps. rewrite app_nil_r.
    do 3 (split; [done|]). exists part. split; [by split; [|split; [|exists st]]|done].
  - apply Forall_cons in Hms as [Hm Hms]. pose proof Hm as (r & Hr & _).
    apply (wp_round run_hook ch _ _ _ st); [done|done|lia|]. intros o h n err p' HP I1 _ Hst1 Hu.
    cbn [concat] in Hbuf. rewrite <- app_assoc in Hbuf.
    pose proof (Parse_completes k (parser st) part o (from consumed buf) m r false _ Hread Hbuf Hr) as Hw.
    rewrite HP in Hw. destruct Hw as (E & Hd & Hz & Hk & Em & Eb & Hp).
    { apply stream_no_error; [|done]. eapply Forall_impl; [exact Hms|]. intros m' (r' & ? & _). eauto. }
    cbn in E, Hz, Em, Eb. subst err. rewrite zlen_from in Hz by lia. rewrite Hd. cbn [negb].
    eapply (wp_one_request _ _ _ u w0 ms0 m st o n p' c _ h); try done.
    intros c' Hb' Ha'. eapply wp_mono; [apply (IH fuel (consumed + n) u w0 (ms0 ++ [m]) []); try done; try lia|].
    + cbn. rewrite <- from_from by lia. by rewrite <- Eb.
    + cbv beta. intros res c'' (? & ? & Ha'' & ?). rewrite <- app_assoc in Ha''. done.
  - exfalso. apply Forall_cons in Hms as [(r & Hr & _) _]. replace consumed with (zlen buf) in Hbuf by lia.
    rewrite from_all, app_nil_r in Hbuf. cbn [concat] in Hbuf. rewrite <- app_assoc in Hbuf.
    rewrite Hbuf in Hread. by eapply reading_not_whole.
Qed.

End Pipeline.
