(* ===== verification/H1Stack.v ===== *)
(** * H1Stack

    The HTTP/1 server on the event loop of [engine].  First a concrete parser in
    the place of [httparser], and an order for the maps, on which the witnesses
    run; any machine that reads one byte after the other keeps the laws of
    [HttpParserLaws].  Then the theorems and a run. *)

From S2P Require Import Prelude Sock GoStd WsHandshake WsAgree.
From S2P Require Import EngConn EngLoop EngEvents EngServe.
From S2P Require Import H1Request H1Parse H1Writer H1Reply H1Server H1Serve H1Pipeline.

(** ** Machines that read bytes *)

Section Machine.
Context {St : Type} (init : St).
(** A byte leads to a state and events, and possibly ends a message. *)
Context (step : St -> Z -> option (St * list hp_event * option bool)).
Context (step_ok : forall s c s' es fin, step s c = Some (s', es, fin) -> no_complete es).

Definition fin_event (fin : option bool) : list hp_event :=
  match fin with Some u => [EvMessageComplete u 0] | None => [] end.

Fixpoint run (s : St) (l : bytes) : executed St unit :=
  match l with
  | [] => mkExecuted _ _ [] 0 None s
  | c :: l =>
      match step s c with
      | None => mkExecuted _ _ [] 0 (Some tt) s
      | Some (s', es, fin) =>
          let x := run (match fin with Some _ => init | None => s' end) l in
          mkExecuted _ _ (es ++ fin_event fin ++ shift 1 (ex_events x)) (1 + ex_n x) (ex_err x) (ex_hp x)
      end
  end.

Lemma run_offset l : forall s u off, EvMessageComplete u off ∈ ex_events (run s l) -> 0 <= off < zlen l.
Proof.
  induction l as [|c l IH]; intros s u off; cbn [run]; [cbn; set_solver|].
  destruct (step s c) as [[[s' es] fin]|] eqn:E; [|cbn; set_solver]. cbn [ex_events].
  rewrite !elem_of_app, zlen_cons. pose proof (zlen_nonneg l). intros [Hin|[Hin|Hin]].
  - eapply step_ok, Forall_forall in E; [|exact Hin]. done.
  - destruct fin; cbn in Hin; [|set_solver]. apply list_elem_of_singleton in Hin as [= _ ->]. lia.
  - apply list_elem_of_fmap in Hin as ([] & Heq & Hin); try done. injection Heq as -> ->.
    apply IH in Hin. lia.
Qed.

Lemma run_n l : forall s, ex_err (run s l) = None -> ex_n (run s l) = zlen l.
Proof.
  induction l as [|c l IH]; intros s; cbn [run]; [done|].
  destruct (step s c) as [[[s' es] fin]|]; [|done]. cbn. intros He. rewrite zlen_cons, IH; done.
Qed.

Lemma run_app a b : forall s, ex_err (run s a) = None ->
  ex_err (run s (a ++ b)) = ex_err (run (ex_hp (run s a)) b) /\
  ex_events (run s (a ++ b)) = ex_events (run s a) ++ shift (zlen a) (ex_events (run (ex_hp (run s a)) b)).
Proof.
  induction a as [|c a IH]; intros s; cbn [run Datatypes.app].
  - intros _. split; [done|]. unfold shift. cbn. rewrite <- (list_fmap_id (ex_events _)) at 1.
    apply list_fmap_ext. intros _ [] _; done.
  - destruct (step s c) as [[[s' es] fin]|]; [|done]. cbn [ex_err ex_events ex_hp]. intros He.
    destruct (IH _ He) as [E1 E2]. split; [done|]. rewrite E2, zlen_cons. unfold shift at 1.
    rewrite fmap_app. fold (shift 1 (ex_events (run (match fin with Some _ => init | None => s' end) a))).
    change (fmap (shift1 1)) with (shift 1). rewrite shift_shift. by rewrite <- !app_assoc.
Qed.

(** Splitting at the first end of a message. *)
Lemma first_split es x l1 u off l2 :
  no_complete es -> es ++ x = l1 ++ EvMessageComplete u off :: l2 -> no_complete l1 ->
  exists l1', l1 = es ++ l1' /\ x = l1' ++ EvMessageComplete u off :: l2.
Proof.
  intros He Heq Hl. apply app_eq_inv in Heq as [(d & -> & Heq)|(d & -> & ->)]; [|by exists d].
  destruct d as [|e d].
  - exists []. rewrite !app_nil_r in *. by split.
  - injection Heq as <- _. apply no_complete_app in He as [_ He]. by apply Forall_cons in He as [? _].
Qed.

Lemma shift_split x l1 u off l2 :
  shift 1 x = l1 ++ EvMessageComplete u off :: l2 -> no_complete l1 ->
  exists l3, x = l1 ++ EvMessageComplete u (off - 1) :: l3 /\ l2 = shift 1 l3.
Proof.
  unfold shift. intros E Hl. apply fmap_app_inv in E as (x1 & x2 & -> & E2 & ->).
  symmetry in E2. apply fmap_cons_inv in E2 as (e & l3 & He & -> & ->). exists l3. split; [|done].
  assert (shift1 1 <$> x1 = x1) as ->.
  { fold (shift 1 x1) in Hl |- *. apply shift_no_complete. unfold no_complete, shift in *.
    rewrite Forall_fmap in Hl. eapply Forall_impl; [exact Hl|]. by intros []. }
  destruct e; try done. cbn in He. injection He as ? ?. subst. do 3 f_equal. lia.
Qed.

Lemma run_boundary a : forall s l1 u off l2,
  ex_err (run s a) = None -> ex_events (run s a) = l1 ++ EvMessageComplete u off :: l2 -> no_complete l1 ->
  ex_err (run s (upto (off + 1) a)) = None /\ ex_events (run s (upto (off + 1) a)) = l1 ++ [EvMessageComplete u off] /\
  ex_hp (run s (upto (off + 1) a)) = init.
Proof.
  induction a as [|c a IH]; intros s l1 u off l2; [by destruct l1|].
  intros He Hev Hl. assert (0 <= off) as Hoff.
  { apply (run_offset (c :: a) s u). rewrite Hev. set_solver. }
  unfold upto. replace (Z.to_nat (off + 1)) with (S (Z.to_nat off)) by lia. cbn [firstn run] in *.
  destruct (step s c) as [[[s' es] fin]|] eqn:E; [|done]. cbn [ex_err ex_events ex_hp] in *.
  apply first_split in Hev as (l & -> & Hev); [|by eapply step_ok|done]. apply no_complete_app in Hl as [_ Hl].
  destruct fin as [u0|]; cbn [fin_event Datatypes.app] in *.
  - destruct l as [|e l]; [|injection Hev as <- _; by apply Forall_cons in Hl as [? _]].
    injection Hev as -> <- _. cbn. by rewrite app_nil_r.
  - destruct (shift_split _ _ _ _ _ Hev Hl) as (l3 & Hx & _).
    assert (0 <= off - 1) as Hoff1 by (apply (run_offset a s' u); rewrite Hx; set_solver).
    destruct (IH _ _ _ _ _ He Hx Hl) as (B1 & B2 & B3). unfold upto in B1, B2, B3.
    replace (Z.to_nat (off - 1 + 1)) with (Z.to_nat off) in * by lia.
    split; [done|]. split; [|done]. rewrite B2. unfold shift. rewrite fmap_app.
    fold (shift 1 l). rewrite shift_no_complete by done. cbn. rewrite <- app_assoc. by replace (1 + (off - 1)) with off by lia.
Qed.

(** After the end of a message the machine is where it began. *)
Lemma run_after_message a u l s :
  ex_err (run s a) = None -> ex_events (run s a) = l ++ [EvMessageComplete u (zlen a - 1)] -> no_complete l ->
  ex_hp (run s a) = init.
Proof.
  intros He Hev Hl. destruct (run_boundary a s l u _ [] He Hev Hl) as (_ & _ & Hi).
  by rewrite Z.sub_add, upto_all in Hi.
Qed.
End Machine.

(** ** A small HTTP/1 parser *)

(** What is known of a message: its method and minor version, its content length
    and whether it asks for an upgrade. *)
Record known : Type := mkKnown { kn_method : bytes; kn_minor : Z; kn_length : Z; kn_upgrade : bool }.

Inductive pstate : Type :=
  | PRequestLine (line : bytes)
  | PHeader (line : bytes) (m : known)
  | PBody (n : Z) (m : known).

Notation presult := (pstate * list hp_event * option bool)%type.

(** Lines end with a line feed; a carriage return before it is dropped. *)
Definition strip_cr (l : bytes) : bytes :=
  match last l with Some 13 => take (length l - 1) l | _ => l end.

Definition split_at (c : Z) (l : bytes) : option (bytes * bytes) :=
  let i := IndexByte l c in if i <? 0 then None else Some (upto i l, from (i + 1) l).

Definition request_line (l : bytes) : option presult :=
  m ← split_at 32 l;
  u ← split_at 32 (snd m);
  v ← strip_prefix (str "HTTP/1.") (snd u);
  Some (PHeader [] (mkKnown (fst m) (digits_val v) 0 false), [EvURL (fst u)], None).

Definition header_line (l : bytes) (m : known) : option presult :=
  if zlen l =? 0 then
    let e := EvHeadersComplete 1 (kn_minor m) (kn_method m) in
    if kn_length m =? 0 then Some (PRequestLine [], [e], Some (kn_upgrade m))
    else Some (PBody (kn_length m) m, [e], None)
  else
    kv ← split_at 58 l;
    let v := TrimSpace_bytes (snd kv) in
    let len := if equalFold (fst kv) (str "Content-Length")
               then default 0 (ParseUint (string_of_bytes v) 32) else kn_length m in
    let up := kn_upgrade m || equalFold (fst kv) (str "Upgrade") in
    Some (PHeader [] (mkKnown (kn_method m) (kn_minor m) len up), [EvHeaderField (fst kv); EvHeaderValue v], None).

Definition plain_step (s : pstate) (c : Z) : option presult :=
  match s with
  | PRequestLine line =>
      if negb (c =? 10) then Some (PRequestLine (line ++ [c]), [], None) else request_line (strip_cr line)
  | PHeader line m =>
      if negb (c =? 10) then Some (PHeader (line ++ [c]) m, [], None) else header_line (strip_cr line) m
  | PBody n m =>
      if n <=? 1 then Some (PRequestLine [], [EvBody [c]], Some (kn_upgrade m))
      else Some (PBody (n - 1) m, [EvBody [c]], None)
  end.

Lemma plain_step_ok s c s' es fin : plain_step s c = Some (s', es, fin) -> no_complete es.
Proof.
  unfold plain_step, request_line, header_line, no_complete. cbv [mbind option_bind].
  repeat case_match; intros; simplify_eq; repeat constructor.
Qed.

(** The limit of the header is kept and not used. *)
Definition plain_execute (p : Z * pstate) (l : bytes) : executed (Z * pstate) unit :=
  let x := run (PRequestLine []) plain_step (snd p) l in
  mkExecuted _ _ (ex_events x) (ex_n x) (ex_err x) (fst p, ex_hp x).

#[export] Instance plain_http : HttpParser := {|
  Hp := Z * pstate;
  HpError := unit;
  httparser_New := (0, PRequestLine []);
  set_MaxHeaderSize k p := (k, snd p);
  hp_Reset _ := (0, PRequestLine []);
  hp_Execute := plain_execute;
|}.

#[export] Instance plain_http_laws : HttpParserLaws.
Proof.
  split.
  - intros p buf u off. apply run_offset. exact plain_step_ok.
  - done.
  - intros p a b x Hx Hn. split.
    { unfold x. cbn. rewrite run_n by done. pose proof (zlen_nonneg a). lia. }
    intros y z. unfold z, y, x in *. cbn in *. rewrite run_n by done. rewrite upto_all by lia.
    destruct (run_app (PRequestLine []) plain_step a b _ Hx) as [E1 E2]. by rewrite E1, E2.
  - intros p a l1 u off l2 x Hx Hev Hl y.
    destruct (run_boundary _ _ plain_step_ok a (snd p) l1 u off l2 Hx Hev Hl) as (? & ? & _). done.
  - intros k a l u b x Hx Hev Hl z. unfold z, x in *. cbn in *.
    destruct (run_app (PRequestLine []) plain_step a b _ Hx) as [E1 E2].
    rewrite E1, E2, (run_after_message _ _ plain_step_ok a u l _ Hx Hev Hl). by eauto.
Qed.

(** Maps are visited forwards and backwards in turn. *)
#[export] Instance plain_map : GoMap := {|
  Order := bool;
  next_order := negb;
  range V o m := if o then map_to_list m else reverse (map_to_list m);
|}.
#[export] Instance plain_map_laws : GoMapLaws.
Proof. intros V [] m; [done|]. apply reverse_Permutation. Qed.

(** C11: The HTTP/1 server on the event loop, as long as no write of the socket
    fails for good ([unbroken]; [EngFindings] shows what happens after one that
    does), for all events, all cuts of the input, every [httparser] that keeps
    its laws and every application that keeps its contract: the callbacks return
    without a panic, and while the connection is open the bytes taken are whole
    messages followed by the beginning of one, each message was handed to the
    application as the request it stands for, and the bytes sent and waiting are
    the responses in the same order, none missing or repeated; only a request for
    an upgrade ends this. *)
Theorem requests_answered_in_order `{EngLib} `{!EngLaws} `{HttpParser} `{!HttpParserLaws} `{GoMap} `{!GoMapLaws} {U : Type}
    (run_hook : HookId -> bytes -> M (EngConn.Conn (Http U)) (option eerror)) (ch : ConnHandler U)
    (served : U -> Request -> ResponseWriter -> bytes -> ResponseWriter -> U -> Prop) (u0 : U) (o : Order)
    nfd fuel evs w :
  unbroken nfd w -> HookOk run_hook (fun _ => True) -> (forall h data, keeps hstate (run_hook h data)) ->
  ServeOk ch served -> (2 * reads_left w + 1 < fuel)%nat ->
  wp (EngEvents.serve (Some (http run_hook ch)) nfd fuel evs)
     (fun _ c' => closed c' = false -> calls c' <> [] ->
        received c' = consumed c' ++ unread c' /\ received c' ++ incoming (world c') = incoming w /\
        exists xs u,
          exchanges served (max_header ch) u0 xs u /\
          ((hs_user (hstate c') = u /\ exists P part st_w, hs_state (hstate c') = Some (mkState _ P st_w) /\
              reading (max_header ch) P part /\
              consumed c' = messages xs ++ part /\ sent c' ++ waiting c' = replies xs) \/
           (exists m r more, parses (max_header ch) m r true /\ consumed c' = messages xs ++ m /\
              sent c' ++ waiting c' = replies xs ++ more)))
     (blank w (mkHttp _ _ _ None o u0)).
Proof.
  intros Hunbroken Hhook Hkeeps Hserve Hf.
  pose proof (http_ok run_hook ch served Hkeeps u0 o) as Hok.
  eapply wp_mono; [eapply (wp_serve _ _ _ (serving served (max_header ch) u0)); done|]. cbv beta.
  intros _ c' [L S] Ho Hc. pose proof (EngServe.live_Binv _ _ _ _ L) as Hb.
  split; [by apply Hb|]. split; [exact S|].
  destruct (bi_wire _ _ Hb) as (rest & Hw & Hrest). rewrite (Hrest Ho), app_nil_r in Hw. rewrite <- Hw.
  destruct (EngServe.live_rel _ _ _ _ L Ho Hc) as (xs & P & sw & Hst & [(_ & part & Hr & Hx & -> & ->)|(_ & u & m & r & more & Hx & Hp & -> & ->)]).
  - exists xs, (hs_user (hstate c')). split; [done|]. left. split; [done|]. by exists P, part, sw.
  - exists xs, u. split; [done|]. right. by exists m, r, more.
Qed.

(** ** A client *)

(** The lines up to the empty one, and what follows. *)
Fixpoint read_lines (fuel : nat) (l : bytes) : option (list bytes * bytes) :=
  match fuel with
  | O => None
  | S fuel =>
      let i := IndexByte l 13 in
      if i <? 0 then None
      else
        tail ← strip_prefix crlf (from i l);
        if i =? 0 then Some ([], tail)
        else r ← read_lines fuel tail; Some (upto i l :: fst r, snd r)
  end.

(** Responses that have no body, RFC 9112, 6.3. *)
Definition without_body (method : bytes) (code : Z) : bool :=
  bool_decide (method = str "HEAD") || ((100 <=? code) && (code <? 200)) || (code =? 204) || (code =? 304).

(** RFC 9112: the response to a request with that method at the front of the
    stream, and what follows it: status, fields, body.  [None]: there is none, or
    its body would end with the connection. *)
Definition read_response (method b : bytes) : option (Z * list (bytes * bytes) * bytes * bytes) :=
  hd ← read_lines (S (length b)) b;
  match fst hd with
  | [] => None
  | line :: ls =>
      code ← status_code line;
      let fs := omap field_of ls in
      if without_body method code then Some (code, fs, [], snd hd)
      else
        match values_of "transfer-encoding" fs, values_of "content-length" fs with
        | [te], _ =>
            if equalFoldASCII te (str "chunked") then
              r ← dechunk (S (length (snd hd))) (snd hd);
              Some (code, fs, fst r, snd r)
            else None
        | [], [v] =>
            n ← ParseUint (string_of_bytes v) 63;
            if n <=? zlen (snd hd) then Some (code, fs, upto n (snd hd), from n (snd hd)) else None
        | _, _ => None
        end
  end.

Lemma read_lines_render ls b : Forall line_ok ls -> forall fuel, (length ls < fuel)%nat ->
  read_lines fuel (concat ((fun l => l ++ CRLF) <$> ls) ++ CRLF ++ b) = Some (ls, b).
Proof.
  induction 1 as [|l ls [Hne Hl] _ IH]; intros [|fuel] Hf; cbn [length] in Hf; try lia; cbn [read_lines].
  - done.
  - cbn [fmap list_fmap concat]. rewrite <- !app_assoc. change (CRLF ++ ?x) with (13 :: 10 :: x).
    rewrite IndexByte_app by done. assert (0 < zlen l).
    { destruct l; [done|]. rewrite zlen_cons. pose proof (zlen_nonneg l). lia. }
    replace (zlen l <? 0) with false by lia. replace (zlen l =? 0) with false by lia.
    rewrite from_app_length, upto_app_length. cbn [strip_prefix crlf Z.eqb Pos.eqb mbind option_bind].
    change (13 :: 10 :: b) with (CRLF ++ b). rewrite IH by lia. done.
Qed.

(** The fields of a response on the wire. *)
Definition fields_of (l : list (bytes * list bytes)) : list (bytes * bytes) :=
  concat ((fun kv : bytes * list bytes => (fun v => (fst kv, v)) <$> snd kv) <$> l).
Definition coding (rs : response) : list (bytes * bytes) :=
  if rs_chunked rs then [(str "Transfer-Encoding", str "chunked")] else [].
Definition rs_fields (rs : response) : list (bytes * bytes) := coding rs ++ fields_of (map_to_list (rs_header rs)).

Definition status_line (code : Z) : bytes :=
  str "HTTP/1.1 " ++ str (fmt_d code) ++ str " " ++ str (StatusText code).

Lemma header_lines_render l :
  header_lines l = concat ((fun x => x ++ CRLF) <$> (render_field <$> fields_of l)).
Proof.
  unfold header_lines, fields_of. induction l as [|[k vs] l IH]; [done|]. cbn [fmap list_fmap concat fst snd].
  rewrite !fmap_app, concat_app, <- IH. f_equal. clear IH.
  induction vs as [|v vs IH]; [done|]. cbn [fmap list_fmap concat]. rewrite <- IH.
  unfold render_field. cbn [fst snd]. by rewrite <- !app_assoc.
Qed.

Lemma rs_head_render rs l : rs_head rs l = render_head (status_line (rs_code rs)) (coding rs ++ fields_of l).
Proof.
  unfold rs_head, render_head, status_line. rewrite header_lines_render. cbn [fmap list_fmap concat].
  rewrite !fmap_app, concat_app, <- !app_assoc. do 4 f_equal. unfold coding. by destruct (rs_chunked rs).
Qed.

(** A response whose framing the application has left in order: a status of
    three digits; fields that are fields, none of them Transfer-Encoding; a
    Content-Length, if there is one, that tells what was written; and nothing
    written where there is no body. *)
Record readable (method : bytes) (rs : response) : Prop := {
  rd_code : 100 <= rs_code rs < 1000;
  rd_fields : Forall field_ok (fields_of (map_to_list (rs_header rs)));
  rd_coding : values_of "transfer-encoding" (fields_of (map_to_list (rs_header rs))) = [];
  rd_length : hasContentLength (rs_header rs) = true -> without_body method (rs_code rs) = false ->
    values_of "content-length" (fields_of (map_to_list (rs_header rs))) =
      [str (fmt_d (zlen (concat (rs_writes rs))))];
  rd_empty : without_body method (rs_code rs) = true -> rs_body rs = [];
  rd_size : zlen (concat (rs_writes rs)) < 2 ^ 63;
}.

Lemma status_text_line code : 13 ∉ str (StatusText code).
Proof.
  unfold StatusText. destruct (_ !! code) as [s|] eqn:E.
  - apply elem_of_list_to_map_2 in E.
    assert (Forall (fun kv : Z * string => 13 ∉ str (snd kv)) statusText) as HF
      by (apply (bool_decide_eq_true_1 (Forall _ _)); by vm_compute).
    rewrite Forall_forall in HF. exact (HF _ E).
  - unfold str. rewrite bytes_of_string_app. fold (str (fmt_d code)). rewrite elem_of_app. intros [H|H].
    + assert (13 ∉ str "Status ") by not_in. done.
    + unfold fmt_d in H. assert (13 ∉ format_uint (-code) /\ 13 ∉ format_uint code) as [H1 H2].
      { split; intros H'; by apply (proj1 (Forall_forall _ _) (format_uint_digit _)) in H'. }
      unfold str in H. destruct (code <? 0).
      * rewrite bytes_of_string_app, bytes_of_string_of_bytes in H by apply format_uint_bytes.
        assert (13 ∉ bytes_of_string "-") by not_in. by apply elem_of_app in H as [H|H].
      * by rewrite bytes_of_string_of_bytes in H by apply format_uint_bytes.
Qed.

Lemma str_fmt_d n : 0 <= n -> str (fmt_d n) = format_uint n.
Proof.
  intros Hn. unfold fmt_d, str. replace (n <? 0) with false by lia.
  apply bytes_of_string_of_bytes, format_uint_bytes.
Qed.

Lemma status_line_ok code : 0 <= code -> line_ok (status_line code).
Proof.
  intros Hc. split; [done|]. unfold status_line. rewrite str_fmt_d by done.
  assert (13 ∉ format_uint code) by (intros H'; by apply (proj1 (Forall_forall _ _) (format_uint_digit _)) in H').
  assert (13 ∉ str "HTTP/1.1 ") by not_in. assert (13 ∉ str " ") by not_in.
  pose proof (status_text_line code). rewrite !elem_of_app. tauto.
Qed.

Lemma status_code_line code : 0 <= code < 2 ^ 16 -> status_code (status_line code) = Some code.
Proof.
  intros Hc. unfold status_code, status_line.
  change (str "HTTP/1.1 " ++ ?x) with (str "HTTP/1.1" ++ 32 :: x). rewrite IndexByte_app by not_in.
  change (str "HTTP/1.1" ++ 32 :: ?x) with (str "HTTP/1.1 " ++ x).
  change (zlen (str "HTTP/1.1") + 1) with (zlen (str "HTTP/1.1 ")). rewrite from_app_length.
  rewrite str_fmt_d by lia. change (str " " ++ ?x) with (32 :: x). rewrite IndexByte_app.
  - replace (0 <=? zlen (format_uint code)) with true by (pose proof (zlen_nonneg (format_uint code)); lia).
    rewrite upto_app_length. apply ParseUint_format; lia.
  - intros H'; by apply (proj1 (Forall_forall _ _) (format_uint_digit _)) in H'.
Qed.

Lemma values_of_app name a b : values_of name (a ++ b) = values_of name a ++ values_of name b.
Proof. unfold values_of. by rewrite filter_app, fmap_app. Qed.

Lemma values_of_perm name a b : a ≡ₚ b -> values_of name a ≡ₚ values_of name b.
Proof. intros H. unfold values_of. by rewrite H. Qed.

Lemma fields_of_perm l l' : l ≡ₚ l' -> fields_of l ≡ₚ fields_of l'.
Proof. intros H. unfold fields_of. by rewrite H. Qed.

(** Chunks are read back with any fuel that is enough. *)
Lemma dechunk_more fuel : forall l r, dechunk fuel l = Some r -> forall k, dechunk (fuel + k) l = Some r.
Proof.
  induction fuel as [|fuel IH]; intros l r H k; [done|]. cbn [dechunk Nat.add] in *.
  destruct (hex_number _) as [n|]; [|done]. cbn [mbind option_bind] in *.
  destruct (strip_prefix crlf (from _ l)) as [l1|]; [|done]. cbn [mbind option_bind] in *.
  destruct (n =? 0); [done|]. destruct (strip_prefix crlf (from n l1)) as [l2|]; [|done]. cbn [mbind option_bind] in *.
  destruct (dechunk fuel l2) as [r2|] eqn:E; [|done]. by rewrite (IH _ _ E).
Qed.

Lemma chunks_length ws : (length ws <= length (concat (chunk <$> ws)))%nat.
Proof.
  induction ws as [|b ws IH]; [done|]. cbn [fmap list_fmap concat]. rewrite length_app.
  assert (1 <= length (chunk b))%nat by (unfold chunk; rewrite !length_app; cbn; lia). cbn [length]. lia.
Qed.

Lemma total_size (ws : list bytes) : zlen (concat ws) < 2 ^ 63 -> Forall (fun b => zlen b < 2 ^ 63) ws.
Proof.
  induction ws as [|b ws IH]; [constructor|]. cbn [concat]. rewrite zlen_app. pose proof (zlen_nonneg b).
  pose proof (zlen_nonneg (concat ws)). intros H'. constructor; [lia|apply IH; lia].
Qed.

(** The client reads what the server put on the wire. *)
Lemma read_back method rs l rest :
  readable method rs -> Forall (fun b => 0 < zlen b) (rs_writes rs) -> l ≡ₚ map_to_list (rs_header rs) ->
  read_response method ((rs_head rs l ++ rs_body rs) ++ rest) =
    Some (rs_code rs, coding rs ++ fields_of l, concat (rs_writes rs), rest).
Proof.
  intros [Hcode Hfields Hcod Hlen Hempty Hsize] Hpos Hl. rewrite rs_head_render.
  assert (Forall field_ok (coding rs ++ fields_of l)) as Hok.
  { apply Forall_app. split; [|by rewrite fields_of_perm]. unfold coding. destruct (rs_chunked rs); [|done].
    apply Forall_singleton. apply field_ok_const; [by vm_compute|by apply value_const]. }
  set (fs := coding rs ++ fields_of l) in *. unfold read_response, render_head. rewrite <- !app_assoc.
  rewrite read_lines_render; [| |].
  2:{ constructor; [by apply status_line_ok; lia|]. apply Forall_fmap. eapply Forall_impl; [exact Hok|]. apply render_field_line. }
  2:{ rewrite !length_app. assert (forall ls : list bytes, (length ls <= length (concat ((fun l => l ++ CRLF) <$> ls)))%nat) as Hlen'.
      { induction ls as [|x ls IH]; [done|]. cbn [fmap list_fmap concat]. rewrite !length_app. cbn. lia. }
      specialize (Hlen' (status_line (rs_code rs) :: (render_field <$> fs))). lia. }
  cbn [mbind option_bind fst snd]. rewrite status_code_line by lia. cbn [mbind option_bind].
  assert (omap field_of (render_field <$> fs) = fs) as ->.
  { clear - Hok. induction Hok as [|f fs Hf _ IH]; [done|]. cbn. by rewrite field_of_render, IH. }
  destruct (without_body method (rs_code rs)) eqn:Hwb.
  { specialize (Hempty eq_refl). rewrite Hempty. unfold rs_body in Hempty.
    destruct (rs_chunked rs); [by apply app_eq_nil in Hempty as [_ ?]|]. by rewrite Hempty. }
  assert (values_of "transfer-encoding" (fields_of l) = []) as Ecod.
  { apply Permutation_nil_r. rewrite <- Hcod. by apply values_of_perm, fields_of_perm. }
  unfold fs. rewrite !values_of_app, Ecod, app_nil_r. unfold coding, rs_body. destruct (rs_chunked rs) eqn:Hch.
  - change (values_of "transfer-encoding" [(str "Transfer-Encoding", str "chunked")]) with [str "chunked"].
    change (equalFoldASCII (str "chunked") (str "chunked")) with true. cbn match.
    rewrite <- app_assoc. set (wire := _ ++ last_chunk ++ rest).
    assert (dechunk (S (length (rs_writes rs))) wire = Some (concat (rs_writes rs), rest)) as Hd.
    { apply dechunk_chunks. apply total_size in Hsize. rewrite Forall_forall in *. intros b Hb.
      specialize (Hpos b Hb). specialize (Hsize b Hb). cbn in *. lia. }
    pose proof (chunks_length (rs_writes rs)).
    replace (S (length wire)) with (S (length (rs_writes rs)) + (length wire - length (rs_writes rs)))%nat
      by (unfold wire; rewrite length_app; lia).
    by rewrite (dechunk_more _ _ _ Hd).
  - assert (hasContentLength (rs_header rs) = true) as Hcl.
    { unfold rs_chunked in Hch. destruct (hasContentLength (rs_header rs)); [done|]. cbn in Hch.
      apply negb_false_iff in Hch. unfold bodylessStatus in Hch. unfold without_body in Hwb. lia. }
    assert (values_of "content-length" (fields_of l) = [str (fmt_d (zlen (concat (rs_writes rs))))]) as ->.
    { apply Permutation_singleton_r. rewrite <- (Hlen Hcl eq_refl). by apply values_of_perm, fields_of_perm. }
    change (values_of "transfer-encoding" []) with ([] : list bytes). change (values_of "content-length" []) with ([] : list bytes).
    cbn [app]. pose proof (zlen_nonneg (concat (rs_writes rs))). rewrite str_fmt_d by lia.
    rewrite ParseUint_format by lia. cbn [mbind option_bind]. rewrite zlen_app. pose proof (zlen_nonneg rest).
    replace (zlen (concat (rs_writes rs)) <=? _) with true by lia. by rewrite upto_app_length, from_app_length.
Qed.

Section Responses.
Context `{EngLib} `{!EngLaws} `{HttpParser} `{GoMap} `{!GoMapLaws} {U : Type}.
Notation EConn := (EngConn.Conn (Http U)).
Notation any_state := (fun _ : Http U => True).
Notation Einv := (Einv any_state).
Context (run_hook : HookId -> bytes -> M EConn (option eerror)).
Context `{!HookOk run_hook any_state}
  (hook_keeps : forall h data, keeps hstate (run_hook h data)).
Context (f : U -> Request -> list rw_op * U) (max : Z) (e : herror HpError -> ProtoError).
Notation ch := (NewConnHandler (ops_handler run_hook f) max e).

Context `{!HttpParserLaws}.
Notation k := (max_header ch).
Notation exchanges := (exchanges (served_ops f) k).
Notation between := (between run_hook f max e).

(** C27: Pipelined requests that all keep the connection: on an open connection
    without a write hook, on which no write fails for good, when the bytes taken before and the buffer
    together are whole messages, each of which the parser accepts and none of
    which asks to close the connection or to upgrade it, and the beginning of
    another message the parser has no objection to, then one call of [OnData]
    answers all of these messages in order, leaves the connection open, reports
    no error, and what it has taken and left of the buffer is exactly the
    beginning of the next message. *)
Theorem pipelined_requests_answered buf ms tail part (c : EConn) :
  between c part -> part ++ buf = concat ms ++ tail -> Forall (keep_alive k) ms -> partial k tail ->
  wp (ConnHandler_OnData run_hook ch buf)
     (fun res c' => snd res = None /\ 0 <= fst res <= zlen buf /\
        (exists xs, fmap (fun x => fst (fst x)) xs = ms /\ exchanges (hs_user (hstate c)) xs (hs_user (hstate c')) /\
                    written c' = written c ++ replies xs) /\
        exists part', between c' part' /\ part' ++ from (fst res) buf = tail) c.
Proof.
  intros Hb Hbuf Hms Ht. unfold ConnHandler_OnData. wp_steps. pose proof Hb as (Hc & _ & st & Hst & _).
  eapply wp_mono; [by apply (wp_state ch)|]. cbv beta. intros _ c1 (_ & _ & _ & E1 & _).
  assert (c1 = c) as -> by (apply E1; by eexists). pose proof (zlen_nonneg buf).
  apply (wp_pipeline run_hook hook_keeps f max e buf tail ms _ 0 _ (written c) [] part); try done; [|unfold zlen; lia].
  exists []. split; [done|]. split; [constructor|]. by rewrite app_nil_r.
Qed.
End Responses.

(** ** A run *)

Definition req_a : bytes := str "GET /a HTTP/1.1" ++ crlf ++ str "Host: x" ++ crlf ++ crlf.
Definition req_b : bytes :=
  str "POST /b HTTP/1.1" ++ crlf ++ str "content-length: 3" ++ crlf ++ crlf ++ str "abc".

(** It notes the targets and sends the body back in two pieces. *)
Definition demo_app (u : list bytes) (r : Request) : list rw_op * list bytes :=
  ([OpSetHeader (str "X") [str "1"]; OpWrite (Target r); OpWrite (Body r)], u ++ [Target r]).

Definition plain_error (e : herror unit) : ProtoError (EngLib := plain_eng) := "http".

Definition demo_ch : ConnHandler (H := plain_eng) (list bytes) :=
  NewConnHandler (ops_handler no_hook demo_app) 0 plain_error.

(** The two requests arrive in three pieces, cut in a header and in the body;
    the socket takes little at a time. *)
Definition demo_input : bytes := req_a ++ req_b.
Definition http_world : World (EngLib := plain_eng) :=
  mkWorld [upto 20 demo_input; slice 20 68 demo_input; from 68 demo_input] [5; 100; 3; 1000; 1000; 1000].
Definition http_events : list poll_event := [RunTask; PollReady true false; PollReady true true].

Definition demo_http : M (EngConn.Conn (H := plain_eng) (Http (list bytes))) unit :=
  EngEvents.serve (Some (http no_hook demo_ch)) 5 400 http_events.

Definition demo_reply (body : bytes) : bytes :=
  str "HTTP/1.1 200 OK" ++ crlf ++ str "Transfer-Encoding: chunked" ++ crlf ++ str "X: 1" ++ crlf ++ crlf ++ body.

Example demo_http_runs :
  match demo_http (blank http_world (mkHttp _ _ _ None true [])) with
  | Some (_, c) => (closed c, hs_user (hstate c), bool_decide (sent c ++ waiting c =
       demo_reply (chunk (str "/a") ++ last_chunk) ++ demo_reply (chunk (str "/b") ++ chunk (str "abc") ++ last_chunk)))
  | None => (true, [], false)
  end = (false, [str "/a"; str "/b"], true).
Proof. vm_compute. reflexivity. Qed.

(** All requests a message may stand for, when the maps are visited in either
    order, ask to keep the connection. *)
Fixpoint all_runs (es : list hp_event) (p : Parser) : list Parser :=
  match es with
  | [] => [p]
  | e :: es => all_runs es (callback true e p) ++ all_runs es (callback false e p)
  end.

Lemma runs_all es p p' : runs es p p' -> p' ∈ all_runs es p.
Proof.
  induction 1 as [|o e es p p' _ IH]; cbn; [by apply list_elem_of_singleton|].
  apply elem_of_app. destruct o; auto.
Qed.

Definition plain_keeps (k : Z) (m : bytes) (l : list hp_event) : bool :=
  forallb (fun p => negb (wantClose true (req (builder p))) && negb (wantClose false (req (builder p))))
    (all_runs l (start k)).

Lemma plain_keep_alive k m l :
  ex_err (hp_Execute (fresh k) m) = None ->
  ex_events (hp_Execute (fresh k) m) = l ++ [EvMessageComplete false (zlen m - 1)] ->
  no_complete l -> plain_keeps k m l = true -> keep_alive k m.
Proof.
  intros He Hev Hl Hk.
  assert (forall o p, runs l (start k) p -> wantClose o (req (builder p)) = false) as Hall.
  { intros o p Hr. apply runs_all, list_elem_of_In in Hr. unfold plain_keeps in Hk. rewrite forallb_forall in Hk.
    apply Hk, andb_true_iff in Hr as [H1 H2]. destruct o; by apply negb_true_iff. }
  set (o1 := true : Order (GoMap := plain_map)). exists (req (builder (callbacks o1 l (start k)))). split.
  - split; [done|]. exists l, (callbacks o1 l (start k)). split; [done|]. split; [done|].
    split; [apply callbacks_runs|done].
  - intros o r' (_ & l' & p & Hev' & _ & Hr & <-). rewrite Hev in Hev'. apply app_inj_tail in Hev' as [<- _].
    by apply Hall.
Qed.

(** A connection that was opened. *)
Definition opened_conn : EngConn.Conn (H := plain_eng) (Http (list bytes)) :=
  set_calls [HOpen] (set_hs (Some (newState demo_ch)) (blank http_world (mkHttp _ _ _ None true []))).

Lemma opened_conn_inv : Einv (fun _ => True) opened_conn.
Proof.
  split; [|done]. assert (exists rest : bytes, [] = [] ++ [] ++ rest /\ (false = false -> rest = [])) by by exists [].
  split; try done; try (intros _; apply plain_unbroken); try constructor; done.
Qed.

Definition events_of (k : Z) (m : bytes) : list hp_event := removelast (ex_events (hp_Execute (fresh k) m)).

Lemma demo_keep_alive : Forall (keep_alive (max_header demo_ch)) [req_a; req_b].
Proof.
  repeat constructor.
  - apply (plain_keep_alive _ _ (events_of (max_header demo_ch) req_a)); [done|done|vm_compute; repeat constructor|done].
  - apply (plain_keep_alive _ _ (events_of (max_header demo_ch) req_b)); [done|done|vm_compute; repeat constructor|done].
Qed.

Lemma requests_answered_in_order_witness :
  wp demo_http
     (fun _ c' => closed c' = false -> calls c' <> [] ->
        received c' = consumed c' ++ unread c' /\ received c' ++ incoming (world c') = incoming http_world /\
        exists xs u,
          exchanges (served_ops demo_app) (max_header demo_ch) [] xs u /\
          ((hs_user (hstate c') = u /\ exists P part st_w, hs_state (hstate c') = Some (mkState _ P st_w) /\
              reading (max_header demo_ch) P part /\
              consumed c' = messages xs ++ part /\ sent c' ++ waiting c' = replies xs) \/
           (exists m r more, parses (max_header demo_ch) m r true /\ consumed c' = messages xs ++ m /\
              sent c' ++ waiting c' = replies xs ++ more)))
     (blank http_world (mkHttp _ _ _ None true [])).
Proof.
  apply (requests_answered_in_order no_hook demo_ch (served_ops demo_app) [] true 5 400 http_events http_world).
  - apply plain_unbroken.
  - exact (no_hook_ok _).
  - intros [].
  - apply ops_ok; [exact (no_hook_ok _)|intros []].
  - vm_compute. lia.
Defined.

Definition get_a : Request := mkRequest (str "GET") (str "/a") [] ∅ (str "abc") 3.

Lemma demo_readable : readable (str "GET") (response_of (fst (demo_app [] get_a)) ∅ None).
Proof.
  split; try done. assert (fields_of (map_to_list (rs_header (response_of (fst (demo_app [] get_a)) ∅ None))) =
    [(str "X", str "1")]) as -> by (by vm_compute).
  apply Forall_singleton. apply field_ok_const; [by vm_compute|by apply value_const].
Qed.


Lemma pipelined_requests_answered_witness :
  wp (ConnHandler_OnData no_hook demo_ch (req_a ++ req_b ++ str "GET"))
     (fun res c' => snd res = None /\ 0 <= fst res <= zlen (req_a ++ req_b ++ str "GET") /\
        (exists xs, fmap (fun x => fst (fst x)) xs = [req_a; req_b] /\
           exchanges (served_ops demo_app) (max_header demo_ch) [] xs (hs_user (hstate c')) /\
           written c' = [] ++ replies xs) /\
        exists part', between no_hook demo_app 0 plain_error c' part' /\
           part' ++ from (fst res) (req_a ++ req_b ++ str "GET") = str "GET") opened_conn.
Proof.
  apply (pipelined_requests_answered no_hook ltac:(intros []) demo_app 0 plain_error
    (req_a ++ req_b ++ str "GET") [req_a; req_b] (str "GET") [] opened_conn).
  - split; [exact opened_conn_inv|]. split; [by split|]. exists (newState demo_ch). split; [done|apply reading_start].
  - by rewrite app_nil_l, app_assoc.
  - exact demo_keep_alive.
  - split; [done|]. vm_compute. repeat constructor.
Defined.
