(* ===== verification/H1Findings.v ===== *)
(** * H1Findings

    Behaviours of [http] that its comments do not lead one to expect, each on a
    concrete input. *)

From S2P Require Import Prelude GoStd Sock EngConn EngLoop EngEvents EngServe.
From S2P Require Import H1Request H1Parse H1Writer H1Reply H1Server H1Serve H1Pipeline H1Stack.

(** The application [f] gets [input] in one piece: whether the connection is
    closed, the state of the application, the bytes written. *)
Definition run_http (f : list bytes -> Request -> list rw_op * list bytes)
    (up : ConnHandler (H := plain_eng) (list bytes) -> ConnHandler (list bytes))
    (pieces : list bytes) (evs : list poll_event) : option (bool * list bytes * bytes) :=
  let ch := up (NewConnHandler (ops_handler no_hook f) 0 plain_error) in
  match EngEvents.serve (Some (http no_hook ch)) 5 400 evs
          (blank (H := plain_eng) (mkWorld pieces (replicate 20 1000)) (mkHttp _ _ _ None true [])) with
  | Some (_, c) => Some (closed c, hs_user (hstate c), written c)
  | None => None
  end.

Definition log_app (ops : list rw_op) (u : list bytes) (r : Request) : list rw_op * list bytes :=
  (ops, u ++ [Target r]).

Definition one_read : list poll_event := [PollReady true true].

(** A body written after [WriteHeader(204)] goes out without any framing: the
    client takes it for the beginning of the next response. *)
Lemma bodyless_status_writes_body :
  run_http (log_app [OpWriteHeader 204; OpWrite (str "abc")]) id [req_a] one_read =
  Some (false, [str "/a"], str "HTTP/1.1 204 No Content" ++ crlf ++ crlf ++ str "abc").
Proof. vm_compute. reflexivity. Qed.

(** The response to HEAD has a chunked body, although the comment in
    [flushHeader] counts it among the responses without one. *)
Definition req_head : bytes := str "HEAD /a HTTP/1.1" ++ crlf ++ str "Host: x" ++ crlf ++ crlf.
Lemma head_gets_a_body :
  run_http (log_app [OpWrite (str "abc")]) id [req_head] one_read =
  Some (false, [str "/a"], str "HTTP/1.1 200 OK" ++ crlf ++ str "Transfer-Encoding: chunked" ++ crlf ++ crlf ++
    str "3" ++ crlf ++ str "abc" ++ crlf ++ str "0" ++ crlf ++ crlf).
Proof. vm_compute. reflexivity. Qed.

(** A whole request is not answered when the bytes behind it in the same read
    are malformed: [httparser] reads on and [Parse] returns its error. *)
Definition feed_http (bufs : list bytes) : option (list bytes) :=
  let ch := NewConnHandler (ops_handler no_hook (log_app [OpWrite (str "ok")])) 0 plain_error in
  (fun r => hs_user (hstate (snd r))) <$>
  foldr (fun b (k : M (EngConn.Conn (H := plain_eng) (Http (list bytes))) unit) => ConnHandler_OnData no_hook ch b ;; k)
    (mret tt) bufs opened_conn.
Lemma good_request_lost :
  (feed_http [req_a ++ str "BAD" ++ crlf], feed_http [req_a; str "BAD" ++ crlf]) = (Some [], Some [str "/a"]).
Proof. vm_compute. reflexivity. Qed.

(** After [onUpgrade] the bytes of the new protocol still come to [OnData],
    which answers 400 and closes. *)
Definition req_up : bytes := str "GET /ws HTTP/1.1" ++ crlf ++ str "Upgrade: websocket" ++ crlf ++ crlf.
Lemma upgraded_connection_gets_400 :
  run_http (log_app []) (OnUpgrade (fun r => mret tt)) [req_up; [129; 0]] (one_read ++ one_read) =
  Some (true, [], str "HTTP/1.1 400 Bad Request" ++ crlf ++ str "Content-Length: 0" ++ crlf ++
    str "Connection: close" ++ crlf ++ crlf).
Proof. vm_compute. reflexivity. Qed.

(** [Connection] is searched for a substring, not for a token. *)
Lemma close_is_a_substring :
  let r := mkRequest (str "GET") (str "/") (str "HTTP/1.1") {[str "Connection" := str "keep-alive, disclosed"]} [] (-1) in
  wantClose (H := plain_map) true r = true.
Proof. vm_compute. reflexivity. Qed.

(** A header name that comes in two pieces is not put together, only its last
    piece stays, and the pieces of a value are joined with a comma. *)
Lemma split_header_is_not_joined :
  Header (req (builder (callbacks (true : Order (GoMap := plain_map))
    [EvHeaderField (str "Ho"); EvHeaderField (str "st"); EvHeaderValue (str "ex"); EvHeaderValue (str "ample")]
    (start 0)))) = {[str "st" := str "ex, ample"]}.
Proof. vm_compute. reflexivity. Qed.

(** [ErrHeaderTooLarge], which asks the caller for 431, is never returned. *)
Lemma header_too_large_never_returned `{HttpParser} `{GoMap} o buf p :
  snd (fst (Parse o buf p)) <> Some ErrHeaderTooLarge.
Proof.
  unfold Parse. destruct (is_done p); [done|]. destruct (ex_err _); [done|]. by destruct (negb _).
Qed.
