(* ===== verification/LenPrefix.v ===== *)
(** * LenPrefix

    Units that start with a header of fixed size which gives the length of
    what follows: TLS records and TLS handshake messages.  The header may be
    refused.  Such a format is a [Pump.Framing], units recognise themselves by
    their own bytes, and the loop the code writes over an offset is
    [Pump.pump]. *)

From S2P Require Import Prelude Pump.

Section LenPrefix.
Context {F E : Type}.
Context (h : Z) (len : bytes -> Z) (bad : bytes -> option E) (mk : bytes -> bytes -> F).

Definition cut_prefixed (b : bytes) : cut_result F E :=
  if zlen b <? h then CutMore
  else
    let head := upto h b in
    match bad head with
    | Some e => CutBad e
    | None =>
        if zlen b - h <? len head then CutMore
        else CutFrame (mk head (slice h (h + len head) b)) (h + len head)
    end.

(** What the header must promise. *)
Class PrefixOk : Prop := {
  prefix_pos : 0 < h;
  prefix_len head : bytes_ok head -> zlen head = h -> 0 <= len head;
}.
Context {prefixok : PrefixOk}.

Lemma upto_head (b : bytes) : h <= zlen b -> zlen (upto h b) = h.
Proof. intros. pose proof prefix_pos. rewrite zlen_upto; lia. Qed.

#[export] Instance cut_prefixed_local : LocalFraming cut_prefixed.
Proof.
  pose proof prefix_pos as Hh.
  assert (forall b, bytes_ok b -> h <= zlen b -> 0 <= len (upto h b)) as Hlen.
  { intros b Hb Hl. apply prefix_len; [auto with go|by apply upto_head]. }
  split; [split|]; intros b; [intros f n Hb H|intros x f n Hb H|intros x e Hb H|intros f n Hb H];
    unfold cut_prefixed in *; pose proof (zlen_nonneg b);
    destruct (Z.ltb_spec (zlen b) h) as [|Hl]; try done; specialize (Hlen b Hb Hl).
  - destruct (bad _); [done|]. destruct (Z.ltb_spec (zlen b - h) (len (upto h b))); [done|].
    inversion H; subst. lia.
  - pose proof (zlen_nonneg x). rewrite upto_app_le, zlen_app by lia.
    replace (zlen b + zlen x <? h) with false by lia.
    destruct (bad _); [done|]. destruct (Z.ltb_spec (zlen b - h) (len (upto h b))); [done|].
    replace (_ <? _) with false by lia. by rewrite slice_app_le by lia.
  - pose proof (zlen_nonneg x). rewrite upto_app_le, zlen_app by lia.
    replace (zlen b + zlen x <? h) with false by lia. destruct (bad _); [done|].
    by destruct (_ <? _).
  - destruct (bad (upto h b)) eqn:Hbad; [done|].
    destruct (Z.ltb_spec (zlen b - h) (len (upto h b))); [done|]. inversion H; subst.
    set (l := len (upto h b)) in *.
    rewrite zlen_upto by lia. replace (Z.min (h + l) (zlen b)) with (h + l) by lia.
    replace (h + l <? h) with false by lia.
    assert (upto h (upto (h + l) b) = upto h b) as ->
      by (unfold upto; rewrite take_take; f_equal; lia).
    rewrite Hbad. fold l. replace (h + l - h <? l) with false by lia. do 2 f_equal.
    rewrite !slice_upto_from. replace (h + l - h) with l by lia.
    unfold upto, from. rewrite skipn_firstn_comm, take_take. f_equal. lia.
Qed.

(** A header followed by as many bytes as it says is a unit. *)
Lemma cut_prefixed_enc head payload x :
  zlen head = h -> bad head = None -> len head = zlen payload ->
  cut_prefixed (head ++ payload ++ x) = CutFrame (mk head payload) (h + zlen payload).
Proof.
  intros Hh Hb Hl. pose proof (zlen_nonneg payload). pose proof (zlen_nonneg x).
  unfold cut_prefixed. rewrite !zlen_app, Hh. replace (_ <? h) with false by lia.
  assert (upto h (head ++ payload ++ x) = head) as ->.
  { rewrite <- Hh. apply upto_app_length. }
  rewrite Hb, Hl. replace (_ <? _) with false by lia. do 2 f_equal.
  rewrite <- Hh. apply slice_app_mid.
Qed.

Lemma cut_prefixed_short b : zlen b < h -> cut_prefixed b = CutMore.
Proof. intros. unfold cut_prefixed. by replace (_ <? _) with true by lia. Qed.

(** The loop over an offset into a fixed buffer. *)
Section Loop.
Context {S : Type} (deliver : F -> M S (option E)).

Fixpoint prefixed_loop (fuel : nat) (work : bytes) (consumed : Z) : M S (Z * option E) :=
  match fuel with
  | O => panic
  | Datatypes.S fuel =>
      if zlen work - consumed <? h then mret (consumed, None)
      else
        let head := slice consumed (consumed + h) work in
        match bad head with
        | Some e => mret (consumed, Some e)
        | None =>
            if zlen work - consumed - h <? len head then mret (consumed, None)
            else
              e ← deliver (mk head (slice (consumed + h) (consumed + h + len head) work));
              match e with
              | Some e => mret (consumed, Some e)
              | None => prefixed_loop fuel work (consumed + (h + len head))
              end
        end
  end.

Lemma prefixed_loop_pump k : forall work c s,
  bytes_ok work -> 0 <= c <= zlen work ->
  prefixed_loop k work c s = pump cut_prefixed deliver k (from c work) c s.
Proof.
  pose proof prefix_pos as Hh.
  induction k as [|k IH]; intros work c s Hb Hc; [done|].
  rewrite pump_S. cbn [prefixed_loop]. unfold cut_prefixed.
  rewrite zlen_from by lia. replace (0 `max` (zlen work - c)) with (zlen work - c) by lia.
  destruct (Z.ltb_spec (zlen work - c) h) as [|Hl]; [done|].
  assert (slice c (c + h) work = upto h (from c work)) as ->.
  { rewrite slice_upto_from. f_equal. lia. }
  assert (0 <= len (upto h (from c work))) as Hlen.
  { apply prefix_len; [auto with go|]. apply upto_head. rewrite zlen_from; lia. }
  destruct (bad _) as [e|]; [done|]. set (l := len _) in *.
  destruct (Z.ltb_spec (zlen work - c - h) l) as [|Hfit]; [done|].
  rewrite slice_from by lia. rewrite Z.add_assoc. unfold mbind, M_bind.
  destruct (deliver _ s) as [[[e|] s1]|]; [done| |done].
  rewrite IH, from_from by (done || lia). by rewrite !Z.add_assoc.
Qed.
End Loop.
End LenPrefix.
