(* ===== verification/TlsRecord.v ===== *)
(** * TlsRecord

    [tls/record.go]: the record layer and the framing of handshake messages.
    A TLS record is a type, a version, a two-byte length and a payload; a
    handshake message is a type, a three-byte length and a payload.
    [RecordParser.Parse] leaves what is not a whole record to the caller;
    [HandshakeParser.Parse] keeps it, because a message may span records.
    Both loops are instances of [LenPrefix]. *)

From S2P Require Import Prelude Pump GoStd LenPrefix.

Definition recordChangeCipherSpec : Z := 20.
Definition recordAlert : Z := 21.
Definition recordHandshake : Z := 22.
Definition recordApplicationData : Z := 23.

Definition recordHeaderLen : Z := 5.
Definition maxRecordPayload : Z := 1 << 14.
Definition maxCiphertextLen : Z := maxRecordPayload + 256.

Definition ErrRecordTooLarge : error := errorsNew "tls: record exceeds max size".
Definition ErrBadRecord : error := errorsNew "tls: malformed record".

(** [Record] *)
Record TlsRec : Type := mkRecord { Type_ : Z; Version : Z; Payload : bytes }.

#[export] Instance TlsRec_eq_dec : EqDecision TlsRec.
Proof. solve_decision. Defined.

Record RecordParser : Type := mkRecordParser { rp_buf : bytes }.
Definition NewRecordParser : RecordParser := mkRecordParser [].
Definition RecordParser_Reset (p : RecordParser) : RecordParser := mkRecordParser [].
Definition RecordParser_Buffered (p : RecordParser) : Z := zlen (rp_buf p).

Section RecordParse.
Context {S : Type} (fn : TlsRec -> M S (option error)).

(** The loop of [RecordParser.Parse] over [work], from [consumed] on. *)
Fixpoint Records_loop (fuel : nat) (work : bytes) (consumed : Z) : M S (Z * option error) :=
  match fuel with
  | O => panic
  | Datatypes.S fuel =>
      if zlen work - consumed <? recordHeaderLen then mret (consumed, None)
      else
        let head := slice consumed (consumed + recordHeaderLen) work in
        let length := be16 (at_ head 3) (at_ head 4) in
        if length >? maxCiphertextLen then
          mret (consumed, Some (errorfWrap ErrRecordTooLarge
                                  (fmt_d length +:+ " > " +:+ fmt_d maxCiphertextLen)))
        else if zlen work - consumed - recordHeaderLen <? length then mret (consumed, None)
        else
          let r := mkRecord (at_ head 0) (be16 (at_ head 1) (at_ head 2))
            (slice (consumed + recordHeaderLen) (consumed + recordHeaderLen + length) work) in
          cbErr ← fn r;
          match cbErr with
          | Some cbErr => mret (consumed, Some cbErr)
          | None => Records_loop fuel work (consumed + (recordHeaderLen + length))
          end
  end.

(** [RecordParser.Parse] neither reads nor writes the parser's buffer. *)
Definition RecordParser_Parse (data : bytes) : M S (Z * option error) :=
  Records_loop (fuel_for data) data 0.
End RecordParse.

Definition AppendRecord (dst : bytes) (rtype version : Z) (payload : bytes) : bytes :=
  let dst := dst ++ [rtype; u8 (version >> 8); u8 version;
                     u8 (zlen payload >> 8); u8 (zlen payload)] in
  dst ++ payload.

(** ** Handshake messages *)

Definition hsClientHello : Z := 1.
Definition hsServerHello : Z := 2.
Definition hsNewSessionTicket : Z := 4.
Definition hsEncryptedExtensions : Z := 8.
Definition hsCertificate : Z := 11.
Definition hsCertificateVerify : Z := 15.
Definition hsFinished : Z := 20.
Definition hsKeyUpdate : Z := 24.

Definition handshakeHeaderLen : Z := 4.
Definition ErrBadHandshake : error := errorsNew "tls: malformed handshake message".

Record Handshake : Type := mkHandshake { hs_Type : Z; hs_Payload : bytes }.

#[export] Instance Handshake_eq_dec : EqDecision Handshake.
Proof. solve_decision. Defined.

Record HandshakeParser : Type := mkHandshakeParser { hp_buf : bytes }.
Definition NewHandshakeParser : HandshakeParser := mkHandshakeParser [].
Definition HandshakeParser_Reset (p : HandshakeParser) : HandshakeParser := mkHandshakeParser [].
Definition HandshakeParser_Buffered (p : HandshakeParser) : Z := zlen (hp_buf p).

Section HandshakeParse.
Context {S : Type} (fn : Handshake -> M S (option error)).

Fixpoint Handshakes_loop (fuel : nat) (work : bytes) (consumed : Z) : M S (Z * option error) :=
  match fuel with
  | O => panic
  | Datatypes.S fuel =>
      if zlen work - consumed <? handshakeHeaderLen then mret (consumed, None)
      else
        let typ := at_ work consumed in
        let length := be24 (at_ work (consumed + 1)) (at_ work (consumed + 2)) (at_ work (consumed + 3)) in
        if length >? 1 << 20 then
          mret (consumed, Some (errorfWrap ErrBadHandshake
                                  ("handshake message " +:+ fmt_d length +:+ " bytes")))
        else if zlen work - consumed - handshakeHeaderLen <? length then mret (consumed, None)
        else
          let h := mkHandshake typ
            (slice (consumed + handshakeHeaderLen) (consumed + handshakeHeaderLen + length) work) in
          cbErr ← fn h;
          match cbErr with
          | Some cbErr => mret (consumed, Some cbErr)
          | None => Handshakes_loop fuel work (consumed + (handshakeHeaderLen + length))
          end
  end.

(** The parser object is passed and returned; the callback works on [S]. *)
Definition HandshakeParser_Parse (p : HandshakeParser) (data : bytes)
    : M S (HandshakeParser * (Z * option error)) :=
  let oldLen := zlen (hp_buf p) in
  let work := if oldLen >? 0 then hp_buf p ++ data else data in
  r ← Handshakes_loop (fuel_for work) work 0;
  let '(consumed, err) := r in
  let rest := from consumed work in
  let p := mkHandshakeParser (if zlen rest >? 0 then rest else []) in
  let n := consumed - oldLen in
  let n := if n <? 0 then 0 else n in
  let n := if n >? zlen data then zlen data else n in
  mret (p, (n, err)).
End HandshakeParse.

Definition AppendHandshake (dst : bytes) (typ : Z) (payload : bytes) : bytes :=
  let dst := dst ++ [typ; u8 (zlen payload >> 16); u8 (zlen payload >> 8); u8 (zlen payload)] in
  dst ++ payload.

Definition handshakeTypeName (t : Z) : string :=
  if t =? hsClientHello then "ClientHello"
  else if t =? hsServerHello then "ServerHello"
  else if t =? hsNewSessionTicket then "NewSessionTicket"
  else if t =? hsEncryptedExtensions then "EncryptedExtensions"
  else if t =? hsCertificate then "Certificate"
  else if t =? hsCertificateVerify then "CertificateVerify"
  else if t =? hsFinished then "Finished"
  else if t =? hsKeyUpdate then "KeyUpdate"
  else "Unknown(" +:+ fmt_d t +:+ ")".

(** ** The two parsers as framings *)

Definition record_len (head : bytes) : Z := be16 (at_ head 3) (at_ head 4).
Definition record_bad (head : bytes) : option error :=
  if record_len head >? maxCiphertextLen then
    Some (errorfWrap ErrRecordTooLarge
            (fmt_d (record_len head) +:+ " > " +:+ fmt_d maxCiphertextLen))
  else None.
Definition record_mk (head payload : bytes) : TlsRec :=
  mkRecord (at_ head 0) (be16 (at_ head 1) (at_ head 2)) payload.
Definition cut_record : bytes -> cut_result TlsRec error :=
  cut_prefixed recordHeaderLen record_len record_bad record_mk.

Definition handshake_len (head : bytes) : Z := be24 (at_ head 1) (at_ head 2) (at_ head 3).
Definition handshake_bad (head : bytes) : option error :=
  if handshake_len head >? 1 << 20 then
    Some (errorfWrap ErrBadHandshake
            ("handshake message " +:+ fmt_d (handshake_len head) +:+ " bytes"))
  else None.
Definition handshake_mk (head payload : bytes) : Handshake := mkHandshake (at_ head 0) payload.
Definition cut_handshake : bytes -> cut_result Handshake error :=
  cut_prefixed handshakeHeaderLen handshake_len handshake_bad handshake_mk.

Lemma be16_range a b : is_byte a -> is_byte b -> 0 <= be16 a b < 2 ^ 16.
Proof. intros. rewrite be16_val by done. unfold is_byte in *. lia. Qed.

#[export] Instance record_prefix : PrefixOk recordHeaderLen record_len.
Proof.
  split; [done|]. intros head Hb _. unfold record_len.
  pose proof (be16_range (at_ head 3) (at_ head 4)) as Hr.
  apply Hr; auto with go.
Qed.
#[export] Instance handshake_prefix : PrefixOk handshakeHeaderLen handshake_len.
Proof.
  split; [done|]. intros head Hb _. unfold handshake_len.
  pose proof (be24_range (at_ head 1) (at_ head 2) (at_ head 3)) as Hr.
  apply Hr; auto with go.
Qed.

#[export] Instance cut_record_local : LocalFraming cut_record.
Proof. apply cut_prefixed_local, record_prefix. Qed.
#[export] Instance cut_handshake_local : LocalFraming cut_handshake.
Proof. apply cut_prefixed_local, handshake_prefix. Qed.

Definition record_ok (r : TlsRec) : Prop :=
  is_byte (Type_ r) /\ 0 <= Version r < 2 ^ 16 /\ bytes_ok (Payload r) /\
  zlen (Payload r) <= maxCiphertextLen.
Definition record_enc (r : TlsRec) : bytes := AppendRecord [] (Type_ r) (Version r) (Payload r).

Definition handshake_ok (h : Handshake) : Prop :=
  is_byte (hs_Type h) /\ bytes_ok (hs_Payload h) /\ zlen (hs_Payload h) <= 1 << 20.
Definition handshake_enc (h : Handshake) : bytes := AppendHandshake [] (hs_Type h) (hs_Payload h).

Lemma AppendRecord_eq dst t v p : AppendRecord dst t v p = dst ++ AppendRecord [] t v p.
Proof. unfold AppendRecord. by rewrite <- app_assoc. Qed.
Lemma AppendHandshake_eq dst t p : AppendHandshake dst t p = dst ++ AppendHandshake [] t p.
Proof. unfold AppendHandshake. by rewrite <- app_assoc. Qed.

Lemma AppendRecord_ok t v p : is_byte t -> bytes_ok p -> bytes_ok (AppendRecord [] t v p).
Proof. intros. apply bytes_ok_app_2; [|done]. auto 8 with go. Qed.
Lemma AppendHandshake_ok t p : is_byte t -> bytes_ok p -> bytes_ok (AppendHandshake [] t p).
Proof. intros. apply bytes_ok_app_2; [|done]. auto 8 with go. Qed.
#[export] Hint Resolve AppendRecord_ok AppendHandshake_ok : go.

Lemma zlen_AppendRecord t v p : zlen (AppendRecord [] t v p) = recordHeaderLen + zlen p.
Proof. unfold AppendRecord. rewrite !zlen_app. done. Qed.
Lemma zlen_AppendHandshake t p : zlen (AppendHandshake [] t p) = handshakeHeaderLen + zlen p.
Proof. unfold AppendHandshake. rewrite !zlen_app. done. Qed.

#[export] Instance cut_record_codec : FramingCodec cut_record record_enc record_ok.
Proof.
  split; [apply _|..].
  - intros r (? & ? & ? & ?). by apply AppendRecord_ok.
  - intros [t v p] x (Ht & Hv & Hp & Hl). cbn [Type_ Version Payload] in *.
    unfold record_enc. cbn [Type_ Version Payload].
    rewrite zlen_AppendRecord. unfold cut_record, AppendRecord. rewrite app_nil_l, <- app_assoc.
    change maxCiphertextLen with 16640 in *. pose proof (zlen_nonneg p).
    set (head := [t; _; _; _; _]).
    assert (record_len head = zlen p) as Hlen.
    { change (record_len head) with (be16 (u8 (zlen p >> 8)) (u8 (zlen p))).
      apply be16_put. lia. }
    rewrite cut_prefixed_enc; [|done| |done].
    + f_equal. unfold record_mk. f_equal.
      change (be16 (at_ head 1) (at_ head 2)) with (be16 (u8 (v >> 8)) (u8 v)).
      by apply be16_put.
    + unfold record_bad. rewrite Hlen. change maxCiphertextLen with 16640.
      by replace (_ >? _) with false by lia.
Qed.

#[export] Instance cut_handshake_codec : FramingCodec cut_handshake handshake_enc handshake_ok.
Proof.
  split; [apply _|..].
  - intros h (? & ? & ?). by apply AppendHandshake_ok.
  - intros [t p] x (Ht & Hp & Hl). cbn [hs_Type hs_Payload] in *.
    unfold handshake_enc. cbn [hs_Type hs_Payload].
    rewrite zlen_AppendHandshake. unfold cut_handshake, AppendHandshake.
    rewrite app_nil_l, <- app_assoc. change (1 << 20) with 1048576 in *. pose proof (zlen_nonneg p).
    set (head := [t; _; _; _]).
    assert (handshake_len head = zlen p) as Hlen.
    { change (handshake_len head) with
        (be24 (u8 (zlen p >> 16)) (u8 (zlen p >> 8)) (u8 (zlen p))).
      apply be24_put. lia. }
    rewrite cut_prefixed_enc; [done|done| |done].
    unfold handshake_bad. rewrite Hlen. change (1 << 20) with 1048576.
    by replace (_ >? _) with false by lia.
Qed.

(** ** The loops of the code are [pump] *)

Section ParseFacts.
Context {S : Type}.

Lemma at_slice_off (work : bytes) c h i :
  0 <= c -> 0 <= i < h -> c + h <= zlen work -> at_ (slice c (c + h) work) i = at_ work (c + i).
Proof.
  intros Hc Hi Hl. rewrite <- (at_from c work i) by lia.
  rewrite <- (upto_from h (from c work)), slice_upto_from, at_app_l.
  - f_equal. f_equal. lia.
  - rewrite zlen_upto, zlen_from; lia.
Qed.

Lemma Records_loop_eq (fn : TlsRec -> M S (option error)) k : forall work c s,
  Records_loop fn k work c s =
  prefixed_loop recordHeaderLen record_len record_bad record_mk fn k work c s.
Proof.
  induction k as [|k IH]; intros work c s; [done|]. cbn [Records_loop prefixed_loop].
  unfold record_bad, record_len, record_mk. destruct (_ <? _); [done|].
  destruct (_ >? _); [done|]. destruct (_ <? _); [done|].
  unfold mbind, M_bind. destruct (fn _ s) as [[[e|] s1]|]; [done| |done]. by rewrite IH.
Qed.

Lemma Handshakes_loop_eq (fn : Handshake -> M S (option error)) k : forall work c s,
  bytes_ok work -> 0 <= c ->
  Handshakes_loop fn k work c s =
  prefixed_loop handshakeHeaderLen handshake_len handshake_bad handshake_mk fn k work c s.
Proof.
  induction k as [|k IH]; intros work c s Hb Hc; [done|]. cbn [Handshakes_loop prefixed_loop].
  unfold handshakeHeaderLen in *. destruct (Z.ltb_spec (zlen work - c) 4); [done|].
  unfold handshake_bad, handshake_len, handshake_mk. rewrite !at_slice_off, Z.add_0_r by lia.
  destruct (_ >? _); [done|]. set (l := be24 _ _ _).
  assert (0 <= l) by (unfold l; edestruct be24_range as [H0 _]; [..|exact H0]; auto with go).
  destruct (_ <? _); [done|].
  unfold mbind, M_bind. destruct (fn _ s) as [[[e|] s1]|]; [done| |done].
  apply IH; [done|lia].
Qed.

Lemma record_parse_run (fn : TlsRec -> M S (option error)) data s :
  bytes_ok data -> RecordParser_Parse fn data s = run cut_record fn data s.
Proof.
  intros Hd. unfold RecordParser_Parse, run. rewrite Records_loop_eq.
  rewrite (prefixed_loop_pump recordHeaderLen record_len record_bad record_mk) by
    (done || (split; [done|apply zlen_nonneg])). done.
Qed.

(** [HandshakeParser.Parse] absorbs: it keeps what is not yet a message.  The
    number it returns is the part of the new bytes that was used up. *)
Lemma handshake_parse_absorb (fn : Handshake -> M S (option error)) p data s :
  bytes_ok (hp_buf p) -> bytes_ok data ->
  HandshakeParser_Parse fn p data s =
  match absorb cut_handshake fn (hp_buf p) data s with
  | Some ((rest, e), s') =>
      Some ((mkHandshakeParser rest, (Z.max 0 (zlen data - zlen rest), e)), s')
  | None => None
  end.
Proof.
  intros Hp Hd. unfold HandshakeParser_Parse, absorb, run.
  pose proof (zlen_nonneg (hp_buf p)). pose proof (zlen_nonneg data).
  assert ((if zlen (hp_buf p) >? 0 then hp_buf p ++ data else data) = hp_buf p ++ data) as ->.
  { destruct (zlen (hp_buf p) >? 0) eqn:E; [done|].
    assert (hp_buf p = []) as -> by (apply zlen_zero; lia). done. }
  set (work := hp_buf p ++ data).
  assert (bytes_ok work) as Hw by (apply bytes_ok_app_2; done).
  unfold mbind, M_bind. rewrite Handshakes_loop_eq by done.
  rewrite (prefixed_loop_pump handshakeHeaderLen handshake_len handshake_bad handshake_mk) by
    (done || (split; [done|apply zlen_nonneg])).
  fold cut_handshake. rewrite from_0. fold (fuel_for work).
  destruct (pump cut_handshake fn _ work 0 s) as [[[n e] s']|] eqn:Hr; [|done].
  apply (pump_bound cut_handshake fn) in Hr; [|done].
  unfold mret, M_ret. cbn [fst snd]. pose proof (zlen_from n work) as Hz.
  assert (zlen work = zlen (hp_buf p) + zlen data) as Hzw by apply zlen_app.
  rewrite Hz by lia. do 3 f_equal; [|f_equal].
  - f_equal. destruct (_ >? 0) eqn:E; [done|]. symmetry. apply zlen_zero. rewrite Hz; lia.
  - destruct (n - zlen (hp_buf p) <? 0) eqn:?; destruct (_ >? zlen data) eqn:?; lia.
Qed.
End ParseFacts.

(** What the callback keeps, the parsers keep; messages and what is left of
    them are bytes. *)
Lemma cut_prefixed_payload {F E} h len bad (mk : bytes -> bytes -> F) b f n :
  bytes_ok b -> cut_prefixed (E := E) h len bad mk b = CutFrame f n ->
  exists head payload, f = mk head payload /\ bytes_ok payload /\ bytes_ok head.
Proof.
  intros Hb. unfold cut_prefixed. destruct (_ <? _); [done|]. destruct (bad _); [done|].
  destruct (_ <? _); [done|]. intros [= <- _]. eauto 10 with go.
Qed.

Lemma record_parse_wp {S} (I : S -> Prop) (fn : TlsRec -> M S (option error)) data s :
  (forall r s, bytes_ok (Payload r) -> I s -> wp (fn r) (fun _ s' => I s') s) ->
  bytes_ok data -> I s ->
  wp (RecordParser_Parse fn data) (fun r s' => I s' /\ 0 <= fst r <= zlen data) s.
Proof.
  intros Hfn Hd Hs. unfold wp. rewrite record_parse_run by done.
  apply (run_wp cut_record fn I (fun r => bytes_ok (Payload r))); [|done|done|done].
  intros b f n Hb Hc. apply cut_prefixed_payload in Hc as (head & payload & -> & Hp & _); done.
Qed.

Lemma handshake_parse_wp {S} (I : S -> Prop) (fn : Handshake -> M S (option error)) p data s :
  (forall h s, bytes_ok (hs_Payload h) -> I s -> wp (fn h) (fun _ s' => I s') s) ->
  bytes_ok (hp_buf p) -> bytes_ok data -> I s ->
  wp (HandshakeParser_Parse fn p data) (fun r s' => I s' /\ bytes_ok (hp_buf (fst r))) s.
Proof.
  intros Hfn Hp Hd Hs. unfold wp. rewrite handshake_parse_absorb by done.
  unfold absorb, mbind, M_bind.
  pose proof (run_wp cut_handshake fn I (fun h => bytes_ok (hs_Payload h)) (hp_buf p ++ data) s) as Hr.
  unfold wp in Hr. assert (bytes_ok (hp_buf p ++ data)) as Hb by auto with go.
  assert (forall b f n, bytes_ok b -> cut_handshake b = CutFrame f n -> bytes_ok (hs_Payload f)) as Hc.
  { intros b f n Hb' Hc. by apply cut_prefixed_payload in Hc as (head & payload & -> & Hpl & _). }
  specialize (Hr Hc Hfn Hb Hs).
  destruct (run _ fn _ s) as [[[n e] s']|]; [|done]. cbn. destruct Hr as [? _].
  split; [done|]. auto with go.
Qed.

(** ** Streams *)

(** A sequence of records' payloads, up to the first error. *)
Fixpoint HandshakeParser_all {S} (fn : Handshake -> M S (option error)) (p : HandshakeParser)
    (chunks : list bytes) : M S (HandshakeParser * option error) :=
  match chunks with
  | [] => mret (p, None)
  | c :: rest =>
      r ← HandshakeParser_Parse fn p c;
      match snd (snd r) with
      | Some e => mret (fst r, Some e)
      | None => HandshakeParser_all fn (fst r) rest
      end
  end.

Lemma handshake_all_absorb {S} (fn : Handshake -> M S (option error)) chunks : forall p s,
  bytes_ok (hp_buf p) -> Forall bytes_ok chunks ->
  HandshakeParser_all fn p chunks s =
  match absorb_all cut_handshake fn (hp_buf p) chunks s with
  | Some ((rest, e), s') => Some ((mkHandshakeParser rest, e), s')
  | None => None
  end.
Proof.
  induction chunks as [|c chunks IH]; intros [buf] s Hp Hc; [done|].
  apply Forall_cons in Hc as [Hc Hcs]. cbn [HandshakeParser_all absorb_all hp_buf] in *.
  unfold mbind, M_bind. rewrite handshake_parse_absorb by done. cbn [hp_buf].
  destruct (absorb cut_handshake fn buf c s) as [[[rest [e|]] s1]|] eqn:Ha; [done| |done].
  cbn [fst snd]. rewrite IH; [done| |done].
  by apply (absorb_keeps_bytes cut_handshake fn) in Ha.
Qed.

(** the records a peer sends, each as [AppendRecord] writes it, are
    delivered to the callback one by one with their type, version and payload;
    exactly their bytes are consumed and what follows them, when it is no whole
    record yet, is left to the caller. *)
Theorem tls_records_roundtrip rs rest :
  Forall record_ok rs -> bytes_ok rest -> cut_record rest = CutMore ->
  RecordParser_Parse collect (concat (record_enc <$> rs) ++ rest) [] =
  Some ((zlen (concat (record_enc <$> rs)), None), rs).
Proof.
  intros Hrs Hb Hrest. rewrite record_parse_run.
  - rewrite (run_encoded cut_record record_enc record_ok), deliver_all_collect by done. done.
  - apply bytes_ok_app_2; [|done]. by apply (concat_enc_bytes cut_record record_enc record_ok).
Qed.

(** handshake messages may be cut into record payloads anywhere, several
    messages in one record or one message over many: the parser delivers the
    same messages in the same order and keeps nothing at the end. *)
Theorem tls_handshakes_any_cut hs chunks :
  Forall handshake_ok hs -> Forall bytes_ok chunks ->
  concat chunks = concat (handshake_enc <$> hs) ->
  HandshakeParser_all collect NewHandshakeParser chunks [] =
  Some ((NewHandshakeParser, None), hs).
Proof.
  intros Hhs Hch Hcat. rewrite handshake_all_absorb by (done || constructor).
  cbn [hp_buf NewHandshakeParser].
  rewrite (absorb_all_encoded cut_handshake handshake_enc handshake_ok collect hs [] chunks [] hs);
    rewrite ?app_nil_r; try done.
  by rewrite deliver_all_collect.
Qed.

Lemma tls_records_roundtrip_witness :
  RecordParser_Parse collect
    (concat (record_enc <$> [mkRecord 22 771 [1; 2; 3]; mkRecord 20 771 [1]]) ++ [22; 3]) [] =
  Some ((14, None), [mkRecord 22 771 [1; 2; 3]; mkRecord 20 771 [1]]).
Proof.
  apply (tls_records_roundtrip [mkRecord 22 771 [1; 2; 3]; mkRecord 20 771 [1]] [22; 3]).
  - repeat constructor; try done; bytes.
  - bytes.
  - done.
Defined.

Lemma tls_handshakes_any_cut_witness :
  HandshakeParser_all collect NewHandshakeParser [[20; 0; 0]; [2; 7]; [8; 8; 0; 0; 0]] [] =
  Some ((NewHandshakeParser, None), [mkHandshake 20 [7; 8]; mkHandshake 8 []]).
Proof.
  apply (tls_handshakes_any_cut [mkHandshake 20 [7; 8]; mkHandshake 8 []]
           [[20; 0; 0]; [2; 7]; [8; 8; 0; 0; 0]]).
  - repeat constructor; try done; bytes.
  - repeat (apply Forall_cons; split; [bytes|]). constructor.
  - done.
Defined.
