(* ===== verification/TlsHello.v ===== *)
(** * TlsHello

    [tls/handshake.go]: the hello messages of TLS 1.3 and their extensions,
    the key shares, and ALPN.  The parsers use the panicking reads of the
    prelude; what they return does not depend on the state they run in. *)

From S2P Require Import Prelude Pump GoStd TlsRecord.

Inductive HandshakeState : Type :=
  | StateStart
  | StateWaitClientHello
  | StateWaitServerHello
  | StateWaitEncryptedExtensions
  | StateWaitCertificate
  | StateWaitCertificateVerify
  | StateWaitServerFinished
  | StateWaitFinished
  | StateEstablished
  | StateFailed.

#[export] Instance HandshakeState_eq_dec : EqDecision HandshakeState.
Proof. solve_decision. Defined.

Definition HandshakeState_String (s : HandshakeState) : string :=
  match s with
  | StateStart => "Start"
  | StateWaitClientHello => "WaitClientHello"
  | StateWaitServerHello => "WaitServerHello"
  | StateWaitEncryptedExtensions => "WaitEncryptedExtensions"
  | StateWaitCertificate => "StateWaitCertificate"
  | StateWaitCertificateVerify => "StateWaitCertificateVerify"
  | StateWaitServerFinished => "WaitServerFinished"
  | StateWaitFinished => "WaitFinished"
  | StateEstablished => "Established"
  | StateFailed => "Failed"
  end.

Record ClientHello : Type := mkClientHello {
  ch_LegacyVersion : Z;
  ch_Random : bytes; (** 32 bytes *)
  ch_SessionID : bytes;
  ch_CipherSuites : list Z;
  ch_ServerName : string;
  ch_ALPN : list string;
}.

Record ServerHello : Type := mkServerHello {
  sh_LegacyVersion : Z;
  sh_Random : bytes;
  sh_SessionID : bytes;
  sh_CipherSuite : Z;
}.

Definition TLS_AES_128_GCM_SHA256 : Z := 0x1301.
Definition TLS_AES_256_GCM_SHA384 : Z := 0x1302.
Definition TLS_CHACHA20_POLY1305_SHA256 : Z := 0x1303.

Definition ErrNoSharedCipher : error := errorsNew "tls: no shared cipher suite".
Definition ErrBadClientHello : error := errorsNew "tls: malformed ClientHello".
Definition ErrBadServerHello : error := errorsNew "tls: malformed ServerHello".
Definition ErrUnsupportedVersion : error := errorsNew "tls: only TLS 1.3 is supported".

Definition extServerName : Z := 0.
Definition extSupportedGroups : Z := 10.
Definition extSignatureAlgorithms : Z := 13.
Definition extALPN : Z := 16.
Definition extSupportedVersions : Z := 43.
Definition extKeyShare : Z := 51.
Definition x25519Group : Z := 0x001d.
Definition ALPNProtoH2 : string := "h2".

(** ** Extensions *)

Section Parsers.
Context {S : Type}.

(** [uint16(b[i])<<8 | uint16(b[i+1])] *)
Definition index16 (b : bytes) (i : Z) : M S Z :=
  x ← index b i; y ← index b (i + 1); mret (be16 x y).

(** The callback of [parseExtensions] works on the variables [a] it captures. *)
Fixpoint parseExtensions_loop {A} (fn : Z -> bytes -> A -> M S A) (fuel : nat)
    (b : bytes) (a : A) : M S A :=
  match fuel with
  | O => panic
  | Datatypes.S fuel =>
      if negb (zlen b >=? 4) then mret a
      else
        typ ← index16 b 0;
        length ← index16 b 2;
        if 4 + length >? zlen b then mret a
        else
          data ← reslice b 4 (4 + length);
          a ← fn typ data a;
          b ← reslice b (4 + length) (zlen b);
          parseExtensions_loop fn fuel b a
  end.

Definition parseExtensions {A} (fn : Z -> bytes -> A -> M S A) (b : bytes) (a : A) : M S A :=
  parseExtensions_loop fn (fuel_for b) b a.

(** The names of an ALPN list, appended to [alpn] until one does not fit. *)
Fixpoint alpn_loop (fuel : nat) (p : bytes) (alpn : list string) : M S (list string) :=
  match fuel with
  | O => panic
  | Datatypes.S fuel =>
      if negb (zlen p >? 0) then mret alpn
      else
        n ← index p 0;
        if 1 + n >? zlen p then mret alpn
        else
          name ← reslice p 1 (1 + n);
          p ← reslice p (1 + n) (zlen p);
          alpn_loop fuel p (alpn ++ [string_of_bytes name])
  end.

(** The callback of [ParseClientHello]: the server name and the ALPN list. *)
Definition onHelloExtension (typ : Z) (data : bytes) (a : string * list string)
    : M S (string * list string) :=
  let '(serverName, alpn) := a in
  if typ =? extServerName then
    if zlen data <? 5 then mret a
    else
      nameLen ← index16 data 3;
      if 5 + nameLen <=? zlen data then
        name ← reslice data 5 (5 + nameLen);
        mret (string_of_bytes name, alpn)
      else mret a
  else if typ =? extALPN then
    if zlen data <? 2 then mret a
    else
      listLen ← index16 data 0;
      if 2 + listLen >? zlen data then mret a
      else
        p ← reslice data 2 (2 + listLen);
        alpn ← alpn_loop (fuel_for p) p alpn;
        mret (serverName, alpn)
  else mret a.

(** A vector with a one-byte length at [off]: the content and the offset behind it. *)
Definition read_vec8 (e : error) (b : bytes) (off : Z) : M S ((bytes * Z) + error) :=
  if off >=? zlen b then mret (inr e)
  else
    n ← index b off;
    let off := off + 1 in
    if off + n >? zlen b then mret (inr e)
    else v ← reslice b off (off + n); mret (inl (v, off + n)).

Fixpoint suites_loop (fuel : nat) (b : bytes) (off csLen i : Z) (acc : list Z) : M S (list Z) :=
  match fuel with
  | O => panic
  | Datatypes.S fuel =>
      if i <? csLen then
        cs ← index16 b (off + i);
        suites_loop fuel b off csLen (i + 2) (acc ++ [cs])
      else mret acc
  end.

Definition read_suites (b : bytes) (off : Z) : M S ((list Z * Z) + error) :=
  if off + 2 >? zlen b then mret (inr ErrBadClientHello)
  else
    csLen ← index16 b off;
    let off := off + 2 in
    if negb (csLen mod 2 =? 0) || (off + csLen >? zlen b) then mret (inr ErrBadClientHello)
    else
      l ← suites_loop (Datatypes.S (Z.to_nat csLen)) b off csLen 0 [];
      mret (inl (l, off + csLen)).

(** The extensions at the end of a ClientHello; none at all is accepted. *)
Definition read_hello_extensions (b : bytes) (off : Z) : M S ((string * list string) + error) :=
  if off + 2 >? zlen b then mret (inl (""%string, []))
  else
    extLen ← index16 b off;
    let off := off + 2 in
    if off + extLen >? zlen b then mret (inr ErrBadClientHello)
    else
      exts ← reslice b off (off + extLen);
      r ← parseExtensions onHelloExtension exts (""%string, []);
      mret (inl r).

Definition ParseClientHello (b : bytes) : M S (ClientHello + error) :=
  if zlen b <? 34 then mret (inr ErrBadClientHello)
  else
    version ← index16 b 0;
    random ← reslice b 2 34;
    r ← read_vec8 ErrBadClientHello b 34;
    match r with
    | inr e => mret (inr e)
    | inl (sid, off) =>
        r ← read_suites b off;
        match r with
        | inr e => mret (inr e)
        | inl (suites, off) =>
            r ← read_vec8 ErrBadClientHello b off;
            match r with
            | inr e => mret (inr e)
            | inl (_, off) =>
                r ← read_hello_extensions b off;
                match r with
                | inr e => mret (inr e)
                | inl (name, alpn) => mret (inl (mkClientHello version random sid suites name alpn))
                end
            end
        end
    end.

Definition ParseServerHello (b : bytes) : M S (ServerHello + error) :=
  if zlen b <? 34 then mret (inr ErrBadServerHello)
  else
    version ← index16 b 0;
    random ← reslice b 2 34;
    r ← read_vec8 ErrBadServerHello b 34;
    match r with
    | inr e => mret (inr e)
    | inl (sid, off) =>
        if off + 2 >? zlen b then mret (inr ErrBadServerHello)
        else
          suite ← index16 b off;
          mret (inl (mkServerHello version random sid suite))
    end.

(** ** Key shares *)

(** [parseKeyShareEntry] and [parseKeyShare] differ in the words of their errors. *)
Definition key_share_entry (what : string) (data : bytes) : M S (bytes + error) :=
  if zlen data <? 4 then mret (inr (errorsNew (what +:+ " too short")))
  else
    group ← index16 data 0;
    if negb (group =? x25519Group) then
      mret (inr (errorsNew ("tls: unsupported group 0x" +:+ fmt_x group)))
    else
      length ← index16 data 2;
      if 4 + length >? zlen data then mret (inr (errorsNew (what +:+ " truncated")))
      else pub ← reslice data 4 (4 + length); mret (inl pub).

Definition parseKeyShareEntry (data : bytes) : M S (bytes + error) :=
  key_share_entry "tls: key_share entry" data.
Definition parseKeyShare (data : bytes) : M S (bytes + error) :=
  key_share_entry "tls: key_share" data.

Fixpoint client_shares_loop (fuel : nat) (b : bytes) : M S (bytes + error) :=
  match fuel with
  | O => panic
  | Datatypes.S fuel =>
      if negb (zlen b >=? 4) then mret (inr (errorsNew "tls: no x25519 key share"))
      else
        group ← index16 b 0;
        length ← index16 b 2;
        if 4 + length >? zlen b then
          mret (inr (errorsNew "tls: client key_share entry truncated"))
        else if group =? x25519Group then
          pub ← reslice b 4 (4 + length); mret (inl pub)
        else
          b ← reslice b (4 + length) (zlen b);
          client_shares_loop fuel b
  end.

Definition parseClientKeyShare (data : bytes) : M S (bytes + error) :=
  if zlen data <? 2 then mret (inr (errorsNew "tls: client key_share too short"))
  else
    total ← index16 data 0;
    if 2 + total >? zlen data then mret (inr (errorsNew "tls: client key_share truncated"))
    else
      b ← reslice data 2 (2 + total);
      client_shares_loop (fuel_for b) b.

(** The callback of [findKeyShare]; [found] and [findErr] are its captures. *)
Definition onKeyShareExtension (typ : Z) (data : bytes) (a : option bytes * option error)
    : M S (option bytes * option error) :=
  let '(found, findErr) := a in
  if negb (typ =? extKeyShare) || bool_decide (is_Some found) || bool_decide (is_Some findErr)
  then mret a
  else
    r ← parseKeyShareEntry data;
    match r with
    | inl pub => mret (Some pub, None)
    | inr _ =>
        r ← parseClientKeyShare data;
        match r with
        | inl pub => mret (Some pub, None)
        | inr e => mret (None, Some e)
        end
    end.

Definition findKeyShare (b : bytes) (off : Z) : M S (bytes + error) :=
  if off + 2 >? zlen b then mret (inr (errorsNew "tls: no extensions"))
  else
    extLen ← index16 b off;
    let off := off + 2 in
    if off + extLen >? zlen b then mret (inr (errorsNew "tls: extensions truncated"))
    else
      exts ← reslice b off (off + extLen);
      r ← parseExtensions onKeyShareExtension exts (None, None);
      match r with
      | (_, Some e) => mret (inr e)
      | (None, None) => mret (inr (errorsNew "tls: no key_share extension"))
      | (Some pub, None) => mret (inl pub)
      end.

Definition clientKeyShare (ch : bytes) : M S (bytes + error) :=
  let off := 34 in
  if off >=? zlen ch then mret (inr ErrBadClientHello)
  else
    sidLen ← index ch off;
    let off := off + (1 + sidLen) in
    if off + 2 >? zlen ch then mret (inr ErrBadClientHello)
    else
      csLen ← index16 ch off;
      let off := off + (2 + csLen) in
      if off >=? zlen ch then mret (inr ErrBadClientHello)
      else
        cmLen ← index ch off;
        let off := off + (1 + cmLen) in
        findKeyShare ch off.

Definition serverKeyShare (sh : bytes) : M S (bytes + error) :=
  let off := 34 in
  if off >=? zlen sh then mret (inr ErrBadServerHello)
  else
    sidLen ← index sh off;
    let off := off + (1 + sidLen) in
    let off := off + 3 in
    findKeyShare sh off.

(** The callback of [parseALPNServerExtension]. *)
Definition onALPNExtension (typ : Z) (data : bytes) (got : string) : M S string :=
  if negb (typ =? extALPN) || (zlen data <? 2) then mret got
  else
    n ← index16 data 0;
    if (2 + n >? zlen data) || (n <? 1) then mret got
    else
      p ← reslice data 2 (2 + n);
      nameLen ← index p 0;
      if 1 + nameLen >? zlen p then mret got
      else name ← reslice p 1 (1 + nameLen); mret (string_of_bytes name).

Definition parseALPNServerExtension (body : bytes) : M S string :=
  if zlen body <? 2 then mret ""%string
  else
    listLen ← index16 body 0;
    if 2 + listLen >? zlen body then mret ""%string
    else
      exts ← reslice body 2 (2 + listLen);
      parseExtensions onALPNExtension exts ""%string.
End Parsers.

(** ** Writing *)

Definition appendExtension (dst : bytes) (typ : Z) (data : bytes) : bytes :=
  let dst := dst ++ [u8 (typ >> 8); u8 typ; u8 (zlen data >> 8); u8 (zlen data)] in
  dst ++ data.

Definition appendKeyShareEntry (pub : bytes) : bytes :=
  let out := [0; u8 x25519Group; u8 (zlen pub >> 8); u8 (zlen pub)] in
  out ++ pub.

Definition appendKeyShare (pub : bytes) : bytes :=
  let entry := [0; u8 x25519Group; u8 (zlen pub >> 8); u8 (zlen pub)] in
  let entry := entry ++ pub in
  let out := [u8 (zlen entry >> 8); u8 (zlen entry)] in
  out ++ entry.

(** A list of 16-bit numbers behind its length in bytes. *)
Definition append_u16s (l : list Z) : bytes :=
  fold_left (fun out g => out ++ [u8 (g >> 8); u8 g]) l
    [u8 ((zlen l * 2) >> 8); u8 (zlen l * 2)].

Definition appendSupportedGroups : bytes :=
  let groups := [x25519Group] in append_u16s groups.
Definition appendSignatureAlgorithms : bytes :=
  let algs := [0x0804; 0x0403; 0x0807] in append_u16s algs.

Definition appendServerName (name : string) : bytes :=
  let name := bytes_of_string name in
  let inner := [0] in
  let inner := inner ++ [u8 (zlen name >> 8); u8 (zlen name)] in
  let inner := inner ++ name in
  let out := [u8 (zlen inner >> 8); u8 (zlen inner)] in
  out ++ inner.

Definition appendALPNList (protos : list string) : bytes :=
  let inner := fold_left (fun inner p =>
    let p := bytes_of_string p in
    let inner := inner ++ [u8 (zlen p)] in
    inner ++ p) protos [] in
  let out := [u8 (zlen inner >> 8); u8 (zlen inner)] in
  out ++ inner.

(** The list of extensions of a ClientHello. *)
Definition clientExtensions (ch : ClientHello) (keyShare : bytes) : bytes :=
  let exts := appendExtension [] extSupportedVersions [2; 0x03; 0x04] in
  let exts := appendExtension exts extSupportedGroups appendSupportedGroups in
  let exts := appendExtension exts extKeyShare (appendKeyShare keyShare) in
  let exts := appendExtension exts extSignatureAlgorithms appendSignatureAlgorithms in
  let exts := if negb (ch_ServerName ch =? "")%string
              then appendExtension exts extServerName (appendServerName (ch_ServerName ch))
              else exts in
  if 0 <? zlen (ch_ALPN ch) then appendExtension exts extALPN (appendALPNList (ch_ALPN ch))
  else exts.

Definition clientHelloBody (ch : ClientHello) (keyShare : bytes) : bytes :=
  let body := [u8 (ch_LegacyVersion ch >> 8); u8 (ch_LegacyVersion ch)] in
  let body := body ++ ch_Random ch in
  let body := body ++ [u8 (zlen (ch_SessionID ch))] in
  let body := body ++ ch_SessionID ch in
  let body := body ++ append_u16s (ch_CipherSuites ch) in
  let body := body ++ [1; 0] in
  let exts := clientExtensions ch keyShare in
  let body := body ++ [u8 (zlen exts >> 8); u8 (zlen exts)] in
  body ++ exts.

Definition AppendClientHello (dst : bytes) (ch : ClientHello) (keyShare : bytes) : bytes :=
  AppendHandshake dst hsClientHello (clientHelloBody ch keyShare).

Definition serverExtensions (keyShare : bytes) : bytes :=
  let exts := appendExtension [] extSupportedVersions [0x03; 0x04] in
  appendExtension exts extKeyShare (appendKeyShareEntry keyShare).

Definition serverHelloBody (sh : ServerHello) (keyShare : bytes) : bytes :=
  let body := [u8 (sh_LegacyVersion sh >> 8); u8 (sh_LegacyVersion sh)] in
  let body := body ++ sh_Random sh in
  let body := body ++ [u8 (zlen (sh_SessionID sh))] in
  let body := body ++ sh_SessionID sh in
  let body := body ++ [u8 (sh_CipherSuite sh >> 8); u8 (sh_CipherSuite sh)] in
  let body := body ++ [0] in
  let exts := serverExtensions keyShare in
  let body := body ++ [u8 (zlen exts >> 8); u8 (zlen exts)] in
  body ++ exts.

Definition AppendServerHello (dst : bytes) (sh : ServerHello) (keyShare : bytes) : bytes :=
  AppendHandshake dst hsServerHello (serverHelloBody sh keyShare).

(** ** ALPN *)

(** The first protocol of the server that the client also names. *)
Fixpoint negotiate_loop (clientProtos serverProtos : list string) : string :=
  match serverProtos with
  | [] => ""
  | sp :: rest =>
      if existsb (fun cp => sp =? cp)%string clientProtos then sp
      else negotiate_loop clientProtos rest
  end.

Definition negotiateALPN (clientProtos serverProtos : list string) : string :=
  if (zlen clientProtos =? 0) || (zlen serverProtos =? 0) then ""
  else negotiate_loop clientProtos serverProtos.

Definition appendALPNServerExtension (proto : string) : bytes :=
  let exts := if negb (proto =? "")%string
              then appendExtension [] extALPN (appendALPNList [proto]) else [] in
  let body := [u8 (zlen exts >> 8); u8 (zlen exts)] in
  body ++ exts.
