(* ===== verification/TlsHelloFacts.v ===== *)
(** * TlsHelloFacts

    The parsers of the hello messages never read out of bounds, and they
    invert the writers: hello messages, key shares and ALPN lists come back as
    they were sent. *)

From S2P Require Import Prelude Pump GoStd TlsRecord TlsHello.

(** ** No parser panics *)

(** [m] returns, leaves the state alone and its result satisfies [P]. *)
Definition reads {S A} (m : M S A) (P : A -> Prop) : Prop :=
  forall s, wp m (fun a s' => s' = s /\ P a) s.

Section Reads.
Context {S : Type}.

Lemma reads_ret {A} (a : A) (P : A -> Prop) : P a -> reads (S := S) (mret a) P.
Proof. intros H s. by apply wp_ret. Qed.
Lemma reads_bind {A B} (m : M S A) (k : A -> M S B) P Q :
  reads m P -> (forall a, P a -> reads (k a) Q) -> reads (m ≫= k) Q.
Proof.
  intros Hm Hk s. apply wp_bind. eapply wp_mono; [apply Hm|].
  intros a s' [-> Ha]. by apply Hk.
Qed.
Lemma reads_mono {A} (m : M S A) (P Q : A -> Prop) :
  reads m P -> (forall a, P a -> Q a) -> reads m Q.
Proof. intros Hm HPQ s. eapply wp_mono; [apply Hm|]. intros a s' [? ?]. eauto. Qed.
Lemma reads_index b i : bytes_ok b -> 0 <= i < zlen b -> reads (S := S) (index b i) is_byte.
Proof. intros Hb Hi s. apply wp_index; [done|]. split; [done|]. by apply at_byte. Qed.
Lemma reads_index16 b i :
  bytes_ok b -> 0 <= i -> i + 1 < zlen b -> reads (S := S) (index16 b i) (fun x => 0 <= x < 2 ^ 16).
Proof.
  intros Hb H0 H1. unfold index16. eapply reads_bind; [apply reads_index; [done|lia]|].
  intros x Hx. eapply reads_bind; [apply reads_index; [done|lia]|].
  intros y Hy. apply reads_ret. by apply be16_range.
Qed.
Lemma reads_reslice b a c : bytes_ok b -> 0 <= a <= c -> c <= zlen b ->
  reads (S := S) (reslice b a c) (fun l => bytes_ok l /\ zlen l = c - a).
Proof.
  intros Hb Ha Hc s. apply wp_reslice; [done..|]. split; [done|].
  split; [by auto with go|by apply zlen_slice].
Qed.

(** One read, or one case distinction, of a parser. *)
Ltac read_step :=
  lazymatch goal with
  | H : _ /\ _ |- _ => destruct H
  | |- reads (mret _) _ => apply reads_ret
  | |- reads (index _ _) _ => eapply reads_index; [done|lia]
  | |- reads (index16 _ _) _ => eapply reads_index16; [done|lia|lia]
  | |- reads (reslice _ _ _) _ => eapply reads_reslice; [done|lia|lia]
  | |- reads (mbind _ _) _ => eapply reads_bind; [|intros ? ?]
  | |- reads (if negb ?b then _ else _) _ => destruct b eqn:?; cbn [negb]
  | |- reads (if ?b then _ else _) _ => destruct b eqn:?
  end.
Ltac read_steps := repeat (unfold is_byte in *; cbv beta zeta in *; read_step).

Lemma parse_extensions_reads {A} (fn : Z -> bytes -> A -> M S A) (P : A -> Prop) b a :
  (forall t d a, bytes_ok d -> P a -> reads (fn t d a) P) ->
  bytes_ok b -> P a -> reads (parseExtensions fn b a) P.
Proof.
  intros Hfn. unfold parseExtensions, fuel_for.
  assert (forall k b a, (length b < k)%nat -> bytes_ok b -> P a ->
    reads (parseExtensions_loop fn k b a) P) as Hloop; [|by auto].
  clear b a. induction k as [|k IH]; intros b a Hk Hb Ha; [lia|]. cbn [parseExtensions_loop].
  pose proof (zlen_nonneg b). read_steps; try done; [by apply Hfn|].
  apply IH; try done. unfold zlen in *. lia.
Qed.

Lemma alpn_loop_reads k : forall p alpn, (length p < k)%nat -> bytes_ok p ->
  reads (S := S) (alpn_loop k p alpn) (fun _ => True).
Proof.
  induction k as [|k IH]; intros p alpn Hk Hp; [lia|]. cbn [alpn_loop].
  pose proof (zlen_nonneg p). read_steps; try done. apply IH; [unfold zlen in *; lia|done].
Qed.

Lemma onHelloExtension_reads t d a :
  bytes_ok d -> reads (S := S) (onHelloExtension t d a) (fun _ => True).
Proof.
  intros Hd. destruct a as [name alpn]. unfold onHelloExtension. read_steps; try done.
  apply alpn_loop_reads; [unfold fuel_for; lia|done].
Qed.

Lemma read_vec8_reads e b off : bytes_ok b -> 0 <= off ->
  reads (S := S) (read_vec8 e b off) (fun r => match r with
    | inl (v, off') => bytes_ok v /\ zlen v < 256 /\ off < off' <= zlen b
    | inr e' => e' = e
    end).
Proof.
  intros Hb Hoff. unfold read_vec8. read_steps; try done. split; [done|lia].
Qed.

Lemma suites_loop_reads k : forall b off n i acc,
  (Z.to_nat (n - i) < k)%nat -> bytes_ok b -> 0 <= off -> 0 <= i -> (n - i) mod 2 = 0 ->
  off + n <= zlen b -> reads (S := S) (suites_loop k b off n i acc) (fun _ => True).
Proof.
  induction k as [|k IH]; intros b off n i acc Hk Hb Hoff Hi Hm Hn; [lia|].
  cbn [suites_loop]. destruct (Z.ltb_spec i n); [|by apply reads_ret].
  assert (i + 1 < n) by zarith. read_steps. apply IH; try done; try lia. zarith.
Qed.

Lemma read_suites_reads b off : bytes_ok b -> 0 <= off ->
  reads (S := S) (read_suites b off)
    (fun r => match r with inl (_, off') => off < off' <= zlen b | inr _ => True end).
Proof.
  intros Hb Hoff. unfold read_suites. read_steps; try done.
  all: apply orb_false_iff in Heqb1 as [He Hl]; apply negb_false_iff in He.
  - apply suites_loop_reads; try done; try lia. rewrite Z.sub_0_r. lia.
  - lia.
Qed.

Lemma read_hello_extensions_reads b off : bytes_ok b -> 0 <= off ->
  reads (S := S) (read_hello_extensions b off) (fun _ => True).
Proof.
  intros Hb Hoff. unfold read_hello_extensions. read_steps; try done.
  apply (parse_extensions_reads _ (fun _ => True)); [|done|exact I].
  intros. by apply onHelloExtension_reads.
Qed.

Lemma ParseClientHello_reads b : bytes_ok b ->
  reads (S := S) (ParseClientHello b) (fun r => match r with
    | inl ch => bytes_ok (ch_SessionID ch) /\ zlen (ch_SessionID ch) < 256
    | inr _ => True
    end).
Proof.
  intros Hb. unfold ParseClientHello. destruct (zlen b <? 34) eqn:?; [by apply reads_ret|].
  eapply reads_bind; [eapply reads_index16; [done|lia|lia]|]. intros version _.
  eapply reads_bind; [eapply reads_reslice; [done|lia|lia]|]. intros random _.
  eapply reads_bind; [apply read_vec8_reads; [done|lia]|].
  intros [[sid off]|e] Hr; [|by apply reads_ret].
  destruct Hr as (Hs1 & Hs2 & Hoff).
  eapply reads_bind; [apply read_suites_reads; [done|lia]|].
  intros [[suites off2]|e] Hr2; [|by apply reads_ret].
  eapply reads_bind; [apply read_vec8_reads; [done|lia]|].
  intros [[cm off3]|e] Hr3; [|by apply reads_ret].
  eapply reads_bind; [apply read_hello_extensions_reads; [done|lia]|].
  intros [[name alpn]|e] _; by apply reads_ret.
Qed.

Lemma ParseServerHello_reads b : bytes_ok b ->
  reads (S := S) (ParseServerHello b) (fun _ => True).
Proof.
  intros Hb. unfold ParseServerHello. destruct (zlen b <? 34) eqn:?; [by apply reads_ret|].
  eapply reads_bind; [eapply reads_index16; [done|lia|lia]|]. intros version _.
  eapply reads_bind; [eapply reads_reslice; [done|lia|lia]|]. intros random _.
  eapply reads_bind; [apply read_vec8_reads; [done|lia]|].
  intros [[sid off]|e] Hr; [|by apply reads_ret].
  destruct Hr as (_ & _ & Hoff). read_steps; exact I.
Qed.

(** A key share is made of bytes of the message. *)
Definition share_bytes (r : bytes + error) : Prop :=
  match r with inl pub => bytes_ok pub | inr _ => True end.

Lemma key_share_entry_reads what d :
  bytes_ok d -> reads (S := S) (key_share_entry what d) share_bytes.
Proof. intros Hd. unfold key_share_entry. read_steps; done. Qed.

Lemma client_shares_loop_reads k : forall b, (length b < k)%nat -> bytes_ok b ->
  reads (S := S) (client_shares_loop k b) share_bytes.
Proof.
  induction k as [|k IH]; intros b Hk Hb; [lia|]. cbn [client_shares_loop].
  pose proof (zlen_nonneg b). read_steps; try done. apply IH; [unfold zlen in *; lia|done].
Qed.

Lemma parseClientKeyShare_reads d :
  bytes_ok d -> reads (S := S) (parseClientKeyShare d) share_bytes.
Proof.
  intros Hd. unfold parseClientKeyShare. read_steps; try done.
  apply client_shares_loop_reads; [unfold fuel_for; lia|done].
Qed.

Definition share_found (a : option bytes * option error) : Prop :=
  match fst a with Some pub => bytes_ok pub | None => True end.

Lemma onKeyShareExtension_reads t d a : bytes_ok d -> share_found a ->
  reads (S := S) (onKeyShareExtension t d a) share_found.
Proof.
  intros Hd Ha. destruct a as [found findErr]. unfold onKeyShareExtension.
  destruct (_ || _); [by apply reads_ret|].
  eapply reads_bind; [by apply key_share_entry_reads|].
  intros [pub|e] Hr; [by apply reads_ret|].
  eapply reads_bind; [by apply parseClientKeyShare_reads|].
  intros [pub|e'] Hr'; by apply reads_ret.
Qed.

Lemma findKeyShare_reads b off : bytes_ok b -> 0 <= off ->
  reads (S := S) (findKeyShare b off) share_bytes.
Proof.
  intros Hb Hoff. unfold findKeyShare. read_steps; [done|done|..].
  - apply (parse_extensions_reads _ share_found); [|done|done].
    intros. by apply onKeyShareExtension_reads.
  - destruct a1 as [[pub|] [e|]]; by apply reads_ret.
Qed.

Lemma clientKeyShare_reads b : bytes_ok b -> reads (S := S) (clientKeyShare b) share_bytes.
Proof.
  intros Hb. unfold clientKeyShare. read_steps; try done. apply findKeyShare_reads; [done|lia].
Qed.
Lemma serverKeyShare_reads b : bytes_ok b -> reads (S := S) (serverKeyShare b) share_bytes.
Proof.
  intros Hb. unfold serverKeyShare. read_steps; try done. apply findKeyShare_reads; [done|lia].
Qed.

Lemma onALPNExtension_reads t d got :
  bytes_ok d -> reads (S := S) (onALPNExtension t d got) (fun _ => True).
Proof.
  intros Hd. unfold onALPNExtension. destruct (_ || _) eqn:E; [by apply reads_ret|].
  apply orb_false_iff in E as [_ E]. read_steps; try done; apply orb_false_iff in Heqb as [? ?]; lia.
Qed.

Lemma parseALPNServerExtension_reads b :
  bytes_ok b -> reads (S := S) (parseALPNServerExtension b) (fun _ => True).
Proof.
  intros Hb. unfold parseALPNServerExtension. read_steps; try done.
  apply (parse_extensions_reads _ (fun _ => True)); [|done|exact I].
  intros. by apply onALPNExtension_reads.
Qed.
End Reads.

(** ** Reading what was written *)

Definition ext_enc (e : Z * bytes) : bytes := appendExtension [] (fst e) (snd e).
Definition ext_ok (e : Z * bytes) : Prop := 0 <= fst e < 2 ^ 16 /\ zlen (snd e) < 2 ^ 16.

Lemma appendExtension_eq dst t d : appendExtension dst t d = dst ++ ext_enc (t, d).
Proof. unfold ext_enc, appendExtension. by rewrite <- app_assoc. Qed.

Lemma append_u16s_eq l : append_u16s l = put16 (zlen l * 2) ++ concat (put16 <$> l).
Proof.
  unfold append_u16s. fold (put16 (zlen l * 2)).
  generalize (put16 (zlen l * 2)) as acc. induction l as [|g l IH]; intros acc; cbn.
  - by rewrite app_nil_r.
  - rewrite IH. by rewrite <- app_assoc.
Qed.

Lemma zlen_u16s l : zlen (concat (put16 <$> l)) = zlen l * 2.
Proof.
  induction l as [|g l IH]; [done|]. rewrite fmap_cons. cbn [concat].
  rewrite zlen_app, IH, zlen_cons. change (zlen (put16 g)) with 2. lia.
Qed.

Section Writes.
Context {S : Type}.
Implicit Types s : S.

Lemma index_mid l1 x l2 i s : i = zlen l1 -> index (l1 ++ x :: l2) i s = Some (x, s).
Proof.
  intros ->. rewrite index_ok.
  - by rewrite at_app_length.
  - pose proof (zlen_nonneg l1). pose proof (zlen_nonneg l2). rewrite zlen_app, zlen_cons. lia.
Qed.
Lemma index16_mid l1 x l2 i s :
  i = zlen l1 -> 0 <= x < 2 ^ 16 -> index16 (l1 ++ put16 x ++ l2) i s = Some (x, s).
Proof.
  intros -> Hx. unfold index16, put16. cbn [app].
  rewrite (bind_eq _ _ _ _ _ (index_mid l1 _ _ _ s eq_refl)).
  rewrite cons_middle, app_assoc.
  rewrite (bind_eq _ _ s (u8 x) s); [by rewrite be16_put|].
  apply index_mid. rewrite zlen_app. done.
Qed.
Lemma reslice_mid l1 l2 l3 a b s :
  a = zlen l1 -> b = a + zlen l2 -> reslice (l1 ++ l2 ++ l3) a b s = Some (l2, s).
Proof.
  intros -> ->. pose proof (zlen_nonneg l1). pose proof (zlen_nonneg l2). pose proof (zlen_nonneg l3).
  rewrite reslice_ok, slice_app_mid; [done|lia|rewrite !zlen_app; lia].
Qed.
Lemma reslice_tail l1 l2 a b s :
  a = zlen l1 -> b = a + zlen l2 -> reslice (l1 ++ l2) a b s = Some (l2, s).
Proof.
  intros. pose proof (reslice_mid l1 l2 [] a b s) as Hr. rewrite app_nil_r in Hr. auto.
Qed.

Lemma read_vec8_mid e l1 v l2 off s :
  off = zlen l1 -> zlen v < 256 ->
  read_vec8 e (l1 ++ u8 (zlen v) :: v ++ l2) off s = Some (inl (v, off + 1 + zlen v), s).
Proof.
  intros -> Hv. pose proof (zlen_nonneg l1). pose proof (zlen_nonneg v). pose proof (zlen_nonneg l2).
  unfold read_vec8. rewrite !zlen_app, zlen_cons, zlen_app.
  replace (_ >=? _) with false by lia.
  rewrite (bind_eq _ _ _ _ _ (index_mid l1 _ _ _ s eq_refl)).
  rewrite u8_small by (unfold is_byte; lia). replace (_ >? _) with false by lia.
  rewrite cons_middle, app_assoc.
  rewrite (bind_eq _ _ s v s); [done|]. apply reslice_mid; [|lia]. rewrite zlen_app. done.
Qed.

(** The callbacks of a list of extensions, one after the other. *)
Fixpoint ext_fold {A} (fn : Z -> bytes -> A -> M S A) (l : list (Z * bytes)) (a : A) : M S A :=
  match l with
  | [] => mret a
  | e :: l => a ← fn (fst e) (snd e) a; ext_fold fn l a
  end.

Lemma zlen_ext_enc e : zlen (ext_enc e) = 4 + zlen (snd e).
Proof. destruct e. unfold ext_enc, appendExtension. rewrite !zlen_app. done. Qed.

Lemma parse_extensions_enc {A} (fn : Z -> bytes -> A -> M S A) l : forall a s,
  Forall ext_ok l -> parseExtensions fn (concat (ext_enc <$> l)) a s = ext_fold fn l a s.
Proof.
  intros a s. unfold parseExtensions. generalize (le_n (fuel_for (concat (ext_enc <$> l)))).
  generalize (fuel_for (concat (ext_enc <$> l))) at 2 3 as k. unfold fuel_for. intros k.
  revert k a s. induction l as [|[t d] l IH]; intros k a s Hk Hl; (destruct k as [|k]; [lia|]).
  { done. }
  apply Forall_cons in Hl as [[Ht Hd] Hl]. cbn [fst snd] in *.
  rewrite fmap_cons in *. cbn [concat parseExtensions_loop ext_fold] in *.
  set (rest := concat (ext_enc <$> l)) in *.
  pose proof (zlen_nonneg d). pose proof (zlen_nonneg rest).
  assert (zlen (ext_enc (t, d) ++ rest) = 4 + zlen d + zlen rest) as Hz
    by (rewrite zlen_app, zlen_ext_enc; done).
  rewrite Hz. replace (negb _) with false by lia.
  change (ext_enc (t, d)) with (put16 t ++ put16 (zlen d) ++ d) in *.
  rewrite (bind_eq _ _ s t s) by (rewrite <- app_assoc; by apply (index16_mid [])).
  rewrite (bind_eq _ _ s (zlen d) s)
    by (rewrite <- !app_assoc; by apply (index16_mid (put16 t))).
  replace (_ >? _) with false by lia.
  rewrite (bind_eq _ _ s d s).
  2: { rewrite (app_assoc (put16 t)), <- (app_assoc _ d).
       by apply (reslice_mid (put16 t ++ put16 (zlen d))). }
  cbn [fst snd]. unfold mbind at 1 3, M_bind at 1 3.
  destruct (fn t d a s) as [[a' s']|]; [|done].
  rewrite (bind_eq _ _ s' rest s').
  2: { assert (zlen (put16 t ++ put16 (zlen d) ++ d) = 4 + zlen d) as Hh by (rewrite !zlen_app; change (zlen (put16 t)) with 2; change (zlen (put16 (zlen d))) with 2; lia).
       apply reslice_tail; lia. }
  apply IH; [|done]. rewrite length_app in Hk. cbn in Hk. lia.
Qed.
End Writes.

(** ** The extensions of a ClientHello *)

Definition alpn_enc (p : string) : bytes :=
  u8 (zlen (bytes_of_string p)) :: bytes_of_string p.
Definition alpn_ok (p : string) : Prop := zlen (bytes_of_string p) < 256.

Lemma appendALPNList_eq protos :
  appendALPNList protos =
  put16 (zlen (concat (alpn_enc <$> protos))) ++ concat (alpn_enc <$> protos).
Proof.
  unfold appendALPNList.
  assert (forall acc, fold_left (fun inner p =>
    (inner ++ [u8 (zlen (bytes_of_string p))]) ++ bytes_of_string p) protos acc =
    acc ++ concat (alpn_enc <$> protos)) as ->; [|done].
  induction protos as [|p protos IH]; intros acc; cbn [fold_left fmap list_fmap concat].
  - by rewrite app_nil_r.
  - rewrite IH. unfold alpn_enc at 2. by rewrite <- !app_assoc.
Qed.

Definition client_exts (ch : ClientHello) (keyShare : bytes) : list (Z * bytes) :=
  [(extSupportedVersions, [2; 0x03; 0x04]); (extSupportedGroups, appendSupportedGroups);
   (extKeyShare, appendKeyShare keyShare); (extSignatureAlgorithms, appendSignatureAlgorithms)] ++
  (if negb (ch_ServerName ch =? "")%string
   then [(extServerName, appendServerName (ch_ServerName ch))] else []) ++
  (if 0 <? zlen (ch_ALPN ch) then [(extALPN, appendALPNList (ch_ALPN ch))] else []).

Lemma clientExtensions_eq ch ks :
  clientExtensions ch ks = concat (ext_enc <$> client_exts ch ks).
Proof.
  unfold clientExtensions, client_exts. rewrite !fmap_app, !concat_app.
  destruct (negb _), (0 <? _); rewrite !appendExtension_eq; cbn [fmap list_fmap concat app];
    rewrite <- ?app_assoc, ?app_nil_r; done.
Qed.

Definition server_exts (keyShare : bytes) : list (Z * bytes) :=
  [(extSupportedVersions, [0x03; 0x04]); (extKeyShare, appendKeyShareEntry keyShare)].

Lemma serverExtensions_eq ks : serverExtensions ks = concat (ext_enc <$> server_exts ks).
Proof.
  unfold serverExtensions, server_exts. rewrite !appendExtension_eq. cbn [fmap list_fmap concat].
  by rewrite app_nil_r.
Qed.

Lemma ext_ok_bounded l n : Forall (fun e => 0 <= fst e < 2 ^ 16) l ->
  zlen (concat (ext_enc <$> l)) < 2 ^ 16 + n -> n <= 0 -> Forall ext_ok l.
Proof.
  intros Ht. induction Ht as [|e l He _ IH]; intros Hz Hn; [constructor|].
  rewrite fmap_cons in Hz. cbn [concat] in Hz. rewrite zlen_app, zlen_ext_enc in Hz.
  pose proof (zlen_nonneg (snd e)). pose proof (zlen_nonneg (concat (ext_enc <$> l))).
  constructor; [split; [done|lia]|]. apply IH; lia.
Qed.

Lemma zlen_appendServerName name :
  zlen (appendServerName name) = 5 + zlen (bytes_of_string name).
Proof.
  unfold appendServerName. set (b := bytes_of_string name). rewrite !zlen_app.
  change (zlen [0]) with 1. change (zlen [_; _]) with 2. lia.
Qed.

Section HelloWrites.
Context {S : Type}.
Implicit Types s : S.

Lemma alpn_loop_enc l : forall k acc s,
  Forall alpn_ok l -> (length (concat (alpn_enc <$> l)) < k)%nat ->
  alpn_loop k (concat (alpn_enc <$> l)) acc s = Some (acc ++ l, s).
Proof.
  induction l as [|p l IH]; intros k acc s Hl Hk; (destruct k as [|k]; [lia|]).
  { cbn. by rewrite app_nil_r. }
  apply Forall_cons in Hl as [Hp Hl]. unfold alpn_ok in Hp. rewrite fmap_cons in *.
  cbn [concat alpn_loop] in *. set (rest := concat (alpn_enc <$> l)) in *.
  unfold alpn_enc in *. set (n := bytes_of_string p) in *.
  pose proof (zlen_nonneg n). pose proof (zlen_nonneg rest).
  assert (zlen ((u8 (zlen n) :: n) ++ rest) = 1 + zlen n + zlen rest) as Hz
    by (rewrite zlen_app, zlen_cons; done).
  rewrite Hz. replace (negb _) with false by lia.
  rewrite (bind_eq _ _ s (zlen n) s).
  2: { rewrite <- (u8_small (zlen n)) at 2 by (unfold is_byte; lia). by apply (index_mid []). }
  replace (_ >? _) with false by lia.
  rewrite (bind_eq _ _ s n s).
  2: { change (_ ++ rest) with ([u8 (zlen n)] ++ n ++ rest). by apply reslice_mid. }
  rewrite (bind_eq _ _ s rest s).
  2: { apply reslice_tail; rewrite ?zlen_cons; lia. }
  rewrite IH.
  - unfold n. rewrite string_of_bytes_of_string. by rewrite <- app_assoc.
  - done.
  - cbn in Hk. rewrite length_app in Hk. lia.
Qed.

Lemma hello_server_name name n a s :
  zlen (bytes_of_string name) + 5 < 2 ^ 16 ->
  onHelloExtension extServerName (appendServerName name) (n, a) s = Some ((name, a), s).
Proof.
  intros Hn. unfold onHelloExtension, appendServerName.
  replace (extServerName =? extServerName) with true by done.
  set (b := bytes_of_string name) in *. pose proof (zlen_nonneg b).
  set (inner := ([0] ++ _) ++ b). change [u8 (zlen inner >> 8); u8 (zlen inner)] with (put16 (zlen inner)).
  assert (inner = [0] ++ put16 (zlen b) ++ b) as -> by (unfold inner; by rewrite <- app_assoc).
  set (w := put16 (zlen ([0] ++ put16 (zlen b) ++ b))).
  assert (zlen w = 2) as Hw by done.
  assert (zlen (w ++ [0] ++ put16 (zlen b) ++ b) = 5 + zlen b) as Hz.
  { rewrite !zlen_app, Hw. change (zlen [0]) with 1. change (zlen (put16 _)) with 2. lia. }
  rewrite Hz. replace (_ <? 5) with false by lia.
  rewrite (bind_eq _ _ s (zlen b) s).
  2: { rewrite app_assoc. apply index16_mid; [done|lia]. }
  replace (_ <=? _) with true by lia.
  rewrite (bind_eq _ _ s b s).
  2: { rewrite !app_assoc. apply reslice_tail; [|done]. rewrite !zlen_app, Hw. done. }
  unfold b. by rewrite string_of_bytes_of_string.
Qed.

Lemma hello_alpn l n a s :
  Forall alpn_ok l -> zlen (appendALPNList l) < 2 ^ 16 ->
  onHelloExtension extALPN (appendALPNList l) (n, a) s = Some ((n, a ++ l), s).
Proof.
  intros Hl Hz. rewrite appendALPNList_eq in *. set (inner := concat (alpn_enc <$> l)) in *.
  pose proof (zlen_nonneg inner). rewrite zlen_app in Hz. change (zlen (put16 _)) with 2 in Hz.
  unfold onHelloExtension. replace (extALPN =? extServerName) with false by done.
  replace (extALPN =? extALPN) with true by done. rewrite zlen_app.
  change (zlen (put16 (zlen inner))) with 2. replace (_ <? 2) with false by lia.
  rewrite (bind_eq _ _ s (zlen inner) s).
  2: { apply (index16_mid []); [done|lia]. }
  replace (_ >? _) with false by lia.
  rewrite (bind_eq _ _ s inner s) by (by apply reslice_tail).
  rewrite (bind_eq _ _ s (a ++ l) s); [done|].
  apply alpn_loop_enc; [done|]. unfold fuel_for, inner. lia.
Qed.
End HelloWrites.

(** ** Hello messages *)

Definition client_hello_ok (ch : ClientHello) (ks : bytes) : Prop :=
  0 <= ch_LegacyVersion ch < 2 ^ 16 /\ zlen (ch_Random ch) = 32 /\
  zlen (ch_SessionID ch) < 256 /\
  Forall (fun cs => 0 <= cs < 2 ^ 16) (ch_CipherSuites ch) /\
  zlen (ch_CipherSuites ch) < 2 ^ 15 /\ Forall alpn_ok (ch_ALPN ch) /\
  zlen (clientExtensions ch ks) < 2 ^ 16 /\ zlen ks <> 25.

Definition server_hello_ok (sh : ServerHello) (ks : bytes) : Prop :=
  0 <= sh_LegacyVersion sh < 2 ^ 16 /\ zlen (sh_Random sh) = 32 /\
  zlen (sh_SessionID sh) < 256 /\ 0 <= sh_CipherSuite sh < 2 ^ 16 /\
  zlen (serverExtensions ks) < 2 ^ 16.

(** What both hello messages start with. *)
Definition hello_head (version : Z) (random sid : bytes) : bytes :=
  (put16 version ++ random) ++ u8 (zlen sid) :: sid.

Lemma clientHelloBody_eq ch ks :
  clientHelloBody ch ks =
  hello_head (ch_LegacyVersion ch) (ch_Random ch) (ch_SessionID ch) ++
  put16 (zlen (ch_CipherSuites ch) * 2) ++ concat (put16 <$> ch_CipherSuites ch) ++
  u8 (zlen [0]) :: [0] ++ put16 (zlen (clientExtensions ch ks)) ++ clientExtensions ch ks.
Proof.
  unfold clientHelloBody, hello_head. rewrite append_u16s_eq.
  change [u8 (ch_LegacyVersion ch >> 8); u8 (ch_LegacyVersion ch)] with (put16 (ch_LegacyVersion ch)).
  change [1; 0] with (u8 (zlen [0]) :: [0]). rewrite <- !app_assoc. done.
Qed.

Lemma serverHelloBody_eq sh ks :
  serverHelloBody sh ks =
  hello_head (sh_LegacyVersion sh) (sh_Random sh) (sh_SessionID sh) ++
  put16 (sh_CipherSuite sh) ++ [0] ++ put16 (zlen (serverExtensions ks)) ++ serverExtensions ks.
Proof. unfold serverHelloBody, hello_head. rewrite <- !app_assoc. done. Qed.

Section Hello.
Context {S : Type}.
Implicit Types s : S.

(** The fixed part and the session id of either hello message. *)
Lemma hello_head_reads v random sid rest e s :
  0 <= v < 2 ^ 16 -> zlen random = 32 -> zlen sid < 256 ->
  let b := hello_head v random sid ++ rest in
  (zlen b <? 34) = false /\ index16 b 0 s = Some (v, s) /\
  reslice b 2 34 s = Some (random, s) /\
  (34 >=? zlen b) = false /\ index b 34 s = Some (zlen sid, s) /\
  read_vec8 e b 34 s = Some (inl (sid, zlen (hello_head v random sid)), s).
Proof.
  intros Hv Hr Hs b. pose proof (zlen_nonneg sid). pose proof (zlen_nonneg rest).
  set (p := put16 v ++ random). assert (zlen p = 34) as Hp by (unfold p; rewrite zlen_app, Hr; done).
  assert (b = p ++ u8 (zlen sid) :: sid ++ rest) as Hb by (unfold b, hello_head; by rewrite <- app_assoc).
  assert (zlen b = 35 + zlen sid + zlen rest) as Hz
    by (rewrite Hb, zlen_app, zlen_cons, zlen_app; lia).
  assert (zlen (hello_head v random sid) = 34 + 1 + zlen sid) as Hh
    by (unfold hello_head; fold p; rewrite zlen_app, zlen_cons; lia).
  repeat split.
  - lia.
  - rewrite Hb. unfold p. rewrite <- app_assoc. by apply (index16_mid []).
  - rewrite Hb. unfold p. rewrite <- app_assoc. apply reslice_mid; [done|]. rewrite Hr. done.
  - lia.
  - rewrite Hb. rewrite <- (u8_small (zlen sid)) at 2 by (unfold is_byte; lia). by apply index_mid.
  - rewrite Hb, Hh, <- Hp. by apply read_vec8_mid.
Qed.

Lemma suites_loop_enc l : forall k l1 l2 off n i acc s,
  Forall (fun cs => 0 <= cs < 2 ^ 16) l -> (length l < k)%nat ->
  off + i = zlen l1 -> n - i = zlen l * 2 ->
  suites_loop k (l1 ++ concat (put16 <$> l) ++ l2) off n i acc s = Some (acc ++ l, s).
Proof.
  induction l as [|x l IH]; intros k l1 l2 off n i acc s Hl Hk Hoff Hn; (destruct k as [|k]; [cbn in Hk; lia|]).
  { cbn [suites_loop]. change (zlen []) with 0 in Hn. replace (i <? n) with false by lia.
    by rewrite app_nil_r. }
  apply Forall_cons in Hl as [Hx Hl]. rewrite zlen_cons in Hn. pose proof (zlen_nonneg l).
  rewrite fmap_cons. cbn [suites_loop concat]. replace (i <? n) with true by lia.
  rewrite (bind_eq _ _ s x s) by (rewrite <- app_assoc; by apply index16_mid).
  rewrite <- (app_assoc (put16 x)), app_assoc. rewrite IH; [by rewrite <- app_assoc|done|cbn in Hk; lia| |lia].
  rewrite zlen_app. change (zlen (put16 x)) with 2. lia.
Qed.

Lemma read_suites_mid l1 l l2 s :
  Forall (fun cs => 0 <= cs < 2 ^ 16) l -> zlen l < 2 ^ 15 ->
  read_suites (l1 ++ put16 (zlen l * 2) ++ concat (put16 <$> l) ++ l2) (zlen l1) s =
  Some (inl (l, zlen l1 + 2 + zlen l * 2), s).
Proof.
  intros Hl Hz. pose proof (zlen_nonneg l1). pose proof (zlen_nonneg l). pose proof (zlen_nonneg l2).
  unfold read_suites. rewrite !zlen_app, zlen_u16s. change (zlen (put16 _)) with 2.
  replace (_ >? _) with false by lia.
  rewrite (bind_eq _ _ s (zlen l * 2) s) by (apply index16_mid; [done|lia]).
  rewrite Z_mod_mult. cbn [Z.eqb negb orb]. replace (_ >? _) with false by lia.
  rewrite app_assoc. rewrite (bind_eq _ _ s l s); [done|].
  apply suites_loop_enc; [done|unfold zlen; lia| |lia]. rewrite zlen_app. change (zlen (put16 _)) with 2. lia.
Qed.

Lemma read_extensions_mid l1 exts s :
  zlen (concat (ext_enc <$> exts)) < 2 ^ 16 -> Forall ext_ok exts ->
  read_hello_extensions (l1 ++ put16 (zlen (concat (ext_enc <$> exts))) ++ concat (ext_enc <$> exts))
    (zlen l1) s =
  (r ← ext_fold onHelloExtension exts (""%string, []); mret (inl r)) s.
Proof.
  intros Hz Hok. set (e := concat (ext_enc <$> exts)) in *.
  pose proof (zlen_nonneg l1). pose proof (zlen_nonneg e). unfold read_hello_extensions.
  rewrite !zlen_app. change (zlen (put16 _)) with 2. replace (_ >? _) with false by lia.
  rewrite (bind_eq _ _ s (zlen e) s) by (apply index16_mid; [done|lia]).
  replace (_ >? _) with false by lia. rewrite app_assoc.
  rewrite (bind_eq _ _ s e s) by (apply reslice_tail; [by rewrite zlen_app|lia]).
  unfold mbind, M_bind. unfold e. by rewrite parse_extensions_enc.
Qed.

Lemma client_exts_ok ch ks :
  zlen (clientExtensions ch ks) < 2 ^ 16 -> Forall ext_ok (client_exts ch ks).
Proof.
  rewrite clientExtensions_eq. intros Hz. apply (ext_ok_bounded _ 0); [|lia|lia].
  unfold client_exts. repeat (apply Forall_app; split); try destruct (negb _); try destruct (0 <? _);
    repeat constructor; done.
Qed.
End Hello.

Lemma ClientHello_eta ch :
  mkClientHello (ch_LegacyVersion ch) (ch_Random ch) (ch_SessionID ch) (ch_CipherSuites ch)
    (ch_ServerName ch) (ch_ALPN ch) = ch.
Proof. by destruct ch. Qed.

Section Roundtrip.
Context {S : Type}.
Implicit Types s : S.

Lemma client_ext_fold ch ks s :
  Forall alpn_ok (ch_ALPN ch) -> Forall ext_ok (client_exts ch ks) ->
  ext_fold onHelloExtension (client_exts ch ks) (""%string, []) s =
  Some ((ch_ServerName ch, ch_ALPN ch), s).
Proof.
  intros Halpn Hok. unfold client_exts in *. cbn [app ext_fold fst snd].
  repeat (rewrite (bind_eq _ _ s (""%string, []) s) by done).
  do 4 apply Forall_inv_tail in Hok.
  destruct (ch_ServerName ch =? "")%string eqn:Hn; cbn [negb app ext_fold fst snd] in *.
  - apply String.eqb_eq in Hn. rewrite Hn. destruct (Z.ltb_spec 0 (zlen (ch_ALPN ch))) as [Hl|Hl].
    + cbn [ext_fold fst snd]. apply Forall_inv in Hok as [_ Hok].
      rewrite (bind_eq _ _ s (""%string, ch_ALPN ch) s); [done|]. by apply hello_alpn.
    + assert (ch_ALPN ch = []) as -> by (apply zlen_zero; pose proof (zlen_nonneg (ch_ALPN ch)); lia). done.
  - pose proof (Forall_inv Hok) as [_ Hname]. apply Forall_inv_tail in Hok. cbn [snd] in Hname.
    rewrite (bind_eq _ _ s (ch_ServerName ch, []) s).
    2: { apply hello_server_name. rewrite zlen_appendServerName in Hname. lia. }
    destruct (Z.ltb_spec 0 (zlen (ch_ALPN ch))) as [Hl|Hl].
    + cbn [ext_fold fst snd]. apply Forall_inv in Hok as [_ Hok].
      rewrite (bind_eq _ _ s (ch_ServerName ch, ch_ALPN ch) s); [done|]. by apply hello_alpn.
    + assert (ch_ALPN ch = []) as -> by (apply zlen_zero; pose proof (zlen_nonneg (ch_ALPN ch)); lia). done.
Qed.

Lemma parse_client_hello ch ks s :
  client_hello_ok ch ks -> ParseClientHello (clientHelloBody ch ks) s = Some (inl ch, s).
Proof.
  intros (Hv & Hr & Hs & Hcs & Hncs & Halpn & Hx & _). rewrite clientHelloBody_eq.
  set (rest := put16 (zlen (ch_CipherSuites ch) * 2) ++ _).
  set (head := hello_head _ _ _).
  destruct (hello_head_reads (ch_LegacyVersion ch) (ch_Random ch) (ch_SessionID ch) rest
              ErrBadClientHello s Hv Hr Hs) as (H1 & H2 & H3 & _ & _ & H4). fold head in H1, H2, H3, H4.
  unfold ParseClientHello. rewrite H1, (bind_eq _ _ _ _ _ H2), (bind_eq _ _ _ _ _ H3), (bind_eq _ _ _ _ _ H4).
  clear H1 H2 H3 H4.
  rewrite (bind_eq _ _ _ _ _ (read_suites_mid head (ch_CipherSuites ch) _ s Hcs Hncs)
             : (read_suites (head ++ rest) _ ≫= _) s = _).
  set (l2 := head ++ put16 (zlen (ch_CipherSuites ch) * 2) ++ concat (put16 <$> ch_CipherSuites ch)).
  set (exts := clientExtensions ch ks) in *.
  assert (zlen head + 2 + zlen (ch_CipherSuites ch) * 2 = zlen l2) as ->.
  { unfold l2. rewrite !zlen_app, zlen_u16s. change (zlen (put16 _)) with 2. lia. }
  assert (head ++ rest = l2 ++ u8 (zlen [0]) :: [0] ++ put16 (zlen exts) ++ exts) as Hb
    by (unfold l2, rest; by rewrite <- !app_assoc).
  rewrite Hb. rewrite (bind_eq _ _ _ _ _ (read_vec8_mid ErrBadClientHello l2 [0] _ _ s eq_refl eq_refl)).
  replace (l2 ++ u8 (zlen [0]) :: [0] ++ put16 (zlen exts) ++ exts)
    with ((l2 ++ [1; 0]) ++ put16 (zlen exts) ++ exts) by (by rewrite <- app_assoc).
  replace (zlen l2 + 1 + zlen [0]) with (zlen (l2 ++ [1; 0]))
    by (rewrite zlen_app, <- Z.add_assoc; done).
  pose proof (client_exts_ok ch ks Hx) as Hok. fold exts in Hok.
  unfold exts in *. rewrite clientExtensions_eq in *.
  rewrite (bind_eq _ _ s (inl (ch_ServerName ch, ch_ALPN ch)) s).
  { rewrite ClientHello_eta. done. }
  rewrite read_extensions_mid by done. by rewrite (bind_eq _ _ _ _ _ (client_ext_fold ch ks s Halpn Hok)).
Qed.

(** Key shares *)

Lemma key_share_entry_enc what ks s :
  zlen ks < 2 ^ 16 -> key_share_entry what (appendKeyShareEntry ks) s = Some (inl ks, s).
Proof.
  intros Hk. pose proof (zlen_nonneg ks). unfold key_share_entry, appendKeyShareEntry.
  rewrite zlen_app. change (zlen [_; _; _; _]) with 4. replace (_ <? 4) with false by lia.
  rewrite (bind_eq _ _ s x25519Group s) by (by apply (index16_mid [] x25519Group)).
  cbn [Z.eqb negb x25519Group Pos.eqb].
  rewrite (bind_eq _ _ s (zlen ks) s).
  2: { change ([0; u8 x25519Group; u8 (zlen ks >> 8); u8 (zlen ks)] ++ ks)
         with ([0; u8 x25519Group] ++ put16 (zlen ks) ++ ks). by apply index16_mid. }
  replace (_ >? _) with false by lia.
  rewrite (bind_eq _ _ s ks s); [done|]. by apply reslice_tail.
Qed.

(** The list of one share a client sends is not read as a single entry,
    because its length is not the number of the group. *)
Lemma client_share_enc ks s :
  zlen ks + 6 < 2 ^ 16 -> zlen ks <> 25 ->
  (exists e, parseKeyShareEntry (appendKeyShare ks) s = Some (inr e, s)) /\
  parseClientKeyShare (appendKeyShare ks) s = Some (inl ks, s).
Proof.
  intros Hk Hne. pose proof (zlen_nonneg ks). unfold appendKeyShare.
  set (entry := [0; u8 x25519Group; _; _] ++ ks).
  assert (entry = appendKeyShareEntry ks) as He by done.
  assert (zlen entry = 4 + zlen ks) as Hz by (unfold entry; rewrite zlen_app; done).
  fold (put16 (zlen entry)). split.
  - unfold parseKeyShareEntry, key_share_entry. rewrite zlen_app. change (zlen (put16 _)) with 2.
    replace (_ <? 4) with false by lia.
    rewrite (bind_eq _ _ s (zlen entry) s) by (apply (index16_mid []); [done|lia]).
    replace (zlen entry =? x25519Group) with false by (unfold x25519Group; lia). by eexists.
  - unfold parseClientKeyShare. rewrite zlen_app. change (zlen (put16 _)) with 2.
    replace (_ <? 2) with false by lia.
    rewrite (bind_eq _ _ s (zlen entry) s) by (apply (index16_mid []); [done|lia]).
    replace (_ >? _) with false by lia.
    rewrite (bind_eq _ _ s entry s) by (by apply reslice_tail).
    unfold fuel_for. cbn [client_shares_loop]. rewrite Hz. replace (negb _) with false by lia.
    rewrite (bind_eq _ _ s x25519Group s) by (by apply (index16_mid [] x25519Group)).
    rewrite (bind_eq _ _ s (zlen ks) s).
    2: { apply (index16_mid [0; u8 x25519Group] (zlen ks) ks); [done|lia]. }
    replace (_ >? _) with false by lia. cbn [Z.eqb x25519Group Pos.eqb].
    rewrite (bind_eq _ _ s ks s); [done|]. by apply reslice_tail.
Qed.

Lemma find_key_share_mid l1 exts ks s :
  zlen (concat (ext_enc <$> exts)) < 2 ^ 16 -> Forall ext_ok exts ->
  ext_fold onKeyShareExtension exts (None, None) s = Some ((Some ks, None), s) ->
  findKeyShare (l1 ++ put16 (zlen (concat (ext_enc <$> exts))) ++ concat (ext_enc <$> exts))
    (zlen l1) s = Some (inl ks, s).
Proof.
  intros Hz Hok Hf. set (e := concat (ext_enc <$> exts)) in *.
  pose proof (zlen_nonneg l1). pose proof (zlen_nonneg e). unfold findKeyShare.
  rewrite !zlen_app. change (zlen (put16 _)) with 2. replace (_ >? _) with false by lia.
  rewrite (bind_eq _ _ s (zlen e) s) by (apply index16_mid; [done|lia]).
  replace (_ >? _) with false by lia. rewrite app_assoc.
  rewrite (bind_eq _ _ s e s) by (apply reslice_tail; [by rewrite zlen_app|lia]).
  rewrite (bind_eq _ _ s (Some ks, None) s); [done|]. unfold e. by rewrite parse_extensions_enc.
Qed.
End Roundtrip.

Section HelloTheorems.
Context {S : Type}.
Implicit Types s : S.


Lemma key_share_skip t d a s :
  t <> extKeyShare \/ is_Some (fst a) -> onKeyShareExtension t d a s = Some (a, s).
Proof.
  intros Hk. destruct a as [found e]. unfold onKeyShareExtension.
  assert (negb (t =? extKeyShare) || bool_decide (is_Some found) = true) as ->; [|done].
  apply orb_true_iff. destruct Hk as [Hk|Hk]; [left; lia|right; by apply bool_decide_eq_true].
Qed.

Lemma key_share_skip_all l a s :
  Forall (fun e => fst e <> extKeyShare \/ is_Some (fst a)) l ->
  ext_fold onKeyShareExtension l a s = Some (a, s).
Proof.
  induction 1 as [|e l He _ IH]; [done|]. cbn [ext_fold].
  by rewrite (bind_eq _ _ _ _ _ (key_share_skip _ (snd e) _ s He)).
Qed.

Lemma zlen_appendKeyShare ks : zlen (appendKeyShare ks) = 6 + zlen ks.
Proof.
  unfold appendKeyShare. rewrite !zlen_app. change (zlen [_; _]) with 2.
  change (zlen [_; _; _; _]) with 4. lia.
Qed.

Lemma zlen_appendKeyShareEntry ks : zlen (appendKeyShareEntry ks) = 4 + zlen ks.
Proof. unfold appendKeyShareEntry. rewrite zlen_app. done. Qed.

Lemma client_key_share ch ks s :
  client_hello_ok ch ks -> clientKeyShare (clientHelloBody ch ks) s = Some (inl ks, s).
Proof.
  intros (Hv & Hr & Hs & Hcs & Hncs & Halpn & Hx & Hks). rewrite clientHelloBody_eq.
  set (rest := put16 (zlen (ch_CipherSuites ch) * 2) ++ _). set (head := hello_head _ _ _).
  destruct (hello_head_reads (ch_LegacyVersion ch) (ch_Random ch) (ch_SessionID ch) rest
              ErrBadClientHello s Hv Hr Hs) as (_ & _ & _ & H1 & H2 & _). fold head in H1, H2.
  assert (zlen head = 35 + zlen (ch_SessionID ch)) as Hh.
  { unfold head, hello_head. rewrite !zlen_app, zlen_cons, Hr. change (zlen (put16 _)) with 2. lia. }
  unfold clientKeyShare. rewrite H1, (bind_eq _ _ _ _ _ H2). clear H1 H2.
  replace (34 + (1 + zlen (ch_SessionID ch))) with (zlen head) by lia.
  set (exts := clientExtensions ch ks) in *.
  set (l2 := head ++ put16 (zlen (ch_CipherSuites ch) * 2) ++ concat (put16 <$> ch_CipherSuites ch)).
  assert (head ++ rest = l2 ++ u8 (zlen [0]) :: [0] ++ put16 (zlen exts) ++ exts) as Hb
    by (unfold l2, rest; by rewrite <- !app_assoc).
  assert (zlen l2 = zlen head + (2 + zlen (ch_CipherSuites ch) * 2)) as Hl2
    by (unfold l2; rewrite !zlen_app, zlen_u16s; done).
  pose proof (zlen_nonneg head). pose proof (zlen_nonneg (ch_CipherSuites ch)). pose proof (zlen_nonneg exts).
  assert (zlen (head ++ rest) = zlen l2 + (4 + zlen exts)) as Hz
    by (rewrite Hb, zlen_app, zlen_cons, !zlen_app; change (zlen (put16 _)) with 2;
        change (zlen [0]) with 1; lia).
  rewrite Hz. replace (_ >? _) with false by lia.
  rewrite (bind_eq _ _ s (zlen (ch_CipherSuites ch) * 2) s) by (apply index16_mid; [done|lia]).
  rewrite <- Hl2. replace (_ >=? _) with false by lia. rewrite Hb.
  rewrite (bind_eq _ _ s 1 s) by (by apply index_mid).
  replace (l2 ++ u8 (zlen [0]) :: [0] ++ put16 (zlen exts) ++ exts)
    with ((l2 ++ [1; 0]) ++ put16 (zlen exts) ++ exts) by (by rewrite <- app_assoc).
  replace (zlen l2 + (1 + 1)) with (zlen (l2 ++ [1; 0])) by (by rewrite zlen_app).
  pose proof (client_exts_ok ch ks Hx) as Hok.
  unfold exts in *. rewrite clientExtensions_eq in *.
  apply find_key_share_mid; [done|done|].
  unfold client_exts in *. cbn [app ext_fold fst snd] in *.
  do 2 rewrite (bind_eq _ _ s (None, None) s) by (apply key_share_skip; by left).
  rewrite (bind_eq _ _ s (Some ks, None) s).
  2: { do 2 apply Forall_inv_tail in Hok. apply Forall_inv in Hok as [_ Hok]. cbn [snd] in Hok.
       rewrite zlen_appendKeyShare in Hok. destruct (client_share_enc ks s) as [[e He] Hc]; [lia|done|].
       unfold onKeyShareExtension. cbn [orb negb Z.eqb extKeyShare Pos.eqb].
       change (bool_decide _) with false. cbn [orb].
       by rewrite (bind_eq _ _ _ _ _ He), (bind_eq _ _ _ _ _ Hc). }
  rewrite (bind_eq _ _ s (Some ks, None) s) by (apply key_share_skip; right; by eexists).
  apply key_share_skip_all. apply Forall_forall. intros. right. by eexists.
Qed.

Lemma parse_server_hello sh ks s :
  server_hello_ok sh ks -> ParseServerHello (serverHelloBody sh ks) s = Some (inl sh, s).
Proof.
  intros (Hv & Hr & Hs & Hcs & Hx). rewrite serverHelloBody_eq.
  set (rest := put16 (sh_CipherSuite sh) ++ _). set (head := hello_head _ _ _).
  destruct (hello_head_reads (sh_LegacyVersion sh) (sh_Random sh) (sh_SessionID sh) rest
              ErrBadServerHello s Hv Hr Hs) as (H1 & H2 & H3 & _ & _ & H4). fold head in H1, H2, H3, H4.
  unfold ParseServerHello. rewrite H1, (bind_eq _ _ _ _ _ H2), (bind_eq _ _ _ _ _ H3), (bind_eq _ _ _ _ _ H4).
  pose proof (zlen_nonneg head). pose proof (zlen_nonneg (serverExtensions ks)).
  assert (zlen (head ++ rest) = zlen head + (5 + zlen (serverExtensions ks))) as ->.
  { unfold rest. rewrite !zlen_app. change (zlen (put16 _)) with 2. change (zlen [0]) with 1. lia. }
  replace (_ >? _) with false by lia.
  rewrite (bind_eq _ _ s (sh_CipherSuite sh) s) by (by apply index16_mid). by destruct sh.
Qed.

Lemma server_exts_ok ks :
  zlen (serverExtensions ks) < 2 ^ 16 -> Forall ext_ok (server_exts ks).
Proof.
  rewrite serverExtensions_eq. intros Hz. apply (ext_ok_bounded _ 0); [|lia|lia].
  repeat constructor; done.
Qed.

Lemma server_key_share sh ks s :
  server_hello_ok sh ks -> serverKeyShare (serverHelloBody sh ks) s = Some (inl ks, s).
Proof.
  intros (Hv & Hr & Hs & Hcs & Hx). rewrite serverHelloBody_eq.
  set (rest := put16 (sh_CipherSuite sh) ++ _). set (head := hello_head _ _ _).
  destruct (hello_head_reads (sh_LegacyVersion sh) (sh_Random sh) (sh_SessionID sh) rest
              ErrBadServerHello s Hv Hr Hs) as (_ & _ & _ & H1 & H2 & _). fold head in H1, H2.
  assert (zlen head = 35 + zlen (sh_SessionID sh)) as Hh.
  { unfold head, hello_head. rewrite !zlen_app, zlen_cons, Hr. change (zlen (put16 _)) with 2. lia. }
  unfold serverKeyShare. rewrite H1, (bind_eq _ _ _ _ _ H2). clear H1 H2.
  pose proof (server_exts_ok ks Hx) as Hok. set (exts := serverExtensions ks) in *.
  assert (head ++ rest = (head ++ put16 (sh_CipherSuite sh) ++ [0]) ++ put16 (zlen exts) ++ exts) as ->
    by (unfold rest; by rewrite <- !app_assoc).
  replace (34 + (1 + zlen (sh_SessionID sh)) + 3)
    with (zlen (head ++ put16 (sh_CipherSuite sh) ++ [0]))
    by (rewrite !zlen_app; change (zlen (put16 _)) with 2; change (zlen [0]) with 1; lia).
  unfold exts in *. rewrite serverExtensions_eq in *.
  apply find_key_share_mid; [done|done|]. unfold server_exts in *. cbn [ext_fold fst snd].
  rewrite (bind_eq _ _ s (None, None) s) by (apply key_share_skip; by left).
  rewrite (bind_eq _ _ s (Some ks, None) s); [done|].
  apply Forall_inv_tail, Forall_inv in Hok as [_ Hok]. cbn [snd] in Hok.
  rewrite zlen_appendKeyShareEntry in Hok.
  unfold onKeyShareExtension. cbn [orb negb Z.eqb extKeyShare Pos.eqb].
  change (bool_decide _) with false. cbn [orb].
  unfold parseKeyShareEntry.
  by rewrite (bind_eq _ _ _ _ _ (key_share_entry_enc _ ks s ltac:(lia))).
Qed.

Lemma parse_alpn_extension p s :
  alpn_ok p -> parseALPNServerExtension (appendALPNServerExtension p) s = Some (p, s).
Proof.
  intros Hp. unfold appendALPNServerExtension, parseALPNServerExtension.
  destruct (p =? "")%string eqn:He; cbn [negb].
  { apply String.eqb_eq in He. by subst. }
  apply String.eqb_neq in He. rewrite appendExtension_eq, app_nil_l.
  unfold alpn_ok in Hp. pose proof (zlen_nonneg (bytes_of_string p)).
  set (d := appendALPNList [p]). pose proof (appendALPNList_eq [p]) as Hd. fold d in Hd.
  cbn [fmap list_fmap concat] in Hd. rewrite app_nil_r in Hd.
  assert (zlen (alpn_enc p) = 1 + zlen (bytes_of_string p)) as Hn
    by (unfold alpn_enc; rewrite zlen_cons; done).
  assert (zlen d = 3 + zlen (bytes_of_string p)) as Hzd
    by (rewrite Hd, zlen_app, Hn; change (zlen (put16 _)) with 2; lia).
  set (e := ext_enc (extALPN, d)).
  assert (zlen e = 4 + zlen d) as Hze by apply zlen_ext_enc.
  fold (put16 (zlen e)). rewrite zlen_app. change (zlen (put16 _)) with 2.
  replace (_ <? 2) with false by lia.
  rewrite (bind_eq _ _ s (zlen e) s) by (apply (index16_mid []); [done|lia]).
  replace (_ >? _) with false by lia.
  rewrite (bind_eq _ _ s e s) by (by apply reslice_tail).
  unfold e. replace (ext_enc (extALPN, d)) with (concat (ext_enc <$> [(extALPN, d)])) 
    by (cbn [fmap list_fmap concat]; apply app_nil_r).
  rewrite parse_extensions_enc
    by (apply Forall_singleton; split; cbn [fst snd]; unfold extALPN; lia).
  cbn [ext_fold fst snd]. rewrite (bind_eq _ _ s p s); [done|].
  unfold onALPNExtension. cbn [negb extALPN Z.eqb Pos.eqb orb]. replace (_ <? 2) with false by lia.
  rewrite Hd, zlen_app, Hn. change (zlen (put16 _)) with 2.
  rewrite (bind_eq _ _ s (zlen (alpn_enc p)) s).
  2: { rewrite <- Hn. apply (index16_mid []); [done|lia]. }
  rewrite Hn. replace (_ >? _) with false by lia. replace (_ <? 1) with false by lia. cbn [orb].
  rewrite (bind_eq _ _ s (alpn_enc p) s) by (apply reslice_tail; [done|lia]).
  rewrite (bind_eq _ _ s (zlen (bytes_of_string p)) s).
  2: { unfold alpn_enc. etransitivity; [by apply (index_mid [])|].
       by rewrite u8_small by (unfold is_byte; lia). }
  rewrite Hn. replace (_ >? _) with false by lia.
  rewrite (bind_eq _ _ s (bytes_of_string p) s); [by rewrite string_of_bytes_of_string|].
  by apply (reslice_tail [u8 (zlen (bytes_of_string p))]).
Qed.
End HelloTheorems.

(** ** The theorems on the messages *)

(** The server reads from a ClientHello exactly the fields and the key share
    the client put in it: version, random, session id, cipher suites, server
    name and ALPN list. *)
Theorem tls_client_hello_roundtrip ch ks :
  client_hello_ok ch ks ->
  ParseClientHello (clientHelloBody ch ks) tt = Some (inl ch, tt) /\
  clientKeyShare (clientHelloBody ch ks) tt = Some (inl ks, tt).
Proof. intros H. split; [by apply parse_client_hello|by apply client_key_share]. Qed.

(** the client reads from a ServerHello exactly the fields and the key share
    the server put in it. *)
Theorem tls_server_hello_roundtrip sh ks :
  server_hello_ok sh ks ->
  ParseServerHello (serverHelloBody sh ks) tt = Some (inl sh, tt) /\
  serverKeyShare (serverHelloBody sh ks) tt = Some (inl ks, tt).
Proof. intros H. split; [by apply parse_server_hello|by apply server_key_share]. Qed.

(** The protocol chosen is the first of the server's that the client also
    offers, or none; and the client reads from EncryptedExtensions what the
    server chose. *)
Theorem tls_alpn_agreed clientProtos serverProtos :
  let p := negotiateALPN clientProtos serverProtos in
  p = default ""%string (head (filter (.∈ clientProtos) serverProtos)) /\
  (alpn_ok p -> parseALPNServerExtension (appendALPNServerExtension p) tt = Some (p, tt)).
Proof.
  cbv zeta. split; [|by apply parse_alpn_extension].
  assert (forall cs ss, negotiate_loop cs ss = default ""%string (head (filter (.∈ cs) ss))) as Hloop.
  { intros cs. induction ss as [|sp ss IH]; [done|]. cbn [negotiate_loop]. rewrite filter_cons.
    assert (existsb (fun cp => sp =? cp)%string cs = bool_decide (sp ∈ cs)) as ->.
    { apply eq_true_iff_eq. rewrite existsb_exists, bool_decide_eq_true. split.
      - intros (x & Hx & Heq). apply String.eqb_eq in Heq. subst. by apply list_elem_of_In.
      - intros Hx. exists sp. split; [by apply list_elem_of_In|apply String.eqb_refl]. }
    case_bool_decide; destruct (decide _); done. }
  unfold negotiateALPN. destruct (Z.eqb_spec (zlen clientProtos) 0) as [Hc|_].
  - apply zlen_zero in Hc as ->. cbn [orb].
    induction serverProtos as [|sp ss IH]; [done|]. rewrite filter_cons.
    destruct (decide _) as [Hin|_]; [by apply not_elem_of_nil in Hin|done].
  - destruct (Z.eqb_spec (zlen serverProtos) 0) as [Hs|_]; [|apply Hloop].
    by apply zlen_zero in Hs as ->.
Qed.

(** no bytes make a parser of the hello messages read out of bounds or
    loop: each of them returns a value or an error. *)
Theorem tls_hello_parsers_total b :
  bytes_ok b ->
  is_Some (ParseClientHello b tt) /\ is_Some (ParseServerHello b tt) /\
  is_Some (clientKeyShare b tt) /\ is_Some (serverKeyShare b tt) /\
  is_Some (parseALPNServerExtension b tt).
Proof.
  intros Hb.
  assert (forall A (m : M () A) P, reads m P -> is_Some (m tt)) as Hr.
  { intros A m P Hm. specialize (Hm tt). apply wp_elim in Hm as (a & s' & -> & _). by eexists. }
  split_and!; eapply Hr;
    auto using ParseClientHello_reads, ParseServerHello_reads, clientKeyShare_reads,
      serverKeyShare_reads, parseALPNServerExtension_reads.
Qed.

(** *** Witnesses *)

Definition sample_share : bytes := repeat 7 32.
Definition sample_ch : ClientHello :=
  mkClientHello 0x0303 (repeat 1 32) (repeat 2 32) [0x1301; 0x1302; 0x1303]
    "example.com" ["h2"%string; "http/1.1"%string].

Lemma tls_client_hello_roundtrip_witness :
  ParseClientHello (clientHelloBody sample_ch sample_share) tt = Some (inl sample_ch, tt) /\
  clientKeyShare (clientHelloBody sample_ch sample_share) tt = Some (inl sample_share, tt).
Proof.
  apply (tls_client_hello_roundtrip sample_ch sample_share).
  unfold client_hello_ok. split_and!; try (vm_compute; done); repeat constructor; done.
Defined.

Definition sample_sh : ServerHello := mkServerHello 0x0303 (repeat 3 32) (repeat 2 32) 0x1301.

Lemma tls_server_hello_roundtrip_witness :
  ParseServerHello (serverHelloBody sample_sh sample_share) tt = Some (inl sample_sh, tt) /\
  serverKeyShare (serverHelloBody sample_sh sample_share) tt = Some (inl sample_share, tt).
Proof.
  apply (tls_server_hello_roundtrip sample_sh sample_share).
  unfold server_hello_ok. split_and!; vm_compute; done.
Defined.

Lemma tls_alpn_agreed_witness :
  negotiateALPN ["http/1.1"; "h2"] ["h2"; "http/1.1"] = "h2"%string /\
  parseALPNServerExtension (appendALPNServerExtension "h2") tt = Some ("h2"%string, tt).
Proof.
  destruct (tls_alpn_agreed ["http/1.1"; "h2"] ["h2"; "http/1.1"]) as [H1 H2].
  split; [rewrite H1; vm_compute; done|apply H2; vm_compute; done].
Defined.

Lemma tls_hello_parsers_total_witness : is_Some (ParseClientHello (repeat 255 40) tt).
Proof. apply (tls_hello_parsers_total (repeat 255 40)). bytes. Defined.
