(* ===== verification/TlsKeys.v ===== *)
(** * TlsKeys

    [tls/keyschedule.go] and [tls/aead.go]: the key schedule of TLS 1.3 and
    the protection of records.  The packages [crypto/*] are the class
    [Crypto]; [CryptoLaws] is what their documentation promises and the
    handshake relies on.  A running hash is the list of the bytes written to
    it. *)

From S2P Require Import Prelude Pump GoStd TlsRecord.

(** ** The packages under crypto *)

Class Crypto : Type := {
  Block : Type;
  AEAD : Type;
  Rand : Type; (** what [rand.Reader] will deliver *)
  EcdhKey : Type; (** [*ecdh.PrivateKey] *)
  EcdsaKey : Type; EcdsaPub : Type;
  RsaKey : Type; RsaPub : Type;
  X509 : Type; (** [*x509.Certificate] *)

  Sum256 : bytes -> bytes;
  (** [h := hmac.New(sha256.New, key); h.Write(msg); h.Sum(nil)] *)
  HMAC : bytes -> bytes -> bytes;

  NewCipher : bytes -> Block + error;
  NewGCM : Block -> AEAD + error;
  Overhead : AEAD -> Z;
  NonceSize : AEAD -> Z;
  AEAD_Seal : AEAD -> bytes -> bytes -> bytes -> bytes;
  AEAD_Open : AEAD -> bytes -> bytes -> bytes -> bytes + error;

  Rand_Read : Z -> Rand -> (bytes + error) * Rand;
  X25519_GenerateKey : Rand -> (EcdhKey + error) * Rand;
  PublicKey_Bytes : EcdhKey -> bytes;
  X25519_NewPublicKey : bytes -> option error;
  ECDH : EcdhKey -> bytes -> bytes + error;

  Ecdsa_SignASN1 : EcdsaKey -> bytes -> Rand -> (bytes + error) * Rand;
  Rsa_SignPSS : RsaKey -> bytes -> Rand -> (bytes + error) * Rand;
  Ed25519_Sign : bytes -> bytes -> bytes;
  Ecdsa_VerifyASN1 : EcdsaPub -> bytes -> bytes -> bool;
  Rsa_VerifyPSS : RsaPub -> bytes -> bytes -> option error;
  Ed25519_Verify : bytes -> bytes -> bytes -> bool;
  Ecdsa_Public : EcdsaKey -> EcdsaPub;
  Rsa_Public : RsaKey -> RsaPub;
  Ed25519_Public : bytes -> bytes;
  ParseX509 : bytes -> X509 + error;
}.

Definition sha256_Size : Z := 32.

(** What the documentation says of them, as far as the handshake needs it. *)
Class CryptoLaws (C : Crypto) : Prop := {
  sum256_ok b : bytes_ok (Sum256 b) /\ zlen (Sum256 b) = sha256_Size;
  hmac_ok k m : bytes_ok (HMAC k m) /\ zlen (HMAC k m) = sha256_Size;
  aes_gcm k : zlen k = 16 -> exists b a, NewCipher k = inl b /\ NewGCM b = inl a;
  gcm_sizes b a : NewGCM b = inl a -> Overhead a = 16 /\ NonceSize a = 12;
  seal_ok a n p ad : bytes_ok p ->
    bytes_ok (AEAD_Seal a n p ad) /\ zlen (AEAD_Seal a n p ad) = zlen p + Overhead a;
  open_seal a n p ad : zlen n = NonceSize a -> AEAD_Open a n (AEAD_Seal a n p ad) ad = inl p;
  open_ok a n c ad p : bytes_ok c -> AEAD_Open a n c ad = inl p -> bytes_ok p;
  read_ok n r b : 0 <= n -> fst (Rand_Read n r) = inl b -> bytes_ok b /\ zlen b = n;
  pub_ok k : bytes_ok (PublicKey_Bytes k) /\ zlen (PublicKey_Bytes k) = 32;
  pub_accepted k : X25519_NewPublicKey (PublicKey_Bytes k) = None;
  ecdh_agree a b : ECDH a (PublicKey_Bytes b) = ECDH b (PublicKey_Bytes a);
  ecdsa_ok k d r s : fst (Ecdsa_SignASN1 k d r) = inl s -> bytes_ok s;
  rsa_ok k d r s : fst (Rsa_SignPSS k d r) = inl s -> bytes_ok s;
  ed25519_ok k m : bytes_ok (Ed25519_Sign k m);
  ecdsa_verifies k d r s : fst (Ecdsa_SignASN1 k d r) = inl s ->
    Ecdsa_VerifyASN1 (Ecdsa_Public k) d s = true;
  rsa_verifies k d r s : fst (Rsa_SignPSS k d r) = inl s -> Rsa_VerifyPSS (Rsa_Public k) d s = None;
  ed25519_verifies k m : Ed25519_Verify (Ed25519_Public k) m (Ed25519_Sign k m) = true;
}.

(** ** keyschedule.go *)

Section KeySchedule.
Context {C : Crypto}.

Definition ErrKeySchedule : error := errorsNew "tls: key schedule error".

Definition hkdfExtract (salt ikm : bytes) : bytes := HMAC salt ikm.

(** [for i := byte(1); len(out) < length; i++]: every turn adds a hash. *)
Fixpoint hkdfExpand_loop (fuel : nat) (secret info : bytes) (length i : Z) (out t : bytes) : bytes :=
  match fuel with
  | O => out
  | S fuel =>
      if zlen out <? length then
        let t := HMAC secret (t ++ info ++ [i]) in
        hkdfExpand_loop fuel secret info length (u8 (i + 1)) (out ++ t) t
      else out
  end.

Definition hkdfExpand (secret info : bytes) (length : Z) : bytes :=
  upto length (hkdfExpand_loop (Z.to_nat length) secret info length 1 [] []).

Definition hkdfExpandLabel (secret : bytes) (label : string) (context : bytes) (length : Z) : bytes :=
  let fullLabel := bytes_of_string ("tls13 " +:+ label) in
  let info := [u8 (length >> 8); u8 length] in
  let info := info ++ [u8 (zlen fullLabel)] in
  let info := info ++ fullLabel in
  let info := info ++ [u8 (zlen context)] in
  let info := info ++ context in
  hkdfExpand secret info length.

Definition deriveSecret (secret : bytes) (label : string) (transcriptHash : bytes) : bytes :=
  hkdfExpandLabel secret label transcriptHash sha256_Size.

(** The running hash of the handshake, as the bytes written to it. *)
Record transcriptHash : Type := mkTranscript { th_h : bytes }.
Definition newTranscriptHash : transcriptHash := mkTranscript [].
Definition transcript_write (t : transcriptHash) (b : bytes) : transcriptHash :=
  mkTranscript (th_h t ++ b).
Definition transcript_sum (t : transcriptHash) : bytes := Sum256 (th_h t).
Definition sha256Sum (b : bytes) : bytes := Sum256 b.

Record keySchedule : Type := mkKeySchedule {
  transcript : transcriptHash;
  earlySecret : option bytes;
  handshakeSecret : option bytes;
  masterSecret : option bytes;
}.

Definition newKeySchedule : keySchedule := mkKeySchedule newTranscriptHash None None None.

Definition zeros (n : Z) : bytes := replicate (Z.to_nat n) 0.

Definition deriveEarly (ks : keySchedule) (psk : option bytes) : keySchedule :=
  let psk := match psk with None => zeros sha256_Size | Some psk => psk end in
  mkKeySchedule (transcript ks) (Some (hkdfExtract (zeros sha256_Size) psk))
    (handshakeSecret ks) (masterSecret ks).

Definition deriveHandshake (ks : keySchedule) (sharedSecret : bytes) : keySchedule * option error :=
  match earlySecret ks with
  | None => (ks, Some (errorsNew "tls: handshake before early secret"))
  | Some early =>
      let derived := deriveSecret early "derived" (sha256Sum []) in
      (mkKeySchedule (transcript ks) (earlySecret ks)
         (Some (hkdfExtract derived sharedSecret)) (masterSecret ks), None)
  end.

Definition deriveMaster (ks : keySchedule) : keySchedule * option error :=
  match handshakeSecret ks with
  | None => (ks, Some (errorsNew "tls: master before handshake secret"))
  | Some hs =>
      let derived := deriveSecret hs "derived" (sha256Sum []) in
      (mkKeySchedule (transcript ks) (earlySecret ks) (handshakeSecret ks)
         (Some (hkdfExtract derived (zeros sha256_Size))), None)
  end.

Record trafficKeys : Type := mkTrafficKeys { tk_key : bytes; tk_iv : bytes }.

Definition keysFromSecret (secret : bytes) : trafficKeys :=
  mkTrafficKeys (hkdfExpandLabel secret "key" [] 16) (hkdfExpandLabel secret "iv" [] 12).

(** A nil secret is the empty key. *)
Definition handshakeTrafficKeys (ks : keySchedule) (isClient : bool) : trafficKeys :=
  let label := if negb isClient then "s hs traffic" else "c hs traffic" in
  let secret := deriveSecret (default [] (handshakeSecret ks)) label (transcript_sum (transcript ks)) in
  mkTrafficKeys (hkdfExpandLabel secret "key" [] 16) (hkdfExpandLabel secret "iv" [] 12).

Definition applicationTrafficKeys (ks : keySchedule) (isClient : bool) : trafficKeys :=
  let label := if negb isClient then "s ap traffic" else "c ap traffic" in
  let secret := deriveSecret (default [] (masterSecret ks)) label (transcript_sum (transcript ks)) in
  mkTrafficKeys (hkdfExpandLabel secret "key" [] 16) (hkdfExpandLabel secret "iv" [] 12).

Definition finishedKey (baseSecret : bytes) : bytes :=
  hkdfExpandLabel baseSecret "finished" [] sha256_Size.

Definition finishedVerifyData (baseSecret transcriptHash : bytes) : bytes :=
  HMAC (finishedKey baseSecret) transcriptHash.

(** ** aead.go *)

Definition ErrAEADOpen : error := errorsNew "tls: record authentication failed".
Definition ErrAEADNotReady : error := errorsNew "tls: keys not ready".
Definition ErrSequenceLimit : error := errorsNew "tls: record sequence exhausted".

Record recordProtector : Type := mkProtector {
  rp_aead : option AEAD;
  rp_iv : bytes;
  rp_seq : Z; (** uint64 *)
}.

Definition newRecordProtector (keys : trafficKeys) : recordProtector + error :=
  match NewCipher (tk_key keys) with
  | inr e => inr e
  | inl block =>
      match NewGCM block with
      | inr e => inr e
      | inl aead => inl (mkProtector (Some aead) (tk_iv keys) 0)
      end
  end.

(** [n[off+i] ^= seq[i]] for the last eight bytes; a shorter iv panics. *)
Definition nonce (p : recordProtector) : M recordProtector bytes :=
  let n := rp_iv p in
  let off := zlen n - 8 in
  if off <? 0 then panic
  else mret (upto off n ++ zip_with Z.lxor (from off n) (put64 (rp_seq p))).

Definition additionalData (version ciphertextLen : Z) : bytes :=
  [recordApplicationData; u8 (version >> 8); u8 version;
   u8 (ciphertextLen >> 8); u8 ciphertextLen].

(** [Seal] and [Open] panic on a nonce of the wrong size. *)
Definition checkNonce (a : AEAD) (n : bytes) : M recordProtector unit :=
  if zlen n =? NonceSize a then mret tt else panic.

Definition incSeq : M recordProtector unit :=
  modify (fun p => mkProtector (rp_aead p) (rp_iv p) (u64 (rp_seq p + 1))).

Definition seal (innerType : Z) (plaintext : bytes) : M recordProtector (bytes + error) :=
  p ← get;
  match rp_aead p with
  | None => mret (inr ErrAEADNotReady)
  | Some aead =>
      if rp_seq p =? 2 ^ 64 - 1 then mret (inr ErrSequenceLimit)
      else
        let inner := plaintext in
        let inner := inner ++ [innerType] in
        nonce ← nonce p;
        let ad := additionalData 0x0303 (zlen inner + Overhead aead) in
        checkNonce aead nonce ;;
        let out := AEAD_Seal aead nonce inner ad in
        incSeq ;;
        mret (inl out)
  end.

Definition open (ciphertext : bytes) : M recordProtector ((bytes * Z) + error) :=
  p ← get;
  match rp_aead p with
  | None => mret (inr ErrAEADNotReady)
  | Some aead =>
      if zlen ciphertext <? Overhead aead then mret (inr (errorfWrap ErrAEADOpen "too short"))
      else
        nonce ← nonce p;
        let ad := additionalData 0x0303 (zlen ciphertext) in
        checkNonce aead nonce ;;
        match AEAD_Open aead nonce ciphertext ad with
        | inr _ => mret (inr ErrAEADOpen)
        | inl inner =>
            incSeq ;;
            if zlen inner =? 0 then mret (inr (errorfWrap ErrAEADOpen "empty inner plaintext"))
            else
              innerType ← index inner (zlen inner - 1);
              content ← reslice inner 0 (zlen inner - 1);
              mret (inl (content, innerType))
        end
  end.
End KeySchedule.
