(* ===== verification/TlsKeysFacts.v ===== *)
(** * TlsKeysFacts

    The key derivation equals its definition in RFC 5869, no two records are
    sealed with the same nonce, and a record opened in turn is the record
    that was sealed. *)

From S2P Require Import Prelude Pump GoStd TlsRecord TlsHello TlsHelloFacts TlsKeys.

Section Hkdf.
Context {C : Crypto} {L : CryptoLaws C}.

(** T(n) of RFC 5869, section 2.3. *)
Fixpoint hkdf_T (secret info : bytes) (n : nat) : bytes :=
  match n with
  | O => []
  | S n => HMAC secret (hkdf_T secret info n ++ info ++ [u8 (Z.of_nat n + 1)])
  end.

Definition hkdf_blocks (length : Z) : nat := Z.to_nat ((length + 31) / 32).

(** OKM: the first [length] bytes of T(1), T(2), ... *)
Definition hkdf_OKM (secret info : bytes) (length : Z) : bytes :=
  upto length (concat (hkdf_T secret info <$> seq 1 (hkdf_blocks length))).

Lemma zlen_hkdf_blocks secret info k n :
  zlen (concat (hkdf_T secret info <$> seq (S k) n)) = 32 * Z.of_nat n.
Proof.
  revert k. induction n as [|n IH]; intros k; [done|]. cbn [seq fmap list_fmap concat].
  rewrite zlen_app. rewrite IH. cbn [hkdf_T]. rewrite (proj2 (hmac_ok _ _)). unfold sha256_Size. lia.
Qed.

(** [fmap seq] is extended on the right by the next block. *)
Lemma hkdf_blocks_snoc secret info n :
  concat (hkdf_T secret info <$> seq 1 (S n)) =
  concat (hkdf_T secret info <$> seq 1 n) ++ hkdf_T secret info (S n).
Proof.
  rewrite seq_S, fmap_app, concat_app. cbn [fmap list_fmap concat]. by rewrite app_nil_r.
Qed.

Lemma hkdf_loop_spec secret info length fuel : forall n,
  0 <= length -> (n <= hkdf_blocks length)%nat -> (hkdf_blocks length - n <= fuel)%nat ->
  hkdfExpand_loop fuel secret info length (u8 (Z.of_nat n + 1))
    (concat (hkdf_T secret info <$> seq 1 n)) (hkdf_T secret info n) =
  concat (hkdf_T secret info <$> seq 1 (hkdf_blocks length)).
Proof.
  intros n Hl. unfold hkdf_blocks. revert n.
  induction fuel as [|fuel IH]; intros n Hn Hf; cbn [hkdfExpand_loop].
  { replace n with (Z.to_nat ((length + 31) / 32)) by lia. done. }
  rewrite zlen_hkdf_blocks. destruct (Z.ltb_spec (32 * Z.of_nat n) length) as [Hlt|Hge].
  - change (HMAC secret (hkdf_T secret info n ++ info ++ [u8 (Z.of_nat n + 1)]))
      with (hkdf_T secret info (S n)).
    rewrite <- hkdf_blocks_snoc.
    replace (u8 (u8 (Z.of_nat n + 1) + 1)) with (u8 (Z.of_nat (S n) + 1)).
    + apply IH; [|lia]. zarith.
    + unfold u8. rewrite Zplus_mod_idemp_l. f_equal. lia.
  - replace n with (Z.to_nat ((length + 31) / 32)) at 1; [done|]. zarith.
Qed.

Lemma hkdf_expand_OKM secret info length :
  0 <= length -> hkdfExpand secret info length = hkdf_OKM secret info length.
Proof.
  intros Hl. unfold hkdfExpand, hkdf_OKM.
  pose proof (hkdf_loop_spec secret info length (Z.to_nat length) 0 Hl) as H.
  cbn [seq fmap list_fmap concat hkdf_T] in H. change (u8 (Z.of_nat 0 + 1)) with 1 in H.
  rewrite H; [done|lia|]. unfold hkdf_blocks. zarith.
Qed.

(** T(n) as the RFC writes it; the byte of the code is the number itself as
    long as the RFC allows the length. *)
Fixpoint rfc5869_T (secret info : bytes) (n : nat) : bytes :=
  match n with
  | O => []
  | S n => HMAC secret (rfc5869_T secret info n ++ info ++ [Z.of_nat (S n)])
  end.

Lemma rfc5869_T_eq secret info n : (n <= 255)%nat -> hkdf_T secret info n = rfc5869_T secret info n.
Proof.
  induction n as [|n IH]; intros Hn; [done|]. cbn [hkdf_T rfc5869_T]. rewrite IH by lia.
  do 4 f_equal. unfold u8. rewrite Z.mod_small; lia.
Qed.

(** C35: key derivation is the HKDF-Expand of RFC 5869: for every length the
    RFC allows, the loop over a growing output with a one-byte counter computes
    the first bytes of T(1), T(2), ..., and as many as were asked for. *)
Theorem tls_hkdf_expand_rfc5869 secret info length :
  0 <= length <= 255 * 32 ->
  hkdfExpand secret info length =
    upto length (concat (rfc5869_T secret info <$> seq 1 (Z.to_nat ((length + 31) / 32)))) /\
  zlen (hkdfExpand secret info length) = length.
Proof.
  intros Hl. rewrite hkdf_expand_OKM by lia. unfold hkdf_OKM. split.
  - do 2 f_equal. apply list_fmap_ext. intros i n Hi. apply rfc5869_T_eq.
    apply list_elem_of_lookup_2, elem_of_seq in Hi. unfold hkdf_blocks in Hi.
    assert ((length + 31) / 32 <= 255); zarith.
  - rewrite zlen_upto, zlen_hkdf_blocks by lia. unfold hkdf_blocks. zarith.
Qed.

Lemma zlen_hkdf_expand secret info length :
  0 <= length -> zlen (hkdfExpand secret info length) = length.
Proof.
  intros Hl. rewrite hkdf_expand_OKM by done. unfold hkdf_OKM.
  rewrite zlen_upto, zlen_hkdf_blocks by done. unfold hkdf_blocks. zarith.
Qed.

Lemma hkdf_expand_ok secret info length : bytes_ok (hkdfExpand secret info length).
Proof.
  unfold hkdfExpand. apply bytes_ok_upto.
  assert (forall k i out t, bytes_ok out ->
    bytes_ok (hkdfExpand_loop k secret info length i out t)) as H; [|apply H, bytes_ok_nil].
  induction k as [|k IH]; intros i out t Ho; cbn [hkdfExpand_loop]; [done|].
  destruct (_ <? _); [|done]. apply IH, bytes_ok_app_2; [done|exact (proj1 (hmac_ok _ _))].
Qed.

Lemma expand_label_ok secret label context length :
  0 <= length ->
  bytes_ok (hkdfExpandLabel secret label context length) /\
  zlen (hkdfExpandLabel secret label context length) = length.
Proof. intros. split; [apply hkdf_expand_ok|by apply zlen_hkdf_expand]. Qed.

(** Traffic keys always have the sizes of AES-128-GCM, so a protector for them
    is always made, and it starts at record 0. *)
Definition protector_ok (p : recordProtector) : Prop :=
  (exists a, rp_aead p = Some a /\ Overhead a = 16 /\ NonceSize a = 12) /\
  bytes_ok (rp_iv p) /\ zlen (rp_iv p) = 12 /\ 0 <= rp_seq p < 2 ^ 64.

Lemma new_protector secret :
  exists p, newRecordProtector (keysFromSecret secret) = inl p /\ protector_ok p /\ rp_seq p = 0.
Proof.
  destruct (expand_label_ok secret "key" [] 16) as [_ Hk]; [lia|].
  destruct (expand_label_ok secret "iv" [] 12) as [Hi1 Hi2]; [lia|].
  destruct (aes_gcm _ Hk) as (b & a & Hb & Ha). unfold newRecordProtector, keysFromSecret.
  cbn [tk_key tk_iv]. rewrite Hb, Ha. eexists. split; [done|].
  split; [|done]. split; [|done]. exists a. split; [done|by apply gcm_sizes in Ha].
Qed.
End Hkdf.

(** ** Nonces *)

Lemma put32_inj x y : 0 <= x < 2 ^ 32 -> 0 <= y < 2 ^ 32 -> put32 x = put32 y -> x = y.
Proof.
  intros Hx Hy H. unfold put32 in H. injection H as H0 H1 H2 H3.
  rewrite <- (be32_put x), <- (be32_put y) by done. congruence.
Qed.

Lemma put64_inj x y : 0 <= x < 2 ^ 64 -> 0 <= y < 2 ^ 64 -> put64 x = put64 y -> x = y.
Proof.
  intros Hx Hy H. unfold put64 in H. apply app_inj_1 in H as [Hh Hlo]; [|done].
  apply put32_inj in Hh; [|apply u32_range..]. apply put32_inj in Hlo; [|apply u32_range..].
  rewrite !shr_div in Hh by lia. unfold u32 in *. zarith.
Qed.

Lemma zip_lxor_inj l : forall a b, length a = length l -> length b = length l ->
  zip_with Z.lxor l a = zip_with Z.lxor l b -> a = b.
Proof.
  induction l as [|x l IH]; intros [|y a] [|z b] Ha Hb H; try done.
  cbn in *. injection H as Hx H. f_equal; [|apply IH; [lia|lia|done]].
  rewrite <- (Z.lxor_0_l y), <- (Z.lxor_0_l z), <- (Z.lxor_nilpotent x), !Z.lxor_assoc. congruence.
Qed.

Section Protect.
Context {C : Crypto} {L : CryptoLaws C}.

Definition nonce_of (p : recordProtector) : bytes :=
  upto (zlen (rp_iv p) - 8) (rp_iv p) ++
  zip_with Z.lxor (from (zlen (rp_iv p) - 8) (rp_iv p)) (put64 (rp_seq p)).

Lemma nonce_eq p q : 8 <= zlen (rp_iv p) -> nonce p q = Some (nonce_of p, q).
Proof. intros Hl. unfold nonce. by replace (_ <? 0) with false by lia. Qed.

Lemma zlen_nonce p : 8 <= zlen (rp_iv p) -> zlen (nonce_of p) = zlen (rp_iv p).
Proof.
  intros Hl. unfold nonce_of. set (n := zlen (rp_iv p)) in *. rewrite zlen_app, zlen_upto by lia.
  replace (zlen (zip_with _ _ _)) with 8; [lia|].
  unfold zlen. rewrite length_zip_with. pose proof (zlen_from (n - 8) (rp_iv p)) as Hz.
  unfold zlen in Hz at 1. fold n in Hz. change (length (put64 (rp_seq p))) with 8%nat. lia.
Qed.

Lemma nonce_inj iv a1 a2 s1 s2 :
  8 <= zlen iv -> 0 <= s1 < 2 ^ 64 -> 0 <= s2 < 2 ^ 64 ->
  nonce_of (mkProtector a1 iv s1) = nonce_of (mkProtector a2 iv s2) -> s1 = s2.
Proof.
  intros Hl H1 H2 H. unfold nonce_of in H. cbn [rp_iv rp_seq] in H.
  apply app_inv_head in H. apply put64_inj; [done..|].
  eapply zip_lxor_inj; [..|exact H]; pose proof (zlen_from (zlen iv - 8) iv) as Hz;
    unfold zlen in *; cbn [length app put64 put32]; lia.
Qed.

(** ** Sealing and opening *)

Definition next (p : recordProtector) : recordProtector :=
  mkProtector (rp_aead p) (rp_iv p) (u64 (rp_seq p + 1)).

(** What [seal] returns from a protector that is ready. *)
Definition sealed (p : recordProtector) (a : AEAD) (t : Z) (m : bytes) : bytes :=
  AEAD_Seal a (nonce_of p) (m ++ [t]) (additionalData 0x0303 (zlen m + 1 + Overhead a)).

Lemma seal_eq p a t m :
  protector_ok p -> rp_aead p = Some a ->
  seal t m p = if rp_seq p =? 2 ^ 64 - 1 then Some (inr ErrSequenceLimit, p)
               else Some (inl (sealed p a t m), next p).
Proof.
  intros ((a' & Ha & _ & Hn) & Hiv & Hl & Hs) Ha'. assert (a' = a) as -> by congruence.
  unfold seal. rewrite (bind_eq _ _ p p p) by done. rewrite Ha.
  destruct (rp_seq p =? 2 ^ 64 - 1); [done|].
  rewrite (bind_eq _ _ _ _ _ (nonce_eq p p ltac:(lia))).
  rewrite (bind_eq _ _ p tt p).
  2: { unfold checkNonce. rewrite zlen_nonce, Hl, Hn by lia. done. }
  unfold sealed. rewrite zlen_app. done.
Qed.

Lemma sealed_ok p a t m : protector_ok p -> rp_aead p = Some a -> is_byte t -> bytes_ok m ->
  bytes_ok (sealed p a t m) /\ zlen (sealed p a t m) = zlen m + 17.
Proof.
  intros ((a' & Ha & Ho & _) & _) Ha' Ht Hm. assert (a' = a) as -> by congruence.
  unfold sealed. destruct (seal_ok a (nonce_of p) (m ++ [t])
    (additionalData 0x0303 (zlen m + 1 + Overhead a))) as [H1 H2]; [auto with go|].
  split; [done|]. rewrite H2, Ho, zlen_app. change (zlen [t]) with 1. lia.
Qed.

(** [open] turns what the same key sealed at the same number back into the
    content and its type, and moves on to the next number. *)
Lemma open_sealed p a t m :
  protector_ok p -> rp_aead p = Some a -> is_byte t -> bytes_ok m ->
  open (sealed p a t m) p = Some (inl (m, t), next p).
Proof.
  intros Hp Ha Ht Hm. destruct (sealed_ok p a t m Hp Ha Ht Hm) as [_ Hz].
  pose proof (zlen_nonneg m). destruct Hp as ((a' & Ha' & Ho & Hn) & Hiv & Hl & Hs).
  assert (a' = a) as -> by congruence.
  unfold open. rewrite (bind_eq _ _ p p p) by done. rewrite Ha, Hz, Ho.
  replace (_ <? 16) with false by lia.
  rewrite (bind_eq _ _ _ _ _ (nonce_eq p p ltac:(lia))).
  rewrite (bind_eq _ _ p tt p).
  2: { unfold checkNonce. rewrite zlen_nonce, Hl, Hn by lia. done. }
  unfold sealed at 1. rewrite Ho. replace (zlen m + 1 + 16) with (zlen m + 17) by lia.
  rewrite open_seal by (rewrite zlen_nonce, Hl by lia; done).
  rewrite (bind_eq _ _ p tt (next p)) by done. rewrite zlen_app. change (zlen [t]) with 1.
  replace (_ =? 0) with false by lia. replace (zlen m + 1 - 1) with (zlen m) by lia.
  rewrite (bind_eq _ _ _ _ _ (index_mid m t [] (zlen m) (next p) eq_refl)).
  rewrite (bind_eq _ _ (next p) m (next p)); [done|].
  by apply (reslice_mid [] m [t] 0 (zlen m)).
Qed.

Lemma next_ok p : protector_ok p -> protector_ok (next p).
Proof.
  intros (Ha & Hiv & Hl & Hs). unfold next, protector_ok. cbn [rp_aead rp_iv rp_seq].
  split; [done|]. split; [done|]. split; [done|]. unfold u64. apply Z.mod_pos_bound. lia.
Qed.

(** A sequence of records sealed by one protector, up to the first refusal:
    for each one the nonce and the ciphertext. *)
Fixpoint seal_run (ms : list (Z * bytes)) (p : recordProtector)
    : option (list (bytes * bytes) * recordProtector) :=
  match ms with
  | [] => Some ([], p)
  | (t, m) :: ms =>
      match nonce p p, seal t m p with
      | Some (n, _), Some (inl ct, p') =>
          match seal_run ms p' with Some (l, q) => Some ((n, ct) :: l, q) | None => None end
      | _, Some (inr _, p') => Some ([], p')
      | _, None => None
      | None, _ => None
      end
  end.

Lemma seal_run_seq ms : forall p, protector_ok p ->
  exists l q, seal_run ms p = Some (l, q) /\
    length l = Nat.min (length ms) (Z.to_nat (2 ^ 64 - 1 - rp_seq p)) /\
    forall i r, l !! i = Some r ->
      r.1 = nonce_of (mkProtector (rp_aead p) (rp_iv p) (rp_seq p + Z.of_nat i)).
Proof.
  induction ms as [|[t m] ms IH]; intros p Hp; [by exists [], p|].
  pose proof Hp as ((a & Ha & _) & _ & Hl & Hs). cbn [seal_run].
  rewrite (nonce_eq p p), (seal_eq p a t m Hp Ha) by lia.
  destruct (Z.eqb_spec (rp_seq p) (2 ^ 64 - 1)) as [E|E].
  { exists [], p. split; [done|]. split; [|done]. rewrite E, Z.sub_diag. by rewrite Nat.min_0_r. }
  destruct (IH (next p) (next_ok p Hp)) as (l & q & H & Hlen & Hn). rewrite H.
  assert (rp_seq (next p) = rp_seq p + 1) as Hq.
  { unfold next, u64. cbn [rp_seq]. apply Z.mod_small. lia. }
  eexists _, q. split; [done|]. rewrite Hq in *. cbn [length]. split; [lia|].
  intros [|i] r Hi; cbn in Hi.
  - injection Hi as <-. cbn [fst]. rewrite Z.add_0_r. by destruct p.
  - rewrite (Hn i r Hi). cbn [next rp_aead rp_iv]. do 2 f_equal. lia.
Qed.

(** C25: the records one protector seals never share a nonce, however many
    there are: all are sealed until the number of the record reaches its
    limit, and from there on sealing is refused instead of wrapping. *)
Theorem tls_nonces_distinct ms p : protector_ok p ->
  exists l q, seal_run ms p = Some (l, q) /\ NoDup l.*1 /\
    length l = Nat.min (length ms) (Z.to_nat (2 ^ 64 - 1 - rp_seq p)).
Proof.
  intros Hp. destruct (seal_run_seq ms p Hp) as (l & q & H & Hlen & Hn).
  exists l, q. split; [done|]. split; [|done]. destruct Hp as (_ & _ & Hl & Hs).
  apply NoDup_alt. intros i j n Hi Hj. rewrite list_lookup_fmap in Hi, Hj.
  destruct (l !! i) as [ri|] eqn:Ei; [|done]. destruct (l !! j) as [rj|] eqn:Ej; [|done].
  injection Hi as Hi. injection Hj as Hj.
  rewrite (Hn _ _ Ei) in Hi. rewrite (Hn _ _ Ej) in Hj.
  apply lookup_lt_Some in Ei, Ej. rewrite <- Hj in Hi.
  apply nonce_inj in Hi; lia.
Qed.
End Protect.
