(* ===== verification/TlsSign.v ===== *)
(** * TlsSign

    [tls/sign.go]: the content a server signs in CertificateVerify, the choice
    of the signature algorithm by the type of the private key, and the parsers
    of the Certificate and CertificateVerify messages. *)

From S2P Require Import Prelude Pump GoStd TlsRecord TlsHello TlsHelloFacts TlsKeys.

Section Sign.
Context {C : Crypto}.

Definition ErrNoCertificate : error := errorsNew "tls: no certificate configured".
Definition ErrBadSignature : error := errorsNew "tls: certificate verify signature invalid".

Definition sigRSAPSSRSAE_SHA256 : Z := 0x0804.
Definition sigECDSAP256_SHA256 : Z := 0x0403.
Definition sigEd25519 : Z := 0x0807.

(** The dynamic type of a [crypto.PrivateKey]; [OtherKey] carries its name. *)
Inductive PrivateKey : Type :=
  | EcdsaPrivate (k : EcdsaKey)
  | RsaPrivate (k : RsaKey)
  | Ed25519Private (k : bytes)
  | OtherPrivate (type : string).

Inductive PublicKey : Type :=
  | EcdsaPublicKey (k : EcdsaPub)
  | RsaPublicKey (k : RsaPub)
  | Ed25519PublicKey (k : bytes)
  | OtherPublic (type : string).

Definition certificateVerifyInput (isClient : bool) (transcriptHash : bytes) : bytes :=
  let context := (if isClient then "TLS 1.3, client CertificateVerify"
                  else "TLS 1.3, server CertificateVerify")%string in
  let out := replicate 64 32 in
  let out := out ++ bytes_of_string context in
  let out := out ++ [0] in
  out ++ transcriptHash.

Definition signWithKey (priv : PrivateKey) (message : bytes) (r : Rand)
    : (bytes + error) * Rand :=
  let digest := Sum256 message in
  match priv with
  | EcdsaPrivate k => Ecdsa_SignASN1 k digest r
  | RsaPrivate k => Rsa_SignPSS k digest r
  | Ed25519Private k => (inl (Ed25519_Sign k message), r)
  | OtherPrivate t => (inr (errorsNew ("tls: unsupported private key type " +:+ t)), r)
  end.

Definition verifyWithKey (pub : PublicKey) (message sig : bytes) (algo : Z) : option error :=
  let digest := Sum256 message in
  match pub with
  | EcdsaPublicKey k => if negb (Ecdsa_VerifyASN1 k digest sig) then Some ErrBadSignature else None
  | RsaPublicKey k =>
      match Rsa_VerifyPSS k digest sig with Some _ => Some ErrBadSignature | None => None end
  | Ed25519PublicKey k => if negb (Ed25519_Verify k message sig) then Some ErrBadSignature else None
  | OtherPublic t => Some (errorsNew ("tls: unsupported public key type " +:+ t))
  end.

Definition signatureAlgorithm (priv : PrivateKey) : Z :=
  match priv with
  | EcdsaPrivate _ => sigECDSAP256_SHA256
  | RsaPrivate _ => sigRSAPSSRSAE_SHA256
  | Ed25519Private _ => sigEd25519
  | OtherPrivate _ => 0
  end.

(** [priv.Public()] *)
Definition publicOf (priv : PrivateKey) : PublicKey :=
  match priv with
  | EcdsaPrivate k => EcdsaPublicKey (Ecdsa_Public k)
  | RsaPrivate k => RsaPublicKey (Rsa_Public k)
  | Ed25519Private k => Ed25519PublicKey (Ed25519_Public k)
  | OtherPrivate t => OtherPublic t
  end.

Section Parsers.
Context {S : Type}.

(** [int(b[i])<<16 | int(b[i+1])<<8 | int(b[i+2])] *)
Definition index24 (b : bytes) (i : Z) : M S Z :=
  x ← index b i; y ← index b (i + 1); z ← index b (i + 2); mret (be24 x y z).

(** [for off+3 <= end { ... }]: each turn consumes at least three bytes. *)
Fixpoint certs_loop (fuel : nat) (payload : bytes) (off end_ : Z) (certs : list X509)
    : M S (list X509 + error) :=
  match fuel with
  | O => panic
  | Datatypes.S fuel =>
      if negb (off + 3 <=? end_) then mret (inl certs)
      else
        derLen ← index24 payload off;
        let off := off + 3 in
        if off + derLen >? end_ then mret (inr (errorsNew "tls: Certificate entry truncated"))
        else
          der ← reslice payload off (off + derLen);
          match ParseX509 der with
          | inr e => mret (inr (errorfPrefix "tls: parse certificate" e))
          | inl cert =>
              let certs := certs ++ [cert] in
              let off := off + derLen in
              if off + 2 >? end_ then mret (inl certs)
              else
                extLen ← index16 payload off;
                certs_loop fuel payload (off + (2 + extLen)) end_ certs
          end
  end.

Definition parseCertificate (payload : bytes) : M S (list X509 + error) :=
  if zlen payload =? 0 then mret (inr (errorsNew "tls: empty Certificate message"))
  else
    ctxLen ← index payload 0;
    let off := 1 in
    if off + ctxLen >? zlen payload then mret (inr (errorsNew "tls: Certificate context truncated"))
    else
      let off := off + ctxLen in
      if off + 3 >? zlen payload then mret (inr (errorsNew "tls: Certificate list truncated"))
      else
        listLen ← index24 payload off;
        let off := off + 3 in
        if off + listLen >? zlen payload then
          mret (inr (errorsNew "tls: Certificate list truncated"))
        else
          let end_ := off + listLen in
          r ← certs_loop (fuel_for payload) payload off end_ [];
          match r with
          | inr e => mret (inr e)
          | inl certs =>
              if zlen certs =? 0 then
                mret (inr (errorsNew "tls: Certificate message has no certificates"))
              else mret (inl certs)
          end.

Definition parseCertificateVerify (payload : bytes) : M S ((Z * bytes) + error) :=
  if zlen payload <? 4 then mret (inr (errorsNew "tls: CertificateVerify truncated"))
  else
    algo ← index16 payload 0;
    sigLen ← index16 payload 2;
    if 4 + sigLen >? zlen payload then
      mret (inr (errorsNew "tls: CertificateVerify signature truncated"))
    else sig ← reslice payload 4 (4 + sigLen); mret (inl (algo, sig)).
End Parsers.
End Sign.
