(* ===== verification/TlsState.v ===== *)
(** * TlsState

    [tls/state.go] and the key exchange of [tls/handshake.go]: the TLS 1.3
    state machine of a client or a server.  [StateMachine] is the object with
    the protectors it points to: [writeKeys] and [hsWriteKeys] are pointers,
    and they may point to the same protector, so the protectors are in a store
    and the fields hold indices into it. *)

From S2P Require Import Prelude Pump GoStd TlsRecord TlsHello TlsKeys TlsSign.

Section State.
Context {C : Crypto}.

Definition ErrHandshakeIncomplete : error := errorsNew "tls: handshake is not complete".

(** The fields of [tls.Config] and [tls.Certificate] that the package reads. *)
Record Certificate : Type := mkCertificate {
  cert_Certificate : list bytes;
  cert_PrivateKey : option PrivateKey;
}.
Record Config : Type := mkConfig {
  Certificates : list Certificate;
  ServerName : string;
  NextProtos : list string;
}.

(** [keyExchange] *)
Record keyExchange : Type := mkKx { kx_priv : EcdhKey; kx_pub : bytes }.

Record StateMachine : Type := mkSM {
  config : option Config;
  isClient : bool;
  state : HandshakeState;
  handshakes : HandshakeParser;
  keys : keySchedule;
  kx : option keyExchange;
  peerKeyShare : option bytes;
  protectors : list recordProtector;
  writeKeys : option nat;
  readKeys : option nat;
  hsWriteKeys : option nat;
  hsReadKeys : option nat;
  hsWriteSecret : option bytes;
  hsReadSecret : option bytes;
  appWriteSecret : option bytes;
  appReadSecret : option bytes;
  out : bytes;
  plaintext : bytes;
  clientHello : option ClientHello;
  serverHello : option ServerHello;
  suite : Z;
  negotiatedALPN : string;
  err : option error;
  rand : Rand; (** what [rand.Reader] will deliver *)
}.

(** ** Field updates *)

Definition set_state x (s : StateMachine) : StateMachine :=
  mkSM (config s) (isClient s) x (handshakes s) (keys s) (kx s) (peerKeyShare s) (protectors s)
    (writeKeys s) (readKeys s) (hsWriteKeys s) (hsReadKeys s) (hsWriteSecret s) (hsReadSecret s)
    (appWriteSecret s) (appReadSecret s) (out s) (plaintext s) (clientHello s) (serverHello s)
    (suite s) (negotiatedALPN s) (err s) (rand s).
Definition set_handshakes x (s : StateMachine) : StateMachine :=
  mkSM (config s) (isClient s) (state s) x (keys s) (kx s) (peerKeyShare s) (protectors s)
    (writeKeys s) (readKeys s) (hsWriteKeys s) (hsReadKeys s) (hsWriteSecret s) (hsReadSecret s)
    (appWriteSecret s) (appReadSecret s) (out s) (plaintext s) (clientHello s) (serverHello s)
    (suite s) (negotiatedALPN s) (err s) (rand s).
Definition set_keys x (s : StateMachine) : StateMachine :=
  mkSM (config s) (isClient s) (state s) (handshakes s) x (kx s) (peerKeyShare s) (protectors s)
    (writeKeys s) (readKeys s) (hsWriteKeys s) (hsReadKeys s) (hsWriteSecret s) (hsReadSecret s)
    (appWriteSecret s) (appReadSecret s) (out s) (plaintext s) (clientHello s) (serverHello s)
    (suite s) (negotiatedALPN s) (err s) (rand s).
Definition set_kx x (s : StateMachine) : StateMachine :=
  mkSM (config s) (isClient s) (state s) (handshakes s) (keys s) x (peerKeyShare s) (protectors s)
    (writeKeys s) (readKeys s) (hsWriteKeys s) (hsReadKeys s) (hsWriteSecret s) (hsReadSecret s)
    (appWriteSecret s) (appReadSecret s) (out s) (plaintext s) (clientHello s) (serverHello s)
    (suite s) (negotiatedALPN s) (err s) (rand s).
Definition set_peerKeyShare x (s : StateMachine) : StateMachine :=
  mkSM (config s) (isClient s) (state s) (handshakes s) (keys s) (kx s) x (protectors s)
    (writeKeys s) (readKeys s) (hsWriteKeys s) (hsReadKeys s) (hsWriteSecret s) (hsReadSecret s)
    (appWriteSecret s) (appReadSecret s) (out s) (plaintext s) (clientHello s) (serverHello s)
    (suite s) (negotiatedALPN s) (err s) (rand s).
Definition set_protectors x (s : StateMachine) : StateMachine :=
  mkSM (config s) (isClient s) (state s) (handshakes s) (keys s) (kx s) (peerKeyShare s) x
    (writeKeys s) (readKeys s) (hsWriteKeys s) (hsReadKeys s) (hsWriteSecret s) (hsReadSecret s)
    (appWriteSecret s) (appReadSecret s) (out s) (plaintext s) (clientHello s) (serverHello s)
    (suite s) (negotiatedALPN s) (err s) (rand s).
(** [writeKeys] and [readKeys] are always replaced together. *)
Definition set_rwKeys w r (s : StateMachine) : StateMachine :=
  mkSM (config s) (isClient s) (state s) (handshakes s) (keys s) (kx s) (peerKeyShare s) (protectors s)
    w r (hsWriteKeys s) (hsReadKeys s) (hsWriteSecret s) (hsReadSecret s)
    (appWriteSecret s) (appReadSecret s) (out s) (plaintext s) (clientHello s) (serverHello s)
    (suite s) (negotiatedALPN s) (err s) (rand s).
Definition set_hsKeys w r (s : StateMachine) : StateMachine :=
  mkSM (config s) (isClient s) (state s) (handshakes s) (keys s) (kx s) (peerKeyShare s) (protectors s)
    (writeKeys s) (readKeys s) w r (hsWriteSecret s) (hsReadSecret s)
    (appWriteSecret s) (appReadSecret s) (out s) (plaintext s) (clientHello s) (serverHello s)
    (suite s) (negotiatedALPN s) (err s) (rand s).
Definition set_hsSecrets w r (s : StateMachine) : StateMachine :=
  mkSM (config s) (isClient s) (state s) (handshakes s) (keys s) (kx s) (peerKeyShare s) (protectors s)
    (writeKeys s) (readKeys s) (hsWriteKeys s) (hsReadKeys s) w r
    (appWriteSecret s) (appReadSecret s) (out s) (plaintext s) (clientHello s) (serverHello s)
    (suite s) (negotiatedALPN s) (err s) (rand s).
Definition set_appSecrets w r (s : StateMachine) : StateMachine :=
  mkSM (config s) (isClient s) (state s) (handshakes s) (keys s) (kx s) (peerKeyShare s) (protectors s)
    (writeKeys s) (readKeys s) (hsWriteKeys s) (hsReadKeys s) (hsWriteSecret s) (hsReadSecret s)
    w r (out s) (plaintext s) (clientHello s) (serverHello s)
    (suite s) (negotiatedALPN s) (err s) (rand s).
Definition set_out x (s : StateMachine) : StateMachine :=
  mkSM (config s) (isClient s) (state s) (handshakes s) (keys s) (kx s) (peerKeyShare s) (protectors s)
    (writeKeys s) (readKeys s) (hsWriteKeys s) (hsReadKeys s) (hsWriteSecret s) (hsReadSecret s)
    (appWriteSecret s) (appReadSecret s) x (plaintext s) (clientHello s) (serverHello s)
    (suite s) (negotiatedALPN s) (err s) (rand s).
Definition set_plaintext x (s : StateMachine) : StateMachine :=
  mkSM (config s) (isClient s) (state s) (handshakes s) (keys s) (kx s) (peerKeyShare s) (protectors s)
    (writeKeys s) (readKeys s) (hsWriteKeys s) (hsReadKeys s) (hsWriteSecret s) (hsReadSecret s)
    (appWriteSecret s) (appReadSecret s) (out s) x (clientHello s) (serverHello s)
    (suite s) (negotiatedALPN s) (err s) (rand s).
Definition set_clientHello x (s : StateMachine) : StateMachine :=
  mkSM (config s) (isClient s) (state s) (handshakes s) (keys s) (kx s) (peerKeyShare s) (protectors s)
    (writeKeys s) (readKeys s) (hsWriteKeys s) (hsReadKeys s) (hsWriteSecret s) (hsReadSecret s)
    (appWriteSecret s) (appReadSecret s) (out s) (plaintext s) x (serverHello s)
    (suite s) (negotiatedALPN s) (err s) (rand s).
Definition set_serverHello x (s : StateMachine) : StateMachine :=
  mkSM (config s) (isClient s) (state s) (handshakes s) (keys s) (kx s) (peerKeyShare s) (protectors s)
    (writeKeys s) (readKeys s) (hsWriteKeys s) (hsReadKeys s) (hsWriteSecret s) (hsReadSecret s)
    (appWriteSecret s) (appReadSecret s) (out s) (plaintext s) (clientHello s) x
    (suite s) (negotiatedALPN s) (err s) (rand s).
Definition set_suite x (s : StateMachine) : StateMachine :=
  mkSM (config s) (isClient s) (state s) (handshakes s) (keys s) (kx s) (peerKeyShare s) (protectors s)
    (writeKeys s) (readKeys s) (hsWriteKeys s) (hsReadKeys s) (hsWriteSecret s) (hsReadSecret s)
    (appWriteSecret s) (appReadSecret s) (out s) (plaintext s) (clientHello s) (serverHello s)
    x (negotiatedALPN s) (err s) (rand s).
Definition set_alpn x (s : StateMachine) : StateMachine :=
  mkSM (config s) (isClient s) (state s) (handshakes s) (keys s) (kx s) (peerKeyShare s) (protectors s)
    (writeKeys s) (readKeys s) (hsWriteKeys s) (hsReadKeys s) (hsWriteSecret s) (hsReadSecret s)
    (appWriteSecret s) (appReadSecret s) (out s) (plaintext s) (clientHello s) (serverHello s)
    (suite s) x (err s) (rand s).
Definition set_err x (s : StateMachine) : StateMachine :=
  mkSM (config s) (isClient s) (state s) (handshakes s) (keys s) (kx s) (peerKeyShare s) (protectors s)
    (writeKeys s) (readKeys s) (hsWriteKeys s) (hsReadKeys s) (hsWriteSecret s) (hsReadSecret s)
    (appWriteSecret s) (appReadSecret s) (out s) (plaintext s) (clientHello s) (serverHello s)
    (suite s) (negotiatedALPN s) x (rand s).
Definition set_rand x (s : StateMachine) : StateMachine :=
  mkSM (config s) (isClient s) (state s) (handshakes s) (keys s) (kx s) (peerKeyShare s) (protectors s)
    (writeKeys s) (readKeys s) (hsWriteKeys s) (hsReadKeys s) (hsWriteSecret s) (hsReadSecret s)
    (appWriteSecret s) (appReadSecret s) (out s) (plaintext s) (clientHello s) (serverHello s)
    (suite s) (negotiatedALPN s) (err s) x.

Notation MS := (M StateMachine).

Definition emit (b : bytes) : MS unit := modify (fun s => set_out (out s ++ b) s).
Definition transcribe (b : bytes) : MS unit :=
  modify (fun s => set_keys (mkKeySchedule (transcript_write (transcript (keys s)) b)
    (earlySecret (keys s)) (handshakeSecret (keys s)) (masterSecret (keys s))) s).

(** Go's [if v, err := m; err != nil { return err }; k v]. *)
Definition orReturn {A} (m : MS (A + error)) (k : A -> MS (option error)) : MS (option error) :=
  r ← m; match r with inl a => k a | inr e => mret (Some e) end.

(** Randomness, and the operations of [crypto/*] that consume it. *)
Definition withRand {A} (f : Rand -> A * Rand) : MS A :=
  r ← gets rand;
  let '(a, r) := f r in
  modify (set_rand r) ;; mret a.

(** ** Protectors behind pointers *)

Definition alloc (p : recordProtector) : MS nat :=
  i ← gets (fun s => length (protectors s));
  modify (fun s => set_protectors (protectors s ++ [p]) s) ;; mret i.

Definition newProtector (keys : trafficKeys) : MS (nat + error) :=
  match newRecordProtector keys with
  | inr e => mret (inr e)
  | inl p => i ← alloc p; mret (inl i)
  end.

(** A call of a method of the protector at [i]; a dangling index panics. *)
Definition onProtector {A} (i : nat) (m : M recordProtector A) : MS A :=
  fun s =>
    match protectors s !! i with
    | None => None
    | Some p =>
        match m p with
        | None => None
        | Some (a, p) => Some (a, set_protectors (<[i:=p]> (protectors s)) s)
        end
    end.

(** [p == nil || p.aead == nil] *)
Definition notReady (p : option nat) (s : StateMachine) : bool :=
  match p with
  | None => true
  | Some i => match protectors s !! i with
              | Some p => negb (bool_decide (is_Some (rp_aead p)))
              | None => true
              end
  end.

(** ** Key exchange *)

Definition newKeyExchange : MS (keyExchange + error) :=
  r ← withRand X25519_GenerateKey;
  match r with
  | inr e => mret (inr e)
  | inl priv => mret (inl (mkKx priv (PublicKey_Bytes priv)))
  end.

Definition shared (k : keyExchange) (peerPub : bytes) : bytes + error :=
  match X25519_NewPublicKey peerPub with
  | Some e => inr (errorfPrefix "tls: bad peer public key" e)
  | None => ECDH (kx_priv k) peerPub
  end.

(** The methods of [sm.keys] that can fail. *)
Definition onKeys (f : keySchedule -> keySchedule * option error) : MS (option error) :=
  ks ← gets keys;
  let '(ks, e) := f ks in
  modify (set_keys ks) ;; mret e.

(** ** Construction *)

Definition initKeys : keySchedule := deriveEarly newKeySchedule None.

Definition newStateMachine (config : option Config) (isClient : bool) (st : HandshakeState)
    (r : Rand) : StateMachine :=
  mkSM config isClient st NewHandshakeParser initKeys None None [] None None None None
    None None None None [] [] None None 0 "" None r.

Definition NewServerStateMachine (config : option Config) (r : Rand) : StateMachine :=
  newStateMachine config false StateWaitClientHello r.
Definition NewClientStateMachine (config : option Config) (r : Rand) : StateMachine :=
  newStateMachine config true StateWaitServerHello r.

Definition Established (s : StateMachine) : bool := bool_decide (state s = StateEstablished).

Definition Start : MS (option error) :=
  c ← gets isClient;
  if negb c then mret (Some (errorsNew "tls: server does not start"))
  else
    orReturn newKeyExchange (fun k =>
    modify (set_kx (Some k)) ;;
    orReturn (withRand (Rand_Read 32)) (fun random =>
    orReturn (withRand (Rand_Read 32)) (fun sid =>
    cfg ← gets config;
    let name := match cfg with Some c => ServerName c | None => "" end in
    let alpn := match cfg with Some c => NextProtos c | None => [] end in
    let ch := mkClientHello 0x0303 random sid
      [TLS_AES_128_GCM_SHA256; TLS_AES_256_GCM_SHA384; TLS_CHACHA20_POLY1305_SHA256] name alpn in
    let msg := AppendClientHello [] ch (kx_pub k) in
    emit (AppendRecord [] recordHandshake 0x0303 msg) ;;
    transcribe msg ;;
    mret None))).

(** ** Messages the state machine writes *)

Definition writeHandshake (msg : bytes) : MS unit :=
  plain ← gets (fun s => notReady (hsWriteKeys s) s);
  if (plain : bool) then emit (AppendRecord [] recordHandshake 0x0303 msg)
  else
    i ← gets hsWriteKeys; i ← of_option i;
    r ← onProtector i (seal recordHandshake msg);
    match r with
    | inr e => modify (set_err (Some e))
    | inl ct => emit (AppendRecord [] recordApplicationData 0x0303 ct)
    end.

Definition finishedMessage (isClient : bool) : MS bytes :=
  base ← gets (fun s => default [] (hsWriteSecret s));
  th ← gets (fun s => transcript_sum (transcript (keys s)));
  let verify := finishedVerifyData base th in
  mret (AppendHandshake [] hsFinished verify).

(** The list of certificate entries, each with empty extensions. *)
Definition certificateEntries (ders : list bytes) : bytes :=
  fold_left (fun entries der =>
    let entries := entries ++ [u8 (zlen der >> 16); u8 (zlen der >> 8); u8 (zlen der)] in
    let entries := entries ++ der in
    entries ++ [0; 0]) ders [].

Definition certificateBody (ders : list bytes) : bytes :=
  let body := [0] in
  let entries := certificateEntries ders in
  let body := body ++ [u8 (zlen entries >> 16); u8 (zlen entries >> 8); u8 (zlen entries)] in
  body ++ entries.

(** [sm.config.Certificates[0]], when there is one. *)
Definition firstCertificate (s : StateMachine) : option Certificate :=
  match config s with
  | Some c => head (Certificates c)
  | None => None
  end.

Definition serverCertificate : MS (bytes + error) :=
  c ← gets firstCertificate;
  match c with
  | None => mret (inr (errorsNew "tls: no certificate configured"))
  | Some cert => mret (inl (AppendHandshake [] hsCertificate (certificateBody (cert_Certificate cert))))
  end.

Definition certificateVerifyBody (algo : Z) (sig : bytes) : bytes :=
  let body := [u8 (algo >> 8); u8 algo] in
  let body := body ++ [u8 (zlen sig >> 8); u8 (zlen sig)] in
  body ++ sig.

Definition certificateVerify : MS (bytes + error) :=
  c ← gets firstCertificate;
  match c with
  | None => mret (inr (errorsNew "tls: no certificate configured"))
  | Some cert =>
      match cert_PrivateKey cert with
      | None => mret (inr (errorsNew "tls: certificate has no private key"))
      | Some key =>
          client ← gets isClient;
          th ← gets (fun s => transcript_sum (transcript (keys s)));
          let toSign := certificateVerifyInput client th in
          r ← withRand (signWithKey key toSign);
          match r with
          | inr e => mret (inr e)
          | inl sig =>
              let algo := signatureAlgorithm key in
              mret (inl (AppendHandshake [] hsCertificateVerify (certificateVerifyBody algo sig)))
          end
      end
  end.

(** ** Application keys *)

Definition cacheApplicationSecrets : MS (option error) :=
  try onKeys deriveMaster;
  th ← gets (fun s => transcript_sum (transcript (keys s)));
  master ← gets (fun s => default [] (masterSecret (keys s)));
  c ← gets isClient;
  (if (c : bool)
   then modify (set_appSecrets (Some (deriveSecret master "c ap traffic" th))
                               (Some (deriveSecret master "s ap traffic" th)))
   else modify (set_appSecrets (Some (deriveSecret master "s ap traffic" th))
                               (Some (deriveSecret master "c ap traffic" th)))) ;;
  mret None.

Definition switchToApplicationKeys : MS (option error) :=
  w ← gets appWriteSecret;
  r ← gets appReadSecret;
  match w, r with
  | Some w, Some r =>
      orReturn (newProtector (keysFromSecret w)) (fun wp =>
      orReturn (newProtector (keysFromSecret r)) (fun rp =>
      modify (set_rwKeys (Some wp) (Some rp)) ;;
      mret None))
  | _, _ => mret (Some (errorsNew "tls: application secrets not cached"))
  end.
End State.

Notation MS := (M StateMachine).

(** ** Handlers *)

Section Handlers.
Context {C : Crypto}.

(** *** A ClientHello on the server *)

(** The cipher suite, the client's share, the protocol; the message enters the
    transcript. *)
Definition acceptClientHello (payload : bytes) (k : ClientHello -> bytes -> MS (option error))
    : MS (option error) :=
  orReturn (ParseClientHello payload) (fun ch =>
  modify (set_clientHello (Some ch)) ;;
  (if existsb (fun cs => cs =? TLS_AES_128_GCM_SHA256) (ch_CipherSuites ch)
   then modify (set_suite TLS_AES_128_GCM_SHA256) else mret tt) ;;
  suite ← gets suite;
  if suite =? 0 then mret (Some ErrNoSharedCipher)
  else
    orReturn (clientKeyShare payload) (fun ks =>
    modify (set_peerKeyShare (Some ks)) ;;
    cfg ← gets config;
    match cfg with
    | Some c => modify (set_alpn (negotiateALPN (ch_ALPN ch) (NextProtos c)))
    | None => mret tt
    end ;;
    transcribe (AppendHandshake [] hsClientHello payload) ;;
    k ch ks)).

(** The two handshake secrets, the protectors made from them, and the pointers
    to those. *)
Definition installHandshakeKeys (writeLabel readLabel : string) : MS (option error) :=
  hs ← gets (fun s => default [] (handshakeSecret (keys s)));
  th ← gets (fun s => transcript_sum (transcript (keys s)));
  let ws := deriveSecret hs writeLabel th in
  let rs := deriveSecret hs readLabel th in
  modify (set_hsSecrets (Some ws) (Some rs)) ;;
  orReturn (newProtector (keysFromSecret ws)) (fun w =>
  orReturn (newProtector (keysFromSecret rs)) (fun r =>
  modify (set_hsKeys (Some w) (Some r)) ;;
  modify (set_rwKeys (Some w) (Some r)) ;;
  mret None)).

(** ServerHello, and everything after it is encrypted. *)
Definition sendServerHello (ch : ClientHello) (ks : bytes) : MS (option error) :=
  orReturn newKeyExchange (fun k =>
  modify (set_kx (Some k)) ;;
  match shared k ks with
  | inr e => mret (Some e)
  | inl sharedSecret =>
      try onKeys (fun keys => deriveHandshake keys sharedSecret);
      orReturn (withRand (Rand_Read 32)) (fun random =>
      suite ← gets suite;
      let sh := mkServerHello 0x0303 random (ch_SessionID ch) suite in
      let shMsg := AppendServerHello [] sh (kx_pub k) in
      emit (AppendRecord [] recordHandshake 0x0303 shMsg) ;;
      transcribe shMsg ;;
      installHandshakeKeys "s hs traffic" "c hs traffic")
  end).

(** A message of the server's flight: written, then part of the transcript. *)
Definition sendAndTranscribe (msg : bytes) : MS unit := writeHandshake msg ;; transcribe msg.

(** ChangeCipherSpec, EncryptedExtensions, Certificate, CertificateVerify and
    Finished; the application secrets are those of this transcript. *)
Definition sendServerFlight : MS (option error) :=
  emit (AppendRecord [] recordChangeCipherSpec 0x0303 [1]) ;;
  alpn ← gets negotiatedALPN;
  let ee := AppendHandshake [] hsEncryptedExtensions (appendALPNServerExtension alpn) in
  sendAndTranscribe ee ;;
  orReturn serverCertificate (fun cert =>
  sendAndTranscribe cert ;;
  orReturn certificateVerify (fun cv =>
  sendAndTranscribe cv ;;
  fin ← finishedMessage false;
  sendAndTranscribe fin ;;
  try cacheApplicationSecrets;
  modify (set_state StateWaitFinished) ;;
  mret None)).

Definition onClientHello (payload : bytes) : MS (option error) :=
  c ← gets isClient;
  if (c : bool) then mret (Some (errorsNew "tls: ClientHello on client"))
  else
    acceptClientHello payload (fun ch ks =>
    try sendServerHello ch ks;
    sendServerFlight).

(** *** A ServerHello on the client *)

Definition onServerHello (payload : bytes) : MS (option error) :=
  c ← gets isClient;
  if negb c then mret (Some (errorsNew "tls: ServerHello on server"))
  else
    orReturn (ParseServerHello payload) (fun sh =>
    modify (set_serverHello (Some sh)) ;;
    modify (set_suite (sh_CipherSuite sh)) ;;
    orReturn (serverKeyShare payload) (fun ks =>
    transcribe (AppendHandshake [] hsServerHello payload) ;;
    k ← gets kx; k ← of_option k;
    match shared k ks with
    | inr e => mret (Some e)
    | inl sharedSecret =>
        try onKeys (fun keys => deriveHandshake keys sharedSecret);
        try installHandshakeKeys "c hs traffic" "s hs traffic";
        modify (set_state StateWaitEncryptedExtensions) ;;
        mret None
    end)).

(** *** Finished *)

(** [diff |= want[i] ^ payload[i]], the lengths being equal. *)
Definition verifyDiff (want payload : bytes) : Z :=
  fold_left (fun diff xy => Z.lor diff (Z.lxor (fst xy) (snd xy))) (zip want payload) 0.

Definition onFinished (payload : bytes) : MS (option error) :=
  baseSecret ← gets (fun s => default [] (hsReadSecret s));
  th ← gets (fun s => transcript_sum (transcript (keys s)));
  let want := finishedVerifyData baseSecret th in
  if negb (zlen payload =? zlen want) then
    mret (Some (errorsNew ("tls: Finished length " +:+ fmt_d (zlen payload) +:+ ", want " +:+
                           fmt_d (zlen want))))
  else if negb (verifyDiff want payload =? 0) then
    mret (Some (errorsNew "tls: Finished verify data mismatch"))
  else
    c ← gets isClient;
    if (c : bool) then
      transcribe (AppendHandshake [] hsFinished payload) ;;
      try cacheApplicationSecrets;
      emit (AppendRecord [] recordChangeCipherSpec 0x0303 [1]) ;;
      fin ← finishedMessage true;
      sendAndTranscribe fin ;;
      try switchToApplicationKeys;
      modify (set_state StateEstablished) ;;
      mret None
    else
      transcribe (AppendHandshake [] hsFinished payload) ;;
      try switchToApplicationKeys;
      modify (set_state StateEstablished) ;;
      mret None.

(** *** Dispatch *)

(** The message enters the transcript, whatever the state. *)
Definition passMessage (h : Handshake) (from_ to_ : HandshakeState) : MS (option error) :=
  transcribe (AppendHandshake [] (hs_Type h) (hs_Payload h)) ;;
  st ← gets state;
  (if bool_decide (st = from_) then modify (set_state to_) else mret tt) ;;
  mret None.

Definition onHandshake (h : Handshake) : MS (option error) :=
  let t := hs_Type h in
  if t =? hsClientHello then onClientHello (hs_Payload h)
  else if t =? hsServerHello then onServerHello (hs_Payload h)
  else if t =? hsEncryptedExtensions then
    c ← gets isClient;
    (if (c : bool) then alpn ← parseALPNServerExtension (hs_Payload h); modify (set_alpn alpn)
     else mret tt) ;;
    passMessage h StateWaitEncryptedExtensions StateWaitCertificate
  else if t =? hsCertificate then passMessage h StateWaitCertificate StateWaitCertificateVerify
  else if t =? hsCertificateVerify then
    passMessage h StateWaitCertificateVerify StateWaitServerFinished
  else if t =? hsFinished then onFinished (hs_Payload h)
  else if t =? hsNewSessionTicket then mret None
  else if t =? hsKeyUpdate then mret (Some (errorsNew "tls: KeyUpdate not implemented"))
  else mret None.

Definition onAlert (b : bytes) : MS (option error) :=
  if zlen b >=? 2 then
    level ← index b 0;
    desc ← index b 1;
    if level =? 2 then mret (Some (errorsNew ("tls: fatal alert " +:+ fmt_d desc)))
    else mret None
  else mret None.

(** [sm.handshakes.Parse(data, sm.onHandshake)]; the handlers do not touch the
    parser. *)
Definition parseHandshakes (data : bytes) : MS (option error) :=
  p ← gets handshakes;
  r ← HandshakeParser_Parse onHandshake p data;
  modify (set_handshakes (fst r)) ;;
  mret (snd (snd r)).

Definition onRecord (r : TlsRec) : MS (option error) :=
  let t := Type_ r in
  if t =? recordHandshake then parseHandshakes (Payload r)
  else if t =? recordApplicationData then
    noKeys ← gets (fun s => notReady (readKeys s) s);
    if (noKeys : bool) then mret (Some (errorsNew "tls: encrypted record before keys"))
    else
      i ← gets readKeys; i ← of_option i;
      orReturn (onProtector i (open (Payload r))) (fun '(content, innerType) =>
      if innerType =? recordHandshake then parseHandshakes content
      else if innerType =? recordApplicationData then
        modify (fun s => set_plaintext (plaintext s ++ content) s) ;; mret None
      else if innerType =? recordAlert then onAlert content
      else mret None)
  else if t =? recordAlert then onAlert (Payload r)
  else if t =? recordChangeCipherSpec then mret None
  else mret None.

(** ** The interface *)

Definition Feed (data : bytes) : MS (Z * option error) :=
  e ← gets err;
  match e with
  | Some e => mret (0, Some e)
  | None =>
      if zlen data =? 0 then mret (0, None)
      else
        r ← RecordParser_Parse onRecord data;
        let '(n, e) := r in
        match e with
        | Some e => modify (set_err (Some e)) ;; mret (n, Some e)
        | None => mret (n, None)
        end
  end.

Definition TakeOutput : MS bytes :=
  o ← gets out;
  if zlen o =? 0 then mret [] else modify (set_out []) ;; mret o.

Definition ReadPlaintext : MS bytes :=
  p ← gets plaintext;
  if zlen p =? 0 then mret [] else modify (set_plaintext []) ;; mret p.

(** [for len(plain) > 0]: every turn seals at least one byte. *)
Fixpoint Write_loop (fuel : nat) (i : nat) (out plain : bytes) : MS (bytes * option error) :=
  match fuel with
  | O => panic
  | S fuel =>
      if negb (zlen plain >? 0) then mret (out, None)
      else
        let n := zlen plain in
        let n := if n >? maxRecordPayload then maxRecordPayload else n in
        chunk ← reslice plain 0 n;
        r ← onProtector i (seal recordApplicationData chunk);
        match r with
        | inr e => mret (out, Some e)
        | inl ct =>
            let out := AppendRecord out recordApplicationData 0x0303 ct in
            plain ← reslice plain n (zlen plain);
            Write_loop fuel i out plain
        end
  end.

Definition Write (plain : bytes) : MS (bytes * option error) :=
  st ← gets state;
  if negb (bool_decide (st = StateEstablished)) then mret ([], Some ErrHandshakeIncomplete)
  else
    noKeys ← gets (fun s => notReady (writeKeys s) s);
    if (noKeys : bool) then mret ([], Some ErrAEADNotReady)
    else
      i ← gets writeKeys; i ← of_option i;
      Write_loop (fuel_for plain) i [] plain.
End Handlers.
