(* ===== verification/TlsSafe.v ===== *)
(** * TlsSafe

    No bytes from the network make the TLS state machine panic: every pointer
    to a protector is valid, every nonce has the size the cipher wants, every
    read is in bounds.  The invariant is kept by every operation. *)

From S2P Require Import Prelude Pump GoStd TlsRecord TlsHello TlsHelloFacts TlsKeys TlsKeysFacts.
From S2P Require Import TlsSign TlsState.

Section Safe.
Context {C : Crypto} {L : CryptoLaws C}.

Definition valid_ptr (s : StateMachine) (p : option nat) : Prop :=
  match p with Some i => (i < length (protectors s))%nat | None => True end.

Record Inv (s : StateMachine) : Prop := mkInv {
  inv_protectors : Forall protector_ok (protectors s);
  inv_write : valid_ptr s (writeKeys s);
  inv_read : valid_ptr s (readKeys s);
  inv_hsWrite : valid_ptr s (hsWriteKeys s);
  inv_hsRead : valid_ptr s (hsReadKeys s);
  inv_buf : bytes_ok (hp_buf (handshakes s));
  inv_plain : bytes_ok (plaintext s);
  inv_kx : isClient s = true -> is_Some (kx s);
}.

(** [m] keeps the invariant, does not panic, and its result satisfies [P]. *)
Definition safe {A} (m : M StateMachine A) (P : A -> Prop) : Prop :=
  forall s, Inv s -> wp m (fun a s' => P a /\ Inv s') s.

Lemma tls_safe_ret {A} (a : A) (P : A -> Prop) : P a -> safe (mret a) P.
Proof. intros H s Hs. by apply wp_ret. Qed.
Lemma tls_safe_bind {A B} (m : M StateMachine A) (k : A -> M StateMachine B) P Q :
  safe m P -> (forall a, P a -> safe (k a) Q) -> safe (m ≫= k) Q.
Proof.
  intros Hm Hk s Hs. apply wp_bind. eapply wp_mono; [by apply Hm|].
  intros a s' [Ha Hs']. by apply Hk.
Qed.
Lemma safe_mono {A} (m : M StateMachine A) (P Q : A -> Prop) :
  safe m P -> (forall a, P a -> Q a) -> safe m Q.
Proof. intros Hm HPQ s Hs. eapply wp_mono; [by apply Hm|]. intros a s' [? ?]. eauto. Qed.
Lemma safe_any {A} (m : M StateMachine A) P : safe m P -> safe m (fun _ => True).
Proof. intros Hm. by eapply safe_mono. Qed.
Lemma tls_safe_gets {A} (f : StateMachine -> A) (P : A -> Prop) :
  (forall s, Inv s -> P (f s)) -> safe (gets f) P.
Proof. intros H s Hs. apply wp_gets. auto. Qed.
Lemma safe_gets_any {A} (f : StateMachine -> A) : safe (gets f) (fun _ => True).
Proof. by apply tls_safe_gets. Qed.
Lemma tls_safe_modify f : (forall s, Inv s -> Inv (f s)) -> safe (modify f) (fun _ => True).
Proof. intros H s Hs. apply wp_modify. auto. Qed.
Lemma safe_reads {A} (m : M StateMachine A) P : reads m P -> safe m P.
Proof. intros H s Hs. eapply wp_mono; [apply H|]. intros a s' [-> Ha]. done. Qed.
Lemma tls_safe_check m k :
  safe m (fun _ => True) -> safe k (fun _ => True) ->
  safe (check m k) (fun _ : option error => True).
Proof. intros Hm Hk. eapply tls_safe_bind; [exact Hm|]. intros [e|] _; [by apply tls_safe_ret|done]. Qed.
Lemma safe_orReturn {A} (m : M StateMachine (A + error)) k (P : A -> Prop) :
  safe m (fun r => match r with inl a => P a | inr _ => True end) ->
  (forall a, P a -> safe (k a) (fun _ => True)) -> safe (orReturn m k) (fun _ => True).
Proof.
  intros Hm Hk. eapply tls_safe_bind; [exact Hm|]. intros [a|e] Ha; [by apply Hk|by apply tls_safe_ret].
Qed.

(** Updates of fields the invariant does not read. *)
Lemma safe_modify_frame f :
  (forall s, protectors (f s) = protectors s /\ writeKeys (f s) = writeKeys s /\
     readKeys (f s) = readKeys s /\ hsWriteKeys (f s) = hsWriteKeys s /\
     hsReadKeys (f s) = hsReadKeys s /\ handshakes (f s) = handshakes s /\
     isClient (f s) = isClient s /\ (kx (f s) = kx s \/ is_Some (kx (f s))) /\
     (plaintext (f s) = plaintext s \/ plaintext (f s) = [])) ->
  safe (modify f) (fun _ => True).
Proof.
  intros Hf. apply tls_safe_modify. intros s [H1 H2 H3 H4 H5 H6 Hpt H7].
  destruct (Hf s) as (E1 & E2 & E3 & E4 & E5 & E6 & E7 & E8 & E9).
  split; unfold valid_ptr in *; rewrite ?E1, ?E2, ?E3, ?E4, ?E5, ?E6, ?E7; try done.
  - destruct E9 as [->| ->]; [done|constructor].
  - intros Hc. destruct E8 as [->|?]; auto.
Qed.

Ltac frame := apply safe_modify_frame; intros; cbn; split_and!; try done; auto.

Lemma safe_emit b : safe (emit b) (fun _ => True).
Proof. unfold emit. frame. Qed.
Lemma safe_transcribe b : safe (transcribe b) (fun _ => True).
Proof. unfold transcribe. frame. Qed.

Lemma safe_withRand {A} (f : Rand -> A * Rand) (P : A -> Prop) :
  (forall r, P (fst (f r))) -> safe (withRand f) P.
Proof.
  intros Hf. unfold withRand. eapply tls_safe_bind; [apply safe_gets_any|]. intros r _.
  specialize (Hf r). destruct (f r) as [a r'].
  eapply tls_safe_bind; [frame|]. intros _ _. by apply tls_safe_ret.
Qed.

Lemma safe_onKeys f : safe (onKeys f) (fun _ => True).
Proof.
  unfold onKeys. eapply tls_safe_bind; [apply safe_gets_any|]. intros ks _. destruct (f ks) as [ks' e].
  eapply tls_safe_bind; [frame|]. intros _ _. by apply tls_safe_ret.
Qed.

(** *** Protectors *)

(** The protector at [i] is there whatever happens later. *)
Definition safeAt {A} (i : nat) (m : M StateMachine A) (P : A -> Prop) : Prop :=
  forall s, Inv s -> (i < length (protectors s))%nat -> wp m (fun a s' => P a /\ Inv s') s.

Lemma onProtector_inv {A} i (m : M recordProtector A) (P : A -> Prop) :
  (forall p, protector_ok p -> wp m (fun a p' => P a /\ protector_ok p') p) ->
  forall s, Inv s -> (i < length (protectors s))%nat ->
  wp (onProtector i m) (fun a s' => P a /\ Inv s') s.
Proof.
  intros Hm s Hs Hi. destruct (lookup_lt_is_Some_2 _ _ Hi) as [p Hp].
  assert (protector_ok p) as Hok by (eapply Forall_lookup_1; [apply (inv_protectors _ Hs)|done]).
  specialize (Hm p Hok). unfold wp, onProtector in *. rewrite Hp.
  destruct (m p) as [[a p']|]; [|done]. destruct Hm as [Ha Hp']. split; [done|].
  destruct Hs as [H1 H2 H3 H4 H5 H6 Hpt H7]. split; unfold valid_ptr in *; cbn; rewrite ?length_insert; try done.
  by apply Forall_insert.
Qed.

Lemma seal_safe t m p : protector_ok p ->
  wp (seal t m) (fun _ p' => True /\ protector_ok p') p.
Proof.
  intros Hp. pose proof Hp as ((a & Ha & _) & _). unfold wp. rewrite (seal_eq p a) by done.
  destruct (_ =? _); split; try done. by apply next_ok.
Qed.

Lemma open_safe c p : bytes_ok c -> protector_ok p ->
  wp (open c) (fun r p' => (match r with inl x => bytes_ok (fst x) | inr _ => True end) /\
                           protector_ok p') p.
Proof.
  intros Hc Hp. pose proof Hp as ((a & Ha & Ho & Hn) & Hiv & Hl & Hs). unfold open.
  apply wp_bind, wp_get. rewrite Ha. destruct (_ <? _); [by apply wp_ret|].
  eapply wp_bind, wp_intro; [apply nonce_eq; lia|].
  apply wp_bind. unfold checkNonce. rewrite zlen_nonce, Hl, Hn by lia. apply wp_ret.
  destruct (AEAD_Open _ _ _ _) as [inner|e] eqn:Hopen; [|by apply wp_ret].
  apply open_ok in Hopen; [|done]. apply wp_bind, wp_modify.
  pose proof (next_ok p Hp) as Hnext. fold (next p). pose proof (zlen_nonneg inner).
  destruct (zlen inner =? 0) eqn:Hz; [by apply wp_ret|].
  apply wp_bind, wp_index; [lia|]. apply wp_bind, wp_reslice; [lia|lia|].
  apply wp_ret. cbn [fst]. auto with go.
Qed.

Lemma safe_alloc p : protector_ok p -> forall s, Inv s ->
  wp (alloc p) (fun i s' => Inv s' /\ i = length (protectors s) /\
    protectors s' = protectors s ++ [p]) s.
Proof.
  intros Hp s [H1 H2 H3 H4 H5 H6 Hpt H7]. unfold alloc. apply wp_bind, wp_gets, wp_bind, wp_modify, wp_ret.
  split; [|done].
  assert (forall q, valid_ptr s q ->
    valid_ptr (set_protectors (protectors s ++ [p]) s) q) as Hv.
  { intros [i|] Hq; [|done]. cbn in *. rewrite length_app. lia. }
  split; cbn; auto. apply Forall_app. auto.
Qed.

(** Making two protectors and then pointing to them. *)
Lemma newProtector_wp sec s : Inv s ->
  wp (newProtector (keysFromSecret sec)) (fun r s' =>
    match r with
    | inl i => i = length (protectors s) /\ length (protectors s') = S (length (protectors s)) /\ Inv s'
    | inr _ => Inv s'
    end) s.
Proof.
  intros Hs. unfold newProtector. destruct (new_protector sec) as (p & -> & Hp & _).
  apply wp_bind. eapply wp_mono; [by apply safe_alloc|].
  intros i s' (Hs' & -> & Hl). apply wp_ret. split; [done|].
  split; [|done]. rewrite Hl, length_app. cbn. lia.
Qed.

Lemma two_protectors w r f :
  (forall i j s, (i < length (protectors s))%nat -> (j < length (protectors s))%nat -> Inv s ->
     Inv (f i j s)) ->
  safe (orReturn (newProtector (keysFromSecret w)) (fun i =>
        orReturn (newProtector (keysFromSecret r)) (fun j =>
        modify (f i j) ;; mret None))) (fun _ => True).
Proof.
  intros Hf s Hs. unfold orReturn. apply wp_bind. eapply wp_mono; [by apply newProtector_wp|].
  intros [i|e] s1 H1; [|by apply wp_ret]. destruct H1 as (-> & Hl1 & Hs1).
  apply wp_bind. eapply wp_mono; [by apply newProtector_wp|].
  intros [j|e] s2 H2; [|by apply wp_ret]. destruct H2 as (-> & Hl2 & Hs2).
  apply wp_bind, wp_modify, wp_ret. split; [done|]. apply Hf; [lia|lia|done].
Qed.

Lemma set_rwKeys_inv i j s :
  (i < length (protectors s))%nat -> (j < length (protectors s))%nat -> Inv s ->
  Inv (set_rwKeys (Some i) (Some j) s).
Proof. intros Hi Hj [H1 H2 H3 H4 H5 H6 Hpt H7]. by split. Qed.
Lemma set_hsKeys_inv i j s :
  (i < length (protectors s))%nat -> (j < length (protectors s))%nat -> Inv s ->
  Inv (set_hsKeys (Some i) (Some j) s).
Proof. intros Hi Hj [H1 H2 H3 H4 H5 H6 Hpt H7]. by split. Qed.

(** Opening the usual shapes of a handler. *)
Ltac safe_step :=
  lazymatch goal with
  | |- safe (mret _) _ => by apply tls_safe_ret
  | |- safe (emit _) _ => apply safe_emit
  | |- safe (transcribe _) _ => apply safe_transcribe
  | |- safe (onKeys _) _ => apply safe_onKeys
  | |- safe (gets _) _ => apply safe_gets_any
  | |- safe (modify _) _ => by apply safe_modify_frame; intros; cbn; split_and!; auto
  | |- safe (check _ _) _ => apply tls_safe_check
  | |- safe (mbind _ _) _ => eapply tls_safe_bind; [|intros ? _]
  | |- safe (if ?b then _ else _) _ => destruct b
  | |- safe (match ?x with _ => _ end) _ => destruct x
  end.
Ltac safe_steps := repeat (cbv zeta; safe_step).

Lemma safe_newKeyExchange : safe newKeyExchange (fun _ => True).
Proof.
  unfold newKeyExchange. eapply tls_safe_bind; [by apply (safe_withRand _ (fun _ => True))|].
  intros [k|e] _; safe_steps.
Qed.

Lemma safe_installHandshakeKeys w r : safe (installHandshakeKeys w r) (fun _ => True).
Proof.
  unfold installHandshakeKeys. do 2 (eapply tls_safe_bind; [apply safe_gets_any|intros ? _]).
  eapply tls_safe_bind; [safe_step|intros _ _].
  intros s Hs. eapply wp_mono; [apply (two_protectors _ _ (fun i j s =>
    set_rwKeys (Some i) (Some j) (set_hsKeys (Some i) (Some j) s)))|]; [|exact Hs|].
  - intros i j s' Hi Hj Hs'. apply set_rwKeys_inv; [done|done|]. by apply set_hsKeys_inv.
  - by intros ? ? [_ ?].
Qed.

Lemma notReady_valid p s : notReady p s = false ->
  exists i, p = Some i /\ (i < length (protectors s))%nat.
Proof.
  unfold notReady. destruct p as [i|]; [|done].
  destruct (protectors s !! i) eqn:E; [|done]. apply lookup_lt_Some in E. eauto.
Qed.

Lemma safe_writeHandshake msg : safe (writeHandshake msg) (fun _ => True).
Proof.
  intros s Hs. unfold writeHandshake. apply wp_bind, wp_gets.
  destruct (notReady (hsWriteKeys s) s) eqn:Hr; [by apply safe_emit|].
  apply notReady_valid in Hr as (i & Hp & Hi). apply wp_bind, wp_gets.
  rewrite Hp. apply wp_bind. unfold of_option. apply wp_ret. apply wp_bind.
  eapply wp_mono; [apply onProtector_inv; [|exact Hs|exact Hi]|].
  { intros p Hp'. eapply wp_mono; [by apply seal_safe|]. intros r p' [_ ?].
    split; [|done]. exact (I : (fun _ => True) r). }
  intros [ct|e] s' [_ Hs']; [by apply safe_emit|].
  revert s' Hs'. change (safe (modify (set_err (Some e))) (fun _ => True)). safe_steps.
Qed.

Lemma safe_send msg : safe (sendAndTranscribe msg) (fun _ => True).
Proof.
  unfold sendAndTranscribe. eapply tls_safe_bind; [apply safe_writeHandshake|intros _ _]. safe_steps.
Qed.

Lemma safe_finishedMessage c : safe (finishedMessage c) (fun _ => True).
Proof. unfold finishedMessage. safe_steps. Qed.

Lemma safe_cache : safe cacheApplicationSecrets (fun _ => True).
Proof. unfold cacheApplicationSecrets. safe_steps. Qed.

Lemma safe_switch : safe switchToApplicationKeys (fun _ => True).
Proof.
  unfold switchToApplicationKeys. do 2 (eapply tls_safe_bind; [apply safe_gets_any|intros [?|] _]); try safe_step;
    try (eapply tls_safe_bind; [apply safe_gets_any|intros ? _]; safe_step).
  apply (two_protectors _ _ (fun i j => set_rwKeys (Some i) (Some j))).
  intros. by apply set_rwKeys_inv.
Qed.

Lemma safe_serverCertificate : safe serverCertificate (fun _ => True).
Proof. unfold serverCertificate. safe_steps. Qed.

Lemma safe_certificateVerify : safe certificateVerify (fun _ => True).
Proof.
  unfold certificateVerify. eapply tls_safe_bind; [safe_step|intros [c|] _]; [|safe_step].
  destruct (cert_PrivateKey c); [|safe_step].
  do 2 (eapply tls_safe_bind; [safe_step|intros ? _]).
  eapply tls_safe_bind; [by apply (safe_withRand _ (fun _ => True))|]. intros [?|?] _; safe_step.
Qed.

Ltac safe_lemma :=
  first [ apply safe_writeHandshake | apply safe_send | apply safe_finishedMessage
        | apply safe_cache | apply safe_switch | apply safe_serverCertificate
        | apply safe_certificateVerify | apply safe_installHandshakeKeys ].
Ltac safe_or lem := eapply (safe_orReturn _ _ (fun _ => True));
  [eapply safe_mono; [lem|by intros [?|?]]|intros ? _].

Lemma safe_sendServerFlight : safe sendServerFlight (fun _ => True).
Proof.
  unfold sendServerFlight. do 2 (eapply tls_safe_bind; [safe_step|intros ? _]).
  eapply tls_safe_bind; [safe_lemma|intros _ _].
  safe_or ltac:(apply safe_serverCertificate). eapply tls_safe_bind; [safe_lemma|intros _ _].
  safe_or ltac:(apply safe_certificateVerify). eapply tls_safe_bind; [safe_lemma|intros _ _].
  eapply tls_safe_bind; [safe_lemma|intros ? _]. eapply tls_safe_bind; [safe_lemma|intros _ _].
  apply tls_safe_check; [safe_lemma|]. safe_steps.
Qed.

Lemma safe_sendServerHello ch ks : safe (sendServerHello ch ks) (fun _ => True).
Proof.
  unfold sendServerHello. safe_or ltac:(apply safe_newKeyExchange).
  eapply tls_safe_bind; [safe_step|intros _ _].
  destruct (shared _ _); [|safe_step]. apply tls_safe_check; [safe_step|].
  safe_or ltac:(by apply (safe_withRand _ (fun _ => True))).
  do 3 (eapply tls_safe_bind; [safe_step|intros ? _]). safe_lemma.
Qed.

Lemma safe_onClientHello payload : bytes_ok payload -> safe (onClientHello payload) (fun _ => True).
Proof.
  intros Hb. unfold onClientHello. eapply tls_safe_bind; [safe_step|intros [|] _]; [safe_step|].
  unfold acceptClientHello.
  safe_or ltac:(apply safe_reads, ParseClientHello_reads, Hb).
  eapply tls_safe_bind; [safe_step|intros _ _].
  eapply tls_safe_bind; [destruct (existsb _ _); safe_step|intros _ _].
  eapply tls_safe_bind; [safe_step|intros su _]. destruct (su =? 0); [safe_step|].
  safe_or ltac:(apply safe_reads, clientKeyShare_reads, Hb).
  eapply tls_safe_bind; [safe_step|intros _ _]. eapply tls_safe_bind; [safe_step|intros cfg _].
  eapply tls_safe_bind; [destruct cfg; safe_step|intros _ _].
  eapply tls_safe_bind; [safe_step|intros _ _].
  apply tls_safe_check; [apply safe_sendServerHello|apply safe_sendServerFlight].
Qed.

Lemma isClient_step {A} (m : M StateMachine A) : keeps isClient m -> forall s a s',
  m s = Some (a, s') -> isClient s' = isClient s.
Proof. intros Hm s a s' H. exact (Hm s a s' H). Qed.

Lemma safe_onServerHello payload : bytes_ok payload -> safe (onServerHello payload) (fun _ => True).
Proof.
  intros Hb s Hs. unfold onServerHello. apply wp_bind, wp_gets.
  destruct (isClient s) eqn:Hc; cbn [negb]; [|by apply wp_ret].
  unfold orReturn. apply wp_bind. eapply wp_mono; [by apply ParseServerHello_reads|].
  intros [sh|e] s' [-> _]; [|by apply wp_ret].
  do 2 (apply wp_bind, wp_modify). apply wp_bind.
  eapply wp_mono; [by apply serverKeyShare_reads|].
  intros [ks|e] s' [-> _]; [|apply wp_ret; split; [done|]; by destruct Hs; split].
  unfold transcribe. apply wp_bind, wp_modify. apply wp_bind, wp_gets.
  destruct (inv_kx s Hs Hc) as [k Hk]. cbn [kx set_keys set_suite set_serverHello]. rewrite Hk.
  apply wp_bind. unfold of_option. apply wp_ret.
  match goal with |- wp ?m _ ?s0 => assert (Inv s0) as Hs0 by (by destruct Hs; split);
    revert Hs0; generalize s0; change (safe m (fun _ => True)) end.
  destruct (shared k ks); [|safe_step]. apply tls_safe_check; [safe_step|].
  apply tls_safe_check; [safe_lemma|]. safe_steps.
Qed.

Lemma safe_onFinished payload : safe (onFinished payload) (fun _ => True).
Proof.
  unfold onFinished. do 2 (eapply tls_safe_bind; [safe_step|intros ? _]). cbv zeta.
  destruct (negb _); [safe_step|]. destruct (negb _); [safe_step|].
  eapply tls_safe_bind; [safe_step|intros [|] _]; (eapply tls_safe_bind; [safe_step|intros _ _]).
  - apply tls_safe_check; [safe_lemma|]. eapply tls_safe_bind; [safe_step|intros _ _].
    eapply tls_safe_bind; [safe_lemma|intros ? _]. eapply tls_safe_bind; [safe_lemma|intros _ _].
    apply tls_safe_check; [safe_lemma|]. safe_steps.
  - apply tls_safe_check; [safe_lemma|]. safe_steps.
Qed.

Lemma safe_passMessage h a b : safe (passMessage h a b) (fun _ => True).
Proof. unfold passMessage. safe_steps. Qed.

Lemma safe_onHandshake h : bytes_ok (hs_Payload h) -> safe (onHandshake h) (fun _ => True).
Proof.
  intros Hb. unfold onHandshake. cbv zeta.
  destruct (_ =? _); [by apply safe_onClientHello|].
  destruct (_ =? _); [by apply safe_onServerHello|].
  destruct (_ =? _).
  { eapply tls_safe_bind; [safe_step|intros c _].
    apply (tls_safe_bind _ _ (fun _ => True)); [|intros _ _; apply safe_passMessage].
    destruct c; [|safe_step].
    eapply tls_safe_bind; [by apply safe_reads, parseALPNServerExtension_reads|intros ? _]. safe_step. }
  do 2 (destruct (_ =? _); [apply safe_passMessage|]).
  destruct (_ =? _); [apply safe_onFinished|]. safe_steps.
Qed.

Lemma safe_onAlert b : bytes_ok b -> safe (onAlert b) (fun _ => True).
Proof.
  intros Hb. unfold onAlert. destruct (zlen b >=? 2) eqn:E; [|safe_step].
  eapply tls_safe_bind; [apply safe_reads, reads_index; [done|lia]|intros ? _].
  eapply tls_safe_bind; [apply safe_reads, reads_index; [done|lia]|intros ? _]. safe_steps.
Qed.

Lemma safe_parseHandshakes data : bytes_ok data -> safe (parseHandshakes data) (fun _ => True).
Proof.
  intros Hd s Hs. unfold parseHandshakes. apply wp_bind, wp_gets, wp_bind.
  eapply wp_mono; [apply (handshake_parse_wp Inv); [|apply (inv_buf _ Hs)|done|done]|].
  { intros h s' Hh Hs'. eapply wp_mono; [by apply safe_onHandshake|]. by intros ? ? [_ ?]. }
  intros r s' [Hs' Hb]. apply wp_bind, wp_modify, wp_ret. split; [done|]. by destruct Hs'; split.
Qed.

Lemma safe_onRecord r : bytes_ok (Payload r) -> safe (onRecord r) (fun _ => True).
Proof.
  intros Hb s Hs. unfold onRecord. cbv zeta.
  destruct (_ =? recordHandshake); [by apply safe_parseHandshakes|].
  destruct (_ =? recordApplicationData).
  - apply wp_bind, wp_gets. destruct (notReady (readKeys s) s) eqn:Hr; [by apply wp_ret|].
    apply notReady_valid in Hr as (i & Hp & Hi). apply wp_bind, wp_gets. rewrite Hp.
    apply wp_bind. unfold of_option. apply wp_ret. unfold orReturn. apply wp_bind.
    eapply wp_mono; [apply onProtector_inv; [|exact Hs|exact Hi]|]; [intros; by apply open_safe|].
    intros [[content t]|e] s' [Hc Hs']; [|by apply wp_ret]. cbn [fst] in Hc.
    revert s' Hs'. match goal with |- forall s', _ -> wp ?m _ s' => change (safe m (fun _ => True)) end.
    destruct (_ =? _); [by apply safe_parseHandshakes|].
    destruct (_ =? _).
    { eapply tls_safe_bind; [apply tls_safe_modify|intros _ _; safe_step].
      intros s' [H1 H2 H3 H4 H5 H6 Hpt H7]. split; try done. by apply bytes_ok_app_2. }
    destruct (_ =? _); [by apply safe_onAlert|safe_step].
  - destruct (_ =? _); [by apply safe_onAlert|]. destruct (_ =? _); by apply wp_ret.
Qed.

Lemma Feed_wp data s : bytes_ok data -> Inv s ->
  wp (Feed data) (fun r s' => 0 <= fst r <= zlen data /\ Inv s') s.
Proof.
  intros Hd Hs. unfold Feed. pose proof (zlen_nonneg data). apply wp_bind, wp_gets.
  destruct (err s); [by apply wp_ret|]. destruct (_ =? 0); [by apply wp_ret|].
  apply wp_bind. eapply wp_mono; [apply (record_parse_wp Inv); [|done|done]|].
  { intros r s' Hr Hs'. eapply wp_mono; [by apply safe_onRecord|]. by intros ? ? [_ ?]. }
  intros [n [e|]] s' [Hs' Hn]; [|by apply wp_ret]. apply wp_bind, wp_modify, wp_ret.
  split; [done|]. by destruct Hs'; split.
Qed.

Lemma Write_loop_wp k : forall i o plain s,
  (length plain < k)%nat -> Inv s -> (i < length (protectors s))%nat ->
  wp (Write_loop k i o plain) (fun _ s' => Inv s') s.
Proof.
  induction k as [|k IH]; intros i o plain s Hk Hs Hi; [lia|]. cbn [Write_loop].
  pose proof (zlen_nonneg plain). destruct (zlen plain >? 0) eqn:Hz; cbn [negb]; [|by apply wp_ret].
  change maxRecordPayload with 16384. set (n := if _ >? 16384 then _ else _).
  assert (0 < n <= zlen plain) as Hn by (unfold n; destruct (zlen plain >? 16384) eqn:?; lia).
  apply wp_bind, wp_reslice; [lia|lia|]. apply wp_bind.
  set (chunk := slice 0 n plain).
  destruct (lookup_lt_is_Some_2 _ _ Hi) as [p Hp].
  assert (protector_ok p) as Hok by (eapply Forall_lookup_1; [apply (inv_protectors _ Hs)|done]).
  pose proof Hok as ((a & Ha & _) & _).
  assert (wp (onProtector i (seal recordApplicationData chunk)) (fun _ s' =>
    Inv s' /\ (i < length (protectors s'))%nat) s) as Hseal.
  { eapply wp_mono; [apply wp_post; [apply (onProtector_inv _ _ (fun _ => True)); [|exact Hs|exact Hi]|]|].
    - intros q Hq. by apply seal_safe.
    - intros r s' Hr. unfold onProtector in Hr. rewrite Hp, (seal_eq p a) in Hr by done.
      instantiate (1 := fun _ s' => length (protectors s') = length (protectors s)).
      destruct (_ =? _) in Hr; injection Hr as <- <-; apply length_insert.
    - intros r s' [[_ ?] ?]. split; [done|lia]. }
  eapply wp_mono; [exact Hseal|]. intros [ct|e] s' [Hs' Hi']; [|by apply wp_ret].
  apply wp_bind, wp_reslice; [lia|lia|]. apply IH; [|done|done].
  pose proof (zlen_slice n (zlen plain) plain) as Hzl. unfold zlen in *. lia.
Qed.

Lemma Write_wp plain s : Inv s -> wp (Write plain) (fun _ s' => Inv s') s.
Proof.
  intros Hs. unfold Write. apply wp_bind, wp_gets. destruct (negb _); [by apply wp_ret|].
  apply wp_bind, wp_gets. destruct (notReady (writeKeys s) s) eqn:Hr; [by apply wp_ret|].
  apply notReady_valid in Hr as (i & Hp & Hi). apply wp_bind, wp_gets. rewrite Hp.
  apply wp_bind. unfold of_option. apply wp_ret.
  apply Write_loop_wp; [unfold fuel_for; lia|done|done].
Qed.

Lemma safe_TakeOutput : safe TakeOutput (fun _ => True).
Proof. unfold TakeOutput. safe_steps. Qed.
Lemma safe_ReadPlaintext : safe ReadPlaintext bytes_ok.
Proof.
  unfold ReadPlaintext. eapply tls_safe_bind; [apply (tls_safe_gets _ bytes_ok), inv_plain|].
  intros p Hp. destruct (_ =? 0); [apply tls_safe_ret; constructor|].
  eapply tls_safe_bind; [safe_step|]. intros _ _. by apply tls_safe_ret.
Qed.

Lemma new_server_inv cfg r : Inv (NewServerStateMachine cfg r).
Proof. split; cbn; try done; constructor. Qed.

(** [Start] gives the client its key pair before anything is read. *)
Lemma Start_inv cfg r e s :
  Start (NewClientStateMachine cfg r) = Some (e, s) -> (e = None -> Inv s) /\ (isClient s = true).
Proof.
  unfold Start, NewClientStateMachine, newStateMachine, newKeyExchange, orReturn, withRand.
  unfold mbind, M_bind, gets, modify, mret, M_ret. cbn [isClient negb rand].
  destruct (X25519_GenerateKey r) as [[priv|e1] r1]; cbn; [|by intros [= <- <-]].
  destruct (Rand_Read 32 r1) as [[b1|e1] r2]; cbn; [|by intros [= <- <-]].
  destruct (Rand_Read 32 r2) as [[b2|e1] r3]; cbn; [|by intros [= <- <-]].
  intros [= <- <-]. split; [|done]. intros _.
  split; [constructor|done..|constructor|constructor|]. intros _. by eexists.
Qed.
End Safe.
