(* ===== verification/TlsStream.v ===== *)
(** * TlsStream

    The state machine as the event loop drives it: the bytes of the connection
    arrive in pieces, what [Feed] does not consume is given again in front of
    the next piece.  The pieces do not matter, and nothing that arrives makes
    the machine panic. *)

From S2P Require Import Prelude Pump GoStd TlsRecord TlsHello TlsHelloFacts TlsKeys TlsKeysFacts.
From S2P Require Import TlsSign TlsState TlsSafe.

Section Stream.
Context {C : Crypto}.

(** ** An error of the machine stays *)

Definition sticky {A} (m : M StateMachine A) : Prop :=
  forall s a s', m s = Some (a, s') -> is_Some (err s) -> is_Some (err s').

Lemma sticky_ret {A} (a : A) : sticky (mret a).
Proof. by intros s b s' [= <- <-]. Qed.
Lemma sticky_panic {A} : sticky (@panic StateMachine A).
Proof. done. Qed.
Lemma sticky_gets {A} (f : StateMachine -> A) : sticky (gets f).
Proof. by intros s b s' [= <- <-]. Qed.
Lemma sticky_modify f : (forall s, is_Some (err s) -> is_Some (err (f s))) -> sticky (modify f).
Proof. intros Hf s b s' [= <- <-]. auto. Qed.
Lemma sticky_bind {A B} (m : M StateMachine A) (k : A -> M StateMachine B) :
  sticky m -> (forall a, sticky (k a)) -> sticky (m ≫= k).
Proof.
  intros Hm Hk s b s' H. unfold mbind, M_bind in H.
  destruct (m s) as [[a s1]|] eqn:E; [|done]. intros He. eapply Hk; [exact H|]. by eapply Hm.
Qed.
Lemma sticky_check m k : sticky m -> sticky k -> sticky (check m k : M StateMachine (option error)).
Proof. intros Hm Hk. apply sticky_bind; [done|]. intros [e|]; [apply sticky_ret|done]. Qed.
Lemma sticky_orReturn {A} (m : M StateMachine (A + error)) k :
  sticky m -> (forall a, sticky (k a)) -> sticky (orReturn m k).
Proof. intros Hm Hk. apply sticky_bind; [done|]. intros [a|e]; [done|apply sticky_ret]. Qed.
Lemma sticky_index b i : sticky (index b i).
Proof. unfold index. destruct (_ && _); [apply sticky_ret|apply sticky_panic]. Qed.
Lemma sticky_reslice b i j : sticky (reslice b i j).
Proof. unfold reslice. destruct (_ && _); [apply sticky_ret|apply sticky_panic]. Qed.
Lemma sticky_of_option {A} (o : option A) : sticky (of_option o).
Proof. destruct o; [apply sticky_ret|apply sticky_panic]. Qed.
Lemma sticky_onProtector {A} i (m : M recordProtector A) : sticky (onProtector i m).
Proof.
  intros s a s' H. unfold onProtector in H. destruct (protectors s !! i); [|done].
  destruct (m _) as [[b p]|]; [|done]. by injection H as <- <-.
Qed.

Create HintDb sticky discriminated.
#[local] Hint Resolve sticky_ret sticky_panic sticky_gets sticky_index sticky_reslice
  sticky_of_option sticky_onProtector : sticky.

Ltac sticky_step :=
  lazymatch goal with
  | |- sticky (mbind _ _) => apply sticky_bind; [|intros ?]
  | |- sticky (check _ _) => apply sticky_check
  | |- sticky (orReturn _ _) => apply sticky_orReturn; [|intros ?]
  | |- sticky (modify _) => apply sticky_modify; intros ?; cbn; by auto
  | |- sticky (match ?x with _ => _ end) => destruct x
  | |- sticky _ => solve [eauto with sticky]
  end.
Ltac sticky := repeat (cbv beta zeta; sticky_step).

Lemma sticky_index16 b i : sticky (index16 b i).
Proof. unfold index16. sticky. Qed.
#[local] Hint Resolve sticky_index16 : sticky.

Lemma sticky_extensions {A} (fn : Z -> bytes -> A -> M StateMachine A) b a :
  (forall t d a, sticky (fn t d a)) -> sticky (parseExtensions fn b a).
Proof.
  intros Hf. unfold parseExtensions. generalize (fuel_for b) as k. intros k. revert b a.
  induction k as [|k IH]; intros b a; cbn [parseExtensions_loop]; sticky; auto.
Qed.
Lemma sticky_alpn_loop k : forall p l, sticky (alpn_loop k p l).
Proof. induction k as [|k IH]; intros p l; cbn [alpn_loop]; sticky; auto. Qed.
#[local] Hint Resolve sticky_alpn_loop : sticky.
Lemma sticky_suites_loop k : forall b off n i acc, sticky (suites_loop k b off n i acc).
Proof. induction k as [|k IH]; intros; cbn [suites_loop]; sticky; auto. Qed.
#[local] Hint Resolve sticky_suites_loop : sticky.
Lemma sticky_onHelloExtension t d a : sticky (onHelloExtension t d a).
Proof. unfold onHelloExtension. sticky. Qed.
#[local] Hint Resolve sticky_onHelloExtension : sticky.
Lemma sticky_read_vec8 e b off : sticky (read_vec8 e b off).
Proof. unfold read_vec8. sticky. Qed.
#[local] Hint Resolve sticky_read_vec8 : sticky.
Lemma sticky_ParseClientHello b : sticky (ParseClientHello b).
Proof.
  unfold ParseClientHello, read_suites, read_hello_extensions. sticky.
  apply sticky_extensions. intros. sticky.
Qed.
Lemma sticky_ParseServerHello b : sticky (ParseServerHello b).
Proof. unfold ParseServerHello. sticky. Qed.
Lemma sticky_client_shares_loop k : forall b, sticky (client_shares_loop k b).
Proof. induction k as [|k IH]; intros; cbn [client_shares_loop]; sticky; auto. Qed.
#[local] Hint Resolve sticky_client_shares_loop sticky_ParseClientHello sticky_ParseServerHello : sticky.
Lemma sticky_findKeyShare b off : sticky (findKeyShare b off).
Proof.
  unfold findKeyShare. sticky. apply sticky_extensions. intros t d [f e].
  unfold onKeyShareExtension, parseKeyShareEntry, key_share_entry, parseClientKeyShare. sticky.
Qed.
#[local] Hint Resolve sticky_findKeyShare : sticky.
Lemma sticky_clientKeyShare b : sticky (clientKeyShare b).
Proof. unfold clientKeyShare. sticky. Qed.
Lemma sticky_serverKeyShare b : sticky (serverKeyShare b).
Proof. unfold serverKeyShare. sticky. Qed.
Lemma sticky_parseALPN b : sticky (parseALPNServerExtension b).
Proof.
  unfold parseALPNServerExtension. sticky. apply sticky_extensions. intros.
  unfold onALPNExtension. sticky.
Qed.
#[local] Hint Resolve sticky_clientKeyShare sticky_serverKeyShare sticky_parseALPN : sticky.

Lemma sticky_withRand {A} (f : Rand -> A * Rand) : sticky (withRand f).
Proof. unfold withRand. sticky. Qed.
Lemma sticky_onKeys f : sticky (onKeys f).
Proof. unfold onKeys. sticky. Qed.
Lemma sticky_newProtector k : sticky (newProtector k).
Proof. unfold newProtector, alloc. sticky. Qed.
#[local] Hint Resolve sticky_withRand sticky_onKeys sticky_newProtector : sticky.
Lemma sticky_writeHandshake m : sticky (writeHandshake m).
Proof. unfold writeHandshake, emit. sticky. Qed.
#[local] Hint Resolve sticky_writeHandshake : sticky.
Lemma sticky_sendAndTranscribe m : sticky (sendAndTranscribe m).
Proof. unfold sendAndTranscribe, transcribe. sticky. Qed.
Lemma sticky_installHandshakeKeys w r : sticky (installHandshakeKeys w r).
Proof. unfold installHandshakeKeys. sticky. Qed.
Lemma sticky_cache : sticky cacheApplicationSecrets.
Proof. unfold cacheApplicationSecrets. sticky. Qed.
Lemma sticky_switch : sticky switchToApplicationKeys.
Proof. unfold switchToApplicationKeys. sticky. Qed.
Lemma sticky_certificate : sticky serverCertificate.
Proof. unfold serverCertificate. sticky. Qed.
Lemma sticky_certificateVerify : sticky certificateVerify.
Proof. unfold certificateVerify. sticky. Qed.
#[local] Hint Resolve sticky_sendAndTranscribe sticky_installHandshakeKeys sticky_cache sticky_switch
  sticky_certificate sticky_certificateVerify : sticky.
Lemma sticky_onClientHello b : sticky (onClientHello b).
Proof.
  unfold onClientHello, acceptClientHello, sendServerHello, sendServerFlight, newKeyExchange,
    finishedMessage, emit, transcribe. sticky.
Qed.
Lemma sticky_onServerHello b : sticky (onServerHello b).
Proof. unfold onServerHello, transcribe. sticky. Qed.
Lemma sticky_onFinished b : sticky (onFinished b).
Proof. unfold onFinished, finishedMessage, emit, transcribe. sticky. Qed.
#[local] Hint Resolve sticky_onClientHello sticky_onServerHello sticky_onFinished : sticky.
Lemma sticky_onHandshake h : sticky (onHandshake h).
Proof. unfold onHandshake, passMessage, transcribe. sticky. Qed.
Lemma sticky_Handshakes_loop k : forall w c, sticky (Handshakes_loop onHandshake k w c).
Proof.
  induction k as [|k IH]; intros w c; cbn [Handshakes_loop]; [apply sticky_panic|].
  sticky; auto using sticky_onHandshake.
Qed.
#[local] Hint Resolve sticky_Handshakes_loop : sticky.
Lemma sticky_parseHandshakes b : sticky (parseHandshakes b).
Proof. unfold parseHandshakes, HandshakeParser_Parse. sticky. Qed.
#[local] Hint Resolve sticky_parseHandshakes : sticky.
Lemma sticky_onRecord r : sticky (onRecord r).
Proof. unfold onRecord, onAlert. sticky. Qed.

Lemma sticky_pump k : forall b c, sticky (pump cut_record onRecord k b c).
Proof.
  induction k as [|k IH]; intros b c; cbn [pump]; [apply sticky_panic|].
  sticky; auto using sticky_onRecord.
Qed.
Lemma sticky_absorb b d : sticky (absorb cut_record onRecord b d).
Proof. unfold absorb, run. apply sticky_bind; [apply sticky_pump|]. intros r. apply sticky_ret. Qed.
Lemma sticky_absorb_all cs : forall b, sticky (absorb_all cut_record onRecord b cs).
Proof.
  induction cs as [|c cs IH]; intros b; cbn [absorb_all]; [apply sticky_ret|].
  apply sticky_bind; [apply sticky_absorb|]. intros r. destruct (snd r); [apply sticky_ret|apply IH].
Qed.

(** ** The connection as a sequence of reads *)

(** A read: the new bytes behind those that were not consumed. *)
Definition tls_read (buf data : bytes) : M StateMachine (bytes * option error) :=
  r ← Feed (buf ++ data);
  mret (from (fst r) (buf ++ data), snd r).

Fixpoint tls_reads (buf : bytes) (pieces : list bytes) : M StateMachine (bytes * option error) :=
  match pieces with
  | [] => mret (buf, None)
  | a :: pieces =>
      r ← tls_read buf a;
      match snd r with
      | Some e => mret r
      | None => tls_reads (fst r) pieces
      end
  end.

Lemma Feed_run data s : bytes_ok data -> err s = None ->
  Feed data s =
  match run cut_record onRecord data s with
  | Some ((n, Some e), s') => Some ((n, Some e), set_err (Some e) s')
  | r => r
  end.
Proof.
  intros Hd He. unfold Feed. rewrite (bind_eq _ _ s (err s) s) by done. rewrite He.
  destruct (Z.eqb_spec (zlen data) 0) as [Hz|Hz].
  { apply zlen_zero in Hz as ->. done. }
  unfold mbind, M_bind. rewrite record_parse_run by done.
  by destruct (run cut_record onRecord data s) as [[[n [e|]] s']|].
Qed.

Lemma tls_read_absorb buf data s rest s' :
  bytes_ok buf -> bytes_ok data -> err s = None ->
  absorb cut_record onRecord buf data s = Some ((rest, None), s') ->
  tls_read buf data s = Some ((rest, None), s').
Proof.
  intros Hb Hd He H. unfold tls_read, absorb, mbind, M_bind in *.
  rewrite Feed_run by auto with go.
  destruct (run cut_record onRecord (buf ++ data) s) as [[[n [e|]] s1]|]; [done| |done].
  exact H.
Qed.

Lemma tls_reads_absorb pieces : forall buf s rest s',
  bytes_ok buf -> Forall bytes_ok pieces -> err s' = None ->
  absorb_all cut_record onRecord buf pieces s = Some ((rest, None), s') ->
  tls_reads buf pieces s = Some ((rest, None), s').
Proof.
  assert (forall A (m : M StateMachine A) s a s', sticky m -> m s = Some (a, s') ->
    err s' = None -> err s = None) as Hback.
  { intros A m s a s' Hm H He. destruct (err s) eqn:Es; [|done].
    destruct (Hm _ _ _ H) as [x Hx]; [by rewrite Es|]. congruence. }
  induction pieces as [|a pieces IH]; intros buf s rest s' Hb Hp He H; [done|].
  apply Forall_cons in Hp as [Ha Hp].
  assert (err s = None) as Hs by (eapply Hback; [apply sticky_absorb_all|exact H|done]).
  cbn [absorb_all tls_reads] in *. unfold mbind, M_bind in *.
  destruct (absorb cut_record onRecord buf a s) as [[[r [e|]] s1]|] eqn:Er; [done| |done].
  rewrite (tls_read_absorb _ _ _ _ _ Hb Ha Hs Er). cbn [fst snd] in *.
  apply IH; [|done..]. by apply (absorb_keeps_bytes _ _ _ _ _ _ _ Hb Ha Er).
Qed.

(** C24: the machine does not depend on how the connection cuts what arrives:
    when the whole input, given to [Feed] at once, is accepted and leaves [n]
    bytes consumed, then any pieces of it, each given behind what the previous
    calls left over, lead to the same state and leave the same rest. *)
Theorem tls_feed_any_cut pieces s n s' :
  Forall bytes_ok pieces -> err s = None ->
  Feed (concat pieces) s = Some ((n, None), s') -> err s' = None ->
  tls_reads [] pieces s = Some ((from n (concat pieces), None), s').
Proof.
  intros Hp He H He'. assert (bytes_ok (concat pieces)) as Hc by by apply Forall_concat.
  rewrite Feed_run in H by done. apply tls_reads_absorb; [apply bytes_ok_nil|done|done|].
  pose proof (absorb_all_concat cut_record onRecord pieces [] s bytes_ok_nil Hp eq_refl) as Hall.
  unfold absorb, mbind, M_bind in Hall. rewrite app_nil_l in Hall.
  destruct (run cut_record onRecord (concat pieces) s) as [[[m [e|]] s1]|]; [done| |done].
  by injection H as -> ->.
Qed.

(** ** What can happen to a connection *)

(** The states a machine can be in: created by one of the constructors, a
    client started without an error, then any calls in any order. *)
Inductive tls_reach : StateMachine -> Prop :=
  | reach_server cfg r : tls_reach (NewServerStateMachine cfg r)
  | reach_client cfg r s : Start (NewClientStateMachine cfg r) = Some (None, s) -> tls_reach s
  | reach_feed s data r s' : tls_reach s -> bytes_ok data -> Feed data s = Some (r, s') -> tls_reach s'
  | reach_write s data r s' : tls_reach s -> Write data s = Some (r, s') -> tls_reach s'
  | reach_take s o s' : tls_reach s -> TakeOutput s = Some (o, s') -> tls_reach s'
  | reach_read s p s' : tls_reach s -> ReadPlaintext s = Some (p, s') -> tls_reach s'.

Context {L : CryptoLaws C}.

Lemma tls_reach_inv s : tls_reach s -> Inv s.
Proof.
  induction 1 as [cfg r|cfg r s H|s data r s' _ IH Hd H|s data r s' _ IH H|s o s' _ IH H|s p s' _ IH H].
  - apply new_server_inv.
  - by apply (Start_inv cfg r None).
  - pose proof (Feed_wp data s Hd IH) as Hw. unfold wp in Hw. rewrite H in Hw. apply Hw.
  - pose proof (Write_wp data s IH) as Hw. unfold wp in Hw. by rewrite H in Hw.
  - pose proof (safe_TakeOutput s IH) as Hw. unfold wp in Hw. rewrite H in Hw. apply Hw.
  - pose proof (safe_ReadPlaintext s IH) as Hw. unfold wp in Hw. rewrite H in Hw. apply Hw.
Qed.

(** C14: whatever the peer sends, and whatever the application calls in
    between, no method of a state machine panics and none of them runs
    forever; [Feed] never claims more bytes than it was given. *)
Theorem tls_no_panic s data : tls_reach s -> bytes_ok data ->
  (exists n e s', Feed data s = Some ((n, e), s') /\ 0 <= n <= zlen data) /\
  (exists r s', Write data s = Some (r, s')) /\
  (exists o s', TakeOutput s = Some (o, s')) /\
  (exists p s', ReadPlaintext s = Some (p, s')).
Proof.
  intros Hs%tls_reach_inv Hd.
  pose proof (Feed_wp data s Hd Hs) as Hf. pose proof (Write_wp data s Hs) as Hw.
  pose proof (safe_TakeOutput s Hs) as Ht. pose proof (safe_ReadPlaintext s Hs) as Hr. unfold wp in *.
  destruct (Feed data s) as [[[n e] s1]|]; [|done]. destruct (Write data s) as [[w s2]|]; [|done].
  destruct (TakeOutput s) as [[o s3]|]; [|done]. destruct (ReadPlaintext s) as [[p s4]|]; [|done].
  destruct Hf as [Hn _].
  split; [by exists n, e, s1|]. split; [by exists w, s2|]. split; [by exists o, s3|by exists p, s4].
Qed.
End Stream.
