(* ===== verification/TlsChannel.v ===== *)
(** * TlsChannel

    Two ends of an established connection that share their keys: whatever one
    end writes, of any length, the other end reads.  The hypotheses on two
    ends are [channel], which [TlsHandshake] establishes. *)

From S2P Require Import Prelude Pump GoStd TlsRecord TlsHello TlsHelloFacts TlsKeys TlsKeysFacts.
From S2P Require Import TlsSign TlsState TlsSafe.

Section Channel.
Context {C : Crypto} {L : CryptoLaws C}.

Definition protector_at (s : StateMachine) (p : option nat) : option recordProtector :=
  i ← p; protectors s !! i.
Definition write_protector (s : StateMachine) : option recordProtector := protector_at s (writeKeys s).
Definition read_protector (s : StateMachine) : option recordProtector := protector_at s (readKeys s).

(** An end that can send and receive application data. *)
Record ready (s : StateMachine) : Prop := mkReady {
  ready_state : state s = StateEstablished;
  ready_err : err s = None;
  ready_distinct : writeKeys s <> readKeys s;
}.

(** What [a] seals next is what [b] opens next, with the same key and number. *)
Definition linked (a b : StateMachine) : Prop :=
  exists p, write_protector a = Some p /\ read_protector b = Some p /\ protector_ok p.

Definition channel (a b : StateMachine) : Prop :=
  ready a /\ ready b /\ linked a b /\ linked b a.

Lemma channel_sym a b : channel a b -> channel b a.
Proof. unfold channel. tauto. Qed.

(** The chunks [Write] makes of its input. *)
Fixpoint chunks_of (fuel : nat) (plain : bytes) : list bytes :=
  match fuel with
  | O => []
  | S fuel =>
      if zlen plain <=? 0 then []
      else
        let n := Z.min (zlen plain) maxRecordPayload in
        upto n plain :: chunks_of fuel (from n plain)
  end.
Definition chunks (plain : bytes) : list bytes := chunks_of (fuel_for plain) plain.

Fixpoint iter_next (n : nat) (p : recordProtector) : recordProtector :=
  match n with O => p | S n => iter_next n (next p) end.

(** The records of a list of chunks, sealed one after the other. *)
Fixpoint sealed_records (a : AEAD) (p : recordProtector) (cs : list bytes) : list TlsRec :=
  match cs with
  | [] => []
  | c :: cs =>
      mkRecord recordApplicationData 0x0303 (sealed p a recordApplicationData c) ::
      sealed_records a (next p) cs
  end.

Lemma chunks_of_spec k : forall plain, (length plain < k)%nat -> bytes_ok plain ->
  concat (chunks_of k plain) = plain /\
  Forall (fun c => bytes_ok c /\ 0 < zlen c <= maxRecordPayload) (chunks_of k plain).
Proof.
  induction k as [|k IH]; intros plain Hk Hb; [lia|]. cbn [chunks_of].
  pose proof (zlen_nonneg plain). destruct (Z.leb_spec (zlen plain) 0).
  - split; [|constructor]. symmetry. apply zlen_zero. lia.
  - change maxRecordPayload with 16384. set (n := Z.min _ _). assert (0 < n <= zlen plain) by lia.
    assert (n <= 16384) by lia. cbn [concat].
    destruct (IH (from n plain)) as [IH1 IH2]; [|auto with go|].
    { pose proof (zlen_from n plain). unfold zlen in *. lia. }
    rewrite IH1, upto_from. split; [done|]. constructor; [|done].
    split; [auto with go|]. rewrite zlen_upto by lia. lia.
Qed.

Lemma onProtector_eq {A} i (m : M recordProtector A) p a p' s :
  protectors s !! i = Some p -> m p = Some (a, p') ->
  onProtector i m s = Some (a, set_protectors (<[i:=p']> (protectors s)) s).
Proof. intros Hp Hm. unfold onProtector. by rewrite Hp, Hm. Qed.

Lemma set_protectors_twice x y s : set_protectors x (set_protectors y s) = set_protectors x s.
Proof. done. Qed.

Lemma concat_record_enc a p cs :
  concat (record_enc <$> sealed_records a p cs) =
  match cs with
  | [] => []
  | c :: cs => record_enc (mkRecord recordApplicationData 0x0303 (sealed p a recordApplicationData c))
               ++ concat (record_enc <$> sealed_records a (next p) cs)
  end.
Proof. by destruct cs. Qed.

(** [Write] puts the sealed records behind each other. *)
Lemma Write_loop_eq i a k : forall plain o s p,
  (length plain < k)%nat -> bytes_ok plain -> protectors s !! i = Some p -> protector_ok p ->
  rp_aead p = Some a -> rp_seq p + Z.of_nat (length (chunks_of k plain)) < 2 ^ 64 ->
  Write_loop k i o plain s =
  Some ((o ++ concat (record_enc <$> sealed_records a p (chunks_of k plain)), None),
        set_protectors (<[i:=iter_next (length (chunks_of k plain)) p]> (protectors s)) s).
Proof.
  induction k as [|k IH]; intros plain o s p Hk Hb Hp Hok Ha Hseq; [lia|].
  cbn [Write_loop chunks_of] in *. pose proof (zlen_nonneg plain).
  destruct (Z.leb_spec (zlen plain) 0) as [Hz|Hz].
  { replace (negb _) with true by lia. cbn. rewrite app_nil_r, list_insert_id by done. by destruct s. }
  replace (negb _) with false by lia. cbn [length] in Hseq.
  replace (if zlen plain >? maxRecordPayload then maxRecordPayload else zlen plain)
    with (Z.min (zlen plain) maxRecordPayload)
    by (destruct (zlen plain >? maxRecordPayload) eqn:?; lia).
  change maxRecordPayload with 16384 in *. set (n := Z.min _ _) in *.
  assert (0 < n <= zlen plain) as Hn by lia.
  rewrite (bind_eq _ _ s (upto n plain) s).
  2: { rewrite reslice_ok by lia. rewrite slice_upto_from, Z.sub_0_r. done. }
  assert (seal recordApplicationData (upto n plain) p =
          Some (inl (sealed p a recordApplicationData (upto n plain)), next p)) as Hseal.
  { rewrite (seal_eq p a) by done. replace (_ =? _) with false by lia. done. }
  rewrite (bind_eq _ _ _ _ _ (onProtector_eq _ _ _ _ _ _ Hp Hseal)). cbv beta iota.
  rewrite (bind_eq _ _ _ (from n plain) (set_protectors (<[i:=next p]> (protectors s)) s)).
  2: { rewrite reslice_ok by lia. f_equal. f_equal. rewrite slice_upto_from. apply upto_all.
       rewrite zlen_from; lia. }
  assert (i < length (protectors s))%nat as Hi by (by eapply lookup_lt_Some).
  rewrite (IH _ _ _ (next p)).
  - f_equal. f_equal; [f_equal|].
    + cbn [sealed_records fmap list_fmap concat length]. rewrite AppendRecord_eq, <- app_assoc. done.
    + cbn [protectors set_protectors length iter_next].
      rewrite set_protectors_twice, list_insert_insert_eq. done.
  - pose proof (zlen_from n plain). unfold zlen in *. lia.
  - auto with go.
  - cbn. by apply list_lookup_insert_eq.
  - by apply next_ok.
  - done.
  - unfold next, u64. cbn [rp_seq]. destruct Hok as (_ & _ & _ & Hs).
    rewrite Z.mod_small by lia. lia.
Qed.

Lemma notReady_at s j p a :
  protectors s !! j = Some p -> rp_aead p = Some a -> notReady (Some j) s = false.
Proof. intros Hp Ha. unfold notReady. rewrite Hp, Ha. done. Qed.

(** A sealed record arriving in turn is opened and handled by its inner type. *)
Lemma onRecord_sealed s j p a t m :
  readKeys s = Some j -> protectors s !! j = Some p -> protector_ok p -> rp_aead p = Some a ->
  is_byte t -> bytes_ok m ->
  onRecord (mkRecord recordApplicationData 0x0303 (sealed p a t m)) s =
  (if t =? recordHandshake then parseHandshakes m
   else if t =? recordApplicationData then
     modify (fun s => set_plaintext (plaintext s ++ m) s) ;; mret None
   else if t =? recordAlert then onAlert m else mret None)
  (set_protectors (<[j:=next p]> (protectors s)) s).
Proof.
  intros Hj Hp Hok Ha Ht Hm. unfold onRecord. cbn [Type_ Payload].
  change (recordApplicationData =? recordHandshake) with false.
  change (recordApplicationData =? recordApplicationData) with true. cbv iota.
  rewrite (bind_eq _ _ s false s) by (unfold gets; by rewrite Hj, (notReady_at s j p a)).
  cbv iota. rewrite (bind_eq _ _ s (Some j) s) by (unfold gets; by rewrite Hj).
  rewrite (bind_eq _ _ s j s) by done. unfold orReturn.
  rewrite (bind_eq _ _ _ _ _ (onProtector_eq _ _ _ _ _ _ Hp (open_sealed p a t m Hok Ha Ht Hm))).
  done.
Qed.

Lemma receive_chunks j a cs : forall p c s,
  readKeys s = Some j -> protectors s !! j = Some p -> protector_ok p -> rp_aead p = Some a ->
  Forall (fun c => bytes_ok c /\ 0 < zlen c <= maxRecordPayload) cs ->
  deliver_all onRecord record_enc (sealed_records a p cs) c s =
  Some ((c + zlen (concat (record_enc <$> sealed_records a p cs)), None),
        set_plaintext (plaintext s ++ concat cs)
          (set_protectors (<[j:=iter_next (length cs) p]> (protectors s)) s)).
Proof.
  induction cs as [|m cs IH]; intros p c s Hj Hp Hok Ha Hcs.
  { cbn. rewrite Z.add_0_r, app_nil_r, list_insert_id by done. by destruct s. }
  apply Forall_cons in Hcs as [[Hm Hl] Hcs]. cbn [sealed_records deliver_all].
  unfold mbind at 1, M_bind at 1.
  rewrite (onRecord_sealed s j p a) by (done || (unfold recordApplicationData, is_byte; lia)).
  change (recordApplicationData =? recordHandshake) with false.
  change (recordApplicationData =? recordApplicationData) with true. cbv iota.
  unfold mbind at 1, M_bind at 1, modify, mret at 1, M_ret at 1.
  assert (j < length (protectors s))%nat as Hlt by (by eapply lookup_lt_Some).
  rewrite IH; [|done| |by apply next_ok|done|done].
  - rewrite fmap_cons. cbn [concat length iter_next protectors set_protectors set_plaintext plaintext].
    rewrite zlen_app, Z.add_assoc, list_insert_insert_eq, <- app_assoc. done.
  - cbn. by apply list_lookup_insert_eq.
Qed.

Lemma sealed_records_ok a cs : forall p,
  protector_ok p -> rp_aead p = Some a ->
  Forall (fun c => bytes_ok c /\ 0 < zlen c <= maxRecordPayload) cs ->
  Forall record_ok (sealed_records a p cs).
Proof.
  induction cs as [|m cs IH]; intros p Hok Ha Hcs; [constructor|].
  apply Forall_cons in Hcs as [[Hm Hl] Hcs]. cbn [sealed_records].
  constructor; [|apply IH; [by apply next_ok|done|done]].
  destruct (sealed_ok p a recordApplicationData m) as [H1 H2]; [done|done|by split|done|].
  split; [by split|]. split; [cbn; lia|]. split; [done|]. cbn [Payload]. rewrite H2.
  change maxCiphertextLen with 16640. change maxRecordPayload with 16384 in Hl. lia.
Qed.

(** Feeding whole records is delivering them. *)
Lemma Feed_records rs s :
  err s = None -> Forall record_ok rs -> rs <> [] ->
  Feed (concat (record_enc <$> rs)) s =
  match deliver_all onRecord record_enc rs 0 s with
  | Some ((n, Some e), s') => Some ((n, Some e), set_err (Some e) s')
  | r => r
  end.
Proof.
  intros He Hrs Hne. unfold Feed. rewrite (bind_eq _ _ s (err s) s) by done. rewrite He.
  assert (zlen (concat (record_enc <$> rs)) =? 0 = false) as ->.
  { destruct rs as [|[t v p] rs]; [done|]. rewrite fmap_cons. cbn [concat].
    unfold record_enc. rewrite zlen_app, zlen_AppendRecord. unfold recordHeaderLen.
    pose proof (zlen_nonneg p).
    match goal with |- context [zlen (concat ?l)] => pose proof (zlen_nonneg (concat l)) end.
    cbn [Payload]. lia. }
  assert (RecordParser_Parse onRecord (concat (record_enc <$> rs)) s =
          deliver_all onRecord record_enc rs 0 s) as Hd.
  { rewrite record_parse_run by by apply (concat_enc_bytes cut_record record_enc record_ok).
    pose proof (run_encoded cut_record record_enc record_ok onRecord rs [] s Hrs eq_refl) as Hr.
    by rewrite app_nil_r in Hr. }
  unfold mbind, M_bind. rewrite Hd.
  by destruct (deliver_all onRecord record_enc rs 0 s) as [[[n [e|]] s']|].
Qed.

Lemma iter_next_ok n : forall p, protector_ok p -> protector_ok (iter_next n p).
Proof. induction n as [|n IH]; intros p Hp; [done|]. apply IH. by apply next_ok. Qed.

(** What [a] writes, [b] reads; the channel goes on from there. *)
Lemma channel_transfer x y plain p :
  channel x y -> bytes_ok plain -> write_protector x = Some p ->
  rp_seq p + Z.of_nat (length (chunks plain)) < 2 ^ 64 ->
  exists out x' y',
    Write plain x = Some ((out, None), x') /\
    Feed out y = Some ((zlen out, None), y') /\
    plaintext y' = plaintext y ++ plain /\ plaintext x' = plaintext x /\
    channel x' y' /\ write_protector x' = Some (iter_next (length (chunks plain)) p) /\
    write_protector y' = write_protector y.
Proof.
  intros (Hx & Hy & (q & Hw & Hr & Hok) & (q2 & Hw2 & Hr2 & Hok2)) Hb Hwp Hseq.
  assert (q = p) as -> by congruence. clear Hwp.
  destruct (chunks_of_spec (fuel_for plain) plain) as [Hcat Hch]; [unfold fuel_for; lia|done|].
  fold (chunks plain) in Hcat, Hch.
  unfold write_protector, read_protector, protector_at, mbind, option_bind in Hw, Hr, Hw2, Hr2.
  destruct (writeKeys x) as [i|] eqn:Hi; [|done]. destruct (readKeys y) as [j|] eqn:Hj; [|done].
  destruct (writeKeys y) as [i2|] eqn:Hi2; [|done]. destruct (readKeys x) as [j2|] eqn:Hj2; [|done].
  pose proof Hok as ((a & Ha & _) & _).
  assert (i < length (protectors x))%nat as Hil by (by eapply lookup_lt_Some).
  assert (j < length (protectors y))%nat as Hjl by (by eapply lookup_lt_Some).
  assert (i <> j2) as Hij by (intros ->; apply (ready_distinct x Hx); congruence).
  assert (i2 <> j) as Hij2 by (intros ->; apply (ready_distinct y Hy); congruence).
  set (recs := sealed_records a p (chunks plain)).
  set (pn := iter_next (length (chunks plain)) p).
  exists (concat (record_enc <$> recs)).
  exists (set_protectors (<[i:=pn]> (protectors x)) x).
  exists (set_plaintext (plaintext y ++ plain) (set_protectors (<[j:=pn]> (protectors y)) y)).
  split_and!.
  - unfold Write. rewrite (bind_eq _ _ x (state x) x) by done. rewrite (ready_state x Hx).
    cbn [negb bool_decide]. rewrite bool_decide_eq_true_2 by done. cbn [negb].
    rewrite (bind_eq _ _ x false x) by (unfold gets; by rewrite Hi, (notReady_at x i p a)).
    rewrite (bind_eq _ _ x (Some i) x) by (unfold gets; by rewrite Hi).
    rewrite (bind_eq _ _ x i x) by done.
    rewrite (Write_loop_eq i a _ plain [] x p); [done|unfold fuel_for; lia|done..].
  - destruct (chunks plain) as [|m cs] eqn:Hc.
    + cbn in Hcat. subst plain. unfold recs, pn. cbn [sealed_records fmap list_fmap concat length iter_next].
      unfold Feed. rewrite (bind_eq _ _ y (err y) y) by done. rewrite (ready_err y Hy).
      cbn. rewrite app_nil_r, list_insert_id by done. by destruct y.
    + rewrite Feed_records; [|by apply ready_err|by apply sealed_records_ok|done].
      unfold recs. rewrite (receive_chunks j a (m :: cs) p 0 y) by done.
      rewrite Z.add_0_l, Hcat. done.
  - done.
  - done.
  - assert (protector_ok pn) as Hpn by by apply iter_next_ok.
    split; [|split; [|split]].
    + destruct Hx as [H1 H2 H3]. split; [done|done|]. done.
    + destruct Hy as [H1 H2 H3]. split; [done|done|]. done.
    + exists pn. unfold write_protector, read_protector, protector_at.
      cbn [writeKeys readKeys protectors set_protectors set_plaintext]. rewrite Hi, Hj.
      cbn. rewrite !list_lookup_insert_eq by done. done.
    + exists q2. unfold write_protector, read_protector, protector_at.
      cbn [writeKeys readKeys protectors set_protectors set_plaintext]. rewrite Hi2, Hj2. cbn.
      rewrite !list_lookup_insert_ne by done. done.
  - unfold write_protector, protector_at. cbn [writeKeys protectors set_protectors]. rewrite Hi.
    cbn. by apply list_lookup_insert_eq.
  - unfold write_protector, protector_at. cbn [writeKeys protectors set_protectors set_plaintext].
    rewrite Hi2. cbn. by rewrite list_lookup_insert_ne by done.
Qed.

(** ** Conversations *)

(** One end writes [m] and the other is fed all of it. *)
Definition send (m : bytes) (x y : StateMachine) : option (StateMachine * StateMachine) :=
  match Write m x with
  | Some ((out, None), x') =>
      match Feed out y with
      | Some ((n, None), y') => if n =? zlen out then Some (x', y') else None
      | _ => None
      end
  | _ => None
  end.

(** Messages from the first end ([true]) and from the second, in any order. *)
Fixpoint converse (msgs : list (bool * bytes)) (x y : StateMachine)
    : option (StateMachine * StateMachine) :=
  match msgs with
  | [] => Some (x, y)
  | (true, m) :: msgs =>
      match send m x y with Some (x', y') => converse msgs x' y' | None => None end
  | (false, m) :: msgs =>
      match send m y x with Some (y', x') => converse msgs x' y' | None => None end
  end.

(** What one end sent, and the records it took. *)
Definition sent (d : bool) (msgs : list (bool * bytes)) : bytes :=
  concat (snd <$> filter (fun m => fst m = d) msgs).
Definition records_sent (d : bool) (msgs : list (bool * bytes)) : Z :=
  zlen (concat ((fun m => chunks (snd m)) <$> filter (fun m => fst m = d) msgs)).

Lemma sent_cons d e m msgs :
  sent d ((e, m) :: msgs) = (if Bool.eqb e d then m else []) ++ sent d msgs /\
  records_sent d ((e, m) :: msgs) =
  (if Bool.eqb e d then zlen (chunks m) else 0) + records_sent d msgs.
Proof.
  unfold sent, records_sent. rewrite filter_cons. cbn [fst].
  destruct (decide (e = d)) as [He|He].
  - subst. rewrite eqb_reflx, !fmap_cons. cbn [concat snd]. by rewrite zlen_app.
  - assert (Bool.eqb e d = false) as -> by (by apply eqb_false_iff). done.
Qed.

Definition budget (s : StateMachine) (n : Z) : Prop :=
  exists p, write_protector s = Some p /\ rp_seq p + n < 2 ^ 64.

Lemma iter_next_seq n : forall p, 0 <= rp_seq p -> rp_seq p + Z.of_nat n < 2 ^ 64 ->
  rp_seq (iter_next n p) = rp_seq p + Z.of_nat n.
Proof.
  induction n as [|n IH]; intros p H0 Hn; [cbn; lia|]. cbn [iter_next].
  assert (rp_seq (next p) = rp_seq p + 1) as E by (unfold next, u64; cbn [rp_seq]; apply Z.mod_small; lia).
  rewrite IH; rewrite E; lia.
Qed.

Lemma send_channel m x y n : channel x y -> bytes_ok m -> 0 <= n -> budget x (zlen (chunks m) + n) ->
  exists x' y', send m x y = Some (x', y') /\ channel x' y' /\ budget x' n /\
    (forall k, budget y k -> budget y' k) /\
    plaintext x' = plaintext x /\ plaintext y' = plaintext y ++ m.
Proof.
  intros Hc Hm Hn (p & Hp & Hs). pose proof (zlen_nonneg (chunks m)) as H0.
  destruct (channel_transfer x y m p Hc Hm Hp) as (out & x' & y' & HW & HF & Hy & Hx & Hc' & Hp' & Hq).
  { unfold zlen in *. lia. }
  exists x', y'. unfold send. rewrite HW, HF, Z.eqb_refl. split; [done|]. split; [done|].
  split; [|split; [|done]].
  - exists (iter_next (length (chunks m)) p). split; [done|].
    destruct Hc as (_ & _ & (q & Hq1 & _ & Hok) & _). assert (q = p) as -> by congruence.
    destruct Hok as (_ & _ & _ & Hr). rewrite iter_next_seq; unfold zlen in *; lia.
  - intros k (q & Hq1 & Hq2). exists q. by rewrite Hq.
Qed.

(** C10: two ends of an established connection can exchange any messages, of any
    length, in any order: every byte one end writes arrives at the other, in
    order and nothing else, as long as the numbers of the records last. *)
Theorem tls_conversation msgs : forall x y,
  channel x y -> Forall (fun m => bytes_ok (snd m)) msgs ->
  budget x (records_sent true msgs) -> budget y (records_sent false msgs) ->
  exists x' y', converse msgs x y = Some (x', y') /\ channel x' y' /\
    plaintext y' = plaintext y ++ sent true msgs /\
    plaintext x' = plaintext x ++ sent false msgs.
Proof.
  induction msgs as [|[[|] m] msgs IH]; intros x y Hc Hm Hbx Hby.
  { exists x, y. unfold sent. cbn. by rewrite !app_nil_r. }
  all: apply Forall_cons in Hm as [Hm1 Hm]; cbn [snd] in Hm1.
  all: destruct (sent_cons true true m msgs) as [Et Rt], (sent_cons false true m msgs) as [Ef Rf].
  all: destruct (sent_cons true false m msgs) as [Et' Rt'], (sent_cons false false m msgs) as [Ef' Rf'].
  all: cbn [Bool.eqb] in Et, Rt, Ef, Rf, Et', Rt', Ef', Rf'; rewrite ?app_nil_l, ?Z.add_0_l in *.
  - rewrite Et, Ef. rewrite Rt in Hbx. rewrite Rf in Hby.
    destruct (send_channel m x y (records_sent true msgs) Hc Hm1) as (x1 & y1 & Hs & Hc1 & Hb1 & Hk & Hx & Hy);
      [apply zlen_nonneg|done|].
    destruct (IH x1 y1 Hc1 Hm Hb1 (Hk _ Hby)) as (x2 & y2 & Hcv & Hc2 & Hy2 & Hx2).
    exists x2, y2. cbn [converse]. rewrite Hs, Hcv, Hy2, Hx2, Hy, Hx, <- app_assoc. done.
  - rewrite Et', Ef'. rewrite Rt' in Hbx. rewrite Rf' in Hby.
    destruct (send_channel m y x (records_sent false msgs)) as (y1 & x1 & Hs & Hc1 & Hb1 & Hk & Hy & Hx);
      [by apply channel_sym|done|apply zlen_nonneg|done|].
    destruct (IH x1 y1 (channel_sym _ _ Hc1) Hm (Hk _ Hbx) Hb1) as (x2 & y2 & Hcv & Hc2 & Hy2 & Hx2).
    exists x2, y2. cbn [converse]. rewrite Hs, Hcv, Hy2, Hx2, Hy, Hx, <- app_assoc. done.
Qed.
End Channel.
