(* ===== verification/TlsSignFacts.v ===== *)
(** * TlsSignFacts

    The Certificate and CertificateVerify messages a server sends are read back
    by the parsers of [tls/sign.go], and the signature verifies under the
    public key of the certificate. *)

From S2P Require Import Prelude Pump GoStd TlsRecord TlsHello TlsHelloFacts TlsKeys TlsKeysFacts.
From S2P Require Import TlsSign TlsState.

Section SignFacts.
Context {C : Crypto} {L : CryptoLaws C}.

Definition cert_entry (der : bytes) : bytes := put24 (zlen der) ++ der ++ [0; 0].

Lemma certificateEntries_eq ders : certificateEntries ders = concat (cert_entry <$> ders).
Proof.
  unfold certificateEntries.
  assert (forall acc, fold_left (fun entries der =>
    ((entries ++ [u8 (zlen der >> 16); u8 (zlen der >> 8); u8 (zlen der)]) ++ der) ++ [0; 0]) ders acc =
    acc ++ concat (cert_entry <$> ders)) as H; [|apply H].
  induction ders as [|d ders IH]; intros acc; cbn [fold_left fmap list_fmap concat].
  - by rewrite app_nil_r.
  - rewrite IH. unfold cert_entry at 2. rewrite <- !app_assoc. done.
Qed.

Section Reading.
Context {S : Type}.
Implicit Types s : S.

Lemma index24_mid l1 x l2 i s :
  i = zlen l1 -> 0 <= x < 2 ^ 24 -> index24 (l1 ++ put24 x ++ l2) i s = Some (x, s).
Proof.
  intros -> Hx. unfold index24, put24. cbn [app].
  rewrite (bind_eq _ _ _ _ _ (index_mid l1 _ _ _ s eq_refl)).
  rewrite cons_middle, app_assoc.
  rewrite (bind_eq _ _ s (u8 (x >> 8)) s).
  2: { apply index_mid. by rewrite zlen_app. }
  rewrite cons_middle, (app_assoc (l1 ++ _)).
  rewrite (bind_eq _ _ s (u8 x) s); [by rewrite be24_put|].
  apply index_mid. rewrite !zlen_app. change (zlen [_]) with 1. lia.
Qed.

Lemma zlen_cert_entry d : zlen (cert_entry d) = zlen d + 5.
Proof. unfold cert_entry. rewrite !zlen_app. change (zlen (put24 _)) with 3. change (zlen [0; 0]) with 2. lia. Qed.

Lemma certs_loop_enc ders certs : Forall2 (fun d c => ParseX509 d = inl c) ders certs ->
  forall k l1 end_ acc s,
  Forall (fun d => zlen d < 2 ^ 24) ders -> (length ders < k)%nat ->
  end_ = zlen (l1 ++ concat (cert_entry <$> ders)) ->
  certs_loop k (l1 ++ concat (cert_entry <$> ders)) (zlen l1) end_ acc s = Some (inl (acc ++ certs), s).
Proof.
  induction 1 as [|d c ders certs Hd _ IH]; intros k l1 end_ acc s Hl Hk ->;
    (destruct k as [|k]; [cbn in Hk; lia|]); cbn [certs_loop].
  { cbn [fmap list_fmap concat]. rewrite !app_nil_r. by replace (negb _) with true by lia. }
  apply Forall_cons in Hl as [Hdl Hl]. rewrite fmap_cons. cbn [concat].
  set (rest := concat (cert_entry <$> ders)) in *.
  pose proof (zlen_nonneg l1). pose proof (zlen_nonneg d). pose proof (zlen_nonneg rest).
  rewrite !zlen_app, zlen_cert_entry. replace (negb _) with false by lia.
  rewrite (bind_eq _ _ s (zlen d) s).
  2: { unfold cert_entry. rewrite <- app_assoc. by apply index24_mid. }
  replace (_ >? _) with false by lia.
  rewrite (bind_eq _ _ s d s).
  2: { unfold cert_entry. rewrite <- !app_assoc, app_assoc.
       apply reslice_mid; [by rewrite zlen_app|lia]. }
  rewrite Hd. replace (_ >? _) with false by lia.
  rewrite (bind_eq _ _ s 0 s).
  2: { unfold cert_entry. rewrite <- !app_assoc, (app_assoc l1), (app_assoc (l1 ++ _)).
       apply (index16_mid _ 0); [|done]. rewrite !zlen_app. change (zlen (put24 _)) with 3. lia. }
  replace (l1 ++ cert_entry d ++ rest) with ((l1 ++ cert_entry d) ++ rest) by (by rewrite app_assoc).
  replace (zlen l1 + 3 + zlen d + (2 + 0)) with (zlen (l1 ++ cert_entry d))
    by (rewrite zlen_app, zlen_cert_entry; lia).
  unfold rest. rewrite IH; [by rewrite <- app_assoc|done|cbn in Hk; lia|].
  fold rest. rewrite !zlen_app, zlen_cert_entry. lia.
Qed.

Lemma parse_certificate ders certs s :
  Forall2 (fun d c => ParseX509 d = inl c) ders certs -> ders <> [] ->
  Forall (fun d => zlen d < 2 ^ 24) ders -> zlen (certificateEntries ders) < 2 ^ 24 ->
  parseCertificate (certificateBody ders) s = Some (inl certs, s).
Proof.
  intros Hc Hne Hl Hz. unfold certificateBody. rewrite certificateEntries_eq in *.
  set (es := concat (cert_entry <$> ders)) in *. pose proof (zlen_nonneg es).
  change (([0] ++ [u8 (zlen es >> 16); u8 (zlen es >> 8); u8 (zlen es)]) ++ es)
    with (([0] ++ put24 (zlen es)) ++ es).
  assert (zlen (([0] ++ put24 (zlen es)) ++ es) = 4 + zlen es) as Hb by (rewrite zlen_app; done).
  unfold parseCertificate. rewrite Hb. replace (_ =? 0) with false by lia.
  rewrite (bind_eq _ _ s 0 s) by (by apply (index_mid [])).
  replace (1 + 0 >? _) with false by lia. replace (1 + 0 + 3 >? _) with false by lia.
  rewrite (bind_eq _ _ s (zlen es) s).
  2: { rewrite <- app_assoc. by apply (index24_mid [0]). }
  replace (_ >? _) with false by lia.
  assert (certs_loop (fuel_for (([0] ++ put24 (zlen es)) ++ es)) (([0] ++ put24 (zlen es)) ++ es)
    (1 + 0 + 3) (1 + 0 + 3 + zlen es) [] s = Some (inl certs, s)) as Hloop.
  { apply (certs_loop_enc ders certs Hc _ ([0] ++ put24 (zlen es))); [done| |].
    - unfold fuel_for. assert (5 * zlen ders <= zlen es) as Hle.
      { unfold es. clear. induction ders as [|d ders IH]; [done|]. rewrite fmap_cons, zlen_cons.
        cbn [concat]. rewrite zlen_app, zlen_cert_entry. pose proof (zlen_nonneg d). lia. }
      unfold zlen in *. lia.
    - rewrite zlen_app. done. }
  rewrite (bind_eq _ _ _ _ _ Hloop). destruct Hc as [|d c ds cs]; [done|].
  rewrite zlen_cons. pose proof (zlen_nonneg cs). by replace (_ =? 0) with false by lia.
Qed.

Lemma parse_certificate_verify algo sig s :
  0 <= algo < 2 ^ 16 -> zlen sig < 2 ^ 16 ->
  parseCertificateVerify (certificateVerifyBody algo sig) s = Some (inl (algo, sig), s).
Proof.
  intros Ha Hs. pose proof (zlen_nonneg sig).
  change (certificateVerifyBody algo sig) with ((put16 algo ++ put16 (zlen sig)) ++ sig).
  assert (zlen ((put16 algo ++ put16 (zlen sig)) ++ sig) = 4 + zlen sig) as Hb by (rewrite zlen_app; done).
  unfold parseCertificateVerify. rewrite Hb. replace (_ <? 4) with false by lia.
  rewrite (bind_eq _ _ s algo s) by (rewrite <- app_assoc; by apply (index16_mid [])).
  rewrite (bind_eq _ _ s (zlen sig) s) by (rewrite <- app_assoc; by apply (index16_mid (put16 algo))).
  replace (_ >? _) with false by lia.
  rewrite (bind_eq _ _ s sig s); [done|]. by apply reslice_tail.
Qed.
End Reading.

(** A signature made with the private key verifies under the public one. *)
Lemma sign_verifies key m r sig r' algo :
  signWithKey key m r = (inl sig, r') -> verifyWithKey (publicOf key) m sig algo = None.
Proof.
  destruct key as [k|k|k|t]; cbn; intros H.
  - by rewrite (ecdsa_verifies k (Sum256 m) r sig) by (by rewrite H).
  - by rewrite (rsa_verifies k (Sum256 m) r sig) by (by rewrite H).
  - injection H as <- _. by rewrite ed25519_verifies.
  - done.
Qed.

(** Whoever receives the Certificate message of a server and its
    CertificateVerify reads the certificates of the chain in order, the
    algorithm of the key and a signature that verifies, under the key of the
    certificate, over the transcript up to the Certificate. *)
Theorem tls_certificate_messages cert key s certs cm cv s' :
  firstCertificate s = Some cert -> cert_PrivateKey cert = Some key ->
  Forall2 (fun d c => ParseX509 d = inl c) (cert_Certificate cert) certs ->
  cert_Certificate cert <> [] -> Forall (fun d => zlen d < 2 ^ 24) (cert_Certificate cert) ->
  zlen (certificateEntries (cert_Certificate cert)) < 2 ^ 24 ->
  serverCertificate s = Some (inl cm, s) ->
  certificateVerify s = Some (inl cv, s') ->
  exists sig, cm = AppendHandshake [] hsCertificate (certificateBody (cert_Certificate cert)) /\
    parseCertificate (certificateBody (cert_Certificate cert)) tt = Some (inl certs, tt) /\
    cv = AppendHandshake [] hsCertificateVerify (certificateVerifyBody (signatureAlgorithm key) sig) /\
    (zlen sig < 2 ^ 16 ->
     parseCertificateVerify (certificateVerifyBody (signatureAlgorithm key) sig) tt =
       Some (inl (signatureAlgorithm key, sig), tt)) /\
    verifyWithKey (publicOf key)
      (certificateVerifyInput (isClient s) (transcript_sum (transcript (keys s)))) sig
      (signatureAlgorithm key) = None.
Proof.
  intros Hc Hk Hx Hne Hl Hz Hcm Hcv.
  unfold serverCertificate in Hcm. rewrite (bind_eq _ _ s _ s eq_refl), Hc in Hcm.
  unfold certificateVerify in Hcv. rewrite (bind_eq _ _ s _ s eq_refl), Hc, Hk in Hcv.
  do 2 rewrite (bind_eq (gets _) _ s _ s eq_refl) in Hcv.
  unfold withRand, mbind, M_bind, gets, modify, mret, M_ret in Hcv.
  destruct (signWithKey key _ (rand s)) as [[sig|e] r'] eqn:Hs; [|done].
  injection Hcm as <-. injection Hcv as <- _. exists sig. split; [done|].
  split; [by apply parse_certificate|]. split; [done|]. split.
  - intros Hzs. apply parse_certificate_verify; [|done]. by destruct key.
  - by eapply sign_verifies.
Qed.
End SignFacts.
