(* ===== verification/TlsHandshake.v ===== *)
(** * TlsHandshake

    A client and a server that exchange what they put out reach the end of the
    handshake, and each one's keys are the other's: the two ends are then a
    [TlsChannel.channel].  The messages and secrets of the handshake are given
    names first; the states the two ends go through are computed from them. *)

From S2P Require Import Prelude Pump GoStd TlsRecord TlsHello TlsHelloFacts TlsKeys TlsKeysFacts.
From S2P Require Import TlsSign TlsState TlsSafe TlsChannel.

(** ** Hello messages are bytes *)

Lemma zlen_put16 x : zlen (put16 x) = 2.
Proof. done. Qed.

Lemma u16s_ok l : bytes_ok (append_u16s l).
Proof.
  rewrite append_u16s_eq. apply bytes_ok_app_2; [auto with go|]. apply Forall_concat, Forall_fmap.
  apply Forall_true. intros x. apply put16_ok.
Qed.
Lemma ext_enc_ok t d : bytes_ok d -> bytes_ok (ext_enc (t, d)).
Proof. intros. unfold ext_enc, appendExtension. cbn [fst snd]. apply bytes_ok_app_2; auto 8 with go. Qed.
Lemma server_name_bytes n : bytes_ok (appendServerName n).
Proof.
  unfold appendServerName. pose proof (bytes_of_string_ok n).
  repeat apply bytes_ok_app_2; auto 8 with go. apply bytes_ok_cons; [by split|auto with go].
Qed.
Lemma alpn_list_bytes l : bytes_ok (appendALPNList l).
Proof.
  rewrite appendALPNList_eq. apply bytes_ok_app_2; [auto with go|]. apply Forall_concat, Forall_fmap.
  apply Forall_true. intros p. apply bytes_ok_cons; auto with go.
Qed.
Lemma key_share_entry_bytes ks : bytes_ok ks -> bytes_ok (appendKeyShareEntry ks).
Proof.
  intros. unfold appendKeyShareEntry. apply bytes_ok_app_2; [|done].
  apply bytes_ok_cons; [by split|auto with go].
Qed.
Lemma key_share_bytes ks : bytes_ok ks -> bytes_ok (appendKeyShare ks).
Proof.
  intros. unfold appendKeyShare. apply bytes_ok_app_2; [auto with go|]. by apply key_share_entry_bytes.
Qed.

Lemma ext_list_bytes l :
  Forall (fun e => bytes_ok (snd e)) l -> bytes_ok (concat (ext_enc <$> l)).
Proof.
  intros Hl. apply Forall_concat, Forall_fmap. eapply Forall_impl; [exact Hl|].
  intros [t d] Hd. by apply ext_enc_ok.
Qed.

Lemma clientExtensions_bytes ch ks : bytes_ok ks -> bytes_ok (clientExtensions ch ks).
Proof.
  intros Hk. rewrite clientExtensions_eq. apply ext_list_bytes. unfold client_exts.
  apply Forall_app_2; [|apply Forall_app_2].
  - apply Forall_cons_2; [bytes|]. apply Forall_cons_2; [apply u16s_ok|].
    apply Forall_cons_2; [by apply key_share_bytes|]. apply Forall_cons_2; [apply u16s_ok|constructor].
  - destruct (negb _); [|constructor]. apply Forall_cons_2; [apply server_name_bytes|constructor].
  - destruct (0 <? _); [|constructor]. apply Forall_cons_2; [apply alpn_list_bytes|constructor].
Qed.

Lemma hello_head_bytes v random sid : bytes_ok random -> bytes_ok sid -> bytes_ok (hello_head v random sid).
Proof. intros. unfold hello_head. apply bytes_ok_app_2; auto with go. Qed.

Lemma clientHelloBody_bytes ch ks :
  bytes_ok (ch_Random ch) -> bytes_ok (ch_SessionID ch) -> bytes_ok ks ->
  bytes_ok (clientHelloBody ch ks).
Proof.
  intros Hr Hs Hk. rewrite clientHelloBody_eq.
  apply bytes_ok_app_2; [by apply hello_head_bytes|]. apply bytes_ok_app_2; [auto with go|].
  apply bytes_ok_app_2.
  { apply Forall_concat, Forall_fmap, Forall_true. intros x. apply put16_ok. }
  apply bytes_ok_cons; [auto with go|]. apply bytes_ok_app_2; [bytes|].
  apply bytes_ok_app_2; [auto with go|]. by apply clientExtensions_bytes.
Qed.

Lemma serverHelloBody_bytes sh ks :
  bytes_ok (sh_Random sh) -> bytes_ok (sh_SessionID sh) -> bytes_ok ks ->
  bytes_ok (serverHelloBody sh ks).
Proof.
  intros Hr Hs Hk. rewrite serverHelloBody_eq.
  apply bytes_ok_app_2; [by apply hello_head_bytes|]. apply bytes_ok_app_2; [auto with go|].
  apply bytes_ok_app_2; [bytes|]. apply bytes_ok_app_2; [auto with go|].
  rewrite serverExtensions_eq. apply ext_list_bytes.
  apply Forall_cons_2; [bytes|]. apply Forall_cons_2; [by apply key_share_entry_bytes|constructor].
Qed.

Lemma alpn_extension_bytes p : bytes_ok (appendALPNServerExtension p).
Proof.
  unfold appendALPNServerExtension. apply bytes_ok_app_2; [auto with go|].
  destruct (negb _); [|constructor]. rewrite appendExtension_eq. apply bytes_ok_app_2; [constructor|].
  apply ext_enc_ok, alpn_list_bytes.
Qed.

Lemma certificateBody_bytes ders : Forall bytes_ok ders -> bytes_ok (certificateBody ders).
Proof.
  intros Hd. unfold certificateBody.
  assert (forall acc, bytes_ok acc -> bytes_ok (fold_left (fun entries der =>
    ((entries ++ [u8 (zlen der >> 16); u8 (zlen der >> 8); u8 (zlen der)]) ++ der) ++ [0; 0]) ders acc)) as He.
  { induction Hd as [|d ders Hd _ IH]; intros acc Ha; [done|]. cbn [fold_left]. apply IH.
    repeat apply bytes_ok_app_2; auto 8 with go. bytes. }
  apply bytes_ok_app_2; [|by apply He, bytes_ok_nil].
  apply bytes_ok_app_2; [bytes|auto 8 with go].
Qed.

Lemma certificateVerifyBody_bytes algo sig : bytes_ok sig -> bytes_ok (certificateVerifyBody algo sig).
Proof. intros. unfold certificateVerifyBody. repeat apply bytes_ok_app_2; auto 8 with go. Qed.

(** ** The steps both ends are made of *)

Section Steps.
Context {C : Crypto} {L : CryptoLaws C}.

(** A message sealed with the handshake keys and added to the transcript. *)
Definition sent_state (msg : bytes) (i : nat) (p : recordProtector) (a : AEAD) (s : StateMachine)
    : StateMachine :=
  set_keys (mkKeySchedule (transcript_write (transcript (keys s)) msg)
              (earlySecret (keys s)) (handshakeSecret (keys s)) (masterSecret (keys s)))
    (set_out (out s ++ AppendRecord [] recordApplicationData 0x0303 (sealed p a recordHandshake msg))
       (set_protectors (<[i:=next p]> (protectors s)) s)).

Lemma send_eq msg s i p a :
  hsWriteKeys s = Some i -> protectors s !! i = Some p -> protector_ok p -> rp_aead p = Some a ->
  rp_seq p < 2 ^ 64 - 1 ->
  sendAndTranscribe msg s = Some (tt, sent_state msg i p a s).
Proof.
  intros Hi Hp Hok Ha Hs. unfold sendAndTranscribe, writeHandshake.
  assert (seal recordHandshake msg p = Some (inl (sealed p a recordHandshake msg), next p)) as Hseal.
  { rewrite (seal_eq p a) by done. by replace (_ =? _) with false by lia. }
  rewrite (bind_eq _ _ s tt (set_out (out s ++ AppendRecord [] recordApplicationData 0x0303
    (sealed p a recordHandshake msg)) (set_protectors (<[i:=next p]> (protectors s)) s))); [done|].
  rewrite (bind_eq _ _ s false s) by (unfold gets; by rewrite Hi, (notReady_at s i p a)).
  cbv iota. rewrite (bind_eq _ _ s (Some i) s) by (unfold gets; by rewrite Hi).
  rewrite (bind_eq _ _ s i s) by done.
  by rewrite (bind_eq _ _ _ _ _ (onProtector_eq _ _ _ _ _ _ Hp Hseal)).
Qed.

Lemma newProtector_eq sec p s :
  newRecordProtector (keysFromSecret sec) = inl p ->
  newProtector (keysFromSecret sec) s =
  Some (inl (length (protectors s)), set_protectors (protectors s ++ [p]) s).
Proof. intros Hp. unfold newProtector. by rewrite Hp. Qed.

Lemma installHandshakeKeys_eq wl rl s pw pr :
  let secret l := deriveSecret (default [] (handshakeSecret (keys s))) l
                    (transcript_sum (transcript (keys s))) in
  newRecordProtector (keysFromSecret (secret wl)) = inl pw ->
  newRecordProtector (keysFromSecret (secret rl)) = inl pr ->
  let w := Some (length (protectors s)) in
  let r := Some (length (protectors s ++ [pw])) in
  installHandshakeKeys wl rl s =
  Some (None, set_rwKeys w r (set_hsKeys w r (set_protectors ((protectors s ++ [pw]) ++ [pr])
    (set_hsSecrets (Some (secret wl)) (Some (secret rl)) s)))).
Proof.
  intros secret Hw Hr w r. unfold installHandshakeKeys, orReturn.
  do 2 (rewrite (bind_eq (gets _) _ s _ s eq_refl)).
  rewrite (bind_eq (modify _) _ s tt _ eq_refl).
  rewrite (bind_eq _ _ _ _ _ (newProtector_eq _ pw _ Hw)).
  by rewrite (bind_eq _ _ _ _ _ (newProtector_eq _ pr _ Hr)).
Qed.

(** One whole message in one record, the parser's buffer being empty. *)
Lemma parseHandshakes_one h s s1 :
  handshakes s = NewHandshakeParser -> handshake_ok h ->
  onHandshake h s = Some (None, s1) -> handshakes s1 = NewHandshakeParser ->
  parseHandshakes (handshake_enc h) s = Some (None, s1).
Proof.
  intros Hs Hh Hon Hs1. unfold parseHandshakes.
  rewrite (bind_eq _ _ s NewHandshakeParser s) by (unfold gets; by rewrite Hs).
  assert (HandshakeParser_Parse onHandshake NewHandshakeParser (handshake_enc h) s =
    Some ((NewHandshakeParser, (zlen (handshake_enc h), None)), s1)) as Hparse.
  { rewrite handshake_parse_absorb; [|constructor|by apply enc_bytes].
    unfold absorb. cbn [hp_buf NewHandshakeParser app].
    pose proof (run_encoded cut_handshake handshake_enc handshake_ok onHandshake [h] [] s) as Hr.
    cbn [fmap list_fmap concat deliver_all] in Hr. rewrite !app_nil_r in Hr.
    unfold mbind, M_bind in *. rewrite Hr; [|by constructor|done]. rewrite Hon.
    unfold mret, M_ret. cbn [fst snd].
    replace (0 + zlen (handshake_enc h)) with (zlen (handshake_enc h)) by lia.
    rewrite from_all. change (zlen []) with 0. rewrite Z.sub_0_r.
    pose proof (zlen_nonneg (handshake_enc h)). by rewrite Z.max_r by lia. }
  rewrite (bind_eq _ _ _ _ _ Hparse). cbn [fst snd].
  rewrite (bind_eq _ _ s1 tt (set_handshakes NewHandshakeParser s1)) by done.
  unfold mret, M_ret. do 2 f_equal. rewrite <- Hs1. by destruct s1.
Qed.

(** A sealed handshake message arriving in turn. *)
Lemma onRecord_handshake h s j p a s1 :
  readKeys s = Some j -> protectors s !! j = Some p -> protector_ok p -> rp_aead p = Some a ->
  handshakes s = NewHandshakeParser -> handshake_ok h ->
  onHandshake h (set_protectors (<[j:=next p]> (protectors s)) s) = Some (None, s1) ->
  handshakes s1 = NewHandshakeParser ->
  onRecord (mkRecord recordApplicationData 0x0303 (sealed p a recordHandshake (handshake_enc h))) s =
  Some (None, s1).
Proof.
  intros Hj Hp Hok Ha Hs Hh Hon Hs1.
  rewrite (onRecord_sealed s j p a) by (done || (by apply enc_bytes) || (split; done)).
  change (recordHandshake =? recordHandshake) with true. cbv iota.
  by apply parseHandshakes_one.
Qed.

(** A plaintext handshake message. *)
Lemma onRecord_plain h s s1 :
  handshakes s = NewHandshakeParser -> handshake_ok h ->
  onHandshake h s = Some (None, s1) -> handshakes s1 = NewHandshakeParser ->
  onRecord (mkRecord recordHandshake 0x0303 (handshake_enc h)) s = Some (None, s1).
Proof. intros. unfold onRecord. cbn [Type_ Payload]. by apply parseHandshakes_one. Qed.

(** The comparison of a Finished with itself. *)
Lemma verifyDiff_refl l : verifyDiff l l = 0.
Proof.
  unfold verifyDiff. assert (forall d, d = 0 ->
    fold_left (fun diff xy => Z.lor diff (Z.lxor (fst xy) (snd xy))) (zip l l) d = 0) as H; [|by apply H].
  induction l as [|x l IH]; intros d ->; [done|]. cbn. apply IH. by rewrite Z.lxor_nilpotent.
Qed.

(** Records delivered one by one. *)
Lemma deliver_cons r rs c s s1 :
  onRecord r s = Some (None, s1) ->
  deliver_all onRecord record_enc (r :: rs) c s =
  deliver_all onRecord record_enc rs (c + zlen (record_enc r)) s1.
Proof. intros H. cbn [deliver_all]. unfold mbind, M_bind. by rewrite H. Qed.
End Steps.

(** Evaluation of a handler at a known state. *)
Lemma bind_assoc {S A B D} (m : M S A) (k : A -> M S B) (l : B -> M S D) s :
  ((m ≫= k) ≫= l) s = (m ≫= (fun a => k a ≫= l)) s.
Proof. unfold mbind, M_bind. by destruct (m s) as [[a s']|]. Qed.

Lemma ret_bind {S A B} (a : A) (k : A -> M S B) (s : S) : (mret a ≫= k) s = k a s.
Proof. done. Qed.

Ltac sm_norm :=
  cbn [set_state set_handshakes set_keys set_kx set_peerKeyShare set_protectors set_rwKeys
       set_hsKeys set_hsSecrets set_appSecrets set_out set_plaintext set_clientHello set_serverHello
       set_suite set_alpn set_err set_rand
       config isClient state handshakes keys kx peerKeyShare protectors writeKeys readKeys
       hsWriteKeys hsReadKeys hsWriteSecret hsReadSecret appWriteSecret appReadSecret out plaintext
       clientHello serverHello suite negotiatedALPN err rand
       transcript earlySecret handshakeSecret masterSecret kx_priv kx_pub negb default from_option id].

Ltac ev1 :=
  lazymatch goal with
  | |- mbind _ (mbind _ _) _ = _ => rewrite bind_assoc
  | |- mbind ?k (modify ?f) ?s = _ => rewrite (bind_eq (modify f) k s tt (f s) eq_refl)
  | |- mbind ?k (gets ?f) ?s = _ => rewrite (bind_eq (gets f) k s (f s) s eq_refl)
  | |- mbind ?k (mret ?a) ?s = _ => rewrite (ret_bind a k s)
  | |- mbind _ (emit _) _ = _ => unfold emit at 1
  | |- mbind _ (transcribe _) _ = _ => unfold transcribe at 1
  | |- mbind _ (withRand _) _ = _ => unfold withRand at 1
  | |- mbind _ (onKeys _) _ = _ => unfold onKeys at 1
  | |- mbind _ (orReturn _ _) _ = _ => unfold orReturn at 1
  | |- mbind _ (check _ _) _ = _ => unfold check at 1
  | |- check _ _ _ = _ => unfold check at 1
  | |- orReturn _ _ _ = _ => unfold orReturn at 1
  end; cbv beta iota zeta; sm_norm.
Ltac ev := cbv beta iota zeta; repeat ev1.

(** ** The handshake of one client and one server *)

Section Run.
Context {C : Crypto} {L : CryptoLaws C}.

(** Who takes part, and what their randomness gives them. *)
Context (ccfg scfg : Config) (cert : Certificate) (key : PrivateKey).
Context (rc rc1 rc2 rc3 rs rs1 rs2 rs3 : Rand) (kc ks : EcdhKey).
Context (crandom sid srandom sig sharedSecret : bytes).

Definition ch : ClientHello :=
  mkClientHello 0x0303 crandom sid
    [TLS_AES_128_GCM_SHA256; TLS_AES_256_GCM_SHA384; TLS_CHACHA20_POLY1305_SHA256]
    (ServerName ccfg) (NextProtos ccfg).
Definition sh : ServerHello := mkServerHello 0x0303 srandom sid TLS_AES_128_GCM_SHA256.
Definition proto : string := negotiateALPN (NextProtos ccfg) (NextProtos scfg).

(** The messages, and the transcript after each of them. *)
Definition chH := mkHandshake hsClientHello (clientHelloBody ch (PublicKey_Bytes kc)).
Definition shH := mkHandshake hsServerHello (serverHelloBody sh (PublicKey_Bytes ks)).
Definition eeH := mkHandshake hsEncryptedExtensions (appendALPNServerExtension proto).
Definition certH := mkHandshake hsCertificate (certificateBody (cert_Certificate cert)).
Definition cvH := mkHandshake hsCertificateVerify (certificateVerifyBody (signatureAlgorithm key) sig).

Definition T1 := transcript_write newTranscriptHash (handshake_enc chH).
Definition T2 := transcript_write T1 (handshake_enc shH).
Definition T3 := transcript_write T2 (handshake_enc eeH).
Definition T4 := transcript_write T3 (handshake_enc certH).
Definition T5 := transcript_write T4 (handshake_enc cvH).

(** The secrets of RFC 8446, section 7.1. *)
Definition early := hkdfExtract (zeros sha256_Size) (zeros sha256_Size).
Definition hsSecret := hkdfExtract (deriveSecret early "derived" (sha256Sum [])) sharedSecret.
Definition sHs := deriveSecret hsSecret "s hs traffic" (transcript_sum T2).
Definition cHs := deriveSecret hsSecret "c hs traffic" (transcript_sum T2).
Definition sFinH := mkHandshake hsFinished (finishedVerifyData sHs (transcript_sum T5)).
Definition T6 := transcript_write T5 (handshake_enc sFinH).
Definition master := hkdfExtract (deriveSecret hsSecret "derived" (sha256Sum [])) (zeros sha256_Size).
Definition sAp := deriveSecret master "s ap traffic" (transcript_sum T6).
Definition cAp := deriveSecret master "c ap traffic" (transcript_sum T6).
Definition cFinH := mkHandshake hsFinished (finishedVerifyData cHs (transcript_sum T6)).
Definition T7 := transcript_write T6 (handshake_enc cFinH).

Definition schedule (t : transcriptHash) (hs ms : option bytes) : keySchedule :=
  mkKeySchedule t (Some early) hs ms.

Context (pS pC pSA pCA : recordProtector) (aS aC : AEAD).

(** What is assumed of the run. *)
Record run_ok : Prop := {
  run_kc : X25519_GenerateKey rc = (inl kc, rc1);
  run_crandom : Rand_Read 32 rc1 = (inl crandom, rc2);
  run_sid : Rand_Read 32 rc2 = (inl sid, rc3);
  run_ks : X25519_GenerateKey rs = (inl ks, rs1);
  run_srandom : Rand_Read 32 rs1 = (inl srandom, rs2);
  run_shared : ECDH ks (PublicKey_Bytes kc) = inl sharedSecret;
  run_cert : head (Certificates scfg) = Some cert;
  run_key : cert_PrivateKey cert = Some key;
  run_sig : signWithKey key (certificateVerifyInput false (transcript_sum T4)) rs2 = (inl sig, rs3);
  run_sig_ok : bytes_ok sig /\ zlen sig <= 4096;
  run_ders : Forall bytes_ok (cert_Certificate cert);
  run_cert_len : zlen (certificateBody (cert_Certificate cert)) <= 16384;
  run_alpn : Forall alpn_ok (NextProtos ccfg);
  run_exts : zlen (clientExtensions ch (PublicKey_Bytes kc)) <= 16384;
  run_pS : newRecordProtector (keysFromSecret sHs) = inl pS /\ rp_seq pS = 0;
  run_pC : newRecordProtector (keysFromSecret cHs) = inl pC /\ rp_seq pC = 0;
  run_pSA : newRecordProtector (keysFromSecret sAp) = inl pSA;
  run_pCA : newRecordProtector (keysFromSecret cAp) = inl pCA;
  run_pS_ok : protector_ok pS /\ rp_aead pS = Some aS;
  run_pC_ok : protector_ok pC /\ rp_aead pC = Some aC;
}.
Context (R : run_ok).

Lemma crandom_ok : bytes_ok crandom /\ zlen crandom = 32.
Proof. apply (read_ok 32 rc1); [done|]. by rewrite (run_crandom R). Qed.
Lemma sid_ok : bytes_ok sid /\ zlen sid = 32.
Proof. apply (read_ok 32 rc2); [done|]. by rewrite (run_sid R). Qed.
Lemma srandom_ok : bytes_ok srandom /\ zlen srandom = 32.
Proof. apply (read_ok 32 rs1); [done|]. by rewrite (run_srandom R). Qed.

Lemma ch_ok : client_hello_ok ch (PublicKey_Bytes kc).
Proof.
  pose proof (run_exts R). destruct crandom_ok, sid_ok, (pub_ok kc) as [_ Hp].
  unfold client_hello_ok. cbn [ch_LegacyVersion ch_Random ch_SessionID ch_CipherSuites ch_ALPN ch].
  split_and!; try lia; try done; [|apply (run_alpn R)].
  repeat (apply Forall_cons_2; [by split|]). constructor.
Qed.

Lemma zlen_serverExtensions k : zlen (serverExtensions (PublicKey_Bytes k)) = 46.
Proof.
  rewrite serverExtensions_eq. unfold server_exts. cbn [fmap list_fmap concat].
  rewrite !zlen_app, !zlen_ext_enc. cbn [snd]. rewrite zlen_appendKeyShareEntry, (proj2 (pub_ok k)). done.
Qed.

Lemma sh_ok : server_hello_ok sh (PublicKey_Bytes ks).
Proof.
  destruct srandom_ok, sid_ok. unfold server_hello_ok.
  cbn [sh_LegacyVersion sh_Random sh_SessionID sh_CipherSuite sh].
  rewrite zlen_serverExtensions. split_and!; try lia; done.
Qed.

(** Every message is a handshake message that fits a record. *)
Definition fits (h : Handshake) : Prop := handshake_ok h /\ zlen (hs_Payload h) <= 16600.

Lemma chH_fits : fits chH.
Proof.
  destruct crandom_ok as [Hr1 Hr2], sid_ok as [Hs1 Hs2], (pub_ok kc) as [Hp1 Hp2].
  pose proof (run_exts R) as Hx.
  assert (zlen (clientHelloBody ch (PublicKey_Bytes kc)) <= 16600) as Hz.
  { rewrite clientHelloBody_eq. unfold hello_head. rewrite !zlen_app, !zlen_cons, !zlen_app.
    cbn [ch_Random ch_SessionID ch]. rewrite Hr2, Hs2, !zlen_put16, zlen_u16s.
    change (zlen [0]) with 1. change (zlen (ch_CipherSuites ch)) with 3. lia. }
  split; [|done]. split; [by split|]. split; [by apply clientHelloBody_bytes|].
  cbn [hs_Payload chH]. change (1 << 20) with 1048576. lia.
Qed.

Lemma shH_fits : fits shH.
Proof.
  destruct srandom_ok as [Hr1 Hr2], sid_ok as [Hs1 Hs2], (pub_ok ks) as [Hp1 Hp2].
  assert (zlen (serverHelloBody sh (PublicKey_Bytes ks)) <= 16600) as Hz.
  { rewrite serverHelloBody_eq. unfold hello_head. rewrite !zlen_app, !zlen_cons, zlen_serverExtensions.
    cbn [sh_Random sh_SessionID sh]. rewrite Hr2, Hs2, !zlen_put16, zlen_nil. lia. }
  split; [|done]. split; [by split|]. split; [by apply serverHelloBody_bytes|].
  cbn [hs_Payload shH]. change (1 << 20) with 1048576. lia.
Qed.

Lemma proto_ok : alpn_ok proto.
Proof.
  unfold proto, negotiateALPN. destruct (_ || _); [done|].
  pose proof (run_alpn R) as Ha. induction (NextProtos scfg) as [|p l IH]; [done|].
  cbn [negotiate_loop]. destruct (existsb _ _) eqn:E; [|apply IH].
  apply existsb_exists in E as (q & Hq & Heq). apply String.eqb_eq in Heq. subst q.
  rewrite Forall_forall in Ha. apply Ha. by apply list_elem_of_In.
Qed.

Lemma eeH_fits : fits eeH.
Proof.
  pose proof proto_ok as Hp. unfold alpn_ok in Hp.
  assert (zlen (appendALPNServerExtension proto) <= 16600) as Hz.
  { unfold appendALPNServerExtension. rewrite zlen_app. change (zlen [_; _]) with 2.
    destruct (negb _); [|done]. rewrite appendExtension_eq, app_nil_l, zlen_ext_enc. cbn [snd].
    rewrite appendALPNList_eq, zlen_app. cbn [fmap list_fmap concat]. rewrite app_nil_r.
    unfold alpn_enc. rewrite zlen_cons, zlen_put16. lia. }
  split; [|done]. split; [by split|]. split; [apply alpn_extension_bytes|].
  cbn [hs_Payload eeH]. change (1 << 20) with 1048576. lia.
Qed.

Lemma certH_fits : fits certH.
Proof.
  pose proof (run_cert_len R). unfold fits. cbn [hs_Payload certH]. split; [|lia].
  split; [by split|]. split; [apply certificateBody_bytes, (run_ders R)|].
  cbn [hs_Payload certH]. change (1 << 20) with 1048576. lia.
Qed.

Lemma cvH_fits : fits cvH.
Proof.
  destruct (run_sig_ok R) as [H1 H2].
  assert (zlen (hs_Payload cvH) <= 16600) as Hz.
  { cbn [hs_Payload cvH]. unfold certificateVerifyBody. rewrite !zlen_app.
    change (zlen [_; _]) with 2. lia. }
  split; [|done]. split; [by split|]. split; [by apply certificateVerifyBody_bytes|].
  change (1 << 20) with 1048576. lia.
Qed.

Lemma finished_fits sec t : fits (mkHandshake hsFinished (finishedVerifyData sec t)).
Proof.
  unfold finishedVerifyData. destruct (hmac_ok (finishedKey sec) t) as [H1 H2].
  split; [|cbn; rewrite H2; done]. split; [by split|]. split; [done|]. cbn. rewrite H2. done.
Qed.

(** *** The client starts *)

Definition client1 : StateMachine :=
  mkSM (Some ccfg) true StateWaitServerHello NewHandshakeParser (schedule T1 None None)
    (Some (mkKx kc (PublicKey_Bytes kc))) None [] None None None None None None None None
    (record_enc (mkRecord recordHandshake 0x0303 (handshake_enc chH))) [] None None 0 "" None rc3.

Lemma start_run : Start (NewClientStateMachine (Some ccfg) rc) = Some (None, client1).
Proof.
  unfold Start, NewClientStateMachine, newStateMachine. ev. unfold newKeyExchange. ev.
  rewrite (run_kc R). ev. rewrite (run_crandom R). ev. rewrite (run_sid R). ev.
  done.
Qed.

(** *** The server answers *)

Definition server_records : list TlsRec :=
  [mkRecord recordHandshake 0x0303 (handshake_enc shH);
   mkRecord recordChangeCipherSpec 0x0303 [1];
   mkRecord recordApplicationData 0x0303 (sealed pS aS recordHandshake (handshake_enc eeH));
   mkRecord recordApplicationData 0x0303 (sealed (next pS) aS recordHandshake (handshake_enc certH));
   mkRecord recordApplicationData 0x0303 (sealed (next (next pS)) aS recordHandshake (handshake_enc cvH));
   mkRecord recordApplicationData 0x0303
     (sealed (next (next (next pS))) aS recordHandshake (handshake_enc sFinH))].

Definition server1 : StateMachine :=
  mkSM (Some scfg) false StateWaitFinished NewHandshakeParser
    (schedule T6 (Some hsSecret) (Some master)) (Some (mkKx ks (PublicKey_Bytes ks)))
    (Some (PublicKey_Bytes kc)) [iter_next 4 pS; pC] (Some 0%nat) (Some 1%nat) (Some 0%nat) (Some 1%nat)
    (Some sHs) (Some cHs) (Some sAp) (Some cAp)
    (concat (record_enc <$> server_records)) [] (Some ch) None TLS_AES_128_GCM_SHA256 proto None rs3.

Definition server_accepted : StateMachine :=
  mkSM (Some scfg) false StateWaitClientHello NewHandshakeParser (schedule T1 None None)
    None (Some (PublicKey_Bytes kc)) [] None None None None None None None None
    [] [] (Some ch) None TLS_AES_128_GCM_SHA256 proto None rs.

Definition server_keyed : StateMachine :=
  mkSM (Some scfg) false StateWaitClientHello NewHandshakeParser (schedule T2 (Some hsSecret) None)
    (Some (mkKx ks (PublicKey_Bytes ks))) (Some (PublicKey_Bytes kc)) [pS; pC]
    (Some 0%nat) (Some 1%nat) (Some 0%nat) (Some 1%nat) (Some sHs) (Some cHs) None None
    (record_enc (mkRecord recordHandshake 0x0303 (handshake_enc shH))) []
    (Some ch) None TLS_AES_128_GCM_SHA256 proto None rs2.

Lemma server_accept_run :
  onClientHello (hs_Payload chH) (NewServerStateMachine (Some scfg) rs) =
  (try sendServerHello ch (PublicKey_Bytes kc); sendServerFlight) server_accepted.
Proof.
  unfold onClientHello, NewServerStateMachine, newStateMachine. ev.
  unfold acceptClientHello. ev.
  rewrite (bind_eq _ _ _ _ _ (parse_client_hello ch (PublicKey_Bytes kc) _ ch_ok)). ev.
  replace (existsb _ _) with true by done. ev.
  replace (TLS_AES_128_GCM_SHA256 =? 0) with false by done.
  ev. rewrite (bind_eq _ _ _ _ _ (client_key_share ch (PublicKey_Bytes kc) _ ch_ok)). ev.
  done.
Qed.

Lemma server_hello_run :
  sendServerHello ch (PublicKey_Bytes kc) server_accepted = Some (None, server_keyed).
Proof.
  unfold sendServerHello, server_accepted. ev. unfold newKeyExchange. ev.
  rewrite (run_ks R). ev. unfold shared at 1. rewrite pub_accepted. sm_norm. rewrite (run_shared R).
  ev. change (deriveHandshake _ _) with (schedule T1 (Some hsSecret) None, @None error). ev.
  rewrite (run_srandom R). ev.
  rewrite (installHandshakeKeys_eq _ _ _ pS pC); [done| |].
  - apply (run_pS R).
  - apply (run_pC R).
Qed.

Lemma server_out :
  concat (record_enc <$> server_records) =
  (((((record_enc (mkRecord recordHandshake 0x0303 (handshake_enc shH)) ++
       AppendRecord [] recordChangeCipherSpec 0x0303 [1]) ++
      AppendRecord [] recordApplicationData 0x0303 (sealed pS aS recordHandshake (handshake_enc eeH))) ++
     AppendRecord [] recordApplicationData 0x0303
       (sealed (next pS) aS recordHandshake (handshake_enc certH))) ++
    AppendRecord [] recordApplicationData 0x0303
      (sealed (next (next pS)) aS recordHandshake (handshake_enc cvH))) ++
   AppendRecord [] recordApplicationData 0x0303
     (sealed (next (next (next pS))) aS recordHandshake (handshake_enc sFinH))).
Proof. unfold server_records. cbn [fmap list_fmap concat]. by rewrite app_nil_r, <- !app_assoc. Qed.

Ltac ev_send p a Hok Ha Hs :=
  match goal with |- mbind ?k (sendAndTranscribe ?m) ?s = _ =>
    rewrite (bind_eq _ k s tt _ (send_eq m s 0 p a eq_refl eq_refl Hok Ha Hs)) end; unfold sent_state; ev.

Lemma server_flight_run : sendServerFlight server_keyed = Some (None, server1).
Proof.
  destruct (run_pS_ok R) as [Hok0 Ha]. destruct (run_pS R) as [_ Hs0].
  pose proof (next_ok _ Hok0) as Hok1. pose proof (next_ok _ Hok1) as Hok2.
  pose proof (next_ok _ Hok2) as Hok3.
  assert (rp_seq (next pS) = 1) as Hs1 by (unfold next; cbn [rp_seq]; by rewrite Hs0).
  assert (rp_seq (next (next pS)) = 2) as Hs2 by (unfold next at 1; cbn [rp_seq]; by rewrite Hs1).
  assert (rp_seq (next (next (next pS))) = 3) as Hs3 by (unfold next at 1; cbn [rp_seq]; by rewrite Hs2).
  assert (rp_seq pS < 2 ^ 64 - 1) as L0 by lia. assert (rp_seq (next pS) < 2 ^ 64 - 1) as L1 by lia.
  assert (rp_seq (next (next pS)) < 2 ^ 64 - 1) as L2 by lia.
  assert (rp_seq (next (next (next pS))) < 2 ^ 64 - 1) as L3 by lia.
  unfold sendServerFlight, server_keyed. ev.
  ev_send pS aS Hok0 Ha L0.
  unfold serverCertificate. ev. unfold firstCertificate at 1. sm_norm. rewrite (run_cert R). ev.
  ev_send (next pS) aS Hok1 Ha L1.
  unfold certificateVerify. ev. unfold firstCertificate at 1. sm_norm. rewrite (run_cert R). ev.
  rewrite (run_key R). ev.
  match goal with |- context [transcript_sum ?t] => change t with T4 end.
  rewrite (run_sig R). ev.
  ev_send (next (next pS)) aS Hok2 Ha L2.
  unfold finishedMessage. ev.
  ev_send (next (next (next pS))) aS Hok3 Ha L3.
  unfold cacheApplicationSecrets. ev.
  change (deriveMaster _) with (schedule T6 (Some hsSecret) (Some master), @None error). ev.
  unfold server1. rewrite server_out. reflexivity.
Qed.

Lemma server_answer :
  onHandshake chH (NewServerStateMachine (Some scfg) rs) = Some (None, server1).
Proof.
  change (onHandshake chH) with (onClientHello (hs_Payload chH)). rewrite server_accept_run.
  rewrite (check_ok _ _ _ _ server_hello_run). apply server_flight_run.
Qed.


(** *** The client reads the answer *)

Definition client_at (st : HandshakeState) (t : transcriptHash) (p : recordProtector) (alpn : string)
    : StateMachine :=
  mkSM (Some ccfg) true st NewHandshakeParser (schedule t (Some hsSecret) None)
    (Some (mkKx kc (PublicKey_Bytes kc))) None [pC; p] (Some 0%nat) (Some 1%nat) (Some 0%nat) (Some 1%nat)
    (Some cHs) (Some sHs) None None [] [] None (Some sh) TLS_AES_128_GCM_SHA256 alpn None rc3.

Definition client_records : list TlsRec :=
  [mkRecord recordChangeCipherSpec 0x0303 [1];
   mkRecord recordApplicationData 0x0303 (sealed pC aC recordHandshake (handshake_enc cFinH))].

Definition client2 : StateMachine :=
  mkSM (Some ccfg) true StateEstablished NewHandshakeParser (schedule T7 (Some hsSecret) (Some master))
    (Some (mkKx kc (PublicKey_Bytes kc))) None [next pC; iter_next 4 pS; pCA; pSA]
    (Some 2%nat) (Some 3%nat) (Some 0%nat) (Some 1%nat) (Some cHs) (Some sHs) (Some cAp) (Some sAp)
    (concat (record_enc <$> client_records)) [] None (Some sh) TLS_AES_128_GCM_SHA256 proto None rc3.

Lemma client_server_hello :
  onHandshake shH (set_out [] client1) = Some (None, client_at StateWaitEncryptedExtensions T2 pS "").
Proof.
  change (onHandshake shH) with (onServerHello (hs_Payload shH)).
  unfold onServerHello, client1. sm_norm. ev.
  rewrite (bind_eq _ _ _ _ _ (parse_server_hello sh (PublicKey_Bytes ks) _ sh_ok)). ev.
  rewrite (bind_eq _ _ _ _ _ (server_key_share sh (PublicKey_Bytes ks) _ sh_ok)). ev.
  unfold of_option at 1. ev. unfold shared at 1. rewrite pub_accepted. sm_norm.
  rewrite ecdh_agree, (run_shared R). ev.
  change (deriveHandshake _ _) with (schedule T2 (Some hsSecret) None, @None error). ev.
  erewrite bind_eq; [|apply (installHandshakeKeys_eq _ _ _ pC pS); [apply (run_pC R)|apply (run_pS R)]].
  ev. done.
Qed.

Lemma client_ee p :
  onHandshake eeH (client_at StateWaitEncryptedExtensions T2 p "") =
  Some (None, client_at StateWaitCertificate T3 p proto).
Proof.
  unfold onHandshake. cbn [hs_Type eeH hsEncryptedExtensions hsClientHello hsServerHello Z.eqb Pos.eqb].
  unfold client_at. ev. cbn [hs_Payload eeH].
  rewrite (bind_eq _ _ _ _ _ (parse_alpn_extension proto _ proto_ok)). ev.
  unfold passMessage. ev. done.
Qed.

Lemma client_cert p :
  onHandshake certH (client_at StateWaitCertificate T3 p proto) =
  Some (None, client_at StateWaitCertificateVerify T4 p proto).
Proof. done. Qed.

Lemma client_cv p :
  onHandshake cvH (client_at StateWaitCertificateVerify T4 p proto) =
  Some (None, client_at StateWaitServerFinished T5 p proto).
Proof. done. Qed.

Lemma client_out :
  concat (record_enc <$> client_records) =
  ([] ++ AppendRecord [] recordChangeCipherSpec 0x0303 [1]) ++
  AppendRecord [] recordApplicationData 0x0303 (sealed pC aC recordHandshake (handshake_enc cFinH)).
Proof. unfold client_records. cbn [fmap list_fmap concat]. by rewrite app_nil_r. Qed.

Lemma switch_eq s w r pw pr :
  appWriteSecret s = Some w -> appReadSecret s = Some r ->
  newRecordProtector (keysFromSecret w) = inl pw -> newRecordProtector (keysFromSecret r) = inl pr ->
  switchToApplicationKeys s =
  Some (None, set_rwKeys (Some (length (protectors s))) (Some (length (protectors s ++ [pw])))
                (set_protectors ((protectors s ++ [pw]) ++ [pr]) s)).
Proof.
  intros Hw Hr Hpw Hpr. unfold switchToApplicationKeys, orReturn.
  do 2 (rewrite (bind_eq (gets _) _ s _ s eq_refl)). rewrite Hw, Hr.
  rewrite (bind_eq _ _ _ _ _ (newProtector_eq _ pw _ Hpw)).
  by rewrite (bind_eq _ _ _ _ _ (newProtector_eq _ pr _ Hpr)).
Qed.

Lemma client_finished :
  onHandshake sFinH (client_at StateWaitServerFinished T5 (iter_next 4 pS) proto) = Some (None, client2).
Proof.
  destruct (run_pC_ok R) as [Hok Ha]. destruct (run_pC R) as [_ Hs].
  assert (rp_seq pC < 2 ^ 64 - 1) as L0 by lia.
  change (onHandshake sFinH) with (onFinished (hs_Payload sFinH)).
  unfold onFinished, client_at. ev. cbn [hs_Payload sFinH].
  match goal with |- context [transcript_sum ?t] => change t with T5 end.
  rewrite Z.eqb_refl, verifyDiff_refl. cbn [negb Z.eqb]. ev.
  unfold cacheApplicationSecrets. ev.
  change (deriveMaster _) with (schedule T6 (Some hsSecret) (Some master), @None error). ev.
  unfold finishedMessage. ev. ev_send pC aC Hok Ha L0.
  erewrite bind_eq; [|apply (switch_eq _ cAp sAp pCA pSA); [done|done|apply (run_pCA R)|apply (run_pSA R)]].
  ev. unfold client2. rewrite client_out. done.
Qed.


(** *** The records are records *)

Lemma enc_len h : fits h -> bytes_ok (handshake_enc h) /\ zlen (handshake_enc h) <= 16604.
Proof.
  intros [Hh Hz]. split; [by apply enc_bytes|]. destruct h as [t p].
  unfold handshake_enc. cbn [hs_Type hs_Payload] in *. rewrite zlen_AppendHandshake.
  unfold handshakeHeaderLen. lia.
Qed.

Lemma plain_record_ok t h : fits h -> is_byte t -> record_ok (mkRecord t 0x0303 (handshake_enc h)).
Proof.
  intros Hh Ht. destruct (enc_len h Hh). split; [done|]. split; [by split|]. split; [done|].
  cbn [Payload]. change maxCiphertextLen with 16640. lia.
Qed.

Lemma sealed_record_ok p a h : fits h -> protector_ok p -> rp_aead p = Some a ->
  record_ok (mkRecord recordApplicationData 0x0303 (sealed p a recordHandshake (handshake_enc h))).
Proof.
  intros Hh Hp Ha. destruct (enc_len h Hh) as [Hb Hz].
  destruct (sealed_ok p a recordHandshake (handshake_enc h) Hp Ha) as [H1 H2]; [by split|done|].
  split; [by split|]. split; [by split|]. split; [done|].
  cbn [Payload]. change maxCiphertextLen with 16640. lia.
Qed.

Lemma ccs_ok : record_ok (mkRecord recordChangeCipherSpec 0x0303 [1]).
Proof. split; [by split|]. split; [by split|]. split; [bytes|done]. Qed.

Lemma server_records_ok : Forall record_ok server_records.
Proof.
  destruct (run_pS_ok R) as [Hok0 Ha]. unfold server_records.
  apply Forall_cons_2; [apply plain_record_ok; [apply shH_fits|by split]|].
  apply Forall_cons_2; [apply ccs_ok|].
  apply Forall_cons_2; [apply sealed_record_ok; [apply eeH_fits|done|done]|].
  apply Forall_cons_2; [apply sealed_record_ok; [apply certH_fits|by apply next_ok|done]|].
  apply Forall_cons_2; [apply sealed_record_ok; [apply cvH_fits|by do 2 apply next_ok|done]|].
  apply Forall_cons_2; [apply sealed_record_ok; [apply finished_fits|by do 3 apply next_ok|done]|].
  constructor.
Qed.

Lemma client_records_ok : Forall record_ok client_records.
Proof.
  destruct (run_pC_ok R) as [Hok Ha]. unfold client_records.
  apply Forall_cons_2; [apply ccs_ok|].
  apply Forall_cons_2; [apply sealed_record_ok; [apply finished_fits|done|done]|constructor].
Qed.

(** *** Flights *)

Lemma onRecord_ccs s : onRecord (mkRecord recordChangeCipherSpec 0x0303 [1]) s = Some (None, s).
Proof. done. Qed.

Lemma Feed_all recs s n s' :
  err s = None -> Forall record_ok recs -> recs <> [] ->
  deliver_all onRecord record_enc recs 0 s = Some ((n, None), s') ->
  Feed (concat (record_enc <$> recs)) s = Some ((n, None), s').
Proof. intros He Hr Hne Hd. by rewrite Feed_records, Hd. Qed.

(** The server is fed the ClientHello. *)
Lemma feed_server_1 :
  exists n, Feed (out client1) (NewServerStateMachine (Some scfg) rs) = Some ((n, None), server1).
Proof.
  eexists. replace (out client1) with
    (concat (record_enc <$> [mkRecord recordHandshake 0x0303 (handshake_enc chH)]))
    by (cbn [fmap list_fmap concat]; apply app_nil_r).
  apply Feed_all; [done| |done|].
  - apply Forall_cons_2; [apply plain_record_ok; [apply chH_fits|by split]|constructor].
  - erewrite deliver_cons; [reflexivity|].
    apply onRecord_plain; [done|apply chH_fits|apply server_answer|done].
Qed.

(** The client is fed the server's flight. *)
Lemma feed_client_1 :
  exists n, Feed (out server1) (set_out [] client1) = Some ((n, None), client2).
Proof.
  destruct (run_pS_ok R) as [Hok0 Ha].
  pose proof (next_ok _ Hok0) as Hok1. pose proof (next_ok _ Hok1) as Hok2.
  pose proof (next_ok _ Hok2) as Hok3.
  eexists. apply Feed_all; [done|apply server_records_ok|done|]. unfold server_records.
  erewrite deliver_cons.
  2: { apply onRecord_plain; [done|apply shH_fits|apply client_server_hello|done]. }
  erewrite deliver_cons; [|apply onRecord_ccs].
  erewrite deliver_cons.
  2: { apply (onRecord_handshake eeH _ 1 pS aS
         (client_at StateWaitCertificate T3 (next pS) proto));
       [done|done|done|done|done|apply eeH_fits|apply client_ee|done]. }
  erewrite deliver_cons.
  2: { apply (onRecord_handshake certH _ 1 (next pS) aS
         (client_at StateWaitCertificateVerify T4 (next (next pS)) proto));
       [done|done|done|done|done|apply certH_fits|apply client_cert|done]. }
  erewrite deliver_cons.
  2: { apply (onRecord_handshake cvH _ 1 (next (next pS)) aS
         (client_at StateWaitServerFinished T5 (next (next (next pS))) proto));
       [done|done|done|done|done|apply cvH_fits|apply client_cv|done]. }
  erewrite deliver_cons.
  2: { apply (onRecord_handshake sFinH _ 1 (next (next (next pS))) aS
         client2);
       [done|done|done|done|done|apply finished_fits|apply client_finished|done]. }
  reflexivity.
Qed.

Definition server2 : StateMachine :=
  mkSM (Some scfg) false StateEstablished NewHandshakeParser
    (schedule T7 (Some hsSecret) (Some master)) (Some (mkKx ks (PublicKey_Bytes ks)))
    (Some (PublicKey_Bytes kc)) [iter_next 4 pS; next pC; pSA; pCA]
    (Some 2%nat) (Some 3%nat) (Some 0%nat) (Some 1%nat)
    (Some sHs) (Some cHs) (Some sAp) (Some cAp)
    [] [] (Some ch) None TLS_AES_128_GCM_SHA256 proto None rs3.

Lemma server_finished :
  onHandshake cFinH (set_protectors (<[1%nat:=next pC]> [iter_next 4 pS; pC]) (set_out [] server1)) =
  Some (None, server2).
Proof.
  change (onHandshake cFinH) with (onFinished (hs_Payload cFinH)).
  unfold onFinished, server1. ev. cbn [hs_Payload cFinH].
  match goal with |- context [transcript_sum ?t] => change t with T6 end.
  rewrite Z.eqb_refl, verifyDiff_refl. cbn [negb Z.eqb]. ev.
  erewrite bind_eq; [|apply (switch_eq _ sAp cAp pSA pCA); [done|done|apply (run_pSA R)|apply (run_pCA R)]].
  ev. done.
Qed.

(** The server is fed the client's Finished. *)
Lemma feed_server_2 :
  exists n, Feed (out client2) (set_out [] server1) = Some ((n, None), server2).
Proof.
  destruct (run_pC_ok R) as [Hok Ha].
  eexists. apply Feed_all; [done|apply client_records_ok|done|]. unfold client_records.
  erewrite deliver_cons; [|apply onRecord_ccs].
  erewrite deliver_cons.
  2: { apply (onRecord_handshake cFinH _ 1 pC aC
         server2);
       [done|done|done|done|done|apply finished_fits|apply server_finished|done]. }
  reflexivity.
Qed.

End Run.

(** ** Any client and any server *)

Section Agreement.
Context {C : Crypto} {L : CryptoLaws C}.

(** The two ends, each fed what the other puts out. *)
Definition handshake (ccfg scfg : Config) (rc rs : Rand) : option (StateMachine * StateMachine) :=
  match Start (NewClientStateMachine (Some ccfg) rc) with
  | Some (None, c) =>
      '(m1, c) ← TakeOutput c;
      match Feed m1 (NewServerStateMachine (Some scfg) rs) with
      | Some ((_, None), s) =>
          '(m2, s) ← TakeOutput s;
          match Feed m2 c with
          | Some ((_, None), c) =>
              '(m3, c) ← TakeOutput c;
              match Feed m3 s with
              | Some ((_, None), s) => Some (c, s)
              | _ => None
              end
          | _ => None
          end
      | _ => None
      end
  | _ => None
  end.

Lemma TakeOutput_eq s : TakeOutput s = Some (out s, set_out [] s).
Proof.
  unfold TakeOutput. rewrite (bind_eq _ _ s (out s) s) by done.
  destruct (Z.eqb_spec (zlen (out s)) 0) as [Hz|_]; [|done].
  apply zlen_zero in Hz. rewrite Hz. unfold mret, M_ret. do 2 f_equal. rewrite <- Hz. by destruct s.
Qed.

(** Random numbers, key pairs and signatures are delivered when asked for. *)
Record working (key : PrivateKey) : Prop := {
  w_read r : exists b r', Rand_Read 32 r = (inl b, r');
  w_key r : exists k r', X25519_GenerateKey r = (inl k, r');
  w_ecdh a b : exists z, ECDH a (PublicKey_Bytes b) = inl z;
  w_sign m r : exists sig r', signWithKey key m r = (inl sig, r') /\ zlen sig <= 4096;
}.

(** The server has a certificate with its key, and what the two configurations
    put into messages fits a record. *)
Record configs_ok (ccfg scfg : Config) (cert : Certificate) (key : PrivateKey) : Prop := {
  c_cert : head (Certificates scfg) = Some cert;
  c_key : cert_PrivateKey cert = Some key;
  c_ders : Forall bytes_ok (cert_Certificate cert);
  c_cert_len : zlen (certificateBody (cert_Certificate cert)) <= 16384;
  c_alpn : Forall alpn_ok (NextProtos ccfg);
  c_exts : zlen (bytes_of_string (ServerName ccfg)) + zlen (appendALPNList (NextProtos ccfg)) <= 16000;
}.

Lemma signature_ok key m r sig r' : signWithKey key m r = (inl sig, r') -> bytes_ok sig.
Proof.
  destruct key as [k|k|k|t]; cbn; intros H.
  - apply (ecdsa_ok k (Sum256 m) r). by rewrite H.
  - apply (rsa_ok k (Sum256 m) r). by rewrite H.
  - injection H as <- _. apply ed25519_ok.
  - done.
Qed.

Lemma client_exts_len ch ks : zlen ks = 32 ->
  zlen (clientExtensions ch ks) <=
  78 + zlen (bytes_of_string (ch_ServerName ch)) + zlen (appendALPNList (ch_ALPN ch)) + 13.
Proof.
  intros Hk. rewrite clientExtensions_eq. unfold client_exts. rewrite !fmap_app, !concat_app, !zlen_app.
  pose proof (zlen_nonneg (bytes_of_string (ch_ServerName ch))).
  pose proof (zlen_nonneg (appendALPNList (ch_ALPN ch))).
  assert (zlen (concat (ext_enc <$> [(extSupportedVersions, [2; 3; 4]);
    (extSupportedGroups, appendSupportedGroups); (extKeyShare, appendKeyShare ks);
    (extSignatureAlgorithms, appendSignatureAlgorithms)])) = 69) as ->.
  { cbn [fmap list_fmap concat]. rewrite !zlen_app, !zlen_ext_enc. cbn [snd].
    rewrite zlen_appendKeyShare, Hk. done. }
  assert (zlen (concat (ext_enc <$> (if negb (ch_ServerName ch =? "")%string
    then [(extServerName, appendServerName (ch_ServerName ch))] else []))) <=
    9 + zlen (bytes_of_string (ch_ServerName ch))).
  { destruct (negb _); [|change (zlen (concat _)) with 0; lia]. cbn [fmap list_fmap concat]. rewrite app_nil_r, zlen_ext_enc.
    cbn [snd]. rewrite zlen_appendServerName. lia. }
  assert (zlen (concat (ext_enc <$> (if 0 <? zlen (ch_ALPN ch)
    then [(extALPN, appendALPNList (ch_ALPN ch))] else []))) <=
    4 + zlen (appendALPNList (ch_ALPN ch))).
  { destruct (0 <? _); [|change (zlen (concat _)) with 0; lia]. cbn [fmap list_fmap concat]. rewrite app_nil_r, zlen_ext_enc.
    cbn [snd]. lia. }
  lia.
Qed.

(** C3: a client and a server that pass each other what they put out complete
    the TLS 1.3 handshake: both are established, with the same cipher suite and
    the protocol the server chose, no application data yet, and keys that match
    in both directions, each counting from record 0. *)
Theorem tls_handshake_agrees ccfg scfg cert key rc rs :
  configs_ok ccfg scfg cert key -> working key ->
  exists c s, handshake ccfg scfg rc rs = Some (c, s) /\ channel c s /\
    (exists p q, write_protector c = Some p /\ write_protector s = Some q /\
       rp_seq p = 0 /\ rp_seq q = 0) /\
    suite c = TLS_AES_128_GCM_SHA256 /\ suite s = TLS_AES_128_GCM_SHA256 /\
    negotiatedALPN c = negotiateALPN (NextProtos ccfg) (NextProtos scfg) /\
    negotiatedALPN s = negotiatedALPN c /\ plaintext c = [] /\ plaintext s = [].
Proof.
  intros Hc Hw.
  destruct (w_key key Hw rc) as (kc & rc1 & Hkc). destruct (w_read key Hw rc1) as (crandom & rc2 & Hcr).
  destruct (w_read key Hw rc2) as (sid & rc3 & Hsid).
  destruct (w_key key Hw rs) as (ks & rs1 & Hks). destruct (w_read key Hw rs1) as (srandom & rs2 & Hsr).
  destruct (w_ecdh key Hw ks kc) as (z & Hz).
  set (t4 := T4 ccfg scfg cert kc ks crandom sid srandom).
  destruct (w_sign key Hw (certificateVerifyInput false (transcript_sum t4)) rs2)
    as (sig & rs3 & Hsig & Hsl).
  destruct (new_protector (sHs ccfg kc ks crandom sid srandom z)) as (pS & HpS & HokS & HsS).
  destruct (new_protector (cHs ccfg kc ks crandom sid srandom z)) as (pC & HpC & HokC & HsC).
  destruct (new_protector (sAp ccfg scfg cert key kc ks crandom sid srandom sig z)) as (pSA & HpSA & HokSA & HsSA).
  destruct (new_protector (cAp ccfg scfg cert key kc ks crandom sid srandom sig z)) as (pCA & HpCA & HokCA & HsCA).
  pose proof HokS as ((aS & HaS & _) & _). pose proof HokC as ((aC & HaC & _) & _).
  assert (run_ok ccfg scfg cert key rc rc1 rc2 rc3 rs rs1 rs2 rs3 kc ks crandom sid srandom sig z
            pS pC pSA pCA aS aC) as R.
  { destruct Hc. split; try done; [split; [by eapply signature_ok|done]|].
    pose proof (client_exts_len (ch ccfg crandom sid) (PublicKey_Bytes kc) (proj2 (pub_ok kc))) as Hx.
    cbn [ch_ServerName ch_ALPN ch] in Hx. lia. }
  pose proof (start_run _ _ _ _ _ _ _ _ _ _ _ _ _ _ _ _ _ _ _ _ _ _ _ _ _ R) as H1.
  destruct (feed_server_1 _ _ _ _ _ _ _ _ _ _ _ _ _ _ _ _ _ _ _ _ _ _ _ _ _ R) as [n1 H2].
  destruct (feed_client_1 _ _ _ _ _ _ _ _ _ _ _ _ _ _ _ _ _ _ _ _ _ _ _ _ _ R) as [n2 H3].
  destruct (feed_server_2 _ _ _ _ _ _ _ _ _ _ _ _ _ _ _ _ _ _ _ _ _ _ _ _ _ R) as [n3 H4].
  eexists _, _. split.
  { unfold handshake. rewrite H1, TakeOutput_eq. cbn [mbind option_bind]. rewrite H2, TakeOutput_eq.
    cbn [mbind option_bind]. rewrite H3, TakeOutput_eq. cbn [mbind option_bind]. rewrite H4.
    reflexivity. }
  split; [|split; [|done]].
  - split; [by split|]. split; [by split|]. split.
    + by exists pCA.
    + by exists pSA.
  - by exists pCA, pSA.
Qed.
End Agreement.
