(* ===== verification/TlsToy.v ===== *)
(** * TlsToy

    A computable instance of [Crypto] that satisfies [CryptoLaws]: the
    hypotheses on [crypto/*] are consistent, and whole handshakes can be
    evaluated.  It keeps no secret. *)

From S2P Require Import Prelude Pump GoStd TlsRecord TlsHello TlsHelloFacts TlsKeys TlsKeysFacts.
From S2P Require Import TlsSign TlsState TlsSafe TlsStream TlsChannel TlsSignFacts TlsHandshake.

(** Thirty-two bytes of a polynomial in the input. *)
Fixpoint toy_digits (k : nat) (x : Z) : bytes :=
  match k with O => [] | S k => u8 x :: toy_digits k ((x * 13 + 7) mod 65536) end.
Definition toy_hash (b : bytes) : bytes :=
  toy_digits 32 (fold_left (fun h x => (h * 31 + x + 1) mod 65536) b 5381).

Lemma toy_digits_ok k : forall x, bytes_ok (toy_digits k x) /\ length (toy_digits k x) = k.
Proof.
  induction k as [|k IH]; intros x; [split; [constructor|done]|]. destruct (IH ((x * 13 + 7) mod 65536)) as [H1 H2].
  split; [apply bytes_ok_cons; [apply u8_byte|done]|]. cbn [toy_digits length]. by rewrite H2.
Qed.
Lemma toy_hash_ok b : bytes_ok (toy_hash b) /\ zlen (toy_hash b) = 32.
Proof. destruct (toy_digits_ok 32 (fold_left (fun h x => (h * 31 + x + 1) mod 65536) b 5381)) as [H1 H2].
  split; [exact H1|]. unfold zlen, toy_hash. by rewrite H2. Qed.

Definition toy_tag (k n ad p : bytes) : bytes := upto 16 (toy_hash (k ++ n ++ ad ++ p)).

Definition toy_cipher (k : bytes) : bytes + error :=
  if (zlen k =? 16) || (zlen k =? 24) || (zlen k =? 32) then inl k
  else inr (errorsNew "crypto/aes: invalid key size").

Definition toy_open (k n c ad : bytes) : bytes + error :=
  let p := upto (zlen c - 16) c in
  if bool_decide (from (zlen c - 16) c = toy_tag k n ad p) then inl p
  else inr (errorsNew "cipher: message authentication failed").

#[export] Instance toy : Crypto := {|
  Block := bytes; AEAD := bytes; Rand := Z; EcdhKey := Z;
  EcdsaKey := Z; EcdsaPub := Z; RsaKey := Z; RsaPub := Z; X509 := bytes;
  Sum256 := toy_hash;
  HMAC k m := toy_hash (k ++ 256 :: m);
  NewCipher := toy_cipher;
  NewGCM k := inl k;
  Overhead _ := 16;
  NonceSize _ := 12;
  AEAD_Seal k n p ad := p ++ toy_tag k n ad p;
  AEAD_Open := toy_open;
  Rand_Read n r := (inl (replicate (Z.to_nat n) (u8 r)), r + 1);
  X25519_GenerateKey r := (inl r, r + 1);
  PublicKey_Bytes k := replicate 32 (u8 k);
  X25519_NewPublicKey b :=
    if zlen b =? 32 then None else Some (errorsNew "crypto/ecdh: invalid public key");
  ECDH k b := inl (Z.lxor (u8 k) <$> b);
  Ecdsa_SignASN1 k d r := (inl (toy_hash (k :: d)), r);
  Rsa_SignPSS k d r := (inl (toy_hash (k :: 1 :: d)), r);
  Ed25519_Sign k m := toy_hash (k ++ m);
  Ecdsa_VerifyASN1 k d s := bool_decide (s = toy_hash (k :: d));
  Rsa_VerifyPSS k d s :=
    if bool_decide (s = toy_hash (k :: 1 :: d)) then None
    else Some (errorsNew "crypto/rsa: verification error");
  Ed25519_Verify k m s := bool_decide (s = toy_hash (k ++ m));
  Ecdsa_Public k := k; Rsa_Public k := k; Ed25519_Public k := k;
  ParseX509 der := if zlen der =? 0 then inr (errorsNew "x509: malformed certificate") else inl der;
|}.

#[export] Instance toy_laws : CryptoLaws toy.
Proof.
  split; cbn -[toy_hash replicate].
  - apply toy_hash_ok.
  - intros k m. apply toy_hash_ok.
  - intros k Hk. exists k, k. unfold toy_cipher. by rewrite Hk.
  - done.
  - intros a n p ad Hp. destruct (toy_hash_ok (a ++ n ++ ad ++ p)) as [H1 H2].
    split; [apply bytes_ok_app_2; [done|by apply bytes_ok_upto]|].
    unfold toy_tag. rewrite zlen_app, zlen_upto by lia. lia.
  - intros a n p ad Hn. unfold toy_open, toy_tag.
    destruct (toy_hash_ok (a ++ n ++ ad ++ p)) as [_ H2]. set (t := upto 16 (toy_hash _)).
    assert (zlen t = 16) as Ht by (unfold t; rewrite zlen_upto; lia).
    rewrite zlen_app, Ht. replace (zlen p + 16 - 16) with (zlen p) by lia.
    rewrite upto_app_length, from_app_length. by rewrite bool_decide_eq_true_2.
  - intros a n c ad p Hc. unfold toy_open. destruct (bool_decide _); [|done].
    intros [= <-]. auto with go.
  - intros n r b Hn [= <-]. split.
    + apply Forall_replicate. apply u8_byte.
    + unfold zlen. rewrite length_replicate. lia.
  - intros k. split; [|done]. apply Forall_replicate, u8_byte.
  - done.
  - intros a b. f_equal. cbn. by rewrite Z.lxor_comm.
  - intros k d _ s [= <-]. apply toy_hash_ok.
  - intros k d _ s [= <-]. apply toy_hash_ok.
  - intros k m. apply toy_hash_ok.
  - intros k d _ s [= <-]. by apply bool_decide_eq_true_2.
  - intros k d _ s [= <-]. by rewrite bool_decide_eq_true_2.
  - intros k m. by apply bool_decide_eq_true_2.
Qed.

(** ** Witnesses *)

Definition toy_key : PrivateKey := EcdsaPrivate (C := toy) 77.
Definition toy_cert : Certificate := mkCertificate [[48; 1; 2; 3]] (Some toy_key).
Definition toy_scfg : Config := mkConfig [toy_cert] "" ["h2"; "http/1.1"]%string.
Definition toy_ccfg : Config := mkConfig [] "example.com" ["http/1.1"; "h2"]%string.

Lemma toy_configs : configs_ok toy_ccfg toy_scfg toy_cert toy_key.
Proof.
  split; try done.
  - repeat constructor; done.
  - repeat constructor; done.
Qed.

Lemma toy_working : working toy_key.
Proof.
  split; cbn -[toy_hash replicate]; eauto. intros m r. do 2 eexists. split; [done|].
  rewrite (proj2 (toy_hash_ok _)). done.
Qed.

Lemma tls_handshake_agrees_witness :
  exists c s, handshake toy_ccfg toy_scfg 1 100 = Some (c, s) /\ channel c s /\
    negotiatedALPN c = "h2"%string.
Proof.
  destruct (tls_handshake_agrees toy_ccfg toy_scfg toy_cert toy_key 1 100 toy_configs toy_working)
    as (c & s & H & Hc & _ & _ & _ & Ha & _).
  exists c, s. split; [exact H|]. split; [exact Hc|]. rewrite Ha. vm_compute. reflexivity.
Defined.

(** Two ends that share two protectors, one in each direction. *)
Definition toy_protector (k : Z) : recordProtector :=
  mkProtector (C := toy) (Some (replicate 16 k)) (replicate 12 k) 7.
Definition toy_end (w r : nat) : StateMachine :=
  set_state StateEstablished (set_rwKeys (Some w) (Some r)
    (set_protectors [toy_protector 3; toy_protector 4] (NewServerStateMachine None 0))).

Lemma toy_protector_ok k : is_byte k -> protector_ok (toy_protector k).
Proof.
  intros Hk. split; [by eexists|]. split; [by apply Forall_replicate|].
  unfold zlen. cbn. split; [done|lia].
Qed.

Lemma toy_channel : channel (toy_end 0 1) (toy_end 1 0).
Proof.
  split; [by split|]. split; [by split|].
  split; eexists; (split; [reflexivity|]; split; [reflexivity|]); by apply toy_protector_ok.
Qed.

Lemma tls_conversation_witness :
  exists x y, converse [(true, [1; 2; 3]); (false, [4]); (true, [5; 6])] (toy_end 0 1) (toy_end 1 0)
    = Some (x, y) /\ plaintext y = [1; 2; 3; 5; 6] /\ plaintext x = [4].
Proof.
  destruct (tls_conversation [(true, [1; 2; 3]); (false, [4]); (true, [5; 6])] (toy_end 0 1)
    (toy_end 1 0)) as (x & y & H & _ & Hy & Hx).
  - exact toy_channel.
  - apply (bool_decide_unpack _). vm_compute. reflexivity.
  - eexists. split; [reflexivity|]. vm_compute. reflexivity.
  - eexists. split; [reflexivity|]. vm_compute. reflexivity.
  - exists x, y. split; [exact H|]. rewrite Hy, Hx. split; reflexivity.
Defined.

Lemma tls_nonces_distinct_witness :
  exists l q, seal_run [(23, [1; 2]); (22, []); (23, [1; 2])] (toy_protector 3) = Some (l, q) /\
    NoDup l.*1 /\ length l = 3%nat.
Proof.
  destruct (tls_nonces_distinct [(23, [1; 2]); (22, []); (23, [1; 2])] (toy_protector 3))
    as (l & q & H & Hn & Hl); [apply toy_protector_ok; split; [discriminate|reflexivity]|].
  exists l, q. split; [exact H|]. split; [exact Hn|]. rewrite Hl.
  change (rp_seq (toy_protector 3)) with 7. cbn [length]. lia.
Defined.

Lemma tls_hkdf_expand_rfc5869_witness :
  0 <= 40 <= 255 * 32 /\ zlen (hkdfExpand (C := toy) [1] [2] 40) = 40.
Proof. split; [lia|]. apply (tls_hkdf_expand_rfc5869 (C := toy) [1] [2] 40). lia. Defined.

(** A ClientHello, in pieces, on a new server. *)
Definition toy_started : StateMachine :=
  match Start (NewClientStateMachine (Some toy_ccfg) 1) with
  | Some (_, s) => s
  | None => NewClientStateMachine None 0
  end.
Definition toy_server : StateMachine := NewServerStateMachine (Some toy_scfg) 100.
Definition toy_pieces : list bytes :=
  [upto 3 (out toy_started); upto 20 (from 3 (out toy_started)); []; from 23 (out toy_started)].

Lemma tls_feed_any_cut_witness :
  exists s', tls_reads [] toy_pieces toy_server = Some (([], None), s') /\
    state s' = StateWaitFinished.
Proof.
  assert (match Feed (concat toy_pieces) toy_server with
          | Some ((n, None), s') => from n (concat toy_pieces) = [] /\ err s' = None /\
              state s' = StateWaitFinished
          | _ => False
          end) as H by (vm_compute; repeat split).
  destruct (Feed (concat toy_pieces) toy_server) as [[[n [e|]] s']|] eqn:E; [destruct H| |destruct H].
  destruct H as (Hn & He & Hs). exists s'. split; [|exact Hs]. replace (@nil Z, @None error) with (from n (concat toy_pieces), @None error) by (rewrite Hn; reflexivity).
  apply tls_feed_any_cut; [|reflexivity|exact E|exact He].
  apply (bool_decide_unpack _). vm_compute. reflexivity.
Defined.

Lemma toy_started_run : Start (NewClientStateMachine (Some toy_ccfg) 1) = Some (None, toy_started).
Proof.
  unfold toy_started.
  assert (match Start (NewClientStateMachine (Some toy_ccfg) 1) with
          | Some (None, _) => True | _ => False end) as H by (vm_compute; exact I).
  destruct (Start _) as [[[e|] s]|]; [destruct H|reflexivity|destruct H].
Qed.

Lemma tls_no_panic_witness :
  exists n e s', Feed [22; 3; 3; 0; 4; 20; 0; 0; 0] toy_started = Some ((n, e), s') /\ 0 <= n <= 9.
Proof.
  destruct (tls_no_panic toy_started [22; 3; 3; 0; 4; 20; 0; 0; 0]) as [(n & e & s' & H & Hn) _].
  - apply (reach_client (Some toy_ccfg) 1). exact toy_started_run.
  - apply (bool_decide_unpack _). vm_compute. reflexivity.
  - exists n, e, s'. split; [exact H|exact Hn].
Defined.

(** The server's own messages, read back. *)
Lemma tls_certificate_messages_witness :
  exists sig, parseCertificate (certificateBody [[48; 1; 2; 3]]) tt = Some (inl [[48; 1; 2; 3]], tt) /\
    verifyWithKey (publicOf toy_key)
      (certificateVerifyInput false (transcript_sum (transcript (keys toy_server)))) sig
      (signatureAlgorithm toy_key) = None.
Proof.
  assert (exists cm, serverCertificate toy_server = Some (inl cm, toy_server)) as [cm E1]
    by (eexists; reflexivity).
  assert (match certificateVerify toy_server with Some (inl _, _) => True | _ => False end) as H
    by (vm_compute; exact I).
  destruct (certificateVerify toy_server) as [[[cv|] s2]|] eqn:E2; [|destruct H..].
  destruct (tls_certificate_messages toy_cert toy_key toy_server [[48; 1; 2; 3]] cm cv s2)
    as (sig & _ & Hp & _ & _ & Hv); try exact E1; try exact E2; try reflexivity.
  - repeat constructor.
  - discriminate.
  - repeat constructor.
  - exists sig. split; [exact Hp|exact Hv].
Defined.
