(* ===== verification/TlsFindings.v ===== *)
(** * TlsFindings

    Where the TLS layer does less than its comments, or RFC 8446, ask for.
    The first facts hold of every machine, the last ones are evaluated with
    the instance of [TlsToy]. *)

From S2P Require Import Prelude Pump LenPrefix GoStd TlsRecord TlsHello TlsHelloFacts TlsKeys.
From S2P Require Import TlsKeysFacts TlsSign TlsState TlsSafe TlsChannel TlsHandshake TlsToy.

Section General.
Context {C : Crypto} {L : CryptoLaws C}.

(** [Feed] keeps no bytes of an incomplete record, whatever its comment says:
    it consumes none of them and does not change. *)
Lemma feed_keeps_nothing s data :
  bytes_ok data -> err s = None -> cut_record data = CutMore -> Feed data s = Some ((0, None), s).
Proof.
  intros Hd He Hc. unfold Feed. rewrite (bind_eq _ _ s (err s) s) by done. rewrite He.
  destruct (_ =? 0); [done|]. unfold mbind, M_bind. rewrite record_parse_run by done.
  unfold run, fuel_for. by rewrite pump_S, Hc.
Qed.

(** Application data is accepted as soon as there are keys: nothing asks for
    the Finished of the peer first. *)
Lemma data_before_finished s j p a m :
  readKeys s = Some j -> protectors s !! j = Some p -> protector_ok p -> rp_aead p = Some a ->
  bytes_ok m ->
  exists s', onRecord (mkRecord recordApplicationData 0x0303 (sealed p a recordApplicationData m)) s
    = Some (None, s') /\ plaintext s' = plaintext s ++ m /\ state s' = state s.
Proof.
  intros Hr Hp Hok Ha Hm. rewrite (onRecord_sealed s j p a recordApplicationData m) by (done || by split).
  eexists. split; [reflexivity|]. done.
Qed.

(** A handshake message in the clear is accepted after the keys are there, and
    even when the handshake is over: EncryptedExtensions that nobody
    authenticated replace the protocol of a client. *)
Lemma plaintext_alpn s p :
  isClient s = true -> handshakes s = NewHandshakeParser -> alpn_ok p ->
  exists s', onRecord (mkRecord recordHandshake 0x0303
      (handshake_enc (mkHandshake hsEncryptedExtensions (appendALPNServerExtension p)))) s
    = Some (None, s') /\ negotiatedALPN s' = p.
Proof.
  intros Hc Hh Hp. set (h := mkHandshake _ _).
  assert (handshake_ok h) as Hok.
  { split; [by split|]. split; [apply alpn_extension_bytes|]. unfold alpn_ok in Hp.
    change (zlen (appendALPNServerExtension p) <= 1048576). unfold appendALPNServerExtension.
    rewrite zlen_app. change (zlen [_; _]) with 2. destruct (negb _); [|done].
    rewrite appendExtension_eq, app_nil_l, zlen_ext_enc. cbn [snd].
    rewrite appendALPNList_eq, zlen_app. cbn [fmap list_fmap concat]. rewrite app_nil_r.
    unfold alpn_enc. rewrite zlen_cons, zlen_put16. lia. }
  assert (onHandshake h s = passMessage h StateWaitEncryptedExtensions StateWaitCertificate (set_alpn p s)) as Hon.
  { unfold onHandshake. change (hs_Type h) with hsEncryptedExtensions.
    change (hsEncryptedExtensions =? hsClientHello) with false.
    change (hsEncryptedExtensions =? hsServerHello) with false.
    change (hsEncryptedExtensions =? hsEncryptedExtensions) with true. cbv iota.
    rewrite (bind_eq _ _ s true s) by (unfold gets; by rewrite Hc). cbv iota.
    change (hs_Payload h) with (appendALPNServerExtension p).
    rewrite (bind_eq _ _ s tt (set_alpn p s)); [done|].
    by rewrite (bind_eq _ _ _ _ _ (parse_alpn_extension p s Hp)). }
  unfold passMessage, transcribe in Hon.
  destruct (bool_decide (state s = StateWaitEncryptedExtensions)) eqn:Est;
    (eexists; split; [apply onRecord_plain; [done|done| |]; [rewrite Hon|];
      [unfold mbind, M_bind, gets, modify, mret, M_ret; cbn [state set_alpn set_keys];
       rewrite Est; reflexivity|done]|done]).
Qed.

(** A message that does not fit a record is put into one anyway: the peer
    refuses the record ([serverCertificate] with a long chain). *)
Lemma oversized_record p a t m x :
  protector_ok p -> rp_aead p = Some a -> is_byte t -> bytes_ok m ->
  maxCiphertextLen - 17 < zlen m < 2 ^ 16 - 17 ->
  exists e, cut_record (record_enc (mkRecord recordApplicationData 0x0303 (sealed p a t m)) ++ x) = CutBad e.
Proof.
  intros Hp Ha Ht Hm Hl. destruct (sealed_ok p a t m Hp Ha Ht Hm) as [Hb Hz].
  change maxCiphertextLen with 16640 in *. set (c := sealed p a t m) in *.
  unfold cut_record, cut_prefixed, record_enc, AppendRecord. cbn [Type_ Version Payload].
  rewrite app_nil_l, <- app_assoc. set (head := [_; _; _; _; _]).
  pose proof (zlen_nonneg x). rewrite !zlen_app. change (zlen head) with 5. change recordHeaderLen with 5.
  replace (_ <? 5) with false by lia. change 5 with (zlen head) at 1 2. rewrite upto_app_length.
  unfold record_bad. assert (record_len head = zlen c) as Hlen.
  { change (record_len head) with (be16 (u8 (zlen c >> 8)) (u8 (zlen c))). apply be16_put. lia. }
  rewrite Hlen. change maxCiphertextLen with 16640. replace (_ >? _) with true by lia. by eexists.
Qed.
End General.

(** ** A server without a certificate *)

(** What such a server does with a ClientHello: it names a suite the client
    cannot use, sends no Certificate and no CertificateVerify. *)
Definition rogue (payload : bytes) : M StateMachine (option error) :=
  acceptClientHello payload (fun ch ks =>
    modify (set_suite TLS_AES_256_GCM_SHA384) ;;
    try sendServerHello ch ks;
    sendAndTranscribe (AppendHandshake [] hsEncryptedExtensions (appendALPNServerExtension "h2")) ;;
    fin ← finishedMessage false;
    sendAndTranscribe fin ;;
    cacheApplicationSecrets).

(** The client that talks to it, after everything it sent. *)
Definition deceived : option StateMachine :=
  match rogue (from 9 (out toy_started)) (NewServerStateMachine (Some (mkConfig [] "" [])) 100) with
  | Some (None, s) =>
      match Feed (out s) (set_out [] toy_started) with
      | Some ((_, None), c) => Some c
      | _ => None
      end
  | _ => None
  end.

(** The handshake of the client ends as if the server had proved who it is;
    the suite it reports is not the one its keys are made for. *)
Lemma client_authenticates_nobody :
  (fun c => (state c, suite c, negotiatedALPN c)) <$> deceived =
  Some (StateEstablished, TLS_AES_256_GCM_SHA384, "h2"%string).
Proof. vm_compute. reflexivity. Qed.

(** ** A second ClientHello *)

(** A server that is established, and receives a ClientHello in the clear, is
    thrown back into the handshake. *)
Definition restarted :=
  match handshake toy_ccfg toy_scfg 1 100 with
  | Some (_, s) =>
      match Feed (out toy_started) s with
      | Some ((_, None), s') => Some (state s, state s')
      | _ => None
      end
  | None => None
  end.

Lemma established_server_restarts : restarted = Some (StateEstablished, StateWaitFinished).
Proof. vm_compute. reflexivity. Qed.
