(* ===== verification/TlsEngine.v ===== *)
(** * TlsEngine

    [tls/engine.go]: TLS between the event loop and a protocol.  The adapter is
    a [Handler] of the engine; the protocol inside it is one too, and works on
    the same connection: what it writes passes through a write hook, which
    encrypts it.  The state of the inner protocol is a part of the adapter's
    state, like the state machine. *)

From S2P Require Import Prelude Pump GoStd TlsRecord TlsHello TlsKeys TlsSign TlsState.
From S2P Require Import Sock EngConn.

(** [tls.ConnHandler].  [tc_rand] is the randomness that the next state machine
    will draw from. *)
Record TlsConn `{Crypto} {I : Type} : Type := mkTlsConn {
  tc_sm : option StateMachine;
  tc_handshakeDone : bool;
  tc_inner : I;
  tc_rand : Rand;
}.
Arguments TlsConn {_} I.
Arguments mkTlsConn {_ _}.

Section Adapter.
Context `{EngLib} {C : Crypto} {I : Type}.
Notation EConn := (EngConn.Conn (TlsConn I)).
Notation go A := (M EConn A).
(** An error of [tls] as a value of the interface [error]. *)
Context (proto : error -> ProtoError).
(** The closure that [OnOpen] installs. *)
Context (hook : HookId).

(** The protocol inside, with the method [TakeOutput] if it has one. *)
Record Inner : Type := mkInner {
  in_handler : Handler (TlsConn I);
  in_take : option (go bytes);
}.
Context (config : option Config) (isClient : bool) (inner : option Inner).

Definition set_sm (x : option StateMachine) (t : TlsConn I) : TlsConn I :=
  mkTlsConn x (tc_handshakeDone t) (tc_inner t) (tc_rand t).
Definition set_handshakeDone (x : bool) (t : TlsConn I) : TlsConn I :=
  mkTlsConn (tc_sm t) x (tc_inner t) (tc_rand t).
Definition set_inner (x : I) (t : TlsConn I) : TlsConn I :=
  mkTlsConn (tc_sm t) (tc_handshakeDone t) x (tc_rand t).
Definition set_tc_rand (x : Rand) (t : TlsConn I) : TlsConn I :=
  mkTlsConn (tc_sm t) (tc_handshakeDone t) (tc_inner t) x.
Definition on_tls (f : TlsConn I -> TlsConn I) : go unit :=
  modify (fun c => set_hstate (f (hstate c)) c).

(** A method call on [ch.sm]; the pointer may be nil. *)
Definition on_sm {A} (m : M StateMachine A) : go A :=
  t ← gets hstate;
  match tc_sm t with
  | None => panic
  | Some s =>
      match m s with
      | None => panic
      | Some (a, s') => on_tls (set_sm (Some s')) ;; mret a
      end
  end.

(** [ch.sm == nil || !ch.sm.Established()] *)
Definition not_established (t : TlsConn I) : bool :=
  match tc_sm t with None => true | Some s => negb (Established s) end.

(** What the hook and [writePlain] share: the records go out beside the hook. *)
Definition write_sealed (plain : bytes) : go (option eerror) :=
  r ← on_sm (TlsState.Write plain);
  let '(ct, err) := r in
  match err with
  | Some e => mret (Some (Proto (proto e)))
  | None => if 0 <? zlen ct then WriteRaw ct else mret None
  end.

(** The closure of [OnOpen]. *)
Definition write_hook (plain : bytes) : go (option eerror) :=
  no ← gets (fun c => not_established (hstate c));
  if (no : bool) then mret None else write_sealed plain.
Definition run_hook (_ : HookId) : bytes -> go (option eerror) := write_hook.

Definition flush : go unit :=
  out ← on_sm TakeOutput;
  if 0 <? zlen out then WriteRaw out ;; mret tt else mret tt.

Definition flushInner : go unit :=
  match inner ≫= in_take with
  | None => mret tt
  | Some take =>
      plain ← take;
      if 0 <? zlen plain then EngConn.Write run_hook plain ;; mret tt else mret tt
  end.

(** The rest of the randomness is kept for the next machine. *)
Definition ConnHandler_OnClose (err : option eerror) : go unit :=
  (match inner with Some i => OnClose (in_handler i) err | None => mret tt end) ;;
  on_tls (fun t => set_sm None (match tc_sm t with
                                | Some s => set_tc_rand (rand s) t
                                | None => t end)).

(** [c.Close()]; of the handler it only calls [OnClose]. *)
Definition close_conn : go unit :=
  Close (Some (mkHandler _ (mret tt) (fun _ => panic) ConnHandler_OnClose)) ;; mret tt.

Definition ConnHandler_OnOpen : go unit :=
  r ← gets (fun c => tc_rand (hstate c));
  failed ←
    (if isClient then
       on_tls (set_sm (Some (NewClientStateMachine config r))) ;;
       e ← on_sm Start;
       match e with
       | Some _ => close_conn ;; mret true
       | None => flush ;; mret false
       end
     else on_tls (set_sm (Some (NewServerStateMachine config r))) ;; mret false);
  if (failed : bool) then mret tt else SetWriteHook (Some hook).

(** The end of the handshake: the inner protocol learns of the connection. *)
Definition open_inner : go unit :=
  est ← on_sm (gets Established);
  t ← gets hstate;
  if (est : bool) && negb (tc_handshakeDone t) then
    on_tls (set_handshakeDone true) ;;
    match inner with
    | Some i => OnOpen (in_handler i) ;; flushInner
    | None => mret tt
    end
  else mret tt.

(** Plaintext for the inner protocol; the number of bytes it took is not used. *)
Definition data_inner : go (option eerror) :=
  plain ← on_sm ReadPlaintext;
  match inner with
  | Some i =>
      if 0 <? zlen plain then
        r ← OnData (in_handler i) plain;
        flushInner ;;
        mret (snd r)
      else mret None
  | None => mret None
  end.

Definition ConnHandler_OnData (buf : bytes) : go (Z * option eerror) :=
  t ← gets hstate;
  (match tc_sm t with None => ConnHandler_OnOpen | Some _ => mret tt end) ;;
  r ← on_sm (Feed buf);
  let '(consumed, e) := r in
  match e with
  | Some e => mret (consumed, Some (Proto (proto e)))
  | None =>
      flush ;;
      e ← on_sm (gets err);
      match e with
      | Some e => mret (consumed, Some (Proto (proto e)))
      | None =>
          open_inner ;;
          innerErr ← data_inner;
          match innerErr with
          | Some e => mret (consumed, Some e)
          | None => mret (consumed, None)
          end
      end
  end.

Definition tls : Handler (TlsConn I) :=
  mkHandler _ ConnHandler_OnOpen ConnHandler_OnData ConnHandler_OnClose.

(** For the user. *)
Definition State : go HandshakeState :=
  gets (fun c => match tc_sm (hstate c) with Some s => state s | None => StateStart end).
Definition HandshakeDone : go bool := gets (fun c => negb (not_established (hstate c))).
Definition CipherSuite : go Z :=
  gets (fun c => match tc_sm (hstate c) with Some s => suite s | None => 0 end).
Definition ALPN : go string :=
  gets (fun c => match tc_sm (hstate c) with Some s => negotiatedALPN s | None => ""%string end).
Definition writePlain (plain : bytes) : go (option eerror) :=
  no ← gets (fun c => not_established (hstate c));
  if (no : bool) then mret (Some (Proto (proto ErrHandshakeIncomplete))) else write_sealed plain.
Definition WritePlain (plain : bytes) : go (option eerror) := writePlain plain.
End Adapter.

Definition NewConnHandler `{Crypto} {I} (i : I) (r : Rand) : TlsConn I := mkTlsConn None false i r.
