(* ===== verification/TlsStack.v ===== *)
(** * TlsStack

    The event loop of [engine], TLS, and a protocol inside.  The connection is
    a tunnel: the bytes taken from the network are the input of the TLS state
    machine, the bytes written are its output and the records of what the inner
    protocol wrote, and the inner protocol is given the plaintext in order. *)

From S2P Require Import Prelude Pump GoStd TlsRecord TlsHello TlsKeys TlsKeysFacts TlsSign TlsState TlsSafe.
From S2P Require Import Sock EngConn EngLoop EngEvents EngServe TlsEngine.

(** ** The tunnel *)

Section Tunnel.
Context {C : Crypto} (config : option Config) (isClient : bool) (r0 : Rand).

(** What the write hook does with [plain]: nothing before the handshake is over,
    records after it; at the limit of the record number the records made so far
    are thrown away.  [g] is what has been written to the connection. *)
Definition hook_step (s : StateMachine) (g plain : bytes) (s' : StateMachine) (g' : bytes) : Prop :=
  (Established s = false /\ s' = s /\ g' = g) \/
  (Established s = true /\ exists ct e, TlsState.Write plain s = Some ((ct, e), s') /\
     g' = g ++ match e with None => ct | Some _ => [] end).

(** A state machine that has taken [t] from the network and given [g] to it;
    [i] is the plaintext read from it, [o] what the inner protocol wrote. *)
Inductive tunnel : StateMachine -> bytes -> bytes -> bytes -> bytes -> Prop :=
  | tun_server : isClient = false -> tunnel (NewServerStateMachine config r0) [] [] [] []
  | tun_client s : isClient = true -> Start (NewClientStateMachine config r0) = Some (None, s) ->
      tunnel s [] [] [] []
  | tun_feed s t g i o data n s' : tunnel s t g i o -> bytes_ok data ->
      Feed data s = Some ((n, None), s') -> tunnel s' (t ++ upto n data) g i o
  | tun_take s t g i o out s' : tunnel s t g i o -> TakeOutput s = Some (out, s') ->
      tunnel s' t (g ++ out) i o
  | tun_read s t g i o p s' : tunnel s t g i o -> ReadPlaintext s = Some (p, s') ->
      tunnel s' t g (i ++ p) o
  | tun_hook s t g i o plain s' g' : tunnel s t g i o -> hook_step s g plain s' g' ->
      tunnel s' t g' i (o ++ plain).

(** Several writes of the inner protocol. *)
Inductive inner_writes (s : StateMachine) (g : bytes) : bytes -> StateMachine -> bytes -> Prop :=
  | iw_nil : inner_writes s g [] s g
  | iw_step o s1 g1 plain s2 g2 : inner_writes s g o s1 g1 -> hook_step s1 g1 plain s2 g2 ->
      inner_writes s g (o ++ plain) s2 g2.

Lemma tunnel_writes s t g i o p s' g' :
  tunnel s t g i o -> inner_writes s g p s' g' -> tunnel s' t g' i (o ++ p).
Proof.
  intros Ht Hw. induction Hw as [|p s1 g1 plain s2 g2 _ IH Hh]; [by rewrite app_nil_r|].
  rewrite app_assoc. by eapply tun_hook.
Qed.

Lemma inner_writes_one s g plain s' g' : hook_step s g plain s' g' -> inner_writes s g plain s' g'.
Proof. intros Hh. apply (iw_step _ _ [] s g); [constructor|done]. Qed.
End Tunnel.

Section Stack.
Context `{EngLib} `{!EngLaws} {C : Crypto} {L : CryptoLaws C} {I : Type}.
Notation EConn := (EngConn.Conn (TlsConn I)).
Notation go A := (M EConn A).
Context (proto : error -> ProtoError) (hook : HookId).
Context (config : option Config) (isClient : bool) (inner : Inner (I := I)).
Context (i0 : I) (r0 : Rand).
(** The randomness for a client does not run out. *)
Context (starts : isClient = true ->
  forall r, exists s, Start (NewClientStateMachine config r) = Some (None, s)).
(** What the inner protocol wants of its state, and what it promises: whether
    it has been opened, its state, the plaintext it was given and wrote. *)
Context (inner_ok : I -> Prop) (RelI : bool -> I -> bytes -> bytes -> Prop).
Notation run_hook := (run_hook proto).

Definition tls_ok (t : TlsConn I) : Prop :=
  match tc_sm t with Some s => TlsSafe.Inv s | None => True end /\ inner_ok (tc_inner t).
Notation Einv := (Einv tls_ok).
Notation opened c := (is_Some (tc_sm (hstate c))).

(** The inner protocol passed [o] to the hook, and did nothing else to the
    connection. *)
Definition wrote_by (c c' : EConn) (o : bytes) : Prop :=
  exists s s', tc_sm (hstate c) = Some s /\ tc_sm (hstate c') = Some s' /\
    inner_writes s (written c) o s' (written c') /\
    tc_handshakeDone (hstate c') = tc_handshakeDone (hstate c) /\ writeHookFn c' = writeHookFn c.

(** ** The contract of the inner protocol *)

(** It takes all of the plaintext it is given, since the adapter throws away
    what it does not take; opening it does not close the connection. *)
Class InnerOk : Prop := {
  in_close_ok err c : Einv c ->
    wp (OnClose (in_handler inner) err) (fun _ c' => Einv c' /\ estep c c') c;
  in_open_ok c : Einv c -> opened c ->
    wp (OnOpen (in_handler inner)) (fun _ c' => Einv c' /\ estep c c' /\ opened c' /\
      forall pin pout, closed c' = false -> writeHookFn c = Some hook ->
        RelI false (tc_inner (hstate c)) pin pout ->
        exists o, wrote_by c c' o /\ RelI true (tc_inner (hstate c')) pin (pout ++ o)) c;
  in_data_ok plain c : Einv c -> bytes_ok plain -> opened c ->
    wp (OnData (in_handler inner) plain) (fun r c' => Einv c' /\ estep c c' /\
      forall b pin pout, closed c' = false -> snd r = None -> writeHookFn c = Some hook ->
        RelI b (tc_inner (hstate c)) pin pout ->
        exists o, wrote_by c c' o /\ RelI b (tc_inner (hstate c')) (pin ++ plain) (pout ++ o)) c;
  in_take_ok take c : in_take inner = Some take -> Einv c ->
    wp take (fun p c' => Einv c' /\ estep c c' /\ (opened c -> opened c') /\
      forall b pin pout, closed c' = false -> opened c -> RelI b (tc_inner (hstate c)) pin pout ->
        wrote_by c c' [] /\ RelI b (tc_inner (hstate c')) pin (pout ++ p)) c;
}.
Context `{!InnerOk}.

(** ** Calls of the state machine *)

Lemma on_sm_ok {A} (m : M StateMachine A) s a s' (c : EConn) :
  tc_sm (hstate c) = Some s -> m s = Some (a, s') -> TlsSafe.Inv s' -> Einv c ->
  wp (on_sm m) (fun b c' => b = a /\ c' = set_hstate (set_sm (Some s') (hstate c)) c /\
    Einv c' /\ estep c c') c.
Proof.
  intros Hs Hm Hi Hc. unfold on_sm, on_tls. wp_steps. rewrite Hs, Hm. wp_steps.
  split; [done|]. split; [done|]. apply Einv_set_hstate; [done|].
  split; [done|]. exact (proj2 (bi_app _ _ (ei_base _ _ Hc))).
Qed.

Lemma opened_inv (c : EConn) s : Einv c -> tc_sm (hstate c) = Some s -> TlsSafe.Inv s.
Proof. intros Hc Hs. pose proof (bi_app _ _ (ei_base _ _ Hc)) as [Hi _]. by rewrite Hs in Hi. Qed.

(** [WriteRaw] beside the hook. *)
Lemma wp_raw data (c : EConn) : Einv c ->
  wp (if 0 <? zlen data then WriteRaw data else mret None) (fun _ c' => Einv c' /\ estep c c' /\
    hstate c' = hstate c /\ writeHookFn c' = writeHookFn c /\
    (closed c' = false -> written c' = written c ++ data)) c.
Proof.
  intros Hc. destruct (Z.ltb_spec 0 (zlen data)) as [Hpos|Hz].
  - unfold WriteRaw, IsClosed. wp_steps. destruct (closed c) eqn:Ho.
    { wp_steps. split; [done|]. split; [done|]. split; [done|]. split; [done|]. congruence. }
    replace (zlen data =? 0) with false by lia.
    eapply wp_mono; [apply wp_write_locked; [by apply Hc|apply Hc]|]. cbn. intros e c' [_ Hw].
    destruct (wrote_inv _ _ _ _ Hc Ho Hw) as [I1 S1]. split; [done|]. split; [done|].
    by destruct Hw as (l & s & w & -> & _).
  - wp_steps. assert (data = []) as -> by (apply zlen_zero; pose proof (zlen_nonneg data); lia).
    by rewrite app_nil_r.
Qed.

(** ** The hook *)

Lemma wp_write_sealed plain s (c : EConn) : Einv c -> tc_sm (hstate c) = Some s ->
  wp (write_sealed proto plain) (fun _ c' => Einv c' /\ estep c c' /\
    exists ct e s', TlsState.Write plain s = Some ((ct, e), s') /\
      hstate c' = set_sm (Some s') (hstate c) /\ writeHookFn c' = writeHookFn c /\
      (closed c' = false -> written c' = written c ++ match e with None => ct | Some _ => [] end)) c.
Proof.
  intros Hc Hs. unfold write_sealed. pose proof (Write_wp plain s (opened_inv _ _ Hc Hs)) as Hw.
  unfold wp in Hw. destruct (TlsState.Write plain s) as [[[ct e] s']|] eqn:E; [|done].
  apply wp_bind. eapply wp_mono; [exact (on_sm_ok _ s (ct, e) s' c Hs E Hw Hc)|]. cbv beta.
  intros r c1 (-> & -> & I1 & S1). destruct e as [e|].
  { wp_steps. split; [done|]. split; [done|]. exists ct, (Some e), s'. by rewrite app_nil_r. }
  eapply wp_mono; [by apply wp_raw|]. cbv beta. intros _ c2 (I2 & S2 & H2 & K2 & W2).
  split; [done|]. split; [by transitivity (set_hstate (set_sm (Some s') (hstate c)) c)|].
  exists ct, None, s'. split; [done|]. by rewrite H2.
Qed.

Lemma wp_write_hook plain (c : EConn) : Einv c ->
  wp (write_hook proto plain) (fun _ c' => Einv c' /\ estep c c' /\
    (opened c -> opened c') /\ tc_inner (hstate c') = tc_inner (hstate c) /\
    (closed c' = false -> opened c -> wrote_by c c' plain)) c.
Proof.
  intros Hc. unfold write_hook. wp_steps. unfold not_established. destruct (tc_sm (hstate c)) as [s|] eqn:Hs.
  - destruct (Established s) eqn:He; cbn [negb].
    + eapply wp_mono; [by apply wp_write_sealed|]. cbv beta.
      intros _ c' (I1 & S1 & ct & e & s' & Hw & Hh & Hk & Hg). split; [done|]. split; [done|].
      rewrite Hh. split; [done|]. split; [done|].
      intros Ho _. exists s, s'. rewrite Hh. split; [done|]. split; [done|]. split; [|done].
      apply inner_writes_one. right. split; [done|]. exists ct, e. split; [done|]. by apply Hg.
    + wp_steps. rewrite Hs. do 4 (split; [done|]). intros _ _. exists s, s.
      split; [done|]. split; [done|]. split; [|done]. apply inner_writes_one. by left.
  - wp_steps. rewrite Hs. do 4 (split; [done|]). by intros _ [? ?].
Qed.

#[export] Instance tls_hook_ok : HookOk run_hook tls_ok.
Proof. intros h data c Hc. eapply wp_mono; [by apply wp_write_hook|]. cbn. tauto. Qed.

(** What the inner protocol writes goes through the hook. *)
Lemma wp_inner_Write plain (c : EConn) : Einv c ->
  wp (EngConn.Write run_hook plain) (fun _ c' => Einv c' /\ estep c c' /\
    (opened c -> opened c') /\ tc_inner (hstate c') = tc_inner (hstate c) /\
    (closed c' = false -> opened c -> writeHookFn c = Some hook -> wrote_by c c' plain)) c.
Proof.
  intros Hc. unfold EngConn.Write, IsClosed, writeHook. wp_steps. destruct (closed c) eqn:Ho.
  { wp_steps. do 4 (split; [done|]). congruence. }
  destruct (Z.eqb_spec (zlen plain) 0) as [Hz|Hz].
  { wp_steps. do 4 (split; [done|]). intros _ [s Hs] _. apply zlen_zero in Hz as ->.
    exists s, s. by repeat split; try constructor. }
  wp_steps. destruct (writeHookFn c) as [h|] eqn:Hk.
  - eapply wp_mono; [by apply wp_write_hook|]. cbv beta. intros _ c' (I1 & S1 & O1 & N1 & W1).
    do 4 (split; [done|]). intros ? ? _. by apply W1.
  - eapply wp_mono; [apply wp_write_locked; [by apply Hc|apply Hc]|]. cbv beta. intros e c' [_ Hw].
    destruct (wrote_inv _ _ _ _ Hc Ho Hw) as [I1 S1]. by destruct Hw as (l & s & w & -> & _).
Qed.

(** ** The connection is a tunnel *)

Definition hooked (b : bool) (tc : TlsConn I) (taken given : bytes) (hk : option HookId) : Prop :=
  hk = Some hook /\ exists s pin pout, tc_sm tc = Some s /\
    tunnel config isClient r0 s taken given pin pout /\ RelI b (tc_inner tc) pin pout.
Definition tls_rel (tc : TlsConn I) : bytes -> bytes -> option HookId -> Prop :=
  hooked (tc_handshakeDone tc) tc.
Notation tun b t c := (hooked b (hstate c) t (written c) (writeHookFn c)).
Notation isdone c := (tc_handshakeDone (hstate c)).

Lemma tunnel_wrote t s pin pout o (c c' : EConn) :
  tc_sm (hstate c) = Some s -> tunnel config isClient r0 s t (written c) pin pout -> wrote_by c c' o ->
  exists s', tc_sm (hstate c') = Some s' /\
    tunnel config isClient r0 s' t (written c') pin (pout ++ o) /\
    isdone c' = isdone c /\ writeHookFn c' = writeHookFn c.
Proof.
  intros Hs Ht (s1 & s' & Hs1 & Hs' & Hw & Hd & Hk). rewrite Hs in Hs1. injection Hs1 as <-.
  exists s'. split; [done|]. split; [|done]. by eapply tunnel_writes.
Qed.

Lemma open_before (c c' : EConn) : estep c c' -> closed c' = false -> closed c = false.
Proof. intros S Ho. destruct (closed c) eqn:E; [|done]. pose proof (es_closed _ _ S E). congruence. Qed.

Lemma wp_flush_out out s s' (c : EConn) : Einv c -> tc_sm (hstate c) = Some s ->
  TakeOutput s = Some (out, s') ->
  wp flush (fun _ c' => Einv c' /\ estep c c' /\ hstate c' = set_sm (Some s') (hstate c) /\
    writeHookFn c' = writeHookFn c /\ (closed c' = false -> written c' = written c ++ out)) c.
Proof.
  intros Hc Hs E. pose proof (safe_TakeOutput s (opened_inv _ _ Hc Hs)) as Ht. unfold wp in Ht.
  rewrite E in Ht. destruct Ht as [_ Hi']. unfold flush. apply wp_bind.
  eapply wp_mono; [exact (on_sm_ok _ s out s' c Hs E Hi' Hc)|]. cbv beta.
  intros ? c1 (-> & E1 & I1 & S1). pose proof (wp_raw out c1 I1) as Hr.
  eapply (wp_mono _ (fun _ c' => Einv c' /\ estep c1 c' /\ hstate c' = hstate c1 /\
    writeHookFn c' = writeHookFn c1 /\ (closed c' = false -> written c' = written c1 ++ out))).
  { destruct (0 <? zlen out); [|exact Hr]. apply wp_bind. eapply wp_mono; [exact Hr|].
    intros e c' Hp. apply wp_ret. exact Hp. }
  cbv beta. intros _ c2 (I2 & S2 & H2 & K2 & W2). split; [done|]. split; [by transitivity c1|].
  rewrite H2, K2, E1. split; [done|]. split; [done|]. intros Ho. by rewrite (W2 Ho), E1.
Qed.

Lemma takes_output (s : StateMachine) : TlsSafe.Inv s ->
  exists out s', TakeOutput s = Some (out, s') /\ TlsSafe.Inv s'.
Proof.
  intros Hi. pose proof (safe_TakeOutput s Hi) as Ht. unfold wp in Ht.
  destruct (TakeOutput s) as [[out s']|]; [|done]. exists out, s'. by destruct Ht.
Qed.

Lemma wp_flush (c : EConn) : Einv c -> opened c ->
  wp flush (fun _ c' => Einv c' /\ estep c c' /\ opened c' /\ isdone c' = isdone c /\
    forall b t, closed c' = false -> tun b t c -> tun b t c') c.
Proof.
  intros Hc [s Hs]. destruct (takes_output s (opened_inv _ _ Hc Hs)) as (out & s' & E & _).
  eapply wp_mono; [by apply (wp_flush_out out s s')|]. cbv beta. intros _ c2 (I2 & S2 & H2 & K2 & W2).
  split; [done|]. split; [done|]. rewrite H2, K2. split; [by eexists|]. split; [done|].
  intros b t Ho (Hk & s1 & pin & pout & Hs1 & Htun & Hrel).
  rewrite Hs in Hs1. injection Hs1 as <-. split; [done|]. exists s', pin, pout. split; [done|].
  rewrite (W2 Ho). split; [|done]. by eapply tun_take.
Qed.

Lemma wp_flushInner (c : EConn) : Einv c ->
  wp (flushInner proto (Some inner)) (fun _ c' => Einv c' /\ estep c c' /\ (opened c -> opened c') /\
    forall b t, closed c' = false -> tun b t c -> isdone c' = isdone c /\ tun b t c') c.
Proof.
  intros Hc. unfold flushInner. cbn [mbind option_bind]. destruct (in_take inner) as [take|] eqn:Ht; [|by wp_steps].
  apply wp_bind. eapply wp_mono; [by apply (in_take_ok take)|]. cbv beta. intros p c1 (I1 & S1 & O1 & R1).
  assert (forall b t, closed c1 = false -> tun b t c -> isdone c1 = isdone c /\ writeHookFn c1 = Some hook /\
    exists s pin pout, tc_sm (hstate c1) = Some s /\ tunnel config isClient r0 s t (written c1) pin pout /\
      RelI b (tc_inner (hstate c1)) pin (pout ++ p)) as Htun.
  { intros b t Ho (Hk & s & pin & pout & Hs & Hu & Hr). destruct (R1 b pin pout Ho) as [Hw Hr1]; [by eexists|done|].
    destruct (tunnel_wrote _ _ _ _ _ _ _ Hs Hu Hw) as (s' & Hs' & Hu' & Hd & Hk'). rewrite app_nil_r in Hu'.
    split; [done|]. split; [congruence|]. by exists s', pin, pout. }
  destruct (Z.ltb_spec 0 (zlen p)) as [Hp|Hp].
  - apply wp_bind. eapply wp_mono; [by apply wp_inner_Write|]. cbv beta. intros _ c2 (I2 & S2 & O2 & N2 & W2).
    apply wp_ret. split; [done|]. split; [by transitivity c1|]. split; [tauto|]. intros b t Ho Hu.
    destruct (Htun b t (open_before _ _ S2 Ho) Hu) as (Hd & Hk & s & pin & pout & Hs & Hu1 & Hr).
    destruct (tunnel_wrote t s pin pout p c1 c2 Hs Hu1) as (s' & Hs' & Hu' & Hd' & Hk').
    { apply W2; [done|by eexists|done]. }
    split; [congruence|]. split; [congruence|]. exists s', pin, (pout ++ p). by rewrite N2.
  - wp_steps. split; [done|]. split; [done|]. split; [done|]. intros b t Ho Hu.
    destruct (Htun b t Ho Hu) as (Hd & Hk & s & pin & pout & Hs & Hu1 & Hr). split; [done|]. split; [done|].
    exists s, pin, pout. assert (p = []) as -> by (apply zlen_zero; pose proof (zlen_nonneg p); lia).
    by rewrite app_nil_r in Hr.
Qed.

(** ** The handlers *)

Lemma set_done_inv (c : EConn) : Einv c ->
  Einv (set_hstate (set_handshakeDone true (hstate c)) c) /\
  estep c (set_hstate (set_handshakeDone true (hstate c)) c).
Proof. intros Hc. apply Einv_set_hstate; [done|]. exact (bi_app _ _ (ei_base _ _ Hc)). Qed.

Lemma wp_open_inner (c : EConn) : Einv c -> opened c ->
  wp (open_inner proto (Some inner)) (fun _ c' => Einv c' /\ estep c c' /\ opened c' /\
    forall t, closed c' = false -> tun (isdone c) t c -> tun (isdone c') t c') c.
Proof.
  intros Hc [s Hs]. unfold open_inner. apply wp_bind.
  eapply wp_mono; [exact (on_sm_ok (gets Established) s (Established s) s c Hs eq_refl (opened_inv _ _ Hc Hs) Hc)|].
  cbv beta. intros ? c0 (-> & E0 & I0 & S0).
  assert (c0 = c) as -> by (rewrite E0; destruct c as [? ? ? ? ? ? ? ? ? ? ? ? ? ? []]; cbn in *; by rewrite Hs).
  clear E0. wp_steps. destruct (Established s && negb (isdone c)) eqn:Hgo.
  2: { wp_steps. split; [done|]. split; [done|]. split; [by eexists|]. done. }
  apply andb_true_iff in Hgo as [_ Hnd%negb_true_iff]. unfold on_tls. wp_steps.
  destruct (set_done_inv c Hc) as [I1 S1]. set (c1 := set_hstate _ c) in *.
  eapply wp_mono; [apply in_open_ok; [done|by eexists]|]. cbv beta. intros _ c2 (I2 & S2 & O2 & R2).
  wp_steps. eapply wp_mono; [by apply wp_flushInner|]. cbv beta. intros _ c3 (I3 & S3 & O3 & R3).
  split; [done|]. split; [transitivity c1; [done|by transitivity c2]|]. split; [auto|].
  intros t Ho (Hk & s1 & pin & pout & Hs1 & Hu & Hr). rewrite Hnd in Hr.
  pose proof (open_before _ _ S3 Ho) as Ho2. destruct (R2 pin pout Ho2 Hk Hr) as (o & Hw & Hr2).
  destruct (tunnel_wrote t s1 pin pout o c1 c2 Hs1 Hu Hw) as (s2 & Hs2 & Hu2 & Hd2 & Hk2).
  assert (tun true t c2) as Ht2 by (split; [by rewrite Hk2|by exists s2, pin, (pout ++ o)]).
  destruct (R3 true t Ho Ht2) as [Hd3 Ht3]. by rewrite Hd3, Hd2.
Qed.

Lemma wp_data_inner (c : EConn) : Einv c -> opened c ->
  wp (data_inner proto (Some inner)) (fun e c' => Einv c' /\ estep c c' /\
    forall t, closed c' = false -> e = None -> tun (isdone c) t c -> tun (isdone c') t c') c.
Proof.
  intros Hc [s Hs]. pose proof (safe_ReadPlaintext s (opened_inv _ _ Hc Hs)) as Hp. unfold wp in Hp.
  destruct (ReadPlaintext s) as [[p s']|] eqn:E; [|done]. destruct Hp as [Hb Hi'].
  unfold data_inner. apply wp_bind. eapply wp_mono; [exact (on_sm_ok _ s p s' c Hs E Hi' Hc)|]. cbv beta.
  intros ? c1 (-> & E1 & I1 & S1).
  assert (forall t, tun (isdone c) t c -> writeHookFn c1 = Some hook /\ exists pin pout,
    tunnel config isClient r0 s' t (written c1) (pin ++ p) pout /\
    RelI (isdone c) (tc_inner (hstate c1)) pin pout) as Hread.
  { intros t (Hk & s1 & pin & pout & Hs1 & Hu & Hr). rewrite Hs in Hs1. injection Hs1 as <-. rewrite E1.
    split; [done|]. exists pin, pout. split; [|done]. by eapply tun_read. }
  assert (isdone c1 = isdone c) as Hd1 by by rewrite E1.
  assert (tc_sm (hstate c1) = Some s') as Hs1 by by rewrite E1.
  destruct (Z.ltb_spec 0 (zlen p)) as [Hpos|Hz].
  - apply wp_bind. eapply wp_mono; [apply in_data_ok; [done|done|by eexists]|]. cbv beta.
    intros r c2 (I2 & S2 & R2). wp_steps. eapply wp_mono; [by apply wp_flushInner|]. cbv beta.
    intros _ c3 (I3 & S3 & _ & R3). apply wp_ret. split; [done|].
    split; [transitivity c1; [done|by transitivity c2]|]. intros t Ho He Ht.
    destruct (Hread t Ht) as (Hk & pin & pout & Hu & Hr).
    destruct (R2 _ pin pout (open_before _ _ S3 Ho) He Hk Hr) as (o & Hw & Hr2).
    destruct (tunnel_wrote t s' (pin ++ p) pout o c1 c2 Hs1 Hu Hw) as (s2 & Hs2 & Hu2 & Hd2 & Hk2).
    assert (tun (isdone c) t c2) as Ht2.
    { split; [by rewrite Hk2|]. by exists s2, (pin ++ p), (pout ++ o). }
    destruct (R3 _ t Ho Ht2) as [Hd3 Ht3]. by rewrite Hd3, Hd2, Hd1.
  - apply wp_ret. split; [done|]. split; [done|]. intros t Ho _ Ht.
    destruct (Hread t Ht) as (Hk & pin & pout & Hu & Hr). rewrite Hd1. split; [done|].
    assert (p = []) as -> by (apply zlen_zero; pose proof (zlen_nonneg p); lia).
    rewrite app_nil_r in Hu. by exists s', pin, pout.
Qed.

Lemma wp_tls_OnClose e (c : EConn) : Einv c ->
  wp (ConnHandler_OnClose (Some inner) e) (fun _ c' => Einv c' /\ estep c c') c.
Proof.
  intros Hc. unfold ConnHandler_OnClose. apply wp_bind. eapply wp_mono; [by apply in_close_ok|]. cbv beta.
  intros _ c1 [I1 S1]. unfold on_tls. wp_steps. pose proof (bi_app _ _ (ei_base _ _ I1)) as [_ Hi].
  destruct (Einv_set_hstate tls_ok (set_sm None (match tc_sm (hstate c1) with
    | Some s => set_tc_rand (rand s) (hstate c1) | None => hstate c1 end)) c1 I1) as [I2 S2].
  { split; [done|]. by destruct (tc_sm (hstate c1)). }
  split; [done|by transitivity c1].
Qed.

Lemma set_hook_inv (c : EConn) : Einv c ->
  Einv (set_writeHookFn (Some hook) c) /\ estep c (set_writeHookFn (Some hook) c).
Proof. exact (calm_SetWriteHook tls_ok (Some hook) c). Qed.

(** The machine a new connection gets, with the output it starts with. *)
Definition first_machine (r : Rand) (s : StateMachine) (opn : bytes) : Prop :=
  TlsSafe.Inv s /\
  if isClient then exists s0, Start (NewClientStateMachine config r) = Some (None, s0) /\ TakeOutput s0 = Some (opn, s)
  else s = NewServerStateMachine config r /\ opn = [].

Lemma first_tunnel s opn : first_machine r0 s opn -> tunnel config isClient r0 s [] opn [] [].
Proof.
  unfold first_machine. destruct isClient eqn:Hc; intros [_ Hs].
  - destruct Hs as (s0 & Hs0 & Ht). apply (tun_take _ _ _ s0 [] [] [] [] opn); [|done]. by apply tun_client.
  - destruct Hs as [-> ->]. by apply tun_server.
Qed.

Lemma wp_tls_OnOpen (c : EConn) : Einv c ->
  wp (ConnHandler_OnOpen hook config isClient (Some inner)) (fun _ c' => Einv c' /\ estep c c' /\
    writeHookFn c' = Some hook /\ exists s opn, hstate c' = set_sm (Some s) (hstate c) /\
    first_machine (tc_rand (hstate c)) s opn /\ (closed c' = false -> written c' = written c ++ opn)) c.
Proof.
  intros Hc. pose proof (bi_app _ _ (ei_base _ _ Hc)) as [_ Hi]. unfold first_machine.
  assert (forall s, TlsSafe.Inv s -> Einv (set_hstate (set_sm (Some s) (hstate c)) c) /\
    estep c (set_hstate (set_sm (Some s) (hstate c)) c)) as Hset by (intros s Hs; by apply Einv_set_hstate).
  unfold ConnHandler_OnOpen, on_tls, SetWriteHook. wp_steps. set (r := tc_rand (hstate c)).
  destruct isClient.
  - wp_steps. destruct (starts eq_refl r) as [s Hs]. pose proof (Start_inv config r None s Hs) as [Hsi _].
    specialize (Hsi eq_refl). destruct (takes_output s Hsi) as (opn & s' & Ht & Hs').
    unfold on_sm, on_tls. wp_steps. cbn [tc_sm hstate set_hstate set_sm]. rewrite Hs. wp_steps.
    destruct (Hset s Hsi) as [I1 S1]. set (c1 := set_hstate _ (set_hstate _ c)).
    change (set_hstate (set_sm (Some s) (hstate c)) c) with c1 in I1, S1.
    eapply wp_mono; [by apply (wp_flush_out opn s s')|]. cbv beta. intros _ c2 (I2 & S2 & H2 & K2 & W2).
    wp_steps. destruct (set_hook_inv c2 I2) as [I3 S3]. split; [done|].
    split; [transitivity c1; [done|by transitivity c2]|]. split; [done|]. exists s', opn.
    split; [exact H2|]. split; [|exact W2]. split; [done|]. by exists s.
  - wp_steps. destruct (Hset (NewServerStateMachine config r)) as [I1 S1]; [apply new_server_inv|].
    set (c1 := set_hstate _ c) in *. destruct (set_hook_inv c1 I1) as [I3 S3]. split; [done|].
    split; [by transitivity c1|]. split; [done|]. exists (NewServerStateMachine config r), [].
    split; [done|]. split; [split; [apply new_server_inv|done]|]. intros _. by rewrite app_nil_r.
Qed.

Lemma wp_tls_OnData buf (c : EConn) : Einv c -> bytes_ok buf ->
  wp (ConnHandler_OnData proto hook config isClient (Some inner) buf) (fun r c' => Einv c' /\ estep c c' /\
    forall t, closed c' = false -> snd r = None -> tun (isdone c) t c ->
      tun (isdone c') (t ++ upto (fst r) buf) c') c.
Proof.
  intros Hc Hb. unfold ConnHandler_OnData. wp_steps.
  eapply (wp_mono _ (fun _ c1 => Einv c1 /\ estep c c1 /\ opened c1 /\ (opened c -> c1 = c))).
  { destruct (tc_sm (hstate c)) as [s|] eqn:Hs.
    - wp_steps. split; [done|]. split; [done|]. rewrite Hs. split; [by eexists|done].
    - eapply wp_mono; [by apply wp_tls_OnOpen|]. cbv beta. intros _ c1 (I1 & S1 & _ & s & opn & H1' & _).
      split; [done|]. split; [done|]. rewrite H1'. split; [by eexists|]. by intros [? ?]. }
  cbv beta. intros _ c1 (I1 & S1 & [s Hs] & Hsame).
  pose proof (Feed_wp buf s Hb (opened_inv _ _ I1 Hs)) as Hf. unfold wp in Hf.
  destruct (Feed buf s) as [[[n e] s']|] eqn:E; [|done]. destruct Hf as [_ Hi'].
  apply wp_bind. eapply wp_mono; [exact (on_sm_ok _ s (n, e) s' c1 Hs E Hi' I1)|]. cbv beta.
  intros ? c2 (-> & E2 & I2 & S2). destruct e as [e|].
  { wp_steps. split; [done|]. split; [by transitivity c1|done]. }
  assert (opened c2) as O2 by (rewrite E2; by eexists).
  apply wp_bind. eapply wp_mono; [by apply wp_flush|]. cbv beta. intros _ c3 (I3 & S3 & O3 & D3 & R3).
  destruct O3 as [s3 Hs3]. apply wp_bind.
  eapply wp_mono; [exact (on_sm_ok (gets err) s3 (err s3) s3 c3 Hs3 eq_refl (opened_inv _ _ I3 Hs3) I3)|].
  cbv beta. intros ? c4 (-> & E4 & I4 & S4).
  assert (estep c c4) as S04 by (transitivity c1; [done|]; transitivity c2; [done|by transitivity c3]).
  assert (c4 = c3) as -> by (rewrite E4; destruct c3 as [? ? ? ? ? ? ? ? ? ? ? ? ? ? []]; cbn in *; by rewrite Hs3).
  destruct (err s3) as [e|]; [by wp_steps|].
  apply wp_bind. eapply wp_mono; [apply wp_open_inner; [done|by eexists]|]. cbv beta.
  intros _ c5 (I5 & S5 & O5 & R5). apply wp_bind. eapply wp_mono; [by apply wp_data_inner|]. cbv beta.
  intros e c6 (I6 & S6 & R6). assert (estep c c6) as S06 by (transitivity c3; [done|by transitivity c5]).
  destruct e as [e|]; wp_steps; [done|]. split; [done|]. split; [done|]. cbn [fst snd].
  intros t Ho _ Ht. apply R6; [done|done|]. apply R5; [by eapply open_before|]. rewrite D3.
  apply R3; [by eapply open_before, open_before|]. pose proof Ht as (Hk & s0 & pin & pout & Hs0 & Hu & Hr).
  rewrite Hsame in * by (by eexists). rewrite Hs in Hs0. injection Hs0 as <-. rewrite E2.
  split; [done|]. exists s', pin, pout. split; [done|]. split; [|done]. by eapply tun_feed.
Qed.

Context (start_ok : RelI false i0 [] []).

#[export] Instance tls_handler_ok :
  EngLoop.HandlerOk (Some (tls proto hook config isClient (Some inner))) tls_ok (NewConnHandler i0 r0) tls_rel.
Proof.
  split.
  - intros e c Hc. by apply wp_tls_OnClose.
  - intros c Hc. eapply wp_mono; [by apply wp_tls_OnOpen|]. cbv beta.
    intros _ c' (I1 & S1 & K1 & s & opn & H1' & F1 & W1). split; [done|]. split; [done|].
    intros _ Hh Hcs Hwr _ Ho. pose proof (es_open _ _ S1 Ho) as [= _ _ _ _ -> _].
    rewrite H1', Hh, Hcs. split; [done|]. exists s, [], []. split; [done|]. split; [|done].
    rewrite (W1 Ho), Hwr. rewrite Hh in F1. by apply first_tunnel.
  - intros buf c Hc Hb. eapply wp_mono; [by apply wp_tls_OnData|]. cbv beta.
    intros r c' (I1 & S1 & R1). split; [done|]. split; [done|]. intros Ho Hr Ho' He. apply R1; [done|done|].
    by apply Hr.
Qed.
End Stack.

(** C13: TLS between the event loop and a protocol is a tunnel.  The inner
    protocol is one that keeps [InnerOk]: each call of its [OnData] takes all the
    plaintext it is given, and its [OnOpen] does not close the connection (what
    happens otherwise: [TlsPlain.inner_bytes_lost], [TlsPlain.refusing_inner_panics]);
    and no write of the socket fails for good ([unbroken]).  Then for every
    sequence of events and every way the kernel cuts the input and takes the
    output nothing panics; and while the connection is open there is a state machine that has taken
    the bytes consumed, its output and the records of what the inner protocol
    wrote are the bytes sent and waiting, and the inner protocol has been given
    exactly the plaintext of that machine.  Nothing else is ever written. *)
Theorem tls_is_a_tunnel `{EngLib} `{!EngLaws} {C : Crypto} {L : CryptoLaws C} {I : Type}
    (proto : error -> ProtoError) (hook : HookId) config isClient (inner : Inner (I := I)) i0 r0
    (inner_ok : I -> Prop) (RelI : bool -> I -> bytes -> bytes -> Prop) nfd fuel evs w :
  unbroken nfd w ->
  (isClient = true -> forall r, exists s, Start (NewClientStateMachine config r) = Some (None, s)) ->
  InnerOk hook inner inner_ok RelI -> inner_ok i0 -> RelI false i0 [] [] ->
  (2 * reads_left w + 1 < fuel)%nat ->
  wp (serve (Some (tls proto hook config isClient (Some inner))) nfd fuel evs)
     (fun _ c' => closed c' = false -> calls c' <> [] ->
        exists s pin pout, tc_sm (hstate c') = Some s /\
          tunnel config isClient r0 s (consumed c') (sent c' ++ waiting c') pin pout /\
          RelI (tc_handshakeDone (hstate c')) (tc_inner (hstate c')) pin pout /\
          received c' = consumed c' ++ unread c' /\
          received c' ++ incoming (EngConn.world c') = incoming w)
     (blank w (NewConnHandler i0 r0)).
Proof.
  intros Hunbroken Hstart Hin Hi Hr Hf.
  assert (HandlerOk (Some (tls proto hook config isClient (Some inner))) (tls_ok inner_ok) (NewConnHandler i0 r0)
    (tls_rel hook config isClient r0 RelI)) as Hok by by apply tls_handler_ok.
  eapply wp_mono; [eapply (wp_serve _ (tls_ok inner_ok) (NewConnHandler i0 r0)
    (tls_rel hook config isClient r0 RelI)); done|].
  cbv beta. intros _ c' [Lv S] Ho Hc. pose proof (live_Binv _ _ _ _ Lv) as Hb.
  destruct (live_rel _ _ _ _ Lv Ho Hc) as (_ & s & pin & pout & Hs & Hu & Hrel).
  exists s, pin, pout. split; [done|]. split; [|split; [done|]].
  - destruct (bi_wire _ _ Hb) as (rest & Hw & Hrest). rewrite (Hrest Ho), app_nil_r in Hw. by rewrite <- Hw.
  - split; [apply (bi_stream _ _ Hb Ho)|exact S].
Qed.
