(* ===== verification/TlsPlain.v ===== *)
(** * TlsPlain

    A kernel and an inner protocol on which the TLS adapter runs: the kernel of
    [EngServe] with one write hook, and an echo over TLS.  And what happens to a
    protocol that does not take everything it is given. *)

From S2P Require Import Prelude Pump GoStd TlsRecord TlsHello TlsKeys TlsKeysFacts TlsSign TlsState TlsSafe.
From S2P Require Import TlsChannel TlsHandshake TlsToy.
From S2P Require Import Sock EngConn EngLoop EngEvents EngServe TlsEngine TlsStack.

#[export] Instance hook_eng : EngLib := {|
  World := plain_world;
  UserData := unit;
  HookId := unit;
  ProtoError := string;
  GetBytes := GetBytes (EngLib := plain_eng);
  sys_read _ := plain_read;
  sys_write _ := plain_write;
  sys_close _ w := w;
  poll_AddRead _ w := (None, w);
  poll_DelRead _ w := (None, w);
  poll_ResetRead _ w := (None, w);
|}.

#[export] Instance hook_eng_laws : EngLaws (H := hook_eng).
Proof.
  refine {| incoming := plain_incoming : World (EngLib := hook_eng) -> bytes;
            reads_left := plain_left : World (EngLib := hook_eng) -> nat |}; try done.
  - exact (GetBytes_enough (EngLaws := plain_eng_laws)).
  - exact (sys_read_spec (EngLaws := plain_eng_laws)).
  - exact (sys_write_spec (EngLaws := plain_eng_laws)).
  - intros fd p w. cbn. unfold plain_write. by destruct (pw_room w).
Defined.

Lemma hook_unbroken fd w : unbroken (H := hook_eng) fd w.
Proof. apply unbroken_always. intros p w' e. cbn. unfold plain_write. destruct (pw_room w'); [by intros [= <-]|done]. Qed.

Definition tls_proto (e : error) : ProtoError (EngLib := hook_eng) := error_text e.

(** Echo: takes all the plaintext and writes it. *)
Definition tls_echo : Inner (H := hook_eng) (C := toy) (I := unit) := {|
  in_handler := {|
    OnOpen := mret tt;
    OnData plain := EngConn.Write (run_hook tls_proto) plain ;; mret (zlen plain, None);
    OnClose _ := mret tt;
  |};
  in_take := None;
|}.

Definition tls_echoed (_ : bool) (_ : unit) (pin pout : bytes) : Prop := pout = pin.

Lemma tls_echo_ok : InnerOk (H := hook_eng) (C := toy) tt tls_echo (fun _ => True) tls_echoed.
Proof.
  split; cbn.
  - intros e c Hc. by apply wp_ret.
  - intros c Hc [s Hs]. apply wp_ret. split; [done|]. split; [done|]. split; [by eexists|].
    intros pin pout _ _ Hr. exists []. split; [|by rewrite app_nil_r].
    exists s, s. by repeat split; try constructor.
  - intros plain c Hc Hb Hs. apply wp_bind.
    eapply wp_mono; [apply (wp_inner_Write tls_proto tt (fun _ => True) plain c Hc)|]. cbv beta.
    intros _ c' (I1 & S1 & _ & _ & W1). apply wp_ret. split; [done|]. split; [done|].
    intros b pin pout Ho _ Hk Hr. exists plain. split; [by apply W1|]. unfold tls_echoed in *. congruence.
  - done.
Qed.

Definition toy_tls : option (Handler (TlsConn unit)) :=
  Some (tls tls_proto tt (Some toy_scfg) false (Some tls_echo)).

(** A ClientHello in two reads. *)
Definition tls_world : World (EngLib := hook_eng) :=
  mkWorld [upto 30 (out toy_started); from 30 (out toy_started)] [20; 1000; 1000].
Definition tls_events : list poll_event := [PollReady true false; RunTask; PollReady true true].

Lemma tls_is_a_tunnel_witness :
  wp (serve toy_tls 7 400 tls_events)
     (fun _ c' => closed c' = false -> calls c' <> [] ->
        exists s pin pout, tc_sm (hstate c') = Some s /\
          tunnel (Some toy_scfg) false 100 s (consumed c') (sent c' ++ waiting c') pin pout /\
          tls_echoed (tc_handshakeDone (hstate c')) (tc_inner (hstate c')) pin pout /\
          received c' = consumed c' ++ unread c' /\
          received c' ++ incoming (EngConn.world c') = incoming tls_world)
     (blank tls_world (NewConnHandler tt 100)).
Proof.
  apply (tls_is_a_tunnel tls_proto tt (Some toy_scfg) false tls_echo tt 100 (fun _ => True)).
  - apply hook_unbroken.
  - discriminate.
  - exact tls_echo_ok.
  - exact I.
  - reflexivity.
  - vm_compute. lia.
Defined.

(** The server has answered, and waits for the Finished. *)
Example tls_server_answers :
  match serve toy_tls 7 400 tls_events (blank tls_world (NewConnHandler tt 100)) with
  | Some (_, c) => (closed c, state <$> tc_sm (hstate c), 0 <? zlen (sent c ++ waiting c))
  | None => (true, None, false)
  end = (false, Some StateWaitFinished, true).
Proof. vm_compute. reflexivity. Qed.

(** ** A protocol that leaves bytes for later *)

(** It takes two bytes at a time, and notes what it took. *)
Definition pairs : Inner (H := hook_eng) (C := toy) (I := bytes) := {|
  in_handler := {|
    OnOpen := mret tt;
    OnData plain :=
      let n := zlen plain / 2 * 2 in
      modify (fun c => set_hstate (set_inner (tc_inner (hstate c) ++ upto n plain) (hstate c)) c) ;;
      mret (n, None);
    OnClose _ := mret tt;
  |};
  in_take := None;
|}.

(** Five bytes in two records; the engine would have kept the odd byte of the
    first one, the adapter throws it away. *)
Definition lost_byte : option bytes :=
  match TlsState.Write [1; 2; 3] (toy_end 0 1) with
  | Some ((r1, None), x) =>
      match TlsState.Write [4; 5] x with
      | Some ((r2, None), _) =>
          let t := mkTlsConn (Some (toy_end 1 0)) true ([] : bytes) 0 in
          match (ConnHandler_OnData tls_proto tt None false (Some pairs) r1 ;;
                 ConnHandler_OnData tls_proto tt None false (Some pairs) r2) (blank tls_world t) with
          | Some (_, c) => Some (tc_inner (hstate c))
          | None => None
          end
      | _ => None
      end
  | _ => None
  end.

Lemma inner_bytes_lost : lost_byte = Some [1; 2; 4; 5].
Proof. vm_compute. reflexivity. Qed.

(** ** A protocol that closes the connection when it is opened *)

(** Its [OnOpen] is [c.Close()], its [OnClose] does nothing. *)
Definition refuser : Inner (H := hook_eng) (C := toy) (I := unit) := {|
  in_handler := {| OnOpen := close_conn None; OnData _ := mret (0, None); OnClose _ := mret tt |};
  in_take := None;
|}.

(** The end of the handshake, or any data behind it, then makes the adapter use
    a state machine that [OnClose] has set to nil. *)
Definition refused_panics : bool :=
  match TlsState.Write [1] (toy_end 0 1) with
  | Some ((r, None), _) =>
      match ConnHandler_OnData tls_proto tt None false (Some refuser) r
        (blank tls_world (mkTlsConn (Some (toy_end 1 0)) false tt 0)) with
      | Some _ => false
      | None => true
      end
  | _ => false
  end.

Lemma refusing_inner_panics : refused_panics = true.
Proof. vm_compute. reflexivity. Qed.

(** ** Data before the handshake is over *)

(** A server that has keys but not the client's Finished hands what arrives to
    the inner protocol, which has not been opened. *)
Lemma data_before_open :
  match TlsState.Write [1; 2] (toy_end 0 1) with
  | Some ((r, None), _) =>
      match ConnHandler_OnData tls_proto tt None false (Some pairs) r
        (blank tls_world (mkTlsConn (Some (set_state StateWaitFinished (toy_end 1 0))) false [] 0)) with
      | Some (_, c) => Some (tc_inner (hstate c), tc_handshakeDone (hstate c))
      | None => None
      end
  | _ => None
  end = Some ([1; 2], false).
Proof. vm_compute. reflexivity. Qed.
